(* ===== verification/_CoqProject ===== *)
-Q . S2P
Prelude.v
CString.v
Printf.v
Spinlock.v
Pipe.v
Sleep.v
Proc.v
ProcSys.v
Bio.v
Log.v
Blocks.v
TxLog.v
Fs.v
FsAlloc.v
FsFile.v
FsWrite.v
FsSpec.v
FsPath.v
FsInode.v
Kalloc.v
Vm.v
VmSpace.v
VmUser.v
VmLoad.v
VmFork.v
VmSpec.v
Syscall.v
Sysfile.v
SysfileSpec.v
Random.v
Sh.v
ShParse.v
ShSpec.v
Console.v
Kbd.v
Umalloc.v
UmallocSpec.v
Ide.v
Grep.v
Exec.v
ExecSpec.v
Machine.v
Kernel.v
Mp.v
Devices.v
Mkfs.v
MkfsSpec.v
Boot.v
Start.v
Main.v
Programs.v
