(* ===== verification/Prelude.v ===== *)
(** * xv6: a verification development

    xv6 is a small Unix for x86 multiprocessors (src/).  This library translates its
    code into Rocq functions and relations and proves what makes it correct.

    ** The program and the files that model it

    The boot loader (bootmain.c) reads the kernel from the disk; main.c starts the other
    processors.  The kernel is layered.  Spin locks (spinlock.c) and sleep/wakeup (proc.c)
    synchronise everything else.  Above them are the process table and the scheduler
    (proc.c), the page allocator (kalloc.c) and the page tables (vm.c), pipes (pipe.c), and
    the file system: a buffer cache (bio.c) over a disk (ide.c or memide.c), a write-ahead
    log (log.c), inodes, directories and paths (fs.c), open files (file.c).  System calls
    (syscall.c, sysproc.c, sysfile.c, exec.c) and traps (trap.c, trapasm.S) give user
    programs access to them.  The console (console.c, uart.c, kbd.c) is a device file; the
    interrupt controllers (lapic.c, ioapic.c, picirq.c) route its interrupts, as the tables
    mp.c reads say.  random.c adds a random number generator.  On the user side are the
    library (ulib.c, printf.c, umalloc.c), the shell (sh.c), grep and the small programs;
    mkfs.c builds the disk.

    - Prelude: machine integers with their wrap-around, little-endian byte sequences,
      array updates, the monad [M] of kernel code with its program logic.
    - CString ([Mem], [Str]): string.c, ulib.c.  Printf: printf.c and cprintf.
    - Spinlock ([Spin], [SpinSys]): spinlock.c; acquire and release also as interleaved
      memory accesses of several CPUs.
    - Pipe ([Pipe], [PipeSys]): pipe.c, as interleaved sections under the pipe lock.
    - Sleep: the locking protocol of sleep and wakeup of proc.c, one lock operation per
      step.
    - Proc, ProcSys: the routines of proc.c over an interface for memory and files
      ([Proc.KernelEnv]), and their interleaving on several CPUs.
    - Bio: bio.c with its doubly linked list, and iderw of memide.c.
    - Ide: ide.c with its request queue, against the registers of the controller.
    - Log: log.c; the disk records the writes it receives, a crash is a prefix of them.
    - Blocks, TxLog: the interface [Blocks.TxLayer] through which fs.c uses the log and
      the cache, and the proof that log.c and bio.c implement it.
    - Fs, FsAlloc, FsFile, FsWrite, FsSpec, FsPath, FsInode: fs.c over that interface;
      the bitmap allocator, the contents of files, the contracts, paths, the inode cache.
    - Mkfs, MkfsSpec: mkfs.c, and the proof that its image is a file system for fs.c.
    - Kalloc: kalloc.c, with the free list linked through the free pages in memory.
    - Vm, VmSpace, VmUser, VmLoad, VmFork, VmSpec: vm.c over Kalloc, with page tables in
      memory; address spaces, growing and shrinking, loading and freeing, copies, the
      contracts.
    - Exec, ExecSpec: exec.c over Vm and an interface to the inode routines.
    - Syscall: syscall.c, sysproc.c, trap.c.
    - Sysfile, SysfileSpec: file.c, sysfile.c and pipealloc over Fs and Pipe.
    - Machine: the processor as far as traps and context switches need it: trapasm.S,
      swtch.S, vectors.pl, usys.S, tvinit, and the segments and register loads of vm.c.
    - Kernel: the implementation of [Proc.KernelEnv] by Kalloc, Vm, Sysfile, Fs and
      Machine, and fork, exit and wait on the whole.
    - Mp, Devices: mp.c; lapic.c, ioapic.c, picirq.c, timer.c and uart.c over the
      interface [Devices.Bus], which a model of the controllers implements.
    - Boot, Start, Main: bootmain.c; the boot page table and startothers of main.c; main
      itself, over all the components it initialises.
    - Console, Kbd: console.c with uartputc, kbd.c with its tables.
    - Random: random.c.
    - Sh, ShParse, ShSpec: sh.c; the parser, its termination, the language of the shell
      and the processes it starts.
    - Umalloc, UmallocSpec: umalloc.c with the headers of its blocks in memory.
    - Grep: grep.c.
    - Programs: cat, wc, echo, ls, rm, mkdir, ln, kill, init and others as interaction
      trees over system call events.

    ** Conventions

    Definitions keep the names of the C functions, structs are records, pointers to
    elements of a table are indices.  A C integer is a [Z]; where an operation can leave
    the range of its type the wrap-around is written out ([u32], [s32], ...).  Kernel
    code is a function of the state it owns ([M]): it returns, panics, or blocks on a
    condition that only another thread can change.  [wp] is total correctness: the
    routine returns.  Where threads interleave, the steps of a relation are the stretches
    of code between two synchronisation points, and invariants are proved over all
    sequences of steps.  A critical section under a spin lock is one step; that spin
    locks provide this is what Spinlock shows.  Hardware is modelled as its documentation
    describes it, as far as the code touches it: the task file of the disk controller,
    the interrupt controllers, gates and privilege levels of the processor.

    ** What the theorems show

    - Synchronisation: mutual exclusion and interrupt nesting of spin locks, no lost
      wakeup, the invariant of the process table (who runs where, parents, zombies),
      unique pids, bounded waiting in the scheduler.
    - Processes: fork either copies the process completely or fails and leaves every
      process, file and user byte as it was, with the lost pages counted; fork, exit and
      wait together give back every page and every reference; exec loads an ELF file and
      its arguments; a trap saves and restores every register, swtch resumes a context.
    - Pipes: first in first out over all interleavings of readers and writers, and no
      lost wakeup unless a writer is killed (with the run that shows why not).
    - Disk: the driver completes every request with the right contents, reads return the
      contents of the block, a transaction is atomic under a crash at any disk write, also
      with operations of fs.c as its body.
    - Files: what allocation, freeing, reading and writing do to the bytes of a file and
      to the bitmap, reference counts of inodes and of open files, paths; mkfs builds an
      image with exactly the files it is given.
    - Memory: the free list and the pages in use partition memory, and the effect of
      allocuvm, deallocuvm, copyuvm and copyout on the user memory of a process.
    - System calls: arguments stay inside the process, a killed process does not return
      to user mode.
    - Start: the boot loader loads every segment of the kernel; mpinit reads what the
      tables say; main, while the other processors already run their schedulers, comes to
      its end with the first process ready to run, every page of memory accounted for, the
      other processors started on stacks they can reach, and the enabled interrupt lines
      delivered under the numbers trap expects.
    - Devices and user code: the console is a line editor and stays on the screen, the
      keyboard driver is well typed, the random generator is a Lehmer generator, decimal
      output is read back by atoi, malloc and free keep the heap tiled by blocks in use and
      coalesced free blocks, the shell finds the words of a line, parses its language and starts the processes of a line with the right descriptors,
      grep matches its regular expressions, wc counts and cat copies however the reads cut
      a file into pieces.

    The findings of the development (a process can stop the kernel, a missing check of a
    negative size, and others) are lemmas or theorems with a concrete run.

    ** Fuel

    Loops that are not structural carry fuel, which is shown or seen to be enough: paths
    have at most as many elements as bytes ([FsPath.namex_terminates]); each round of the
    shell parser consumes a character ([ShParse.parsecmd_total]) and each line read some
    input ([ShSpec.getcmd_consumes]); scans of tables and lists are bounded by their
    sizes; page loops by the number of pages; control-U erases at most the 128 bytes of
    the ring; a [uint] has at most 32 digits; waiting for a device is a loop whose length
    the state of the device determines.  The loops of Programs are [ITree.iter] and need
    no fuel.

    ** Not modelled

    - bootasm.S, entry.S, entryother.S, initcode.S: straight-line set-up of registers
      before the routines modelled here.
    - The test programs.
    - Interleaving inside file system calls: SysfileSpec runs one call at a time;
      waiting for a busy buffer or inode is the outcome [Blocked].
    - Messages the kernel prints on its way (cprintf), except in Printf, Console and
      procdump. *)

From Stdlib Require Export ZArith Lia.
From stdpp Require Export base gmap strings numbers.
From stdpp Require Export list.

#[global] Set Default Goal Selector "!".
#[global] Open Scope Z_scope.

(** ** Machine integers

    A C integer of width [w] is a [Z]; every place where the source can leave
    the range of its type carries the corresponding wrap-around. *)

Definition u32 (x : Z) : Z := x mod 4294967296.
Definition u16 (x : Z) : Z := x mod 65536.
Definition u8 (x : Z) : Z := x mod 256.

(** Reinterpretation of the low bits as a two's complement number. *)
Definition s32 (x : Z) : Z :=
  if u32 x <? 2147483648 then u32 x else u32 x - 4294967296.
Definition s16 (x : Z) : Z :=
  if u16 x <? 32768 then u16 x else u16 x - 65536.
Definition s8 (x : Z) : Z :=
  if u8 x <? 128 then u8 x else u8 x - 256.

Definition is_u32 (x : Z) : Prop := 0 <= x < 4294967296.
Definition is_byte (x : Z) : Prop := 0 <= x < 256.

(** Flag words: [x & f], [x |= f], [x &= ~f]. *)
Definition has_flag (x f : Z) : bool := negb (Z.land x f =? 0).
Definition set_flag (x f : Z) : Z := Z.lor x f.
Definition clear_flag (x f : Z) : Z := Z.land x (Z.lnot f).

Create HintDb xv6.

(** [lia] with division and modulo by constants. *)
Ltac dlia := zify; Z.to_euclidean_division_equations; lia.

Lemma u32_range x : is_u32 (u32 x).
Proof. unfold is_u32, u32. apply Z.mod_pos_bound. lia. Qed.

Lemma u32_small x : is_u32 x -> u32 x = x.
Proof. apply Z.mod_small. Qed.

Lemma u32_u32 x : u32 (u32 x) = u32 x.
Proof. apply u32_small, u32_range. Qed.

Lemma u32_add_l x y : u32 (u32 x + y) = u32 (x + y).
Proof. unfold u32. by rewrite Zplus_mod_idemp_l. Qed.

Lemma u32_add_r x y : u32 (x + u32 y) = u32 (x + y).
Proof. unfold u32. by rewrite Zplus_mod_idemp_r. Qed.

Lemma u32_sub_l x y : u32 (u32 x - y) = u32 (x - y).
Proof. unfold u32. by rewrite Zminus_mod_idemp_l. Qed.

Lemma u32_sub_r x y : u32 (x - u32 y) = u32 (x - y).
Proof. unfold u32. by rewrite Zminus_mod_idemp_r. Qed.

Lemma u8_range x : is_byte (u8 x).
Proof. unfold is_byte, u8. apply Z.mod_pos_bound. lia. Qed.

Lemma u8_small x : is_byte x -> u8 x = x.
Proof. apply Z.mod_small. Qed.

Lemma s32_small x : -2147483648 <= x < 2147483648 -> s32 x = x.
Proof.
  intros. unfold s32, u32. destruct (Z.ltb_spec (x mod 4294967296) 2147483648); dlia.
Qed.

Lemma s32_range x : -2147483648 <= s32 x < 2147483648.
Proof.
  unfold s32. pose proof (u32_range x) as Hr. unfold is_u32 in Hr.
  destruct (Z.ltb_spec (u32 x) 2147483648); lia.
Qed.

#[export] Hint Resolve u32_range u8_range : xv6.
Create Rewrite HintDb u32.
#[export] Hint Rewrite u32_u32 u32_add_l u32_add_r u32_sub_l u32_sub_r : u32.

(** A [u32] unfolded for [lia]. *)
Ltac u32_lia := unfold is_u32, is_byte, u32, u16, u8 in *; dlia.

(** A boolean property of bytes, decided on all 256 of them. *)
Lemma byte_forall (f : Z -> bool) :
  forallb (fun i => f (Z.of_nat i)) (seq 0 256) = true ->
  forall b, is_byte b -> f b = true.
Proof.
  intros Hall b Hb. unfold is_byte in Hb. rewrite forallb_forall in Hall.
  specialize (Hall (Z.to_nat b)). rewrite Z2Nat.id in Hall by lia.
  apply Hall, in_seq. lia.
Qed.

(** ** Byte sequences

    [le_bytes n z] is the little-endian representation of [z] on [n] bytes (the
    x86 layout of every multi-byte field), [le_val] reads it back. *)

Fixpoint le_bytes (n : nat) (z : Z) : list Z :=
  match n with
  | O => []
  | S n' => u8 z :: le_bytes n' (z / 256)
  end.

Fixpoint le_val (l : list Z) : Z :=
  match l with
  | [] => 0
  | b :: l' => b + 256 * le_val l'
  end.

Lemma length_le_bytes n z : length (le_bytes n z) = n.
Proof. revert z. induction n as [|n IH]; intros z; simpl; [done|]. by rewrite IH. Qed.

Lemma le_bytes_bytes n z : Forall is_byte (le_bytes n z).
Proof. revert z. induction n; intros z; simpl; constructor; auto with xv6. Qed.

Lemma le_val_bytes n z : le_val (le_bytes n z) = z mod 256 ^ Z.of_nat n.
Proof.
  revert z. induction n as [|n IH]; intros z; cbn [le_bytes le_val].
  - by rewrite Z.pow_0_r, Z.mod_1_r.
  - rewrite IH, Nat2Z.inj_succ, Z.pow_succ_r by lia. unfold u8.
    rewrite Z.rem_mul_r by lia. lia.
Qed.

Lemma le_val_range l :
  Forall is_byte l -> 0 <= le_val l < 256 ^ Z.of_nat (length l).
Proof.
  induction 1 as [|b l Hb Hl IH]; cbn [le_val length]; [lia|].
  rewrite Nat2Z.inj_succ, Z.pow_succ_r by lia. unfold is_byte in Hb. lia.
Qed.

Lemma le_bytes_val l : Forall is_byte l -> le_bytes (length l) (le_val l) = l.
Proof.
  induction 1 as [|b l Hb Hl IH]; cbn [le_val length le_bytes]; [done|].
  assert (u8 (b + 256 * le_val l) = b) as -> by u32_lia.
  assert ((b + 256 * le_val l) / 256 = le_val l) as -> by u32_lia.
  by rewrite IH.
Qed.

(** [splice l n l'] overwrites [l] from index [n] on with [l'] (a [memmove] into
    an array), [window l n k] is the [k] elements of [l] from index [n] on. *)

Definition splice {A} (l : list A) (n : nat) (l' : list A) : list A :=
  take n l ++ l' ++ drop (n + length l')%nat l.

Definition window {A} (l : list A) (n k : nat) : list A := take k (drop n l).

Section Splice.
Context {A : Type}.
Implicit Types l r : list A.

Lemma length_splice l n r :
  (n + length r <= length l)%nat -> length (splice l n r) = length l.
Proof. intros. unfold splice. rewrite !length_app, length_take, length_drop. lia. Qed.

Lemma length_window l n k :
  (n + k <= length l)%nat -> length (window l n k) = k.
Proof. intros. unfold window. rewrite length_take, length_drop. lia. Qed.

Lemma lookup_window l n k i :
  (i < k)%nat -> window l n k !! i = l !! (n + i)%nat.
Proof. intros. unfold window. rewrite lookup_take_lt by lia. by rewrite lookup_drop. Qed.

Lemma lookup_splice l n r i :
  (n + length r <= length l)%nat ->
  splice l n r !! i =
    if decide (n <= i < n + length r)%nat then r !! (i - n)%nat else l !! i.
Proof.
  intros H. unfold splice. case_decide as Hi.
  - rewrite lookup_app_r by (rewrite length_take; lia).
    rewrite length_take, Nat.min_l by lia. apply lookup_app_l. lia.
  - destruct (decide (i < n)%nat).
    + rewrite lookup_app_l by (rewrite length_take; lia). by apply lookup_take_lt.
    + rewrite lookup_app_r by (rewrite length_take; lia).
      rewrite length_take, Nat.min_l by lia.
      rewrite lookup_app_r, lookup_drop by lia. f_equal. lia.
Qed.

Lemma window_splice_same l n r :
  (n + length r <= length l)%nat -> window (splice l n r) n (length r) = r.
Proof.
  intros. apply list_eq_same_length with (length r);
    [done|rewrite length_window; [done|]; rewrite length_splice; lia|].
  intros i x y Hi. rewrite lookup_window, lookup_splice by lia.
  rewrite decide_True by lia. replace (n + i - n)%nat with i by lia. congruence.
Qed.

Lemma window_splice_ne l n r m k :
  (n + length r <= length l)%nat -> (m + k <= n \/ n + length r <= m)%nat ->
  (m + k <= length l)%nat ->
  window (splice l n r) m k = window l m k.
Proof.
  intros. apply list_eq_same_length with k;
    [by rewrite length_window|rewrite length_window; [done|]; rewrite length_splice; lia|].
  intros i x y Hi. rewrite !lookup_window, lookup_splice by lia.
  rewrite decide_False by lia. congruence.
Qed.

Lemma splice_window_id l n k :
  (n + k <= length l)%nat -> splice l n (window l n k) = l.
Proof.
  intros. apply list_eq_same_length with (length l); [done| |].
  - rewrite length_splice; [done|]. rewrite length_window; lia.
  - intros i x y Hi. rewrite lookup_splice; rewrite length_window by lia; [|lia].
    case_decide; [|congruence]. rewrite lookup_window by lia.
    replace (n + (i - n))%nat with i by lia. congruence.
Qed.

Lemma splice_nil l n : splice l n [] = l.
Proof. unfold splice. simpl. rewrite Nat.add_0_r. apply take_drop. Qed.

(** Writing an array front to back. *)
Lemma splice_insert l n x r :
  (n + S (length r) <= length l)%nat ->
  splice (<[n:=x]> l) (S n) r = splice l n (x :: r).
Proof.
  intros. apply list_eq. intros i.
  rewrite !lookup_splice by (simpl; rewrite ?length_insert; lia). simpl.
  repeat case_decide; try lia.
  - replace (i - n)%nat with (S (i - S n)) by lia. done.
  - replace i with n by lia. rewrite list_lookup_insert_eq by lia.
    by rewrite Nat.sub_diag.
  - by rewrite list_lookup_insert_ne by lia.
Qed.

Lemma insert_splice l n x :
  (n < length l)%nat -> <[n:=x]> l = splice l n [x].
Proof. intros. rewrite <- splice_insert by (simpl; lia). by rewrite splice_nil. Qed.

Lemma Forall_splice (P : A -> Prop) l n r :
  Forall P l -> Forall P r -> Forall P (splice l n r).
Proof.
  intros. unfold splice. rewrite !Forall_app. split_and!; auto using Forall_take, Forall_drop.
Qed.

Lemma Forall_window (P : A -> Prop) l n k : Forall P l -> Forall P (window l n k).
Proof. intros. unfold window. auto using Forall_take, Forall_drop. Qed.
End Splice.

#[export] Hint Resolve le_bytes_bytes Forall_splice Forall_window : xv6.

(** The bytes of a string literal, without its NUL. *)
Fixpoint bytes (s : string) : list Z :=
  match s with
  | EmptyString => []
  | String a s' => Z.of_N (Ascii.N_of_ascii a) :: bytes s'
  end.

(** ** Removing an element from a list without duplicates *)

Section RemoveOne.
Context {A : Type} `{EqDecision A}.
Implicit Types (x y : A) (l : list A).

Fixpoint remove_one x l : list A :=
  match l with
  | [] => []
  | y :: l' => if decide (x = y) then l' else y :: remove_one x l'
  end.

Lemma elem_of_remove_one_sub x y l : y ∈ remove_one x l -> y ∈ l.
Proof.
  induction l as [|z l IH]; simpl; [done|]. case_decide; rewrite ?elem_of_cons; naive_solver.
Qed.

Lemma elem_of_remove_one x y l : NoDup l -> y ∈ remove_one x l <-> y ∈ l /\ y <> x.
Proof.
  induction 1 as [|z l Hz Hl IH]; simpl.
  - split; [|naive_solver]. intros []%not_elem_of_nil.
  - case_decide as E; rewrite ?elem_of_cons, ?IH; naive_solver.
Qed.

Lemma NoDup_remove_one x l : NoDup l -> NoDup (remove_one x l).
Proof.
  induction 1 as [|z l Hz Hl IH]; simpl; [constructor|]. case_decide; [done|].
  constructor; [|done]. intros Hin%elem_of_remove_one_sub. done.
Qed.

Lemma length_remove_one x l : x ∈ l -> S (length (remove_one x l)) = length l.
Proof.
  induction l as [|z l IH]; simpl; [by intros []%not_elem_of_nil|].
  case_decide; [done|]. rewrite elem_of_cons. simpl. intros [?|?]; [done|]. by rewrite IH.
Qed.

Lemma remove_one_split x l1 l2 : x ∉ l1 -> remove_one x (l1 ++ x :: l2) = l1 ++ l2.
Proof.
  induction l1 as [|z l1 IH]; simpl; [by rewrite decide_True|].
  rewrite not_elem_of_cons. intros [? ?]. rewrite decide_False by done. by rewrite IH.
Qed.

End RemoveOne.

(** ** Updating a list at an index *)

Lemma alter_alter {A} (f g : A -> A) i (l : list A) : alter f i (alter g i l) = alter (f ∘ g) i l.
Proof.
  apply list_eq. intros j. destruct (decide (i = j)) as [->|].
  - rewrite !list_lookup_alter_eq. by destruct (l !! j).
  - by rewrite !list_lookup_alter_ne.
Qed.

Lemma alter_at {A} (f g : A -> A) (l : list A) i x : l !! i = Some x -> f x = g x -> alter f i l = alter g i l.
Proof.
  intros Hi Hfg. apply list_eq. intros j. destruct (decide (i = j)) as [->|]; [|by rewrite !list_lookup_alter_ne].
  rewrite !list_lookup_alter_eq, Hi. simpl. by rewrite Hfg.
Qed.

(** ** Kernel code as state transformers

    A kernel routine runs on the state [St] it owns and ends in one of three
    ways: it returns, it calls [panic], or it goes to sleep on a condition that
    no other thread can change in the model ([Blocked]). *)

Inductive outcome (St A : Type) : Type :=
  | Ret (a : A) (s : St)
  | Panic (msg : string)
  | Blocked.
Arguments Ret {St A} _ _.
Arguments Panic {St A} _.
Arguments Blocked {St A}.

Definition M (St A : Type) : Type := St -> outcome St A.

Definition ret {St A} (a : A) : M St A := fun s => Ret a s.
Definition bind {St A B} (m : M St A) (k : A -> M St B) : M St B := fun s =>
  match m s with
  | Ret a s' => k a s'
  | Panic e => Panic e
  | Blocked => Blocked
  end.
Definition panic {St A} (msg : string) : M St A := fun _ => Panic msg.
Definition block {St A} : M St A := fun _ => Blocked.
Definition gets {St A} (f : St -> A) : M St A := fun s => Ret (f s) s.
Definition modify {St} (f : St -> St) : M St unit := fun s => Ret tt (f s).

(** Run a routine of a component inside the state of its client. *)
Definition zoom {St T A} (get : T -> St) (set : St -> T -> T) (m : M St A) : M T A :=
  fun t => match m (get t) with
           | Ret a s => Ret a (set s t)
           | Panic e => Panic e
           | Blocked => Blocked
           end.

Declare Scope kernel_scope.
Delimit Scope kernel_scope with kernel.
#[global] Open Scope kernel_scope.

Notation "'let*' x ':=' m 'in' k" := (bind m (fun x => k))
  (at level 10, x name, m at level 100, k at level 200)
  : kernel_scope.
Notation "m ';;;' k" := (bind m (fun _ => k))
  (at level 199, right associativity) : kernel_scope.

(** [for(i = 0; i < n; i++) body(i)] *)
Fixpoint for_upto {St} (n i : nat) (body : nat -> M St unit) : M St unit :=
  match n with
  | O => ret tt
  | S n' => body i ;;; for_upto n' (S i) body
  end.

(** Total correctness: the routine returns, and its result satisfies [Q]. *)
Definition wp {St A} (m : M St A) (Q : A -> St -> Prop) (s : St) : Prop :=
  match m s with
  | Ret a s' => Q a s'
  | _ => False
  end.

Section Wp.
Context {St : Type}.
Implicit Types s : St.

Lemma wp_ret {A} (a : A) (Q : A -> St -> Prop) s : Q a s -> wp (ret a) Q s.
Proof. done. Qed.

Lemma wp_bind {A B} (m : M St A) (k : A -> M St B) Q s :
  wp m (fun a s' => wp (k a) Q s') s -> wp (bind m k) Q s.
Proof. unfold wp, bind. by destruct (m s). Qed.

Lemma wp_gets {A} (f : St -> A) Q s : Q (f s) s -> wp (gets f) Q s.
Proof. done. Qed.

Lemma wp_modify (f : St -> St) Q s : Q tt (f s) -> wp (modify f) Q s.
Proof. done. Qed.

Lemma wp_mono {A} (m : M St A) (P Q : A -> St -> Prop) s :
  wp m P s -> (forall a s', P a s' -> Q a s') -> wp m Q s.
Proof. unfold wp. destruct (m s); auto. Qed.

Lemma wp_returns {A} (m : M St A) Q s :
  wp m Q s <-> exists a s', m s = Ret a s' /\ Q a s'.
Proof.
  unfold wp. destruct (m s); split; try naive_solver.
Qed.

(** A [for] loop by its invariant. *)
Lemma wp_for_upto (I : nat -> St -> Prop) n i body s :
  I i s ->
  (forall j s', (i <= j < i + n)%nat -> I j s' ->
     wp (body j) (fun _ => I (S j)) s') ->
  wp (for_upto n i body) (fun _ => I (i + n)%nat) s.
Proof.
  revert i s. induction n as [|n IH]; intros i s HI Hbody; simpl.
  - apply wp_ret. by rewrite Nat.add_0_r.
  - apply wp_bind. eapply wp_mono; [apply Hbody; [lia|done]|].
    intros [] s' HI'. replace (i + S n)%nat with (S i + n)%nat by lia.
    apply IH; [done|]. intros j s'' ? ?. apply Hbody; [lia|done].
Qed.

Lemma wp_zoom {T A} (get : T -> St) (set : St -> T -> T) (m : M St A) Q t :
  wp m (fun a s => Q a (set s t)) (get t) -> wp (zoom get set m) Q t.
Proof. unfold wp, zoom. by destruct (m (get t)). Qed.
End Wp.

(** The state a routine ends in, if it returns. *)
Definition result {St A} (m : M St A) (s : St) : St :=
  match m s with Ret _ s' => s' | _ => s end.

Lemma wp_elim {St A} (m : M St A) (Q : A -> St -> Prop) s a s' :
  wp m Q s -> m s = Ret a s' -> Q a s'.
Proof. unfold wp. intros H Heq. by rewrite Heq in H. Qed.

Lemma wp_result {St A} (m : M St A) (P : St -> Prop) s : wp m (fun _ => P) s -> P (result m s).
Proof. unfold wp, result. by destruct (m s). Qed.

(** ** Weakest liberal preconditions

    [wlp m Q s]: if [m] returns from [s], it does so in [Q].  Used for the steps
    of an interleaving, where a routine that panics takes no step. *)

Definition wlp {St A} (m : M St A) (Q : A -> St -> Prop) (s : St) : Prop :=
  match m s with
  | Ret a s' => Q a s'
  | _ => True
  end.

Section Wlp.
Context {St : Type}.

Lemma wlp_ret {A} (a : A) (Q : A -> St -> Prop) s : Q a s -> wlp (ret a) Q s.
Proof. done. Qed.

Lemma wlp_panic {A} msg (Q : A -> St -> Prop) s : wlp (panic msg) Q s.
Proof. done. Qed.

Lemma wlp_bind {A B} (m : M St A) (k : A -> M St B) Q s :
  wlp m (fun a s' => wlp (k a) Q s') s -> wlp (bind m k) Q s.
Proof. unfold wlp, bind. by destruct (m s). Qed.

Lemma wlp_gets {A} (f : St -> A) Q s : Q (f s) s -> wlp (gets f) Q s.
Proof. done. Qed.

Lemma wlp_modify (f : St -> St) Q s : Q tt (f s) -> wlp (modify f) Q s.
Proof. done. Qed.

Lemma wlp_mono {A} (m : M St A) (P Q : A -> St -> Prop) s :
  wlp m P s -> (forall a s', P a s' -> Q a s') -> wlp m Q s.
Proof. unfold wlp. destruct (m s); auto. Qed.

Lemma wlp_elim {A} (m : M St A) Q s a s' : wlp m Q s -> m s = Ret a s' -> Q a s'.
Proof. unfold wlp. intros H Heq. by rewrite Heq in H. Qed.

Lemma wlp_intro {A} (m : M St A) (Q : A -> St -> Prop) s :
  (forall a s', m s = Ret a s' -> Q a s') -> wlp m Q s.
Proof. intros H. unfold wlp. destruct (m s) eqn:E; auto. Qed.

End Wlp.

#[export] Hint Resolve wp_ret wp_gets wp_modify : xv6.

(** Compute a straight-line prefix of a routine. *)
Ltac wp_step :=
  first
    [ apply wp_bind
    | apply wp_ret
    | apply wp_gets
    | apply wp_modify ].
Ltac wp_steps := repeat (wp_step; cbn beta iota).

(** Case analysis on the boolean tests of a translated condition, turned into
    propositions. *)
Ltac bool_cases :=
  repeat match goal with
  | |- context [if ?b then _ else _] =>
      lazymatch b with
      | (?x <? ?y) => destruct (Z.ltb_spec x y)
      | (?x <=? ?y) => destruct (Z.leb_spec x y)
      | (?x =? ?y) => destruct (Z.eqb_spec x y)
      | decide _ => case_decide
      | _ => destruct b eqn:?
      end
  end.
