(* ===== verification/CString.v ===== *)
(** * string.c and ulib.c: memory and string routines

    Raw memory ([memset], [memmove], [memcmp]) is a function from addresses to
    bytes, because overlap is what those routines are about.  A [char *] that
    is only read is the list of bytes from the pointer on; reading at the end of
    the list yields the terminating NUL.  A [char[]] that is written is the list
    of its elements, updated by index. *)

From S2P Require Import Prelude.

Module Mem.

(** Byte memory, addressed by the value of a pointer. *)
Definition mem : Type := Z -> Z.

Definition mset (m : mem) (a v : Z) : mem := fun x => if x =? a then v else m x.

(** x86.h: [rep stosb] and [rep stosl]. *)
Fixpoint stosb (n : nat) (m : mem) (addr data : Z) : mem :=
  match n with
  | O => m
  | S n' => stosb n' (mset m addr (u8 data)) (addr + 1) data
  end.

Definition st32 (m : mem) (a v : Z) : mem :=
  mset (mset (mset (mset m a (u8 v)) (a + 1) (u8 (Z.shiftr v 8)))
         (a + 2) (u8 (Z.shiftr v 16))) (a + 3) (u8 (Z.shiftr v 24)).

Fixpoint stosl (n : nat) (m : mem) (addr data : Z) : mem :=
  match n with
  | O => m
  | S n' => stosl n' (st32 m addr data) (addr + 4) data
  end.

(** string.c [memset]: whole words when destination and size allow it. *)
Definition memset (m : mem) (dst c n : Z) : mem :=
  if (Z.rem (s32 dst) 4 =? 0) && (n mod 4 =? 0) then
    let c := Z.land c 255 in
    stosl (Z.to_nat (n / 4)) m dst
      (Z.lor (Z.lor (Z.lor (Z.shiftl c 24) (Z.shiftl c 16)) (Z.shiftl c 8)) c)
  else stosb (Z.to_nat n) m dst c.

(** ulib.c [memset]. *)
Definition u_memset (m : mem) (dst c n : Z) : mem := stosb (Z.to_nat n) m dst c.

Fixpoint memcmp_loop (n : nat) (m : mem) (s1 s2 : Z) : Z :=
  match n with
  | O => 0
  | S n' => if negb (m s1 =? m s2) then m s1 - m s2
            else memcmp_loop n' m (s1 + 1) (s2 + 1)
  end.

Definition memcmp (m : mem) (v1 v2 n : Z) : Z := memcmp_loop (Z.to_nat n) m v1 v2.

(** [while(n-- > 0) *d++ = *s++;] and [while(n-- > 0) *--d = *--s;] *)
Fixpoint copy_up (n : nat) (m : mem) (d s : Z) : mem :=
  match n with
  | O => m
  | S n' => copy_up n' (mset m d (m s)) (d + 1) (s + 1)
  end.

Fixpoint copy_down (n : nat) (m : mem) (d s : Z) : mem :=
  match n with
  | O => m
  | S n' => copy_down n' (mset m (d - 1) (m (s - 1))) (d - 1) (s - 1)
  end.

(** string.c [memmove]. *)
Definition memmove (m : mem) (dst src n : Z) : mem :=
  if (src <? dst) && (dst <? src + n) then
    copy_down (Z.to_nat n) m (dst + n) (src + n)
  else copy_up (Z.to_nat n) m dst src.

(** string.c [memcpy]. *)
Definition memcpy (m : mem) (dst src n : Z) : mem := memmove m dst src n.

(** ulib.c [memmove]: always upwards. *)
Definition u_memmove (m : mem) (dst src n : Z) : mem :=
  copy_up (Z.to_nat n) m dst src.

(** What a copy and a fill should do to memory. *)
Definition copied (m : mem) (dst src n : Z) : mem := fun a =>
  if (dst <=? a) && (a <? dst + n) then m (src + (a - dst)) else m a.

Definition filled (m : mem) (dst c n : Z) : mem := fun a =>
  if (dst <=? a) && (a <? dst + n) then c else m a.

(** Decide every comparison of addresses in the goal, then arithmetic. *)
Ltac addr_cases :=
  repeat match goal with
  | |- context [?x =? ?y] => destruct (Z.eqb_spec x y)
  | |- context [?x <=? ?y] => destruct (Z.leb_spec x y)
  | |- context [?x <? ?y] => destruct (Z.ltb_spec x y)
  end; simpl; try (exfalso; lia); try (f_equal; lia); try done.

Lemma copy_up_spec n m d s a :
  d <= s \/ s + Z.of_nat n <= d ->
  copy_up n m d s a = copied m d s (Z.of_nat n) a.
Proof.
  revert m d s. induction n as [|n IH]; intros m d s H; simpl.
  - unfold copied. addr_cases.
  - rewrite IH by lia. unfold copied, mset. addr_cases.
Qed.

Lemma copy_down_spec n m d s a :
  s <= d \/ d <= s - Z.of_nat n ->
  copy_down n m d s a = copied m (d - Z.of_nat n) (s - Z.of_nat n) (Z.of_nat n) a.
Proof.
  revert m d s. induction n as [|n IH]; intros m d s H; simpl.
  - unfold copied. addr_cases.
  - rewrite IH by lia. unfold copied, mset. addr_cases.
Qed.

Lemma stosb_spec n m d c a :
  stosb n m d c a = filled m d (u8 c) (Z.of_nat n) a.
Proof.
  revert m d. induction n as [|n IH]; intros m d; simpl.
  - unfold filled. addr_cases.
  - rewrite IH. unfold filled, mset. addr_cases.
Qed.

(** A word whose four bytes are the same. *)
Definition splat (v b : Z) : Prop :=
  u8 v = b /\ u8 (Z.shiftr v 8) = b /\ u8 (Z.shiftr v 16) = b /\ u8 (Z.shiftr v 24) = b.

Lemma stosl_spec n m d v b a :
  splat v b -> stosl n m d v a = filled m d b (4 * Z.of_nat n) a.
Proof.
  intros Hv. revert m d. induction n as [|n IH]; intros m d.
  - simpl. unfold filled. addr_cases.
  - cbn [stosl]. rewrite IH. destruct Hv as (H0 & H1 & H2 & H3).
    unfold filled, st32, mset. rewrite H0, H1, H2, H3. addr_cases.
Qed.

Definition splat_word (b : Z) : Z :=
  Z.lor (Z.lor (Z.lor (Z.shiftl b 24) (Z.shiftl b 16)) (Z.shiftl b 8)) b.

Lemma splat_word_splat b : is_byte b -> splat (splat_word b) b.
Proof.
  intros Hb. pose proof (byte_forall (fun b => let v := splat_word b in
    (u8 v =? b) && (u8 (Z.shiftr v 8) =? b) && (u8 (Z.shiftr v 16) =? b)
    && (u8 (Z.shiftr v 24) =? b)) eq_refl b Hb) as H.
  unfold splat. cbv zeta in H. rewrite !andb_true_iff, !Z.eqb_eq in H. tauto.
Qed.

(** The two code paths of [memset] (word stores when the destination and the
    size are multiples of four, byte stores otherwise) have the same effect: the
    [n] bytes from [dst] on hold the low byte of [c], no other byte changes. *)
Theorem memset_fills m dst c n a :
  0 <= n -> memset m dst c n a = filled m dst (u8 c) n a.
Proof.
  intros Hn. unfold memset.
  destruct (Z.eqb_spec (Z.rem (s32 dst) 4) 0), (Z.eqb_spec (n mod 4) 0); simpl;
    try by rewrite stosb_spec, Z2Nat.id by lia.
  change (Z.land c 255) with (Z.land c (Z.ones 8)). rewrite Z.land_ones by lia.
  change (c mod 2 ^ 8) with (u8 c).
  rewrite (stosl_spec _ _ _ (splat_word (u8 c)) (u8 c)) by (apply splat_word_splat; auto with xv6).
  f_equal. dlia.
Qed.

Lemma memmove_spec m dst src n a :
  0 <= n -> memmove m dst src n a = copied m dst src n a.
Proof.
  intros Hn. unfold memmove.
  destruct (Z.ltb_spec src dst), (Z.ltb_spec dst (src + n)); simpl.
  all: rewrite ?copy_down_spec, ?copy_up_spec; rewrite ?Z2Nat.id; try lia.
  by replace (dst + n - n) with dst by lia; replace (src + n - n) with src by lia.
Qed.

(** [memmove] copies correctly for every placement of source and
    destination, overlapping or not: each destination byte receives the byte the
    source held before the call, no other byte changes. *)
Theorem memmove_copies m dst src n a :
  0 <= n -> memmove m dst src n a = copied m dst src n a.
Proof. apply memmove_spec. Qed.

(** The user-level [memmove] of ulib.c agrees with the kernel's unless the
    destination starts strictly inside the source; there it is wrong (it repeats
    the first bytes of the source). *)
Theorem u_memmove_copies m dst src n a :
  0 <= n -> ~ (src < dst < src + n) ->
  u_memmove m dst src n a = memmove m dst src n a.
Proof.
  intros Hn Hov. rewrite memmove_spec by done. unfold u_memmove.
  rewrite copy_up_spec by lia. by rewrite Z2Nat.id.
Qed.

(** Witnesses. *)
Lemma memset_fills_witness :
  0 <= 8 /\ memset (fun _ => 7) 16 258 8 23 = filled (fun _ => 7) 16 (u8 258) 8 23.
Proof. split; [lia|apply memset_fills; lia]. Defined.

Lemma memmove_copies_witness :
  0 <= 5 /\ memmove (fun a => a) 12 10 5 14 = copied (fun a => a) 12 10 5 14.
Proof. split; [lia|apply memmove_copies; lia]. Defined.

Lemma u_memmove_copies_witness :
  ~ (12 < 10 < 12 + 5) /\
  u_memmove (fun a => a) 10 12 5 11 = memmove (fun a => a) 10 12 5 11.
Proof. split; [lia|apply u_memmove_copies; lia]. Defined.

(** The overlap the user-level copy gets wrong. *)
Example u_memmove_overlap :
  u_memmove (fun a => a) 11 10 3 13 = 10 /\ memmove (fun a => a) 11 10 3 13 = 12.
Proof. by vm_compute. Qed.

End Mem.

Module Str.

(** The characters before the terminating NUL. *)
Fixpoint cstr (t : list Z) : list Z :=
  match t with
  | [] => []
  | c :: t' => if c =? 0 then [] else c :: cstr t'
  end.

(** string.c and ulib.c [strlen]. *)
Fixpoint strlen (s : list Z) : Z :=
  match s with
  | [] => 0
  | c :: s' => if c =? 0 then 0 else 1 + strlen s'
  end.

(** string.c [strncmp]. *)
Fixpoint strncmp (p q : list Z) (n : nat) : Z :=
  match n with
  | O => 0
  | S n' =>
      if negb (hd 0 p =? 0) && (hd 0 p =? hd 0 q) then strncmp (tail p) (tail q) n'
      else u8 (hd 0 p) - u8 (hd 0 q)
  end.

(** ulib.c [strcmp]. *)
Fixpoint strcmp (p q : list Z) : Z :=
  match p with
  | [] => 0 - u8 (hd 0 q)
  | c :: p' => if negb (c =? 0) && (c =? hd 0 q) then strcmp p' (tail q)
               else u8 c - u8 (hd 0 q)
  end.

(** [while(n-- > 0) *s++ = 0;] *)
Fixpoint strncpy_pad (n : nat) (s : list Z) (i : nat) : list Z :=
  match n with
  | O => s
  | S n' => strncpy_pad n' (<[i:=0]> s) (S i)
  end.

(** [while(n-- > 0 && ( *s++ = *t++) != 0);] followed by the padding loop. *)
Fixpoint strncpy_copy (n : nat) (s t : list Z) (i : nat) : list Z :=
  match n with
  | O => s
  | S n' =>
      let c := hd 0 t in
      if c =? 0 then strncpy_pad n' (<[i:=c]> s) (S i)
      else strncpy_copy n' (<[i:=c]> s) (tail t) (S i)
  end.

(** string.c [strncpy]. *)
Definition strncpy (s t : list Z) (n : Z) : list Z := strncpy_copy (Z.to_nat n) s t 0.

(** [while(--n > 0 && ( *s++ = *t++) != 0); *s = 0;], [k] is [n - 1]. *)
Fixpoint safestrcpy_loop (k : nat) (s t : list Z) (i : nat) : list Z :=
  match k with
  | O => <[i:=0]> s
  | S k' =>
      let c := hd 0 t in
      if c =? 0 then <[S i:=0]> (<[i:=c]> s)
      else safestrcpy_loop k' (<[i:=c]> s) (tail t) (S i)
  end.

(** string.c [safestrcpy]. *)
Definition safestrcpy (s t : list Z) (n : Z) : list Z :=
  if n <=? 0 then s else safestrcpy_loop (Z.to_nat (n - 1)) s t 0.

(** ulib.c [strcpy]. *)
Fixpoint strcpy_loop (s t : list Z) (i : nat) : list Z :=
  match t with
  | [] => <[i:=0]> s
  | c :: t' => if c =? 0 then <[i:=c]> s else strcpy_loop (<[i:=c]> s) t' (S i)
  end.
Definition strcpy (s t : list Z) : list Z := strcpy_loop s t 0.

(** ulib.c [strchr]: offset of the first [c], NULL is [None]. *)
Fixpoint strchr (s : list Z) (c : Z) : option nat :=
  match s with
  | [] => None
  | x :: s' => if x =? 0 then None else if x =? c then Some O else S <$> strchr s' c
  end.

(** ulib.c [atoi]; [int] arithmetic wraps. *)
Fixpoint atoi_loop (n : Z) (s : list Z) : Z :=
  match s with
  | [] => n
  | c :: s' => if (48 <=? c) && (c <=? 57) then atoi_loop (s32 (n * 10 + c - 48)) s' else n
  end.
Definition atoi (s : list Z) : Z := atoi_loop 0 s.

(** ulib.c [gets]: reads one byte at a time from [input] (what [read(0,&c,1)]
    will deliver before end of file) into [buf]; the rest of the input is
    returned too. *)
Fixpoint gets_loop (fuel : nat) (buf : list Z) (i max : Z) (input : list Z) : list Z * Z * list Z :=
  match fuel with
  | O => (buf, i, input)
  | S fuel' =>
      if i + 1 <? max then
        match input with
        | [] => (buf, i, [])
        | c :: input' =>
            let buf := <[Z.to_nat i:=c]> buf in
            if (c =? 10) || (c =? 13) then (buf, i + 1, input')
            else gets_loop fuel' buf (i + 1) max input'
        end
      else (buf, i, input)
  end.
Definition gets (buf : list Z) (max : Z) (input : list Z) : list Z * list Z :=
  let '(buf, i, rest) := gets_loop (Z.to_nat max) buf 0 max input in
  (<[Z.to_nat i:=0]> buf, rest).

(** The [n] bytes [strncpy] leaves in a field of size [n]. *)
Definition cpad (n : nat) (t : list Z) : list Z := take n (cstr t ++ replicate n 0).

(** ** Lemmas *)

Lemma length_cpad n t : length (cpad n t) = n.
Proof. unfold cpad. rewrite length_take, length_app, length_replicate. lia. Qed.

Lemma strlen_cstr s : strlen s = Z.of_nat (length (cstr s)).
Proof. induction s as [|c s IH]; simpl; [done|]. bool_cases; simpl; lia. Qed.

Lemma cstr_nonzero t : Forall (fun c => c <> 0) (cstr t).
Proof. induction t as [|c t IH]; simpl; [constructor|]. bool_cases; auto. Qed.

Lemma cstr_id t : Forall (fun c => c <> 0) t -> cstr t = t.
Proof. induction 1; simpl; [done|]. bool_cases; [done|]. by f_equal. Qed.

Lemma cstr_app_zero t u : cstr (cstr t ++ 0 :: u) = cstr t.
Proof.
  induction t as [|c t IH]; simpl; [done|]. destruct (Z.eqb_spec c 0); simpl; [done|].
  destruct (Z.eqb_spec c 0); [done|]. by f_equal.
Qed.

Lemma cpad_cons n c t :
  cpad (S n) (c :: t) = if c =? 0 then replicate (S n) 0 else c :: cpad n t.
Proof.
  unfold cpad. cbn [cstr]. bool_cases.
  - rewrite app_nil_l. apply take_ge. by rewrite length_replicate.
  - cbn [app take]. f_equal. rewrite replicate_S_end, app_assoc.
    rewrite take_app_le by (rewrite length_app, length_replicate; lia). done.
Qed.

Lemma cpad_nil n : cpad n [] = replicate n 0.
Proof. unfold cpad. simpl. apply take_ge. by rewrite length_replicate. Qed.

(** One more byte of padding: the shape the copy loops are proved by. *)
Lemma cpad_S n t :
  cpad (S n) t = if hd 0 t =? 0 then replicate (S n) 0 else hd 0 t :: cpad n (tail t).
Proof. destruct t as [|c t]; [by rewrite cpad_nil|]. apply cpad_cons. Qed.

Lemma strncpy_pad_spec n s i :
  (i + n <= length s)%nat -> strncpy_pad n s i = splice s i (replicate n 0).
Proof.
  revert s i. induction n as [|n IH]; intros s i H; simpl; [by rewrite splice_nil|].
  rewrite IH by (rewrite length_insert; lia).
  apply splice_insert. rewrite length_replicate. lia.
Qed.

Lemma strncpy_copy_spec n s t i :
  (i + n <= length s)%nat -> strncpy_copy n s t i = splice s i (cpad n t).
Proof.
  revert s t i. induction n as [|n IH]; intros s t i H.
  - unfold cpad. rewrite take_0. by rewrite splice_nil.
  - cbn [strncpy_copy]. rewrite cpad_S. destruct (Z.eqb_spec (hd 0 t) 0) as [E|E].
    + rewrite E, strncpy_pad_spec by (rewrite length_insert; lia).
      apply splice_insert. rewrite length_replicate. lia.
    + rewrite IH by (rewrite length_insert; lia).
      apply splice_insert. rewrite length_cpad. lia.
Qed.

(** [strncpy] into a field of [n] bytes leaves the characters of [t], cut
    at [n] and padded with NULs up to exactly [n]; the bytes after the field are
    untouched. *)
Theorem strncpy_pads s t n :
  0 <= n <= Z.of_nat (length s) ->
  strncpy s t n = splice s 0 (cpad (Z.to_nat n) t).
Proof. intros. apply strncpy_copy_spec. lia. Qed.

Lemma strncpy_pads_witness :
  0 <= 4 <= Z.of_nat (length [9;9;9;9;9]) /\
  strncpy [9;9;9;9;9] [65;66] 4 = splice [9;9;9;9;9] 0 (cpad (Z.to_nat 4) [65;66]).
Proof. split; [simpl; lia|apply strncpy_pads; simpl; lia]. Defined.

(** [strncmp] of two strings is zero exactly when their first [n]
    characters (with everything from a NUL on read as NULs) are the same, so a
    name and its padded copy in a directory entry compare equal. *)
Theorem strncmp_eq_0 p q n :
  Forall is_byte p -> Forall is_byte q ->
  strncmp p q n = 0 <-> cpad n p = cpad n q.
Proof.
  revert p q. induction n as [|n IH]; intros p q Hp Hq.
  { unfold cpad. by rewrite !take_0. }
  rewrite !cpad_S. cbn [strncmp].
  assert (is_byte (hd 0 p)) by (destruct Hp; simpl; [unfold is_byte; lia|done]).
  assert (is_byte (hd 0 q)) by (destruct Hq; simpl; [unfold is_byte; lia|done]).
  rewrite !u8_small by done.
  destruct (Z.eqb_spec (hd 0 p) 0) as [E|E], (Z.eqb_spec (hd 0 p) (hd 0 q)) as [E'|E']; simpl.
  - rewrite <- E', E. simpl. done.
  - rewrite (proj2 (Z.eqb_neq (hd 0 q) 0)) by lia. split; [lia|]. intros ?; simplify_eq; lia.
  - rewrite <- E'. rewrite (proj2 (Z.eqb_neq _ 0)) by lia.
    rewrite IH by (destruct Hp, Hq; simpl; auto). split; [by intros ->|congruence].
  - split; [lia|]. destruct (Z.eqb_spec (hd 0 q) 0); intros ?; simplify_eq; lia.
Qed.

Lemma strncmp_eq_0_witness :
  strncmp [46;46] [46;46;0;0] 14 = 0 <-> cpad 14 [46;46] = cpad 14 [46;46;0;0].
Proof. apply strncmp_eq_0; repeat constructor; by vm_compute. Defined.

(** The copy made by [safestrcpy]: at most [k] characters, one NUL after them,
    and a second one when the NUL of [t] was itself copied. *)
Definition safe_copy (k : nat) (t : list Z) : list Z :=
  take k (cstr t) ++ [0] ++ (if (length (cstr t) <? k)%nat then [0] else []).

Lemma safe_copy_S k t :
  safe_copy (S k) t = if hd 0 t =? 0 then [0; 0] else hd 0 t :: safe_copy k (tail t).
Proof.
  unfold safe_copy. destruct t as [|c t]; [done|]. simpl.
  destruct (Z.eqb_spec c 0); [done|]. by simpl.
Qed.

Lemma length_safe_copy k t : (length (safe_copy k t) <= S k)%nat.
Proof.
  unfold safe_copy. rewrite !length_app, length_take. simpl.
  destruct (Nat.ltb_spec (length (cstr t)) k); simpl; lia.
Qed.

Lemma safestrcpy_loop_spec k s t i :
  (i + S k <= length s)%nat -> safestrcpy_loop k s t i = splice s i (safe_copy k t).
Proof.
  revert s t i. induction k as [|k IH]; intros s t i H.
  - cbn [safestrcpy_loop]. rewrite insert_splice by lia. f_equal.
  - cbn [safestrcpy_loop]. rewrite safe_copy_S. destruct (Z.eqb_spec (hd 0 t) 0) as [E|E].
    + rewrite E. rewrite <- splice_insert by (simpl; lia).
      by rewrite <- insert_splice by (rewrite length_insert; lia).
    + rewrite IH by (rewrite length_insert; lia).
      apply splice_insert. pose proof (length_safe_copy k (tail t)). lia.
Qed.

(** [safestrcpy] into a buffer of [n] bytes always leaves a terminated
    string, the longest prefix of [t] that fits, and writes nothing outside the
    [n] bytes. *)
Theorem safestrcpy_terminates s t n :
  0 < n <= Z.of_nat (length s) ->
  let s' := safestrcpy s t n in
  cstr s' = take (Z.to_nat (n - 1)) (cstr t) /\
  strlen s' <= n - 1 /\
  length s' = length s /\
  drop (Z.to_nat n) s' = drop (Z.to_nat n) s.
Proof.
  intros Hn s'. unfold s', safestrcpy. rewrite (proj2 (Z.leb_gt n 0)) by lia.
  rewrite safestrcpy_loop_spec by lia.
  set (k := Z.to_nat (n - 1)). pose proof (length_safe_copy k t).
  assert (cstr (splice s 0 (safe_copy k t)) = take k (cstr t)) as Hc.
  { unfold splice, safe_copy. rewrite take_0, app_nil_l, <- !app_assoc. simpl.
    rewrite <- (cstr_id (take k (cstr t))) at 1 by (apply Forall_take, cstr_nonzero).
    rewrite cstr_app_zero. apply cstr_id, Forall_take, cstr_nonzero. }
  split_and!; [done| | |].
  - rewrite strlen_cstr, Hc, length_take. lia.
  - apply length_splice. lia.
  - apply list_eq. intros i. rewrite !lookup_drop, lookup_splice by lia.
    by rewrite decide_False by lia.
Qed.

Lemma safestrcpy_terminates_witness :
  0 < 3 <= Z.of_nat (length [9;9;9;9]) /\
  cstr (safestrcpy [9;9;9;9] [97;98;99;100] 3) = take (Z.to_nat (3 - 1)) (cstr [97;98;99;100]).
Proof. split; [simpl; lia|apply (safestrcpy_terminates [9;9;9;9] [97;98;99;100] 3); simpl; lia]. Defined.

End Str.
