(* ===== verification/Printf.v ===== *)
(** * printf.c and the formatted output of console.c

    [Module Printf] translates the user-level [printf] (printf.c) and the kernel's
    [cprintf] (console.c): what they write, as a list of bytes.  [args] are the words
    after the format on the stack, [mem p] is the C string at address [p].

    [printint_roundtrip]: the decimal output of any [int], [INT_MIN] included, is read
    back by [atoi]. *)

From S2P Require Import Prelude CString.

Module Printf.

(** [do { buf[i++] = digits[x % base]; } while((x /= base) != 0);]: the digits in the
    order they are stored, least significant first.  [n] bounds the iterations. *)
Fixpoint digits_loop (n : nat) (digits : list Z) (x base : Z) : list Z :=
  match n with
  | O => []
  | S n' =>
      let d := default 0 (digits !! Z.to_nat (x mod base)) in
      let x := x / base in
      if x =? 0 then [d] else d :: digits_loop n' digits x base
  end.

(** A [uint] has at most 32 digits. *)
Definition uint_digits : nat := 32.

Definition u_digits : list Z := bytes "0123456789ABCDEF".

(** printf.c [printint]: [buf] is filled, then written backwards. *)
Definition printint (xx base sgn : Z) : list Z :=
  let neg := negb (sgn =? 0) && (xx <? 0) in
  let x := if neg then u32 (- xx) else u32 xx in
  let buf := digits_loop uint_digits u_digits x base in
  let buf := if neg then buf ++ [45] else buf in
  rev buf.

(** The string an [%s] argument stands for. *)
Definition str_arg (mem : Z -> list Z) (p : Z) : list Z := if p =? 0 then bytes "(null)" else Str.cstr (mem p).

Section User.
Context (mem : Z -> list Z) (args : nat -> Z).

(** printf.c [printf] from a character of the format on: [state] is the [%] seen
    before, [ap] the next argument. *)
Fixpoint printf_loop (fmt : list Z) (state : bool) (ap : nat) : list Z :=
  match fmt with
  | [] => []
  | c :: fmt' =>
      if c =? 0 then []
      else
        let c := Z.land c 255 in
        if negb state then
          if c =? 37 then printf_loop fmt' true ap else c :: printf_loop fmt' false ap
        else if c =? 100 then printint (s32 (args ap)) 10 1 ++ printf_loop fmt' false (S ap)
        else if (c =? 120) || (c =? 112) then printint (s32 (args ap)) 16 0 ++ printf_loop fmt' false (S ap)
        else if c =? 115 then str_arg mem (args ap) ++ printf_loop fmt' false (S ap)
        else if c =? 99 then u8 (args ap) :: printf_loop fmt' false (S ap)
        else if c =? 37 then c :: printf_loop fmt' false ap
        else 37 :: c :: printf_loop fmt' false ap
  end.
Definition printf (fmt : list Z) : list Z := printf_loop fmt false 0.
End User.

Definition k_digits : list Z := bytes "0123456789abcdef".

(** console.c [printint]. *)
Definition k_printint (xx base sign : Z) : list Z :=
  let sign := negb (sign =? 0) && (xx <? 0) in
  let x := if sign then u32 (- xx) else u32 xx in
  let buf := digits_loop uint_digits k_digits x base in
  let buf := if sign then buf ++ [45] else buf in
  rev buf.

Section Kernel.
Context (mem : Z -> list Z) (args : nat -> Z).

(** console.c [cprintf]: the characters handed to [consputc]. *)
Fixpoint cprintf_loop (fmt : list Z) (argp : nat) : list Z :=
  match fmt with
  | [] => []
  | c :: fmt' =>
      let c := Z.land c 255 in
      if c =? 0 then []
      else if negb (c =? 37) then c :: cprintf_loop fmt' argp
      else
        match fmt' with
        | [] => []
        | c :: fmt'' =>
            let c := Z.land c 255 in
            if c =? 0 then []
            else if c =? 100 then k_printint (s32 (args argp)) 10 1 ++ cprintf_loop fmt'' (S argp)
            else if (c =? 120) || (c =? 112) then k_printint (s32 (args argp)) 16 0 ++ cprintf_loop fmt'' (S argp)
            else if c =? 115 then str_arg mem (args argp) ++ cprintf_loop fmt'' (S argp)
            else if c =? 37 then 37 :: cprintf_loop fmt'' argp
            else 37 :: c :: cprintf_loop fmt'' argp
        end
  end.
Definition cprintf (fmt : list Z) : list Z := cprintf_loop fmt 0.
End Kernel.

(** ** Numbers *)

(** The value of digits stored least significant first. *)
Fixpoint digits_val (l : list Z) : Z :=
  match l with
  | [] => 0
  | d :: l' => (d - 48) + 10 * digits_val l'
  end.

Definition is_digit (d : Z) : bool := (48 <=? d) && (d <=? 57).

Lemma digit_of k digits : 0 <= k < 10 -> take 10 digits = bytes "0123456789" -> default 0 (digits !! Z.to_nat k) = 48 + k.
Proof.
  intros Hk Hd. rewrite <- (lookup_take_lt digits 10) by lia. rewrite Hd.
  assert (H : k = 0 \/ k = 1 \/ k = 2 \/ k = 3 \/ k = 4 \/ k = 5 \/ k = 6 \/ k = 7 \/ k = 8 \/ k = 9) by lia.
  by destruct_or! H; subst k.
Qed.

(** The loop ends, and its digits are those of [x]. *)
Lemma digits_loop_10 n digits x : take 10 digits = bytes "0123456789" -> 0 <= x < 10 ^ Z.of_nat n -> (0 < n)%nat ->
  digits_val (digits_loop n digits x 10) = x /\ Forall (fun d => is_digit d = true) (digits_loop n digits x 10) /\
  digits_loop n digits x 10 <> [].
Proof.
  intros Hd. revert x. induction n as [|n IH]; intros x Hx Hn; [lia|]. cbn [digits_loop].
  assert (Hm : 0 <= x mod 10 < 10) by dlia. rewrite (digit_of _ _ Hm Hd).
  assert (Hdig : is_digit (48 + x mod 10) = true).
  { unfold is_digit. destruct (Z.leb_spec 48 (48 + x mod 10)), (Z.leb_spec (48 + x mod 10) 57); done || lia. }
  destruct (Z.eqb_spec (x / 10) 0) as [E|E].
  - split_and!; [simpl; dlia|by constructor|done].
  - rewrite Nat2Z.inj_succ, Z.pow_succ_r in Hx by lia. destruct n as [|n]; [simpl in Hx; dlia|].
    destruct (IH (x / 10)) as (H1 & H2 & H3); [|lia|]; [|split_and!; [|by constructor|done]].
    + split; [dlia|]. apply Z.div_lt_upper_bound; lia.
    + cbn [digits_val]. rewrite H1. dlia.
Qed.

Lemma digits_loop_length n k digits x : 0 <= x < 10 ^ Z.of_nat k -> (0 < k)%nat -> (length (digits_loop n digits x 10) <= k)%nat.
Proof.
  revert k x. induction n as [|n IH]; intros k x Hx Hk; cbn [digits_loop]; [simpl; lia|].
  destruct k as [|k]; [lia|]. destruct (Z.eqb_spec (x / 10) 0) as [E|E]; simpl; [lia|].
  rewrite Nat2Z.inj_succ, Z.pow_succ_r in Hx by lia. destruct k as [|k]; [simpl in Hx; dlia|].
  apply le_n_S, IH; [|lia]. split; [dlia|]. apply Z.div_lt_upper_bound; lia.
Qed.

Lemma uint_fits x : 0 <= x < 4294967296 -> 0 <= x < 10 ^ Z.of_nat uint_digits.
Proof. change (10 ^ Z.of_nat uint_digits) with 100000000000000000000000000000000. lia. Qed.

Lemma atoi_loop_snoc l d n : Forall (fun d => is_digit d = true) l -> is_digit d = true ->
  Str.atoi_loop n (l ++ [d]) = s32 (Str.atoi_loop n l * 10 + d - 48).
Proof.
  intros Hl Hd. revert n. induction Hl as [|c l Hc Hl IH]; intros n; simpl.
  - unfold is_digit in Hd. by rewrite Hd.
  - unfold is_digit in Hc. rewrite Hc. apply IH.
Qed.

Lemma s32_cong x y : x mod 4294967296 = y mod 4294967296 -> s32 x = s32 y.
Proof. intros H. unfold s32, u32. by rewrite H. Qed.

Lemma s32_mod x : s32 x mod 4294967296 = x mod 4294967296.
Proof. unfold s32, u32. destruct (Z.ltb_spec (x mod 4294967296) 2147483648); dlia. Qed.

(** [atoi] computes the value of the digits modulo the range of [int]. *)
Lemma atoi_rev l : Forall (fun d => is_digit d = true) l -> Str.atoi (rev l) = s32 (digits_val l).
Proof.
  unfold Str.atoi. induction 1 as [|d l Hd Hl IH]; [done|]. simpl rev. rewrite atoi_loop_snoc; [|by apply Forall_rev|done].
  rewrite IH. simpl. apply s32_cong. rewrite <- Z.add_sub_assoc, <- Zplus_mod_idemp_l, <- Zmult_mod_idemp_l, s32_mod.
  rewrite Zmult_mod_idemp_l, Zplus_mod_idemp_l. f_equal. lia.
Qed.

(** Decimal output and input agree.  For every [int], what [printint] writes in base
    10 fits its buffer of 16 bytes; for a non-negative one it is a digit string that
    [atoi] reads back, for a negative one it is a minus sign and a digit string that
    [atoi] reads back as the negated number (in [int] arithmetic, for INT_MIN). *)
Theorem printint_roundtrip xx : -2147483648 <= xx < 2147483648 ->
  (length (printint xx 10 1) <= 16)%nat /\
  if xx <? 0 then exists ds, printint xx 10 1 = 45 :: ds /\ ds <> [] /\ Str.atoi ds = s32 (- xx)
  else printint xx 10 1 <> [] /\ Str.atoi (printint xx 10 1) = xx.
Proof.
  intros Hx. unfold printint. simpl negb. cbn [andb].
  assert (Hd : take 10 u_digits = bytes "0123456789") by done.
  assert (Hu : forall y, 0 <= y <= 2147483648 -> u32 y = y) by (intros; u32_lia).
  destruct (Z.ltb_spec xx 0) as [Hneg|Hpos].
  - rewrite (Hu (- xx)) by lia. destruct (digits_loop_10 uint_digits u_digits (- xx) Hd ltac:(apply uint_fits; lia) ltac:(unfold uint_digits; lia)) as (H1 & H2 & H3).
    pose proof (digits_loop_length uint_digits 10 u_digits (- xx) ltac:(simpl; lia) ltac:(lia)) as Hl.
    generalize dependent (digits_loop uint_digits u_digits (- xx) 10). intros ds H1 H2 H3 Hl.
    rewrite rev_app_distr. split; [simpl; rewrite length_rev; lia|]. exists (rev ds). split; [done|]. split.
    + intros E. apply H3. by rewrite <- (rev_involutive ds), E.
    + by rewrite atoi_rev, H1.
  - rewrite (Hu xx) by lia. destruct (digits_loop_10 uint_digits u_digits xx Hd ltac:(apply uint_fits; lia) ltac:(unfold uint_digits; lia)) as (H1 & H2 & H3).
    pose proof (digits_loop_length uint_digits 10 u_digits xx ltac:(simpl; lia) ltac:(lia)) as Hl.
    generalize dependent (digits_loop uint_digits u_digits xx 10). intros ds H1 H2 H3 Hl.
    rewrite length_rev. split; [lia|]. split.
    + intros E. apply H3. by rewrite <- (rev_involutive ds), E.
    + rewrite atoi_rev, H1 by done. apply s32_small. lia.
Qed.

Lemma printint_roundtrip_witness :
  (exists ds, printint (-2147483648) 10 1 = 45 :: ds /\ ds <> [] /\ Str.atoi ds = s32 2147483648) /\
  Str.atoi (printint 1234 10 1) = 1234.
Proof.
  split.
  - exact (proj2 (printint_roundtrip (-2147483648) ltac:(lia))).
  - exact (proj2 (proj2 (printint_roundtrip 1234 ltac:(lia)))).
Defined.

(** The two routines agree on formats without [%c], [%x] and [%p] (the kernel has no
    [%c], and writes hexadecimal digits in lower case). *)
Fixpoint plain (fmt : list Z) : bool :=
  match fmt with
  | [] => true
  | c :: fmt' =>
      (negb (c =? 37) || match fmt' with [] => true | d :: _ => negb ((d =? 99) || (d =? 120) || (d =? 112)) end) && plain fmt'
  end.

Lemma k_printint_10 xx sgn : k_printint xx 10 sgn = printint xx 10 sgn.
Proof.
  unfold k_printint, printint. assert (H : forall n x, 0 <= x -> digits_loop n k_digits x 10 = digits_loop n u_digits x 10).
  { induction n as [|n IH]; intros x Hx; [done|]. cbn [digits_loop].
    rewrite !digit_of by (done || dlia). destruct (x / 10 =? 0); [done|]. f_equal. apply IH. dlia. }
  assert (forall y, 0 <= u32 y) by (intros; u32_lia). by rewrite !H by (destruct (negb (sgn =? 0) && (xx <? 0)); auto).
Qed.

#[local] Opaque digits_loop.

Lemma byte_land c : is_byte c -> Z.land c 255 = c.
Proof. intros Hc. change 255 with (Z.ones 8). rewrite Z.land_ones by lia. by apply u8_small. Qed.

Lemma printf_cprintf mem args n fmt ap : (length fmt <= n)%nat -> Forall is_byte fmt -> plain fmt = true ->
  printf_loop mem args fmt false ap = cprintf_loop mem args fmt ap.
Proof.
  revert fmt ap. induction n as [|n IH]; intros [|c fmt] ap Hn Hb Hp; [done|simpl in Hn; lia|done|].
  apply Forall_cons in Hb as [Hc Hb]. cbn [length] in Hn. cbn [plain] in Hp. apply andb_true_iff in Hp as [Hp1 Hp].
  cbn [printf_loop cprintf_loop]. rewrite (byte_land c Hc). destruct (Z.eqb_spec c 0); [done|].
  destruct (Z.eqb_spec c 37) as [->|]; cbn [negb]; [|f_equal; by apply IH; [lia| |]].
  destruct fmt as [|d fmt]; [done|]. apply Forall_cons in Hb as [Hd Hb]. cbn [length] in Hn.
  cbn [plain] in Hp. apply andb_true_iff in Hp as [_ Hp]. cbn [negb orb Z.eqb Pos.eqb] in Hp1.
  apply negb_true_iff in Hp1. rewrite !orb_false_iff in Hp1. destruct Hp1 as [[E1 E2] E3].
  cbn [printf_loop]. rewrite (byte_land d Hd), E1, E2, E3. destruct (Z.eqb_spec d 0); [done|]. cbn [negb orb].
  assert (HI : forall ap, printf_loop mem args fmt false ap = cprintf_loop mem args fmt ap) by (intros; apply IH; [lia|assumption..]).
  rewrite !HI, <- (k_printint_10 (s32 (args ap)) 1). destruct (Z.eqb_spec d 37) as [->|]; reflexivity.
Qed.

End Printf.
