(* ===== verification/Spinlock.v ===== *)
(** * spinlock.c: spin locks and interrupt nesting

    [Module Spin] translates [pushcli]/[popcli], [acquire]/[release] and
    [holding] on one machine state: the CPUs and the locks.  [Module SpinSys]
    breaks [acquire] and [release] at their memory accesses and interleaves them
    over all CPUs, with the atomic [xchg] as one step. *)

From S2P Require Import Prelude.

Module Spin.

(** The parts of [struct cpu] the locks use; [iflag] is FL_IF of [eflags]. *)
Record cpu := mkCpu { ncli : Z; intena : bool; iflag : bool }.

(** [struct spinlock]; [lcpu] is the [cpu] field, NULL is [None]. *)
Record spinlock := mkLock { locked : bool; lcpu : option nat }.

Record machine := mkMachine { cpus : list cpu; locks : list spinlock }.

Definition initlock : spinlock := mkLock false None.

Definition get_cpu (c : nat) (m : machine) : cpu := default (mkCpu 0 false false) (cpus m !! c).
Definition get_lock (l : nat) (m : machine) : spinlock := default initlock (locks m !! l).
Definition set_cpu (c : nat) (x : cpu) (m : machine) : machine :=
  mkMachine (<[c:=x]> (cpus m)) (locks m).
Definition set_lock (l : nat) (x : spinlock) (m : machine) : machine :=
  mkMachine (cpus m) (<[l:=x]> (locks m)).

(** The effect of [pushcli] on the CPU it runs on. *)
Definition push_cpu (x : cpu) : cpu :=
  let eflags := iflag x in
  mkCpu (ncli x + 1) (if ncli x =? 0 then eflags else intena x) false.

Definition pushcli (c : nat) : M machine unit :=
  let* x := gets (get_cpu c) in
  modify (set_cpu c (push_cpu x)).

Definition popcli (c : nat) : M machine unit :=
  let* x := gets (get_cpu c) in
  if iflag x then panic "popcli - interruptible"
  else if ncli x - 1 <? 0 then panic "popcli"
  else modify (set_cpu c (mkCpu (ncli x - 1) (intena x)
                            (if (ncli x - 1 =? 0) && intena x then true else iflag x))).

(** [holding]: does this CPU hold the lock? *)
Definition holding (c l : nat) (m : machine) : bool :=
  locked (get_lock l m) && bool_decide (lcpu (get_lock l m) = Some c).

(** [acquire] up to the spin loop. *)
Definition acquire_enter (c l : nat) : M machine unit :=
  pushcli c ;;;
  let* h := gets (holding c l) in
  if h then panic "acquire" else ret tt.

(** [xchg(&lk->locked, 1)]: the old value. *)
Definition xchg_locked (l : nat) (v : bool) : M machine bool :=
  let* x := gets (get_lock l) in
  modify (set_lock l (mkLock v (lcpu x))) ;;;
  ret (locked x).

Definition record_holder (l : nat) (o : option nat) : M machine unit :=
  let* x := gets (get_lock l) in
  modify (set_lock l (mkLock (locked x) o)).

(** [acquire] on its own: it spins for ever on a taken lock. *)
Definition acquire (c l : nat) : M machine unit :=
  acquire_enter c l ;;;
  let* old := xchg_locked l true in
  if old then block else record_holder l (Some c).

(** The check at the start of [release]. *)
Definition release_check (c l : nat) : M machine unit :=
  let* h := gets (holding c l) in
  if h then ret tt else panic "release".

Definition release (c l : nat) : M machine unit :=
  release_check c l ;;;
  record_holder l None ;;;
  let* _ := xchg_locked l false in
  popcli c.

(** [getcallerpcs]: the saved program counters along the %ebp chain, for a
    memory of 32-bit words. *)
Definition KERNBASE : Z := 2147483648.
Fixpoint getcallerpcs_loop (n : nat) (word : Z -> Z) (ebp : Z) : list Z :=
  match n with
  | O => []
  | S n' =>
      if (ebp =? 0) || (ebp <? KERNBASE) || (ebp =? 4294967295) then replicate n 0
      else word (ebp + 4) :: getcallerpcs_loop n' word (word ebp)
  end.
Definition getcallerpcs (word : Z -> Z) (v : Z) : list Z := getcallerpcs_loop 10 word (v - 8).

(** ** Nesting of [pushcli] and [popcli] *)

Lemma get_set_cpu c x m : (c < length (cpus m))%nat -> get_cpu c (set_cpu c x m) = x.
Proof. intros. unfold get_cpu, set_cpu. simpl. by rewrite list_lookup_insert_eq. Qed.

Lemma get_set_lock l x m : (l < length (locks m))%nat -> get_lock l (set_lock l x m) = x.
Proof. intros. unfold get_lock, set_lock. simpl. by rewrite list_lookup_insert_eq. Qed.

Fixpoint repeat_m {St} (n : nat) (m : M St unit) : M St unit :=
  match n with
  | O => ret tt
  | S n' => m ;;; repeat_m n' m
  end.

Lemma repeat_pushcli n c m :
  (c < length (cpus m))%nat -> 0 < ncli (get_cpu c m) ->
  repeat_m n (pushcli c) m =
    Ret tt (if decide (n = O) then m
            else set_cpu c (mkCpu (ncli (get_cpu c m) + Z.of_nat n) (intena (get_cpu c m)) false) m).
Proof.
  revert m. induction n as [|n IH]; intros m Hc Hn; [done|].
  cbn [repeat_m]. unfold bind at 1. unfold pushcli, push_cpu, bind, gets, modify.
  rewrite (proj2 (Z.eqb_neq (ncli (get_cpu c m)) 0)) by lia.
  rewrite IH; rewrite ?get_set_cpu by done; simpl; [|by rewrite length_insert|lia].
  f_equal. unfold set_cpu; simpl. destruct (decide (n = O)) as [->|]; simpl.
  - done.
  - rewrite list_insert_insert_eq. do 3 f_equal. lia.
Qed.

Lemma repeat_popcli n c x m :
  (c < length (cpus m))%nat -> 0 < ncli x ->
  repeat_m n (popcli c) (set_cpu c (mkCpu (ncli x + Z.of_nat n) (intena x) false) m)
    = Ret tt (set_cpu c (mkCpu (ncli x) (intena x) false) m).
Proof.
  intros Hc Hx. induction n as [|n IH]; [by rewrite Z.add_0_r|].
  cbn [repeat_m]. unfold bind at 1. unfold popcli, bind, gets, modify, ret.
  rewrite get_set_cpu by done. simpl iflag. cbn [ncli intena].
  rewrite (proj2 (Z.ltb_ge _ 0)) by lia. rewrite (proj2 (Z.eqb_neq _ 0)) by lia. simpl andb.
  cbn [iflag]. rewrite <- IH. f_equal. unfold set_cpu; simpl. rewrite list_insert_insert_eq.
  do 3 f_equal. lia.
Qed.

(** It takes as many [popcli] as [pushcli] to undo them: after [n + 1] of
    each, interrupts are enabled again exactly if they were before the first,
    and the nesting depth is back to zero; none of the calls panics. *)
Theorem cli_nesting n c m :
  (c < length (cpus m))%nat -> ncli (get_cpu c m) = 0 ->
  wp (repeat_m (S n) (pushcli c) ;;; repeat_m (S n) (popcli c))
     (fun _ m' => m' = set_cpu c (mkCpu 0 (iflag (get_cpu c m)) (iflag (get_cpu c m))) m) m.
Proof.
  intros Hc H0. set (x := get_cpu c m).
  set (m1 := set_cpu c (mkCpu 1 (iflag x) false) m).
  assert (Hc1 : (c < length (cpus m1))%nat) by (unfold m1; simpl; by rewrite length_insert).
  assert (Hg1 : get_cpu c m1 = mkCpu 1 (iflag x) false) by by apply get_set_cpu.
  assert (Hpush : repeat_m (S n) (pushcli c) m =
    Ret tt (set_cpu c (mkCpu (1 + Z.of_nat n) (iflag x) false) m1)).
  { cbn [repeat_m]. unfold bind. unfold pushcli at 1, push_cpu, bind, gets, modify. fold x.
    fold x in H0. rewrite H0. change (0 =? 0) with true. cbv iota. change (0 + 1) with 1. fold m1. rewrite repeat_pushcli; [|exact Hc1|rewrite Hg1; simpl; lia].
    rewrite Hg1. cbn [ncli intena iflag]. case_decide as Hn; [|done].
    rewrite Hn. unfold m1, set_cpu. simpl. by rewrite list_insert_insert_eq. }
  unfold wp, bind at 1. rewrite Hpush.
  replace (repeat_m (S n) (popcli c)) with (repeat_m (n + 1) (popcli c)) by (f_equal; lia).
  assert (Hsplit : forall k (p : M machine unit) s, repeat_m (k + 1) p s = (repeat_m k p ;;; p) s).
  { intros k p. unfold bind. induction k as [|k IH]; intros s; simpl; unfold bind, ret.
    - destruct (p s) as [[]| |]; done.
    - destruct (p s) as [[]| |]; by rewrite ?IH. }
  rewrite Hsplit. unfold bind. rewrite (repeat_popcli n c (mkCpu 1 (iflag x) false)); [|exact Hc1|simpl; lia].
  unfold popcli, bind, gets, modify. rewrite get_set_cpu by done. simpl.
  unfold m1, set_cpu. simpl. rewrite !list_insert_insert_eq. by destruct (iflag x).
Qed.

Lemma cli_nesting_witness :
  ncli (get_cpu 0 (mkMachine [mkCpu 0 false true] [])) = 0 /\
  wp (repeat_m 3 (pushcli 0) ;;; repeat_m 3 (popcli 0))
     (fun _ m' => m' = mkMachine [mkCpu 0 true true] []) (mkMachine [mkCpu 0 false true] []).
Proof.
  split; [done|]. apply (cli_nesting 2 0 (mkMachine [mkCpu 0 false true] [])); [simpl; lia|done].
Defined.

End Spin.

Module SpinSys.
Import Spin.

(** Where a CPU is inside [acquire] or [release]. *)
Inductive pc :=
  | Out
  | Spinning (l : nat)   (* in the xchg loop of acquire *)
  | Got (l : nat)        (* xchg succeeded, holder not yet recorded *)
  | Leaving (l : nat)    (* release: holder cleared, lock word still set *)
  | Popping.             (* release: lock word cleared, popcli to come *)

(** [held c] are the locks whose critical sections CPU [c] is in. *)
Record sys := mkSys { mach : machine; pcs : list pc; held : list (list nat) }.

Definition pc_of (s : sys) (c : nat) : pc := default Out (pcs s !! c).
Definition held_of (s : sys) (c : nat) : list nat := default [] (held s !! c).

(** One memory access, or one instruction on the CPU's own state. *)
Inductive step : sys -> sys -> Prop :=
  | step_enter s c l m' :
      (c < length (cpus (mach s)))%nat -> (l < length (locks (mach s)))%nat ->
      pc_of s c = Out -> acquire_enter c l (mach s) = Ret tt m' ->
      step s (mkSys m' (<[c:=Spinning l]> (pcs s)) (held s))
  | step_spin s c l m' :
      pc_of s c = Spinning l -> xchg_locked l true (mach s) = Ret true m' ->
      step s (mkSys m' (pcs s) (held s))
  | step_got s c l m' :
      pc_of s c = Spinning l -> xchg_locked l true (mach s) = Ret false m' ->
      step s (mkSys m' (<[c:=Got l]> (pcs s)) (held s))
  | step_record s c l m' :
      pc_of s c = Got l -> record_holder l (Some c) (mach s) = Ret tt m' ->
      step s (mkSys m' (<[c:=Out]> (pcs s)) (<[c:=l :: held_of s c]> (held s)))
  | step_leave s c l m' :
      (l < length (locks (mach s)))%nat -> pc_of s c = Out ->
      (release_check c l ;;; record_holder l None) (mach s) = Ret tt m' ->
      step s (mkSys m' (<[c:=Leaving l]> (pcs s))
                (<[c:=remove_one l (held_of s c)]> (held s)))
  | step_unlock s c l old m' :
      pc_of s c = Leaving l -> xchg_locked l false (mach s) = Ret old m' ->
      step s (mkSys m' (<[c:=Popping]> (pcs s)) (held s))
  | step_pop s c m' :
      pc_of s c = Popping -> popcli c (mach s) = Ret tt m' ->
      step s (mkSys m' (<[c:=Out]> (pcs s)) (held s))
  | step_sti s c :
      (* the scheduler's sti, a return to user space *)
      pc_of s c = Out -> ncli (get_cpu c (mach s)) = 0 ->
      step s (mkSys (set_cpu c (mkCpu 0 (intena (get_cpu c (mach s))) true) (mach s))
                (pcs s) (held s)).

Definition init (ncpu nlock : nat) : sys :=
  mkSys (mkMachine (replicate ncpu (mkCpu 0 false false)) (replicate nlock initlock))
    (replicate ncpu Out) (replicate ncpu []).

Definition reachable (s : sys) : Prop :=
  exists ncpu nlock, rtc step (init ncpu nlock) s.

(** ** Mutual exclusion *)

(** CPU [c] is between the successful [xchg] of [acquire] and the one of
    [release] for lock [l]. *)
Definition owns (s : sys) (c l : nat) : Prop :=
  l ∈ held_of s c \/ pc_of s c = Got l \/ pc_of s c = Leaving l.

Definition depth (p : pc) : Z := if p is Out then 0 else 1.

(** The lock words against the owners. *)
Record mutex (word : nat -> bool) (own : nat -> nat -> Prop) : Prop := {
  mutex_word : forall c l, own c l -> word l = true;
  mutex_unique : forall c c' l, own c l -> own c' l -> c = c';
  mutex_owner : forall l, word l = true -> exists c, own c l
}.

(** The recorded holder against the critical sections a CPU is in. *)
Definition holders (L : nat -> spinlock) (H : nat -> list nat) : Prop :=
  (forall c l, lcpu (L l) = Some c <-> l ∈ H c) /\ (forall c, NoDup (H c)).

(** The nesting depth counts the locks held or in transit. *)
Definition nesting (x : cpu) (p : pc) (h : list nat) : Prop :=
  ncli x = Z.of_nat (length h) + depth p /\ (0 < ncli x -> iflag x = false).

Definition sinv (s : sys) : Prop :=
  length (pcs s) = length (cpus (mach s)) /\ length (held s) = length (cpus (mach s)) /\
  (forall c l, pc_of s c = Spinning l -> (l < length (locks (mach s)))%nat) /\
  (forall c l, pc_of s c = Got l \/ pc_of s c = Leaving l -> l ∉ held_of s c) /\
  mutex (fun l => locked (get_lock l (mach s))) (owns s) /\
  holders (fun l => get_lock l (mach s)) (held_of s) /\
  (forall c, nesting (get_cpu c (mach s)) (pc_of s c) (held_of s c)).

Lemma get_lock_set l l' x m :
  (l < length (locks m))%nat ->
  get_lock l' (set_lock l x m) = if decide (l = l') then x else get_lock l' m.
Proof.
  intros. unfold get_lock, set_lock. simpl. case_decide as E; [subst|].
  - by rewrite list_lookup_insert_eq.
  - by rewrite list_lookup_insert_ne.
Qed.

Lemma get_cpu_set c c' x m :
  (c < length (cpus m))%nat ->
  get_cpu c' (set_cpu c x m) = if decide (c = c') then x else get_cpu c' m.
Proof.
  intros. unfold get_cpu, set_cpu. simpl. case_decide as E; [subst|].
  - by rewrite list_lookup_insert_eq.
  - by rewrite list_lookup_insert_ne.
Qed.

Lemma pc_of_set s c c' x m h :
  (c < length (pcs s))%nat ->
  pc_of (mkSys m (<[c:=x]> (pcs s)) h) c' = if decide (c = c') then x else pc_of s c'.
Proof.
  intros. unfold pc_of. simpl. case_decide as E; [subst|].
  - by rewrite list_lookup_insert_eq.
  - by rewrite list_lookup_insert_ne.
Qed.

Lemma held_of_set s c c' x m ps :
  (c < length (held s))%nat ->
  held_of (mkSys m ps (<[c:=x]> (held s))) c' = if decide (c = c') then x else held_of s c'.
Proof.
  intros. unfold held_of. simpl. case_decide as E; [subst|].
  - by rewrite list_lookup_insert_eq.
  - by rewrite list_lookup_insert_ne.
Qed.

(** A CPU with a program counter inside a routine, and a lock with its word set,
    exist. *)
Lemma pc_in_range s c : pc_of s c <> Out -> (c < length (pcs s))%nat.
Proof.
  unfold pc_of. intros H. destruct (pcs s !! c) eqn:E; [|done]. by eapply lookup_lt_Some.
Qed.


(** The effect of each access, in terms of the accessors. *)
Lemma acquire_enter_Ret c l m m' :
  acquire_enter c l m = Ret tt m' ->
  holding c l m = false /\
  m' = set_cpu c (mkCpu (ncli (get_cpu c m) + 1)
                    (if ncli (get_cpu c m) =? 0 then iflag (get_cpu c m) else intena (get_cpu c m))
                    false) m.
Proof.
  unfold acquire_enter, pushcli, push_cpu, bind, gets, modify, ret, panic.
  change (holding c l (set_cpu c ?x m)) with (holding c l m).
  destruct (holding c l m); naive_solver.
Qed.

Lemma xchg_locked_Ret l v m old m' :
  xchg_locked l v m = Ret old m' ->
  old = locked (get_lock l m) /\ m' = set_lock l (mkLock v (lcpu (get_lock l m))) m.
Proof. unfold xchg_locked, bind, gets, modify, ret. naive_solver. Qed.

Lemma popcli_Ret c m m' :
  popcli c m = Ret tt m' ->
  iflag (get_cpu c m) = false /\
  m' = set_cpu c (mkCpu (ncli (get_cpu c m) - 1) (intena (get_cpu c m))
                    ((ncli (get_cpu c m) - 1 =? 0) && intena (get_cpu c m))) m.
Proof.
  unfold popcli, bind, gets, modify, panic. destruct (iflag _); [done|].
  destruct (ncli _ - 1 <? 0); [done|]. intros [= <-]. split; [done|].
  by destruct ((ncli (get_cpu c m) - 1 =? 0) && intena (get_cpu c m)).
Qed.

Lemma leave_Ret c l m m' :
  (release_check c l ;;; record_holder l None) m = Ret tt m' ->
  lcpu (get_lock l m) = Some c /\ locked (get_lock l m) = true /\
  m' = set_lock l (mkLock true None) m.
Proof.
  unfold release_check, record_holder, bind, gets, modify, ret, panic, holding.
  destruct (locked (get_lock l m)) eqn:E; cbn [andb]; [|done].
  destruct (bool_decide _) eqn:E'; [|done]. apply bool_decide_eq_true in E'.
  rewrite E. naive_solver.
Qed.

Lemma mutex_iff w w' (own own' : nat -> nat -> Prop) :
  (forall l, w' l = w l) -> (forall c l, own' c l <-> own c l) -> mutex w own -> mutex w' own'.
Proof.
  intros Ew Eo [H1 H2 H3]. split.
  - intros c l Hc. rewrite Ew. by apply (H1 c), Eo.
  - intros c c' l Hc Hc'. apply (H2 c c' l); by apply Eo.
  - intros l Hl. rewrite Ew in Hl. destruct (H3 l Hl) as [c Hc]. exists c. by apply Eo.
Qed.

Lemma mutex_take w w' (own own' : nat -> nat -> Prop) c l :
  w l = false -> (forall x, w' x = if decide (l = x) then true else w x) ->
  (forall c' l', own' c' l' <-> own c' l' \/ (c' = c /\ l' = l)) ->
  mutex w own -> mutex w' own'.
Proof.
  intros Hl Ew Eo [H1 H2 H3]. split.
  - intros c' l' [Ho|[-> ->]]%Eo; rewrite Ew; case_decide; eauto.
  - intros c1 c2 l' [Ho|[-> ->]]%Eo [Ho'|[-> E]]%Eo; subst; eauto.
    + apply H1 in Ho. congruence.
    + apply H1 in Ho'. congruence.
  - intros l'. rewrite Ew. case_decide as E; intros Hw.
    + exists c. apply Eo. by right.
    + destruct (H3 l' Hw) as [c' Hc']. exists c'. apply Eo. by left.
Qed.

Lemma mutex_drop w w' (own own' : nat -> nat -> Prop) c l :
  own c l -> (forall x, w' x = if decide (l = x) then false else w x) ->
  (forall c' l', own' c' l' <-> own c' l' /\ ~ (c' = c /\ l' = l)) ->
  mutex w own -> mutex w' own'.
Proof.
  intros Hl Ew Eo [H1 H2 H3]. split.
  - intros c' l' [Ho Hn]%Eo; rewrite Ew; case_decide; subst; eauto.
  - intros c1 c2 l' [Ho _]%Eo [Ho' _]%Eo. eauto.
  - intros l'. rewrite Ew. case_decide as E; intros Hw; [done|].
    destruct (H3 l' Hw) as [c' Hc']. exists c'. apply Eo. naive_solver.
Qed.

(** A lock whose word is set exists. *)
Lemma locked_in_range l m : locked (get_lock l m) = true -> (l < length (locks m))%nat.
Proof.
  unfold get_lock. intros H. destruct (locks m !! l) eqn:E; [|done]. by eapply lookup_lt_Some.
Qed.

(** Reading the accessors off an updated system, given the ranges. *)
Ltac read_sys :=
  repeat first
    [ rewrite pc_of_set in * by lia | rewrite held_of_set in * by lia
    | rewrite get_cpu_set in * by lia | rewrite get_lock_set in * by lia ].

Ltac own_iff :=
  intros x y; unfold owns; read_sys; repeat case_decide; subst; simpl;
  rewrite ?elem_of_cons; intuition congruence.

Section Steps.
Context (s : sys).

Lemma sinv_enter c l m' :
  (c < length (cpus (mach s)))%nat -> (l < length (locks (mach s)))%nat -> pc_of s c = Out ->
  acquire_enter c l (mach s) = Ret tt m' -> sinv s ->
  sinv (mkSys m' (<[c:=Spinning l]> (pcs s)) (held s)).
Proof.
  intros Hc Hl0 Hpc [_ ->]%acquire_enter_Ret (Hp & Hh & Hsp & Hse & Hm & Hl & Hn).
  split_and!; simpl; rewrite ?length_insert; try done.
  - intros x y. read_sys. case_decide; naive_solver.
  - intros x y. read_sys. case_decide; naive_solver.
  - eapply mutex_iff; [| |exact Hm]; [done|]. own_iff.
  - intros x. specialize (Hn x). read_sys.
    change (held_of (mkSys _ _ (held s)) x) with (held_of s x). case_decide; [subst x|done].
    destruct Hn as [Hn _]. rewrite Hpc in Hn. split; simpl in *; [lia|done].
Qed.

Lemma sinv_spin l m' :
  xchg_locked l true (mach s) = Ret true m' -> sinv s -> sinv (mkSys m' (pcs s) (held s)).
Proof.
  intros [Ho ->]%xchg_locked_Ret Hs. symmetry in Ho.
  assert (Hid : set_lock l (mkLock true (lcpu (get_lock l (mach s)))) (mach s) = mach s).
  { pose proof (locked_in_range _ _ Ho) as Hr. unfold set_lock. destruct (mach s) as [cs ls].
    simpl in *. f_equal. apply list_insert_id. unfold get_lock in *. simpl in *.
    destruct (ls !! l) as [[w o]|] eqn:E; simpl in *; congruence. }
  rewrite Hid. by destruct s.
Qed.

Lemma sinv_got c l m' :
  pc_of s c = Spinning l ->
  xchg_locked l true (mach s) = Ret false m' -> sinv s ->
  sinv (mkSys m' (<[c:=Got l]> (pcs s)) (held s)).
Proof.
  intros Hpc [Ho ->]%xchg_locked_Ret (Hp & Hh & Hsp & Hse & Hm & Hd & Hn).
  pose proof (pc_in_range s c ltac:(congruence)). pose proof (Hsp c l Hpc) as Hl.
  split_and!; simpl; rewrite ?length_insert; try done.
  - intros x y. read_sys. case_decide; [done|]. apply Hsp.
  - intros x y. read_sys. case_decide; [subst x|apply Hse]. intros [[= <-]|?] Hin; [|done].
    pose proof (mutex_word _ _ Hm c l (or_introl Hin)) as Hw. simpl in Hw. congruence.
  - eapply (mutex_take _ _ _ _ c l); [| | |exact Hm]; [done| |].
    + intros x. simpl. read_sys. by case_decide.
    + own_iff.
  - destruct Hd as [Hd1 Hd2]. split; [|done]. intros c' x. read_sys.
    rewrite <- (Hd1 c' x). case_decide; [by subst|done].
  - intros x. specialize (Hn x). read_sys.
    change (held_of (mkSys _ _ (held s)) x) with (held_of s x).
    change (get_cpu x (set_lock _ _ (mach s))) with (get_cpu x (mach s)).
    case_decide; [subst x|done]. rewrite Hpc in Hn. done.
Qed.

Lemma sinv_record c l m' :
  pc_of s c = Got l -> record_holder l (Some c) (mach s) = Ret tt m' -> sinv s ->
  sinv (mkSys m' (<[c:=Out]> (pcs s)) (<[c:=l :: held_of s c]> (held s))).
Proof.
  intros Hpc [= <-] (Hp & Hh & Hsp & Hse & Hm & [Hd1 Hd2] & Hn).
  pose proof (pc_in_range s c ltac:(congruence)).
  assert (Hw : locked (get_lock l (mach s)) = true)
    by (apply (mutex_word _ _ Hm c); right; by left).
  pose proof (locked_in_range _ _ Hw) as Hl.
  assert (Hnot : forall x, l ∉ held_of s x).
  { intros x Hx. assert (x = c) as ->; [|by apply (Hse c l); [left|]].
    apply (mutex_unique _ _ Hm x c l); [by left|right; by left]. }
  split_and!; simpl; rewrite ?length_insert; try done.
  - intros x y. read_sys. case_decide; [done|]. apply Hsp.
  - intros x y. read_sys. case_decide; [naive_solver|]. apply Hse.
  - eapply mutex_iff; [| |exact Hm]; simpl.
    + intros x. read_sys. by case_decide; subst.
    + own_iff.
  - split; intros x; [intros y|]; read_sys.
    + specialize (Hd1 x y). specialize (Hnot x).
      repeat case_decide; subst; simpl; rewrite ?elem_of_cons; intuition congruence.
    + case_decide; subst; [|done]. by constructor.
  - intros x. specialize (Hn x). read_sys.
    change (get_cpu x (set_lock _ _ (mach s))) with (get_cpu x (mach s)).
    case_decide; [subst x|done]. rewrite Hpc in Hn. destruct Hn as [Hn1 Hn2]. split; [simpl in *; lia|done].
Qed.

Lemma sinv_leave c l m' :
  pc_of s c = Out -> (release_check c l ;;; record_holder l None) (mach s) = Ret tt m' -> sinv s ->
  sinv (mkSys m' (<[c:=Leaving l]> (pcs s)) (<[c:=remove_one l (held_of s c)]> (held s))).
Proof.
  intros Hpc (Hlc & Hw & ->)%leave_Ret (Hp & Hh & Hsp & Hse & Hm & [Hd1 Hd2] & Hn).
  assert (Hin : l ∈ held_of s c) by by apply Hd1.
  assert (Hc : (c < length (held s))%nat).
  { unfold held_of in Hin. destruct (held s !! c) eqn:E; [by eapply lookup_lt_Some|].
    by apply not_elem_of_nil in Hin. }
  pose proof (locked_in_range _ _ Hw) as Hl.
  pose proof (elem_of_remove_one l) as Hrm.
  split_and!; simpl; rewrite ?length_insert; try done.
  - intros x y. read_sys. case_decide; [done|]. apply Hsp.
  - intros x y. read_sys. case_decide; [subst x|apply Hse].
    rewrite Hrm by done. naive_solver.
  - eapply mutex_iff; [| |exact Hm]; simpl.
    + intros x. read_sys. by case_decide; subst.
    + intros x y. unfold owns. read_sys. repeat case_decide; subst; [|done].
      rewrite Hrm by done. destruct (decide (y = l)); intuition congruence.
  - split; intros x; [intros y|]; read_sys.
    + specialize (Hd1 x y) as Hxy. pose proof (Hd1 x l) as Hxl. rewrite Hlc in Hxl.
      repeat case_decide; subst; simpl; rewrite ?Hrm by done; intuition congruence.
    + case_decide; subst; [|done]. by apply NoDup_remove_one.
  - intros x. specialize (Hn x). read_sys.
    change (get_cpu x (set_lock _ _ (mach s))) with (get_cpu x (mach s)).
    case_decide; [subst x|done]. rewrite Hpc in Hn. destruct Hn as [Hn1 Hn2].
    pose proof (length_remove_one l _ Hin). split; [simpl in *; lia|done].
Qed.

Lemma sinv_unlock c l old m' :
  pc_of s c = Leaving l -> xchg_locked l false (mach s) = Ret old m' -> sinv s ->
  sinv (mkSys m' (<[c:=Popping]> (pcs s)) (held s)).
Proof.
  intros Hpc [Ho ->]%xchg_locked_Ret (Hp & Hh & Hsp & Hse & Hm & [Hd1 Hd2] & Hn).
  pose proof (pc_in_range s c ltac:(congruence)).
  assert (Hown : owns s c l) by (right; by right).
  pose proof (locked_in_range _ _ (mutex_word _ _ Hm c l Hown)) as Hl.
  split_and!; simpl; rewrite ?length_insert; try done.
  - intros x y. read_sys. case_decide; [done|]. apply Hsp.
  - intros x y. read_sys. case_decide; [naive_solver|]. apply Hse.
  - eapply (mutex_drop _ _ _ _ c l); [exact Hown| | |exact Hm].
    + intros x. simpl. read_sys. by case_decide.
    + intros x y. unfold owns. read_sys. case_decide as E; [subst x|naive_solver].
      change (held_of (mkSys _ _ (held s)) c) with (held_of s c).
      pose proof (Hse c l (or_intror Hpc)). rewrite Hpc.
      destruct (decide (y = l)); intuition congruence.
  - split; [|done]. intros x y. read_sys. rewrite <- (Hd1 x y). by case_decide; subst.
  - intros x. specialize (Hn x). read_sys.
    change (held_of (mkSys _ _ (held s)) x) with (held_of s x).
    change (get_cpu x (set_lock _ _ (mach s))) with (get_cpu x (mach s)).
    case_decide; [subst x|done]. by rewrite Hpc in Hn.
Qed.

Lemma sinv_pop c m' :
  pc_of s c = Popping -> popcli c (mach s) = Ret tt m' -> sinv s ->
  sinv (mkSys m' (<[c:=Out]> (pcs s)) (held s)).
Proof.
  intros Hpc [Hi ->]%popcli_Ret (Hp & Hh & Hsp & Hse & Hm & Hd & Hn).
  pose proof (pc_in_range s c ltac:(congruence)).
  split_and!; simpl; rewrite ?length_insert; try done.
  - intros x y. read_sys. case_decide; [done|]. apply Hsp.
  - intros x y. read_sys. case_decide; [naive_solver|]. apply Hse.
  - eapply mutex_iff; [| |exact Hm]; [done|]. own_iff.
  - intros x. specialize (Hn x). read_sys.
    change (held_of (mkSys _ _ (held s)) x) with (held_of s x).
    case_decide; [subst x|done]. rewrite Hpc in Hn. unfold nesting in *. simpl in *.
    split; [lia|]. intros. rewrite (proj2 (Z.eqb_neq _ 0)) by lia. done.
Qed.

Lemma sinv_sti c :
  ncli (get_cpu c (mach s)) = 0 -> sinv s ->
  sinv (mkSys (set_cpu c (mkCpu 0 (intena (get_cpu c (mach s))) true) (mach s)) (pcs s) (held s)).
Proof.
  intros H0 (Hp & Hh & Hsp & Hse & Hm & Hd & Hn).
  split_and!; simpl; rewrite ?length_insert; try done.
  intros x. specialize (Hn x).
  change (pc_of (mkSys _ (pcs s) (held s)) x) with (pc_of s x).
  change (held_of (mkSys _ (pcs s) (held s)) x) with (held_of s x).
  destruct (decide (c < length (cpus (mach s)))%nat) as [Hc|Hc].
  - rewrite get_cpu_set by done. case_decide; [subst x|done].
    unfold nesting in *. simpl. lia.
  - unfold set_cpu. rewrite list_insert_ge by lia. by destruct (mach s).
Qed.

End Steps.

Lemma sinv_step s s' : step s s' -> sinv s -> sinv s'.
Proof.
  destruct 1; eauto using sinv_enter, sinv_spin, sinv_got, sinv_record, sinv_leave,
    sinv_unlock, sinv_pop, sinv_sti.
Qed.

Lemma sinv_init ncpu nlock : sinv (init ncpu nlock).
Proof.
  assert (HP : forall c, pc_of (init ncpu nlock) c = Out).
  { intros c. unfold pc_of. simpl. destruct (replicate ncpu Out !! c) eqn:E; [|done].
    by apply lookup_replicate in E as [-> _]. }
  assert (HH : forall c, held_of (init ncpu nlock) c = []).
  { intros c. unfold held_of. simpl. destruct (replicate ncpu [] !! c) eqn:E; [|done].
    by apply lookup_replicate in E as [-> _]. }
  assert (HL : forall l, get_lock l (mach (init ncpu nlock)) = initlock).
  { intros l. unfold get_lock. simpl. destruct (replicate nlock initlock !! l) eqn:E; [|done].
    by apply lookup_replicate in E as [-> _]. }
  assert (HC : forall c, get_cpu c (mach (init ncpu nlock)) = mkCpu 0 false false).
  { intros c. unfold get_cpu. simpl.
    destruct (replicate ncpu (mkCpu 0 false false) !! c) eqn:E; [|done].
    by apply lookup_replicate in E as [-> _]. }
  split_and!; simpl; rewrite ?length_replicate; try done.
  - intros c l. by rewrite HP.
  - intros c l. rewrite HP. naive_solver.
  - split; [| |intros l; rewrite HL; done].
    + intros c l. unfold owns. rewrite HP, HH. intros [[]%not_elem_of_nil|[?|?]]; done.
    + intros c c' l. unfold owns. rewrite HP, HH. intros [[]%not_elem_of_nil|[?|?]]; done.
  - split; intros c; [intros l|]; rewrite HH; [|constructor].
    rewrite HL. simpl. split; [done|]. intros []%not_elem_of_nil.
  - intros c. rewrite HC, HP, HH. split; simpl; lia.
Qed.

Lemma reachable_sinv s : reachable s -> sinv s.
Proof.
  intros (n & k & Hr). pose proof (sinv_init n k) as H0.
  induction Hr; eauto using sinv_step.
Qed.

(** C5: mutual exclusion.  In every state of the machine, reached by any
    interleaving of the memory accesses of [acquire] and [release], a lock has
    at most one CPU between its acquiring and its releasing [xchg], the lock
    word is set exactly when there is one, and [holding] answers true exactly on
    the CPU that is in the critical section. *)
Theorem spinlock_mutual_exclusion s :
  reachable s ->
  (forall c c' l, owns s c l -> owns s c' l -> c = c') /\
  (forall l, locked (get_lock l (mach s)) = true <-> exists c, owns s c l) /\
  (forall c l, holding c l (mach s) = true <-> l ∈ held_of s c).
Proof.
  intros (Hp & Hh & Hsp & Hse & Hm & [Hd1 Hd2] & Hn)%reachable_sinv. split_and!.
  - apply Hm.
  - intros l. split; [apply Hm|]. intros [c Hc]. by apply (mutex_word _ _ Hm c).
  - intros c l. unfold holding. rewrite andb_true_iff, bool_decide_eq_true. rewrite Hd1.
    split; [naive_solver|]. intros Hin. split; [|done].
    apply (mutex_word _ _ Hm c). by left.
Qed.

(** Two CPUs, one lock: CPU 0 is in the critical section, CPU 1 spins. *)
Definition contended : sys :=
  mkSys (mkMachine [mkCpu 1 false false; mkCpu 1 false false] [mkLock true (Some 0%nat)])
    [Out; Spinning 0] [[0%nat]; []].

Lemma contended_reachable : reachable contended.
Proof.
  exists 2%nat, 1%nat.
  eapply rtc_l; [eapply (step_enter _ 0 0); [simpl; lia|simpl; lia|done|vm_compute; reflexivity]|].
  eapply rtc_l; [eapply (step_enter _ 1 0); [simpl; lia|simpl; lia|done|vm_compute; reflexivity]|].
  eapply rtc_l; [eapply (step_got _ 0 0); [done|vm_compute; reflexivity]|].
  eapply rtc_l; [eapply (step_spin _ 1 0); [done|vm_compute; reflexivity]|].
  eapply rtc_l; [eapply (step_record _ 0 0); [done|vm_compute; reflexivity]|].
  vm_compute. apply rtc_refl.
Qed.

Lemma spinlock_mutual_exclusion_witness :
  reachable contended /\ (forall c c' l, owns contended c l -> owns contended c' l -> c = c') /\
  holding 0 0 (mach contended) = true /\ holding 1 0 (mach contended) = false.
Proof.
  split; [exact contended_reachable|].
  split; [apply (spinlock_mutual_exclusion contended contended_reachable)|done].
Defined.

(** A CPU that holds a lock, or waits for one, has interrupts disabled,
    [ncli] is the number of locks it holds (plus the one in transit), and a
    [release] of a held lock never panics, nor does the [popcli] inside it. *)
Theorem spinlock_interrupts_off s c :
  reachable s ->
  (ncli (get_cpu c (mach s)) = Z.of_nat (length (held_of s c)) + depth (pc_of s c)) /\
  (held_of s c <> [] \/ pc_of s c <> Out -> iflag (get_cpu c (mach s)) = false) /\
  (forall l, l ∈ held_of s c -> pc_of s c = Out -> wp (release c l) (fun _ _ => True) (mach s)).
Proof.
  intros (Hp & Hh & Hsp & Hse & Hm & [Hd1 Hd2] & Hn)%reachable_sinv.
  destruct (Hn c) as [Hc Hi]. split_and!; [done| |].
  - intros Hor. apply Hi. rewrite Hc. destruct Hor as [Hne|Hne].
    + destruct (held_of s c); [done|]. simpl. destruct (pc_of s c); simpl; lia.
    + destruct (pc_of s c); simpl; try lia. done.
  - intros l Hin Hpc.
    assert (Hpos : 0 < ncli (get_cpu c (mach s))).
    { rewrite Hc, Hpc. destruct (held_of s c); [by apply not_elem_of_nil in Hin|]. simpl. lia. }
    unfold wp, release, release_check, record_holder, xchg_locked, popcli, holding,
      bind, gets, modify, ret, panic.
    rewrite (mutex_word _ _ Hm c l (or_introl Hin) : locked (get_lock l (mach s)) = true).
    rewrite bool_decide_true by by apply Hd1. cbn [andb].
    match goal with |- context [get_cpu c ?m] =>
      change (get_cpu c m) with (get_cpu c (mach s)) end.
    rewrite (Hi Hpos), (proj2 (Z.ltb_ge _ 0)) by lia. done.
Qed.

Lemma spinlock_interrupts_off_witness :
  reachable contended /\ iflag (get_cpu 1 (mach contended)) = false.
Proof.
  split; [exact contended_reachable|].
  apply (spinlock_interrupts_off contended 1 contended_reachable). right. done.
Defined.

End SpinSys.
