(* ===== verification/Pipe.v ===== *)
(** * pipe.c: the pipe buffer and its readers and writers

    [Module Pipe] translates [pipewrite], [piperead] and [pipeclose].  The
    pipe's spinlock makes the code between two calls of [sleep] atomic, so each
    routine is a function that runs one such section and says whether it
    returned or went to sleep, together with the channels it woke.  The spec is
    a FIFO queue of at most [PIPESIZE] bytes.  [Module PipeSys] interleaves the
    sections of any number of readers and writers. *)

From S2P Require Import Prelude.

Module Pipe.

Definition PIPESIZE : Z := 512.

(** [struct pipe]; the lock is implicit in the atomicity of the sections. *)
Record pipe := mkPipe {
  data : list Z;
  nread : Z;
  nwrite : Z;
  readopen : bool;
  writeopen : bool
}.

(** The two sleep channels [&p->nread] and [&p->nwrite]. *)
Inductive chan := ch_nread | ch_nwrite.

#[export] Instance chan_eq_dec : EqDecision chan.
Proof. solve_decision. Defined.

(** The initialisation of a fresh page in [pipealloc]; [junk] is what the page
    held where [data] lies. *)
Definition pipe_init (junk : list Z) : pipe :=
  mkPipe junk 0 0 true true.

Definition full (p : pipe) : bool := nwrite p =? u32 (nread p + PIPESIZE).
Definition empty (p : pipe) : bool := nread p =? nwrite p.

(** [p->data[p->nwrite++ % PIPESIZE] = c] *)
Definition put (c : Z) (p : pipe) : pipe :=
  mkPipe (<[Z.to_nat (nwrite p mod PIPESIZE):=c]> (data p)) (nread p)
    (u32 (nwrite p + 1)) (readopen p) (writeopen p).

(** [p->data[p->nread++ % PIPESIZE]] *)
Definition peek (p : pipe) : Z := nth (Z.to_nat (nread p mod PIPESIZE)) (data p) 0.
Definition advance (p : pipe) : pipe :=
  mkPipe (data p) (u32 (nread p + 1)) (nwrite p) (readopen p) (writeopen p).

(** How a section of [pipewrite] ends: it returns, or it sleeps on [&p->nwrite]
    with the bytes [rest] still to be written. *)
Inductive wres := WDone (r : Z) | WSleep (rest : list Z).

(** One section of [pipewrite]: [rest] are the bytes [addr[i..n-1]]. *)
Fixpoint pipewrite (killed : bool) (n : Z) (rest : list Z) (p : pipe) : pipe * list chan * wres :=
  match rest with
  | [] => (p, [ch_nread], WDone n)
  | c :: rest' =>
      if full p then
        if negb (readopen p) || killed then (p, [], WDone (-1))
        else (p, [ch_nread], WSleep rest)
      else pipewrite killed n rest' (put c p)
  end.

(** The copy loop of [piperead]. *)
Fixpoint piperead_copy (n : nat) (p : pipe) : pipe * list Z :=
  match n with
  | O => (p, [])
  | S n' =>
      if empty p then (p, [])
      else let '(p', l) := piperead_copy n' (advance p) in (p', peek p :: l)
  end.

Inductive rres := RDone (r : Z) (bytes : list Z) | RSleep.

(** One section of [piperead]. *)
Definition piperead (killed : bool) (n : Z) (p : pipe) : pipe * list chan * rres :=
  if empty p && writeopen p then
    if killed then (p, [], RDone (-1) []) else (p, [], RSleep)
  else
    let '(p', l) := piperead_copy (Z.to_nat n) p in
    (p', [ch_nwrite], RDone (Z.of_nat (length l)) l).

(** [pipeclose]: the page is freed when both ends are closed. *)
Inductive closed := Keep (p : pipe) | Kfree.

Definition pipeclose (writable : bool) (p : pipe) : list chan * closed :=
  let '(p, ch) :=
    if writable then (mkPipe (data p) (nread p) (nwrite p) (readopen p) false, ch_nread)
    else (mkPipe (data p) (nread p) (nwrite p) false (writeopen p), ch_nwrite) in
  ([ch], if negb (readopen p) && negb (writeopen p) then Kfree else Keep p).

(** ** The abstract queue *)

Definition count (p : pipe) : Z := u32 (nwrite p - nread p).

(** The bytes in the pipe, oldest first. *)
Definition queue (p : pipe) : list Z :=
  (fun k => nth (Z.to_nat ((nread p + Z.of_nat k) mod PIPESIZE)) (data p) 0)
    <$> seq 0 (Z.to_nat (count p)).

Record wf (p : pipe) : Prop := {
  wf_data : length (data p) = Z.to_nat PIPESIZE;
  wf_nread : is_u32 (nread p);
  wf_nwrite : is_u32 (nwrite p);
  wf_count : count p <= PIPESIZE
}.

Lemma length_queue p : wf p -> Z.of_nat (length (queue p)) = count p.
Proof.
  intros _. unfold queue. rewrite length_fmap, length_seq.
  assert (0 <= count p) by (unfold count; apply u32_range). lia.
Qed.

Lemma full_queue p : wf p -> full p = true <-> length (queue p) = Z.to_nat PIPESIZE.
Proof.
  intros H. pose proof (length_queue p H). destruct H. unfold full, count, PIPESIZE in *.
  rewrite Z.eqb_eq. u32_lia.
Qed.

Lemma empty_queue p : wf p -> empty p = true <-> queue p = [].
Proof.
  intros H. pose proof (length_queue p H). destruct H. unfold empty.
  rewrite Z.eqb_eq, <- length_zero_iff_nil. unfold count in *. u32_lia.
Qed.

(** Writing below capacity appends to the queue: the ring indices of at most
    [PIPESIZE] consecutive counters are distinct, also across the wrap-around of
    the counters, because [PIPESIZE] divides 2^32. *)
Lemma put_queue c p :
  wf p -> full p = false -> wf (put c p) /\ queue (put c p) = queue p ++ [c].
Proof.
  intros Hwf Hfull. pose proof Hwf as [Hd Hr Hw Hc].
  assert (Hnf : count p < PIPESIZE).
  { destruct (Z.eq_dec (count p) PIPESIZE) as [E|]; [|lia].
    pose proof (length_queue p Hwf). rewrite (proj2 (full_queue p Hwf)) in Hfull; [done|lia]. }
  assert (Hcnt : count (put c p) = count p + 1).
  { unfold count, put, PIPESIZE in *; simpl. u32_lia. }
  assert (Hc0 : 0 <= count p) by (unfold count; apply u32_range).
  split.
  { split; simpl; [by rewrite length_insert|done|apply u32_range|lia]. }
  unfold queue. rewrite Hcnt. replace (Z.to_nat (count p + 1)) with (Z.to_nat (count p) + 1)%nat by lia.
  rewrite seq_app, fmap_app. simpl. f_equal.
  - apply list_fmap_ext. intros i k Hk. apply lookup_seq in Hk as [-> Hk]. simpl.
    unfold count, PIPESIZE in *. rewrite !nth_lookup, list_lookup_insert_ne; [done|]. u32_lia.
  - f_equal. unfold count, PIPESIZE in *. rewrite nth_lookup.
    replace (Z.to_nat ((nread p + Z.of_nat (Z.to_nat (u32 (nwrite p - nread p)))) mod 512))
      with (Z.to_nat (nwrite p mod 512)) by u32_lia.
    rewrite list_lookup_insert_eq; [done|]. u32_lia.
Qed.

Lemma advance_queue p :
  wf p -> empty p = false -> wf (advance p) /\ queue p = peek p :: queue (advance p).
Proof.
  intros Hwf He. pose proof Hwf as [Hd Hr Hw Hc].
  assert (Hne : count p <> 0).
  { intros E. pose proof (length_queue p Hwf). rewrite (proj2 (empty_queue p Hwf)) in He; [done|].
    apply length_zero_iff_nil. lia. }
  assert (Hcnt : count p = count (advance p) + 1).
  { unfold count, advance in *; simpl. u32_lia. }
  assert (Hc0 : 0 <= count (advance p)) by (unfold count; apply u32_range).
  split.
  { split; simpl; [done|apply u32_range|done|lia]. }
  unfold queue. rewrite Hcnt.
  replace (Z.to_nat (count (advance p) + 1)) with (S (Z.to_nat (count (advance p)))) by lia.
  cbn [seq]. rewrite fmap_cons. f_equal.
  - unfold peek. by rewrite Z.add_0_r.
  - rewrite <- fmap_S_seq, <- list_fmap_compose. apply list_fmap_ext. intros i k _. unfold compose. simpl.
    do 2 f_equal. unfold PIPESIZE in *. u32_lia.
Qed.

#[export] Hint Resolve put_queue advance_queue : xv6.

(** What a section of [pipewrite] should do to a queue with room for [room]
    more bytes: append what fits, then return, fail or sleep. *)
Definition write_spec (killed ropen : bool) (n : Z) (rest : list Z) (room : nat) : list chan * wres :=
  if decide (length rest <= room)%nat then ([ch_nread], WDone n)
  else if negb ropen || killed then ([], WDone (-1))
  else ([ch_nread], WSleep (drop room rest)).

Lemma pipewrite_ends killed n rest p :
  let '(p', _, _) := pipewrite killed n rest p in
  readopen p' = readopen p /\ writeopen p' = writeopen p.
Proof.
  revert p. induction rest as [|c rest IH]; intros p; simpl; [done|].
  destruct (full p); [by destruct (negb (readopen p) || killed)|].
  apply (IH (put c p)).
Qed.

Lemma pipewrite_spec killed n rest p :
  wf p ->
  let '(p', chs, r) := pipewrite killed n rest p in
  let room := (Z.to_nat PIPESIZE - length (queue p))%nat in
  wf p' /\ queue p' = queue p ++ take room rest /\
  (chs, r) = write_spec killed (readopen p) n rest room.
Proof.
  revert p. induction rest as [|c rest IH]; intros p Hwf; cbn [pipewrite].
  { rewrite take_nil, app_nil_r. unfold write_spec. rewrite decide_True by (simpl; lia). done. }
  destruct (full p) eqn:Hfull.
  - apply full_queue in Hfull; [|done]. rewrite Hfull, Nat.sub_diag, take_0, app_nil_r.
    unfold write_spec. rewrite decide_False by (simpl; lia). rewrite drop_0.
    by destruct (negb (readopen p) || killed).
  - destruct (put_queue c p Hwf Hfull) as [Hwf' Hq']. specialize (IH _ Hwf').
    destruct (pipewrite killed n rest (put c p)) as [[p' chs] r]. rewrite Hq' in IH.
    destruct IH as (Hwf'' & Hq'' & Hr). pose proof (length_queue _ Hwf') as Hlen.
    pose proof (wf_count _ Hwf'). rewrite Hq', length_app in Hlen. simpl in Hlen.
    rewrite length_app in Hr, Hq''. simpl in Hr, Hq''.
    replace (Z.to_nat PIPESIZE - length (queue p))%nat
      with (S (Z.to_nat PIPESIZE - (length (queue p) + 1)))%nat by lia.
    split_and!; [done| |].
    + rewrite Hq'', <- app_assoc. done.
    + rewrite Hr. unfold write_spec. cbn [length drop].
      repeat case_decide; try lia; done.
Qed.

(** A section of [pipewrite] on a well-formed pipe appends to the queue as
    many of the remaining bytes as fit below [PIPESIZE], in order, and then
    returns [n] (everything written), returns -1 (full, and the reader is gone
    or the process was killed) or sleeps with the rest; it wakes the readers in
    the first and third case. *)
Theorem pipewrite_refines killed n rest p :
  wf p ->
  let '(p', chs, r) := pipewrite killed n rest p in
  let room := (Z.to_nat PIPESIZE - length (queue p))%nat in
  wf p' /\ queue p' = queue p ++ take room rest /\
  (chs, r) = write_spec killed (readopen p) n rest room.
Proof. apply pipewrite_spec. Qed.

Lemma piperead_copy_spec n p :
  wf p ->
  let '(p', l) := piperead_copy n p in
  wf p' /\ l = take n (queue p) /\ queue p' = drop n (queue p) /\
  readopen p' = readopen p /\ writeopen p' = writeopen p.
Proof.
  revert p. induction n as [|n IH]; intros p Hwf; simpl.
  { by rewrite take_0, drop_0. }
  destruct (empty p) eqn:He.
  - apply empty_queue in He as ->; [|done]. by rewrite take_nil, drop_nil.
  - destruct (advance_queue p Hwf He) as [Hwf' Hq]. specialize (IH _ Hwf').
    destruct (piperead_copy n (advance p)) as [p' l]. rewrite Hq.
    destruct IH as (? & -> & -> & ? & ?). done.
Qed.

Lemma piperead_spec killed n p :
  wf p ->
  let '(p', chs, r) := piperead killed n p in
  wf p' /\ readopen p' = readopen p /\ writeopen p' = writeopen p /\
  if decide (queue p = [] /\ writeopen p = true) then
    p' = p /\ chs = [] /\ r = if killed then RDone (-1) [] else RSleep
  else
    let l := take (Z.to_nat n) (queue p) in
    r = RDone (Z.of_nat (length l)) l /\ queue p' = drop (Z.to_nat n) (queue p) /\
    chs = [ch_nwrite].
Proof.
  intros Hwf. unfold piperead. destruct (empty p && writeopen p) eqn:E.
  - apply andb_true_iff in E as [E1 E2]. apply empty_queue in E1; [|done].
    destruct killed; by rewrite decide_True by done.
  - pose proof (piperead_copy_spec (Z.to_nat n) p Hwf) as Hc.
    destruct (piperead_copy (Z.to_nat n) p) as [p' l]. destruct Hc as (? & -> & ? & ? & ?).
    rewrite decide_False; [done|]. intros [E1 E2]. apply empty_queue in E1; [|done].
    by rewrite E1, E2 in E.
Qed.

(** A section of [piperead] on a well-formed pipe sleeps exactly when the
    queue is empty, a writer may still come and the process was not killed
    (killed: -1); otherwise it returns the first [n] bytes of the queue in order
    (all of it when shorter, so 0 only at end of file), removes exactly those
    and wakes the writers. *)
Theorem piperead_refines killed n p :
  wf p ->
  let '(p', chs, r) := piperead killed n p in
  wf p' /\ readopen p' = readopen p /\ writeopen p' = writeopen p /\
  if decide (queue p = [] /\ writeopen p = true) then
    p' = p /\ chs = [] /\ r = if killed then RDone (-1) [] else RSleep
  else
    let l := take (Z.to_nat n) (queue p) in
    r = RDone (Z.of_nat (length l)) l /\ queue p' = drop (Z.to_nat n) (queue p) /\
    chs = [ch_nwrite].
Proof. apply piperead_spec. Qed.

(** A pipe at the edge of the counters: four bytes from 2^32 - 2 on. *)
Definition wrap_pipe : pipe :=
  mkPipe (replicate 512 7) 4294967294 2 true true.

Lemma wrap_pipe_wf : wf wrap_pipe.
Proof. split; by vm_compute. Qed.

Lemma pipewrite_refines_witness :
  wf wrap_pipe /\
  let '(p', chs, r) := pipewrite false 2 [8; 9] wrap_pipe in
  queue p' = [7; 7; 7; 7; 8; 9] /\ r = WDone 2.
Proof.
  split; [exact wrap_pipe_wf|].
  pose proof (pipewrite_refines false 2 [8; 9] wrap_pipe wrap_pipe_wf) as H.
  destruct (pipewrite false 2 [8; 9] wrap_pipe) as [[p' chs] r] eqn:E.
  destruct H as (_ & -> & H). split; [by vm_compute|]. vm_compute in H. congruence.
Defined.

Lemma piperead_refines_witness :
  wf wrap_pipe /\
  let '(p', chs, r) := piperead false 3 wrap_pipe in
  r = RDone 3 [7; 7; 7] /\ queue p' = [7].
Proof.
  split; [exact wrap_pipe_wf|].
  pose proof (piperead_refines false 3 wrap_pipe wrap_pipe_wf) as H.
  destruct (piperead false 3 wrap_pipe) as [[p' chs] r] eqn:E.
  destruct H as (_ & _ & _ & H). rewrite decide_False in H by (vm_compute; naive_solver).
  destruct H as (-> & -> & _). split; by vm_compute.
Defined.

End Pipe.

Module PipeSys.
Import Pipe.

(** A process inside [pipewrite] (with the bytes still to be written) or inside
    [piperead]; [asleep] is its being on the corresponding sleep channel. *)
Inductive thread :=
  | Writer (asleep killed : bool) (n : Z) (rest : list Z)
  | Reader (asleep killed : bool) (n : Z).

(** [sent] and [rcvd] record the bytes that entered and left the pipe. *)
Record sys := mkSys { pp : pipe; threads : list thread; sent : list Z; rcvd : list Z }.

Definition sleeps_on (ch : chan) (t : thread) : bool :=
  match t with
  | Writer true _ _ _ => bool_decide (ch = ch_nwrite)
  | Reader true _ _ => bool_decide (ch = ch_nread)
  | _ => false
  end.

(** [wakeup] on each channel of [chs]. *)
Definition wake (chs : list chan) (t : thread) : thread :=
  if existsb (fun ch => sleeps_on ch t) chs then
    match t with
    | Writer _ k n rest => Writer false k n rest
    | Reader _ k n => Reader false k n
    end
  else t.

Definition is_writer (t : thread) : bool := if t is Writer _ _ _ _ then true else false.

Definition after_write (i : nat) (k : bool) (n : Z) (r : wres) (ts : list thread) : list thread :=
  match r with
  | WDone _ => delete i ts
  | WSleep rest' => <[i:=Writer true k n rest']> ts
  end.

Definition after_read (i : nat) (k : bool) (n : Z) (r : rres) (ts : list thread) : list thread :=
  match r with
  | RDone _ _ => delete i ts
  | RSleep => <[i:=Reader true k n]> ts
  end.

Definition bytes_of (r : rres) : list Z := if r is RDone _ l then l else [].

(** Steps of a pipe and its users.  A descriptor of an end is open while a
    process is inside a call on it, so [pipeclose] on an end happens only when no
    thread uses that end.  [wkill] says whether writers may be killed. *)
Inductive step (wkill : bool) : sys -> sys -> Prop :=
  | step_call_write p ts tx rx bytes :
      writeopen p = true ->
      step wkill (mkSys p ts tx rx)
        (mkSys p (ts ++ [Writer false false (Z.of_nat (length bytes)) bytes]) tx rx)
  | step_call_read p ts tx rx n :
      readopen p = true ->
      step wkill (mkSys p ts tx rx) (mkSys p (ts ++ [Reader false false n]) tx rx)
  | step_write p ts tx rx i k n rest p' chs r :
      ts !! i = Some (Writer false k n rest) ->
      pipewrite k n rest p = (p', chs, r) ->
      step wkill (mkSys p ts tx rx)
        (mkSys p' (after_write i k n r (wake chs <$> ts))
           (tx ++ take (Z.to_nat (u32 (nwrite p' - nwrite p))) rest) rx)
  | step_read p ts tx rx i k n p' chs r :
      ts !! i = Some (Reader false k n) ->
      piperead k n p = (p', chs, r) ->
      step wkill (mkSys p ts tx rx)
        (mkSys p' (after_read i k n r (wake chs <$> ts)) tx (rx ++ bytes_of r))
  | step_kill_reader p ts tx rx i a k n :
      ts !! i = Some (Reader a k n) ->
      step wkill (mkSys p ts tx rx) (mkSys p (<[i:=Reader false true n]> ts) tx rx)
  | step_kill_writer p ts tx rx i a k n rest :
      wkill = true ->
      ts !! i = Some (Writer a k n rest) ->
      step wkill (mkSys p ts tx rx) (mkSys p (<[i:=Writer false true n rest]> ts) tx rx)
  | step_close p ts tx rx w p' chs :
      Forall (fun t => is_writer t <> w) ts ->
      pipeclose w p = (chs, Keep p') ->
      step wkill (mkSys p ts tx rx) (mkSys p' (wake chs <$> ts) tx rx).

Definition init (junk : list Z) : sys := mkSys (pipe_init junk) [] [] [].

Definition reachable (wkill : bool) (s : sys) : Prop :=
  exists junk, length junk = Z.to_nat PIPESIZE /\ rtc (step wkill) (init junk) s.

(** ** FIFO delivery *)

Definition fifo (s : sys) : Prop := wf (pp s) /\ sent s = rcvd s ++ queue (pp s).

Lemma init_wf junk : length junk = Z.to_nat PIPESIZE -> wf (pipe_init junk).
Proof. intros. split; [done|by vm_compute..]. Qed.

(** The counter [nwrite] advances by the number of bytes queued. *)
Lemma nwrite_advance k n rest p p' chs r :
  wf p -> pipewrite k n rest p = (p', chs, r) ->
  Z.to_nat (u32 (nwrite p' - nwrite p)) =
    Nat.min (Z.to_nat PIPESIZE - length (queue p)) (length rest).
Proof.
  intros Hwf E. pose proof (pipewrite_spec k n rest p Hwf) as H. rewrite E in H.
  destruct H as (Hwf' & Hq & _). apply (f_equal length) in Hq.
  rewrite length_app, length_take in Hq. pose proof (length_queue _ Hwf).
  pose proof (length_queue _ Hwf'). assert (nread p' = nread p) as Hn.
  { clear -E. revert p E. induction rest as [|c rest IH]; simpl; intros p E; [congruence|].
    destruct (full p); [destruct (negb (readopen p) || k); congruence|].
    by apply IH in E. }
  destruct Hwf, Hwf'. unfold count, PIPESIZE in *. rewrite Hn in *. u32_lia.
Qed.

Lemma fifo_step wkill s s' : step wkill s s' -> fifo s -> fifo s'.
Proof.
  intros Hstep [Hwf Hf]. destruct Hstep as
    [| |p ts tx rx i k n rest p' chs r Hi E|p ts tx rx i k n p' chs r Hi E|
     | |p ts tx rx w p' chs Hw E]; simpl in *; try done.
  - pose proof (nwrite_advance _ _ _ _ _ _ _ Hwf E) as Hadv.
    pose proof (pipewrite_spec k n rest p Hwf) as H. rewrite E in H.
    destruct H as (Hwf' & Hq & _). split; [done|]. simpl.
    rewrite Hadv, Hq, Hf, <- app_assoc. do 2 f_equal.
    destruct (Nat.min_spec (Z.to_nat PIPESIZE - length (queue p)) (length rest)) as [[? ->]|[? ->]];
      [done|]. by rewrite !take_ge by lia.
  - pose proof (piperead_spec k n p Hwf) as H. rewrite E in H.
    destruct H as (Hwf' & _ & _ & H). split; [done|]. simpl. case_decide as Hd.
    + destruct H as (-> & -> & ->). destruct k; simpl; by rewrite app_nil_r.
    + destruct H as (-> & -> & ->). simpl. by rewrite <- app_assoc, take_drop.
  - unfold pipeclose in E. destruct w; simpl in E; case_match; simplify_eq; by destruct Hwf.
Qed.

(** C17: whatever the interleaving of any number of readers and writers, kills
    and closes, the bytes delivered so far are a prefix of the bytes written, in
    order, and the rest (at most [PIPESIZE] bytes) is what the pipe holds. *)
Theorem pipe_fifo wkill s :
  reachable wkill s ->
  sent s = rcvd s ++ queue (pp s) /\ (length (queue (pp s)) <= Z.to_nat PIPESIZE)%nat.
Proof.
  intros (junk & Hj & Hr).
  assert (fifo s) as [Hwf ->].
  { assert (H0 : fifo (init junk)) by (split; [by apply init_wf|done]).
    induction Hr; eauto using fifo_step. }
  split; [done|]. pose proof (length_queue _ Hwf). destruct Hwf. lia.
Qed.

(** ** Sleeping and waking *)

(** A sleeping writer finds the pipe full and the read end open, a sleeping
    reader finds it empty and the write end open; an end in use is open. *)
Definition rightly (p : pipe) (t : thread) : Prop :=
  match t with
  | Writer a k _ _ =>
      k = false /\ writeopen p = true /\
      (a = true -> length (queue p) = Z.to_nat PIPESIZE /\ readopen p = true)
  | Reader a _ _ =>
      readopen p = true /\ (a = true -> queue p = [] /\ writeopen p = true)
  end.

Definition no_lost (s : sys) : Prop := wf (pp s) /\ Forall (rightly (pp s)) (threads s).

Lemma rightly_wake p chs t : rightly p t -> rightly p (wake chs t).
Proof. unfold wake. destruct (existsb _ _); [|done]. destruct t; naive_solver. Qed.

(** A thread that was woken does not constrain the pipe by its sleeping. *)
Lemma rightly_change p p' chs t :
  readopen p' = readopen p -> writeopen p' = writeopen p ->
  (length (queue p) = Z.to_nat PIPESIZE -> readopen p = true ->
     In ch_nwrite chs \/ length (queue p') = Z.to_nat PIPESIZE) ->
  (queue p = [] -> writeopen p = true -> readopen p = true ->
     In ch_nread chs \/ queue p' = []) ->
  rightly p t -> rightly p' (wake chs t).
Proof.
  intros Hr Hw Hfull Hempty Ht. unfold wake.
  destruct (existsb (fun ch => sleeps_on ch t) chs) eqn:E.
  - destruct t; simpl in *; rewrite Hr, Hw; naive_solver.
  - assert (Hn : forall ch, In ch chs -> sleeps_on ch t = false).
    { intros ch Hin. destruct (sleeps_on ch t) eqn:E'; [|done].
      rewrite <- E. symmetry. apply existsb_exists. eauto. }
    destruct t as [[] k n rest|[] k n]; simpl in *; rewrite Hr, Hw; naive_solver.
Qed.

Lemma Forall_delete_list {A} (P : A -> Prop) i (l : list A) : Forall P l -> Forall P (delete i l).
Proof. intros H. revert i. induction H; intros [|i]; simpl; auto. Qed.

Lemma write_no_lost p ts i n rest p' chs r :
  wf p -> Forall (rightly p) ts -> ts !! i = Some (Writer false false n rest) ->
  pipewrite false n rest p = (p', chs, r) ->
  wf p' /\ Forall (rightly p') (after_write i false n r (wake chs <$> ts)).
Proof.
  intros Hwf Hts Hi E. pose proof (pipewrite_spec false n rest p Hwf) as H.
  pose proof (pipewrite_ends false n rest p) as He. rewrite E in H, He.
  destruct H as (Hwf' & Hq & Hs), He as [Hr Hw].
  pose proof (Forall_lookup_1 _ _ _ _ Hts Hi) as (_ & Hwo & _).
  pose proof (length_queue _ Hwf) as Hl. pose proof (wf_count _ Hwf).
  pose proof (length_queue _ Hwf') as Hl'. pose proof (wf_count _ Hwf').
  pose proof (f_equal length Hq) as Hq'. rewrite length_app, length_take in Hq'.
  assert (Forall (rightly p') (wake chs <$> ts)) as Hts'.
  { apply Forall_fmap. eapply Forall_impl; [exact Hts|]. intros t Ht. simpl.
    apply (rightly_change p); try done.
    - intros Hf _. right. lia.
    - intros He _ Hro. left. unfold write_spec in Hs. rewrite Hro in Hs. simpl in Hs.
      repeat case_decide; simplify_eq; simpl; auto. }
  split; [done|]. destruct r as [r|rest']; simpl; [by apply Forall_delete_list|].
  apply Forall_insert; [done|]. simpl. rewrite Hr, Hw. split_and!; [done..|]. intros _.
  unfold write_spec in Hs. repeat case_decide; simplify_eq.
  rewrite orb_false_r in Hs. destruct (readopen p); simplify_eq/=.
  split; [|done]. rewrite Nat.min_l in Hq' by lia. lia.
Qed.

Lemma read_no_lost p ts i k n p' chs r :
  wf p -> Forall (rightly p) ts -> ts !! i = Some (Reader false k n) ->
  piperead k n p = (p', chs, r) ->
  wf p' /\ Forall (rightly p') (after_read i k n r (wake chs <$> ts)).
Proof.
  intros Hwf Hts Hi E. pose proof (piperead_spec k n p Hwf) as H. rewrite E in H.
  destruct H as (Hwf' & Hr & Hw & H). split; [done|].
  pose proof (Forall_lookup_1 _ _ _ _ Hts Hi) as [Hro _].
  case_decide as Hd.
  - destruct H as (-> & -> & ->).
    assert (Forall (rightly p) (wake [] <$> ts)).
    { apply Forall_fmap. eapply Forall_impl; [exact Hts|]. intros; by apply rightly_wake. }
    destruct k; simpl; [by apply Forall_delete_list|]. apply Forall_insert; [done|]. naive_solver.
  - destruct H as (-> & Hq & ->). simpl. apply Forall_delete_list, Forall_fmap.
    eapply Forall_impl; [exact Hts|]. intros t Ht. simpl.
    apply (rightly_change p); try done; [by left; left|].
    intros. naive_solver.
Qed.

Lemma close_no_lost p ts w p' chs :
  wf p -> Forall (rightly p) ts -> Forall (fun t => is_writer t <> w) ts ->
  pipeclose w p = (chs, Keep p') ->
  wf p' /\ Forall (rightly p') (wake chs <$> ts).
Proof.
  intros Hwf Hts Hw E. split.
  { unfold pipeclose in E. destruct w; simpl in E; case_match; simplify_eq; by destruct Hwf. }
  apply Forall_fmap, Forall_forall. intros t Ht. simpl.
  rewrite Forall_forall in Hts, Hw. specialize (Hts t Ht). specialize (Hw t Ht).
  unfold pipeclose in E.
  destruct w, t as [[] k n rest|[] k n]; simpl in *; try done;
    case_match; simplify_eq; unfold wake; simpl; unfold rightly in *; simpl; naive_solver.
Qed.

Lemma no_lost_step s s' : step false s s' -> no_lost s -> no_lost s'.
Proof.
  intros Hstep [Hwf Hts]. destruct Hstep as
    [| |p ts tx rx i k n rest p' chs r Hi E|p ts tx rx i k n p' chs r Hi E|
     p ts tx rx i a k n Hi| |p ts tx rx w p' chs Hw E]; simpl in *; try done.
  - split; [done|]. apply Forall_app; split; [done|]. constructor; naive_solver.
  - split; [done|]. apply Forall_app; split; [done|]. constructor; naive_solver.
  - assert (k = false) as -> by (by apply (Forall_lookup_1 _ _ _ _ Hts Hi)).
    destruct (write_no_lost _ _ _ _ _ _ _ _ Hwf Hts Hi E). by split.
  - destruct (read_no_lost _ _ _ _ _ _ _ _ Hwf Hts Hi E). by split.
  - split; [done|]. apply Forall_insert; [done|].
    pose proof (Forall_lookup_1 _ _ _ _ Hts Hi) as H. simpl in *. naive_solver.
  - destruct (close_no_lost _ _ _ _ _ Hwf Hts Hw E). by split.
Qed.

(** As long as no writer is killed, no wakeup is lost: a reader that
    sleeps finds the pipe empty with the write end open, a writer that sleeps
    finds it full with the read end open, so the two are never asleep at the
    same time. *)
Theorem pipe_no_lost_wakeup s :
  reachable false s ->
  (forall i k n, threads s !! i = Some (Reader true k n) ->
     queue (pp s) = [] /\ writeopen (pp s) = true) /\
  (forall i k n rest, threads s !! i = Some (Writer true k n rest) ->
     length (queue (pp s)) = Z.to_nat PIPESIZE /\ readopen (pp s) = true) /\
  ~ exists i j k n k' n' rest,
      threads s !! i = Some (Reader true k n) /\ threads s !! j = Some (Writer true k' n' rest).
Proof.
  intros (junk & Hj & Hr).
  assert (no_lost s) as [Hwf Hts].
  { assert (H0 : no_lost (init junk)) by (split; [by apply init_wf|constructor]).
    clear Hj. induction Hr; eauto using no_lost_step. }
  assert (Hrd : forall i k n, threads s !! i = Some (Reader true k n) ->
     queue (pp s) = [] /\ writeopen (pp s) = true).
  { intros i k n Hi. by apply (Forall_lookup_1 _ _ _ _ Hts Hi). }
  assert (Hwr : forall i k n rest, threads s !! i = Some (Writer true k n rest) ->
     length (queue (pp s)) = Z.to_nat PIPESIZE /\ readopen (pp s) = true).
  { intros i k n rest Hi. by apply (Forall_lookup_1 _ _ _ _ Hts Hi). }
  split_and!; [done..|]. intros (i & j & k & n & k' & n' & rest & Hi & Hj').
  apply Hrd in Hi as [Hi _]. apply Hwr in Hj' as [Hj' _]. by rewrite Hi in Hj'.
Qed.

(** Runs used as witnesses. *)
Definition junk0 : list Z := replicate 512 0.

Lemma run_reader_asleep wkill :
  rtc (step wkill) (init junk0) (mkSys (pipe_init junk0) [Reader true false 1] [] []).
Proof.
  eapply rtc_l; [by apply (step_call_read _ _ _ _ _ 1)|]. simpl.
  eapply rtc_l; [by eapply (step_read _ _ _ _ _ 0)|]. apply rtc_refl.
Qed.

Lemma pipe_fifo_witness :
  reachable false (mkSys (pipe_init junk0) [Reader true false 1] [] []) /\
  [] = [] ++ queue (pipe_init junk0).
Proof.
  assert (reachable false (mkSys (pipe_init junk0) [Reader true false 1] [] [])) as H.
  { exists junk0. split; [by vm_compute|apply run_reader_asleep]. }
  split; [exact H|]. exact (proj1 (pipe_fifo false _ H)).
Defined.

Lemma pipe_no_lost_wakeup_witness :
  reachable false (mkSys (pipe_init junk0) [Reader true false 1] [] []) /\
  queue (pipe_init junk0) = [].
Proof.
  assert (reachable false (mkSys (pipe_init junk0) [Reader true false 1] [] [])) as H.
  { exists junk0. split; [by vm_compute|apply run_reader_asleep]. }
  split; [exact H|]. exact (proj1 (proj1 (pipe_no_lost_wakeup _ H) 0%nat false 1 eq_refl)).
Defined.

(** The early return of [pipewrite] when the process was killed skips the
    wakeup: a writer killed before it fills the pipe leaves a reader asleep on a
    full pipe whose write end may stay open in another process. *)
Theorem pipe_killed_writer_loses_wakeup :
  exists s, reachable true s /\ threads s = [Reader true false 1] /\
    length (queue (pp s)) = Z.to_nat PIPESIZE /\ writeopen (pp s) = true.
Proof.
  pose (bytes := replicate 513 1). pose (p1 := (pipewrite true 513 bytes (pipe_init junk0)).1.1).
  exists (mkSys p1 [Reader true false 1] (take 512 bytes) []).
  split; [|by vm_compute]. exists junk0. split; [by vm_compute|].
  etransitivity; [apply run_reader_asleep|].
  eapply rtc_l; [by apply (step_call_write _ _ _ _ _ bytes)|].
  eapply rtc_l; [by eapply (step_kill_writer _ _ _ _ _ 1)|].
  eapply rtc_l; [|apply rtc_refl].
  assert (pipewrite true 513 bytes (pipe_init junk0) = (p1, [], WDone (-1))) as E
    by by vm_compute.
  exact (step_write true (pipe_init junk0)
           [Reader true false 1; Writer false true 513 bytes] [] [] 1%nat
           true 513 bytes p1 [] (WDone (-1)) eq_refl E).
Qed.

End PipeSys.
