(* ===== verification/Sleep.v ===== *)
(** * proc.c: sleep and wakeup do not lose wakeups

    The locking protocol of [sleep] and [wakeup], at the granularity of single
    lock operations.  Threads run straight-line code over two spin locks, the
    lock [lk] that protects a condition and [ptable.lock]; [sleep] and [wakeup]
    are the instruction sequences of proc.c.  Any number of consumers run

      acquire(lk); while(items == 0) sleep(chan, lk); items--; release(lk);

    and any number of producers run

      acquire(lk); items++; wakeup(chan); release(lk);

    which is how pipes, the log, the disk queue and the console use them. *)

From S2P Require Import Prelude.

Module Sleep.

Inductive instr :=
  | IAcqLk | IRelLk       (* acquire(lk), release(lk) *)
  | IAcqPt | IRelPt       (* acquire(&ptable.lock), release(&ptable.lock) *)
  | ISleep                (* chan and SLEEPING set, sched(): the scheduler gives up ptable.lock *)
  | IResume               (* switched back to, with ptable.lock held; chan = 0 *)
  | IWakeup               (* wakeup1(chan) *)
  | ITest (yes : nat)     (* items != 0: go to [yes] *)
  | IJump (to : nat)
  | IConsume | IProduce.  (* items--, items++ *)

(** [sleep] with a lock other than [ptable.lock], and [wakeup]. *)
Definition sleep_code : list instr := [IAcqPt; IRelLk; ISleep; IResume; IRelPt; IAcqLk].
Definition wakeup_code : list instr := [IAcqPt; IWakeup; IRelPt].

Definition consumer : list instr :=
  [IAcqLk; ITest 9] ++ sleep_code ++ [IJump 1; IConsume; IRelLk].
Definition producer : list instr :=
  [IAcqLk; IProduce] ++ wakeup_code ++ [IRelLk].

Record thread := mkThread { code : list instr; pc : nat; asleep : bool }.

Record sys := mkSys { threads : list thread; lk : option nat; pt : option nat; items : nat }.

Definition set_thread (t : nat) (th : thread) (s : sys) : list thread := <[t:=th]> (threads s).

Definition wake (th : thread) : thread := mkThread (code th) (pc th) false.

(** The effect of an instruction of thread [t] at [n]; [None] if it cannot run
    now: a taken lock spins, a lock is only released by its holder. *)
Definition exec (t : nat) (th : thread) (i : instr) (s : sys) : option sys :=
  let next := set_thread t (mkThread (code th) (S (pc th)) false) s in
  match i with
  | IAcqLk => if lk s is None then Some (mkSys next (Some t) (pt s) (items s)) else None
  | IRelLk => if decide (lk s = Some t) then Some (mkSys next None (pt s) (items s)) else None
  | IAcqPt | IResume => if pt s is None then Some (mkSys next (lk s) (Some t) (items s)) else None
  | IRelPt => if decide (pt s = Some t) then Some (mkSys next (lk s) None (items s)) else None
  | ISleep =>
      if decide (pt s = Some t)
      then Some (mkSys (set_thread t (mkThread (code th) (S (pc th)) true) s) (lk s) None (items s))
      else None
  | IWakeup =>
      Some (mkSys (<[t:=mkThread (code th) (S (pc th)) false]> (wake <$> threads s))
              (lk s) (pt s) (items s))
  | ITest yes =>
      Some (mkSys (if decide (items s = 0)%nat then next
                   else set_thread t (mkThread (code th) yes false) s) (lk s) (pt s) (items s))
  | IJump to => Some (mkSys (set_thread t (mkThread (code th) to false) s) (lk s) (pt s) (items s))
  | IConsume => Some (mkSys next (lk s) (pt s) (pred (items s)))
  | IProduce => Some (mkSys next (lk s) (pt s) (S (items s)))
  end.

Inductive step : sys -> sys -> Prop :=
  | step_run s t th i s' :
      threads s !! t = Some th -> asleep th = false -> code th !! pc th = Some i ->
      exec t th i s = Some s' -> step s s'
  | step_kill s t th :
      (* kill wakes a sleeper *)
      threads s !! t = Some th -> asleep th = true ->
      step s (mkSys (set_thread t (wake th) s) (lk s) (pt s) (items s)).

Definition initial (s : sys) : Prop :=
  (forall t th, threads s !! t = Some th ->
     (code th = consumer \/ code th = producer) /\ pc th = 0%nat /\ asleep th = false) /\
  lk s = None /\ pt s = None /\ items s = 0%nat.

(** ** The locks a thread holds at a point of its code *)

Definition lock_effect (h : bool * bool) (i : instr) : bool * bool :=
  match i with
  | IAcqLk => (true, h.2)
  | IRelLk => (false, h.2)
  | IAcqPt | IResume => (h.1, true)
  | IRelPt | ISleep => (h.1, false)
  | _ => h
  end.

(** Holds [lk], holds [ptable.lock]. *)
Definition holds (th : thread) : bool * bool :=
  foldl lock_effect (false, false) (take (pc th) (code th)).

Definition locks_ok (s : sys) : Prop :=
  (forall t th, threads s !! t = Some th ->
     (lk s = Some t <-> (holds th).1 = true) /\ (pt s = Some t <-> (holds th).2 = true)) /\
  (forall t, lk s = Some t \/ pt s = Some t -> is_Some (threads s !! t)).

(** A producer that has produced and not yet woken the sleepers. *)
Definition pending (th : thread) : Prop := code th = producer /\ (pc th = 2 \/ pc th = 3)%nat.

(** A consumer that found nothing and is on its way to sleep, or asleep. *)
Definition going (th : thread) : Prop := code th = consumer /\ (pc th = 2 \/ pc th = 3)%nat.
Definition dozing (th : thread) : Prop :=
  code th = consumer /\ (pc th = 4%nat \/ (pc th = 5%nat /\ asleep th = true)).

Definition no_lost (s : sys) : Prop :=
  (forall t th, threads s !! t = Some th -> going th -> items s = 0%nat) /\
  (forall t th, threads s !! t = Some th -> dozing th ->
     items s = 0%nat \/ exists t' th', threads s !! t' = Some th' /\ pending th').

Definition shape_ok (s : sys) : Prop :=
  forall t th, threads s !! t = Some th ->
    (code th = consumer \/ code th = producer) /\ (pc th <= length (code th))%nat /\
    (asleep th = true -> code th = consumer /\ pc th = 5%nat).

Definition inv (s : sys) : Prop := shape_ok s /\ locks_ok s /\ no_lost s.

Lemma holds_next c n b b' i :
  c !! n = Some i -> holds (mkThread c (S n) b) = lock_effect (holds (mkThread c n b')) i.
Proof. intros Hi. unfold holds. simpl. by rewrite (take_S_r _ _ _ Hi), foldl_snoc. Qed.

(** ** Preservation *)

Lemma going_holds th : going th -> (holds th).1 = true.
Proof. destruct th as [c n b]. intros [Hc Hn]. simpl in *. subst c. by destruct Hn; subst n. Qed.

Lemma dozing_holds th : dozing th -> asleep th = false -> (holds th).2 = true.
Proof.
  destruct th as [c n b]. intros [Hc Hn] Hb. simpl in *. subst c.
  destruct Hn as [-> |[_ ?]]; [done|congruence].
Qed.

(** How one lock may change with thread [t]'s step. *)
Definition lock_step (t : nat) (l l' : option nat) (h h' : bool) : Prop :=
  (l' = l /\ h' = h) \/ (l = None /\ l' = Some t /\ h' = true) \/
  (l = Some t /\ l' = None /\ h' = false).

Lemma lock_step_own t l l' h h' :
  lock_step t l l' h h' -> (l = Some t <-> h = true) -> (l' = Some t <-> h' = true).
Proof. intros [[-> ->]|[(-> & -> & ->)|(-> & -> & ->)]]; [done|done|]. by split. Qed.

Lemma lock_step_other t u l l' h h' : lock_step t l l' h h' -> u <> t -> (l' = Some u <-> l = Some u).
Proof.
  intros [[-> ->]|[(-> & -> & ->)|(-> & -> & ->)]] ?; [done| |]; split; congruence.
Qed.

Lemma lookup_set s t th' u thu :
  set_thread t th' s !! u = Some thu ->
  (u = t /\ thu = th') \/ (u <> t /\ threads s !! u = Some thu).
Proof. intros [(-> & <- & _)|[? ?]]%list_lookup_insert_Some; auto. Qed.

Section Update.
Context (s : sys) (t : nat) (th th' : thread) (l' p' : option nat) (n' : nat).
Context (Ht : threads s !! t = Some th).

Lemma locks_update :
  lock_step t (lk s) l' (holds th).1 (holds th').1 ->
  lock_step t (pt s) p' (holds th).2 (holds th').2 ->
  locks_ok s -> locks_ok (mkSys (set_thread t th' s) l' p' n').
Proof.
  intros HL HP [H1 H2]. pose proof (H1 t th Ht) as [Hl Hp]. split; simpl.
  - intros u thu [[-> ->]|[Hne Hu]]%lookup_set.
    + by split; eapply lock_step_own.
    + destruct (H1 u thu Hu) as [Hul Hup].
      split; [rewrite <- Hul|rewrite <- Hup]; by eapply lock_step_other.
  - intros u Hu. unfold set_thread. destruct (decide (u = t)) as [->|Hne].
    + rewrite list_lookup_insert_eq; [done|by eapply lookup_lt_Some].
    + rewrite list_lookup_insert_ne by done. apply H2.
      by rewrite <- (lock_step_other _ _ _ _ _ _ HL Hne), <- (lock_step_other _ _ _ _ _ _ HP Hne).
Qed.

Lemma no_lost_update :
  locks_ok s -> (pending th -> pending th') -> (going th' -> n' = 0%nat) ->
  (dozing th' -> n' = 0%nat \/ dozing th /\ n' = items s) ->
  (n' = items s \/ (holds th).1 = true /\ ((items s = 0 -> n' = 0)%nat \/ pending th')) ->
  no_lost s -> no_lost (mkSys (set_thread t th' s) l' p' n').
Proof.
  intros [HL _] Hpend Hgo Hdz Hn [G D].
  assert (Hlt : (t < length (threads s))%nat) by by eapply lookup_lt_Some.
  assert (Hpers : (exists u thu, threads s !! u = Some thu /\ pending thu) ->
    exists u thu, set_thread t th' s !! u = Some thu /\ pending thu).
  { intros (u & thu & Hu & Hp). destruct (decide (u = t)) as [->|Hne].
    - exists t, th'. split; [by apply list_lookup_insert_eq|].
      apply Hpend. by assert (thu = th) as <- by congruence.
    - exists u, thu. unfold set_thread. rewrite list_lookup_insert_ne by done. done. }
  split; simpl.
  - intros u thu [[-> ->]|[Hne Hu]]%lookup_set Hg; [by apply Hgo|].
    destruct Hn as [-> |[Hh _]]; [by eapply G|]. exfalso. apply going_holds in Hg.
    apply (proj1 (HL t th Ht)) in Hh. apply (proj1 (HL u thu Hu)) in Hg. congruence.
  - intros u thu Hu Hd.
    assert (Hcase : n' = 0%nat \/ (dozing th \/ exists u thu, threads s !! u = Some thu /\ dozing thu) ).
    { apply lookup_set in Hu as [[-> ->]|[? ?]]; [destruct (Hdz Hd) as [?|[? _]]|]; eauto 8. }
    destruct Hcase as [?|Hdoz]; [by left|].
    assert (Hs : items s = 0%nat \/ exists u thu, threads s !! u = Some thu /\ pending thu)
      by (destruct Hdoz as [?|(v & thv & ? & ?)]; eauto).
    destruct Hn as [-> |[Hh [Hz|Hp]]].
    + destruct Hs; auto.
    + destruct Hs; auto.
    + right. exists t, th'. split; [by apply list_lookup_insert_eq|done].
Qed.

Lemma shape_update :
  (code th' = code th) -> (pc th' <= length (code th))%nat ->
  (asleep th' = true -> code th = consumer /\ pc th' = 5%nat) ->
  shape_ok s -> shape_ok (mkSys (set_thread t th' s) l' p' n').
Proof.
  intros Hc Hp Ha H u thu [[-> ->]|[Hne Hu]]%lookup_set; [|by apply (H u)].
  rewrite Hc. split_and!; [by apply (H t th Ht)|done|done].
Qed.

End Update.

(** [wakeup1]: nobody is asleep afterwards. *)
Lemma wake_inv s t : inv s -> pt s = Some t -> (forall th, threads s !! t = Some th -> ~ dozing th) ->
  inv (mkSys (wake <$> threads s) (lk s) (pt s) (items s)) /\
  (forall u th, (wake <$> threads s) !! u = Some th -> ~ dozing th).
Proof.
  intros (S & L & N) Hpt Hself.
  assert (Hinv : forall u th, (wake <$> threads s) !! u = Some th ->
    exists th0, threads s !! u = Some th0 /\ th = wake th0).
  { intros u th. rewrite list_lookup_fmap. destruct (threads s !! u); naive_solver. }
  assert (Hno : forall u th, (wake <$> threads s) !! u = Some th -> ~ dozing th).
  { intros u th Hu Hd. apply Hinv in Hu as (th0 & Hu & ->).
    pose proof (dozing_holds _ Hd eq_refl) as Hh.
    assert (pt s = Some u) as Hu' by (apply (proj1 L u th0 Hu); exact Hh).
    assert (u = t) as -> by congruence. apply (Hself th0 Hu).
    destruct Hd as [? [?|[_ ?]]]; [|done]. split; [done|by left]. }
  split; [|done]. split_and!.
  - intros u th (th0 & Hu & ->)%Hinv. destruct (S u th0 Hu) as (? & ? & _). done.
  - split; simpl.
    + intros u th (th0 & Hu & ->)%Hinv. apply (proj1 L u th0 Hu).
    + intros u Hu. rewrite list_lookup_fmap. by apply fmap_is_Some, (proj2 L).
  - split; simpl.
    + intros u th (th0 & Hu & ->)%Hinv Hg. by apply (proj1 N u th0 Hu).
    + intros u th Hu Hd. by destruct (Hno u th Hu).
Qed.

Lemma kill_inv s t th :
  inv s -> threads s !! t = Some th ->
  inv (mkSys (set_thread t (wake th) s) (lk s) (pt s) (items s)).
Proof.
  intros (S & L & N) Ht. destruct (S t th Ht) as (Hc & Hp & Ha). split_and!.
  - by eapply shape_update.
  - eapply locks_update; eauto; by left.
  - eapply no_lost_update; eauto.
    + intros Hg. by apply (proj1 N t th Ht).
    + intros Hd. right. split; [|done]. destruct Hd as [? [?|[_ ?]]]; [|done]. split; [done|by left].
Qed.

(** A step that neither changes [items] nor leaves a critical window. *)
Lemma quiet_inv s t th th' l' p' :
  inv s -> threads s !! t = Some th -> code th' = code th -> asleep th' = false ->
  (pc th' <= length (code th))%nat ->
  lock_step t (lk s) l' (holds th).1 (holds th').1 ->
  lock_step t (pt s) p' (holds th).2 (holds th').2 ->
  (pending th -> pending th') -> (going th' -> items s = 0%nat) -> (dozing th' -> items s = 0%nat) ->
  inv (mkSys (set_thread t th' s) l' p' (items s)).
Proof.
  intros (S & L & N) Ht Hc Ha Hpc HL HP Hpe Hgo Hdz. split_and!.
  - eapply shape_update; eauto. congruence.
  - by eapply locks_update.
  - eapply no_lost_update; eauto.
Qed.

(** Evaluate the locks held at a fixed point of a fixed code. *)
Ltac eval_holds :=
  repeat match goal with
  | |- context [holds ?x] => let v := eval vm_compute in (holds x) in change (holds x) with v
  end; simpl fst; simpl snd.
Ltac lock_tac := unfold lock_step; eval_holds; auto.
Ltac windows_tac :=
  unfold pending, going, dozing; simpl; first [intuition congruence | naive_solver].
Ltac quiet_tac :=
  eapply quiet_inv; [done|done|done|done|simpl; lia|lock_tac|lock_tac|windows_tac..].

(** The instructions of the consumer. *)
Lemma consumer_inv s t n i s' :
  inv s -> threads s !! t = Some (mkThread consumer n false) -> consumer !! n = Some i ->
  exec t (mkThread consumer n false) i s = Some s' -> inv s'.
Proof.
  intros I Ht Hi He. pose proof I as (S & L & N). pose proof (proj1 N _ _ Ht) as Hg.
  pose proof (fun H => proj1 (proj1 (proj1 L _ _ Ht)) H) as Hl.
  do 11 try destruct n as [|n]; simpl in Hi; simplify_eq; unfold exec in He; cbn [code pc] in He.
  - case_match; simplify_eq. quiet_tac.
  - case_decide; simplify_eq; quiet_tac.
  - case_match; simplify_eq. assert (items s = 0%nat) by (apply Hg; windows_tac). quiet_tac.
  - case_decide; simplify_eq. assert (items s = 0%nat) by (apply Hg; windows_tac). quiet_tac.
  - case_decide; simplify_eq. split_and!.
    + eapply shape_update; eauto; simpl; first [lia|done].
    + eapply locks_update; eauto; lock_tac.
    + eapply no_lost_update; eauto; windows_tac.
  - case_match; simplify_eq. quiet_tac.
  - case_decide; simplify_eq. quiet_tac.
  - case_match; simplify_eq. quiet_tac.
  - simplify_eq. quiet_tac.
  - simplify_eq. split_and!.
    + eapply shape_update; eauto; simpl; first [lia|done].
    + eapply locks_update; eauto; lock_tac.
    + eapply no_lost_update; eauto; try windows_tac. right. split; [done|]. left. lia.
  - case_decide; simplify_eq. quiet_tac.
Qed.

(** The instructions of the producer. *)
Lemma producer_inv s t n i s' :
  inv s -> threads s !! t = Some (mkThread producer n false) -> producer !! n = Some i ->
  exec t (mkThread producer n false) i s = Some s' -> inv s'.
Proof.
  intros I Ht Hi He. pose proof I as (S & L & N).
  do 6 try destruct n as [|n]; simpl in Hi; simplify_eq; unfold exec in He; cbn [code pc] in He.
  - case_match; simplify_eq. quiet_tac.
  - simplify_eq. split_and!.
    + eapply shape_update; eauto; simpl; first [lia|done].
    + eapply locks_update; eauto; lock_tac.
    + eapply no_lost_update; eauto; windows_tac.
  - case_match; simplify_eq. quiet_tac.
  - simplify_eq.
    assert (Hpt : pt s = Some t) by by apply (proj1 L _ _ Ht).
    destruct (wake_inv s t I Hpt) as [I' Hno].
    { intros th Hth. rewrite Ht in Hth. simplify_eq. windows_tac. }
    destruct I' as (S' & L' & N').
    set (s1 := mkSys (wake <$> threads s) (lk s) (pt s) (items s)) in *.
    assert (Ht1 : threads s1 !! t = Some (mkThread producer 3 false))
      by (simpl; by rewrite list_lookup_fmap, Ht).
    change (inv (mkSys (set_thread t (mkThread producer 4 false) s1) (lk s1) (pt s1) (items s1))).
    split_and!.
    + eapply shape_update; eauto; simpl; first [lia|done].
    + eapply locks_update; eauto; lock_tac.
    + split; simpl.
      * intros u thu [[-> ->]|[Hne Hu]]%lookup_set; [windows_tac|]. by apply (proj1 N' u).
      * intros u thu [[-> ->]|[Hne Hu]]%lookup_set Hd; [by destruct Hd as [[=] _]|]. by destruct (Hno u thu Hu).
  - case_decide; simplify_eq. quiet_tac.
  - case_decide; simplify_eq. quiet_tac.
Qed.

Lemma inv_step s s' : step s s' -> inv s -> inv s'.
Proof.
  intros Hs I. destruct Hs as [s t th i s' Ht Ha Hi He|s t th Ht _]; [|by apply kill_inv].
  destruct th as [c n b]. simpl in *. subst b.
  destruct (proj1 I t _ Ht) as ([Hc|Hc] & _ & _); simpl in Hc; subst c;
    eauto using consumer_inv, producer_inv.
Qed.

Lemma inv_initial s : initial s -> inv s.
Proof.
  intros (Ht & Hl & Hp & Hn). split_and!.
  - intros t th Hth. destruct (Ht t th Hth) as (? & -> & ->). split_and!; [done|lia|done].
  - split.
    + intros t th Hth. destruct (Ht t th Hth) as (_ & H0 & _). unfold holds. rewrite H0, Hl, Hp. done.
    + intros t. rewrite Hl, Hp. naive_solver.
  - split; intros; auto.
Qed.

(** C6: no lost wakeup.  With any number of consumers that sleep on a condition
    and producers that change it and wake them up, in every interleaving of their
    lock operations (kills included): if a consumer is asleep although there is
    something to consume, some producer is still on its way to [wakeup1]. *)
Theorem no_lost_wakeup s0 s t th :
  initial s0 -> rtc step s0 s -> threads s !! t = Some th -> asleep th = true ->
  (0 < items s)%nat ->
  exists t' th', threads s !! t' = Some th' /\ code th' = producer /\
    exists n, code th' !! (pc th' + n)%nat = Some IWakeup.
Proof.
  intros Hi Hr Ht Ha Hn.
  assert (I : inv s).
  { apply inv_initial in Hi. induction Hr; eauto using inv_step. }
  destruct I as (S & _ & N). destruct (S t th Ht) as (_ & _ & Hc).
  destruct (Hc Ha) as [Hcode Hpc].
  destruct (proj2 N t th Ht) as [?|(t' & th' & Ht' & Hcp & Hpp)]; [by split; auto|lia|].
  exists t', th'. split_and!; [done..|]. rewrite Hcp.
  destruct Hpp as [-> | ->]; [by exists 1%nat|by exists 0%nat].
Qed.

(** A consumer asleep and a producer that has just produced. *)
Definition two_threads : sys := mkSys [mkThread consumer 0 false; mkThread producer 0 false] None None 0.
Definition just_produced : sys :=
  mkSys [mkThread consumer 5 true; mkThread producer 2 false] (Some 1%nat) None 1.

Lemma just_produced_reachable : rtc step two_threads just_produced.
Proof.
  do 5 (eapply rtc_l; [eapply (step_run _ 0); reflexivity|]; simpl).
  do 2 (eapply rtc_l; [eapply (step_run _ 1); reflexivity|]; simpl).
  apply rtc_refl.
Qed.

Lemma no_lost_wakeup_witness :
  initial two_threads /\ rtc step two_threads just_produced /\
  exists t' th', threads just_produced !! t' = Some th' /\ code th' = producer /\
    exists n, code th' !! (pc th' + n)%nat = Some IWakeup.
Proof.
  assert (Hi : initial two_threads).
  { split_and!; try done. intros [|[|t]] th; simpl; intros; simplify_eq; auto. }
  split_and!; [done|exact just_produced_reachable|].
  apply (no_lost_wakeup two_threads just_produced 0 (mkThread consumer 5 true));
    [done|exact just_produced_reachable|done|done|simpl; lia].
Defined.

End Sleep.
