(* ===== verification/Proc.v ===== *)
(** * proc.c: the process table

    [Module Proc] translates the routines of proc.c that work on [ptable].  A
    [struct proc *] is the index of the slot.  The calls into the memory and
    file components ([kalloc], [copyuvm], [filedup], ...) go through the
    interface [KernelEnv], which those components implement on their own state.
    [Module ProcSys] interleaves the routines as they run on several CPUs and
    states the invariants of the table; each step is a stretch of code that runs
    under [ptable.lock] ([fork] fills a slot it alone can see between claiming it
    as EMBRYO and making it RUNNABLE, and is one step). *)

From S2P Require Import Prelude CString Printf Spinlock.
Export Spin.

(** What process management needs from the other kernel components: page
    allocator, address spaces, files and inodes.  Pointers are their values, 0 is
    the null pointer. *)
Class KernelEnv (E : Type) := {
  env_kalloc : M E Z;
  env_kfree : Z -> M E unit;
  env_setupkvm : M E Z;
  env_inituvm : Z -> list Z -> M E unit;
  env_copyuvm : Z -> Z -> M E Z;
  env_allocuvm : Z -> Z -> Z -> M E Z;
  env_deallocuvm : Z -> Z -> Z -> M E Z;
  env_freevm : Z -> M E unit;
  env_filedup : Z -> M E Z;
  env_fileclose : Z -> M E unit;
  env_idup : Z -> M E Z;
  env_iput : Z -> M E unit;
  env_namei : list Z -> M E Z;
  env_switchuvm : Z -> Z -> M E unit;   (* page directory, kernel stack *)
  env_switchkvm : M E unit
}.

Module Proc.

Definition NPROC : nat := 64.
Definition KSTACKSIZE : Z := 4096.
Definition NOFILE : nat := 16.
Definition PGSIZE : Z := 4096.
Definition SEG_UCODE : Z := 4.
Definition SEG_UDATA : Z := 5.
Definition DPL_USER : Z := 3.
Definition FL_IF : Z := 512.

(** [enum procstate] *)
Inductive procstate := UNUSED | EMBRYO | SLEEPING | RUNNABLE | RUNNING | ZOMBIE.

#[export] Instance procstate_eq_dec : EqDecision procstate.
Proof. solve_decision. Defined.

(** A sleep channel is an address: of a slot of [ptable] (used by [wait]) or of
    some other kernel object. *)
Inductive chan := ChProc (i : nat) | ChAddr (a : Z).

#[export] Instance chan_eq_dec : EqDecision chan.
Proof. solve_decision. Defined.

(** [struct trapframe], without the padding. *)
Record trapframe := mkTf {
  tf_edi : Z; tf_esi : Z; tf_ebp : Z; tf_oesp : Z; tf_ebx : Z; tf_edx : Z; tf_ecx : Z;
  tf_eax : Z; tf_gs : Z; tf_fs : Z; tf_es : Z; tf_ds : Z; tf_trapno : Z;
  tf_err : Z; tf_eip : Z; tf_cs : Z; tf_eflags : Z; tf_esp : Z; tf_ss : Z
}.

Definition set_eax (v : Z) (t : trapframe) : trapframe :=
  mkTf (tf_edi t) (tf_esi t) (tf_ebp t) (tf_oesp t) (tf_ebx t) (tf_edx t) (tf_ecx t)
    v (tf_gs t) (tf_fs t) (tf_es t) (tf_ds t) (tf_trapno t) (tf_err t) (tf_eip t)
    (tf_cs t) (tf_eflags t) (tf_esp t) (tf_ss t).

Definition sizeof_trapframe : Z := 76.

(** [struct context] *)
Record context := mkCtx { c_edi : Z; c_esi : Z; c_ebx : Z; c_ebp : Z; c_eip : Z }.

Definition sizeof_context : Z := 20.

(** [struct proc].  [tf] and [ctx] are the structures, [tf_addr] and
    [context_addr] the places in the kernel stack the C pointers name, and
    [ret_word] is the word above the context, the return address of [forkret]. *)
Record proc := mkProc {
  sz : Z;
  pgdir : Z;
  kstack : Z;
  state : procstate;
  pid : Z;
  parent : option nat;
  tf : trapframe;
  tf_addr : Z;
  ret_word : Z;
  ctx : context;
  context_addr : Z;
  pchan : option chan;
  killed : bool;
  ofile : list Z;
  cwd : Z;
  name : list Z
}.

Definition set_sz (v : Z) (p : proc) : proc :=
  mkProc v (pgdir p) (kstack p) (state p) (pid p) (parent p) (tf p) (tf_addr p) (ret_word p)
    (ctx p) (context_addr p) (pchan p) (killed p) (ofile p) (cwd p) (name p).
Definition set_pgdir (v : Z) (p : proc) : proc :=
  mkProc (sz p) v (kstack p) (state p) (pid p) (parent p) (tf p) (tf_addr p) (ret_word p)
    (ctx p) (context_addr p) (pchan p) (killed p) (ofile p) (cwd p) (name p).
Definition set_kstack (v : Z) (p : proc) : proc :=
  mkProc (sz p) (pgdir p) v (state p) (pid p) (parent p) (tf p) (tf_addr p) (ret_word p)
    (ctx p) (context_addr p) (pchan p) (killed p) (ofile p) (cwd p) (name p).
Definition set_state (v : procstate) (p : proc) : proc :=
  mkProc (sz p) (pgdir p) (kstack p) v (pid p) (parent p) (tf p) (tf_addr p) (ret_word p)
    (ctx p) (context_addr p) (pchan p) (killed p) (ofile p) (cwd p) (name p).
Definition set_pid (v : Z) (p : proc) : proc :=
  mkProc (sz p) (pgdir p) (kstack p) (state p) v (parent p) (tf p) (tf_addr p) (ret_word p)
    (ctx p) (context_addr p) (pchan p) (killed p) (ofile p) (cwd p) (name p).
Definition set_parent (v : option nat) (p : proc) : proc :=
  mkProc (sz p) (pgdir p) (kstack p) (state p) (pid p) v (tf p) (tf_addr p) (ret_word p)
    (ctx p) (context_addr p) (pchan p) (killed p) (ofile p) (cwd p) (name p).
Definition set_tf (v : trapframe) (p : proc) : proc :=
  mkProc (sz p) (pgdir p) (kstack p) (state p) (pid p) (parent p) v (tf_addr p) (ret_word p)
    (ctx p) (context_addr p) (pchan p) (killed p) (ofile p) (cwd p) (name p).
Definition set_chan (v : option chan) (p : proc) : proc :=
  mkProc (sz p) (pgdir p) (kstack p) (state p) (pid p) (parent p) (tf p) (tf_addr p)
    (ret_word p) (ctx p) (context_addr p) v (killed p) (ofile p) (cwd p) (name p).
Definition set_killed (v : bool) (p : proc) : proc :=
  mkProc (sz p) (pgdir p) (kstack p) (state p) (pid p) (parent p) (tf p) (tf_addr p)
    (ret_word p) (ctx p) (context_addr p) (pchan p) v (ofile p) (cwd p) (name p).
Definition set_ofile (v : list Z) (p : proc) : proc :=
  mkProc (sz p) (pgdir p) (kstack p) (state p) (pid p) (parent p) (tf p) (tf_addr p)
    (ret_word p) (ctx p) (context_addr p) (pchan p) (killed p) v (cwd p) (name p).
Definition set_cwd (v : Z) (p : proc) : proc :=
  mkProc (sz p) (pgdir p) (kstack p) (state p) (pid p) (parent p) (tf p) (tf_addr p)
    (ret_word p) (ctx p) (context_addr p) (pchan p) (killed p) (ofile p) v (name p).
Definition set_name (v : list Z) (p : proc) : proc :=
  mkProc (sz p) (pgdir p) (kstack p) (state p) (pid p) (parent p) (tf p) (tf_addr p)
    (ret_word p) (ctx p) (context_addr p) (pchan p) (killed p) (ofile p) (cwd p) v.
Definition set_layout (ta : Z) (w : Z) (c : context) (ca : Z) (p : proc) : proc :=
  mkProc (sz p) (pgdir p) (kstack p) (state p) (pid p) (parent p) (tf p) ta w c ca (pchan p)
    (killed p) (ofile p) (cwd p) (name p).

(** [ptable], [nextpid], [initproc], and the state of the other components. *)
Record ktable (E : Type) := mkTable {
  procs : list proc;
  nextpid : Z;
  initproc : option nat;
  env : E
}.
Arguments mkTable {E} _ _ _ _.
Arguments procs {E} _.
Arguments nextpid {E} _.
Arguments initproc {E} _.
Arguments env {E} _.

Section Ops.
Context {E : Type} {KE : KernelEnv E}.

Definition with_procs (l : list proc) (k : ktable E) : ktable E :=
  mkTable l (nextpid k) (initproc k) (env k).
Definition with_env (e : E) (k : ktable E) : ktable E :=
  mkTable (procs k) (nextpid k) (initproc k) e.

(** Update slot [i]. *)
Definition upd (i : nat) (f : proc -> proc) : M (ktable E) unit :=
  modify (fun k => with_procs (alter f i (procs k)) k).

(** A call into another component. *)
Definition call {A} (m : M E A) : M (ktable E) A := zoom env with_env m.

Definition getproc (i : nat) : M (ktable E) proc := fun k =>
  match procs k !! i with
  | Some p => Ret p k
  | None => Panic "null process"
  end.

(** The first slot that satisfies a test, as the [for] loops over [ptable] find
    it. *)
Definition find_proc (P : proc -> Prop) `{!forall p, Decision (P p)} (l : list proc) : option nat :=
  fst <$> list_find P l.

(** Addresses of the code a new process starts in. *)
Context (forkret trapret : Z).

(** The first half of [allocproc], under [ptable.lock]. *)
Definition claim : M (ktable E) (option nat) := fun k =>
  match find_proc (fun p => state p = UNUSED) (procs k) with
  | None => Ret None k
  | Some i =>
      Ret (Some i)
        (mkTable (alter (fun p => set_pid (nextpid k) (set_state EMBRYO p)) i (procs k))
           (s32 (nextpid k + 1)) (initproc k) (env k))
  end.

(** The frame [allocproc] builds at the top of the kernel stack. *)
Definition stack_frame (ks : Z) (p : proc) : proc :=
  let sp := ks + KSTACKSIZE in
  let sp := sp - sizeof_trapframe in
  let ta := sp in
  let sp := sp - 4 in
  let sp := sp - sizeof_context in
  set_layout ta trapret (mkCtx 0 0 0 0 forkret) sp p.

(** The second half of [allocproc]: the kernel stack of slot [i]. *)
Definition alloc_stack (i : nat) : M (ktable E) (option nat) :=
  let* ks := call env_kalloc in
  upd i (set_kstack ks) ;;;
  if ks =? 0 then
    upd i (set_state UNUSED) ;;;
    ret None
  else
    upd i (stack_frame ks) ;;;
    ret (Some i).

Definition allocproc : M (ktable E) (option nat) :=
  let* slot := claim in
  match slot with
  | None => ret None
  | Some i => alloc_stack i
  end.

(** The trap frame of the first process. *)
Definition init_tf : trapframe :=
  let cs := Z.lor (Z.shiftl SEG_UCODE 3) DPL_USER in
  let ds := Z.lor (Z.shiftl SEG_UDATA 3) DPL_USER in
  mkTf 0 0 0 0 0 0 0 0 0 0 ds ds 0 0 0 cs FL_IF PGSIZE ds.

Definition userinit (initcode : list Z) : M (ktable E) unit :=
  let* slot := allocproc in
  modify (fun k => mkTable (procs k) (nextpid k) slot (env k)) ;;;
  match slot with
  | None => panic "trap"   (* a write through the null pointer *)
  | Some i =>
      let* pd := call env_setupkvm in
      upd i (set_pgdir pd) ;;;
      if pd =? 0 then panic "userinit: out of memory?"
      else
        call (env_inituvm pd initcode) ;;;
        upd i (set_sz PGSIZE) ;;;
        upd i (set_tf init_tf) ;;;
        upd i (fun p => set_name (Str.safestrcpy (name p) (bytes "initcode") 16) p) ;;;
        let* c := call (env_namei (bytes "/")) in
        upd i (set_cwd c) ;;;
        upd i (set_state RUNNABLE)
  end.

(** [growproc] for the current process [self]. *)
Definition growproc (self : nat) (n : Z) : M (ktable E) Z :=
  let* p := getproc self in
  let finish sz' :=
    upd self (set_sz sz') ;;;
    call (env_switchuvm (pgdir p) (kstack p)) ;;;
    ret 0 in
  if 0 <? n then
    let* sz' := call (env_allocuvm (pgdir p) (sz p) (u32 (sz p + n))) in
    if sz' =? 0 then ret (-1) else finish sz'
  else if n <? 0 then
    let* sz' := call (env_deallocuvm (pgdir p) (sz p) (u32 (sz p + n))) in
    if sz' =? 0 then ret (-1) else finish sz'
  else finish (sz p).

(** The loop of [fork] over the open files; [fs] are the parent's. *)
Fixpoint dup_files (np : nat) (i : nat) (fs : list Z) : M (ktable E) unit :=
  match fs with
  | [] => ret tt
  | f :: fs' =>
      (if f =? 0 then ret tt
       else let* g := call (env_filedup f) in
            upd np (fun p => set_ofile (<[i:=g]> (ofile p)) p)) ;;;
      dup_files np (S i) fs'
  end.

(** [fork] after [allocproc] returned slot [np]. *)
Definition fork_fill (self np : nat) : M (ktable E) Z :=
  let* p := getproc self in
  let* q := getproc np in
  let* pd := call (env_copyuvm (pgdir p) (sz p)) in
  upd np (set_pgdir pd) ;;;
  if pd =? 0 then
    call (env_kfree (kstack q)) ;;;
    upd np (set_kstack 0) ;;;
    upd np (set_state UNUSED) ;;;
    ret (-1)
  else
    upd np (set_sz (sz p)) ;;;
    upd np (set_parent (Some self)) ;;;
    upd np (set_tf (tf p)) ;;;
    upd np (fun q => set_tf (set_eax 0 (tf q)) q) ;;;
    dup_files np 0 (ofile p) ;;;
    let* c := call (env_idup (cwd p)) in
    upd np (set_cwd c) ;;;
    upd np (set_state RUNNABLE) ;;;
    upd np (fun q => set_name (Str.safestrcpy (name q) (name p) 16) q) ;;;
    ret (pid q).

(** [fork] once [allocproc] has claimed slot [np]. *)
Definition fork_rest (self np : nat) : M (ktable E) Z :=
  let* slot := alloc_stack np in
  match slot with
  | None => ret (-1)
  | Some np => fork_fill self np
  end.

Definition fork (self : nat) : M (ktable E) Z :=
  let* slot := allocproc in
  match slot with
  | None => ret (-1)
  | Some np => fork_fill self np
  end.

(** [wakeup1] on the table. *)
Definition wake (c : option chan) (p : proc) : proc :=
  if decide (state p = SLEEPING /\ pchan p = c) then set_state RUNNABLE p else p.
Definition wakeup1 (c : option chan) : M (ktable E) unit :=
  modify (fun k => with_procs (wake c <$> procs k) k).

(** [wakeup] takes [ptable.lock] around [wakeup1]. *)
Definition wakeup (c : chan) : M (ktable E) unit := wakeup1 (Some c).

(** [sched] up to the switch, on CPU state [x]; [locked] tells whether this CPU
    holds [ptable.lock].  It returns the saved [intena]. *)
Definition sched (self : nat) (locked : bool) (x : cpu) : M (ktable E) bool :=
  let* p := getproc self in
  if negb locked then panic "sched ptable.lock"
  else if negb (ncli x =? 1) then panic "sched locks"
  else if decide (state p = RUNNING) then panic "sched running"
  else if iflag x then panic "sched interruptible"
  else ret (intena x).

(** [sched] after the switch back, on the CPU it then runs on. *)
Definition sched_return (ie : bool) (x : cpu) : cpu := mkCpu (ncli x) ie (iflag x).

(** [yield] up to the switch. *)
Definition yield (self : nat) (x : cpu) : M (ktable E) bool :=
  upd self (set_state RUNNABLE) ;;;
  sched self true (push_cpu x).

(** The lock passed to [sleep]: [ptable.lock] or another one. *)
Inductive lockref := LkPtable | LkOther (l : nat).

(** [sleep] up to the switch, on CPU state [x].  With another lock than
    [ptable.lock], [acquire(&ptable.lock)] raises and [release(lk)] lowers the
    nesting depth. *)
Definition sleep (self : option nat) (c : chan) (lk : option lockref) (x : cpu)
    : M (ktable E) bool :=
  match self with
  | None => panic "sleep"
  | Some i =>
      match lk with
      | None => panic "sleep without lk"
      | Some lk =>
          let x := match lk with
                   | LkPtable => x
                   | LkOther _ =>
                       let y := push_cpu x in mkCpu (ncli y - 1) (intena y) (iflag y)
                   end in
          upd i (set_chan (Some c)) ;;;
          upd i (set_state SLEEPING) ;;;
          sched i true x
      end
  end.

(** [sleep] after the switch back. *)
Definition sleep_return (self : nat) : M (ktable E) unit := upd self (set_chan None).

(** The loop of [exit] over the open files. *)
Fixpoint close_files (self : nat) (n fd : nat) : M (ktable E) unit :=
  match n with
  | O => ret tt
  | S n' =>
      let* p := getproc self in
      (if default 0 (ofile p !! fd) =? 0 then ret tt
       else call (env_fileclose (default 0 (ofile p !! fd))) ;;;
            upd self (fun p => set_ofile (<[fd:=0]> (ofile p)) p)) ;;;
      close_files self n' (S fd)
  end.

(** [exit] before it takes [ptable.lock]. *)
Definition exit_files (self : nat) : M (ktable E) unit :=
  let* ini := gets initproc in
  if decide (ini = Some self) then panic "init exiting"
  else
    close_files self NOFILE 0 ;;;
    let* p := getproc self in
    call (env_iput (cwd p)) ;;;
    upd self (set_cwd 0).

(** One iteration of the loop that passes abandoned children to init. *)
Definition reparent1 (self : nat) (ini : option nat) (l : list proc) (i : nat) : list proc :=
  match l !! i with
  | Some p =>
      if decide (parent p = Some self) then
        let l := <[i:=set_parent ini p]> l in
        if decide (state p = ZOMBIE) then wake (ChProc <$> ini) <$> l else l
      else l
  | None => l
  end.
Definition reparent (self : nat) (ini : option nat) (l : list proc) : list proc :=
  foldl (reparent1 self ini) l (seq 0 NPROC).

(** The rest of [exit], under [ptable.lock], up to the switch. *)
Definition exit_locked (self : nat) (x : cpu) : M (ktable E) bool :=
  let* p := getproc self in
  wakeup1 (ChProc <$> parent p) ;;;
  modify (fun k => with_procs (reparent self (initproc k) (procs k)) k) ;;;
  upd self (set_state ZOMBIE) ;;;
  sched self true (push_cpu x).

Definition exit (self : nat) (x : cpu) : M (ktable E) bool :=
  exit_files self ;;;
  exit_locked self x.

(** [wait] on a zombie child in slot [i]. *)
Definition reap (i : nat) : M (ktable E) Z :=
  let* p := getproc i in
  call (env_kfree (kstack p)) ;;;
  upd i (set_kstack 0) ;;;
  call (env_freevm (pgdir p)) ;;;
  upd i (set_state UNUSED) ;;;
  upd i (set_pid 0) ;;;
  upd i (set_parent None) ;;;
  upd i (fun p => set_name (<[0%nat:=0]> (name p)) p) ;;;
  upd i (set_killed false) ;;;
  ret (pid p).

(** One round of the loop of [wait]: [Some r] returns [r], [None] has gone to
    sleep on the process's own slot. *)
Definition wait (self : nat) (x : cpu) : M (ktable E) (option Z) :=
  let* l := gets procs in
  match find_proc (fun p => parent p = Some self /\ state p = ZOMBIE) l with
  | Some i => let* r := reap i in ret (Some r)
  | None =>
      let havekids := existsb (fun p => bool_decide (parent p = Some self)) l in
      let* p := getproc self in
      if negb havekids || killed p then ret (Some (-1))
      else let* _ := sleep (Some self) (ChProc self) (Some LkPtable) x in ret None
  end.

(** [kill] *)
Definition kill_proc (p : proc) : proc :=
  let p := set_killed true p in
  if decide (state p = SLEEPING) then set_state RUNNABLE p else p.
Definition kill (pd : Z) : M (ktable E) Z := fun k =>
  match find_proc (fun p => pid p = pd) (procs k) with
  | Some i => Ret 0 (with_procs (alter kill_proc i (procs k)) k)
  | None => Ret (-1) k
  end.

(** The scan of [scheduler]: the next RUNNABLE slot at or after [from]. *)
Definition next_runnable (from : nat) (l : list proc) : option nat :=
  (fun i => from + i)%nat <$> find_proc (fun p => state p = RUNNABLE) (drop from l).

(** [scheduler] from slot [from] on, up to its switch to a process; [None] ends
    the pass over the table. *)
Definition scheduler (from : nat) : M (ktable E) (option nat) :=
  let* l := gets procs in
  match next_runnable from l with
  | None => ret None
  | Some i =>
      let* p := getproc i in
      call (env_switchuvm (pgdir p) (kstack p)) ;;;
      upd i (set_state RUNNING) ;;;
      ret (Some i)
  end.

(** ** The first process, while other processors run

    What the other processors do to the table before there is a process: passes of
    [scheduler] over it, each under [ptable.lock], and [wakeup]s out of interrupts.  A pass
    that finds a process switches to it; that is where this description ends. *)
Inductive idle := Pass | Wake (c : chan).

Definition idle1 (a : idle) : M (ktable E) unit :=
  match a with
  | Pass => let* r := scheduler 0 in match r with None => ret tt | Some _ => block end
  | Wake c => wakeup c
  end.

Fixpoint idles (l : list idle) : M (ktable E) unit :=
  match l with
  | [] => ret tt
  | a :: l' => idle1 a ;;; idles l'
  end.

(** [userinit] with what the other processors do before each of its statements. *)
Definition userinit_smp (gap : nat -> list idle) (initcode : list Z) : M (ktable E) unit :=
  let* slot :=
    (idles (gap 0%nat) ;;;
     let* slot := claim in
     idles (gap 1%nat) ;;;
     match slot with
     | None => ret None
     | Some i => alloc_stack i
     end) in
  idles (gap 2%nat) ;;;
  modify (fun k => mkTable (procs k) (nextpid k) slot (env k)) ;;;
  match slot with
  | None => panic "trap"   (* a write through the null pointer *)
  | Some i =>
      idles (gap 3%nat) ;;;
      let* pd := call env_setupkvm in
      idles (gap 4%nat) ;;;
      upd i (set_pgdir pd) ;;;
      if pd =? 0 then panic "userinit: out of memory?"
      else
        idles (gap 5%nat) ;;;
        call (env_inituvm pd initcode) ;;;
        idles (gap 6%nat) ;;;
        upd i (set_sz PGSIZE) ;;;
        idles (gap 7%nat) ;;;
        upd i (set_tf init_tf) ;;;
        idles (gap 8%nat) ;;;
        upd i (fun p => set_name (Str.safestrcpy (name p) (bytes "initcode") 16) p) ;;;
        idles (gap 9%nat) ;;;
        let* c := call (env_namei (bytes "/")) in
        idles (gap 10%nat) ;;;
        upd i (set_cwd c) ;;;
        idles (gap 11%nat) ;;;
        upd i (set_state RUNNABLE)
  end.

(** [forkret]: [initlog] on the very first call. *)
Definition forkret_first (first : bool) (initlog : M E unit) : M (ktable E) bool :=
  (if first then call initlog else ret tt) ;;;
  ret false.

(** [ptable] at boot is zeroed memory. *)
Definition zero_tf : trapframe := mkTf 0 0 0 0 0 0 0 0 0 0 0 0 0 0 0 0 0 0 0.
Definition zero_proc : proc :=
  mkProc 0 0 0 UNUSED 0 None zero_tf 0 0 (mkCtx 0 0 0 0 0) 0 None false (replicate NOFILE 0) 0
    (replicate 16 0).
Definition boot (e : E) : ktable E := mkTable (replicate NPROC zero_proc) 1 None e.

End Ops.

(** [pinit]; the lock is the argument. *)
Definition pinit (ptable_lock : nat) : M machine unit := modify (set_lock ptable_lock initlock).

(** ** procdump *)

Definition states (s : procstate) : list Z :=
  match s with
  | UNUSED => bytes "unused"
  | EMBRYO => bytes "embryo"
  | SLEEPING => bytes "sleep "
  | RUNNABLE => bytes "runble"
  | RUNNING => bytes "run   "
  | ZOMBIE => bytes "zombie"
  end.

(** [cprintf] of a pid and two strings. *)
Definition dump_head (p : proc) : list Z :=
  Printf.cprintf (fun a => if a =? 1 then states (state p) else name p)
    (fun i => match i with O => pid p | S O => 1 | _ => 2 end) (bytes "%d %s %s").

(** [for(i=0; i<10 && pc[i] != 0; i++) cprintf(" %p", pc[i]);] *)
Fixpoint dump_pcs (pcs : list Z) : list Z :=
  match pcs with
  | [] => []
  | pc :: pcs' => if pc =? 0 then [] else Printf.cprintf (fun _ => []) (fun _ => pc) (bytes " %p") ++ dump_pcs pcs'
  end.

(** The text [procdump] prints; [word] is kernel memory. *)
Fixpoint procdump (word : Z -> Z) (l : list proc) : list Z :=
  match l with
  | [] => []
  | p :: l' =>
      (if decide (state p = UNUSED) then []
       else dump_head p ++ (if decide (state p = SLEEPING) then dump_pcs (getcallerpcs word (c_ebp (ctx p) + 8)) else []) ++ [10])
      ++ procdump word l'
  end.

(** Free slots leave no trace in the output. *)
Lemma procdump_in_use word l : procdump word l = procdump word (filter (fun p => state p <> UNUSED) l).
Proof.
  induction l as [|p l IH]; [done|]. rewrite filter_cons. cbn [procdump]. destruct (decide (state p = UNUSED)) as [Hu|Hu].
  - rewrite decide_False by tauto. exact IH.
  - rewrite (decide_True (P := state p <> UNUSED)) by done. cbn [procdump]. rewrite (decide_False (P := state p = UNUSED)) by done. by rewrite IH.
Qed.

(** A shell that sleeps and a running process. *)
Lemma procdump_example : procdump (fun _ => 0)
    [zero_proc; set_name (bytes "sh") (set_pid 2 (set_state SLEEPING zero_proc)); set_name (bytes "ls") (set_pid 10 (set_state RUNNING zero_proc))] =
  bytes "2 sleep  sh" ++ [10] ++ bytes "10 run    ls" ++ [10].
Proof. by vm_compute. Qed.

#[global] Arguments reparent : simpl never.
#[global] Arguments NPROC : simpl never.

End Proc.
