(* ===== verification/ProcSys.v ===== *)
(** * proc.c: the process table under interleaving

    [Module ProcSys] interleaves the routines of [Module Proc] as the processes
    and CPUs run them, one step per stretch of code under [ptable.lock] (or on
    slots nobody else touches), and proves the invariants of the table.  A slot is
    seen through [view], the fields the invariants talk about; every routine has
    a lemma that gives its effect on the view.  [userinit_alone]: while the first process
    is made, the schedulers of the other processors leave the table as it is. *)

From S2P Require Import Prelude CString Spinlock Proc.

Module ProcSys.
Import Proc.

(** ** The view of the table *)

Record slot := mkSlot {
  s_state : procstate; s_parent : option nat; s_chan : option chan; s_killed : bool; s_pid : Z
}.

Definition view (p : proc) : slot := mkSlot (state p) (parent p) (pchan p) (killed p) (pid p).

Record tview := mkView { slots : list slot; v_nextpid : Z; v_initproc : option nat }.

Definition tview_of {E} (k : ktable E) : tview :=
  mkView (view <$> procs k) (nextpid k) (initproc k).

Definition on_slot (i : nat) (f : slot -> slot) (v : tview) : tview :=
  mkView (alter f i (slots v)) (v_nextpid v) (v_initproc v).

Definition s_set_state (st : procstate) (x : slot) : slot :=
  mkSlot st (s_parent x) (s_chan x) (s_killed x) (s_pid x).

Definition s_wake (c : option chan) (x : slot) : slot :=
  if decide (s_state x = SLEEPING /\ s_chan x = c) then s_set_state RUNNABLE x else x.

Lemma view_wake c p : view (wake c p) = s_wake c (view p).
Proof. unfold wake, s_wake. simpl. by repeat case_decide. Qed.

Lemma alter_view f h i (l : list proc) :
  (forall p, view (f p) = h (view p)) -> view <$> alter f i l = alter h i (view <$> l).
Proof.
  intros H. apply list_eq. intros j. rewrite list_lookup_fmap.
  destruct (decide (i = j)) as [->|].
  - rewrite !list_lookup_alter_eq, list_lookup_fmap. destruct (l !! j); simpl; [by rewrite H|done].
  - rewrite !list_lookup_alter_ne, list_lookup_fmap by done. done.
Qed.

Lemma on_slot_on_slot i f g v : on_slot i f (on_slot i g v) = on_slot i (f ∘ g) v.
Proof. unfold on_slot. simpl. by rewrite alter_alter. Qed.

(** ** The effect of every routine on the view *)

Section Effects.
Context {E : Type} {KE : KernelEnv E} (forkret trapret : Z).
Implicit Types k : ktable E.

Lemma slot_of k i p : procs k !! i = Some p -> slots (tview_of k) !! i = Some (view p).
Proof. intros H. simpl. by rewrite list_lookup_fmap, H. Qed.

Lemma proc_of k i x :
  slots (tview_of k) !! i = Some x -> exists p, procs k !! i = Some p /\ x = view p.
Proof. simpl. rewrite list_lookup_fmap. destruct (procs k !! i); naive_solver. Qed.

Lemma wlp_upd i f h Q k :
  (forall p, view (f p) = h (view p)) ->
  (forall k', tview_of k' = on_slot i h (tview_of k) -> Q tt k') -> wlp (upd i f) Q k.
Proof.
  intros Hf HQ. apply wlp_modify, HQ. unfold tview_of, on_slot. simpl.
  by rewrite (alter_view f h).
Qed.

Lemma wlp_upd_private i f Q k :
  (forall p, view (f p) = view p) ->
  (forall k', tview_of k' = tview_of k -> Q tt k') -> wlp (upd i f) Q k.
Proof.
  intros Hf HQ. apply wlp_modify, HQ. unfold tview_of. simpl.
  rewrite (alter_view f (fun x => x)) by done. by rewrite list_alter_id.
Qed.

Lemma wlp_call {A} (m : M E A) Q k :
  (forall a k', tview_of k' = tview_of k -> Q a k') -> wlp (call m) Q k.
Proof.
  intros HQ. unfold wlp, call, zoom. destruct (m (env k)); [|done..]. by apply HQ.
Qed.

Lemma wlp_getproc i Q k :
  (forall p, procs k !! i = Some p -> Q p k) -> wlp (getproc i) Q k.
Proof. unfold wlp, getproc. destruct (procs k !! i); auto. Qed.

(** The statements of a routine one by one: each adds an equation between the
    view before and after it; [eff_done] composes them. *)
Ltac eff_step :=
  lazymatch goal with
  | |- wlp (bind _ _) _ _ => apply wlp_bind
  | |- wlp (ret _) _ _ => apply wlp_ret
  | |- wlp (panic _) _ _ => apply wlp_panic
  | |- wlp (gets _) _ _ => apply wlp_gets
  | |- wlp (getproc _) _ _ => apply wlp_getproc; intros ? ?
  | |- wlp (upd _ _) _ _ => apply wlp_upd_private; [done|]; intros ? ?
  | |- wlp (call _) _ _ => apply wlp_call; intros ? ? ?
  | |- wlp (if _ then _ else _) _ _ => bool_cases
  end.
Ltac eff_steps := repeat (eff_step; cbn beta zeta).
Ltac eff_upd h := apply (wlp_upd _ _ h); [done|]; intros ? ?.
Ltac eff_done :=
  repeat match goal with H : tview_of _ = _ |- _ => rewrite H; clear H end;
  rewrite ?on_slot_on_slot.

Lemma claim_effect k :
  wlp claim (fun r k' =>
    match r with
    | None => tview_of k' = tview_of k /\
              Forall (fun x => s_state x <> UNUSED) (slots (tview_of k))
    | Some i =>
        (exists x, slots (tview_of k) !! i = Some x /\ s_state x = UNUSED) /\
        slots (tview_of k') =
          alter (fun x => mkSlot EMBRYO (s_parent x) (s_chan x) (s_killed x) (nextpid k)) i
            (slots (tview_of k)) /\
        v_nextpid (tview_of k') = s32 (nextpid k + 1) /\
        v_initproc (tview_of k') = initproc k
    end) k.
Proof.
  unfold wlp, claim, find_proc.
  destruct (list_find _ (procs k)) as [[i p]|] eqn:Hf; cbn [fmap option_fmap option_map fst].
  - apply list_find_Some in Hf as (Hl & Hst & _). split_and!; [|by apply alter_view|done..].
    exists (view p). split; [by apply slot_of|done].
  - apply list_find_None in Hf. split; [done|]. simpl. by apply Forall_fmap.
Qed.

Definition s_publish (self : nat) (x : slot) : slot :=
  mkSlot RUNNABLE (Some self) (s_chan x) (s_killed x) (s_pid x).

Lemma dup_files_effect np i fs k :
  wlp (dup_files np i fs) (fun _ k' => tview_of k' = tview_of k) k.
Proof.
  revert i k. induction fs as [|f fs IH]; intros i k; simpl; [done|].
  eff_steps; (eapply wlp_mono; [apply IH|]); simpl; intros; congruence.
Qed.

Lemma fork_rest_effect self np k :
  wlp (fork_rest forkret trapret self np) (fun r k' =>
    (r = -1 /\ tview_of k' = on_slot np (s_set_state UNUSED) (tview_of k)) \/
    (exists x, slots (tview_of k) !! np = Some x /\ r = s_pid x /\
       tview_of k' = on_slot np (s_publish self) (tview_of k))) k.
Proof.
  unfold fork_rest, alloc_stack. eff_steps.
  - eff_upd (s_set_state UNUSED). eff_steps. left. split; [done|]. by eff_done.
  - unfold fork_fill. eff_steps.
    + eff_upd (s_set_state UNUSED). eff_steps. left. split; [done|]. by eff_done.
    + eff_upd (fun x => mkSlot (s_state x) (Some self) (s_chan x) (s_killed x) (s_pid x)).
      eff_steps. eapply wlp_mono; [apply dup_files_effect|]. intros [] k1 Hk1. cbn beta.
      eff_steps. eff_upd (s_set_state RUNNABLE). eff_steps. right.
      match goal with H : procs ?k' !! np = Some ?q |- _ =>
        exists (view q); apply slot_of in H; split_and!; [|done|] end.
      * by congruence.
      * by eff_done.
Qed.

Lemma close_files_effect self n fd k :
  wlp (close_files self n fd) (fun _ k' => tview_of k' = tview_of k) k.
Proof.
  revert fd k. induction n as [|n IH]; intros fd k; simpl; [done|].
  eff_steps; (eapply wlp_mono; [apply IH|]); simpl; intros; congruence.
Qed.

Lemma exit_files_effect self k :
  wlp (exit_files self) (fun _ k' => initproc k <> Some self /\ tview_of k' = tview_of k) k.
Proof.
  unfold exit_files. eff_steps.
  eapply wlp_mono; [apply close_files_effect|]. intros [] k1 Hk1. cbn beta.
  eff_steps. split; [done|]. by eff_done.
Qed.

Lemma sched_effect self b x k :
  wlp (sched self b x) (fun _ k' => k' = k) k.
Proof. unfold sched. by eff_steps. Qed.

Lemma yield_effect self x k :
  wlp (yield self x)
    (fun _ k' => tview_of k' = on_slot self (s_set_state RUNNABLE) (tview_of k)) k.
Proof.
  unfold yield. eff_step. eff_upd (s_set_state RUNNABLE).
  eapply wlp_mono; [apply sched_effect|]. intros ? ? ->. by eff_done.
Qed.

Definition s_sleep (c : chan) (x : slot) : slot :=
  mkSlot SLEEPING (s_parent x) (Some c) (s_killed x) (s_pid x).

Lemma sleep_effect self c lk x k :
  wlp (sleep (Some self) c lk x)
    (fun _ k' => tview_of k' = on_slot self (s_sleep c) (tview_of k)) k.
Proof.
  unfold sleep. destruct lk as [lk|]; [|done]. cbn zeta. eff_step.
  eff_upd (fun x => mkSlot (s_state x) (s_parent x) (Some c) (s_killed x) (s_pid x)).
  eff_step. eff_upd (s_set_state SLEEPING).
  eapply wlp_mono; [apply sched_effect|]. intros ? ? ->. by eff_done.
Qed.

Definition s_unchan (x : slot) : slot :=
  mkSlot (s_state x) (s_parent x) None (s_killed x) (s_pid x).

Lemma sleep_return_effect self k :
  wlp (sleep_return self) (fun _ k' => tview_of k' = on_slot self s_unchan (tview_of k)) k.
Proof. unfold sleep_return. eff_upd s_unchan. by eff_done. Qed.

Definition s_free (x : slot) : slot := mkSlot UNUSED None (s_chan x) false 0.

Lemma reap_effect i k :
  wlp (reap i) (fun r k' =>
    exists x, slots (tview_of k) !! i = Some x /\ r = s_pid x /\
      tview_of k' = on_slot i s_free (tview_of k)) k.
Proof.
  unfold reap. eff_step. eff_step. eff_step. eff_step. eff_step. eff_step. eff_step. eff_step.
  eff_step. eff_upd (s_set_state UNUSED). eff_step.
  eff_upd (fun x => mkSlot (s_state x) (s_parent x) (s_chan x) (s_killed x) 0). eff_step.
  eff_upd (fun x => mkSlot (s_state x) None (s_chan x) (s_killed x) (s_pid x)). eff_step.
  eff_step. eff_step. eff_upd (fun x => mkSlot (s_state x) (s_parent x) (s_chan x) false (s_pid x)).
  eff_step. eexists (view _). split_and!; [by apply slot_of|done|]. by eff_done.
Qed.

Definition s_child (self : nat) (x : slot) : Prop := s_parent x = Some self.
Definition s_zchild (self : nat) (x : slot) : Prop :=
  s_parent x = Some self /\ s_state x = ZOMBIE.

Lemma wait_effect self x k :
  wlp (wait self x) (fun r k' =>
    match r with
    | Some _ =>
        tview_of k' = tview_of k \/
        exists i y, slots (tview_of k) !! i = Some y /\ s_zchild self y /\
          tview_of k' = on_slot i s_free (tview_of k)
    | None =>
        (exists y, slots (tview_of k) !! self = Some y /\ s_killed y = false) /\
        Forall (fun y => ~ s_zchild self y) (slots (tview_of k)) /\
        (exists i y, slots (tview_of k) !! i = Some y /\ s_child self y) /\
        tview_of k' = on_slot self (s_sleep (ChProc self)) (tview_of k)
    end) k.
Proof.
  unfold wait, find_proc. eff_step. eff_step.
  destruct (list_find _ (procs k)) as [[i p]|] eqn:Hf; cbn [fmap option_fmap option_map fst].
  - apply list_find_Some in Hf as (Hl & Hz & _). eff_step.
    eapply wlp_mono; [apply reap_effect|]. intros r k' (y & Hy & -> & Hk'). eff_step.
    right. exists i, y. split_and!; [done| |done].
    rewrite (slot_of _ _ _ Hl) in Hy. by simplify_eq.
  - apply list_find_None in Hf. eff_step. eff_step. eff_step; [eff_step; by left|].
    eff_step. eapply wlp_mono; [apply sleep_effect|]. intros ? k' Hk'. eff_step.
    match goal with H : _ || _ = false |- _ => apply orb_false_iff in H as [Hc Hkl] end.
    apply negb_false_iff, existsb_exists in Hc as (q & Hq & Hpar%bool_decide_eq_true).
    apply list_elem_of_In, list_elem_of_lookup in Hq as [i Hi].
    split_and!; [| | |done].
    + eexists. split; [by apply slot_of|done].
    + simpl. apply Forall_fmap. exact Hf.
    + exists i, (view q). split; [by apply slot_of|done].
Qed.

Definition s_kill (x : slot) : slot :=
  mkSlot (if decide (s_state x = SLEEPING) then RUNNABLE else s_state x)
    (s_parent x) (s_chan x) true (s_pid x).

Lemma kill_effect pd k :
  wlp (kill pd) (fun r k' =>
    (r = -1 /\ k' = k) \/
    (r = 0 /\ exists i x, slots (tview_of k) !! i = Some x /\ s_pid x = pd /\
       tview_of k' = on_slot i s_kill (tview_of k))) k.
Proof.
  unfold wlp, kill, find_proc.
  destruct (list_find _ (procs k)) as [[i p]|] eqn:Hf; cbn [fmap option_fmap option_map fst];
    [|by left].
  apply list_find_Some in Hf as (Hl & Hp & _). right. split; [done|].
  exists i, (view p). split_and!; [by apply slot_of|done|].
  unfold tview_of, on_slot. simpl. f_equal. apply alter_view.
  intros q. unfold kill_proc, s_kill, view. simpl. by case_decide.
Qed.

Lemma scheduler_effect from k :
  wlp (scheduler from) (fun r k' =>
    match r with
    | None => k' = k
    | Some i => (exists x, slots (tview_of k) !! i = Some x /\ s_state x = RUNNABLE) /\
        tview_of k' = on_slot i (s_set_state RUNNING) (tview_of k)
    end) k.
Proof.
  unfold scheduler, next_runnable, find_proc. eff_step. eff_step.
  destruct (list_find _ (drop from (procs k))) as [[i p]|] eqn:Hf;
    cbn [fmap option_fmap option_map fst]; [|done].
  apply list_find_Some in Hf as (Hl & Hz & _). rewrite lookup_drop in Hl.
  do 5 eff_step. eff_upd (s_set_state RUNNING). eff_step. split; [|by eff_done].
  exists (view p). split; [by apply slot_of|done].
Qed.

Lemma growproc_effect self n k :
  wlp (growproc self n) (fun _ k' => tview_of k' = tview_of k) k.
Proof.
  unfold growproc. eff_steps; by eff_done.
Qed.

Lemma wakeup1_view c k :
  wlp (wakeup1 c) (fun _ k' => tview_of k' =
    mkView (s_wake c <$> slots (tview_of k)) (nextpid k) (initproc k)) k.
Proof.
  unfold wakeup1. apply wlp_modify. unfold tview_of. simpl. f_equal.
  rewrite <- !list_fmap_compose. apply list_fmap_ext. intros ? p _. apply view_wake.
Qed.

Lemma alloc_stack_effect i k :
  wlp (alloc_stack forkret trapret i) (fun r k' =>
    (r = None \/ r = Some i /\ tview_of k' = tview_of k)) k.
Proof.
  unfold alloc_stack. eff_steps.
  - eff_upd (s_set_state UNUSED). eff_steps. by left.
  - right. split; [done|]. by eff_done.
Qed.

Lemma userinit_effect code (e : E) :
  wlp (userinit forkret trapret code) (fun _ k' =>
    tview_of k' = mkView (<[0%nat:=mkSlot RUNNABLE None None false 1]>
                            (replicate NPROC (view zero_proc))) 2 (Some 0%nat)) (boot e).
Proof.
  unfold userinit, allocproc.
  set (k1 := mkTable (alter (fun p => set_pid 1 (set_state EMBRYO p)) 0%nat
    (replicate NPROC zero_proc)) 2 None e).
  assert (Hc : claim (boot e) = Ret (Some 0%nat) k1) by reflexivity.
  apply wlp_bind, wlp_bind. unfold wlp at 1. rewrite Hc. cbn beta iota. clear Hc.
  eapply wlp_mono; [apply alloc_stack_effect|]. intros slot k2 Hk2. cbn beta. eff_step.
  apply wlp_modify. set (k3 := mkTable (procs k2) (nextpid k2) slot (env k2)).
  destruct Hk2 as [-> |[-> Hk2]]; [done|].
  assert (Hk3 : tview_of k3 = mkView (slots (tview_of k1)) 2 (Some 0%nat)).
  { transitivity (mkView (slots (tview_of k2)) (v_nextpid (tview_of k2)) (Some 0%nat));
      [done|by rewrite Hk2]. }
  clearbody k3. clear Hk2 k2. eff_steps.
  eff_upd (s_set_state RUNNABLE). eff_done. done.
Qed.

Lemma set_killed_effect i k :
  wlp (upd i (set_killed true)) (fun _ k' => tview_of k' =
    on_slot i (fun x => mkSlot (s_state x) (s_parent x) (s_chan x) true (s_pid x)) (tview_of k)) k.
Proof.
  apply (wlp_upd _ _ (fun x => mkSlot (s_state x) (s_parent x) (s_chan x) true (s_pid x))); done.
Qed.

Lemma private_effect i f k :
  (forall p, view (f p) = view p) -> wlp (upd i f) (fun _ k' => tview_of k' = tview_of k) k.
Proof. intros. by apply wlp_upd_private. Qed.

(** ** The loop of [exit] over its children *)

Definition zombie_child (self : nat) (p : proc) : bool :=
  bool_decide (parent p = Some self /\ state p = ZOMBIE).

(** Slot [i] after [n] iterations of the loop over table [l]. *)
Definition reparented (self : nat) (ini : option nat) (l : list proc) (n i : nat) (p : proc) : proc :=
  let p := if decide ((i < n)%nat /\ parent p = Some self) then set_parent ini p else p in
  if existsb (zombie_child self) (take n l) then wake (ChProc <$> ini) p else p.

Lemma wake_set_parent c v p : wake c (set_parent v p) = set_parent v (wake c p).
Proof. unfold wake. simpl. by case_decide. Qed.

Lemma wake_wake c p : wake c (wake c p) = wake c p.
Proof. unfold wake. case_decide; simpl; by case_decide; naive_solver. Qed.

Lemma parent_wake c p : parent (wake c p) = parent p.
Proof. unfold wake. by case_decide. Qed.

Lemma zombie_wake c p : state (wake c p) = ZOMBIE <-> state p = ZOMBIE.
Proof. unfold wake. case_decide as H; [|done]. destruct H as [-> _]. by split. Qed.

(** A slot the loop has not come to yet keeps its parent and stays or does not
    become a zombie. *)
Lemma reparented_ahead self ini l n i p :
  (n <= i)%nat ->
  parent (reparented self ini l n i p) = parent p /\
  (state (reparented self ini l n i p) = ZOMBIE <-> state p = ZOMBIE).
Proof.
  intros Hi. unfold reparented. rewrite decide_False by lia.
  destruct (existsb _ _); [|done]. by rewrite parent_wake, zombie_wake.
Qed.

Lemma reparented_S self ini l n i p q :
  l !! n = Some q -> l !! i = Some p ->
  reparented self ini l (S n) i p =
    (if decide (parent q = Some self /\ state q = ZOMBIE) then wake (ChProc <$> ini) else id)
      (if decide (i = n /\ parent q = Some self)
       then set_parent ini (reparented self ini l n i p)
       else reparented self ini l n i p).
Proof.
  intros Hn Hi. unfold reparented. rewrite (take_S_r l n q) by done.
  rewrite existsb_app. cbn [existsb]. rewrite orb_false_r.
  change (zombie_child self q) with
    (bool_decide (parent q = Some self /\ state q = ZOMBIE)).
  destruct (decide (i = n)) as [->|Hne].
  - replace p with q by congruence. destruct (existsb _ _); simpl;
      repeat case_bool_decide; repeat case_decide; simpl;
      rewrite ?wake_set_parent, ?wake_wake; try done; try lia; try naive_solver lia.
  - rewrite (decide_False (P := i = n /\ _)) by naive_solver.
    destruct (existsb _ _); simpl; repeat case_bool_decide; repeat case_decide; simpl;
      rewrite ?wake_set_parent, ?wake_wake; try done; try lia; try naive_solver lia.
Qed.

Lemma reparent_prefix self ini l n :
  (n <= length l)%nat ->
  forall i, foldl (reparent1 self ini) l (seq 0 n) !! i = reparented self ini l n i <$> l !! i.
Proof.
  induction n as [|n IH]; intros Hn i.
  - simpl. destruct (l !! i); simpl; [|done]. unfold reparented.
    by rewrite decide_False by lia.
  - rewrite seq_S, foldl_snoc, Nat.add_0_l. specialize (IH ltac:(lia)).
    destruct (lookup_lt_is_Some_2 l n ltac:(lia)) as [q Hq].
    set (l' := foldl _ l (seq 0 n)) in *.
    assert (Hlen : l' !! n = Some (reparented self ini l n n q)) by by rewrite IH, Hq.
    destruct (reparented_ahead self ini l n n q) as [Hpar Hz]; [done|].
    unfold reparent1. rewrite Hlen, Hpar.
    destruct (l !! i) as [p|] eqn:Hp; simpl.
    + rewrite (reparented_S _ _ _ _ _ _ q) by done.
      assert (Hi : l' !! i = Some (reparented self ini l n i p)) by by rewrite IH, Hp.
      destruct (decide (i = n)) as [->|Hne].
      * assert (p = q) as -> by congruence.
        assert (Hin : <[n:=set_parent ini (reparented self ini l n n q)]> l' !! n =
          Some (set_parent ini (reparented self ini l n n q))).
        { apply list_lookup_insert_eq. by eapply lookup_lt_Some. }
        repeat case_decide; rewrite ?list_lookup_fmap, ?Hin, ?Hi; simpl; try done; naive_solver.
      * assert (Hin : <[n:=set_parent ini (reparented self ini l n n q)]> l' !! i =
          Some (reparented self ini l n i p)) by by rewrite list_lookup_insert_ne.
        rewrite (decide_False (P := i = n /\ _)) by naive_solver.
        repeat case_decide; rewrite ?list_lookup_fmap, ?Hin, ?Hi; simpl; try done; naive_solver.
    + assert (Hi : l' !! i = None) by by rewrite IH, Hp.
      assert (i <> n) by congruence.
      repeat case_decide; rewrite ?list_lookup_fmap, ?list_lookup_insert_ne, ?Hi by done; done.
Qed.

Definition s_adopt (self : nat) (ini : option nat) (x : slot) : slot :=
  if decide (s_parent x = Some self)
  then mkSlot (s_state x) ini (s_chan x) (s_killed x) (s_pid x) else x.

Definition s_reparent (self : nat) (ini : option nat) (l : list slot) : list slot :=
  let l' := s_adopt self ini <$> l in
  if existsb (fun x => bool_decide (s_parent x = Some self /\ s_state x = ZOMBIE)) l
  then s_wake (ChProc <$> ini) <$> l' else l'.

(** The loop in one go: every child is adopted, and init is woken if one of them
    is a zombie. *)
Lemma reparent_effect self ini l :
  length l = NPROC -> view <$> reparent self ini l = s_reparent self ini (view <$> l).
Proof.
  intros Hlen. apply list_eq. intros i. rewrite list_lookup_fmap. unfold reparent.
  rewrite reparent_prefix by lia. unfold s_reparent, reparented.
  rewrite firstn_all2 by lia.
  replace (existsb _ (view <$> l)) with (existsb (zombie_child self) l)
    by (clear; induction l as [|p l IH]; simpl; [done|]; by rewrite IH).
  assert (Hadopt : forall p, (i < NPROC)%nat ->
    view (if decide ((i < NPROC)%nat /\ parent p = Some self) then set_parent ini p else p) =
    s_adopt self ini (view p)).
  { intros p Hi. unfold s_adopt. simpl. repeat case_decide; try done; naive_solver. }
  destruct (l !! i) as [p|] eqn:Hp; simpl.
  - assert (i < NPROC)%nat by (rewrite <- Hlen; by eapply lookup_lt_Some).
    destruct (existsb _ l); rewrite !list_lookup_fmap, Hp; simpl; f_equal;
      rewrite ?view_wake, Hadopt; done.
  - destruct (existsb _ l); rewrite !list_lookup_fmap, Hp; done.
Qed.

Lemma exit_locked_effect self x k :
  length (procs k) = NPROC ->
  wlp (exit_locked self x) (fun _ k' =>
    exists y, slots (tview_of k) !! self = Some y /\
      slots (tview_of k') = alter (s_set_state ZOMBIE) self
        (s_reparent self (initproc k) (s_wake (ChProc <$> s_parent y) <$> slots (tview_of k))) /\
      v_nextpid (tview_of k') = nextpid k /\ v_initproc (tview_of k') = initproc k) k.
Proof.
  intros Hlen. unfold exit_locked. eff_step. eff_step. eff_step.
  apply wlp_modify. eff_step. apply wlp_modify. eff_step.
  apply (wlp_upd _ _ (s_set_state ZOMBIE)); [done|]. intros k1 Hk1.
  eapply wlp_mono; [apply sched_effect|]. intros b k2 ->.
  exists (view p). split; [by apply slot_of|]. rewrite Hk1.
  cbn [slots on_slot tview_of procs with_procs initproc nextpid v_nextpid v_initproc].
  split; [|by split]. rewrite reparent_effect by by rewrite length_fmap.
  f_equal. f_equal. rewrite <- !list_fmap_compose. apply list_fmap_ext.
  intros ? q _. apply view_wake.
Qed.

End Effects.
(** ** Processes and CPUs *)

(** Where a process is in the kernel. *)
Inductive kpos :=
  | Kern              (* in user code, or between the calls below *)
  | Forking (np : nat)  (* fork: slot np claimed, not yet published *)
  | Exiting           (* exit: files closed *)
  | InWait            (* wait: switched away in sleep *)
  | InSleep.          (* another sleep: switched away *)

Section System.
Context {E : Type} {KE : KernelEnv E} (forkret trapret : Z).
Implicit Types k : ktable E.

(** The table, the position of every process, and the process every CPU runs
    ([None]: its scheduler). *)
Record sys := mkSys { kt : ktable E; pos : list kpos; running : list (option nat) }.

(** CPU [c] runs process [i], which is at position [q]. *)
Definition at_pos (s : sys) (c i : nat) (q : kpos) : Prop :=
  running s !! c = Some (Some i) /\ pos s !! i = Some q.

(** A CPU inside one critical section. *)
Definition in_lock (x : cpu) : Prop := ncli x = 1 /\ iflag x = false.

(** Updates of a process's own slot outside the fields of the view ([exec],
    [open], a system call's result, ...). *)
Definition private (f : proc -> proc) : Prop := forall p, view (f p) = view p.

Inductive step : sys -> sys -> Prop :=
  | step_fork_full s c i k' :
      at_pos s c i Kern -> claim (kt s) = Ret None k' ->
      step s (mkSys k' (pos s) (running s))
  | step_fork_claim s c i np k' :
      at_pos s c i Kern -> claim (kt s) = Ret (Some np) k' ->
      step s (mkSys k' (<[i:=Forking np]> (pos s)) (running s))
  | step_fork_rest s c i np r k' :
      at_pos s c i (Forking np) -> fork_rest forkret trapret i np (kt s) = Ret r k' ->
      step s (mkSys k' (<[np:=Kern]> (<[i:=Kern]> (pos s))) (running s))
  | step_exit_files s c i k' :
      at_pos s c i Kern -> exit_files i (kt s) = Ret tt k' ->
      step s (mkSys k' (<[i:=Exiting]> (pos s)) (running s))
  | step_exit s c i x b k' :
      at_pos s c i Exiting -> exit_locked i x (kt s) = Ret b k' ->
      step s (mkSys k' (pos s) (<[c:=None]> (running s)))
  | step_wait s c i x r k' :
      at_pos s c i Kern -> in_lock x -> wait i x (kt s) = Ret (Some r) k' ->
      step s (mkSys k' (pos s) (running s))
  | step_wait_sleep s c i x k' :
      at_pos s c i Kern -> in_lock x -> wait i x (kt s) = Ret None k' ->
      step s (mkSys k' (<[i:=InWait]> (pos s)) (<[c:=None]> (running s)))
  | step_wait_again s c i x r k' :
      at_pos s c i InWait -> in_lock x ->
      (sleep_return i ;;; wait i x) (kt s) = Ret (Some r) k' ->
      step s (mkSys k' (<[i:=Kern]> (pos s)) (running s))
  | step_wait_resleep s c i x k' :
      at_pos s c i InWait -> in_lock x ->
      (sleep_return i ;;; wait i x) (kt s) = Ret None k' ->
      step s (mkSys k' (pos s) (<[c:=None]> (running s)))
  | step_sleep s c i a l x b k' :
      at_pos s c i Kern -> in_lock x ->
      sleep (Some i) (ChAddr a) (Some (LkOther l)) x (kt s) = Ret b k' ->
      step s (mkSys k' (<[i:=InSleep]> (pos s)) (<[c:=None]> (running s)))
  | step_sleep_return s c i k' :
      at_pos s c i InSleep -> sleep_return i (kt s) = Ret tt k' ->
      step s (mkSys k' (<[i:=Kern]> (pos s)) (running s))
  | step_yield s c i q x b k' :
      at_pos s c i q -> q <> InWait -> q <> InSleep -> yield i x (kt s) = Ret b k' ->
      step s (mkSys k' (pos s) (<[c:=None]> (running s)))
  | step_wakeup s ch k' :
      wakeup ch (kt s) = Ret tt k' -> step s (mkSys k' (pos s) (running s))
  | step_kill s pd r k' :
      kill pd (kt s) = Ret r k' -> step s (mkSys k' (pos s) (running s))
  | step_fault s c i k' :
      (* trap.c: a user fault marks the process *)
      at_pos s c i Kern -> upd i (set_killed true) (kt s) = Ret tt k' ->
      step s (mkSys k' (pos s) (running s))
  | step_private s c i f k' :
      at_pos s c i Kern -> private f -> upd i f (kt s) = Ret tt k' ->
      step s (mkSys k' (pos s) (running s))
  | step_growproc s c i n r k' :
      at_pos s c i Kern -> growproc i n (kt s) = Ret r k' ->
      step s (mkSys k' (pos s) (running s))
  | step_env s e :
      (* the other components and devices *)
      step s (mkSys (with_env e (kt s)) (pos s) (running s))
  | step_schedule s c from i k' :
      running s !! c = Some None -> scheduler from (kt s) = Ret (Some i) k' ->
      step s (mkSys k' (pos s) (<[c:=Some i]> (running s))).

(** [userinit] has made the first process, and every CPU has entered its
    scheduler. *)
Definition initial (s : sys) : Prop :=
  exists e code, userinit forkret trapret code (boot e) = Ret tt (kt s) /\
    pos s = replicate NPROC Kern /\ Forall (fun o => o = None) (running s).

(** ** The invariant *)

Inductive cls := CUnused | CEmbryo | CAlive | CZombie.

Definition cls_of (st : procstate) : cls :=
  match st with
  | UNUSED => CUnused
  | EMBRYO => CEmbryo
  | ZOMBIE => CZombie
  | SLEEPING | RUNNABLE | RUNNING => CAlive
  end.

Definition shape (v : tview) (i : nat) : option (cls * option nat) :=
  (fun x => (cls_of (s_state x), s_parent x)) <$> slots v !! i.

Definition forks (ps : list kpos) (q : nat) : option nat :=
  match ps !! q with Some (Forking i) => Some i | _ => None end.

(** The life cycle of the slots: an EMBRYO belongs to exactly one process in the
    middle of [fork]; every other process but init has a live parent. *)
Record tree (sh : nat -> option (cls * option nat)) (F : nat -> option nat) (ini : option nat)
    : Prop := {
  t_embryo : forall i, (exists pa, sh i = Some (CEmbryo, pa)) <-> exists q, F q = Some i;
  t_forker : forall q i, F q = Some i -> exists pa, sh q = Some (CAlive, pa);
  t_fork1 : forall q q' i, F q = Some i -> F q' = Some i -> q = q';
  t_orphan : forall i c q, sh i = Some (c, Some q) -> c = CAlive \/ c = CZombie;
  t_parent : forall i c pa, sh i = Some (c, pa) -> c = CAlive \/ c = CZombie -> ini <> Some i ->
    exists q pb, pa = Some q /\ q <> i /\ sh q = Some (CAlive, pb);
  t_init : exists i, ini = Some i /\ sh i = Some (CAlive, None)
}.

(** RUNNING means running on exactly one CPU. *)
Record runs (l : list slot) (rn : list (option nat)) : Prop := {
  r_running : forall i, (exists x, l !! i = Some x /\ s_state x = RUNNING) <->
                        exists c, rn !! c = Some (Some i);
  r_one : forall c c' i, rn !! c = Some (Some i) -> rn !! c' = Some (Some i) -> c = c'
}.

(** A process asleep in [wait] has children, none of them a zombie, and has not
    been killed. *)
Definition waits (l : list slot) : Prop :=
  forall i x j, l !! i = Some x -> s_state x = SLEEPING -> s_chan x = Some (ChProc j) ->
    j = i /\ s_killed x = false /\
    (forall m y, l !! m = Some y -> ~ s_zchild i y) /\
    (exists m y, l !! m = Some y /\ s_child i y).

Definition pinv (v : tview) (ps : list kpos) (rn : list (option nat)) : Prop :=
  length (slots v) = NPROC /\ length ps = NPROC /\
  tree (shape v) (forks ps) (v_initproc v) /\ runs (slots v) rn /\ waits (slots v).

End System.

(** ** The life cycle of the slots *)

Definition fset {A} (f : nat -> option A) (i : nat) (v : option A) (j : nat) : option A :=
  if decide (i = j) then v else f j.

Lemma fset_eq {A} (f : nat -> option A) i v : fset f i v i = v.
Proof. unfold fset. by rewrite decide_True. Qed.

Lemma fset_ne {A} (f : nat -> option A) i j v : i <> j -> fset f i v j = f j.
Proof. intros. unfold fset. by rewrite decide_False. Qed.

Section Tree.
Context (sh : nat -> option (cls * option nat)) (F : nat -> option nat) (ini : option nat).
Context (T : tree sh F ini).

Lemma tree_ext sh' F' :
  (forall i, sh' i = sh i) -> (forall q, F' q = F q) -> tree sh' F' ini.
Proof.
  intros Hs HF. destruct T. split; intros; repeat setoid_rewrite Hs; repeat setoid_rewrite HF;
    rewrite ?Hs, ?HF in *; eauto.
Qed.

Lemma forker_ne_target q i : F q = Some i -> q <> i.
Proof.
  intros HF ->. destruct (t_forker _ _ _ T _ _ HF) as [pa Ha].
  destruct (proj2 (t_embryo _ _ _ T i)) as [pb Hb]; [by exists i|]. congruence.
Qed.

Lemma embryo_no_parent i c pa : sh i = Some (c, pa) -> c = CUnused \/ c = CEmbryo -> pa = None.
Proof.
  intros Hi Hc. destruct pa as [q|]; [|done].
  destruct (t_orphan _ _ _ T _ _ _ Hi); intuition congruence.
Qed.

Lemma tree_claim np i pa pb :
  sh np = Some (CUnused, pa) -> sh i = Some (CAlive, pb) -> F i = None ->
  tree (fset sh np (Some (CEmbryo, pa))) (fset F i (Some np)) ini.
Proof.
  intros Hnp Hi HFi. assert (np <> i) by congruence.
  assert (pa = None) as -> by (eapply embryo_no_parent; eauto).
  assert (Hfree : forall q, F q <> Some np).
  { intros q Hq. destruct (proj2 (t_embryo _ _ _ T np)) as [? ?]; [by exists q|]. congruence. }
  split.
  - intros j. destruct (decide (np = j)) as [<-|Hj].
    + rewrite fset_eq. split; [intros _; exists i; by rewrite fset_eq|eauto].
    + rewrite fset_ne by done. rewrite (t_embryo _ _ _ T j). split; intros [q Hq]; exists q.
      * rewrite fset_ne; [done|congruence].
      * unfold fset in Hq. case_decide; congruence.
  - intros q j Hq. unfold fset in Hq. case_decide as E.
    + subst q. exists pb. by rewrite fset_ne.
    + destruct (t_forker _ _ _ T _ _ Hq) as [pq ?]. exists pq. by rewrite fset_ne by congruence.
  - intros q q' j. unfold fset. repeat case_decide; intros; simplify_eq; try done.
    + exfalso. by eapply Hfree.
    + exfalso. by eapply Hfree.
    + by eapply (t_fork1 _ _ _ T).
  - intros j c q. unfold fset. case_decide; [congruence|apply (t_orphan _ _ _ T)].
  - intros j c pc Hj Hc Hini. unfold fset in Hj. case_decide; [intuition congruence|].
    destruct (t_parent _ _ _ T _ _ _ Hj Hc Hini) as (q & pd & -> & ? & ?).
    exists q, pd. rewrite fset_ne by congruence. done.
  - destruct (t_init _ _ _ T) as (j & -> & Hj). exists j. rewrite fset_ne by congruence. done.
Qed.

(** A slot that leaves EMBRYO: back to UNUSED, or alive with its forker as
    parent. *)
Lemma tree_unembryo np i pa r :
  sh np = Some (CEmbryo, pa) -> F i = Some np ->
  r = (CUnused, pa) \/ r = (CAlive, Some i) ->
  tree (fset sh np (Some r)) (fset F i None) ini.
Proof.
  intros Hnp HFi Hr. pose proof (forker_ne_target _ _ HFi) as Hne.
  assert (pa = None) as -> by (eapply embryo_no_parent; eauto).
  destruct (t_forker _ _ _ T _ _ HFi) as [pi Hpi].
  split.
  - intros j. destruct (decide (np = j)) as [<-|Hj].
    + rewrite fset_eq. split; [intros [? ?]; intuition congruence|]. intros [q Hq].
      unfold fset in Hq. case_decide; [done|]. destruct (t_fork1 _ _ _ T q i np); done.
    + rewrite fset_ne by done. rewrite (t_embryo _ _ _ T j). split; intros [q Hq]; exists q.
      * rewrite fset_ne; [done|congruence].
      * unfold fset in Hq. case_decide; congruence.
  - intros q j Hq. unfold fset in Hq. case_decide; [done|].
    destruct (t_forker _ _ _ T _ _ Hq) as [pq ?]. exists pq. rewrite fset_ne; [done|congruence].
  - intros q q' j. unfold fset. repeat case_decide; try done. apply (t_fork1 _ _ _ T).
  - intros j c q. unfold fset. case_decide; [|apply (t_orphan _ _ _ T)].
    intros [= ->]. intuition congruence.
  - intros j c pc Hj Hc Hini. destruct (decide (np = j)) as [<-|].
    + rewrite fset_eq in Hj. exists i, pi. rewrite fset_ne by done. intuition congruence.
    + rewrite fset_ne in Hj by done.
      destruct (t_parent _ _ _ T _ _ _ Hj Hc Hini) as (q & pd & -> & ? & ?).
      exists q, pd. rewrite fset_ne by congruence. done.
  - destruct (t_init _ _ _ T) as (j & -> & Hj). exists j. rewrite fset_ne by congruence. done.
Qed.

Lemma tree_free i pa : sh i = Some (CZombie, pa) -> tree (fset sh i (Some (CUnused, None))) F ini.
Proof.
  intros Hi. split.
  - intros j. rewrite <- (t_embryo _ _ _ T j). unfold fset. case_decide; [subst|done].
    split; intros [? ?]; congruence.
  - intros q j Hq. destruct (t_forker _ _ _ T _ _ Hq) as [pq ?]. exists pq.
    rewrite fset_ne by congruence. done.
  - apply (t_fork1 _ _ _ T).
  - intros j c q. unfold fset. case_decide; [done|apply (t_orphan _ _ _ T)].
  - intros j c pc Hj Hc Hini. unfold fset in Hj. case_decide; [intuition congruence|].
    destruct (t_parent _ _ _ T _ _ _ Hj Hc Hini) as (q & pd & -> & ? & ?).
    exists q, pd. rewrite fset_ne by congruence. done.
  - destruct (t_init _ _ _ T) as (j & -> & Hj). exists j. rewrite fset_ne by congruence. done.
Qed.

Definition adopt_shape (i : nat) (o : option (cls * option nat)) : option (cls * option nat) :=
  match o with
  | Some (c, pa) => Some (c, if decide (pa = Some i) then ini else pa)
  | None => None
  end.

Lemma adopt_shape_Some i o c pa :
  adopt_shape i o = Some (c, pa) ->
  exists pb, o = Some (c, pb) /\ pa = if decide (pb = Some i) then ini else pb.
Proof. destruct o as [[c' pb]|]; simpl; [|done]. intros [= <- <-]. eauto. Qed.

Lemma tree_exit i pi :
  sh i = Some (CAlive, pi) -> ini <> Some i -> F i = None ->
  tree (fun j => if decide (i = j) then Some (CZombie, pi) else adopt_shape i (sh j)) F ini.
Proof.
  intros Hi Hini HFi.
  destruct (t_init _ _ _ T) as (r & Hr & Hrs). assert (r <> i) by congruence.
  assert (Hr' : adopt_shape i (sh r) = Some (CAlive, None))
    by by rewrite Hrs.
  assert (Halive : forall q pb, q <> i -> sh q = Some (CAlive, pb) ->
    exists pc, (if decide (i = q) then Some (CZombie, pi) else adopt_shape i (sh q)) = Some (CAlive, pc)).
  { intros q pb Hq Hs. rewrite decide_False, Hs by done. simpl. eauto. }
  split.
  - intros j. rewrite <- (t_embryo _ _ _ T j). case_decide as E; [subst|].
    + split; intros [? ?]; congruence.
    + destruct (sh j) as [[c pc]|]; simpl; split; intros [? ?]; simplify_eq; eauto.
  - intros q j Hq. destruct (t_forker _ _ _ T _ _ Hq) as [pq ?].
    apply (Halive q pq); [congruence|done].
  - apply (t_fork1 _ _ _ T).
  - intros j c q. case_decide as E; [intuition congruence|].
    intros (pb & Hj & Hq)%adopt_shape_Some. case_decide; subst.
    + by apply (t_orphan _ _ _ T) in Hj.
    + by apply (t_orphan _ _ _ T) in Hj.
  - intros j c pc Hj Hc Hini'. case_decide as E.
    + subst j. simplify_eq. destruct (t_parent _ _ _ T i CAlive pc) as (q & pd & -> & Hqi & Hq); auto.
      destruct (Halive q pd) as [pe ?]; [done..|]. eauto.
    + apply adopt_shape_Some in Hj as (pb & Hj & ->).
      destruct (t_parent _ _ _ T _ _ _ Hj Hc Hini') as (q & pd & -> & Hqj & Hq).
      destruct (decide (Some q = Some i)) as [[= ->]|Hqi].
      * exists r, None. split; [done|]. split; [congruence|]. by rewrite decide_False.
      * destruct (Halive q pd) as [pe ?]; [congruence|done|]. eauto.
  - exists r. split; [done|]. by rewrite decide_False.
Qed.

End Tree.

(** ** Running and waiting under changes of a slot *)

Section Slots.
Implicit Types (l : list slot) (rn : list (option nat)).

Lemma lookup_alter_inv {A} (f : A -> A) i (l : list A) j z :
  alter f i l !! j = Some z ->
  exists y, l !! j = Some y /\ z = if decide (i = j) then f y else y.
Proof.
  destruct (decide (i = j)) as [->|Hne].
  - rewrite list_lookup_alter_eq. destruct (l !! j); naive_solver.
  - rewrite list_lookup_alter_ne by done. eauto.
Qed.

Lemma lookup_alter_fwd {A} (f : A -> A) i (l : list A) j y :
  l !! j = Some y -> alter f i l !! j = Some (if decide (i = j) then f y else y).
Proof.
  intros Hj. destruct (decide (i = j)) as [->|Hne].
  - by rewrite list_lookup_alter_eq, Hj.
  - by rewrite list_lookup_alter_ne.
Qed.

Definition is_running l i : Prop := exists x, l !! i = Some x /\ s_state x = RUNNING.

Lemma runs_ext l l' rn :
  (forall i, is_running l' i <-> is_running l i) -> runs l rn -> runs l' rn.
Proof. intros H [H1 H2]. split; [|done]. intros i. rewrite <- H1. apply H. Qed.

Lemma is_running_alter f i l x j :
  l !! i = Some x ->
  is_running (alter f i l) j <-> if decide (i = j) then s_state (f x) = RUNNING else is_running l j.
Proof.
  intros Hi. unfold is_running. case_decide as E.
  - subst j. rewrite (lookup_alter_fwd _ _ _ _ _ Hi), decide_True by done. naive_solver.
  - by rewrite list_lookup_alter_ne.
Qed.

Lemma runs_alter f i l x rn :
  l !! i = Some x -> (s_state (f x) = RUNNING <-> s_state x = RUNNING) ->
  runs l rn -> runs (alter f i l) rn.
Proof.
  intros Hi Hf. apply runs_ext. intros j. rewrite (is_running_alter _ _ _ _ _ Hi).
  case_decide; [subst|done]. unfold is_running. rewrite Hf. naive_solver.
Qed.

Lemma runs_stop f i l x rn c :
  l !! i = Some x -> rn !! c = Some (Some i) -> s_state (f x) <> RUNNING ->
  runs l rn -> runs (alter f i l) (<[c:=None]> rn).
Proof.
  intros Hi Hc Hf [H1 H2]. pose proof (lookup_lt_Some _ _ _ Hc). split.
  - intros j. fold (is_running (alter f i l) j). rewrite (is_running_alter _ _ _ _ _ Hi).
    case_decide as E.
    + subst j. split; [done|]. intros [c' Hc']. apply list_lookup_insert_Some in Hc' as [?|[? Hc']];
        [naive_solver|]. destruct (H2 c c' i); done.
    + unfold is_running. rewrite H1. split; intros [c' Hc']; exists c'.
      * rewrite list_lookup_insert_ne; [done|]. congruence.
      * apply list_lookup_insert_Some in Hc' as [?|[? Hc']]; naive_solver.
  - intros c1 c2 j H3 H4. apply list_lookup_insert_Some in H3 as [?|[? H3]]; [naive_solver|].
    apply list_lookup_insert_Some in H4 as [?|[? H4]]; [naive_solver|]. eauto.
Qed.

Lemma runs_start f i l x rn c :
  l !! i = Some x -> s_state x <> RUNNING -> rn !! c = Some None -> s_state (f x) = RUNNING ->
  runs l rn -> runs (alter f i l) (<[c:=Some i]> rn).
Proof.
  intros Hi Hx Hc Hf [H1 H2]. pose proof (lookup_lt_Some _ _ _ Hc).
  assert (Hno : forall c', rn !! c' <> Some (Some i)).
  { intros c' Hc'. destruct (proj2 (H1 i)) as (y & ? & ?); [by exists c'|]. congruence. }
  split.
  - intros j. fold (is_running (alter f i l) j). rewrite (is_running_alter _ _ _ _ _ Hi).
    case_decide as E.
    + subst j. split; [|done]. intros _. exists c. by rewrite list_lookup_insert_eq.
    + unfold is_running. rewrite H1. split; intros [c' Hc']; exists c'.
      * rewrite list_lookup_insert_ne; [done|]. congruence.
      * apply list_lookup_insert_Some in Hc' as [?|[? Hc']]; naive_solver.
  - intros c1 c2 j H3 H4. apply list_lookup_insert_Some in H3, H4.
    destruct H3 as [(?&?&?)|[? H3]], H4 as [(?&?&?)|[? H4]]; simplify_eq; try done.
    + by destruct (Hno c2).
    + by destruct (Hno c1).
    + eauto.
Qed.

(** What a process asleep in [wait] relies on. *)
Definition wait_ok l (i : nat) (x : slot) : Prop :=
  forall j, s_state x = SLEEPING -> s_chan x = Some (ChProc j) ->
    j = i /\ s_killed x = false /\
    (forall m y, l !! m = Some y -> ~ s_zchild i y) /\ (exists m y, l !! m = Some y /\ s_child i y).

(** A changed slot does not disturb the waiters if it stays the child of a
    sleeping parent and does not become a zombie. *)
Lemma waits_alter f i l x :
  l !! i = Some x ->
  (forall q y, l !! q = Some y -> s_state y = SLEEPING -> s_child q x -> s_child q (f x)) ->
  (forall q, s_zchild q (f x) -> s_zchild q x) ->
  (s_state (f x) = SLEEPING -> s_parent (f x) = s_parent x) ->
  wait_ok l i (f x) -> waits l -> waits (alter f i l).
Proof.
  intros Hi Hch Hz Hc Hok W m y j Hm Hst Hcn.
  assert (Hw : j = m /\ s_killed y = false /\ (forall n z, l !! n = Some z -> ~ s_zchild m z) /\
    (exists n z, l !! n = Some z /\ s_child m z) /\
    (s_child m x -> s_child m (f x))).
  { apply lookup_alter_inv in Hm as (y0 & Hm & ->). case_decide as E.
    - subst m. assert (y0 = x) as -> by congruence.
      destruct (Hok j Hst Hcn) as (-> & ? & ? & n & z & ? & ?).
      split_and!; eauto. unfold s_child. by rewrite Hc.
    - destruct (W m y0 j Hm Hst Hcn) as (-> & ? & ? & ? & ?). split_and!; eauto. }
  destruct Hw as (-> & ? & Hnz & (n & z & Hn & Hcz) & Hkeep). split_and!; [done..| |].
  - intros n' z' (z0 & Hz0 & ->)%lookup_alter_inv. case_decide as E; [subst n'|by eapply Hnz].
    assert (z0 = x) as -> by congruence. intros Hzc%Hz. by eapply Hnz.
  - exists n. rewrite (lookup_alter_fwd _ _ _ _ _ Hn). eexists. split; [done|].
    case_decide as E; [subst n|done]. assert (z = x) as -> by congruence. auto.
Qed.

(** The table after [exit_locked]. *)
Definition exit_slots (i : nat) (ini pa : option nat) l : list slot :=
  alter (s_set_state ZOMBIE) i (s_reparent i ini (s_wake (ChProc <$> pa) <$> l)).

Definition exit_slot (i : nat) (ini pa : option nat) (zc : bool) (m : nat) (y : slot) : slot :=
  let y := s_adopt i ini (s_wake (ChProc <$> pa) y) in
  let y := if zc then s_wake (ChProc <$> ini) y else y in
  if decide (i = m) then s_set_state ZOMBIE y else y.

Lemma s_wake_fields c y :
  s_parent (s_wake c y) = s_parent y /\ s_chan (s_wake c y) = s_chan y /\
  s_killed (s_wake c y) = s_killed y /\ s_pid (s_wake c y) = s_pid y /\
  (s_state (s_wake c y) = ZOMBIE <-> s_state y = ZOMBIE) /\
  (s_state (s_wake c y) = RUNNING <-> s_state y = RUNNING) /\
  cls_of (s_state (s_wake c y)) = cls_of (s_state y) /\
  (s_state (s_wake c y) = SLEEPING <-> s_state y = SLEEPING /\ s_chan y <> c).
Proof.
  unfold s_wake. case_decide as H; simpl; [|by intuition]. destruct H as [-> ->].
  intuition congruence.
Qed.

Lemma exit_slots_lookup i ini pa l :
  exists zc : bool, (zc = true <-> exists m y, l !! m = Some y /\ s_zchild i y) /\
  forall m, exit_slots i ini pa l !! m = exit_slot i ini pa zc m <$> l !! m.
Proof.
  unfold exit_slots, s_reparent.
  set (P := fun x => bool_decide (s_parent x = Some i /\ s_state x = ZOMBIE)).
  exists (existsb P (s_wake (ChProc <$> pa) <$> l)). split.
  - rewrite existsb_exists. split.
    + intros (x & Hin & Hx%bool_decide_eq_true).
      apply list_elem_of_In, list_elem_of_lookup in Hin as [m Hm].
      rewrite list_lookup_fmap in Hm. destruct (l !! m) as [y|] eqn:Hy; simplify_eq/=.
      exists m, y. split; [done|]. unfold s_zchild.
      destruct (s_wake_fields (ChProc <$> pa) y) as (<- & _ & _ & _ & <- & _). done.
    + intros (m & y & Hm & Hy). exists (s_wake (ChProc <$> pa) y). split.
      * apply list_elem_of_In, list_elem_of_fmap. exists y. split; [done|].
        by eapply list_elem_of_lookup_2.
      * apply bool_decide_eq_true.
        destruct (s_wake_fields (ChProc <$> pa) y) as (-> & _ & _ & _ & -> & _). done.
  - intros m. unfold exit_slot. destruct (decide (i = m)) as [->|].
    + rewrite list_lookup_alter_eq. destruct (existsb _ _); rewrite !list_lookup_fmap;
        destruct (l !! m); done.
    + rewrite list_lookup_alter_ne by done. destruct (existsb _ _); rewrite !list_lookup_fmap;
        destruct (l !! m); done.
Qed.

Lemma exit_slot_fields i ini pa zc m y :
  let z := exit_slot i ini pa zc m y in
  s_parent z = (if decide (s_parent y = Some i) then ini else s_parent y) /\
  s_chan z = s_chan y /\ s_killed z = s_killed y /\ s_pid z = s_pid y /\
  (if decide (i = m) then s_state z = ZOMBIE else
     (s_state z = ZOMBIE <-> s_state y = ZOMBIE) /\
     (s_state z = RUNNING <-> s_state y = RUNNING) /\
     cls_of (s_state z) = cls_of (s_state y) /\
     (s_state z = SLEEPING -> s_state y = SLEEPING /\ s_chan y <> ChProc <$> pa /\
        (zc = true -> s_chan y <> ChProc <$> ini))).
Proof.
  unfold exit_slot. cbn zeta.
  destruct (s_wake_fields (ChProc <$> pa) y) as (H1 & H2 & H3 & H4 & H5 & H6 & H7 & H8).
  set (w := s_wake (ChProc <$> pa) y) in *.
  assert (HA : s_parent (s_adopt i ini w) = (if decide (s_parent y = Some i) then ini else s_parent y) /\
    s_chan (s_adopt i ini w) = s_chan y /\ s_killed (s_adopt i ini w) = s_killed y /\
    s_pid (s_adopt i ini w) = s_pid y /\ s_state (s_adopt i ini w) = s_state w).
  { unfold s_adopt. rewrite H1. by case_decide. }
  destruct HA as (A1 & A2 & A3 & A4 & A5).
  destruct (s_wake_fields (ChProc <$> ini) (s_adopt i ini w)) as (B1 & B2 & B3 & B4 & B5 & B6 & B7 & B8).
  rewrite A5 in *.
  destruct (decide (i = m)); destruct zc; simpl; rewrite ?A5; split_and!; try congruence;
    try tauto; intuition congruence.
Qed.

Lemma exit_runs i ini pa l x rn c :
  l !! i = Some x -> rn !! c = Some (Some i) ->
  runs l rn -> runs (exit_slots i ini pa l) (<[c:=None]> rn).
Proof.
  intros Hi Hc R. destruct (exit_slots_lookup i ini pa l) as (zc & _ & Hl).
  eapply runs_ext; [|apply (runs_stop (s_set_state ZOMBIE) i l x rn c); done].
  intros j. rewrite (is_running_alter _ _ _ _ _ Hi). unfold is_running. rewrite Hl.
  destruct (l !! j) as [y|] eqn:Hj; simpl.
  - destruct (exit_slot_fields i ini pa zc j y) as (_ & _ & _ & _ & Hst).
    case_decide as E.
    + split; [|done]. intros (z & [= <-] & Hz). congruence.
    + destruct Hst as (_ & Hr & _).
      split; intros (z & [= <-] & Hz); (eexists; split; [done|]); by apply Hr.
  - case_decide; [congruence|]. naive_solver.
Qed.

Lemma exit_waits i ini l x :
  l !! i = Some x -> s_state x <> SLEEPING -> s_parent x <> Some i -> waits l ->
  waits (exit_slots i ini (s_parent x) l).
Proof.
  intros Hi Hrun Hself W. destruct (exit_slots_lookup i ini (s_parent x) l) as (zc & Hzc & Hl).
  assert (Hinv : forall m z, exit_slots i ini (s_parent x) l !! m = Some z ->
    exists y, l !! m = Some y /\ z = exit_slot i ini (s_parent x) zc m y).
  { intros m z Hm. rewrite Hl in Hm. destruct (l !! m); naive_solver. }
  intros q z j Hq Hst Hch. apply Hinv in Hq as (y & Hq & ->).
  destruct (exit_slot_fields i ini (s_parent x) zc q y) as (_ & Hc & Hk & _ & Hs).
  case_decide as E; [congruence|]. destruct Hs as (_ & _ & _ & Hs).
  destruct (Hs Hst) as (Hy & Hpa & Hini). rewrite Hc in Hch.
  destruct (W q y j Hq Hy Hch) as (-> & Hkl & Hnz & n & w & Hn & Hw).
  split_and!; [done|congruence| |].
  - intros m z (u & Hu & ->)%Hinv [Hzp Hzs].
    destruct (exit_slot_fields i ini (s_parent x) zc m u) as (Hp & _ & _ & _ & Hs').
    rewrite Hp in Hzp. case_decide as E'.
    + subst m. assert (u = x) as -> by congruence. rewrite decide_False in Hzp by done.
      apply Hpa. by rewrite Hch, Hzp.
    + destruct Hs' as (Hz & _). apply Hz in Hzs. destruct (decide (s_parent u = Some i)) as [Hui|Hui].
      * apply Hini; [|by rewrite Hzp]. apply Hzc. exists m, u. by split.
      * by eapply Hnz.
  - exists n. rewrite Hl, Hn. simpl. eexists. split; [done|]. unfold s_child.
    destruct (exit_slot_fields i ini (s_parent x) zc n w) as (-> & _).
    rewrite decide_False; [done|]. unfold s_child in Hw. intros Hw'.
    assert (q = i) by congruence. done.
Qed.

Lemma exit_shape i ini pa l nx x m :
  l !! i = Some x ->
  shape (mkView (exit_slots i ini pa l) nx ini) m =
    if decide (i = m) then Some (CZombie, if decide (s_parent x = Some i) then ini else s_parent x)
    else adopt_shape ini i (shape (mkView l nx ini) m).
Proof.
  intros Hi. destruct (exit_slots_lookup i ini pa l) as (zc & _ & Hl).
  unfold shape. simpl. rewrite Hl. destruct (l !! m) as [y|] eqn:Hm; simpl.
  - destruct (exit_slot_fields i ini pa zc m y) as (-> & _ & _ & _ & Hs).
    destruct (decide (i = m)) as [->|]; [|destruct Hs as (_ & _ & -> & _); done].
    rewrite Hs. by replace y with x by congruence.
  - rewrite decide_False by congruence. done.
Qed.

End Slots.
(** ** The invariant is preserved *)

Section Preservation.
Implicit Types (v : tview) (ps : list kpos) (rn : list (option nat)).

Definition fork_of (q : kpos) : option nat := if q is Forking i then Some i else None.

Lemma forks_insert ps i q j :
  (i < length ps)%nat -> forks (<[i:=q]> ps) j = fset (forks ps) i (fork_of q) j.
Proof.
  intros Hi. unfold forks, fset. case_decide as E; [subst j|].
  - rewrite list_lookup_insert_eq by done. by destruct q.
  - by rewrite list_lookup_insert_ne.
Qed.

Lemma forks_insert_same ps i q q' j :
  ps !! i = Some q -> fork_of q = fork_of q' -> forks (<[i:=q']> ps) j = forks ps j.
Proof.
  intros Hi Hq. rewrite forks_insert by by eapply lookup_lt_Some.
  unfold fset. case_decide; [subst j|done]. unfold forks. rewrite Hi. by destruct q, q'.
Qed.

Lemma shape_alter v i f x nx ini j :
  slots v !! i = Some x ->
  shape (mkView (alter f i (slots v)) nx ini) j = fset (shape v) i (Some (cls_of (s_state (f x)), s_parent (f x))) j.
Proof.
  intros Hi. unfold shape, fset. simpl. case_decide as E.
  - subst j. by rewrite list_lookup_alter_eq, Hi.
  - by rewrite list_lookup_alter_ne.
Qed.

Lemma pinv_running v ps rn c i :
  pinv v ps rn -> rn !! c = Some (Some i) ->
  exists x, slots v !! i = Some x /\ s_state x = RUNNING /\ shape v i = Some (CAlive, s_parent x).
Proof.
  intros (_ & _ & _ & R & _) Hc. destruct (proj2 (r_running _ _ R i)) as (x & Hx & Hst); [eauto|].
  exists x. split_and!; [done..|]. unfold shape. rewrite Hx. simpl. by rewrite Hst.
Qed.

(** A slot that changes without entering, leaving or dying. *)
Lemma pinv_alive f i x v ps ps' rn rn' :
  slots v !! i = Some x ->
  cls_of (s_state (f x)) = cls_of (s_state x) -> s_parent (f x) = s_parent x ->
  (forall q, forks ps' q = forks ps q) -> length ps' = length ps ->
  runs (alter f i (slots v)) rn' -> wait_ok (slots v) i (f x) ->
  pinv v ps rn -> pinv (on_slot i f v) ps' rn'.
Proof.
  intros Hi Hcls Hpar HF Hlen HR Hok (H1 & H2 & T & R & W).
  split_and!; [by simpl; rewrite length_alter|congruence| |done|].
  - eapply tree_ext; [exact T| |done]. intros j. unfold on_slot. rewrite (shape_alter _ _ _ _ _ _ _ Hi).
    unfold fset. case_decide; [subst j|done]. unfold shape. by rewrite Hi, Hcls, Hpar.
  - simpl. eapply waits_alter; eauto; unfold s_child, s_zchild; rewrite ?Hpar; try done.
    intros q [? Hz]. split; [done|]. rewrite Hz in Hcls. by destruct (s_state x).
Qed.

Lemma wait_ok_awake l i x : s_state x <> SLEEPING -> wait_ok l i x.
Proof. intros ? j ?. done. Qed.

Lemma pinv_same v ps ps' rn :
  (forall q, forks ps' q = forks ps q) -> length ps' = length ps ->
  pinv v ps rn -> pinv v ps' rn.
Proof.
  intros HF Hlen (H1 & H2 & T & R & W). split_and!; [done|congruence| |done..].
  by eapply tree_ext.
Qed.

Lemma pinv_claim v ps rn c i np x nx :
  rn !! c = Some (Some i) -> ps !! i = Some Kern -> slots v !! np = Some x -> s_state x = UNUSED ->
  pinv v ps rn ->
  pinv (mkView (alter (fun x => mkSlot EMBRYO (s_parent x) (s_chan x) (s_killed x) nx) np (slots v))
          (s32 (nx + 1)) (v_initproc v))
    (<[i:=Forking np]> ps) rn.
Proof.
  intros Hc Hi Hnp Hst P. destruct (pinv_running _ _ _ _ _ P Hc) as (y & Hy & Hrun & Hsh).
  destruct P as (H1 & H2 & T & R & W).
  split_and!; simpl; [by rewrite length_alter|by rewrite length_insert| | |].
  - eapply tree_ext; [eapply (tree_claim _ _ _ T np i (s_parent x) (s_parent y))| |].
    + unfold shape. rewrite Hnp. simpl. by rewrite Hst.
    + done.
    + unfold forks. by rewrite Hi.
    + intros j. unfold on_slot. by erewrite shape_alter by done.
    + intros q. rewrite forks_insert by by eapply lookup_lt_Some. done.
  - eapply runs_alter; [done| |done]. simpl. by rewrite Hst.
  - eapply waits_alter; [done|..|by apply wait_ok_awake|done]; simpl; try done.
    intros q [_ ?]. done.
Qed.

Lemma pinv_unembryo v ps rn c i np f x :
  rn !! c = Some (Some i) -> ps !! i = Some (Forking np) -> slots v !! np = Some x ->
  (f x = s_set_state UNUSED x \/ f x = s_publish i x) ->
  pinv v ps rn -> pinv (on_slot np f v) (<[np:=Kern]> (<[i:=Kern]> ps)) rn.
Proof.
  intros Hc Hi Hnp Hf P. destruct (pinv_running _ _ _ _ _ P Hc) as (y & Hy & Hrun & Hsh).
  destruct P as (H1 & H2 & T & R & W).
  assert (HF : forks ps i = Some np) by (unfold forks; by rewrite Hi).
  pose proof (forker_ne_target _ _ _ T _ _ HF) as Hne.
  destruct (proj2 (t_embryo _ _ _ T np)) as [pa Hpa]; [by exists i|].
  assert (Hx : cls_of (s_state x) = CEmbryo /\ s_parent x = pa).
  { unfold shape in Hpa. rewrite Hnp in Hpa. by simplify_eq/=. }
  destruct Hx as [Hcls <-].
  assert (HFnp : forks ps np = None).
  { destruct (forks ps np) eqn:E; [|done]. destruct (t_forker _ _ _ T _ _ E). congruence. }
  assert (s_state x = EMBRYO) as Hst by by destruct (s_state x).
  assert (s_parent x = None) as Hnopar by (eapply (embryo_no_parent _ _ _ T); eauto).
  split_and!; simpl; [by rewrite length_alter|by rewrite !length_insert| | |].
  - eapply tree_ext; [eapply (tree_unembryo _ _ _ T np i (s_parent x)
      (cls_of (s_state (f x)), s_parent (f x))); [done..|]| |].
    + destruct Hf as [-> | ->]; [by left|by right].
    + intros j. unfold on_slot. by erewrite shape_alter by done.
    + pose proof (lookup_lt_Some _ _ _ Hi). pose proof (lookup_lt_Some _ _ _ Hnp).
      intros q. rewrite forks_insert by (rewrite length_insert; lia).
      unfold fset at 1. case_decide; [subst q|by rewrite forks_insert].
      rewrite fset_ne by done. by rewrite HFnp.
  - eapply runs_alter; [done| |done]. destruct Hf as [-> | ->]; simpl; by rewrite Hst.
  - eapply waits_alter; [done|..|apply wait_ok_awake|done]; unfold s_child, s_zchild; rewrite ?Hnopar;
      destruct Hf as [-> | ->]; simpl; try done; intros q [_ ?]; done.
Qed.

Lemma pinv_free v ps rn c i m x :
  rn !! c = Some (Some i) -> slots v !! m = Some x -> s_zchild i x ->
  pinv v ps rn -> pinv (on_slot m s_free v) ps rn.
Proof.
  intros Hc Hm [Hp Hz] P. destruct (pinv_running _ _ _ _ _ P Hc) as (y & Hy & Hrun & Hsh).
  destruct P as (H1 & H2 & T & R & W).
  split_and!; simpl; [by rewrite length_alter|done| | |].
  - eapply tree_ext; [eapply (tree_free _ _ _ T m (s_parent x))| |done].
    + unfold shape. rewrite Hm. simpl. by rewrite Hz.
    + intros j. unfold on_slot. by erewrite shape_alter by done.
  - eapply runs_alter; [done| |done]. simpl. by rewrite Hz.
  - eapply waits_alter; [done|..|by apply wait_ok_awake|done]; unfold s_child, s_zchild; simpl; try done.
    + intros q z Hq Hs Hxq. rewrite Hp in Hxq. assert (q = i) by congruence. congruence.
    + naive_solver.
Qed.

Lemma pinv_exit v ps rn c i x :
  rn !! c = Some (Some i) -> ps !! i = Some Exiting -> slots v !! i = Some x ->
  v_initproc v <> Some i -> pinv v ps rn ->
  pinv (mkView (exit_slots i (v_initproc v) (s_parent x) (slots v)) (v_nextpid v) (v_initproc v))
    ps (<[c:=None]> rn).
Proof.
  intros Hc Hi Hx Hini P. destruct (pinv_running _ _ _ _ _ P Hc) as (y & Hy & Hrun & Hsh).
  assert (y = x) as -> by congruence. destruct P as (H1 & H2 & T & R & W).
  assert (Hself : s_parent x <> Some i).
  { destruct (t_parent _ _ _ T _ _ _ Hsh (or_introl eq_refl) Hini) as (q & ? & -> & ? & ?).
    congruence. }
  split_and!; simpl; [|done| | |].
  - unfold exit_slots, s_reparent. rewrite length_alter.
    destruct (existsb _ _); by rewrite !length_fmap.
  - eapply tree_ext; [eapply (tree_exit _ _ _ T i (s_parent x)); [done..|]| |done].
    + unfold forks. by rewrite Hi.
    + intros j. rewrite (exit_shape _ _ _ _ _ x) by done.
      rewrite (decide_False (P := s_parent x = Some i)) by done. done.
  - by eapply exit_runs.
  - apply exit_waits; try done. congruence.
Qed.

Lemma pinv_wake v ps rn c :
  pinv v ps rn -> pinv (mkView (s_wake c <$> slots v) (v_nextpid v) (v_initproc v)) ps rn.
Proof.
  intros (H1 & H2 & T & R & W).
  assert (Hinv : forall j z, (s_wake c <$> slots v) !! j = Some z ->
    exists y, slots v !! j = Some y /\ z = s_wake c y).
  { intros j z. rewrite list_lookup_fmap. destruct (slots v !! j); naive_solver. }
  split_and!; simpl; [by rewrite length_fmap|done| | |].
  - eapply tree_ext; [exact T| |done]. intros j. unfold shape. simpl. rewrite list_lookup_fmap.
    destruct (slots v !! j) as [y|]; simpl; [|done].
    destruct (s_wake_fields c y) as (-> & _ & _ & _ & _ & _ & -> & _). done.
  - eapply runs_ext; [|exact R]. intros j. unfold is_running. rewrite list_lookup_fmap.
    destruct (slots v !! j) as [y|]; simpl; [|naive_solver].
    destruct (s_wake_fields c y) as (_ & _ & _ & _ & _ & Hr & _).
    split; intros (z & [= <-] & Hz); (eexists; split; [done|]); by apply Hr.
  - intros i z j (y & Hy & ->)%Hinv Hs Hc.
    destruct (s_wake_fields c y) as (_ & Hch & Hk & _ & _ & _ & _ & Hsl).
    apply Hsl in Hs as [Hs _]. rewrite Hch in Hc. rewrite Hk.
    destruct (W _ _ _ Hy Hs Hc) as (-> & ? & Hnz & n & w & Hn & Hw). split_and!; [done..| |].
    + intros m u (y' & Hy' & ->)%Hinv [Hp Hz].
      destruct (s_wake_fields c y') as (Hp' & _ & _ & _ & Hz' & _).
      apply (Hnz m y' Hy'). split; [congruence|by apply Hz'].
    + exists n, (s_wake c w). rewrite list_lookup_fmap, Hn. split; [done|].
      destruct (s_wake_fields c w) as (Hp' & _). unfold s_child. congruence.
Qed.

End Preservation.
(** ** The life cycle of a process, abstractly

    [trans] says what may happen to the table at all, without the code: apart
    from claiming a slot, every step of the system is a sequence of these. *)

Record astate := mkA { a_view : tview; a_pos : list kpos; a_running : list (option nat) }.

Definition abs {E} (s : @sys E) : astate := mkA (tview_of (kt s)) (pos s) (running s).

Definition same_forks (ini : option nat) (ps ps' : list kpos) : Prop :=
  (forall q, forks ps' q = forks ps q) /\ length ps' = length ps /\
  (forall i, ps' !! i = Some Exiting -> ps !! i = Some Exiting \/ ini <> Some i).

Inductive trans : astate -> astate -> Prop :=
  | tr_pos v ps ps' rn :
      same_forks (v_initproc v) ps ps' -> trans (mkA v ps rn) (mkA v ps' rn)
  | tr_alive f i x v ps ps' rn rn' :
      (* running, preempted, asleep, woken, killed *)
      slots v !! i = Some x ->
      cls_of (s_state (f x)) = cls_of (s_state x) -> s_parent (f x) = s_parent x ->
      s_pid (f x) = s_pid x -> same_forks (v_initproc v) ps ps' ->
      (runs (slots v) rn -> runs (alter f i (slots v)) rn') ->
      (waits (slots v) -> wait_ok (slots v) i (f x)) ->
      trans (mkA v ps rn) (mkA (on_slot i f v) ps' rn')
  | tr_embryo c i np f x v ps rn :
      (* the claimed slot is published or given back *)
      rn !! c = Some (Some i) -> ps !! i = Some (Forking np) -> slots v !! np = Some x ->
      (f x = s_set_state UNUSED x \/ f x = s_publish i x) ->
      trans (mkA v ps rn) (mkA (on_slot np f v) (<[np:=Kern]> (<[i:=Kern]> ps)) rn)
  | tr_free c i m x v ps rn :
      (* a running parent frees its zombie child *)
      rn !! c = Some (Some i) -> slots v !! m = Some x -> s_zchild i x ->
      trans (mkA v ps rn) (mkA (on_slot m s_free v) ps rn)
  | tr_exit c i x v ps rn :
      rn !! c = Some (Some i) -> ps !! i = Some Exiting -> slots v !! i = Some x ->
      trans (mkA v ps rn)
        (mkA (mkView (exit_slots i (v_initproc v) (s_parent x) (slots v)) (v_nextpid v)
                (v_initproc v)) ps (<[c:=None]> rn))
  | tr_wake ch v ps rn :
      trans (mkA v ps rn)
        (mkA (mkView (s_wake ch <$> slots v) (v_nextpid v) (v_initproc v)) ps rn).

Definition ainv (a : astate) : Prop :=
  pinv (a_view a) (a_pos a) (a_running a) /\
  forall i, a_pos a !! i = Some Exiting -> v_initproc (a_view a) <> Some i.

Lemma trans_ainv a a' : trans a a' -> ainv a -> ainv a'.
Proof.
  destruct 1 as [v ps ps' rn (HF & HL & HE)|f i x v ps ps' rn rn' ???? (HF & HL & HE)|
    c i np f x v ps rn Hc Hi Hnp Hf|c i m x v ps rn|c i x v ps rn|ch v ps rn];
    intros [P X]; simpl in *; (split; simpl; [|]).
  - by eapply pinv_same.
  - intros i Hi. destruct (HE i Hi); auto.
  - destruct P as (? & ? & ? & R & W). eapply pinv_alive; eauto. by split_and!.
  - intros j Hj. destruct (HE j Hj); auto.
  - by eapply pinv_unembryo.
  - intros j [(_ & [=] & _)|[_ Hj]]%list_lookup_insert_Some.
    apply list_lookup_insert_Some in Hj as [(_ & [=] & _)|[_ Hj]]. eauto.
  - by eapply pinv_free.
  - eauto.
  - eapply pinv_exit; eauto.
  - eauto.
  - by apply pinv_wake.
  - eauto.
Qed.

(** Process ids of the slots in use are distinct and below [nextpid]. *)
Definition pids (v : tview) : Prop :=
  1 <= v_nextpid v /\
  (forall i x, slots v !! i = Some x -> s_state x <> UNUSED -> 1 <= s_pid x < v_nextpid v) /\
  (forall i j x y, slots v !! i = Some x -> slots v !! j = Some y ->
     s_state x <> UNUSED -> s_state y <> UNUSED -> s_pid x = s_pid y -> i = j).

Lemma pids_shrink v v' :
  v_nextpid v' = v_nextpid v ->
  (forall i x', slots v' !! i = Some x' -> s_state x' <> UNUSED ->
     exists x, slots v !! i = Some x /\ s_state x <> UNUSED /\ s_pid x = s_pid x') ->
  pids v -> pids v'.
Proof.
  intros Hn Hs (H0 & H1 & H2). split_and!; [lia| |].
  - intros i x' Hi Hu. destruct (Hs i x' Hi Hu) as (x & ? & ? & <-). rewrite Hn. eauto.
  - intros i j x' y' Hi Hj Hx Hy Heq.
    destruct (Hs i x' Hi Hx) as (x & ? & ? & ?), (Hs j y' Hj Hy) as (y & ? & ? & ?).
    eapply (H2 i j x y); eauto. congruence.
Qed.

Lemma pids_alter f i x v :
  slots v !! i = Some x -> (s_state (f x) <> UNUSED -> s_state x <> UNUSED /\ s_pid (f x) = s_pid x) ->
  pids v -> pids (on_slot i f v).
Proof.
  intros Hi Hf. apply pids_shrink; [done|]. intros j y (z & Hz & ->)%lookup_alter_inv.
  case_decide; [subst j|eauto]. assert (z = x) as -> by congruence. intros [? ?]%Hf. eauto.
Qed.

Lemma cls_unused a b : cls_of a = cls_of b -> a <> UNUSED -> b <> UNUSED.
Proof. by destruct a, b. Qed.

Lemma trans_pids a a' :
  trans a a' -> ainv a -> pids (a_view a) ->
  pids (a_view a') /\ v_nextpid (a_view a') = v_nextpid (a_view a).
Proof.
  destruct 1 as [v ps ps' rn|f i x v ps ps' rn rn' Hi Hcls ? Hpid|
    c i np f x v ps rn Hc Hi Hnp Hf|c i m x v ps rn Hc Hm [? Hz]|c i x v ps rn Hc Hi Hx|ch v ps rn];
    intros [P X] HP; simpl in *; (split; [|done]).
  - done.
  - eapply pids_alter; [done| |done]. eauto using cls_unused.
  - eapply pids_alter; [done| |done].
    assert (Hne : s_state x <> UNUSED).
    { destruct P as (_ & _ & T & _). destruct (proj2 (t_embryo _ _ _ T np)) as [pa Hpa].
      - exists i. unfold forks. by rewrite Hi.
      - unfold shape in Hpa. rewrite Hnp in Hpa. simpl in Hpa. intros Hs. by rewrite Hs in Hpa. }
    destruct Hf as [-> | ->]; done.
  - eapply pids_alter; [done| |done]. done.
  - eapply pids_shrink; [| |exact HP]; [done|]. intros j z. simpl.
    destruct (exit_slots_lookup i (v_initproc v) (s_parent x) (slots v)) as (zc & _ & ->).
    destruct (slots v !! j) as [y|] eqn:Hy; [|done]. simpl. intros [= <-].
    destruct (exit_slot_fields i (v_initproc v) (s_parent x) zc j y) as (_ & _ & _ & -> & Hs).
    exists y. split_and!; [done| |done]. case_decide as E.
    + subst j. destruct (pinv_running _ _ _ _ _ P Hc) as (w & ? & ? & _). congruence.
    + destruct Hs as (_ & _ & Hs & _). by eapply cls_unused.
  - eapply pids_shrink; [| |exact HP]; [done|]. intros j z. simpl. rewrite list_lookup_fmap.
    destruct (slots v !! j) as [y|] eqn:Hy; [|done]. simpl. intros [= <-].
    destruct (s_wake_fields ch y) as (_ & _ & _ & -> & _ & _ & Hs & _).
    exists y. split_and!; [done| |done]. by eapply cls_unused.
Qed.

Section Refinement.
Context {E : Type} {KE : KernelEnv E} (forkret trapret : Z).
Implicit Types s : @sys E.

(** The one step that is not a [trans]: [allocproc] claims a slot. *)
Definition claims (a a' : astate) : Prop :=
  exists c i np x, a_running a !! c = Some (Some i) /\ a_pos a !! i = Some Kern /\
    slots (a_view a) !! np = Some x /\ s_state x = UNUSED /\
    a' = mkA (mkView (alter (fun x => mkSlot EMBRYO (s_parent x) (s_chan x) (s_killed x)
                                        (v_nextpid (a_view a))) np (slots (a_view a)))
                (s32 (v_nextpid (a_view a) + 1)) (v_initproc (a_view a)))
             (<[i:=Forking np]> (a_pos a)) (a_running a).

Lemma same_forks_refl ini ps : same_forks ini ps ps.
Proof. split_and!; auto. Qed.

Lemma same_forks_insert ini ps i q q' :
  ps !! i = Some q -> fork_of q = fork_of q' -> (q' = Exiting -> ini <> Some i) ->
  same_forks ini ps (<[i:=q']> ps).
Proof.
  intros Hi Hq He. split_and!.
  - intros j. by eapply forks_insert_same.
  - by rewrite length_insert.
  - intros j [(-> & -> & _)|[_ Hj]]%list_lookup_insert_Some; auto.
Qed.

Lemma runs_slot s c i :
  ainv (abs s) -> running s !! c = Some (Some i) ->
  exists x, slots (tview_of (kt s)) !! i = Some x /\ s_state x = RUNNING.
Proof.
  intros [P _] Hc. destruct (pinv_running _ _ _ _ _ P Hc) as (x & ? & ? & _). eauto.
Qed.

(** A change of the running process's own slot. *)
Lemma trans_self f i x v ps ps' rn :
  slots v !! i = Some x -> s_state x = RUNNING -> s_state (f x) = RUNNING ->
  s_parent (f x) = s_parent x -> s_pid (f x) = s_pid x -> same_forks (v_initproc v) ps ps' ->
  trans (mkA v ps rn) (mkA (on_slot i f v) ps' rn).
Proof.
  intros Hx Hr Hr' Hp Hi HF. eapply (tr_alive f i x); try done.
  - by rewrite Hr, Hr'.
  - intros R. eapply runs_alter; [done| |done]. by rewrite Hr, Hr'.
  - intros _. apply wait_ok_awake. congruence.
Qed.

(** A switch away from the running process. *)
Lemma trans_switch f i x v ps ps' rn c :
  slots v !! i = Some x -> s_state x = RUNNING -> rn !! c = Some (Some i) ->
  s_state (f x) <> RUNNING -> cls_of (s_state (f x)) = CAlive ->
  s_parent (f x) = s_parent x -> s_pid (f x) = s_pid x -> same_forks (v_initproc v) ps ps' ->
  (waits (slots v) -> wait_ok (slots v) i (f x)) ->
  trans (mkA v ps rn) (mkA (on_slot i f v) ps' (<[c:=None]> rn)).
Proof.
  intros Hx Hr Hc Hn Hcls Hp Hi HF Hw. eapply (tr_alive f i x); try done.
  - by rewrite Hr, Hcls.
  - intros R. by eapply runs_stop.
Qed.

(** One round of [wait], from a state whose view is [v]. *)
Lemma wait_trans i x v ps ps' rn c r (k k' : ktable E) :
  wait i x k = Ret r k' -> tview_of k = v -> rn !! c = Some (Some i) ->
  (exists y, slots v !! i = Some y /\ s_state y = RUNNING) -> same_forks (v_initproc v) ps ps' ->
  rtc trans (mkA v ps rn)
    (mkA (tview_of k') ps' (if r is Some _ then rn else <[c:=None]> rn)).
Proof.
  intros Hw <- Hc (y & Hy & Hrun) HF. pose proof (wlp_elim _ _ _ _ _ (wait_effect i x k) Hw) as He.
  destruct r as [r|]; cbn beta iota in He |- *.
  - destruct He as [-> |(m & z & Hm & Hz & ->)].
    + apply rtc_once. by apply tr_pos.
    + eapply rtc_l; [by apply tr_pos|]. apply rtc_once. by eapply tr_free.
  - destruct He as ((z & Hz & Hk) & Hnz & Hch & ->). apply rtc_once.
    assert (z = y) as -> by congruence.
    eapply trans_switch; try done. intros _ j _ [= <-]. split_and!; [done..| |done].
    intros m u Hu. by eapply Forall_lookup_1 in Hnz.
Qed.

Lemma view_eta v : mkView (slots v) (v_nextpid v) (v_initproc v) = v.
Proof. by destruct v. Qed.

Lemma claim_step s c i np k' :
  at_pos s c i Kern -> claim (kt s) = Ret (Some np) k' ->
  claims (abs s) (abs (mkSys k' (<[i:=Forking np]> (pos s)) (running s))).
Proof.
  intros [Hc Hi] Hk. pose proof (wlp_elim _ _ _ _ _ (claim_effect (kt s)) Hk) as He.
  cbn beta iota in He. destruct He as ((x & Hx & Hst) & Hs & Hn & Hini).
  exists c, i, np, x. split_and!; [done..|]. unfold abs. cbn [kt pos running a_view a_pos a_running].
  rewrite <- (view_eta (tview_of k')), Hs, Hn, Hini. done.
Qed.

Lemma sleep_step s c i ch l x b k' :
  at_pos s c i Kern -> ainv (abs s) -> (forall j, ch <> ChProc j) ->
  sleep (Some i) ch (Some l) x (kt s) = Ret b k' ->
  trans (abs s) (abs (mkSys k' (<[i:=InSleep]> (pos s)) (<[c:=None]> (running s)))).
Proof.
  intros [Hc Hi] A Hch Hk. destruct (runs_slot s c i A Hc) as (y & Hy & Hrun).
  pose proof (wlp_elim _ _ _ _ _ (sleep_effect i ch (Some l) x (kt s)) Hk) as He.
  unfold abs. simpl pos. simpl running. cbn [kt]. rewrite He.
  eapply trans_switch; try done; [by eapply same_forks_insert|].
  intros _ j _ [= ->]. by destruct (Hch j).
Qed.

Lemma kill_step s pd r k' :
  kill pd (kt s) = Ret r k' -> ainv (abs s) ->
  rtc trans (abs s) (abs (mkSys k' (pos s) (running s))).
Proof.
  intros Hk A. destruct (wlp_elim _ _ _ _ _ (kill_effect pd (kt s)) Hk) as
    [[_ ->]|(_ & i & x & Hx & _ & He)].
  - by destruct s.
  - apply rtc_once. unfold abs. cbn [kt pos running]. rewrite He.
    eapply (tr_alive _ i x); simpl; try done.
    + by case_decide as Hst; [rewrite Hst|].
    + apply same_forks_refl.
    + intros R. eapply runs_alter; [done| |done]. simpl. case_decide as Hst; [by rewrite Hst|done].
    + intros _. apply wait_ok_awake. simpl. by case_decide.
Qed.

Lemma schedule_step s c from i k' :
  running s !! c = Some None -> scheduler from (kt s) = Ret (Some i) k' -> ainv (abs s) ->
  trans (abs s) (abs (mkSys k' (pos s) (<[c:=Some i]> (running s)))).
Proof.
  intros Hc Hk A. pose proof (wlp_elim _ _ _ _ _ (scheduler_effect from (kt s)) Hk) as He.
  cbn beta iota in He. destruct He as ((x & Hx & Hst) & He).
  unfold abs. cbn [kt pos running]. rewrite He. eapply (tr_alive _ i x); simpl; try done.
  - by rewrite Hst.
  - apply same_forks_refl.
  - intros R. eapply runs_start; try done. congruence.
Qed.

Lemma exit_step s c i x b k' :
  at_pos s c i Exiting -> exit_locked i x (kt s) = Ret b k' -> ainv (abs s) ->
  trans (abs s) (abs (mkSys k' (pos s) (<[c:=None]> (running s)))).
Proof.
  intros [Hc Hi] Hk A.
  assert (Hlen : length (procs (kt s)) = NPROC).
  { destruct A as [(Hl & _) _]. simpl in Hl. by rewrite length_fmap in Hl. }
  destruct (wlp_elim _ _ _ _ _ (exit_locked_effect i x (kt s) Hlen) Hk) as (y & Hy & Hs & Hn & Hini).
  unfold abs. cbn [kt pos running]. rewrite <- (view_eta (tview_of k')), Hs, Hn, Hini.
  by apply (tr_exit c i y (tview_of (kt s))).
Qed.

Lemma fork_rest_step s c i np r k' :
  at_pos s c i (Forking np) -> fork_rest forkret trapret i np (kt s) = Ret r k' -> ainv (abs s) ->
  trans (abs s) (abs (mkSys k' (<[np:=Kern]> (<[i:=Kern]> (pos s))) (running s))).
Proof.
  intros [Hc Hi] Hk A.
  assert (Hnp : exists x, slots (tview_of (kt s)) !! np = Some x).
  { destruct A as [(_ & _ & T & _) _].
    destruct (proj2 (t_embryo _ _ _ T np)) as [pa Hpa].
    - exists i. unfold forks. simpl. by rewrite Hi.
    - unfold shape in Hpa. simpl a_view in Hpa.
      destruct (slots (tview_of (kt s)) !! np); [eauto|done]. }
  destruct Hnp as [x Hx].
  destruct (wlp_elim _ _ _ _ _ (fork_rest_effect forkret trapret i np (kt s)) Hk) as
    [[_ He]|(y & Hy & _ & He)]; unfold abs; cbn [kt pos running]; rewrite He;
    eapply (tr_embryo c i np _ x); eauto.
Qed.

Lemma wait_again_step s c i x ps' r k' :
  at_pos s c i InWait -> ainv (abs s) -> (sleep_return i ;;; wait i x) (kt s) = Ret r k' ->
  same_forks (initproc (kt s)) (pos s) ps' ->
  rtc trans (abs s) (abs (mkSys k' ps' (if r is Some _ then running s else <[c:=None]> (running s)))).
Proof.
  intros [Hc Hi] A Hk HF. destruct (runs_slot s c i A Hc) as (y & Hy & Hrun).
  unfold bind in Hk. destruct (sleep_return i (kt s)) as [[] k1| |] eqn:H1; [|done..].
  pose proof (wlp_elim _ _ _ _ _ (sleep_return_effect i (kt s)) H1) as He.
  eapply rtc_l; [eapply (trans_self s_unchan i y); eauto; apply same_forks_refl|].
  eapply wait_trans; eauto; [|apply same_forks_refl]. exists (s_unchan y). split; [|done]. simpl.
  rewrite (lookup_alter_fwd _ _ _ _ _ Hy). by rewrite decide_True.
Qed.

(** Every step of the system claims a slot or is a sequence of life-cycle
    transitions. *)
Lemma step_trans s s' :
  step forkret trapret s s' -> ainv (abs s) ->
  claims (abs s) (abs s') \/ rtc trans (abs s) (abs s').
Proof.
  intros Hstep A.
  assert (Hown : forall c i, running s !! c = Some (Some i) ->
    exists x, slots (tview_of (kt s)) !! i = Some x /\ s_state x = RUNNING)
    by (intros; by eapply runs_slot).
  destruct Hstep as [s c i k' [Hc Hi] Hk|s c i np k' Hp Hk|s c i np r k' Hp Hk|s c i k' [Hc Hi] Hk|
    s c i x b k' Hp Hk|s c i x r k' [Hc Hi] Hl Hk|s c i x k' [Hc Hi] Hl Hk|
    s c i x r k' [Hc Hi] Hl Hk|s c i x k' [Hc Hi] Hl Hk|s c i a l x b k' Hp Hl Hk|
    s c i k' [Hc Hi] Hk|s c i q x b k' [Hc Hi] Hq1 Hq2 Hk|s ch k' Hk|s pd r k' Hk|
    s c i k' [Hc Hi] Hk|s c i f k' [Hc Hi] Hf Hk|s c i n r k' [Hc Hi] Hk|s e|
    s c from i k' Hc Hk].
  - right. pose proof (wlp_elim _ _ _ _ _ (claim_effect (kt s)) Hk) as [He _].
    unfold abs. cbn [kt pos running]. by rewrite He.
  - left. by eapply claim_step.
  - right. apply rtc_once. by eapply fork_rest_step.
  - right. destruct (wlp_elim _ _ _ _ _ (exit_files_effect i (kt s)) Hk) as [Hini He].
    apply rtc_once. unfold abs. cbn [kt pos running]. rewrite He. apply tr_pos.
    by eapply same_forks_insert.
  - right. apply rtc_once. by eapply exit_step.
  - right. apply (wait_trans i x (tview_of (kt s)) (pos s) (pos s) (running s) c (Some r) (kt s) k');
      eauto using same_forks_refl.
  - right. apply (wait_trans i x (tview_of (kt s)) (pos s) _ (running s) c None (kt s) k'); eauto.
    by eapply same_forks_insert.
  - right. eapply (wait_again_step s c i x _ (Some r)); eauto; [by split|].
    by eapply same_forks_insert.
  - right. eapply (wait_again_step s c i x _ None); eauto; [by split|]. apply same_forks_refl.
  - right. apply rtc_once. by apply (sleep_step s c i (ChAddr a) (LkOther l) x b).
  - right. destruct (Hown c i Hc) as (y & Hy & Hrun).
    pose proof (wlp_elim _ _ _ _ _ (sleep_return_effect i (kt s)) Hk) as He.
    apply rtc_once. unfold abs. cbn [kt pos running]. rewrite He.
    eapply trans_self; eauto. by eapply same_forks_insert.
  - right. destruct (Hown c i Hc) as (y & Hy & Hrun).
    pose proof (wlp_elim _ _ _ _ _ (yield_effect i x (kt s)) Hk) as He.
    apply rtc_once. unfold abs. cbn [kt pos running]. rewrite He.
    eapply trans_switch; try done. apply same_forks_refl.
  - right. pose proof (wlp_elim _ _ _ _ _ (wakeup1_view (Some ch) (kt s)) Hk) as He.
    apply rtc_once. unfold abs. cbn [kt pos running]. rewrite He.
    apply (tr_wake (Some ch) (tview_of (kt s))).
  - right. by eapply kill_step.
  - right. destruct (Hown c i Hc) as (y & Hy & Hrun).
    pose proof (wlp_elim _ _ _ _ _ (set_killed_effect i (kt s)) Hk) as He.
    apply rtc_once. unfold abs. cbn [kt pos running]. rewrite He.
    eapply trans_self; eauto. apply same_forks_refl.
  - right. pose proof (wlp_elim _ _ _ _ _ (private_effect i f (kt s) Hf) Hk) as He.
    unfold abs. cbn [kt pos running]. by rewrite He.
  - right. pose proof (wlp_elim _ _ _ _ _ (growproc_effect i n (kt s)) Hk) as He.
    unfold abs. cbn [kt pos running]. by rewrite He.
  - right. by destruct s as [[] ? ?].
  - right. apply rtc_once. by eapply schedule_step.
Qed.

Lemma claims_ainv a a' : claims a a' -> ainv a -> ainv a'.
Proof.
  intros (c & i & np & x & Hc & Hi & Hnp & Hst & ->) [P X]. split; simpl.
  - by eapply pinv_claim.
  - intros j [(_ & [=] & _)|[_ Hj]]%list_lookup_insert_Some. eauto.
Qed.

Lemma rtc_trans_ainv a a' : rtc trans a a' -> ainv a -> ainv a'.
Proof. induction 1; eauto using trans_ainv. Qed.

Lemma step_ainv s s' : step forkret trapret s s' -> ainv (abs s) -> ainv (abs s').
Proof.
  intros Hs A. destruct (step_trans s s' Hs A); eauto using claims_ainv, rtc_trans_ainv.
Qed.

Lemma claims_pids a a' :
  claims a a' -> v_nextpid (a_view a) < 2147483647 -> pids (a_view a) ->
  pids (a_view a') /\ v_nextpid (a_view a') = v_nextpid (a_view a) + 1.
Proof.
  intros (c & i & np & x & Hc & Hi & Hnp & Hst & ->) Hb (H0 & H1 & H2).
  cbn [a_view v_nextpid]. rewrite s32_small by lia. split; [|done].
  assert (Hinv : forall j y, slots (a_view (mkA (mkView (alter (fun x => mkSlot EMBRYO (s_parent x)
      (s_chan x) (s_killed x) (v_nextpid (a_view a))) np (slots (a_view a))) 0 None) [] [])) !! j = Some y ->
      s_state y <> UNUSED ->
      (j = np /\ s_pid y = v_nextpid (a_view a)) \/
      (j <> np /\ slots (a_view a) !! j = Some y /\ s_state y <> UNUSED)).
  { simpl. intros j y (z & Hz & ->)%lookup_alter_inv. case_decide; [subst|]; auto. }
  simpl in Hinv. split_and!; simpl; [lia| |].
  - intros j y Hj Hu. destruct (Hinv j y Hj Hu) as [[-> ->]|(? & Hj' & ?)]; [lia|].
    specialize (H1 j y Hj' ltac:(done)). lia.
  - intros j j' y y' Hj Hj' Hu Hu' Heq.
    destruct (Hinv j y Hj Hu) as [[-> E1]|(? & Hjj & ?)], (Hinv j' y' Hj' Hu') as [[-> E2]|(? & Hjj' & ?)].
    + done.
    + specialize (H1 j' y' Hjj' ltac:(done)). lia.
    + specialize (H1 j y Hjj ltac:(done)). lia.
    + by apply (H2 j j' y y').
Qed.

Lemma rtc_trans_pids a a' :
  rtc trans a a' -> ainv a -> pids (a_view a) ->
  pids (a_view a') /\ v_nextpid (a_view a') = v_nextpid (a_view a).
Proof.
  induction 1 as [|a b c Hab Hbc IH]; [done|]. intros A P.
  destruct (trans_pids a b Hab A P) as [Pb Hb]. rewrite <- Hb. apply IH; [|done].
  by eapply trans_ainv.
Qed.

Lemma initial_view s :
  initial forkret trapret s ->
  tview_of (kt s) = mkView (<[0%nat:=mkSlot RUNNABLE None None false 1]>
    (replicate NPROC (view zero_proc))) 2 (Some 0%nat).
Proof.
  intros (e & code & Hu & _). apply (wlp_elim _ _ _ _ _ (userinit_effect forkret trapret code e) Hu).
Qed.

Lemma initial_slot i x :
  (<[0%nat:=mkSlot RUNNABLE None None false 1]> (replicate NPROC (view zero_proc))) !! i = Some x ->
  (i = 0%nat /\ x = mkSlot RUNNABLE None None false 1) \/ x = view zero_proc.
Proof.
  intros [(<- & <- & _)|[_ Hi]]%list_lookup_insert_Some; [by left|right].
  by apply lookup_replicate in Hi as [-> _].
Qed.

Lemma initial_shape nx i c pa :
  shape (mkView (<[0%nat:=mkSlot RUNNABLE None None false 1]> (replicate NPROC (view zero_proc)))
    nx (Some 0%nat)) i = Some (c, pa) ->
  (i = 0%nat /\ c = CAlive /\ pa = None) \/ (c = CUnused /\ pa = None).
Proof.
  unfold shape. cbn [slots]. destruct (_ !! i) as [x|] eqn:Hx; [|done]. simpl.
  apply initial_slot in Hx as [[-> ->]| ->]; naive_solver.
Qed.

Lemma initial_ainv s : initial forkret trapret s -> ainv (abs s) /\ pids (tview_of (kt s)).
Proof.
  intros Hi. unfold abs. rewrite (initial_view s Hi). destruct Hi as (_ & _ & _ & Hp & Hr).
  assert (HF : forall q, forks (pos s) q = None).
  { intros q. unfold forks. rewrite Hp. destruct (replicate NPROC Kern !! q) eqn:E1; [|done].
    by apply lookup_replicate in E1 as [-> _]. }
  assert (Hrun : forall c i, running s !! c <> Some (Some i)).
  { intros c i Hc. rewrite Forall_lookup in Hr. specialize (Hr c _ Hc). done. }
  split; [split; [split_and!|]|]; cbn [a_view a_pos a_running slots v_initproc].
  - done.
  - by rewrite Hp, length_replicate.
  - split.
    + intros i. setoid_rewrite HF. split; [|naive_solver].
      intros [pa [(_ & [=] & _)|[[=] _]]%initial_shape].
    + intros q i. by rewrite HF.
    + intros q q' i. by rewrite HF.
    + intros i c q [(_ & _ & [=])|[_ [=]]]%initial_shape.
    + intros i c pa [(-> & _ & _)|[-> _]]%initial_shape; intuition congruence.
    + by exists 0%nat.
  - split; [|intros c c' i Hc; by destruct (Hrun c i)].
    intros i. split; [|intros [c Hc]; by destruct (Hrun c i)].
    intros (x & [[_ ->]| ->]%initial_slot & [=]).
  - intros i x j [[_ ->]| ->]%initial_slot; done.
  - intros i. rewrite Hp. intros Hx. by apply lookup_replicate in Hx as [? _].
  - split_and!; simpl v_nextpid; [lia| |].
    + intros i x [[_ ->]| ->]%initial_slot; simpl; [lia|done].
    + intros i j x y [[-> ->]| ->]%initial_slot [[-> ->]| ->]%initial_slot; done.
Qed.

Lemma reachable_ainv s0 s :
  initial forkret trapret s0 -> rtc (step forkret trapret) s0 s -> ainv (abs s).
Proof.
  intros [H0 _]%initial_ainv Hr. induction Hr; eauto using step_ainv.
Qed.

(** C2: the process table.  In every state the kernel reaches from boot, however
    the CPUs interleave [fork], [exit], [wait], [sleep], [wakeup], [kill], [yield]
    and the schedulers: a slot is RUNNING exactly if some CPU runs it, and then
    only one does; every process but init has a parent that is neither unused nor
    a zombie; an EMBRYO slot belongs to exactly one process inside [fork]; and a
    process asleep in [wait] has children, none of them a zombie, and no kill
    pending, so that no exit is missed. *)
Theorem ptable_invariant s0 s :
  initial forkret trapret s0 -> rtc (step forkret trapret) s0 s ->
  (forall i, (exists p, procs (kt s) !! i = Some p /\ state p = RUNNING) <->
             (exists c, running s !! c = Some (Some i))) /\
  (forall c c' i, running s !! c = Some (Some i) -> running s !! c' = Some (Some i) -> c = c') /\
  (forall i p, procs (kt s) !! i = Some p -> state p <> UNUSED -> state p <> EMBRYO ->
     initproc (kt s) <> Some i ->
     exists q pq, parent p = Some q /\ procs (kt s) !! q = Some pq /\
       (state pq = SLEEPING \/ state pq = RUNNABLE \/ state pq = RUNNING)) /\
  (forall i p, procs (kt s) !! i = Some p -> state p = EMBRYO ->
     exists! q, pos s !! q = Some (Forking i)) /\
  (forall i p, procs (kt s) !! i = Some p -> state p = SLEEPING -> pchan p = Some (ChProc i) ->
     killed p = false /\
     (forall j q, procs (kt s) !! j = Some q -> parent q = Some i -> state q <> ZOMBIE) /\
     (exists j q, procs (kt s) !! j = Some q /\ parent q = Some i)).
Proof.
  intros Hi Hr. destruct (reachable_ainv s0 s Hi Hr) as [(_ & _ & T & R & W) _].
  cbn [abs a_view a_pos a_running] in *.
  assert (Hfork : forall q i, pos s !! q = Some (Forking i) <-> forks (pos s) q = Some i).
  { intros q i. unfold forks. destruct (pos s !! q) as [[]|]; naive_solver. }
  split_and!.
  - intros i. rewrite <- (r_running _ _ R i). split.
    + intros (p & Hp & Hs). exists (view p). split; [by apply slot_of|done].
    + intros (x & (p & Hp & ->)%proc_of & Hs). eauto.
  - apply R.
  - intros i p Hp Hu He Hini.
    assert (Hsh : shape (tview_of (kt s)) i = Some (cls_of (state p), parent p))
      by (unfold shape; by rewrite (slot_of _ _ _ Hp)).
    destruct (t_parent _ _ _ T _ _ _ Hsh) as (q & pb & -> & _ & Hq); [by destruct (state p); auto|done|].
    unfold shape in Hq. destruct (slots (tview_of (kt s)) !! q) as [x|] eqn:Hx; [|done].
    apply proc_of in Hx as (pq & Hpq & ->). simpl in Hq. exists q, pq. split_and!; [done..|].
    destruct (state pq); simplify_eq/=; auto.
  - intros i p Hp Hs.
    destruct (proj1 (t_embryo _ _ _ T i)) as [q Hq].
    + exists (parent p). unfold shape. rewrite (slot_of _ _ _ Hp). simpl. by rewrite Hs.
    + exists q. split; [by apply Hfork|]. intros q' Hq'%Hfork. by eapply (t_fork1 _ _ _ T).
  - intros i p Hp Hs Hc.
    destruct (W i (view p) i (slot_of _ _ _ Hp) Hs Hc) as (_ & Hk & Hz & j & y & Hj & Hy).
    split_and!; [done| |].
    + intros m q Hm Hpar Hzs. by apply (Hz m (view q)); [apply slot_of|].
    + apply proc_of in Hj as (q & Hq & ->). eauto.
Qed.

(** A run in which [n] process ids have been handed out: [nextpid] has changed [n] times. *)
Inductive run_allocs : nat -> sys -> sys -> Prop :=
  | ra_start s : run_allocs 0 s s
  | ra_other n s s1 s2 : run_allocs n s s1 -> step forkret trapret s1 s2 -> nextpid (kt s2) = nextpid (kt s1) -> run_allocs n s s2
  | ra_alloc n s s1 s2 : run_allocs n s s1 -> step forkret trapret s1 s2 -> nextpid (kt s2) <> nextpid (kt s1) -> run_allocs (S n) s s2.

Lemma run_allocs_rtc n s s' : run_allocs n s s' -> rtc (step forkret trapret) s s'.
Proof. induction 1; [done|by eapply rtc_r..]. Qed.

Lemma run_allocs_pids n s0 s : initial forkret trapret s0 -> run_allocs n s0 s -> Z.of_nat n <= 2147483645 ->
  pids (tview_of (kt s)) /\ nextpid (kt s) = 2 + Z.of_nat n.
Proof.
  intros Hi Hr. induction Hr as [s|n s s1 s2 Hr IH Hs He|n s s1 s2 Hr IH Hs Hne]; intros Hb.
  - split; [by apply initial_ainv|]. pose proof (initial_view s Hi) as Hv. by injection Hv.
  - destruct (IH Hi Hb) as [P1 N1]. split; [|by rewrite He].
    assert (A1 : ainv (abs s1)) by (eapply reachable_ainv; [exact Hi|by eapply run_allocs_rtc]).
    destruct (step_trans _ _ Hs A1) as [Hc|Hc]; [|by apply (rtc_trans_pids _ _ Hc A1)].
    exfalso. destruct Hc as (? & ? & ? & ? & ? & ? & ? & ? & Ec). apply (f_equal (fun a => v_nextpid (a_view a))) in Ec.
    change (nextpid (kt s2) = s32 (nextpid (kt s1) + 1)) in Ec. rewrite He in Ec.
    destruct (decide (nextpid (kt s1) = 2147483647)) as [Ew|]; [by rewrite Ew in Ec|rewrite s32_small in Ec by lia; lia].
  - destruct (IH Hi ltac:(lia)) as [P1 N1].
    assert (A1 : ainv (abs s1)) by (eapply reachable_ainv; [exact Hi|by eapply run_allocs_rtc]).
    destruct (step_trans _ _ Hs A1) as [Hc|Hc].
    + destruct (claims_pids _ _ Hc) as [? Ec]; [change (nextpid (kt s1) < 2147483647); lia|done|]. split; [done|].
      change (nextpid (kt s2) = nextpid (kt s1) + 1) in Ec. lia.
    + destruct (rtc_trans_pids _ _ Hc A1 P1) as [_ Ec]. by destruct (Hne Ec).
Qed.

(** C35: process ids are unique until [nextpid] wraps around.  In a run of any length in
    which [n] process ids have been handed out since boot, [n] at most 2^31 - 3, [nextpid]
    is [n + 2], every slot in use has a pid from 1 to [nextpid - 1], and no two slots in use
    have the same. *)
Theorem pids_unique n s0 s :
  initial forkret trapret s0 -> run_allocs n s0 s -> Z.of_nat n <= 2147483645 ->
  nextpid (kt s) = Z.of_nat n + 2 /\
  (forall i p, procs (kt s) !! i = Some p -> state p <> UNUSED -> 0 < pid p < nextpid (kt s)) /\
  (forall i j p q, procs (kt s) !! i = Some p -> procs (kt s) !! j = Some q ->
     state p <> UNUSED -> state q <> UNUSED -> pid p = pid q -> i = j).
Proof.
  intros Hi Hn Hb. destruct (run_allocs_pids n s0 s Hi Hn Hb) as [(_ & H1 & H2) En]. split_and!; [lia|..].
  - intros i p Hp Hu. specialize (H1 i (view p) (slot_of _ _ _ Hp) Hu). simpl in H1. lia.
  - intros i j p q Hp Hq Hu Hu' Heq.
    apply (H2 i j (view p) (view q)); auto using slot_of.
Qed.

End Refinement.
(** ** The scheduler's scan *)

(** Where the scan of one CPU's [scheduler] stands when it looks for a process
    for the [n]-th time, the table then being [tbl n]. *)
Fixpoint scan_pos (tbl : nat -> list proc) (from n : nat) : nat :=
  match n with
  | O => from
  | S n' => match next_runnable (scan_pos tbl from n') (tbl n') with
            | Some i => S i
            | None => O
            end
  end.

Definition pick (tbl : nat -> list proc) (from n : nat) : option nat :=
  next_runnable (scan_pos tbl from n) (tbl n).

Lemma next_runnable_Some from l i :
  next_runnable from l = Some i <->
  (from <= i)%nat /\ (exists p, l !! i = Some p /\ state p = RUNNABLE) /\
  (forall m p, (from <= m < i)%nat -> l !! m = Some p -> state p <> RUNNABLE).
Proof.
  unfold next_runnable, find_proc. split.
  - destruct (list_find _ (drop from l)) as [[n p]|] eqn:Hf; simpl; [|done]. intros [= <-].
    apply list_find_Some in Hf as (Hl & Hs & Hn). rewrite lookup_drop in Hl.
    split_and!; [lia|eauto|]. intros m q Hm Hq Hst.
    apply (Hn (m - from)%nat q); [|lia|done]. rewrite lookup_drop. rewrite <- Hq. f_equal. lia.
  - intros (Hle & (p & Hp & Hs) & Hn).
    assert (list_find (fun p => state p = RUNNABLE) (drop from l) = Some ((i - from)%nat, p)) as ->.
    + apply list_find_Some. rewrite lookup_drop. replace (from + (i - from))%nat with i by lia.
      split_and!; [done..|]. intros m q Hq Hm. rewrite lookup_drop in Hq. apply (Hn (from + m)%nat); [lia|done].
    + simpl. f_equal. lia.
Qed.

Lemma next_runnable_None from l m p :
  next_runnable from l = None -> (from <= m)%nat -> l !! m = Some p -> state p <> RUNNABLE.
Proof.
  unfold next_runnable, find_proc. destruct (list_find _ (drop from l)) eqn:Hf; [done|]. intros _.
  apply list_find_None in Hf. intros Hm Hp. rewrite Forall_lookup in Hf.
  apply (Hf (m - from)%nat). rewrite lookup_drop, <- Hp. f_equal. lia.
Qed.

(** How far slot [j] is ahead of the scan. *)
Definition scan_dist (j at_ : nat) : nat :=
  if decide (at_ <= j)%nat then (j - at_)%nat else (S NPROC - at_ + j)%nat.

Lemma scan_progress tbl from n j :
  (j < NPROC)%nat -> length (tbl n) = NPROC ->
  (exists p, tbl n !! j = Some p /\ state p = RUNNABLE) -> pick tbl from n <> Some j ->
  (scan_pos tbl from n <= NPROC)%nat ->
  (scan_dist j (scan_pos tbl from (S n)) < scan_dist j (scan_pos tbl from n))%nat /\
  (scan_pos tbl from (S n) <= NPROC)%nat.
Proof.
  intros Hj Hlen (p & Hp & Hst) Hne Hle. unfold pick in Hne. cbn [scan_pos].
  set (a := scan_pos tbl from n) in *. unfold scan_dist.
  destruct (next_runnable a (tbl n)) as [i|] eqn:Hn.
  - apply next_runnable_Some in Hn as (Hai & (q & Hq & _) & Hbefore).
    apply lookup_lt_Some in Hq. rewrite Hlen in Hq.
    assert (~ (a <= j < i)%nat) by (intros ?; by eapply Hbefore).
    assert (i <> j) by congruence. repeat case_decide; lia.
  - assert (~ (a <= j)%nat) by (intros ?; by eapply next_runnable_None in Hn).
    repeat case_decide; lia.
Qed.

(** C36: bounded waiting.  A process that stays RUNNABLE is picked by the
    scheduler's scan after at most NPROC other picks (or wrap-arounds), whatever
    happens to the rest of the table in between. *)
Theorem scheduler_bounded_wait tbl from j :
  (from <= NPROC)%nat ->
  (forall n, (n <= NPROC)%nat -> length (tbl n) = NPROC) ->
  (forall n, (n <= NPROC)%nat -> exists p, tbl n !! j = Some p /\ state p = RUNNABLE) ->
  exists n, (n <= NPROC)%nat /\ pick tbl from n = Some j.
Proof.
  intros Hfrom Hlen Hrun.
  assert (Hj : (j < NPROC)%nat).
  { destruct (Hrun 0%nat ltac:(lia)) as (p & Hp & _). apply lookup_lt_Some in Hp.
    rewrite Hlen in Hp by lia. done. }
  assert (Hd : forall n, (n <= NPROC)%nat -> (exists m, (m <= n)%nat /\ pick tbl from m = Some j) \/
    ((scan_dist j (scan_pos tbl from (S n)) + S n <= scan_dist j from)%nat /\
     (scan_pos tbl from (S n) <= NPROC)%nat)).
  { intros n. induction n as [|n IH]; intros Hn.
    - destruct (decide (pick tbl from 0 = Some j)); [left; eauto|right].
      destruct (scan_progress tbl from 0 j) as [H1 H2]; eauto.
      change (scan_pos tbl from 0) with from in H1. lia.
    - destruct IH as [(m & ? & ?)|[? ?]]; [lia|left; exists m; split; [lia|done]|].
      destruct (decide (pick tbl from (S n) = Some j)); [left; eauto|right].
      destruct (scan_progress tbl from (S n) j) as [? ?]; eauto. lia. }
  destruct (Hd NPROC ltac:(lia)) as [?|[Hs _]]; [done|].
  assert (scan_dist j from <= NPROC)%nat by (unfold scan_dist; case_decide; lia). lia.
Qed.

Lemma scheduler_bounded_wait_witness :
  exists n, (n <= NPROC)%nat /\
    pick (fun _ => replicate NPROC (set_state RUNNABLE zero_proc)) 6 n = Some 5%nat.
Proof.
  apply scheduler_bounded_wait; [unfold NPROC; lia|done|].
  intros _ _. exists (set_state RUNNABLE zero_proc). split; reflexivity.
Defined.

(** ** A small environment

    Pages are handed out in order and never run out; files and inodes are
    numbers. *)
Definition toy_env : KernelEnv Z := {|
  env_kalloc := fun n => Ret (n + 4096) (n + 4096);
  env_kfree := fun _ n => Ret tt n;
  env_setupkvm := fun n => Ret (n + 4096) (n + 4096);
  env_inituvm := fun _ _ n => Ret tt n;
  env_copyuvm := fun _ _ n => Ret (n + 4096) (n + 4096);
  env_allocuvm := fun _ _ new n => Ret new n;
  env_deallocuvm := fun _ _ new n => Ret new n;
  env_freevm := fun _ n => Ret tt n;
  env_filedup := fun f n => Ret f n;
  env_fileclose := fun _ n => Ret tt n;
  env_idup := fun i n => Ret i n;
  env_iput := fun _ n => Ret tt n;
  env_namei := fun _ n => Ret 1 n;
  env_switchuvm := fun _ _ n => Ret tt n;
  env_switchkvm := fun n => Ret tt n
|}.

Section Toy.
Existing Instance toy_env.

Definition t0 : @sys Z :=
  mkSys (result (userinit 0 0 []) (boot 0)) (replicate NPROC Kern) [None; None].
(** CPU 0 runs init, which forks and then waits. *)
Definition t1 : @sys Z := mkSys (result (scheduler 0) (kt t0)) (pos t0) [Some 0%nat; None].
Definition t2 : @sys Z :=
  mkSys (result claim (kt t1)) (<[0%nat:=Forking 1]> (pos t1)) (running t1).
Definition t3 : @sys Z :=
  mkSys (result (fork_rest 0 0 0 1) (kt t2)) (<[1%nat:=Kern]> (<[0%nat:=Kern]> (pos t2))) (running t2).
Definition t4 : @sys Z :=
  mkSys (result (wait 0 (mkCpu 1 true false)) (kt t3)) (<[0%nat:=InWait]> (pos t3)) [None; None].

Lemma t0_initial : initial 0 0 t0.
Proof. exists 0, []. split_and!; [vm_compute; reflexivity|done|by repeat constructor]. Qed.

Lemma t4_steps : nsteps (step 0 0) 4 t0 t4.
Proof.
  eapply nsteps_l; [apply (step_schedule 0 0 t0 0 0 0 (kt t1)); [done|vm_compute; reflexivity]|].
  eapply nsteps_l; [apply (step_fork_claim 0 0 t1 0 0 1 (kt t2)); [done|vm_compute; reflexivity]|].
  eapply nsteps_l; [apply (step_fork_rest 0 0 t2 0 0 1 2 (kt t3)); [done|vm_compute; reflexivity]|].
  eapply nsteps_l; [apply (step_wait_sleep 0 0 t3 0 0 (mkCpu 1 true false) (kt t4));
    [done|done|vm_compute; reflexivity]|].
  apply nsteps_O.
Qed.

Lemma ptable_invariant_witness :
  initial 0 0 t0 /\ rtc (step 0 0) t0 t4 /\
  (exists p, procs (kt t4) !! 0%nat = Some p /\ state p = SLEEPING /\ pchan p = Some (ChProc 0)) /\
  (forall c c' i, running t4 !! c = Some (Some i) -> running t4 !! c' = Some (Some i) -> c = c').
Proof.
  pose proof t0_initial as H0.
  assert (Hr : rtc (step 0 0) t0 t4) by (apply rtc_nsteps; eexists; exact t4_steps).
  split_and!; [done|done| |apply (ptable_invariant 0 0 t0 t4 H0 Hr)].
  eexists. split; [vm_compute; reflexivity|]. split; reflexivity.
Defined.

Lemma step_to (s s1 s2 : @sys Z) : step 0 0 s s1 -> s1 = s2 -> step 0 0 s s2.
Proof. by intros H <-. Qed.

Lemma t4_allocs : run_allocs 0 0 1 t0 t4.
Proof.
  assert (H1 : run_allocs 0 0 0 t0 t1).
  { apply (ra_other 0 0 0 t0 t0 t1); [apply ra_start| |vm_compute; reflexivity].
    eapply step_to; [apply (step_schedule 0 0 t0 0 0 0 (kt t1)); [done|vm_compute; reflexivity]|vm_compute; reflexivity]. }
  assert (H2 : run_allocs 0 0 1 t0 t2).
  { apply (ra_alloc 0 0 0 t0 t1 t2); [exact H1| |vm_compute; discriminate].
    eapply step_to; [apply (step_fork_claim 0 0 t1 0 0 1 (kt t2)); [done|vm_compute; reflexivity]|vm_compute; reflexivity]. }
  assert (H3 : run_allocs 0 0 1 t0 t3).
  { apply (ra_other 0 0 1 t0 t2 t3); [exact H2| |vm_compute; reflexivity].
    eapply step_to; [apply (step_fork_rest 0 0 t2 0 0 1 2 (kt t3)); [done|vm_compute; reflexivity]|vm_compute; reflexivity]. }
  apply (ra_other 0 0 1 t0 t3 t4); [exact H3| |vm_compute; reflexivity].
  eapply step_to; [apply (step_wait_sleep 0 0 t3 0 0 (mkCpu 1 true false) (kt t4)); [done|done|vm_compute; reflexivity]|vm_compute; reflexivity].
Qed.

Lemma pids_unique_witness :
  initial 0 0 t0 /\ run_allocs 0 0 1 t0 t4 /\ nextpid (kt t4) = 3 /\
  (forall i p, procs (kt t4) !! i = Some p -> state p <> UNUSED -> 0 < pid p < nextpid (kt t4)).
Proof.
  destruct (pids_unique 0 0 1 t0 t4 t0_initial t4_allocs) as (E & H & _); [lia|].
  split_and!; [exact t0_initial|exact t4_allocs|exact E|exact H].
Defined.

End Toy.

Lemma find_proc_holds (P : proc -> Prop) `{!forall p, Decision (P p)} l i p :
  find_proc P l = Some i -> l !! i = Some p -> P p.
Proof.
  unfold find_proc. destruct (list_find _ l) as [[j q]|] eqn:Hf; simpl; [|done]. intros [= ->] Hp.
  apply list_find_Some in Hf as (Hl & ? & _). congruence.
Qed.

(** Changing the slot that is found, within the test, finds it again. *)
Lemma find_proc_alter (P : proc -> Prop) `{!forall p, Decision (P p)} f i l p :
  find_proc P l = Some i -> l !! i = Some p -> P (f p) -> find_proc P (alter f i l) = Some i.
Proof.
  unfold find_proc. destruct (list_find _ l) as [[j q]|] eqn:Hf; simpl; [|done]. intros [= ->] Hp HP.
  apply list_find_Some in Hf as (Hl & ? & Hb).
  assert (list_find P (alter f i l) = Some (i, f p)) as ->; [|done].
  apply list_find_Some. split_and!; [by rewrite list_lookup_alter_eq, Hp|done|].
  intros m z Hm Hlt. rewrite list_lookup_alter_ne in Hm by lia. eauto.
Qed.

(** [kill(0)] hits a free slot.  The slots that were never used have pid 0, and
    [kill] looks at the pid only: it marks the first free slot as killed and
    returns 0.  Neither [allocproc] nor [fork] clears the mark, so the next child
    is born killed. *)
Theorem kill_zero_kills_next_child {E} {KE : KernelEnv E} fr tr self i p (k : ktable E) :
  find_proc (fun p => pid p = 0) (procs k) = Some i ->
  find_proc (fun p => state p = UNUSED) (procs k) = Some i -> procs k !! i = Some p ->
  exists k1, kill 0 k = Ret 0 k1 /\
    forall r k2, fork fr tr self k1 = Ret r k2 -> r <> -1 ->
      exists q, procs k2 !! i = Some q /\ pid q = r /\ state q = RUNNABLE /\ killed q = true.
Proof.
  intros Hpid Hun Hp. unfold kill. rewrite Hpid. eexists. split; [reflexivity|].
  assert (Hst : state p = UNUSED) by by apply (find_proc_holds (fun p => state p = UNUSED) (procs k) i).
  assert (Hc : claim (with_procs (alter kill_proc i (procs k)) k) =
    Ret (Some i) (mkTable (alter (fun p => set_pid (nextpid k) (set_state EMBRYO p)) i
      (alter kill_proc i (procs k))) (s32 (nextpid k + 1)) (initproc k) (env k))).
  { unfold claim. cbn [procs with_procs]. rewrite (find_proc_alter _ _ i (procs k) p); try done.
    unfold kill_proc. simpl. by rewrite Hst. }
  set (k1 := with_procs _ k) in *. set (k3 := mkTable _ _ _ _) in Hc. intros r k2 Hfork Hr.
  assert (Hr2 : fork_rest fr tr self i k3 = Ret r k2).
  { revert Hfork. unfold fork, allocproc, bind. by rewrite Hc. }
  destruct (wlp_elim _ _ _ _ _ (fork_rest_effect fr tr self i k3) Hr2) as [[-> _]|(y & Hy & -> & He)];
    [done|].
  assert (Hk2 : slots (tview_of k2) !! i = Some (s_publish self y)).
  { rewrite He. simpl slots. rewrite (lookup_alter_fwd _ _ _ _ _ Hy). by rewrite decide_True. }
  apply proc_of in Hk2 as (q & Hq & Hv). exists q.
  assert (Hkl : s_killed y = true).
  { apply proc_of in Hy as (z & Hz & ->). unfold k3 in Hz. cbn [procs] in Hz.
    rewrite !list_lookup_alter_eq, Hp in Hz. simplify_eq/=. unfold kill_proc. simpl. by rewrite Hst. }
  unfold s_publish, view in Hv. injection Hv as <- _ _ <- <-. done.
Qed.

Section ToyKill.
Existing Instance toy_env.

Lemma kill_zero_kills_next_child_witness :
  find_proc (fun p => pid p = 0) (procs (kt t1)) = Some 1%nat /\
  exists k1, kill 0 (kt t1) = Ret 0 k1 /\
    fork 0 0 0 k1 = Ret 2 (result (fork 0 0 0) k1) /\
    exists q, procs (result (fork 0 0 0) k1) !! 1%nat = Some q /\ killed q = true.
Proof.
  split; [vm_compute; reflexivity|].
  destruct (kill_zero_kills_next_child 0 0 0 1 zero_proc (kt t1)) as (k1 & Hk & Hf);
    [vm_compute; reflexivity..|].
  exists k1. split; [done|].
  assert (Hk1 : k1 = result (kill 0) (kt t1)) by (unfold result; by rewrite Hk).
  assert (Hr : fork 0 0 0 k1 = Ret 2 (result (fork 0 0 0) k1)) by (subst k1; vm_compute; reflexivity).
  split; [done|]. destruct (Hf _ _ Hr) as (q & ? & _ & _ & ?); [lia|]. eauto.
Defined.

End ToyKill.

(** ** The other processors while the first process is made *)

Section Idle.
Context {E : Type} {KE : KernelEnv E} (forkret trapret : Z).
Implicit Types k : ktable E.

(** There is no process yet, or only one in the making. *)
Definition in_making (p : proc) : Prop := state p = UNUSED \/ state p = EMBRYO.
Definition quiet k : Prop := Forall in_making (procs k).

Lemma idle1_quiet a k : quiet k -> idle1 a k = Ret tt k.
Proof.
  intros Hq. destruct a as [|c]; cbn [idle1].
  - unfold scheduler, bind, gets. destruct (next_runnable 0 (procs k)) as [i|] eqn:Hn; [|done].
    apply next_runnable_Some in Hn as (_ & (p & Hp & Hs) & _). unfold quiet in Hq. rewrite Forall_lookup in Hq.
    destruct (Hq i p Hp); congruence.
  - unfold wakeup, wakeup1, modify. f_equal. destruct k as [l n ini e]. unfold with_procs. cbn [procs nextpid initproc env]. f_equal.
    unfold quiet in Hq. cbn [procs] in Hq. induction Hq as [|p l Hp Hq IH]; [done|]. rewrite fmap_cons, IH. f_equal.
    unfold wake. rewrite decide_False; [done|]. intros [Hs _]. destruct Hp; congruence.
Qed.

Lemma idles_quiet l k : quiet k -> idles l k = Ret tt k.
Proof. intros Hq. induction l as [|a l IH]; [done|]. cbn [idles]. unfold bind. by rewrite idle1_quiet. Qed.

Lemma idles_then {A} l (m : M (ktable E) A) k : quiet k -> (idles l ;;; m) k = m k.
Proof. intros Hq. unfold bind. by rewrite idles_quiet. Qed.

Lemma bind_at {A B} (m : M (ktable E) A) (f g : A -> M (ktable E) B) k :
  (forall a k', m k = Ret a k' -> f a k' = g a k') -> bind m f k = bind m g k.
Proof. intros H. unfold bind. destruct (m k) as [a k'| |]; auto. Qed.

Lemma quiet_upd i f k a k' : (forall p, in_making p -> in_making (f p)) -> quiet k -> upd i f k = Ret a k' -> quiet k'.
Proof.
  intros Hf Hq [= _ <-]. unfold quiet, with_procs. cbn [procs]. unfold quiet in Hq. rewrite Forall_lookup in Hq |- *.
  intros j p (q & Hj & ->)%lookup_alter_inv. case_decide; eauto.
Qed.

Lemma quiet_call {A} (m : M E A) k a k' : quiet k -> call m k = Ret a k' -> quiet k'.
Proof. unfold call, zoom. destruct (m (env k)); [|done..]. by intros Hq [= _ <-]. Qed.

Lemma quiet_claim k a k' : quiet k -> claim k = Ret a k' -> quiet k'.
Proof.
  unfold claim. intros Hq. destruct (find_proc _ _) as [i|]; intros [= _ <-]; [|done]. unfold quiet. cbn [procs]. unfold quiet in Hq.
  rewrite Forall_lookup in Hq |- *. intros j p (q & Hj & ->)%lookup_alter_inv. case_decide; [by right|eauto].
Qed.

Lemma quiet_bind {A B} (m : M (ktable E) A) (f : A -> M (ktable E) B) k b k' :
  quiet k -> (forall a k1, m k = Ret a k1 -> quiet k1) -> (forall a k1, quiet k1 -> f a k1 = Ret b k' -> quiet k') -> bind m f k = Ret b k' -> quiet k'.
Proof. unfold bind. intros Hq Hm Hf. destruct (m k) as [a k1| |] eqn:Em; [|done..]. apply Hf. eauto. Qed.

Lemma quiet_stack i k a k' : quiet k -> alloc_stack forkret trapret i k = Ret a k' -> quiet k'.
Proof.
  intros Hq. unfold alloc_stack. apply quiet_bind; [done|intros ? ?; by apply quiet_call|]. intros ks k1 Hq1.
  apply quiet_bind; [done|intros ? ?; by apply quiet_upd|]. intros _ k2 Hq2. destruct (ks =? 0).
  - apply quiet_bind; [done|intros ? ?; apply quiet_upd; [by left|done]|]. by intros _ k3 Hq3 [= _ <-].
  - apply quiet_bind; [done|intros ? ?; by apply quiet_upd|]. by intros _ k3 Hq3 [= _ <-].
Qed.

Ltac quiet_step := apply bind_at; intros ? ? ?; (let q := fresh "Hq" in
  match goal with
  | H : upd _ _ ?k = Ret _ ?k', Hk : quiet ?k |- _ => assert (q : quiet k') by (by eapply quiet_upd; [|exact Hk|exact H]); clear H
  | H : call _ ?k = Ret _ ?k', Hk : quiet ?k |- _ => assert (q : quiet k') by (by eapply quiet_call; [exact Hk|exact H]); clear H
  end).

Lemma bind_cong {A B} (m m' : M (ktable E) A) (f g : A -> M (ktable E) B) k :
  m k = m' k -> (forall a k', m' k = Ret a k' -> f a k' = g a k') -> bind m f k = bind m' g k.
Proof. intros Em H. unfold bind. rewrite Em. destruct (m' k) as [a k'| |]; auto. Qed.

(** Until its last statement [userinit] goes on as if it were alone. *)
Lemma userinit_alone gap code k : quiet k -> userinit_smp forkret trapret gap code k = userinit forkret trapret code k.
Proof.
  intros Hq. unfold userinit_smp, userinit, allocproc. apply bind_cong.
  { rewrite idles_then by done. apply bind_at. intros slot k1 H1. apply idles_then. by eapply quiet_claim. }
  intros slot k1 H1. assert (Hq1 : quiet k1).
  { revert H1. apply quiet_bind; [done|intros ? ?; by apply quiet_claim|]. intros [i|] k2 Hq2; [by apply quiet_stack|by intros [= _ <-]]. }
  rewrite idles_then by done. apply bind_at. intros [] k2 [= <-]. assert (Hq2 : quiet (mkTable (procs k1) (nextpid k1) slot (env k1))) by exact Hq1.
  destruct slot as [i|]; [|done]. rewrite idles_then by done. quiet_step. rewrite idles_then by done. quiet_step. case_match; [done|].
  do 5 (rewrite idles_then by done; quiet_step). rewrite idles_then by done. quiet_step. by rewrite idles_then.
Qed.
End Idle.

End ProcSys.
