(* ===== verification/Bio.v ===== *)
(** * bio.c and memide.c: the buffer cache over the disk

    [Module Bio] translates [binit], [bget], [bread], [bwrite] and [brelse] with
    the cache's doubly linked LRU list kept as [next]/[prev] pointers, and
    [iderw] of memide.c.  A [struct buf *] is an index into [bcache.buf]; index
    [NBUF] is [bcache.head].  [Blocked] is a wait for a busy buffer.  The disk is
    the list of its sectors, together with the trace of the writes it received
    (the Log file looks at its prefixes).

    The invariant ties the pointers to an order of the buffers, the cached data
    to the disk, and says that no sector is cached twice. *)

From S2P Require Import Prelude.

Module Bio.

Definition NBUF : nat := 10.
Definition B_BUSY : Z := 1.
Definition B_VALID : Z := 2.
Definition B_DIRTY : Z := 4.
Definition BSIZE : nat := 512.

(** [struct buf], without the list pointers. *)
Record buf := mkBuf { flags : Z; dev : Z; sector : Z; data : list Z }.

Definition set_flags (f : Z) (b : buf) : buf := mkBuf f (dev b) (sector b) (data b).
Definition set_data (d : list Z) (b : buf) : buf := mkBuf (flags b) (dev b) (sector b) d.

(** [bcache], the disk and the writes the disk has seen. *)
Record bcache := mkCache {
  bufs : list buf;
  bnext : list nat;
  bprev : list nat;
  disk : list (list Z);
  trace : list (Z * list Z)
}.

Definition head : nat := NBUF.

Definition zero_buf : buf := mkBuf 0 0 0 (replicate BSIZE 0).
Definition getb (b : nat) (s : bcache) : buf := default zero_buf (bufs s !! b).
Definition next (b : nat) (s : bcache) : nat := default O (bnext s !! b).
Definition prev (b : nat) (s : bcache) : nat := default O (bprev s !! b).

Definition setb (b : nat) (x : buf) : M bcache unit :=
  modify (fun s => mkCache (<[b:=x]> (bufs s)) (bnext s) (bprev s) (disk s) (trace s)).
Definition set_next (b v : nat) : M bcache unit :=
  modify (fun s => mkCache (bufs s) (<[b:=v]> (bnext s)) (bprev s) (disk s) (trace s)).
Definition set_prev (b v : nat) : M bcache unit :=
  modify (fun s => mkCache (bufs s) (bnext s) (<[b:=v]> (bprev s)) (disk s) (trace s)).

(** [b->flags |= f] and [b->flags &= ~f] *)
Definition or_flags (b : nat) (f : Z) : M bcache unit :=
  let* x := gets (getb b) in setb b (set_flags (set_flag (flags x) f) x).
Definition clear_flags (b : nat) (f : Z) : M bcache unit :=
  let* x := gets (getb b) in setb b (set_flags (clear_flag (flags x) f) x).

(** Insert [b] right after [bcache.head]. *)
Definition push_front (b : nat) : M bcache unit :=
  let* h := gets (next head) in
  set_next b h ;;;
  set_prev b head ;;;
  let* h := gets (next head) in
  set_prev h b ;;;
  set_next head b.

Definition binit : M bcache unit :=
  set_prev head head ;;;
  set_next head head ;;;
  for_upto NBUF 0 (fun b =>
    push_front b ;;;
    let* x := gets (getb b) in
    setb b (mkBuf (flags x) (u32 (-1)) (sector x) (data x))).

(** The two loops of [bget], from [b] on; the fuel is the number of buffers. *)
Fixpoint find_next (fuel : nat) (P : buf -> bool) (b : nat) (s : bcache) : option nat :=
  match fuel with
  | O => None
  | S n => if decide (b = head) then None
           else if P (getb b s) then Some b else find_next n P (next b s) s
  end.
Fixpoint find_prev (fuel : nat) (P : buf -> bool) (b : nat) (s : bcache) : option nat :=
  match fuel with
  | O => None
  | S n => if decide (b = head) then None
           else if P (getb b s) then Some b else find_prev n P (prev b s) s
  end.

Definition caches (d sec : Z) (x : buf) : bool := (dev x =? d) && (sector x =? sec).
Definition recyclable (x : buf) : bool :=
  (Z.land (flags x) B_BUSY =? 0) && (Z.land (flags x) B_DIRTY =? 0).

Definition bget (d sec : Z) : M bcache nat :=
  let* hit := gets (fun s => find_next (S NBUF) (caches d sec) (next head s) s) in
  match hit with
  | Some b =>
      let* x := gets (getb b) in
      if negb (has_flag (flags x) B_BUSY) then
        or_flags b B_BUSY ;;;
        ret b
      else block
  | None =>
      let* victim := gets (fun s => find_prev (S NBUF) recyclable (prev head s) s) in
      match victim with
      | Some b =>
          let* x := gets (getb b) in
          setb b (mkBuf B_BUSY d sec (data x)) ;;;
          ret b
      | None => panic "bget: no buffers"
      end
  end.

(** memide.c [iderw] *)
Definition disk_write (sec : Z) (d : list Z) : M bcache unit :=
  modify (fun s => mkCache (bufs s) (bnext s) (bprev s)
                     (<[Z.to_nat sec:=d]> (disk s)) (trace s ++ [(sec, d)])).

Definition iderw (b : nat) : M bcache unit :=
  let* x := gets (getb b) in
  if negb (has_flag (flags x) B_BUSY) then panic "iderw: buf not busy"
  else if Z.land (flags x) (Z.lor B_VALID B_DIRTY) =? B_VALID then panic "iderw: nothing to do"
  else if negb (dev x =? 1) then panic "iderw: request not for disk 1"
  else
    let* disksize := gets (fun s => Z.of_nat (length (disk s))) in
    if disksize <=? sector x then panic "iderw: sector out of range"
    else
      (if has_flag (flags x) B_DIRTY then
         clear_flags b B_DIRTY ;;;
         disk_write (sector x) (data x)
       else
         let* p := gets (fun s => default [] (disk s !! Z.to_nat (sector x))) in
         setb b (set_data p x)) ;;;
      or_flags b B_VALID.

Definition bread (d sec : Z) : M bcache nat :=
  let* b := bget d sec in
  let* x := gets (getb b) in
  (if negb (has_flag (flags x) B_VALID) then iderw b else ret tt) ;;;
  ret b.

Definition bwrite (b : nat) : M bcache unit :=
  let* x := gets (getb b) in
  if negb (has_flag (flags x) B_BUSY) then panic "bwrite"
  else
    or_flags b B_DIRTY ;;;
    iderw b.

Definition brelse (b : nat) : M bcache unit :=
  let* x := gets (getb b) in
  if negb (has_flag (flags x) B_BUSY) then panic "brelse"
  else
    let* n := gets (next b) in
    let* p := gets (prev b) in
    set_prev n p ;;;
    let* p := gets (prev b) in
    let* n := gets (next b) in
    set_next p n ;;;
    push_front b ;;;
    clear_flags b B_BUSY.

(** ** The doubly linked list *)

(** [l] are the buffers strictly between [a] and [c]. *)
Fixpoint dll (s : bcache) (a : nat) (l : list nat) (c : nat) : Prop :=
  match l with
  | [] => next a s = c /\ prev c s = a
  | x :: l' => next a s = x /\ prev x s = a /\ dll s x l' c
  end.

Definition ordered (order : list nat) (s : bcache) : Prop :=
  length (bnext s) = S NBUF /\ length (bprev s) = S NBUF /\
  order ≡ₚ seq 0 NBUF /\ dll s head order head.

(** Membership in lists given by [++] and [::]. *)
Ltac list_in := repeat (rewrite elem_of_app || rewrite elem_of_cons); auto 20.
Ltac list_out :=
  repeat match goal with
  | H : _ ∉ _ ++ _ |- _ => apply not_elem_of_app in H as [? ?]
  | H : _ ∉ _ :: _ |- _ => apply not_elem_of_cons in H as [? ?]
  | |- _ ∉ _ ++ _ => apply not_elem_of_app; split
  | |- _ ∉ _ :: _ => apply not_elem_of_cons; split
  | |- _ ∉ [] => apply not_elem_of_nil
  end; auto; try congruence.

Lemma dll_frame s s' a l c :
  (forall x, x ∈ a :: l -> next x s' = next x s) -> (forall x, x ∈ l ++ [c] -> prev x s' = prev x s) ->
  dll s a l c -> dll s' a l c.
Proof.
  revert a. induction l as [|x l IH]; intros a Hn Hp; simpl in *.
  - intros [? ?]. rewrite Hn, Hp by set_solver. done.
  - intros (? & ? & ?). rewrite Hn, Hp by set_solver. split_and!; [done..|].
    apply IH; [set_solver..|done].
Qed.

Lemma dll_next s a l c : dll s a l c -> next a s = default c (l !! 0%nat).
Proof. destruct l; simpl; naive_solver. Qed.

Lemma dll_prev s a l c : dll s a l c -> prev c s = List.last l a.
Proof.
  revert a. induction l as [|x l IH]; intros a; simpl; [naive_solver|].
  intros (_ & _ & H). rewrite (IH x H). clear. revert x.
  induction l as [|y l IH]; intros x; [done|]. simpl. destruct l; [done|]. apply IH.
Qed.

Lemma dll_app s a l1 x l2 c : dll s a (l1 ++ x :: l2) c <-> dll s a l1 x /\ dll s x l2 c.
Proof.
  revert a. induction l1 as [|y l1 IH]; intros a; simpl; [tauto|]. rewrite IH. tauto.
Qed.

Section Pointers.
Context (s : bcache) (Hn : length (bnext s) = S NBUF) (Hp : length (bprev s) = S NBUF).

Definition with_next (i v : nat) (s : bcache) : bcache :=
  mkCache (bufs s) (<[i:=v]> (bnext s)) (bprev s) (disk s) (trace s).
Definition with_prev (i v : nat) (s : bcache) : bcache :=
  mkCache (bufs s) (bnext s) (<[i:=v]> (bprev s)) (disk s) (trace s).

Lemma next_with_next i v x : (i <= NBUF)%nat ->
  next x (with_next i v s) = if decide (i = x) then v else next x s.
Proof.
  intros. unfold next. simpl. case_decide as E; [subst|].
  - by rewrite list_lookup_insert_eq by lia.
  - by rewrite list_lookup_insert_ne.
Qed.

Lemma prev_with_prev i v x : (i <= NBUF)%nat ->
  prev x (with_prev i v s) = if decide (i = x) then v else prev x s.
Proof.
  intros. unfold prev. simpl. case_decide as E; [subst|].
  - by rewrite list_lookup_insert_eq by lia.
  - by rewrite list_lookup_insert_ne.
Qed.

Lemma next_with_prev i v x : next x (with_prev i v s) = next x s.
Proof. done. Qed.
Lemma prev_with_next i v x : prev x (with_next i v s) = prev x s.
Proof. done. Qed.

End Pointers.

Ltac ptr := simpl; rewrite ?length_insert; unfold head; lia.

(** Removing a buffer from the list: the two writes of [brelse]. *)
Lemma dll_unlink s a l1 b l2 c :
  length (bnext s) = S NBUF -> length (bprev s) = S NBUF ->
  Forall (fun x => x <= NBUF)%nat (a :: c :: l1 ++ b :: l2) ->
  NoDup (l1 ++ b :: l2) -> a ∉ l1 ++ b :: l2 -> c ∉ l1 ++ b :: l2 ->
  dll s a (l1 ++ b :: l2) c ->
  dll (with_next (prev b s) (next b s) (with_prev (next b s) (prev b s) s)) a (l1 ++ l2) c.
Proof.
  intros HLn HLp Hle Hnd Ha Hc Hd.
  apply dll_app in Hd as [Hd1 Hd2].
  pose proof (dll_prev _ _ _ _ Hd1) as Hpb. pose proof (dll_next _ _ _ _ Hd2) as Hnb.
  set (p := prev b s) in *. set (n := next b s) in *.
  set (s' := with_next p n (with_prev n p s)).
  apply NoDup_app in Hnd as (Hnd1 & Hdis & Hnd2). apply NoDup_cons in Hnd2 as [Hb2 Hnd2].
  rewrite Forall_forall in Hle.
  assert (Hpin : p = a /\ l1 = [] \/ exists l1', l1 = l1' ++ [p]).
  { destruct l1 as [|x l1' _] using rev_ind; [by left|right]. exists l1'.
    rewrite last_last in Hpb. by rewrite Hpb. }
  assert (Hnin : n = c /\ l2 = [] \/ exists l2', l2 = n :: l2').
  { destruct l2 as [|x l2']; [by left|right]. exists l2'. simpl in Hnb. by rewrite Hnb. }
  assert (Hple : (p <= NBUF)%nat).
  { apply Hle. clear Hle. destruct Hpin as [[-> ->]|[l1' ->]]; list_in. }
  assert (Hnle : (n <= NBUF)%nat).
  { apply Hle. clear Hle. destruct Hnin as [[-> ->]|[l2' ->]]; list_in. }
  clear Hle.
  assert (HN : forall x, next x s' = if decide (p = x) then n else next x s).
  { intros x. unfold s'. by rewrite next_with_next by ptr. }
  assert (HP : forall x, prev x s' = if decide (n = x) then p else prev x s).
  { intros x. unfold s'. rewrite prev_with_next. by rewrite prev_with_prev by ptr. }
  assert (Hsame : forall a' l c', dll s a' l c' -> p ∉ a' :: l -> n ∉ l ++ [c'] -> dll s' a' l c').
  { intros a' l c' Hl Hp' Hn'. eapply dll_frame; [| |exact Hl].
    - intros x Hx. rewrite HN. case_decide; [congruence|done].
    - intros x Hx. rewrite HP. case_decide; [congruence|done]. }
  assert (Hn1 : forall l', l1 = l' ++ [p] -> dll s' a l' p).
  { intros l' ->. apply dll_app in Hd1 as [Hd1 _].
    apply NoDup_app in Hnd1 as (_ & Hd' & _). apply Hsame; [done| |].
    - clear -Ha Hd'. set_solver.
    - destruct Hnin as [[-> ->]|[l2' ->]]; [clear -Hc|clear -Hdis]; set_solver. }
  assert (Hn2 : forall l', l2 = n :: l' -> dll s' n l' c).
  { intros l' ->. simpl in Hd2. apply NoDup_cons in Hnd2 as [Hn' _]. 
    apply Hsame; [by apply Hd2| |clear -Hn' Hc; set_solver].
    destruct Hpin as [[-> ->]|[l1' ->]]; [clear -Ha|clear -Hdis]; set_solver. }
  assert (Hpn : next p s' = n /\ prev n s' = p) by (rewrite HN, HP, !decide_True by done; done).
  destruct Hpin as [[-> ->]|[l1' ->]], Hnin as [[-> ->]|[l2' ->]]; simpl.
  - done.
  - naive_solver.
  - rewrite app_nil_r. apply dll_app. split; [by apply Hn1|done].
  - rewrite <- app_assoc. apply dll_app. split; [by apply Hn1|]. simpl. naive_solver.
Qed.

(** Inserting it at the front: [push_front]. *)
Lemma dll_push s b l :
  length (bnext s) = S NBUF -> length (bprev s) = S NBUF ->
  Forall (fun x => x < NBUF)%nat (b :: l) -> NoDup l -> b ∉ l ->
  dll s head l head ->
  dll (with_next head b (with_prev (next head s) b (with_prev b head (with_next b (next head s) s))))
    head (b :: l) head.
Proof.
  intros HLn HLp Hlt Hnd Hb Hd. pose proof (dll_next _ _ _ _ Hd) as Hh.
  apply Forall_cons in Hlt as [Hblt Hlt]. rewrite Forall_forall in Hlt.
  set (h := next head s) in *.
  assert (Hhl : h = head /\ l = [] \/ exists l', l = h :: l').
  { destruct l as [|x l']; [by left|right]. exists l'. simpl in Hh. by rewrite Hh. }
  assert (Hhle : (h <= NBUF)%nat).
  { destruct Hhl as [[-> _]|[l' Hl]]; [done|]. apply Nat.lt_le_incl, Hlt. rewrite Hl. apply list_elem_of_here. }
  assert (Hhead : forall x, (x < NBUF)%nat -> x <> head) by (unfold head; lia).
  set (s' := with_next head b _).
  assert (HN : forall x, next x s' = if decide (head = x) then b else if decide (b = x) then h else next x s).
  { intros x. unfold s'. rewrite next_with_next by ptr.
    case_decide; [done|]. rewrite !next_with_prev. by rewrite next_with_next by ptr. }
  assert (HP : forall x, prev x s' = if decide (h = x) then b else if decide (b = x) then head else prev x s).
  { intros x. unfold s'. rewrite prev_with_next.
    rewrite prev_with_prev by ptr.
    case_decide; [done|]. rewrite prev_with_prev by ptr. by rewrite prev_with_next. }
  assert (Hbh : b <> head) by by apply Hhead.
  assert (Hbh' : h <> b) by (destruct Hhl as [[-> _]|[l' Hl]]; [done|clear -Hb Hl; set_solver]).
  simpl. split_and!.
  - rewrite HN. by rewrite decide_True.
  - rewrite HP, decide_False, decide_True by done. done.
  - assert (Hb1 : next b s' = h) by (rewrite HN, decide_False, decide_True by done; done).
    assert (Hb2 : prev h s' = b) by (rewrite HP, decide_True by done; done).
    destruct Hhl as [[-> ->]|[l' ->]]; simpl; [done|]. split_and!; [done..|].
    apply NoDup_cons in Hnd as [Hhl' _]. simpl in Hd. destruct Hd as (_ & _ & Hd).
    eapply dll_frame; [| |exact Hd].
    + intros x Hx. rewrite HN. assert (x <> head) by (apply Hhead, Hlt; done).
      rewrite !decide_False; [done|clear -Hb Hx; set_solver|done].
    + intros x Hx. rewrite HP. rewrite !decide_False; [done|clear -Hb Hbh Hx; set_solver|].
      intros <-. apply elem_of_app in Hx as [Hx| ->%list_elem_of_singleton]; [done|].
      apply (Hhead head); [apply Hlt, list_elem_of_here|done].
Qed.

(** ** Flags *)

Definition busy (x : buf) : bool := has_flag (flags x) B_BUSY.
Definition valid (x : buf) : bool := has_flag (flags x) B_VALID.
Definition dirty (x : buf) : bool := has_flag (flags x) B_DIRTY.

Definition bits (f : Z) : bool * bool * bool :=
  (has_flag f B_BUSY, has_flag f B_VALID, has_flag f B_DIRTY).

Lemma bits_set f g :
  g = B_BUSY \/ g = B_VALID \/ g = B_DIRTY -> 0 <= f < 8 ->
  0 <= set_flag f g < 8 /\
  bits (set_flag f g) = (has_flag f B_BUSY || (g =? B_BUSY), has_flag f B_VALID || (g =? B_VALID),
                         has_flag f B_DIRTY || (g =? B_DIRTY)).
Proof.
  intros Hg Hf. assert (H : f = 0 \/ f = 1 \/ f = 2 \/ f = 3 \/ f = 4 \/ f = 5 \/ f = 6 \/ f = 7) by lia.
  destruct Hg as [-> |[-> | ->]];
    destruct H as [-> |[-> |[-> |[-> |[-> |[-> |[-> | ->]]]]]]]; vm_compute; intuition congruence.
Qed.

Lemma bits_clear f g :
  g = B_BUSY \/ g = B_VALID \/ g = B_DIRTY -> 0 <= f < 8 ->
  0 <= clear_flag f g < 8 /\
  bits (clear_flag f g) = (has_flag f B_BUSY && negb (g =? B_BUSY), has_flag f B_VALID && negb (g =? B_VALID),
                           has_flag f B_DIRTY && negb (g =? B_DIRTY)).
Proof.
  intros Hg Hf. assert (H : f = 0 \/ f = 1 \/ f = 2 \/ f = 3 \/ f = 4 \/ f = 5 \/ f = 6 \/ f = 7) by lia.
  destruct Hg as [-> |[-> | ->]];
    destruct H as [-> |[-> |[-> |[-> |[-> |[-> |[-> | ->]]]]]]]; vm_compute; intuition congruence.
Qed.

Lemma valid_clean_test f :
  0 <= f < 8 -> (Z.land f (Z.lor B_VALID B_DIRTY) =? B_VALID) = has_flag f B_VALID && negb (has_flag f B_DIRTY).
Proof.
  intros Hf. assert (H : f = 0 \/ f = 1 \/ f = 2 \/ f = 3 \/ f = 4 \/ f = 5 \/ f = 6 \/ f = 7) by lia.
  destruct H as [-> |[-> |[-> |[-> |[-> |[-> |[-> | ->]]]]]]]; reflexivity.
Qed.

Lemma recyclable_spec x : recyclable x = negb (busy x) && negb (dirty x).
Proof. unfold recyclable, busy, dirty, has_flag. by rewrite !negb_involutive. Qed.

(** ** The invariant *)

(** Buffer [b] caches sector [sec] of the disk. *)
Definition cached (s : bcache) (b : nat) (sec : Z) (x : buf) : Prop :=
  bufs s !! b = Some x /\ dev x = 1 /\ sector x = sec.

Definition disk_block (s : bcache) (sec : Z) : list Z :=
  if decide (0 <= sec) then default [] (disk s !! Z.to_nat sec) else [].

Definition buf_ok (n : nat) (x : buf) : Prop :=
  0 <= flags x < 8 /\ length (data x) = BSIZE /\
  (dev x = 1 -> valid x = true /\ 0 <= sector x < Z.of_nat n) /\
  (dev x <> 1 -> busy x = false /\ dirty x = false).

Record cache_ok (s : bcache) : Prop := {
  c_len : length (bufs s) = NBUF;
  c_order : exists order, ordered order s;
  c_buf : Forall (buf_ok (length (disk s))) (bufs s);
  c_uniq : forall b b' sec x x', cached s b sec x -> cached s b' sec x' -> b = b';
  c_clean : forall b sec x, cached s b sec x -> busy x = false -> dirty x = false ->
              data x = disk_block s sec;
  c_disk : Forall (fun d => length d = BSIZE) (disk s)
}.

(** What a sector currently contains, for the kernel: its buffer, or the disk. *)
Definition content (s : bcache) (sec : Z) : list Z :=
  match list_find (fun x => dev x = 1 /\ sector x = sec) (bufs s) with
  | Some (_, x) => data x
  | None => disk_block s sec
  end.

(** The sectors whose buffers are held, and those whose buffers are pinned. *)
Definition sectors_with (P : buf -> bool) (s : bcache) : gset Z :=
  list_to_set (sector <$> filter (fun x => dev x = 1 /\ P x = true) (bufs s)).
Definition held : bcache -> gset Z := sectors_with busy.
Definition pinned : bcache -> gset Z := sectors_with dirty.

Lemma elem_of_sectors_with P s sec :
  sec ∈ sectors_with P s <-> exists b x, cached s b sec x /\ P x = true.
Proof.
  unfold sectors_with, cached. rewrite elem_of_list_to_set, list_elem_of_fmap. split.
  - intros (x & -> & [[Hd HP] [b Hb]%list_elem_of_lookup_1]%list_elem_of_filter). eauto 10.
  - intros (b & x & (Hb & Hd & <-) & HP). exists x. split; [done|].
    apply list_elem_of_filter. split; [done|]. by eapply list_elem_of_lookup_2.
Qed.

Lemma content_cached s b sec x : cache_ok s -> cached s b sec x -> content s sec = data x.
Proof.
  intros OK Hc. unfold content.
  destruct (list_find _ (bufs s)) as [[b' y]|] eqn:Hf.
  - apply list_find_Some in Hf as (Hb' & [Hd Hs] & _).
    assert (b' = b) as -> by (eapply (c_uniq s OK b' b sec y x); [by split|done]).
    destruct Hc as [Hb _]. congruence.
  - apply list_find_None in Hf. destruct Hc as (Hb & Hd & Hs).
    rewrite Forall_lookup in Hf. by destruct (Hf b x Hb).
Qed.

Lemma content_uncached s sec : (forall b x, ~ cached s b sec x) -> content s sec = disk_block s sec.
Proof.
  intros Hn. unfold content. destruct (list_find _ (bufs s)) as [[b' y]|] eqn:Hf; [|done].
  apply list_find_Some in Hf as (Hb' & [Hd Hs] & _). by destruct (Hn b' y).
Qed.

Lemma cached_dec s sec : (exists b x, cached s b sec x) \/ (forall b x, ~ cached s b sec x).
Proof.
  destruct (list_find (fun x => dev x = 1 /\ sector x = sec) (bufs s)) as [[b x]|] eqn:Hf.
  - left. apply list_find_Some in Hf as (Hb & [? ?] & _). by exists b, x.
  - right. apply list_find_None in Hf. rewrite Forall_lookup in Hf. intros b x (Hb & ? & ?).
    by destruct (Hf b x Hb).
Qed.

(** ** Searching the list *)

Definition found (s : bcache) (P : buf -> bool) (l : list nat) (r : option nat) : Prop :=
  match r with
  | Some b => b ∈ l /\ P (getb b s) = true
  | None => forall b, b ∈ l -> P (getb b s) = false
  end.

Lemma find_next_found s P fuel a l :
  dll s a l head -> head ∉ l -> (length l < fuel)%nat ->
  found s P l (find_next fuel P (next a s) s).
Proof.
  revert fuel a. induction l as [|x l IH]; intros [|fuel] a Hd Hh Hf; simpl in *; try lia.
  - destruct Hd as [-> _]. rewrite decide_True by done. intros b []%not_elem_of_nil.
  - destruct Hd as (-> & _ & Hd). apply not_elem_of_cons in Hh as [Hx Hh].
    rewrite decide_False by done. destruct (P (getb x s)) eqn:HP.
    + split; [apply list_elem_of_here|done].
    + specialize (IH fuel x Hd Hh ltac:(lia)).
      destruct (find_next fuel P (next x s) s) as [b|]; simpl in *.
      * destruct IH. split; [by apply list_elem_of_further|done].
      * intros b [->|Hb]%elem_of_cons; auto.
Qed.

Lemma find_prev_found s P fuel l c :
  dll s head l c -> head ∉ l -> (length l < fuel)%nat ->
  found s P l (find_prev fuel P (prev c s) s).
Proof.
  revert fuel c. induction l as [|x l IH] using rev_ind; intros [|fuel] c Hd Hh Hf;
    rewrite ?length_app in Hf; simpl in *; try lia.
  - destruct Hd as [_ ->]. rewrite decide_True by done. intros b []%not_elem_of_nil.
  - apply dll_app in Hd as [Hd [_ ->]]. apply not_elem_of_app in Hh as [Hh Hx].
    rewrite decide_False by (intros ->; apply Hx, list_elem_of_here).
    destruct (P (getb x s)) eqn:HP.
    + split; [|done]. apply elem_of_app. right. apply list_elem_of_here.
    + specialize (IH fuel x Hd Hh ltac:(lia)).
      destruct (find_prev fuel P (prev x s) s) as [b|]; simpl in *.
      * destruct IH. split; [apply elem_of_app; by left|done].
      * intros b [Hb|Hb%list_elem_of_singleton]%elem_of_app; [by apply IH|by subst].
Qed.

Lemma ordered_elem order s b : ordered order s -> b ∈ order <-> (b < NBUF)%nat.
Proof.
  intros (_ & _ & HP & _). rewrite HP, elem_of_seq. lia.
Qed.

Lemma ordered_links order s s' :
  bnext s' = bnext s -> bprev s' = bprev s -> ordered order s -> ordered order s'.
Proof.
  intros Hn Hp (H1 & H2 & H3 & H4). unfold ordered. rewrite Hn, Hp. split_and!; [done..|].
  eapply dll_frame; [| |exact H4]; intros x _; unfold next, prev; congruence.
Qed.

Lemma ordered_length order s : ordered order s -> length order = NBUF.
Proof. intros (_ & _ & HP & _). by rewrite HP, length_seq. Qed.

Lemma getb_lookup s b x : bufs s !! b = Some x -> getb b s = x.
Proof. unfold getb. by intros ->. Qed.

Lemma lookup_getb s b : cache_ok s -> (b < NBUF)%nat -> bufs s !! b = Some (getb b s).
Proof.
  intros OK Hb. unfold getb. destruct (lookup_lt_is_Some_2 (bufs s) b) as [x ->]; [|done].
  by rewrite (c_len s OK).
Qed.

(** The two searches of [bget], as functions of the buffers alone. *)
Lemma search_hit s sec :
  cache_ok s ->
  match find_next (S NBUF) (caches 1 sec) (next head s) s with
  | Some b => cached s b sec (getb b s)
  | None => forall b x, ~ cached s b sec x
  end.
Proof.
  intros OK. destruct (c_order s OK) as [order Ho].
  assert (Hh : head ∉ order) by (rewrite (ordered_elem _ _ _ Ho); unfold head; lia).
  assert (Hlen : (length order < S NBUF)%nat) by (rewrite (ordered_length _ _ Ho); lia).
  pose proof Ho as (H1 & H2 & H3 & Hd).
  pose proof (find_next_found s (caches 1 sec) (S NBUF) head order Hd Hh Hlen) as Hf.
  destruct (find_next _ _ _ _) as [b|]; simpl in Hf.
  - destruct Hf as [Hb Hc]. apply (ordered_elem order s b Ho) in Hb.
    unfold caches in Hc. apply andb_true_iff in Hc as [?%Z.eqb_eq ?%Z.eqb_eq].
    split_and!; [by apply lookup_getb|done|done].
  - intros b x (Hb & Hdv & Hs). specialize (Hf b).
    rewrite (ordered_elem order s b Ho), (getb_lookup s b x Hb) in Hf.
    unfold caches in Hf. rewrite Hdv, Hs, !Z.eqb_refl in Hf.
    pose proof (lookup_lt_Some _ _ _ Hb) as Hlt. rewrite (c_len s OK) in Hlt. by specialize (Hf Hlt).
Qed.

Lemma search_victim s :
  cache_ok s ->
  match find_prev (S NBUF) recyclable (prev head s) s with
  | Some b => (b < NBUF)%nat /\ recyclable (getb b s) = true
  | None => forall b, (b < NBUF)%nat -> recyclable (getb b s) = false
  end.
Proof.
  intros OK. destruct (c_order s OK) as [order Ho].
  assert (Hh : head ∉ order) by (rewrite (ordered_elem _ _ _ Ho); unfold head; lia).
  assert (Hlen : (length order < S NBUF)%nat) by (rewrite (ordered_length _ _ Ho); lia).
  pose proof Ho as (H1 & H2 & H3 & Hd).
  pose proof (find_prev_found s recyclable (S NBUF) order head Hd Hh Hlen) as Hf.
  destruct (find_prev _ _ _ _) as [b|]; simpl in Hf.
  - by rewrite (ordered_elem order s b) in Hf.
  - intros b Hb. apply Hf. by apply (ordered_elem order s b).
Qed.

(** If fewer than NBUF sectors are held or pinned, there is a victim. *)
Lemma victim_exists s :
  cache_ok s -> (size (held s ∪ pinned s) < NBUF)%nat ->
  exists b, (b < NBUF)%nat /\ recyclable (getb b s) = true.
Proof.
  intros OK Hsz.
  destruct (decide (Exists (fun b => recyclable (getb b s) = true) (seq 0 NBUF))) as [HE|HE].
  { apply Exists_exists in HE as (b & Hb%elem_of_seq & Hr). exists b. split; [lia|done]. }
  exfalso. apply not_Exists_Forall in HE; [|intros ?; apply _]. rewrite Forall_forall in HE.
  set (secs := (fun b => sector (getb b s)) <$> seq 0 NBUF).
  assert (Hall : forall b, (b < NBUF)%nat -> exists x, cached s b (sector (getb b s)) x /\
    x = getb b s /\ (busy x = true \/ dirty x = true)).
  { intros b Hb. exists (getb b s). pose proof (lookup_getb s b OK Hb) as Hl.
    assert (Hr : recyclable (getb b s) = false).
    { apply not_true_is_false. apply HE. apply elem_of_seq. lia. }
    rewrite recyclable_spec in Hr.
    assert (Hbd : busy (getb b s) = true \/ dirty (getb b s) = true)
      by (destruct (busy _), (dirty _); auto).
    split_and!; [|done|done]. split_and!; [done| |done].
    pose proof (c_buf s OK) as Hok. rewrite Forall_lookup in Hok.
    destruct (Hok b _ Hl) as (_ & _ & _ & Hn). destruct (decide (dev (getb b s) = 1)); [done|].
    destruct (Hn ltac:(done)). intuition congruence. }
  assert (Hnd : NoDup secs).
  { apply NoDup_fmap_2_strong; [|apply NoDup_seq]. intros b b' Hb%elem_of_seq Hb'%elem_of_seq Heq.
    destruct (Hall b ltac:(lia)) as (x & Hx & _), (Hall b' ltac:(lia)) as (y & Hy & _).
    rewrite Heq in Hx. by eapply (c_uniq s OK). }
  assert (Hsub : list_to_set secs ⊆ held s ∪ pinned s).
  { intros sec Hsec. apply elem_of_list_to_set, list_elem_of_fmap in Hsec as (b & -> & Hb%elem_of_seq).
    destruct (Hall b ltac:(lia)) as (x & Hx & -> & [Hb'|Hb']); apply elem_of_union; [left|right];
      apply elem_of_sectors_with; eauto. }
  apply subseteq_size in Hsub. rewrite size_list_to_set in Hsub by done.
  unfold secs in Hsub. rewrite length_fmap, length_seq in Hsub. lia.
Qed.

(** ** Replacing one buffer *)

Definition with_buf (b : nat) (y : buf) (s : bcache) : bcache :=
  mkCache (<[b:=y]> (bufs s)) (bnext s) (bprev s) (disk s) (trace s).

Section SetBuf.
Context (s : bcache) (OK : cache_ok s) (b : nat) (x y : buf) (Hb : bufs s !! b = Some x).

Lemma cached_set b' sec z :
  cached (with_buf b y s) b' sec z <->
  (b' = b /\ z = y /\ dev y = 1 /\ sector y = sec) \/ (b' <> b /\ cached s b' sec z).
Proof.
  unfold cached. simpl. rewrite list_lookup_insert_Some.
  pose proof (lookup_lt_Some _ _ _ Hb). naive_solver.
Qed.

Lemma getb_set : getb b (with_buf b y s) = y.
Proof.
  apply getb_lookup. simpl. apply list_lookup_insert_eq. by eapply lookup_lt_Some.
Qed.

(** No other buffer caches the sector of the new one. *)
Definition alone : Prop := forall b' z, b' <> b -> ~ cached s b' (sector y) z.

Lemma alone_same : dev x = 1 -> sector y = sector x -> alone.
Proof.
  intros Hd Hs b' z Hne Hz. apply Hne. eapply (c_uniq s OK); [exact Hz|]. by rewrite Hs.
Qed.

Lemma set_buf_ok :
  buf_ok (length (disk s)) y -> (dev y = 1 -> alone) ->
  (dev y = 1 -> busy y = false -> dirty y = false -> data y = disk_block s (sector y)) ->
  cache_ok (with_buf b y s).
Proof.
  intros Hy Hal Hcl. split; simpl.
  - by rewrite length_insert, (c_len s OK).
  - destruct (c_order s OK) as [order Ho]. exists order. by apply (ordered_links order s).
  - apply Forall_insert; [apply (c_buf s OK)|done].
  - intros b1 b2 sec z z' [(-> & -> & Hd & <-)|[Hn1 H1]]%cached_set [(-> & -> & Hd' & Hs)|[Hn2 H2]]%cached_set.
    + done.
    + by destruct (Hal Hd b2 z').
    + subst sec. by destruct (Hal Hd' b1 z).
    + by eapply (c_uniq s OK).
  - intros b1 sec z [(-> & -> & Hd & <-)|[Hn1 H1]]%cached_set; [by apply Hcl|].
    by apply (c_clean s OK b1).
  - apply (c_disk s OK).
Qed.

Lemma set_content sec :
  cache_ok (with_buf b y s) -> dev y = 1 ->
  (dev x = 1 -> sector x = sector y \/ data x = disk_block s (sector x)) ->
  content (with_buf b y s) sec = if decide (sec = sector y) then data y else content s sec.
Proof.
  intros OK' Hd Hx. case_decide as E.
  - subst sec. apply (content_cached _ b); [done|]. apply cached_set. by left.
  - destruct (cached_dec s sec) as [(b' & z & Hz)|Hn].
    + rewrite (content_cached s b' sec z) by done. destruct (decide (b' = b)) as [->|Hne].
      * assert (z = x) as -> by (destruct Hz; congruence). destruct Hz as (_ & Hdx & Hsx).
        rewrite content_uncached; [destruct (Hx Hdx); [congruence|]; by subst sec|].
        intros b' z [(-> & -> & _ & ?)|[? Hz]]%cached_set; [done|]. subst sec.
        apply H. by eapply (c_uniq s OK).
      * apply (content_cached _ b'); [done|]. apply cached_set. by right.
    + rewrite !content_uncached; [done|done|].
      intros b' z [(-> & -> & _ & ?)|[? Hz]]%cached_set; [done|]. by eapply Hn.
Qed.

Lemma sectors_set P :
  dev y = 1 -> alone -> (dev x = 1 -> sector x = sector y \/ P x = false) ->
  sectors_with P (with_buf b y s) =
    if P y then {[sector y]} ∪ sectors_with P s else sectors_with P s ∖ {[sector y]}.
Proof.
  intros Hd Hal Hx. apply set_eq. intros sec.
  assert (Hkeep : sec <> sector y ->
    sec ∈ sectors_with P (with_buf b y s) <-> sec ∈ sectors_with P s).
  { intros Hne. rewrite !elem_of_sectors_with. split.
    - intros (b' & z & [(-> & -> & _ & ?)|[? Hz]]%cached_set & HP); [done|eauto].
    - intros (b' & z & Hz & HP). exists b', z. rewrite cached_set. split; [|done].
      right. split; [|done]. intros ->. assert (z = x) as -> by (destruct Hz; congruence).
      destruct Hz as (_ & Hdx & Hsx). destruct (Hx Hdx); congruence. }
  assert (Hown : sector y ∈ sectors_with P (with_buf b y s) <-> P y = true).
  { rewrite elem_of_sectors_with. split.
    - intros (b' & z & [(-> & -> & _)|[? Hz]]%cached_set & HP); [done|]. by destruct (Hal b' z).
    - intros HP. exists b, y. rewrite cached_set. auto 10. }
  destruct (decide (sec = sector y)) as [->|Hne].
  - rewrite Hown. destruct (P y); set_solver.
  - rewrite Hkeep by done. destruct (P y); set_solver.
Qed.

End SetBuf.

(** ** What the operations do *)

(** A routine's caller holds buffer [b], which caches sector [sec]. *)
Definition holds (s : bcache) (b : nat) (sec : Z) : Prop :=
  exists x, cached s b sec x /\ busy x = true.

Lemma holds_cached s b sec : holds s b sec -> cached s b sec (getb b s) /\ busy (getb b s) = true.
Proof.
  intros (x & Hc & Hx). pose proof Hc as (Hb & _ & _). by rewrite (getb_lookup s b x Hb).
Qed.

Lemma holds_data s b sec : cache_ok s -> holds s b sec -> data (getb b s) = content s sec.
Proof. intros OK [Hc _]%holds_cached. symmetry. by eapply content_cached. Qed.

Lemma holds_held s b sec : holds s b sec -> sec ∈ held s.
Proof. intros (x & Hc & Hx). apply elem_of_sectors_with. eauto. Qed.

(** Nothing but what is stated changes for the holders of other buffers. *)
Definition keeps (s s' : bcache) : Prop :=
  forall b sec, holds s b sec -> holds s' b sec.

Lemma keeps_set s b x y :
  bufs s !! b = Some x ->
  (busy x = true -> dev x = 1 -> busy y = true /\ dev y = 1 /\ sector y = sector x) ->
  keeps s (with_buf b y s).
Proof.
  intros Hb Hy b' sec (z & Hz & Hbz). destruct (decide (b' = b)) as [->|Hne].
  - assert (z = x) as -> by (destruct Hz; congruence). destruct Hz as (_ & Hd & Hs).
    destruct (Hy Hbz Hd) as (? & ? & ?). exists y. rewrite (cached_set s b x y Hb). split; [|done].
    left. split_and!; [done..|congruence].
  - exists z. rewrite (cached_set s b x y Hb). auto.
Qed.

(** ** The abstract cache

    To its clients the cache is a function from sectors to contents, the sets of
    held and pinned sectors, and the disk below. *)

Record cview := mkView {
  cv_content : Z -> list Z;
  cv_held : gset Z;
  cv_pinned : gset Z;
  cv_disk : list (list Z);
  cv_trace : list (Z * list Z)
}.

Definition sees (s : bcache) (v : cview) : Prop :=
  cache_ok s /\ (forall sec, content s sec = cv_content v sec) /\
  held s = cv_held v /\ pinned s = cv_pinned v /\ disk s = cv_disk v /\ trace s = cv_trace v.

Definition fset (f : Z -> list Z) (sec : Z) (d : list Z) (sec' : Z) : list Z :=
  if decide (sec' = sec) then d else f sec'.

(** Rewriting the buffer of a cached sector in place. *)
Lemma sees_set s v b sec x y :
  sees s v -> cached s b sec x -> buf_ok (length (disk s)) y -> dev y = 1 -> sector y = sec ->
  (busy y = false -> dirty y = false -> data y = disk_block s sec) ->
  sees (with_buf b y s)
    (mkView (fset (cv_content v) sec (data y))
       (if busy y then {[sec]} ∪ cv_held v else cv_held v ∖ {[sec]})
       (if dirty y then {[sec]} ∪ cv_pinned v else cv_pinned v ∖ {[sec]})
       (cv_disk v) (cv_trace v)).
Proof.
  intros (OK & Hc & Hh & Hp & Hd & Ht) (Hb & Hdx & Hsx) Hy Hdy Hsy Hcl.
  assert (Hal : alone s b y) by (eapply alone_same; eauto; congruence).
  assert (OK' : cache_ok (with_buf b y s)).
  { eapply set_buf_ok; eauto. intros _ ? ?. rewrite Hsy. auto. }
  split_and!; simpl; [done| |..|done|done].
  - intros sec'. rewrite (set_content s OK b x y Hb) by (auto; left; congruence).
    unfold fset. rewrite Hsy. case_decide; [done|apply Hc].
  - unfold held in *. rewrite (sectors_set s OK b x y Hb) by (auto; left; congruence).
    by rewrite Hsy, Hh.
  - unfold pinned in *. rewrite (sectors_set s OK b x y Hb) by (auto; left; congruence).
    by rewrite Hsy, Hp.
Qed.

Lemma sees_eq s c h p d t c' h' p' :
  sees s (mkView c h p d t) -> (forall sec, c sec = c' sec) -> h = h' -> p = p' ->
  sees s (mkView c' h' p' d t).
Proof.
  intros (? & Hs & ? & ? & ? & ?) Hc <- <-. split_and!; simpl; auto. intros. by rewrite <- Hc.
Qed.

Lemma sectors_own s (P : buf -> bool) b sec x :
  cache_ok s -> cached s b sec x ->
  (if P x : bool then {[sec]} ∪ sectors_with P s else sectors_with P s ∖ {[sec]}) = sectors_with P s.
Proof.
  intros OK Hc. apply set_eq. intros z. destruct (P x) eqn:E.
  - rewrite elem_of_union, elem_of_singleton. split; [|tauto]. intros [-> |?]; [|done].
    apply elem_of_sectors_with. eauto.
  - rewrite elem_of_difference, elem_of_singleton. split; [tauto|]. intros Hz. split; [done|].
    intros ->. apply elem_of_sectors_with in Hz as (b' & x' & Hc' & Hx').
    assert (b' = b) as -> by by eapply (c_uniq s OK). destruct Hc as [Hb _], Hc' as [Hb' _]. congruence.
Qed.

Lemma or_flags_state b g s :
  or_flags b g s = Ret tt (with_buf b (set_flags (set_flag (flags (getb b s)) g) (getb b s)) s).
Proof. done. Qed.

Lemma clear_flags_state b g s :
  clear_flags b g s = Ret tt (with_buf b (set_flags (clear_flag (flags (getb b s)) g) (getb b s)) s).
Proof. done. Qed.

Lemma cached_buf_ok s b sec x : cache_ok s -> cached s b sec x -> buf_ok (length (disk s)) x.
Proof. intros OK (Hb & _). pose proof (c_buf s OK) as H. rewrite Forall_lookup in H. eauto. Qed.

Definition bits_of (x : buf) : bool * bool * bool := (busy x, valid x, dirty x).

Lemma set_flags_ok n g x :
  g = B_BUSY \/ g = B_VALID \/ g = B_DIRTY -> buf_ok n x -> dev x = 1 ->
  let y := set_flags (set_flag (flags x) g) x in
  buf_ok n y /\ bits_of y = (busy x || (g =? B_BUSY), valid x || (g =? B_VALID), dirty x || (g =? B_DIRTY)).
Proof.
  intros Hg (Hf & Hl & H1 & H2) Hd. destruct (bits_set (flags x) g Hg Hf) as [Hr Hb].
  cbn zeta. split; [|exact Hb]. destruct (H1 Hd) as [Hv Hs]. split_and!; simpl; [lia..|done| |done].
  intros _. split; [|done]. injection Hb as _ Hv' _. unfold valid in *. simpl. by rewrite Hv', Hv.
Qed.

Lemma clear_flags_ok n g x :
  g = B_BUSY \/ g = B_DIRTY -> buf_ok n x -> dev x = 1 ->
  let y := set_flags (clear_flag (flags x) g) x in
  buf_ok n y /\
  bits_of y = (busy x && negb (g =? B_BUSY), valid x, dirty x && negb (g =? B_DIRTY)).
Proof.
  intros Hg (Hf & Hl & H1 & H2) Hd.
  destruct (bits_clear (flags x) g ltac:(tauto) Hf) as [Hr Hb].
  destruct (H1 Hd) as [Hv Hs]. cbn zeta.
  assert (Hb' : bits (clear_flag (flags x) g) =
    (busy x && negb (g =? B_BUSY), valid x, dirty x && negb (g =? B_DIRTY))).
  { rewrite Hb. unfold busy, valid, dirty. destruct Hg as [-> | ->]; simpl; by rewrite !andb_true_r. }
  split; [|exact Hb']. split_and!; simpl; [lia..|done| |done].
  intros _. split; [|done]. injection Hb' as _ Hv' _. unfold valid in *. simpl. by rewrite Hv', Hv.
Qed.

Lemma same_data s v b sec x y :
  sees s v -> cached s b sec x -> data y = data x ->
  forall sec', fset (cv_content v) sec (data y) sec' = cv_content v sec'.
Proof.
  intros (OK & Hc & _) Hx Hy sec'. unfold fset. case_decide; [subst|done].
  by rewrite <- Hc, (content_cached s b sec x), Hy.
Qed.

(** [bget] and [bread] when the sector is cached. *)
Lemma bread_hit s v b sec :
  sees s v -> cached s b sec (getb b s) -> busy (getb b s) = false ->
  wp (or_flags b B_BUSY ;;; ret b) (fun b s' => has_flag (flags (getb b s')) B_VALID = true /\
    sees s' (mkView (cv_content v) ({[sec]} ∪ cv_held v) (cv_pinned v) (cv_disk v) (cv_trace v)) /\
    holds s' b sec /\ keeps s s') s.
Proof.
  intros Hv Hcb Hbu. pose proof Hv as (OK & Hc & Hh & Hp & Hd & Ht).
  set (x := getb b s) in *. pose proof Hcb as (Hb & Hdx & Hsx).
  pose proof (cached_buf_ok _ _ _ _ OK Hcb) as Hok.
  destruct (set_flags_ok _ B_BUSY x ltac:(auto) Hok Hdx) as [Hy Hbits].
  set (y := set_flags (set_flag (flags x) B_BUSY) x) in *.
  assert (Hbits' : busy y = true /\ valid y = true /\ dirty y = dirty x).
  { destruct Hok as (_ & _ & Hval & _). destruct (Hval Hdx) as [Hvx _].
    injection Hbits as -> -> ->. rewrite Hvx. simpl. rewrite !orb_false_r.
    split_and!; [apply orb_true_r|done|done]. }
  destruct Hbits' as (Hby & Hvy & Hdy).
  apply wp_bind. unfold wp at 1. rewrite or_flags_state. fold x. fold y. apply wp_ret.
  split_and!.
  - by rewrite (getb_set s b x).
  - eapply sees_eq; [eapply (sees_set s v b sec x y)| | |]; auto; try congruence.
    + by eapply same_data.
    + by rewrite Hby.
    + rewrite Hdy, <- Hp. by apply (sectors_own s dirty b sec x).
  - exists y. split; [|done]. apply (cached_set s b x y Hb). left. split_and!; auto.
  - eapply keeps_set; eauto.
Qed.

(** The read path of [iderw] into a buffer just recycled. *)
Lemma iderw_read s b sec d :
  (b < length (bufs s))%nat -> 0 <= sec < Z.of_nat (length (disk s)) ->
  iderw b (with_buf b (mkBuf B_BUSY 1 sec d) s) =
    Ret tt (with_buf b (mkBuf (Z.lor B_BUSY B_VALID) 1 sec (disk_block s sec)) s).
Proof.
  intros Hb Hsec. unfold iderw, bind, gets, setb, modify, or_flags. 
  assert (Hg : forall y s, (b < length (bufs s))%nat -> getb b (with_buf b y s) = y).
  { intros y s1 Hs1. unfold getb, with_buf. simpl. by rewrite list_lookup_insert_eq. }
  rewrite Hg by done. simpl. rewrite (proj2 (Z.leb_gt _ _)) by lia. simpl.
  change (mkCache (<[b:=?y]> (<[b:=?z]> (bufs s))) ?n ?p ?d ?t) with
    (with_buf b y (with_buf b z s)).
  unfold bind, gets, setb, modify.
  rewrite Hg by (simpl; by rewrite length_insert). unfold with_buf, disk_block. simpl.
  rewrite !list_insert_insert_eq, decide_True by lia. done.
Qed.

(** [bread] of a sector nobody holds, with room for its buffer. *)
Lemma bread_wp s v sec :
  sees s v -> 0 <= sec < Z.of_nat (length (cv_disk v)) -> sec ∉ cv_held v ->
  (sec ∈ cv_pinned v \/ (size (cv_held v ∪ cv_pinned v) < NBUF)%nat) ->
  wp (bread 1 sec) (fun b s' =>
    sees s' (mkView (cv_content v) ({[sec]} ∪ cv_held v) (cv_pinned v) (cv_disk v) (cv_trace v)) /\
    holds s' b sec /\ keeps s s') s.
Proof.
  intros Hv Hsec Hfree Hroom. pose proof Hv as (OK & Hc & Hh & Hp & Hd & Ht).
  unfold bread, bget. apply wp_bind, wp_bind. apply wp_gets.
  pose proof (search_hit s sec OK) as Hhit.
  destruct (find_next (S NBUF) (caches 1 sec) (next head s) s) as [b|].
  - apply wp_bind, wp_gets.
    assert (Hbu : busy (getb b s) = false).
    { apply not_true_is_false. intros Hbu. apply Hfree. rewrite <- Hh.
      apply elem_of_sectors_with. eauto. }
    unfold busy in Hbu. rewrite Hbu. cbn [negb].
    eapply wp_mono; [by apply (bread_hit s v b sec)|]. intros b' s' (Hval & Hpost).
    apply wp_bind, wp_gets. rewrite Hval. cbn [negb]. apply wp_bind, wp_ret, wp_ret. done.
  - assert (Hnotp : sec ∉ pinned s).
    { intros (b & x & Hx & _)%elem_of_sectors_with. by eapply Hhit. }
    apply wp_bind, wp_gets. pose proof (search_victim s OK) as Hvic.
    destruct (find_prev (S NBUF) recyclable (prev head s) s) as [b|].
    2: { exfalso. destruct (victim_exists s OK) as (b & Hb & Hr).
         - rewrite Hh, Hp. destruct Hroom as [?|?]; [congruence|done].
         - rewrite Hvic in Hr; done. }
    destruct Hvic as [Hb Hr]. pose proof (lookup_getb s b OK Hb) as Hlb. set (x := getb b s) in *.
    apply wp_bind, wp_gets, wp_bind. fold x. apply wp_modify, wp_ret.
    apply wp_bind, wp_gets. fold (with_buf b (mkBuf B_BUSY 1 sec (data x)) s).
    rewrite (getb_set s b x) by done. cbn [flags]. change (negb (has_flag B_BUSY B_VALID)) with true.
    cbv iota. apply wp_bind. unfold wp at 1. rewrite iderw_read by (rewrite ?(c_len s OK), ?Hd; done).
    apply wp_ret. set (y := mkBuf (Z.lor B_BUSY B_VALID) 1 sec (disk_block s sec)).
    rewrite recyclable_spec in Hr. apply andb_true_iff in Hr as [Hr1%negb_true_iff Hr2%negb_true_iff].
    assert (Hal : alone s b y) by (intros b' z _; apply Hhit).
    assert (Hxc : dev x = 1 -> sector x = sector y \/ data x = disk_block s (sector x)).
    { intros Hdx. right. by apply (c_clean s OK b (sector x) x). }
    assert (Hlen : length (disk_block s sec) = BSIZE).
    { unfold disk_block. rewrite decide_True by lia. rewrite <- Hd in Hsec. destruct (lookup_lt_is_Some_2 (disk s) (Z.to_nat sec)) as [d Hdd];
        [lia|]. rewrite Hdd. simpl. pose proof (c_disk s OK) as HD. rewrite Forall_lookup in HD. eauto. }
    assert (Hyok : buf_ok (length (disk s)) y).
    { split_and!; simpl; [done|done|done|intros _; split; [done|by rewrite Hd]|done]. }
    assert (OK' : cache_ok (with_buf b y s)) by (eapply set_buf_ok; eauto).
    split_and!.
    + split_and!; simpl; [done| | | |done|done].
      * intros sec'. rewrite (set_content s OK b x y Hlb) by auto.
        simpl. case_decide; [subst|apply Hc]. rewrite <- Hc. symmetry. by apply content_uncached.
      * unfold held in *. rewrite (sectors_set s OK b x y Hlb) by auto. by rewrite Hh.
      * unfold pinned in *. rewrite (sectors_set s OK b x y Hlb) by auto. simpl.
        rewrite <- Hp. apply difference_disjoint_L. set_solver.
    + exists y. split; [|done]. apply (cached_set s b x y Hlb). by left.
    + eapply keeps_set; [done|]. congruence.
Qed.

(** Changing the contents of a held buffer. *)
Lemma set_data_wp s v b sec d :
  sees s v -> holds s b sec -> length d = BSIZE ->
  wp (let* x := gets (getb b) in setb b (set_data d x)) (fun _ s' =>
    sees s' (mkView (fset (cv_content v) sec d) (cv_held v) (cv_pinned v) (cv_disk v) (cv_trace v)) /\
    holds s' b sec /\ keeps s s') s.
Proof.
  intros Hv [Hcb Hbu]%holds_cached Hlen. pose proof Hv as (OK & Hc & Hh & Hp & Hd & Ht).
  set (x := getb b s) in *. pose proof Hcb as (Hb & Hdx & Hsx).
  pose proof (cached_buf_ok _ _ _ _ OK Hcb) as Hok.
  apply wp_bind, wp_gets. fold x. apply wp_modify. fold (with_buf b (set_data d x) s).
  set (y := set_data d x).
  assert (Hy : buf_ok (length (disk s)) y) by (destruct Hok as ([? ?] & ? & ? & ?); by split_and!).
  split_and!.
  - eapply sees_eq; [eapply (sees_set s v b sec x y)| | |]; auto; try (simpl; congruence).
    + intros ?. change (busy y) with (busy x) in *. congruence.
    + rewrite <- Hh. by apply (sectors_own s busy b sec x).
    + rewrite <- Hp. by apply (sectors_own s dirty b sec x).
  - exists y. split; [|done]. apply (cached_set s b x y Hb). left. by split_and!.
  - eapply keeps_set; eauto.
Qed.

(** Pinning a held buffer ([b->flags |= B_DIRTY] in [log_write]). *)
Lemma pin_wp s v b sec :
  sees s v -> holds s b sec ->
  wp (or_flags b B_DIRTY) (fun _ s' =>
    sees s' (mkView (cv_content v) (cv_held v) ({[sec]} ∪ cv_pinned v) (cv_disk v) (cv_trace v)) /\
    holds s' b sec /\ keeps s s') s.
Proof.
  intros Hv [Hcb Hbu]%holds_cached. pose proof Hv as (OK & Hc & Hh & Hp & Hd & Ht).
  set (x := getb b s) in *. pose proof Hcb as (Hb & Hdx & Hsx).
  pose proof (cached_buf_ok _ _ _ _ OK Hcb) as Hok.
  destruct (set_flags_ok _ B_DIRTY x ltac:(auto) Hok Hdx) as [Hy Hbits].
  set (y := set_flags (set_flag (flags x) B_DIRTY) x) in *.
  assert (Hbits' : busy y = true /\ dirty y = true)
    by (injection Hbits as -> _ ->; rewrite Hbu; split; [done|apply orb_true_r]).
  destruct Hbits' as [Hby Hdy]. unfold wp. rewrite or_flags_state. fold x. fold y.
  split_and!.
  - eapply sees_eq; [eapply (sees_set s v b sec x y)| | |]; auto; try congruence.
    + by eapply same_data.
    + rewrite Hby, <- Hh. apply set_eq. intros z. rewrite elem_of_union, elem_of_singleton.
      split; [|tauto]. intros [-> |?]; [|done]. apply elem_of_sectors_with. eauto.
    + by rewrite Hdy.
  - exists y. split; [|done]. apply (cached_set s b x y Hb). left. split_and!; auto.
  - eapply keeps_set; eauto.
Qed.

(** Writing a held buffer to the disk. *)
Definition with_disk (sec : Z) (d : list Z) (s : bcache) : bcache :=
  mkCache (bufs s) (bnext s) (bprev s) (<[Z.to_nat sec:=d]> (disk s)) (trace s ++ [(sec, d)]).

Definition written (x : buf) : buf :=
  set_flags (set_flag (clear_flag (set_flag (flags x) B_DIRTY) B_DIRTY) B_VALID) x.

Lemma bwrite_state s b sec x :
  cache_ok s -> cached s b sec x -> busy x = true ->
  bwrite b s = Ret tt (with_disk sec (data x) (with_buf b (written x) s)).
Proof.
  intros OK Hcb Hbu. pose proof Hcb as (Hb & Hdx & Hsx).
  pose proof (cached_buf_ok _ _ _ _ OK Hcb) as Hok.
  destruct (set_flags_ok _ B_DIRTY x ltac:(auto) Hok Hdx) as [Hy Hbits].
  assert (Hg : forall y s1, (b < length (bufs s1))%nat -> getb b (with_buf b y s1) = y).
  { intros y s1 Hs1. unfold getb, with_buf. simpl. by rewrite list_lookup_insert_eq. }
  pose proof (lookup_lt_Some _ _ _ Hb) as Hlt.
  unfold bwrite, bind, gets. rewrite (getb_lookup s b x Hb). unfold busy in Hbu. rewrite Hbu. cbn [negb].
  rewrite or_flags_state, (getb_lookup s b x Hb). unfold iderw, bind, gets.
  rewrite Hg by done. set (y := set_flags (set_flag (flags x) B_DIRTY) x) in *.
  destruct Hy as (Hf & _). injection Hbits as Hby _ Hdy.
  unfold busy in Hby. rewrite Hby, Hbu. cbn [orb negb].
  rewrite valid_clean_test by done. unfold dirty in Hdy. rewrite Hdy, orb_true_r, andb_false_r.
  change (dev y) with (dev x). rewrite Hdx. change (negb (1 =? 1)) with false. cbv iota.
  destruct Hok as (_ & _ & Hval & _). destruct (Hval Hdx) as [_ Hrange].
  change (sector y) with (sector x). change (disk (with_buf b y s)) with (disk s).
  rewrite (proj2 (Z.leb_gt _ _)) by lia.
  rewrite clear_flags_state, Hg by done. unfold disk_write, modify. rewrite or_flags_state.
  set (z := set_flags (clear_flag (flags y) B_DIRTY) y).
  assert (Hgz : getb b (mkCache (bufs (with_buf b z (with_buf b y s))) (bnext s) (bprev s)
    (<[Z.to_nat (sector x):=data y]> (disk s)) (trace s ++ [(sector x, data y)])) = z).
  { unfold getb. simpl. by rewrite list_lookup_insert_eq by by rewrite length_insert. }
  unfold with_buf in *. simpl in *. rewrite Hgz. unfold with_disk. simpl.
  rewrite !list_insert_insert_eq, Hsx. done.
Qed.

Lemma with_disk_sees s v b sec d :
  sees s v -> holds s b sec -> length d = BSIZE ->
  sees (with_disk sec d s)
    (mkView (cv_content v) (cv_held v) (cv_pinned v) (<[Z.to_nat sec:=d]> (cv_disk v))
       (cv_trace v ++ [(sec, d)])).
Proof.
  intros (OK & Hc & Hh & Hp & Hd & Ht) [Hcb Hbu]%holds_cached Hlen.
  set (x := getb b s) in *. pose proof Hcb as (Hb & Hdx & Hsx).
  destruct (cached_buf_ok _ _ _ _ OK Hcb) as (_ & _ & Hval & _).
  destruct (Hval Hdx) as [_ Hrange]. rewrite Hsx in Hrange.
  assert (Hother : forall sec', sec' <> sec -> disk_block (with_disk sec d s) sec' = disk_block s sec').
  { intros sec' Hne. unfold disk_block. case_decide; [|done]. simpl.
    rewrite list_lookup_insert_ne; [done|]. lia. }
  assert (OK' : cache_ok (with_disk sec d s)).
  { split; simpl.
    - apply (c_len s OK).
    - destruct (c_order s OK) as [order Ho]. exists order. by apply (ordered_links order s).
    - rewrite length_insert. apply (c_buf s OK).
    - apply (c_uniq s OK).
    - intros b' sec' x' Hc' Hb' Hd'. destruct (decide (sec' = sec)) as [->|Hne].
      + assert (b' = b) as -> by by eapply (c_uniq s OK). destruct Hc' as [Hc' _].
        simpl in Hc'. assert (x' = x) as Hx by congruence. rewrite Hx in Hb'. congruence.
      + rewrite Hother by done. by apply (c_clean s OK b').
    - apply Forall_insert; [apply (c_disk s OK)|done]. }
  split_and!; simpl; [done| |done|done|by rewrite Hd|by rewrite Ht].
  intros sec'. rewrite <- Hc. destruct (cached_dec s sec') as [(b' & x' & Hc')|Hn].
  - rewrite (content_cached s b' sec' x') by done. by apply (content_cached _ b').
  - rewrite !content_uncached by done. apply Hother. intros ->. by apply (Hn b x).
Qed.

(** [bwrite] of a held buffer. *)
Lemma bwrite_wp s v b sec :
  sees s v -> holds s b sec ->
  wp (bwrite b) (fun _ s' =>
    sees s' (mkView (cv_content v) (cv_held v) (cv_pinned v ∖ {[sec]})
               (<[Z.to_nat sec:=cv_content v sec]> (cv_disk v))
               (cv_trace v ++ [(sec, cv_content v sec)])) /\
    holds s' b sec /\ keeps s s') s.
Proof.
  intros Hv [Hcb Hbu]%holds_cached. pose proof Hv as (OK & Hc & Hh & Hp & Hd & Ht).
  set (x := getb b s) in *. pose proof Hcb as (Hb & Hdx & Hsx).
  pose proof (cached_buf_ok _ _ _ _ OK Hcb) as Hok.
  unfold wp. rewrite (bwrite_state s b sec x) by done.
  destruct (set_flags_ok _ B_DIRTY x ltac:(auto) Hok Hdx) as [Hy1 Hb1].
  destruct (clear_flags_ok _ B_DIRTY _ ltac:(auto) Hy1 Hdx) as [Hy2 Hb2].
  destruct (set_flags_ok _ B_VALID _ ltac:(auto) Hy2 Hdx) as [Hy3 Hb3].
  change (buf_ok (length (disk s)) (written x)) in Hy3.
  assert (Hw : busy (written x) = true /\ dirty (written x) = false).
  { injection Hb1 as Hb1 _ _. injection Hb2 as Hb2 _ Hd2. injection Hb3 as Hb3 _ Hd3.
    split.
    - rewrite (Hb3 : busy (written x) = _), Hb2, Hb1, Hbu. done.
    - rewrite (Hd3 : dirty (written x) = _), Hd2. by rewrite andb_false_r. }
  destruct Hw as [Hwb Hwd]. set (y := written x) in *.
  assert (Hdata : data x = cv_content v sec) by by rewrite <- Hc, (content_cached s b sec x).
  assert (Hs1 : sees (with_buf b y s)
    (mkView (cv_content v) (cv_held v) (cv_pinned v ∖ {[sec]}) (cv_disk v) (cv_trace v))).
  { eapply sees_eq; [eapply (sees_set s v b sec x y)| | |]; auto; try congruence.
    - by eapply same_data.
    - rewrite Hwb, <- Hh. pose proof (sectors_own s busy b sec x OK Hcb) as Ho. by rewrite Hbu in Ho.
    - by rewrite Hwd. }
  assert (Hh1 : holds (with_buf b y s) b sec).
  { exists y. split; [|done]. apply (cached_set s b x y Hb). left. by split_and!. }
  rewrite Hdata. split_and!.
  - eapply (with_disk_sees _ _ _ _ _ Hs1 Hh1). rewrite <- Hdata. by destruct Hok as (_ & ? & _).
  - exact Hh1.
  - intros b' sec' Hb'. exact (keeps_set s b x y Hb ltac:(auto) b' sec' Hb').
Qed.

(** ** [brelse]: the buffer moves to the front *)

Definition unlinked (b : nat) (s : bcache) : bcache :=
  with_next (prev b s) (next b s) (with_prev (next b s) (prev b s) s).
Definition pushed (b : nat) (s : bcache) : bcache :=
  with_next head b (with_prev (next head s) b (with_prev b head (with_next b (next head s) s))).

Lemma push_front_state b s : (b < NBUF)%nat -> length (bnext s) = S NBUF ->
  push_front b s = Ret tt (pushed b s).
Proof.
  intros Hb Hn. unfold push_front, bind, gets, set_next, set_prev, modify, pushed, with_next, with_prev.
  simpl. do 2 f_equal. unfold next at 1. simpl.
  rewrite list_lookup_insert_ne by (unfold head; lia). done.
Qed.

(** The order of the list after [b] was released. *)
Lemma unlink_push order b s :
  ordered order s -> (b < NBUF)%nat ->
  next b s <> b /\ ordered (b :: remove_one b order) (pushed b (unlinked b s)).
Proof.
  intros Ho Hb. pose proof Ho as (Hn & Hp & HP & Hd).
  assert (Hin : b ∈ order) by by apply (ordered_elem order s).
  assert (Hnd : NoDup order) by (rewrite HP; apply NoDup_seq).
  assert (Hlt : forall x, x ∈ order -> (x < NBUF)%nat) by (intros x; by apply (ordered_elem order s)).
  assert (Hhead : head ∉ order) by (intros ?%Hlt; unfold head in *; lia).
  apply list_elem_of_split in Hin as (l1 & l2 & ->).
  assert (Hb1 : b ∉ l1) by (apply NoDup_app in Hnd as (_ & Hx & _); intros ?; apply (Hx b); [done|apply list_elem_of_here]).
  assert (Hb2 : b ∉ l2) by (apply NoDup_app in Hnd as (_ & _ & [? ?]%NoDup_cons); done).
  rewrite remove_one_split by done.
  assert (Hle : Forall (fun x => x <= NBUF)%nat (head :: head :: l1 ++ b :: l2)).
  { apply Forall_cons; split; [done|]. apply Forall_cons; split; [done|].
    apply Forall_forall. intros x Hx%Hlt. lia. }
  pose proof (dll_unlink s head l1 b l2 head Hn Hp Hle Hnd Hhead Hhead Hd) as Hd'.
  split.
  - apply dll_app in Hd as [_ Hd2]. rewrite (dll_next _ _ _ _ Hd2).
    destruct l2 as [|y l2]; simpl; [unfold head; lia|]. intros ->. apply Hb2, list_elem_of_here.
  - unfold ordered, pushed, unlinked. cbn [bnext bprev with_next with_prev]. rewrite !length_insert.
    split; [done|split; [done|split]].
    + rewrite <- HP. apply Permutation_middle.
    + apply dll_push; simpl; rewrite ?length_insert; try done.
      * apply Forall_cons; split; [done|]. apply Forall_forall. intros x Hx. apply Hlt.
        rewrite elem_of_app, elem_of_cons. apply elem_of_app in Hx. tauto.
      * apply NoDup_app in Hnd as (H1 & H2 & [_ H3]%NoDup_cons). apply NoDup_app. split_and!; [done| |done].
        intros x Hx Hx2. apply (H2 x Hx). by apply list_elem_of_further.
      * rewrite elem_of_app. tauto.
Qed.

Lemma relinked_ok s s' :
  cache_ok s -> bufs s' = bufs s -> disk s' = disk s -> (exists order, ordered order s') -> cache_ok s'.
Proof.
  intros OK Hb Hd Ho. destruct OK as [A B C D F G]. split; rewrite ?Hb, ?Hd; try done.
  - intros b b' sec x x' H1 H2. apply (D b b' sec x x'); unfold cached in *; by rewrite Hb in *.
  - intros b sec x H1 H2 H3. rewrite (F b sec x); [|unfold cached in *; by rewrite Hb in *|done|done].
    unfold disk_block. by rewrite Hd.
Qed.

Lemma relinked_sees s s' v :
  sees s v -> bufs s' = bufs s -> disk s' = disk s -> trace s' = trace s ->
  (exists order, ordered order s') -> sees s' v.
Proof.
  intros (OK & Hc & Hh & Hp & Hd & Ht) Eb Ed Et Ho.
  split_and!; [by eapply relinked_ok| | | |congruence|congruence].
  - intros sec. rewrite <- Hc. unfold content, disk_block. by rewrite Eb, Ed.
  - rewrite <- Hh. unfold held, sectors_with. by rewrite Eb.
  - rewrite <- Hp. unfold pinned, sectors_with. by rewrite Eb.
Qed.

Lemma brelse_state s b sec :
  cache_ok s -> cached s b sec (getb b s) -> busy (getb b s) = true ->
  brelse b s = Ret tt (with_buf b (set_flags (clear_flag (flags (getb b s)) B_BUSY) (getb b s))
                         (pushed b (unlinked b s))).
Proof.
  intros OK (Hb & _) Hbu. pose proof (lookup_lt_Some _ _ _ Hb) as Hlt. rewrite (c_len s OK) in Hlt.
  destruct (c_order s OK) as [order Ho]. destruct (unlink_push order b s Ho Hlt) as [Hnb _].
  unfold brelse, bind at 1, gets. unfold busy in Hbu. rewrite Hbu. cbn [negb].
  unfold bind, gets, set_prev, set_next, modify.
  fold (with_prev (next b s) (prev b s) s).
  assert (prev b (with_prev (next b s) (prev b s) s) = prev b s) as ->.
  { unfold prev at 1, with_prev. simpl. rewrite list_lookup_insert_ne by done. done. }
  change (next b (with_prev (next b s) (prev b s) s)) with (next b s).
  fold (with_next (prev b s) (next b s) (with_prev (next b s) (prev b s) s)).
  fold (unlinked b s). destruct Ho as (Hn & _).
  rewrite push_front_state by (simpl; rewrite ?length_insert; done).
  by rewrite clear_flags_state.
Qed.

Lemma brelse_wp s v b sec :
  sees s v -> holds s b sec ->
  (sec ∈ cv_pinned v \/ cv_content v sec = disk_block s sec) ->
  wp (brelse b) (fun _ s' =>
    sees s' (mkView (cv_content v) (cv_held v ∖ {[sec]}) (cv_pinned v) (cv_disk v) (cv_trace v)) /\
    (forall b' sec', b' <> b -> holds s b' sec' -> holds s' b' sec')) s.
Proof.
  intros Hv [Hcb Hbu]%holds_cached Hcl. pose proof Hv as (OK & Hc & Hh & Hp & Hd & Ht).
  set (x := getb b s) in *. pose proof Hcb as (Hb & Hdx & Hsx).
  pose proof (cached_buf_ok _ _ _ _ OK Hcb) as Hok.
  pose proof (lookup_lt_Some _ _ _ Hb) as Hlt. rewrite (c_len s OK) in Hlt.
  destruct (c_order s OK) as [order Ho]. destruct (unlink_push order b s Ho Hlt) as [Hnb Ho2].
  set (s2 := pushed b (unlinked b s)) in *.
  destruct (clear_flags_ok _ B_BUSY x ltac:(auto) Hok Hdx) as [Hy Hbits].
  set (y := set_flags (clear_flag (flags x) B_BUSY) x) in *.
  assert (Hst : brelse b s = Ret tt (with_buf b y s2)) by by apply (brelse_state s b sec).
  unfold wp. rewrite Hst.
  assert (Hv2 : sees s2 v) by (apply (relinked_sees s); eauto).
  assert (Hc2 : cached s2 b sec x) by done.
  assert (Hbits' : busy y = false /\ dirty y = dirty x)
    by (injection Hbits as -> _ ->; by rewrite andb_false_r, andb_true_r).
  destruct Hbits' as [Hby Hdy]. split.
  - eapply sees_eq; [eapply (sees_set s2 v b sec x y)| | |]; auto.
    + intros _ Hdirty. rewrite Hdy in Hdirty.
      change (data y) with (data x). change (disk_block s2 sec) with (disk_block s sec).
      destruct Hcl as [Hpin|Heq].
      * exfalso. rewrite <- Hp in Hpin. apply elem_of_sectors_with in Hpin as (b' & x' & Hc' & Hx').
        assert (b' = b) as -> by by eapply (c_uniq s OK). destruct Hc' as [Hb' _]. 
        assert (x' = x) as Hxx by congruence. rewrite Hxx in Hx'. congruence.
      * by rewrite <- Heq, <- Hc, (content_cached s b sec x).
    + by eapply same_data.
    + by rewrite Hby.
    + rewrite Hdy, <- Hp. by apply (sectors_own s dirty b sec x).
  - intros b' sec' Hne (z & Hz & Hbz). exists z. split; [|done].
    apply (cached_set s2 b x y); [exact Hb|]. right. split; [done|exact Hz].
Qed.

(** ** [binit] *)

(** The cache before [binit]: zeroed memory over disk [dk]. *)
Definition bss (dk : list (list Z)) : bcache :=
  mkCache (replicate NBUF zero_buf) (replicate (S NBUF) O) (replicate (S NBUF) O) dk [].

Definition disk_view (dk : list (list Z)) : cview :=
  mkView (fun sec => if decide (0 <= sec) then default [] (dk !! Z.to_nat sec) else []) ∅ ∅ dk [].

Definition fresh_buf (x : buf) : Prop := flags x = 0 /\ length (data x) = BSIZE /\ dev x <> 1.

(** After [n] rounds of the loop of [binit]. *)
Definition binit_inv (dk : list (list Z)) (n : nat) (s : bcache) : Prop :=
  length (bnext s) = S NBUF /\ length (bprev s) = S NBUF /\ dll s head (reverse (seq 0 n)) head /\
  length (bufs s) = NBUF /\ Forall fresh_buf (bufs s) /\ disk s = dk /\ trace s = [].

Lemma binit_loop dk n s :
  (n < NBUF)%nat -> binit_inv dk n s ->
  wp (push_front n ;;; let* x := gets (getb n) in
      setb n (mkBuf (flags x) (u32 (-1)) (sector x) (data x)))
    (fun _ => binit_inv dk (S n)) s.
Proof.
  intros Hlt (Hn & Hp & Hd & Hb & Hf & Hdk & Ht).
  apply wp_bind. unfold wp at 1. rewrite push_front_state by done.
  apply wp_bind, wp_gets. apply wp_modify.
  fold (with_buf n (mkBuf (flags (getb n (pushed n s))) (u32 (-1)) (sector (getb n (pushed n s)))
    (data (getb n (pushed n s)))) (pushed n s)).
  change (getb n (pushed n s)) with (getb n s).
  assert (Hin : forall x, x ∈ reverse (seq 0 n) -> (x < n)%nat)
    by (intros x; rewrite elem_of_reverse, elem_of_seq; lia).
  assert (Hdll : dll (pushed n s) head (n :: reverse (seq 0 n)) head).
  { apply dll_push; try done.
    - apply Forall_cons; split; [done|]. apply Forall_forall. intros x Hx%Hin. lia.
    - rewrite reverse_Permutation. apply NoDup_seq.
    - intros ?%Hin. lia. }
  set (s1 := with_buf _ _ (pushed n s)).
  assert (Hdll1 : dll s1 head (n :: reverse (seq 0 n)) head)
    by (eapply dll_frame; [| |exact Hdll]; done).
  unfold binit_inv. rewrite seq_S, reverse_snoc.
  refine (conj _ (conj _ (conj Hdll1 (conj _ (conj _ (conj Hdk Ht)))))); simpl;
    rewrite ?length_insert; try done.
  - apply Forall_insert; [done|]. rewrite Forall_lookup in Hf.
    destruct (lookup_lt_is_Some_2 (bufs s) n) as [x Hx]; [lia|].
    destruct (Hf n x Hx) as (H1 & H2 & H3). rewrite (getb_lookup s n x Hx).
    split_and!; simpl; [done..|]. by vm_compute.
Qed.

Lemma fresh_sees s dk order :
  ordered order s -> length (bufs s) = NBUF -> Forall fresh_buf (bufs s) -> disk s = dk ->
  trace s = [] -> Forall (fun d => length d = BSIZE) dk -> sees s (disk_view dk).
Proof.
  intros Ho Hb Hf Hdk Ht HD. rewrite Forall_lookup in Hf.
  assert (Hn : forall b sec x, ~ cached s b sec x).
  { intros b sec x (Hx & Hd & _). by destruct (Hf b x Hx) as (_ & _ & ?). }
  assert (Hs : forall P, sectors_with P s = ∅).
  { intros P. apply set_eq. intros sec. rewrite elem_of_sectors_with.
    split; [intros (b & x & Hc & _); by destruct (Hn b sec x)|set_solver]. }
  split_and!; simpl; [| |by apply Hs|by apply Hs|done|done].
  - split; [done|eauto| | | |by rewrite Hdk].
    + apply Forall_lookup. intros i x Hx. destruct (Hf i x Hx) as (H1 & H2 & H3).
      split_and!; [lia|lia|done|done|]. intros _. unfold busy, dirty. by rewrite H1.
    + intros b b' sec x x' Hc. by destruct (Hn b sec x).
    + intros b sec x Hc. by destruct (Hn b sec x).
  - intros sec. rewrite content_uncached by (intros; apply Hn). unfold disk_block. by rewrite Hdk.
Qed.

Lemma binit_wp dk :
  Forall (fun d => length d = BSIZE) dk ->
  wp binit (fun _ s => sees s (disk_view dk)) (bss dk).
Proof.
  intros HD. unfold binit. apply wp_bind, wp_modify, wp_bind, wp_modify.
  eapply wp_mono; [apply (wp_for_upto (binit_inv dk) NBUF 0)|].
  - split_and!; try done. apply Forall_replicate. split_and!; try done.
  - intros j s' Hj Hs'. apply binit_loop; [lia|done].
  - intros [] s' (Hn & Hp & Hd & Hb & Hf & Hdk & Ht). apply (fresh_sees s' dk (reverse (seq 0 NBUF))); try done.
    split; [done|split; [done|split]]; [|done]. apply reverse_Permutation.
Qed.

(** ** The contract of the cache *)

(** The buffer cache behaves like a memory of sectors.  [binit] gives a cache
    that shows the disk.  Afterwards, while fewer than NBUF sectors are held or
    pinned, [bread] of a sector nobody holds returns a busy buffer with the
    sector's current contents, from the cache or the disk; the contents of no
    sector changes, evictions included, no pinned buffer is evicted and buffers
    held by others stay theirs. *)
Theorem bread_returns_contents s v sec :
  sees s v -> 0 <= sec < Z.of_nat (length (cv_disk v)) -> sec ∉ cv_held v ->
  (sec ∈ cv_pinned v \/ (size (cv_held v ∪ cv_pinned v) < NBUF)%nat) ->
  wp (bread 1 sec) (fun b s' =>
    busy (getb b s') = true /\ data (getb b s') = cv_content v sec /\
    sees s' (mkView (cv_content v) ({[sec]} ∪ cv_held v) (cv_pinned v) (cv_disk v) (cv_trace v)) /\
    keeps s s') s.
Proof.
  intros Hv Hsec Hf Hr. eapply wp_mono; [by apply (bread_wp s v)|].
  intros b s' (Hs' & Hh & Hk). pose proof Hs' as (OK & Hc & _).
  split_and!; [by apply holds_cached in Hh as [_ ?]| |done|done].
  rewrite (holds_data s' b sec) by done. by rewrite Hc.
Qed.

Definition demo_disk : list (list Z) := replicate 20 (replicate BSIZE 7).
Definition demo : bcache := result binit (bss demo_disk).

Lemma demo_sees : sees demo (disk_view demo_disk).
Proof.
  assert (HD : Forall (fun d => length d = BSIZE) demo_disk)
    by (apply Forall_replicate; by rewrite length_replicate).
  unfold demo. apply (wp_result binit (fun s => sees s (disk_view demo_disk))). by apply binit_wp.
Qed.

Lemma bread_returns_contents_witness :
  sees demo (disk_view demo_disk) /\
  wp (bread 1 3) (fun b s' => data (getb b s') = replicate BSIZE 7) demo.
Proof.
  split; [exact demo_sees|].
  eapply wp_mono; [apply (bread_returns_contents demo (disk_view demo_disk) 3 demo_sees)|].
  - unfold demo_disk. simpl. lia.
  - simpl. set_solver.
  - right. cbn [cv_held cv_pinned disk_view]. rewrite union_empty_l_L, size_empty. unfold NBUF. lia.
  - intros b s' (_ & Hd & _). exact Hd.
Defined.

(** [bwrite] brings the disk up to date: afterwards the sector on disk is the
    buffer's contents, the write is the last one the disk has seen, the buffer is
    no longer pinned, and nothing else changes. *)
Theorem bwrite_updates_disk s v b sec :
  sees s v -> holds s b sec ->
  wp (bwrite b) (fun _ s' =>
    disk_block s' sec = data (getb b s) /\
    sees s' (mkView (cv_content v) (cv_held v) (cv_pinned v ∖ {[sec]})
               (<[Z.to_nat sec:=cv_content v sec]> (cv_disk v))
               (cv_trace v ++ [(sec, cv_content v sec)])) /\
    holds s' b sec /\ keeps s s') s.
Proof.
  intros Hv Hh. eapply wp_mono; [by apply (bwrite_wp s v b sec)|].
  intros [] s' (Hs' & Hh' & Hk). split_and!; [|done..].
  pose proof Hv as (OK & Hc & _ & _ & Hd & _).
  rewrite (holds_data s b sec), Hc by done. destruct Hs' as (_ & _ & _ & _ & Hd' & _).
  apply holds_cached in Hh as [Hcb _]. destruct (cached_buf_ok _ _ _ _ OK Hcb) as (_ & _ & Hr & _).
  destruct Hcb as (_ & Hdx & Hsx). destruct (Hr Hdx) as [_ Hr']. rewrite Hsx in Hr'.
  unfold disk_block. rewrite decide_True by lia. simpl in Hd'. rewrite Hd', list_lookup_insert_eq; [done|].
  rewrite <- Hd. lia.
Qed.

(** The list is kept in order of use: releasing a buffer makes it the most
    recently used one and keeps the order of the others, so that the pointers
    form a doubly linked list of all buffers again. *)
Theorem brelse_most_recent s v b sec order :
  sees s v -> holds s b sec -> (sec ∈ cv_pinned v \/ cv_content v sec = disk_block s sec) ->
  ordered order s ->
  wp (brelse b) (fun _ s' =>
    ordered (b :: remove_one b order) s' /\
    sees s' (mkView (cv_content v) (cv_held v ∖ {[sec]}) (cv_pinned v) (cv_disk v) (cv_trace v))) s.
Proof.
  intros Hv Hh Hcl Ho. pose proof (brelse_wp s v b sec Hv Hh Hcl) as Hw. pose proof Hv as (OK & _).
  apply holds_cached in Hh as [Hcb Hbu]. pose proof (brelse_state s b sec OK Hcb Hbu) as Hst.
  unfold wp in *. rewrite Hst in *. destruct Hw as [Hs _]. split; [|done].
  destruct Hcb as (Hb & _). pose proof (lookup_lt_Some _ _ _ Hb) as Hlt. rewrite (c_len s OK) in Hlt.
  destruct (unlink_push order b s Ho Hlt) as [_ Ho2].
  by apply (ordered_links _ (pushed b (unlinked b s))).
Qed.

(** After a [bread]. *)
Definition demo2 : bcache := result (bread 1 3) demo.

Lemma demo2_bread : bread 1 3 demo = Ret 0%nat demo2.
Proof. vm_compute. reflexivity. Qed.

Lemma demo2_state :
  holds demo2 0 3 /\
  sees demo2 (mkView (cv_content (disk_view demo_disk)) ({[3]} ∪ ∅) ∅ demo_disk []).
Proof.
  assert (Hw : wp (bread 1 3) (fun b s' =>
    sees s' (mkView (cv_content (disk_view demo_disk)) ({[3]} ∪ ∅) ∅ demo_disk []) /\
    holds s' b 3 /\ keeps demo s') demo).
  { apply (bread_wp demo (disk_view demo_disk) 3 demo_sees).
    - unfold demo_disk. simpl. lia.
    - simpl. set_solver.
    - right. cbn [cv_held cv_pinned disk_view]. rewrite union_empty_l_L, size_empty. unfold NBUF. lia. }
  destruct (wp_elim _ _ _ _ _ Hw demo2_bread) as (Hs & Hh & _).
  split; [exact Hh|exact Hs].
Qed.

Lemma bwrite_updates_disk_witness :
  holds demo2 0 3 /\ wp (bwrite 0) (fun _ s' => disk_block s' 3 = data (getb 0 demo2)) demo2.
Proof.
  destruct demo2_state as (Hh & Hs). split; [done|].
  eapply wp_mono; [by apply (bwrite_updates_disk demo2 _ 0 3 Hs)|]. by intros [] s' (? & _).
Defined.

Lemma brelse_most_recent_witness :
  holds demo2 0 3 /\ ordered (reverse (seq 0 NBUF)) demo2 /\
  wp (brelse 0) (fun _ s' => ordered (0%nat :: remove_one 0%nat (reverse (seq 0 NBUF))) s') demo2.
Proof.
  destruct demo2_state as (Hh & Hs).
  assert (Ho : ordered (reverse (seq 0 NBUF)) demo2).
  { split; [reflexivity|split; [reflexivity|split]]; [apply reverse_Permutation|].
    vm_compute. intuition. }
  split_and!; [done|done|].
  eapply wp_mono; [apply (brelse_most_recent demo2 _ 0 3 (reverse (seq 0 NBUF)) Hs Hh)|].
  - right. vm_compute. reflexivity.
  - exact Ho.
  - by intros [] s' (? & _).
Defined.

End Bio.
