(* ===== verification/Log.v ===== *)
(** * log.c: the write-ahead log

    [Module Log] translates log.c (and [readsb] of fs.c, which [initlog] calls)
    over the buffer cache of Bio.  The header block is its 512 bytes, with the
    little-endian layout of [struct logheader].

    The theorems: what [log_write] and [commit_trans] do to contents, disk and
    trace of disk writes; and crash atomicity: whatever prefix of a transaction's
    disk writes reaches the disk, recovery leaves either the old or the new
    contents of every file system block. *)

From S2P Require Import Prelude Bio.

Module Log.
Import Bio.

Definition LOGSIZE : Z := 10.
Definition ROOTDEV : Z := 1.

(** [struct superblock] *)
Record superblock := mkSb { sb_size : Z; sb_nblocks : Z; sb_ninodes : Z; sb_nlog : Z }.

Definition le32 (d : list Z) (off : nat) : Z := le_val (window d off 4).
Definition decode_sb (d : list Z) : superblock := mkSb (le32 d 0) (le32 d 4) (le32 d 8) (le32 d 12).

(** [struct log] with the in-memory [struct logheader], over the cache. *)
Record lstate := mkLog {
  cache : bcache;
  lstart : Z;
  lsize : Z;
  lbusy : bool;
  lh_n : Z;
  lh_sector : list Z
}.

Definition with_cache (c : bcache) (s : lstate) : lstate :=
  mkLog c (lstart s) (lsize s) (lbusy s) (lh_n s) (lh_sector s).
Definition bio {A} (m : M bcache A) : M lstate A := zoom cache with_cache m.

Definition set_area (st sz : Z) : M lstate unit :=
  modify (fun s => mkLog (cache s) st sz (lbusy s) (lh_n s) (lh_sector s)).
Definition set_busy (b : bool) : M lstate unit :=
  modify (fun s => mkLog (cache s) (lstart s) (lsize s) b (lh_n s) (lh_sector s)).
Definition set_n (n : Z) : M lstate unit :=
  modify (fun s => mkLog (cache s) (lstart s) (lsize s) (lbusy s) n (lh_sector s)).

(** [log.lh.sector[i] = v]; a write past the array is an error of the model. *)
Definition set_sector (i : nat) (v : Z) : M lstate unit := fun s =>
  if decide (i < length (lh_sector s))%nat
  then Ret tt (mkLog (cache s) (lstart s) (lsize s) (lbusy s) (lh_n s) (<[i:=v]> (lh_sector s)))
  else Panic "log.lh.sector out of bounds".

(** The data of a buffer, and overwriting it. *)
Definition bdata (b : nat) : M lstate (list Z) := bio (gets (fun c => data (getb b c))).
Definition set_bdata (b : nat) (d : list Z) : M lstate unit :=
  bio (let* x := gets (getb b) in setb b (set_data d x)).

(** fs.c [readsb] *)
Definition readsb (d : Z) : M lstate superblock :=
  let* bp := bio (bread d 1) in
  let* sb := bdata bp in
  bio (brelse bp) ;;;
  ret (decode_sb sb).

(** The on-disk header. *)
Definition head_n (d : list Z) : Z := s32 (le32 d 0).
Definition head_sector (d : list Z) (i : nat) : Z := s32 (le32 d (4 + 4 * i)).

Fixpoint copy_sectors (k i : nat) (d : list Z) : M lstate unit :=
  match k with
  | O => ret tt
  | S k' => set_sector i (head_sector d i) ;;; copy_sectors k' (S i) d
  end.

Definition read_head : M lstate unit :=
  let* st := gets lstart in
  let* b := bio (bread ROOTDEV st) in
  let* d := bdata b in
  set_n (head_n d) ;;;
  copy_sectors (Z.to_nat (head_n d)) 0 d ;;;
  bio (brelse b).

(** The header block with [hb->n] and the first sectors set. *)
Fixpoint put_sectors (secs : list Z) (i : nat) (d : list Z) : list Z :=
  match secs with
  | [] => d
  | x :: secs' => put_sectors secs' (S i) (splice d (4 + 4 * i) (le_bytes 4 x))
  end.
Definition encode_head (n : Z) (secs : list Z) (d : list Z) : list Z :=
  put_sectors secs 0 (splice d 0 (le_bytes 4 n)).

Definition write_head : M lstate unit :=
  let* st := gets lstart in
  let* b := bio (bread ROOTDEV st) in
  let* d := bdata b in
  let* n := gets lh_n in
  let* secs := gets lh_sector in
  set_bdata b (encode_head n (take (Z.to_nat n) secs) d) ;;;
  bio (bwrite b) ;;;
  bio (brelse b).

(** The body of the loop of [install_trans]. *)
Definition install_one (tail : nat) : M lstate unit :=
  let* st := gets lstart in
  let* secs := gets lh_sector in
  let* lbuf := bio (bread ROOTDEV (st + Z.of_nat tail + 1)) in
  let* dbuf := bio (bread ROOTDEV (default 0 (secs !! tail))) in
  let* d := bdata lbuf in
  set_bdata dbuf d ;;;
  bio (bwrite dbuf) ;;;
  bio (brelse lbuf) ;;;
  bio (brelse dbuf).

Definition install_trans : M lstate unit :=
  let* n := gets lh_n in
  for_upto (Z.to_nat n) 0 install_one.

Definition recover_from_log : M lstate unit :=
  read_head ;;;
  install_trans ;;;
  set_n 0 ;;;
  write_head.

Definition sizeof_logheader : Z := 4 + 4 * LOGSIZE.

Definition initlog : M lstate unit :=
  if Z.of_nat BSIZE <=? sizeof_logheader then panic "initlog: too big logheader"
  else
    let* sb := readsb ROOTDEV in
    set_area (s32 (u32 (sb_size sb - sb_nlog sb))) (s32 (sb_nlog sb)) ;;;
    recover_from_log.

(** [begin_trans] waits while another transaction is active. *)
Definition begin_trans : M lstate unit :=
  let* b := gets lbusy in
  if b then block else set_busy true.

Definition commit_trans : M lstate unit :=
  let* n := gets lh_n in
  (if 0 <? n then
     write_head ;;;
     install_trans ;;;
     set_n 0 ;;;
     write_head
   else ret tt) ;;;
  set_busy false.

(** The index of a sector among the first [n] of the header, or [n]. *)
Fixpoint find_sector (n : nat) (secs : list Z) (sec : Z) : nat :=
  match n, secs with
  | S n', x :: secs' => if x =? sec then O else S (find_sector n' secs' sec)
  | _, _ => O
  end.

Definition log_write (b : nat) : M lstate unit :=
  let* n := gets lh_n in
  let* sz := gets lsize in
  let* busy := gets lbusy in
  if (LOGSIZE <=? n) || (sz - 1 <=? n) then panic "too big a transaction"
  else if negb busy then panic "write outside of trans"
  else
    let* x := bio (gets (getb b)) in
    let* secs := gets lh_sector in
    let i := find_sector (Z.to_nat n) secs (sector x) in
    set_sector i (sector x) ;;;
    let* st := gets lstart in
    let* lbuf := bio (bread (dev x) (st + Z.of_nat i + 1)) in
    let* d := bdata b in
    set_bdata lbuf d ;;;
    bio (bwrite lbuf) ;;;
    bio (brelse lbuf) ;;;
    (if Z.of_nat i =? n then set_n (n + 1) else ret tt) ;;;
    bio (or_flags b B_DIRTY).

(** ** The header block *)

Lemma length_put_sectors secs i d :
  length d = BSIZE -> (4 + 4 * (i + length secs) <= BSIZE)%nat ->
  length (put_sectors secs i d) = BSIZE.
Proof.
  revert i d. induction secs as [|x secs IH]; intros i d Hd Hi; [done|]. cbn [put_sectors length] in *.
  apply IH; [|lia]. rewrite length_splice; [done|]. rewrite length_le_bytes. lia.
Qed.

Lemma window_put_sectors secs i d off :
  length d = BSIZE -> (4 + 4 * (i + length secs) <= BSIZE)%nat -> (off + 4 <= 4 + 4 * i)%nat ->
  window (put_sectors secs i d) off 4 = window d off 4.
Proof.
  revert i d. induction secs as [|x secs IH]; intros i d Hd Hi Ho; [done|]. cbn [put_sectors length] in *.
  assert (Hl : length (splice d (4 + 4 * i) (le_bytes 4 x)) = BSIZE)
    by (rewrite length_splice; [done|]; rewrite length_le_bytes; lia).
  rewrite IH by (done || lia). apply window_splice_ne; rewrite ?length_le_bytes; lia.
Qed.

Lemma window_put_sectors_in secs i d j x :
  length d = BSIZE -> (4 + 4 * (i + length secs) <= BSIZE)%nat -> secs !! j = Some x ->
  window (put_sectors secs i d) (4 + 4 * (i + j)) 4 = le_bytes 4 x.
Proof.
  revert i d j. induction secs as [|y secs IH]; intros i d j Hd Hi Hj; [done|].
  cbn [put_sectors length] in *.
  assert (Hl : length (splice d (4 + 4 * i) (le_bytes 4 y)) = BSIZE)
    by (rewrite length_splice; [done|]; rewrite length_le_bytes; lia).
  destruct j as [|j]; simpl in Hj.
  - injection Hj as ->. rewrite Nat.add_0_r, window_put_sectors by (done || lia).
    rewrite <- (length_le_bytes 4 x) at 2. apply window_splice_same. rewrite length_le_bytes. lia.
  - replace (i + S j)%nat with (S i + j)%nat by lia. apply IH; [done|lia|done].
Qed.

Lemma s32_le_bytes x : -2147483648 <= x < 2147483648 -> s32 (le_val (le_bytes 4 x)) = x.
Proof. 
  intros Hx. rewrite le_val_bytes. change (256 ^ Z.of_nat 4) with 4294967296.
  rewrite <- (s32_small x Hx) at 2. unfold s32, u32. by rewrite Z.mod_mod by lia.
Qed.

(** Reading back an encoded header. *)
Lemma head_roundtrip n secs d :
  length d = BSIZE -> (length secs <= 10)%nat -> 0 <= n < 2147483648 ->
  Forall (fun x => 0 <= x < 2147483648) secs ->
  length (encode_head n secs d) = BSIZE /\ head_n (encode_head n secs d) = n /\
  forall j x, secs !! j = Some x -> head_sector (encode_head n secs d) j = x.
Proof.
  intros Hd Hs Hn Hx. unfold encode_head.
  assert (Hl : length (splice d 0 (le_bytes 4 n)) = BSIZE)
    by (rewrite length_splice; [done|]; rewrite length_le_bytes, Hd; unfold BSIZE; lia).
  assert (Hb : (4 + 4 * (0 + length secs) <= BSIZE)%nat) by (unfold BSIZE; lia).
  split_and!.
  - by apply length_put_sectors.
  - unfold head_n, le32. rewrite window_put_sectors by (done || lia).
    rewrite <- (length_le_bytes 4 n) at 2. rewrite window_splice_same by (rewrite length_le_bytes, Hd; unfold BSIZE; lia).
    apply s32_le_bytes. lia.
  - intros j x Hj. unfold head_sector, le32.
    replace (4 + 4 * j)%nat with (4 + 4 * (0 + j))%nat by lia.
    rewrite (window_put_sectors_in secs 0 _ j x) by done.
    rewrite Forall_lookup in Hx. specialize (Hx j x Hj). apply s32_le_bytes. lia.
Qed.

(** ** Views of the cache *)

Definition vdisk (dk : list (list Z)) (sec : Z) : list Z :=
  if decide (0 <= sec) then default [] (dk !! Z.to_nat sec) else [].

Lemma sees_disk_block c v sec : sees c v -> disk_block c sec = vdisk (cv_disk v) sec.
Proof. intros (_ & _ & _ & _ & Hd & _). unfold disk_block, vdisk. by rewrite Hd. Qed.

(** A sector that is neither held nor pinned is as on disk. *)
Lemma sees_clean c v sec :
  sees c v -> sec ∉ cv_held v -> sec ∉ cv_pinned v -> cv_content v sec = vdisk (cv_disk v) sec.
Proof.
  intros Hv Hh Hp. rewrite <- (sees_disk_block c v) by done.
  destruct Hv as (OK & Hc & Eh & Ep & _). rewrite <- Hc.
  destruct (cached_dec c sec) as [(b & x & Hx)|Hn]; [|by apply content_uncached].
  rewrite (content_cached c b sec x) by done. apply (c_clean c OK b); [done| |].
  - apply not_true_is_false. intros Hb. apply Hh. rewrite <- Eh. apply elem_of_sectors_with. eauto.
  - apply not_true_is_false. intros Hb. apply Hp. rewrite <- Ep. apply elem_of_sectors_with. eauto.
Qed.

Lemma sees_length c v sec :
  sees c v -> 0 <= sec < Z.of_nat (length (cv_disk v)) -> length (cv_content v sec) = BSIZE.
Proof.
  intros (OK & Hc & _ & _ & Hd & _) Hs. rewrite <- Hc.
  destruct (cached_dec c sec) as [(b & x & Hx)|Hn].
  - rewrite (content_cached c b sec x) by done. by destruct (cached_buf_ok c b sec x OK Hx) as (_ & ? & _).
  - rewrite content_uncached by done. unfold disk_block. rewrite decide_True by lia.
    destruct (lookup_lt_is_Some_2 (disk c) (Z.to_nat sec)) as [d Hdd]; [rewrite Hd; lia|].
    rewrite Hdd. simpl. pose proof (c_disk c OK) as HD. rewrite Forall_lookup in HD. eauto.
Qed.

Lemma vdisk_insert dk sec d sec' :
  0 <= sec < Z.of_nat (length dk) ->
  vdisk (<[Z.to_nat sec:=d]> dk) sec' = if decide (sec' = sec) then d else vdisk dk sec'.
Proof.
  intros Hs. unfold vdisk. case_decide as E1; [|case_decide; [lia|done]].
  case_decide as E2.
  - subst sec'. by rewrite list_lookup_insert_eq by lia.
  - rewrite list_lookup_insert_ne by lia. done.
Qed.

(** Changing a view without changing what it says. *)
Lemma sees_weaken c v v' :
  sees c v -> (forall sec, cv_content v sec = cv_content v' sec) -> cv_held v = cv_held v' ->
  cv_pinned v = cv_pinned v' -> cv_disk v = cv_disk v' -> cv_trace v = cv_trace v' -> sees c v'.
Proof.
  destruct v, v'. simpl. intros H Hc -> -> -> ->. by eapply sees_eq.
Qed.

Lemma wp_bio {A} (m : M bcache A) (Q : A -> lstate -> Prop) s :
  wp m (fun a c => Q a (with_cache c s)) (cache s) -> wp (bio m) Q s.
Proof. apply wp_zoom. Qed.

(** The effect of each cache operation on the view, and the operations as steps
    of a routine of this file. *)
Definition v_hold (sec : Z) (v : cview) : cview :=
  mkView (cv_content v) ({[sec]} ∪ cv_held v) (cv_pinned v) (cv_disk v) (cv_trace v).
Definition v_put (sec : Z) (d : list Z) (v : cview) : cview :=
  mkView (fset (cv_content v) sec d) (cv_held v) (cv_pinned v) (cv_disk v) (cv_trace v).
Definition v_write (sec : Z) (v : cview) : cview :=
  mkView (cv_content v) (cv_held v) (cv_pinned v ∖ {[sec]})
    (<[Z.to_nat sec:=cv_content v sec]> (cv_disk v)) (cv_trace v ++ [(sec, cv_content v sec)]).
Definition v_pin (sec : Z) (v : cview) : cview :=
  mkView (cv_content v) (cv_held v) ({[sec]} ∪ cv_pinned v) (cv_disk v) (cv_trace v).
Definition v_release (sec : Z) (v : cview) : cview :=
  mkView (cv_content v) (cv_held v ∖ {[sec]}) (cv_pinned v) (cv_disk v) (cv_trace v).

Definition room (v : cview) (k : nat) : Prop := (size (cv_held v ∪ cv_pinned v) + k <= NBUF)%nat.
Definition on_disk (v : cview) (sec : Z) : Prop := 0 <= sec < Z.of_nat (length (cv_disk v)).

Section Steps.
Context {A : Type} (s : lstate) (v : cview) (Hv : sees (cache s) v).

Lemma wp_bread (Q : nat -> lstate -> Prop) sec :
  on_disk v sec -> sec ∉ cv_held v -> (sec ∈ cv_pinned v \/ room v 1) ->
  (forall b c, sees c (v_hold sec v) -> holds c b sec -> keeps (cache s) c -> Q b (with_cache c s)) ->
  wp (bio (bread 1 sec)) Q s.
Proof.
  intros Hs Hh Hr HQ. apply wp_bio. eapply wp_mono; [apply (bread_wp _ v sec Hv Hs Hh)|].
  - unfold room in Hr. destruct Hr; [by left|right; lia].
  - intros b c (? & ? & ?). by apply HQ.
Qed.

Lemma wp_bdata (Q : list Z -> lstate -> Prop) b sec :
  holds (cache s) b sec -> Q (cv_content v sec) s -> wp (bdata b) Q s.
Proof.
  intros Hh HQ. unfold bdata. apply wp_bio, wp_gets.
  rewrite (holds_data _ b sec) by (done || by destruct Hv). destruct Hv as (_ & -> & _). by destruct s.
Qed.

Lemma wp_set_bdata (Q : unit -> lstate -> Prop) b sec d :
  holds (cache s) b sec -> length d = BSIZE ->
  (forall c, sees c (v_put sec d v) -> holds c b sec -> keeps (cache s) c -> Q tt (with_cache c s)) ->
  wp (set_bdata b d) Q s.
Proof.
  intros Hh Hd HQ. unfold set_bdata. apply wp_bio.
  eapply wp_mono; [by apply (set_data_wp _ v b sec d Hv Hh)|]. intros [] c (? & ? & ?). by apply HQ.
Qed.

Lemma wp_bwrite (Q : unit -> lstate -> Prop) b sec :
  holds (cache s) b sec ->
  (forall c, sees c (v_write sec v) -> holds c b sec -> keeps (cache s) c -> Q tt (with_cache c s)) ->
  wp (bio (bwrite b)) Q s.
Proof.
  intros Hh HQ. apply wp_bio.
  eapply wp_mono; [by apply (bwrite_wp _ v b sec Hv Hh)|]. intros [] c (? & ? & ?). by apply HQ.
Qed.

Lemma wp_pin (Q : unit -> lstate -> Prop) b sec :
  holds (cache s) b sec ->
  (forall c, sees c (v_pin sec v) -> holds c b sec -> keeps (cache s) c -> Q tt (with_cache c s)) ->
  wp (bio (or_flags b B_DIRTY)) Q s.
Proof.
  intros Hh HQ. apply wp_bio.
  eapply wp_mono; [by apply (pin_wp _ v b sec Hv Hh)|]. intros [] c (? & ? & ?). by apply HQ.
Qed.

Lemma wp_brelse (Q : unit -> lstate -> Prop) b sec :
  holds (cache s) b sec -> (sec ∈ cv_pinned v \/ cv_content v sec = vdisk (cv_disk v) sec) ->
  (forall c, sees c (v_release sec v) ->
     (forall b' sec', b' <> b -> holds (cache s) b' sec' -> holds c b' sec') -> Q tt (with_cache c s)) ->
  wp (bio (brelse b)) Q s.
Proof.
  intros Hh Hc HQ. apply wp_bio.
  eapply wp_mono; [apply (brelse_wp _ v b sec Hv Hh)|].
  - by rewrite (sees_disk_block _ v).
  - intros [] c (? & ?). by apply HQ.
Qed.

End Steps.

Lemma on_disk_write v sec sec' : on_disk (v_write sec v) sec' <-> on_disk v sec'.
Proof. unfold on_disk. simpl. by rewrite length_insert. Qed.

(** ** Reading and writing the header *)

(** A sector rewritten through the cache. *)
Definition v_through (sec : Z) (d : list Z) (v : cview) : cview :=
  mkView (fset (cv_content v) sec d) (cv_held v) (cv_pinned v)
    (<[Z.to_nat sec:=d]> (cv_disk v)) (cv_trace v ++ [(sec, d)]).

Lemma fset_same f sec d : fset f sec d sec = d.
Proof. unfold fset. by rewrite decide_True. Qed.

Lemma fset_other f sec d sec' : sec' <> sec -> fset f sec d sec' = f sec'.
Proof. intros. unfold fset. by rewrite decide_False. Qed.

Lemma sees_through c sec d v :
  sec ∉ cv_held v -> sec ∉ cv_pinned v ->
  sees c (v_release sec (v_write sec (v_put sec d (v_hold sec v)))) -> sees c (v_through sec d v).
Proof.
  intros Hh Hp Hs. eapply sees_weaken; [exact Hs|..]; simpl; rewrite ?fset_same; try done.
  - set_solver.
  - set_solver.
Qed.

(** One statement; reading a field of the log. *)
Ltac lnorm := cbn [cache lstart lsize lbusy lh_n lh_sector with_cache] in *.
Ltac lbind := apply wp_bind; cbn beta.
Ltac lget := apply wp_bind, wp_gets; lnorm.

Lemma write_head_wp c st sz bz n secs v :
  sees c v -> on_disk v st -> st ∉ cv_held v -> st ∉ cv_pinned v -> room v 1 ->
  (Z.to_nat n <= 10)%nat -> length secs = 10%nat ->
  wp write_head (fun _ s' => exists c',
    s' = mkLog c' st sz bz n secs /\
    sees c' (v_through st (encode_head n (take (Z.to_nat n) secs) (cv_content v st)) v))
    (mkLog c st sz bz n secs).
Proof.
  intros Hv Hs Hh Hp Hr Hn Hsecs. unfold write_head.
  set (d := encode_head n (take (Z.to_nat n) secs) (cv_content v st)).
  assert (Hd : length d = BSIZE).
  { unfold d, encode_head. pose proof (sees_length c v st Hv Hs) as Hl. apply length_put_sectors.
    - rewrite length_splice; [done|]. rewrite length_le_bytes, Hl. unfold BSIZE. lia.
    - rewrite length_take. unfold BSIZE. lia. }
  lget. lbind. eapply wp_bread; [exact Hv|done|done|by right|]. intros b c1 Hv1 Hb1 _. lnorm.
  lbind. eapply wp_bdata; [exact Hv1|exact Hb1|]. lget. lget.
  change (cv_content (v_hold st v) st) with (cv_content v st). fold d.
  lbind. eapply wp_set_bdata; [exact Hv1|exact Hb1|exact Hd|]. intros c2 Hv2 Hb2 _. lnorm.
  lbind. eapply wp_bwrite; [exact Hv2|exact Hb2|]. intros c3 Hv3 Hb3 _. lnorm.
  eapply wp_brelse; [exact Hv3|exact Hb3| |].
  - right. simpl. rewrite vdisk_insert by done. by rewrite decide_True, fset_same.
  - intros c4 Hv4 _. exists c4. split; [done|]. by apply sees_through.
Qed.

(** ** Installing the logged blocks *)

Definition v_inst (sec : Z) (d : list Z) (v : cview) : cview :=
  mkView (fset (cv_content v) sec d) (cv_held v) (cv_pinned v ∖ {[sec]})
    (<[Z.to_nat sec:=d]> (cv_disk v)) (cv_trace v ++ [(sec, d)]).

Lemma holds_inj c b sec sec' : holds c b sec -> holds c b sec' -> sec = sec'.
Proof. intros (x & (Hx & _ & <-) & _) (y & (Hy & _ & <-) & _). congruence. Qed.

Lemma size_add (X : gset Z) sec : (size ({[sec]} ∪ X) <= S (size X))%nat.
Proof.
  destruct (decide (sec ∈ X)).
  - rewrite (subseteq_union_1_L {[sec]} X) by set_solver. lia.
  - rewrite size_union by set_solver. rewrite size_singleton. lia.
Qed.

Lemma room_hold v sec k : room v (S k) -> room (v_hold sec v) k.
Proof.
  unfold room. cbn [v_hold cv_held cv_pinned]. rewrite <- (assoc_L union).
  pose proof (size_add (cv_held v ∪ cv_pinned v) sec). lia.
Qed.

Section Install.
Context (st sz n : Z) (bz : bool) (secs : list Z).

Definition log_sector (i : nat) : Z := st + Z.of_nat i + 1.

Lemma install_one_wp c v i sec :
  sees c v -> secs !! i = Some sec -> on_disk v sec -> sec ∉ cv_held v ->
  on_disk v (log_sector i) -> log_sector i ∉ cv_held v -> log_sector i ∉ cv_pinned v ->
  log_sector i <> sec -> room v 1 -> (sec ∈ cv_pinned v \/ room v 2) ->
  wp (install_one i) (fun _ s' => exists c',
    s' = mkLog c' st sz bz n secs /\ sees c' (v_inst sec (cv_content v (log_sector i)) v))
    (mkLog c st sz bz n secs).
Proof.
  intros Hv Hi Hs Hsh Hl Hlh Hlp Hne Hr Hr'. unfold install_one. set (ls := log_sector i) in *.
  set (d := cv_content v ls). pose proof (sees_length c v ls Hv Hl) as Hd.
  pose proof (sees_clean c v ls Hv Hlh Hlp) as Hclean.
  lget. lget. rewrite Hi. simpl default. fold (log_sector i). fold ls.
  lbind. eapply wp_bread; [exact Hv|exact Hl|done|by right|]. intros lb c1 Hv1 Hb1 _. lnorm.
  lbind. eapply wp_bread; [exact Hv1|exact Hs| | |].
  { simpl. set_solver. }
  { destruct Hr' as [?|?]; [by left|right]. by apply room_hold. }
  intros db c2 Hv2 Hb2 Hk2. apply Hk2 in Hb1. lnorm.
  assert (Hdl : db <> lb) by (intros ->; apply Hne; by eapply holds_inj).
  lbind. eapply wp_bdata; [exact Hv2|exact Hb1|]. change (cv_content _ ls) with d.
  lbind. eapply wp_set_bdata; [exact Hv2|exact Hb2|exact Hd|]. intros c3 Hv3 Hb3 Hk3. apply Hk3 in Hb1. lnorm.
  lbind. eapply wp_bwrite; [exact Hv3|exact Hb3|]. intros c4 Hv4 Hb4 Hk4. apply Hk4 in Hb1. lnorm.
  lbind. eapply wp_brelse; [exact Hv4|exact Hb1| |].
  { right. simpl. rewrite vdisk_insert by done. rewrite decide_False, fset_other by done. done. }
  intros c5 Hv5 Hk5. apply (Hk5 db sec Hdl) in Hb4. lnorm.
  eapply wp_brelse; [exact Hv5|exact Hb4| |].
  { right. simpl. rewrite vdisk_insert by done. by rewrite decide_True, fset_same. }
  intros c6 Hv6 _. exists c6. split; [done|].
  eapply sees_weaken; [exact Hv6|..]; simpl; rewrite ?fset_same; try done. set_solver.
Qed.

Fixpoint v_installs (i : nat) (todo : list Z) (v : cview) : cview :=
  match todo with
  | [] => v
  | sec :: todo' => v_installs (S i) todo' (v_inst sec (cv_content v (log_sector i)) v)
  end.

Lemma room_inst v sec d k : room v k -> room (v_inst sec d v) k.
Proof.
  unfold room. cbn [v_inst cv_held cv_pinned].
  assert (Hsub : cv_held v ∪ cv_pinned v ∖ {[sec]} ⊆ cv_held v ∪ cv_pinned v) by set_solver.
  apply subseteq_size in Hsub. lia.
Qed.

(** The loop over the sectors still to install; they lie below the log. *)
Lemma install_loop todo i c v :
  sees c v -> (forall j sec, todo !! j = Some sec -> secs !! (i + j)%nat = Some sec) ->
  NoDup todo -> Forall (fun sec => 0 <= sec < st /\ sec ∉ cv_held v) todo ->
  0 <= st -> st + Z.of_nat (i + length todo) < Z.of_nat (length (cv_disk v)) ->
  (forall sec, st <= sec -> sec ∉ cv_held v /\ sec ∉ cv_pinned v) ->
  room v 1 -> (Forall (fun sec => sec ∈ cv_pinned v) todo \/ room v 2) ->
  wp (for_upto (length todo) i install_one) (fun _ s' => exists c',
    s' = mkLog c' st sz bz n secs /\ sees c' (v_installs i todo v)) (mkLog c st sz bz n secs).
Proof.
  revert i c v. induction todo as [|sec todo IH]; intros i c v Hv Hsecs Hnd Hhome Hst Hlen Hlog Hr Hr'.
  - apply wp_ret. eauto.
  - cbn [length for_upto v_installs] in *. apply NoDup_cons in Hnd as [Hni Hnd].
    apply Forall_cons in Hhome as [[Hs Hsh] Hhome].
    assert (Hlog1 := Hlog (log_sector i) ltac:(unfold log_sector; lia)).
    lbind. eapply wp_mono; [eapply (install_one_wp c v i sec)|]; try done.
    + rewrite <- (Hsecs 0%nat sec) by done. f_equal. lia.
    + unfold on_disk. lia.
    + unfold on_disk, log_sector. lia.
    + by apply Hlog1.
    + by apply Hlog1.
    + unfold log_sector. lia.
    + destruct Hr' as [[? _]%Forall_cons|?]; auto.
    + intros [] s' (c' & -> & Hv'). apply IH; [done|..]; auto using room_inst; simpl.
      * intros j sec' Hj. rewrite <- (Hsecs (S j) sec') by done. f_equal. lia.
      * rewrite length_insert. lia.
      * intros sec' Hs'. destruct (Hlog sec' Hs'). set_solver.
      * destruct Hr' as [[_ Hall]%Forall_cons|?]; [left|right; by apply room_inst].
        rewrite Forall_forall in Hall |- *. intros x Hx. specialize (Hall x Hx). set_solver.
Qed.

End Install.
(** ** Installs as disk writes *)

Definition apply_writes (W : list (Z * list Z)) (dk : list (list Z)) : list (list Z) :=
  foldl (fun dk w => <[Z.to_nat w.1:=w.2]> dk) dk W.

Definition put_all (W : list (Z * list Z)) (f : Z -> list Z) : Z -> list Z :=
  foldl (fun f w => fset f w.1 w.2) f W.

(** The logged blocks with their home sectors; [f] are the contents. *)
Fixpoint logged_pairs (st : Z) (i : nat) (L : list Z) (f : Z -> list Z) : list (Z * list Z) :=
  match L with
  | [] => []
  | sec :: L' => (sec, f (log_sector st i)) :: logged_pairs st (S i) L' f
  end.

Lemma logged_pairs_ext st i L f g :
  (forall j, (i <= j)%nat -> f (log_sector st j) = g (log_sector st j)) ->
  logged_pairs st i L f = logged_pairs st i L g.
Proof.
  revert i. induction L as [|sec L IH]; intros i H; [done|]. simpl. f_equal.
  - by rewrite H by lia.
  - apply IH. intros j Hj. apply H. lia.
Qed.

Lemma logged_pairs_fst st i L f : (logged_pairs st i L f).*1 = L.
Proof. revert i. induction L as [|sec L IH]; intros i; [done|]. simpl. f_equal. apply IH. Qed.

Lemma length_apply_writes W dk : length (apply_writes W dk) = length dk.
Proof.
  revert dk. induction W as [|w W IH]; intros dk; [done|]. simpl.
  change (length (apply_writes W (<[Z.to_nat w.1:=w.2]> dk)) = length dk).
  by rewrite IH, length_insert.
Qed.

Lemma v_installs_fields st i L v :
  Forall (fun sec => 0 <= sec < st) L ->
  let W := logged_pairs st i L (cv_content v) in
  v_installs st i L v = mkView (put_all W (cv_content v)) (cv_held v)
    (cv_pinned (v_installs st i L v)) (apply_writes W (cv_disk v)) (cv_trace v ++ W) /\
  cv_pinned (v_installs st i L v) = cv_pinned v ∖ list_to_set L.
Proof.
  revert i v. induction L as [|sec L IH]; intros i v HL; simpl.
  - rewrite app_nil_r. destruct v; simpl. split; [done|set_solver].
  - apply Forall_cons in HL as [Hs HL].
    destruct (IH (S i) (v_inst sec (cv_content v (log_sector st i)) v) HL) as [IH1 IH2].
    assert (HW : logged_pairs st (S i) L (cv_content (v_inst sec (cv_content v (log_sector st i)) v)) =
      logged_pairs st (S i) L (cv_content v)).
    { apply logged_pairs_ext. intros j Hj. simpl. apply fset_other. unfold log_sector. lia. }
    rewrite HW in IH1. split.
    + rewrite IH1 at 1. simpl. f_equal. by rewrite <- (assoc_L app).
    + rewrite IH2. simpl. set_solver.
Qed.

(** ** The state inside a transaction *)

(** The log area of the disk: the header at [st] and [sz - 1] data blocks. *)
Record geometry (st sz : Z) (dk : list (list Z)) : Prop := {
  g_start : 0 < st;
  g_size : 1 < sz;
  g_end : st + sz <= Z.of_nat (length dk);
  g_int : Z.of_nat (length dk) < 2147483648
}.

(** Sectors [L] are logged; the log blocks hold the contents of all but those in
    [X], which are being modified. *)
Record in_tx (st sz : Z) (v : cview) (L : list Z) (X : gset Z) : Prop := {
  tx_geometry : geometry st sz (cv_disk v);
  tx_nodup : NoDup L;
  tx_home : Forall (fun sec => 0 <= sec < st) L;
  tx_room : Z.of_nat (length L) <= LOGSIZE /\ Z.of_nat (length L) <= sz - 1;
  tx_pinned : cv_pinned v = list_to_set L;
  tx_held : forall sec, sec ∈ cv_held v -> 0 <= sec < st;
  tx_copy : forall j sec, L !! j = Some sec -> sec ∉ X ->
              cv_content v (log_sector st j) = cv_content v sec
}.

Lemma tx_log_free st sz v L X sec :
  in_tx st sz v L X -> st <= sec -> sec ∉ cv_held v /\ sec ∉ cv_pinned v.
Proof.
  intros T Hs. split.
  - intros ?%(tx_held _ _ _ _ _ T). lia.
  - rewrite (tx_pinned _ _ _ _ _ T), elem_of_list_to_set. intros Hin.
    pose proof (tx_home _ _ _ _ _ T) as HL. rewrite Forall_forall in HL. specialize (HL _ Hin). lia.
Qed.

(** The in-memory header records [L]. *)
Definition header_is (secs L : list Z) (n : Z) : Prop :=
  n = Z.of_nat (length L) /\ length secs = 10%nat /\ take (length L) secs = L.

Lemma header_lookup secs L n j sec : header_is secs L n -> L !! j = Some sec -> secs !! j = Some sec.
Proof.
  intros (_ & _ & Ht) Hj. rewrite <- Ht in Hj. rewrite lookup_take_Some in Hj. by destruct Hj.
Qed.

(** ** [log_write] *)

Lemma find_sector_spec secs L n sec :
  header_is secs L n ->
  match list_find (fun x => x = sec) L with
  | Some (i, _) => find_sector (Z.to_nat n) secs sec = i
  | None => find_sector (Z.to_nat n) secs sec = length L
  end.
Proof.
  intros (-> & _ & Ht). rewrite Nat2Z.id. clear -Ht. revert secs Ht.
  induction L as [|x L IH]; intros secs Ht; [done|]. destruct secs as [|y secs]; [done|].
  simpl in Ht. injection Ht as -> Ht. specialize (IH secs Ht). simpl.
  destruct (Z.eqb_spec x sec).
  - by rewrite decide_True.
  - rewrite decide_False by done. destruct (list_find _ L) as [[i z]|]; simpl; by rewrite IH.
Qed.

Definition log_add (sec : Z) (L : list Z) : list Z := if decide (sec ∈ L) then L else L ++ [sec].

Lemma header_add secs L n sec :
  header_is secs L n -> NoDup L -> Z.of_nat (length L) < LOGSIZE ->
  let i := find_sector (Z.to_nat n) secs sec in
  (i < 10)%nat /\ log_add sec L !! i = Some sec /\ (i <= length L)%nat /\
  header_is (<[i:=sec]> secs) (log_add sec L) (if Z.of_nat i =? n then n + 1 else n) /\
  (forall j x, log_add sec L !! j = Some x -> j <> i -> L !! j = Some x /\ x <> sec).
Proof.
  intros Hh Hnd Hlt. cbn zeta. pose proof (find_sector_spec secs L n sec Hh) as Hf.
  set (i := find_sector (Z.to_nat n) secs sec) in *. unfold LOGSIZE in Hlt.
  pose proof Hh as (Hn & Hl & Ht). unfold log_add.
  destruct (list_find (fun x => x = sec) L) as [[k y]|] eqn:E.
  - apply list_find_Some in E as (Hk & -> & _). rewrite <- Hf in Hk.
    pose proof (lookup_lt_Some _ _ _ Hk). rewrite decide_True by by eapply list_elem_of_lookup_2.
    rewrite (proj2 (Z.eqb_neq _ _)) by lia. rewrite list_insert_id by by eapply header_lookup.
    split_and!; [lia|done|lia|done|]. intros j x Hj Hne. split; [done|]. intros ->.
    apply Hne. by eapply NoDup_lookup.
  - apply list_find_None in E. assert (Hnin : sec ∉ L).
    { intros [j Hj]%list_elem_of_lookup_1. rewrite Forall_lookup in E. by apply (E j sec Hj). }
    rewrite decide_False by done. rewrite Hf. rewrite (proj2 (Z.eqb_eq _ _)) by lia.
    split_and!; [lia| |lia| |].
    + by rewrite lookup_app_r, Nat.sub_diag by lia.
    + split_and!; [rewrite length_app; simpl; lia|by rewrite length_insert|].
      rewrite length_app. simpl. rewrite Nat.add_1_r.
      rewrite (take_S_r _ _ sec) by (apply list_lookup_insert_eq; lia).
      by rewrite take_insert_ge, Ht by lia.
    + intros j x Hj Hne. apply lookup_snoc_Some in Hj as [[Hj1 Hj]|[Hj _]]; [|lia].
      split; [done|]. intros ->. apply Hnin. by eapply list_elem_of_lookup_2.
Qed.

Lemma elem_of_log_add x sec L : x ∈ log_add sec L <-> x = sec \/ x ∈ L.
Proof.
  unfold log_add. case_decide as E; [split; [by right|]; intros [->|?]; done|].
  rewrite elem_of_app, list_elem_of_singleton. tauto.
Qed.

Lemma in_tx_add st sz v L sec i :
  in_tx st sz v L {[sec]} -> 0 <= sec < st -> Z.of_nat (length L) < LOGSIZE ->
  Z.of_nat (length L) < sz - 1 -> (i <= length L)%nat -> log_add sec L !! i = Some sec ->
  (forall j x, log_add sec L !! j = Some x -> j <> i -> L !! j = Some x /\ x <> sec) ->
  in_tx st sz (v_pin sec (v_through (log_sector st i) (cv_content v sec) v)) (log_add sec L) ∅.
Proof.
  intros T Hs Hn1 Hn2 Hi Hat Hother. destruct T as [G N H R P Hh C]. unfold log_sector in *.
  split; simpl.
  - destruct G. split; rewrite ?length_insert; done.
  - unfold log_add. case_decide; [done|]. apply NoDup_app. split_and!; [done| |apply NoDup_singleton].
    intros x Hx ->%list_elem_of_singleton. done.
  - apply Forall_forall. intros x [->|Hx]%elem_of_log_add; [done|]. rewrite Forall_forall in H. auto.
  - unfold log_add. case_decide; [lia|]. rewrite length_app. simpl. lia.
  - apply set_eq. intros x. rewrite elem_of_list_to_set, elem_of_log_add, elem_of_union, elem_of_singleton.
    by rewrite P, elem_of_list_to_set.
  - done.
  - intros j x Hj _. destruct (decide (j = i)) as [->|Hne].
    + rewrite fset_same, fset_other; [congruence|]. assert (x = sec) by congruence. lia.
    + destruct (Hother j x Hj Hne) as [Hj' Hx]. rewrite Forall_lookup in H. specialize (H j x Hj').
      rewrite (fset_other _ _ _ (st + Z.of_nat j + 1)), (fset_other _ _ _ x) by lia.
      apply C; [done|]. by rewrite elem_of_singleton.
Qed.

(** [log_write] of a held home block copies its contents to its place in the log
    and pins the buffer. *)
Lemma log_write_wp c st sz n secs L v b sec :
  sees c v -> in_tx st sz v L {[sec]} -> header_is secs L n -> holds c b sec -> 0 <= sec < st ->
  Z.of_nat (length L) < LOGSIZE -> Z.of_nat (length L) < sz - 1 -> room v 1 ->
  wp (log_write b) (fun _ s' => exists c' i n' secs',
    s' = mkLog c' st sz true n' secs' /\ (i <= length L)%nat /\
    header_is secs' (log_add sec L) n' /\ holds c' b sec /\ keeps c c' /\
    sees c' (v_pin sec (v_through (log_sector st i) (cv_content v sec) v)) /\
    in_tx st sz (v_pin sec (v_through (log_sector st i) (cv_content v sec) v)) (log_add sec L) ∅)
    (mkLog c st sz true n secs).
Proof.
  intros Hv T Hh Hb Hs Hn1 Hn2 Hr. pose proof Hh as (Hn & Hl & _).
  destruct (header_add secs L n sec Hh (tx_nodup _ _ _ _ _ T) Hn1) as (Hi & Hat & Hile & Hh' & Hother).
  set (i := find_sector (Z.to_nat n) secs sec) in *. unfold log_write.
  destruct (tx_geometry _ _ _ _ _ T) as [Hst Hsz Hend _].
  assert (Hlog := tx_log_free _ _ _ _ _ (log_sector st i) T ltac:(unfold log_sector; lia)).
  assert (Hld : on_disk v (log_sector st i)) by (unfold on_disk, log_sector; lia).
  assert (Hsl : length (cv_content v sec) = BSIZE) by (eapply sees_length; [done|unfold on_disk in *; lia]).
  lget. lget. lget. rewrite (proj2 (Z.leb_gt LOGSIZE n)), (proj2 (Z.leb_gt (sz - 1) n)) by lia. cbn [orb negb].
  lbind. apply wp_bio, wp_gets. lnorm. pose proof (holds_cached _ _ _ Hb) as [(_ & Hdev & Hsec) _].
  lget. rewrite Hdev, Hsec. fold i. lbind. unfold set_sector, wp at 1. lnorm. rewrite decide_True by lia.
  lget. fold (log_sector st i). lbind.
  eapply wp_bread; [exact Hv|done|by apply Hlog|by right|]. intros lb c1 Hv1 Hb1 Hk1. lnorm.
  assert (Hbl : lb <> b).
  { intros ->. apply Hk1 in Hb. pose proof (holds_inj _ _ _ _ Hb Hb1). unfold log_sector in *. lia. }
  lbind. eapply wp_bdata; [exact Hv1|by apply Hk1|]. change (cv_content _ sec) with (cv_content v sec).
  lbind. eapply wp_set_bdata; [exact Hv1|exact Hb1|exact Hsl|]. intros c2 Hv2 Hb2 Hk2. lnorm.
  lbind. eapply wp_bwrite; [exact Hv2|exact Hb2|]. intros c3 Hv3 Hb3 Hk3. lnorm.
  lbind. eapply wp_brelse; [exact Hv3|exact Hb3| |].
  { right. simpl. rewrite vdisk_insert by done. by rewrite decide_True, fset_same. }
  intros c4 Hv4 Hk4. lnorm. apply sees_through in Hv4; [|by apply Hlog..].
  assert (Hkeep : forall b' sec', holds c b' sec' -> holds c4 b' sec').
  { intros b' sec' Hb'. apply Hk4; [|by apply Hk3, Hk2, Hk1]. intros ->. apply Hk1 in Hb' as Hb1'.
    pose proof (holds_inj _ _ _ _ Hb1 Hb1'). apply holds_held in Hb'.
    destruct Hv as (_ & _ & Hheld & _). rewrite Hheld in Hb'.
    apply (tx_held _ _ _ _ _ T) in Hb'. unfold log_sector in *. lia. }
  set (n' := if Z.of_nat i =? n then n + 1 else n) in *. lbind.
  assert (Hset : forall Q, Q tt (mkLog c4 st sz true n' (<[i:=sec]> secs)) ->
    wp (if Z.of_nat i =? n then set_n (n + 1) else ret tt) Q (mkLog c4 st sz true n (<[i:=sec]> secs))).
  { intros Q HQ. unfold n' in HQ. by destruct (Z.of_nat i =? n). }
  apply Hset. eapply wp_pin; [exact Hv4|by apply Hkeep|]. intros c5 Hv5 Hb5 Hk5. lnorm.
  exists c5, i, n', (<[i:=sec]> secs). split_and!; try done.
  - intros b' sec' Hb'. by apply Hk5, Hkeep.
  - by apply in_tx_add.
Qed.

(** ** [commit_trans] *)

Lemma logged_pairs_map st i L f (g : Z -> list Z) :
  (forall j sec, L !! j = Some sec -> f (log_sector st (i + j)) = g sec) ->
  logged_pairs st i L f = (fun sec => (sec, g sec)) <$> L.
Proof.
  revert i. induction L as [|sec L IH]; intros i H; [done|]. simpl. f_equal.
  - f_equal. rewrite <- (H 0%nat sec) by done. by rewrite Nat.add_0_r.
  - apply IH. intros j sec' Hj. rewrite <- (H (S j) sec') by done. do 2 f_equal. lia.
Qed.

Lemma put_all_same W f g :
  (forall w, w ∈ W -> w.2 = g w.1) -> (forall sec, f sec = g sec) -> forall sec, put_all W f sec = g sec.
Proof.
  revert f. induction W as [|w W IH]; intros f HW Hf sec; [apply Hf|]. simpl.
  change (put_all W (fset f w.1 w.2) sec = g sec). apply IH.
  - intros w' Hw'. apply HW. by apply list_elem_of_further.
  - intros sec'. unfold fset. case_decide; [|apply Hf]. subst sec'. apply HW, list_elem_of_here.
Qed.

Lemma put_all_other W f sec : (forall w, w ∈ W -> w.1 <> sec) -> put_all W f sec = f sec.
Proof.
  revert f. induction W as [|w W IH]; intros f HW; [done|]. simpl.
  change (put_all W (fset f w.1 w.2) sec = f sec). rewrite IH.
  - apply fset_other. intros ->. by apply (HW w (list_elem_of_here _ _)).
  - intros w' Hw'. apply HW. by apply list_elem_of_further.
Qed.

(** The disk writes of a commit; [f] are the contents of the sectors. *)
Definition commit_writes (st : Z) (L : list Z) (f : Z -> list Z) : list (Z * list Z) :=
  match L with
  | [] => []
  | _ => let hdr := encode_head (Z.of_nat (length L)) L (f st) in
         [(st, hdr)] ++ ((fun sec => (sec, f sec)) <$> L) ++ [(st, encode_head 0 [] hdr)]
  end.

Definition commit_header (st : Z) (L : list Z) (f : Z -> list Z) : Z -> list Z :=
  match L with
  | [] => f
  | _ => fset f st (encode_head 0 [] (encode_head (Z.of_nat (length L)) L (f st)))
  end.

(** The second half of a commit: the transaction is erased from the log. *)
Lemma commit_tail c st sz n secs L v :
  let hdr := encode_head (Z.of_nat (length L)) L (cv_content v st) in
  sees c (v_installs st 0 L (v_through st hdr v)) -> in_tx st sz v L ∅ -> length secs = 10%nat ->
  L <> [] -> room v 1 ->
  wp (set_n 0 ;;; write_head) (fun _ s' => exists c',
    s' = mkLog c' st sz true 0 secs /\
    sees c' (mkView (commit_header st L (cv_content v)) (cv_held v) ∅
               (apply_writes (commit_writes st L (cv_content v)) (cv_disk v))
               (cv_trace v ++ commit_writes st L (cv_content v))))
    (mkLog c st sz true n secs).
Proof.
  intros hdr Hv2 T Hl Hne Hr. destruct (tx_geometry _ _ _ _ _ T) as [Hst Hsz Hend Hint].
  set (v1 := v_through st hdr v) in *. set (f := cv_content v) in *.
  pose proof (tx_home _ _ _ _ _ T) as HH. rewrite Forall_forall in HH.
  assert (HW : logged_pairs st 0 L (cv_content v1) = (fun sec => (sec, f sec)) <$> L).
  { apply logged_pairs_map. intros j sec Hj. simpl. rewrite fset_other by (unfold log_sector; lia).
    apply (tx_copy _ _ _ _ _ T); [done|set_solver]. }
  destruct (v_installs_fields st 0 L v1) as [HF HP]; [by apply Forall_forall|]. rewrite HW in HF.
  set (W := (fun sec => (sec, f sec)) <$> L) in *.
  assert (HP0 : cv_pinned (v_installs st 0 L v1) = ∅).
  { rewrite HP. simpl. rewrite (tx_pinned _ _ _ _ _ T). set_solver. }
  rewrite HP0 in HF. rewrite HF in Hv2. clear HF HP HP0.
  assert (Hput : forall sec, put_all W (cv_content v1) sec = cv_content v1 sec).
  { apply put_all_same; [|done]. intros w Hw. apply list_elem_of_fmap in Hw as (sec & -> & Hin).
    simpl. rewrite fset_other; [done|]. specialize (HH sec Hin). lia. }
  apply wp_bind, wp_modify. lnorm.
  eapply wp_mono; [apply (write_head_wp c st sz true 0 secs _ Hv2); simpl|].
  - unfold on_disk. simpl. rewrite length_apply_writes, length_insert. lia.
  - by apply (tx_log_free _ _ _ _ _ st T).
  - set_solver.
  - unfold room in *. cbn [cv_held cv_pinned v1 v_through]. rewrite union_empty_r_L.
    assert (Hsub : cv_held v ⊆ cv_held v ∪ cv_pinned v) by set_solver. apply subseteq_size in Hsub. lia.
  - lia.
  - done.
  - intros [] s3 (c3 & -> & Hv3). exists c3. split; [done|].
    assert (HC : commit_writes st L f = [(st, hdr)] ++ W ++ [(st, encode_head 0 [] hdr)])
      by by destruct L.
    assert (HD : commit_header st L f = fset f st (encode_head 0 [] hdr)) by by destruct L.
    rewrite HC, HD. change (take (Z.to_nat 0) secs) with (@nil Z) in Hv3. cbn [cv_content] in Hv3.
    assert (Hhd : cv_content v1 st = hdr) by apply fset_same. rewrite Hput, Hhd in Hv3.
    eapply sees_weaken; [exact Hv3|..]; try done; simpl.
    + intros sec. unfold fset at 1 3. case_decide; [done|]. rewrite Hput. simpl. by apply fset_other.
    + unfold apply_writes. by rewrite foldl_app.
    + by rewrite <- !(assoc_L app).
Qed.

Lemma commit_wp c st sz n secs L v :
  sees c v -> in_tx st sz v L ∅ -> header_is secs L n -> room v 1 ->
  (forall sec, sec ∈ L -> sec ∉ cv_held v) ->
  wp commit_trans (fun _ s' => exists c',
    s' = mkLog c' st sz false 0 secs /\
    sees c' (mkView (commit_header st L (cv_content v)) (cv_held v) ∅
               (apply_writes (commit_writes st L (cv_content v)) (cv_disk v))
               (cv_trace v ++ commit_writes st L (cv_content v))))
    (mkLog c st sz true n secs).
Proof.
  intros Hv T Hh Hr HLh. pose proof Hh as (Hn & Hl & Ht).
  destruct (tx_geometry _ _ _ _ _ T) as [Hst Hsz Hend Hint]. destruct (tx_room _ _ _ _ _ T) as [Hr1 Hr2].
  unfold commit_trans. lget. destruct L as [|sec0 L0] eqn:HL.
  - simpl in Hn. subst n. change (0 <? 0) with false. cbv iota. apply wp_bind, wp_ret. apply wp_modify. lnorm.
    exists c. split; [done|]. simpl. rewrite app_nil_r.
    eapply sees_weaken; [exact Hv|..]; simpl; try done. by rewrite (tx_pinned _ _ _ _ _ T).
  - rewrite <- HL in *. rewrite (proj2 (Z.ltb_lt 0 n)) by (rewrite Hn, HL; simpl; lia).
    assert (Hlog : forall sec, st <= sec -> sec ∉ cv_held v /\ sec ∉ cv_pinned v)
      by (intros; by eapply tx_log_free).
    destruct (Hlog st ltac:(lia)) as [Hsth Hstp].
    assert (Hnn : (Z.to_nat n <= 10)%nat) by (unfold LOGSIZE in *; lia).
    set (hdr := encode_head (Z.of_nat (length L)) L (cv_content v st)).
    assert (Htake : take (Z.to_nat n) secs = L) by (rewrite Hn, Nat2Z.id; done).
    apply wp_bind, wp_bind. eapply wp_mono;
      [apply (write_head_wp c st sz true n secs v); try done; unfold on_disk; lia|].
    intros [] s1 (c1 & -> & Hv1). rewrite Htake, Hn in Hv1. fold hdr in Hv1.
    set (v1 := v_through st hdr v) in *. apply wp_bind. unfold install_trans. lget.
    assert (Hlenn : Z.to_nat n = length L) by lia. rewrite Hlenn.
    eapply wp_mono; [apply (install_loop st sz n true secs L 0 c1 v1); try done|].
    + intros j sec Hj. by eapply header_lookup.
    + apply (tx_nodup _ _ _ _ _ T).
    + apply Forall_forall. intros sec Hin. pose proof (tx_home _ _ _ _ _ T) as HF.
      rewrite Forall_forall in HF. split; [by apply HF|by apply HLh].
    + lia.
    + simpl. rewrite length_insert. lia.
    + left. apply Forall_forall. intros sec Hin. simpl. by rewrite (tx_pinned _ _ _ _ _ T), elem_of_list_to_set.
    + intros [] s2 (c2 & -> & Hv2). eapply wp_mono;
        [apply (commit_tail c2 st sz n secs L v); [exact Hv2|done|done|by rewrite HL|done]|].
      intros [] s3 (c3 & -> & Hv3). apply wp_modify. lnorm. exists c3. split; [done|]. exact Hv3.
Qed.

(** ** Recovery *)

Lemma copy_sectors_wp c st sz bz n secs d k i :
  length secs = 10%nat -> (i + k <= 10)%nat ->
  wp (copy_sectors k i d) (fun _ s' => exists secs',
    s' = mkLog c st sz bz n secs' /\ length secs' = 10%nat /\
    forall j, secs' !! j = if decide (i <= j < i + k)%nat then Some (head_sector d j) else secs !! j)
    (mkLog c st sz bz n secs).
Proof.
  revert i secs. induction k as [|k IH]; intros i secs Hl Hi.
  - apply wp_ret. exists secs. split_and!; [done|done|]. intros j. by rewrite decide_False by lia.
  - cbn [copy_sectors]. lbind. unfold set_sector, wp at 1. lnorm. rewrite decide_True by lia.
    eapply wp_mono; [apply IH; [by rewrite length_insert|lia]|].
    intros [] s' (secs' & -> & Hl' & Hj). exists secs'. split_and!; [done|done|].
    intros j. rewrite Hj. destruct (decide (j = i)) as [->|Hne].
    + rewrite decide_False by lia. rewrite decide_True by lia. apply list_lookup_insert_eq. lia.
    + rewrite list_lookup_insert_ne by done. repeat case_decide; lia || done.
Qed.

(** The sectors a header block names. *)
Definition head_list (d : list Z) : list Z := head_sector d <$> seq 0 (Z.to_nat (head_n d)).

Lemma length_head_list d : length (head_list d) = Z.to_nat (head_n d).
Proof. unfold head_list. by rewrite length_fmap, length_seq. Qed.

Lemma sees_hold_release c v sec :
  sec ∉ cv_held v -> sees c (v_release sec (v_hold sec v)) -> sees c v.
Proof. intros Hh Hs. eapply sees_weaken; [exact Hs|..]; simpl; try done. set_solver. Qed.

Lemma read_head_wp c st sz bz n0 secs v :
  sees c v -> on_disk v st -> st ∉ cv_held v -> st ∉ cv_pinned v -> room v 1 -> length secs = 10%nat ->
  0 <= head_n (cv_content v st) <= 10 ->
  wp read_head (fun _ s' => exists c' secs',
    s' = mkLog c' st sz bz (head_n (cv_content v st)) secs' /\ sees c' v /\
    header_is secs' (head_list (cv_content v st)) (head_n (cv_content v st)))
    (mkLog c st sz bz n0 secs).
Proof.
  intros Hv Hs Hh Hp Hr Hl Hn. unfold read_head. set (d := cv_content v st) in *.
  pose proof (sees_clean c v st Hv Hh Hp) as Hclean.
  lget. lbind. eapply wp_bread; [exact Hv|done|done|by right|]. intros b c1 Hv1 Hb1 _. lnorm.
  lbind. eapply wp_bdata; [exact Hv1|exact Hb1|]. change (cv_content (v_hold st v) st) with d.
  lbind. apply wp_modify. lnorm. lbind. eapply wp_mono; [apply copy_sectors_wp; [done|lia]|].
  intros [] s' (secs' & -> & Hl' & Hj). eapply wp_brelse; [exact Hv1|exact Hb1|by right|].
  intros c2 Hv2 _. lnorm. exists c2, secs'. split_and!; [done|by apply (sees_hold_release c2 v st)|].
  unfold header_is. split_and!; [|done|].
  - rewrite length_head_list. lia.
  - apply list_eq. intros j. rewrite lookup_take, Hj, length_head_list. unfold head_list.
    rewrite list_lookup_fmap. destruct (decide (j < Z.to_nat (head_n d))%nat) as [Hlt|Hge].
    + rewrite (lookup_seq_lt 0 _ j) by lia. rewrite decide_True by lia. done.
    + rewrite (lookup_seq_ge 0 _ j) by lia. done.
Qed.

Lemma recover_wp c st sz bz n0 secs v :
  sees c v -> geometry st sz (cv_disk v) -> cv_held v = ∅ -> cv_pinned v = ∅ -> length secs = 10%nat ->
  let d := cv_content v st in
  0 <= head_n d <= 10 -> head_n d <= sz - 1 -> NoDup (head_list d) ->
  Forall (fun sec => 0 <= sec < st) (head_list d) ->
  wp recover_from_log (fun _ s' => exists c' secs' f,
    s' = mkLog c' st sz bz 0 secs' /\ length secs' = 10%nat /\
    let W := logged_pairs st 0 (head_list d) (cv_content v) ++ [(st, encode_head 0 [] d)] in
    sees c' (mkView f ∅ ∅ (apply_writes W (cv_disk v)) (cv_trace v ++ W)))
    (mkLog c st sz bz n0 secs).
Proof.
  intros Hv [Hst Hsz Hend Hint] Hh Hp Hl d Hn Hn' Hnd Hhome. unfold recover_from_log.
  assert (Hr2 : room v 2) by (unfold room; rewrite Hh, Hp, union_empty_l_L, size_empty; unfold NBUF; lia).
  assert (Hr1 : room v 1) by (unfold room in *; lia).
  assert (Hstd : on_disk v st) by (unfold on_disk; lia).
  lbind. eapply wp_mono; [apply (read_head_wp c st sz bz n0 secs v); try done; set_solver|].
  intros [] s1 (c1 & secs1 & -> & Hv1 & Hh1). fold d in Hh1 |- *. set (L := head_list d) in *.
  lbind. unfold install_trans. lget.
  assert (Hnl : Z.to_nat (head_n d) = length L) by (unfold L; by rewrite length_head_list). rewrite Hnl.
  eapply wp_mono; [apply (install_loop st sz (head_n d) bz secs1 L 0 c1 v); try done|].
  - intros j sec Hj. by eapply header_lookup.
  - apply Forall_forall. intros sec Hin. rewrite Forall_forall in Hhome. split; [by apply Hhome|set_solver].
  - lia.
  - lia.
  - intros sec _. set_solver.
  - by right.
  - intros [] s2 (c2 & -> & Hv2). destruct (v_installs_fields st 0 L v Hhome) as [HF HP].
    set (W := logged_pairs st 0 L (cv_content v)) in *.
    assert (HP0 : cv_pinned (v_installs st 0 L v) = ∅) by (rewrite HP, Hp; set_solver).
    rewrite HP0, Hh in HF. rewrite HF in Hv2. apply wp_bind, wp_modify. lnorm.
    assert (Hput : put_all W (cv_content v) st = d).
    { apply (put_all_other W). intros w Hw. unfold W in Hw.
      assert (Hin : w.1 ∈ L) by (rewrite <- (logged_pairs_fst st 0 L (cv_content v)); apply list_elem_of_fmap; eauto).
      rewrite Forall_forall in Hhome. specialize (Hhome _ Hin). lia. }
    eapply wp_mono; [apply (write_head_wp c2 st sz bz 0 secs1 _ Hv2)|]; simpl.
    + unfold on_disk. simpl. rewrite length_apply_writes. lia.
    + set_solver.
    + set_solver.
    + unfold room. cbn [cv_held cv_pinned]. rewrite union_empty_l_L, size_empty. unfold NBUF. lia.
    + lia.
    + by destruct Hh1 as (_ & ? & _).
    + rewrite Hput. intros [] s3 (c3 & -> & Hv3). exists c3, secs1, (cv_content (v_through st
        (encode_head 0 (take (Z.to_nat 0) secs1) d) (mkView (put_all W (cv_content v)) ∅ ∅
          (apply_writes W (cv_disk v)) (cv_trace v ++ W)))).
      split_and!; [done|by destruct Hh1 as (_ & ? & _)|]. cbn zeta.
      eapply sees_weaken; [exact Hv3|..]; simpl; try done.
      * unfold apply_writes. by rewrite foldl_app.
      * by rewrite <- (assoc_L app).
Qed.

(** ** Transactions

    The typical use given in log.c: read a block, modify it, [log_write] it and
    release it. *)

Definition tx_write (sec : Z) (d : list Z) : M lstate unit :=
  let* bp := bio (bread ROOTDEV sec) in
  set_bdata bp d ;;;
  log_write bp ;;;
  bio (brelse bp).

Fixpoint run_tx (ws : list (Z * list Z)) : M lstate unit :=
  match ws with
  | [] => ret tt
  | (sec, d) :: ws' => tx_write sec d ;;; run_tx ws'
  end.

Definition transaction (ws : list (Z * list Z)) : M lstate unit :=
  begin_trans ;;;
  run_tx ws ;;;
  commit_trans.

(** The view after [tx_write] used place [i] of the log. *)
Definition v_logged (st sec : Z) (i : nat) (d : list Z) (v : cview) : cview :=
  mkView (fset (fset (cv_content v) sec d) (log_sector st i) d) (cv_held v) ({[sec]} ∪ cv_pinned v)
    (<[Z.to_nat (log_sector st i):=d]> (cv_disk v)) (cv_trace v ++ [(log_sector st i, d)]).

Lemma in_tx_hold st sz v L X sec d :
  in_tx st sz v L X -> 0 <= sec < st -> in_tx st sz (v_put sec d (v_hold sec v)) L ({[sec]} ∪ X).
Proof.
  intros [G N H R P Hh C] Hs. split; simpl; try done.
  - intros x [->%elem_of_singleton|Hx]%elem_of_union; [done|auto].
  - intros j x Hj Hx. rewrite !fset_other; [|set_solver|unfold log_sector; lia].
    apply C; [done|set_solver].
Qed.

Lemma in_tx_weaken st sz v v' L X :
  in_tx st sz v L X -> (forall sec, cv_content v sec = cv_content v' sec) ->
  cv_held v' ⊆ cv_held v -> cv_pinned v = cv_pinned v' -> cv_disk v = cv_disk v' -> in_tx st sz v' L X.
Proof.
  intros [G N H R P Hh C] Ec Eh Ep Ed. split; rewrite <- ?Ed, <- ?Ep; try done.
  - intros x Hx. apply Hh. by apply Eh.
  - intros j x Hj Hx. rewrite <- !Ec. by apply C.
Qed.

Lemma tx_write_wp c st sz n secs L v sec d :
  sees c v -> in_tx st sz v L ∅ -> header_is secs L n -> 0 <= sec < st -> sec ∉ cv_held v ->
  length d = BSIZE -> Z.of_nat (length L) < LOGSIZE -> Z.of_nat (length L) < sz - 1 -> room v 2 ->
  wp (tx_write sec d) (fun _ s' => exists c' i n' secs',
    s' = mkLog c' st sz true n' secs' /\ (i <= length L)%nat /\
    header_is secs' (log_add sec L) n' /\
    sees c' (v_logged st sec i d v) /\ in_tx st sz (v_logged st sec i d v) (log_add sec L) ∅)
    (mkLog c st sz true n secs).
Proof.
  intros Hv T Hh Hs Hsh Hd Hn1 Hn2 Hr. unfold tx_write.
  destruct (tx_geometry _ _ _ _ _ T) as [Hst Hsz Hend Hint].
  lbind. eapply wp_bread; [exact Hv|unfold on_disk; lia|done|right; unfold room in *; lia|].
  intros b c1 Hv1 Hb1 _. lnorm.
  lbind. eapply wp_set_bdata; [exact Hv1|exact Hb1|exact Hd|]. intros c2 Hv2 Hb2 _. lnorm.
  pose proof (in_tx_hold st sz v L ∅ sec d T Hs) as T2. rewrite union_empty_r_L in T2.
  set (v2 := v_put sec d (v_hold sec v)) in *.
  assert (Hc2 : cv_content v2 sec = d) by apply fset_same.
  lbind. eapply wp_mono; [apply (log_write_wp c2 st sz n secs L v2 b sec); try done; by apply room_hold|].
  intros [] s3 (c3 & i & n' & secs' & -> & Hi & Hh3 & Hb3 & _ & Hv3 & T3). rewrite Hc2 in *.
  eapply wp_brelse; [exact Hv3|exact Hb3|left; simpl; set_solver|]. intros c4 Hv4 _. lnorm.
  exists c4, i, n', secs'. split_and!; [done..| |].
  - eapply sees_weaken; [exact Hv4|..]; simpl; try done. set_solver.
  - eapply in_tx_weaken; [exact T3|..]; simpl; try done. set_solver.
Qed.

(** ** Functions of sectors *)

Lemma put_all_ext W f g sec : f sec = g sec -> put_all W f sec = put_all W g sec.
Proof.
  revert f g. induction W as [|w W IH]; intros f g Hfg; [done|]. apply IH. unfold fset. by case_decide.
Qed.

Lemma vdisk_apply W dk sec :
  Forall (fun w => 0 <= w.1 < Z.of_nat (length dk)) W ->
  vdisk (apply_writes W dk) sec = put_all W (vdisk dk) sec.
Proof.
  revert dk. induction W as [|w W IH]; intros dk HW; [done|]. apply Forall_cons in HW as [Hw HW]. simpl.
  change (vdisk (apply_writes W (<[Z.to_nat w.1:=w.2]> dk)) sec = put_all W (fset (vdisk dk) w.1 w.2) sec).
  rewrite IH by (by rewrite length_insert). apply put_all_ext. by rewrite vdisk_insert.
Qed.

Lemma put_all_app W1 W2 f : put_all (W1 ++ W2) f = put_all W2 (put_all W1 f).
Proof. unfold put_all. by rewrite foldl_app. Qed.

Lemma apply_writes_app W1 W2 dk : apply_writes (W1 ++ W2) dk = apply_writes W2 (apply_writes W1 dk).
Proof. unfold apply_writes. by rewrite foldl_app. Qed.

Lemma put_all_map (L : list Z) (g f : Z -> list Z) sec :
  put_all ((fun s => (s, g s)) <$> L) f sec = if decide (sec ∈ L) then g sec else f sec.
Proof.
  revert f. induction L as [|x L IH]; intros f.
  - rewrite decide_False; [done|apply not_elem_of_nil].
  - change (put_all ((fun s => (s, g s)) <$> L) (fset f x (g x)) sec =
      if decide (sec ∈ x :: L) then g sec else f sec).
    rewrite IH. unfold fset. repeat case_decide; try done; subst;
      rewrite ?elem_of_cons in *; naive_solver.
Qed.

(** ** A whole transaction *)

(** The blocks a transaction may write: home blocks, few enough for the log area,
    the header array and the buffer cache. *)
Record tx_writes (st sz : Z) (k : nat) (ws : list (Z * list Z)) : Prop := {
  tw_home : Forall (fun w => 0 <= w.1 < st /\ length w.2 = BSIZE) ws;
  tw_log : Z.of_nat (k + length ws) <= sz - 1;
  tw_cache : (k + length ws < NBUF)%nat
}.

Lemma in_tx_room st sz v L X k :
  in_tx st sz v L X -> cv_held v = ∅ -> (length L + k <= NBUF)%nat -> room v k.
Proof.
  intros T Hh Hk. unfold room. rewrite Hh, (tx_pinned _ _ _ _ _ T), union_empty_l_L.
  rewrite size_list_to_set; [done|]. apply (tx_nodup _ _ _ _ _ T).
Qed.

Lemma length_log_add sec L : (length L <= length (log_add sec L) <= S (length L))%nat.
Proof. unfold log_add. case_decide; rewrite ?length_app; simpl; lia. Qed.

Lemma run_tx_wp ws c st sz n secs L v :
  sees c v -> in_tx st sz v L ∅ -> header_is secs L n -> cv_held v = ∅ ->
  tx_writes st sz (length L) ws ->
  wp (run_tx ws) (fun _ s' => exists c' n' secs' L' logs v',
    s' = mkLog c' st sz true n' secs' /\ header_is secs' L' n' /\ sees c' v' /\
    in_tx st sz v' L' ∅ /\ cv_held v' = ∅ /\ (length L' <= length L + length ws)%nat /\
    (forall x, x ∈ L' <-> x ∈ L \/ x ∈ ws.*1) /\
    cv_disk v' = apply_writes logs (cv_disk v) /\ cv_trace v' = cv_trace v ++ logs /\
    Forall (fun w => st < w.1 < st + sz /\ length w.2 = BSIZE) logs /\
    (forall sec, sec <= st -> cv_content v' sec = put_all ws (cv_content v) sec))
    (mkLog c st sz true n secs).
Proof.
  revert c n secs L v. induction ws as [|[sec d] ws IH]; intros c n secs L v Hv T Hh Hhd [Hw Hlog Hbuf].
  - apply wp_ret. exists c, n, secs, L, [], v. split_and!; [done..| | |done| |done|done].
    + simpl. lia.
    + intros x. clear. set_solver.
    + by rewrite app_nil_r.
  - apply Forall_cons in Hw as [[Hs Hd] Hw]. simpl in Hs, Hd, Hlog, Hbuf. cbn [run_tx]. unfold NBUF in Hbuf.
    lbind. eapply wp_mono; [apply (tx_write_wp c st sz n secs L v); try done|].
    + rewrite Hhd. clear. set_solver.
    + unfold LOGSIZE. lia.
    + lia.
    + eapply in_tx_room; [exact T|done|unfold NBUF; lia].
    + intros [] s1 (c1 & i & n1 & secs1 & -> & Hi & Hh1 & Hv1 & T1).
      pose proof (length_log_add sec L) as Hla.
      eapply wp_mono; [apply (IH c1 n1 secs1 _ _ Hv1 T1 Hh1 Hhd); split; [done|lia|unfold NBUF; lia]|].
      intros [] s2 (c2 & n2 & secs2 & L2 & logs & v2 & -> & Hh2 & Hv2 & T2 & Hd2 & Hl2 & Hin2 & Hdk & Htr & Hlg & Hct).
      exists c2, n2, secs2, L2, ((log_sector st i, d) :: logs), v2.
      split_and!; [done..| | |done| | |].
      * simpl. lia.
      * intros x. rewrite Hin2, elem_of_log_add, fmap_cons, elem_of_cons. simpl. tauto.
      * rewrite Htr. simpl. by rewrite <- (assoc_L app).
      * constructor; [simpl; unfold log_sector; lia|done].
      * intros x Hx. rewrite Hct by done.
        change (put_all ((sec, d) :: ws) (cv_content v) x) with (put_all ws (fset (cv_content v) sec d) x).
        apply put_all_ext. simpl. apply fset_other. unfold log_sector. lia.
Qed.

(** ** Crashes *)

Lemma prefix_app_cases {A} (P l1 l2 : list A) :
  P `prefix_of` l1 ++ l2 -> P `prefix_of` l1 \/ exists k, P = l1 ++ k /\ k `prefix_of` l2.
Proof.
  intros [Q E]. apply app_eq_inv in E as [(k & -> & ->)|(k & -> & ->)].
  - left. by exists k.
  - right. exists k. split; [done|by exists Q].
Qed.

Section Crash.
Context (st sz : Z) (L : list Z) (f g0 : Z -> list Z) (logs : list (Z * list Z)).
Context (Hlogs : Forall (fun w => st < w.1 < st + sz /\ length w.2 = BSIZE) logs).
Context (Hhome : Forall (fun sec => 0 <= sec < st) L) (HL : (length L <= 10)%nat) (Hst : 0 < st < 2147483648).
Context (Hhdr : length (f st) = BSIZE) (Hn0 : head_n (g0 st) = 0).
Context (Hcopy : forall j sec, L !! j = Some sec -> put_all logs g0 (log_sector st j) = f sec).

(** What the disk can look like after a crash: the old contents or the new ones
    under an empty log, or a complete log. *)
Definition crash_old (g : Z -> list Z) : Prop :=
  head_n (g st) = 0 /\ forall sec, 0 <= sec < st -> g sec = g0 sec.
Definition crash_new (g : Z -> list Z) : Prop :=
  head_n (g st) = 0 /\ forall sec, 0 <= sec < st -> g sec = if decide (sec ∈ L) then f sec else g0 sec.
Definition crash_log (g : Z -> list Z) : Prop :=
  head_list (g st) = L /\ head_n (g st) = Z.of_nat (length L) /\
  (forall sec, 0 <= sec < st -> sec ∉ L -> g sec = g0 sec) /\
  (forall j sec, L !! j = Some sec -> g (log_sector st j) = f sec).

Lemma home_lt sec : sec ∈ L -> 0 <= sec < st.
Proof. intros Hin. rewrite Forall_forall in Hhome. by apply Hhome. Qed.

Lemma home_header :
  Forall (fun x => 0 <= x < 2147483648) L.
Proof. eapply Forall_impl; [exact Hhome|]. simpl. lia. Qed.

Lemma logs_home P sec : P `prefix_of` logs -> sec <= st -> put_all P g0 sec = g0 sec.
Proof using Hlogs.
  intros [Q HQ] Hs. apply put_all_other. intros w Hw Ew. rewrite Forall_forall in Hlogs.
  destruct (Hlogs w) as [Hw' _]; [|clear -Hw' Hs Ew; lia]. rewrite HQ. apply elem_of_app. by left.
Qed.

Lemma crash_before P : P `prefix_of` logs -> crash_old (put_all P g0).
Proof using Hlogs Hst Hn0.
  intros HP. split; [by rewrite (logs_home P st) by done|].
  intros sec Hs. apply logs_home; [done|]. clear -Hs. lia.
Qed.

Let hdr := encode_head (Z.of_nat (length L)) L (f st).
Let inst := (fun sec => (sec, f sec)) <$> L.

Lemma inst_at P w : P `prefix_of` inst -> w ∈ P -> w.1 ∈ L.
Proof.
  intros [Q E] Hw. assert (Hin : w ∈ inst) by (rewrite E; apply elem_of_app; by left).
  apply list_elem_of_fmap in Hin as (sec & -> & ?). done.
Qed.

Lemma crash_during P : P `prefix_of` inst -> crash_log (put_all (logs ++ (st, hdr) :: P) g0).
Proof.
  intros HP. rewrite put_all_app. set (g1 := put_all logs g0).
  change (put_all ((st, hdr) :: P) g1) with (put_all P (fset g1 st hdr)).
  destruct (head_roundtrip (Z.of_nat (length L)) L (f st) Hhdr HL ltac:(lia) home_header) as (_ & Hn & Hsec).
  fold hdr in Hn, Hsec.
  assert (Hout : forall sec, sec ∉ L -> put_all P (fset g1 st hdr) sec = fset g1 st hdr sec).
  { intros sec Hs. apply put_all_other. intros w Hw E. apply Hs. rewrite <- E. by apply (inst_at P). }
  assert (Hge : forall sec, st <= sec -> sec ∉ L) by (intros sec Hs Hin%home_lt; lia).
  assert (Hat : put_all P (fset g1 st hdr) st = hdr) by (rewrite Hout by (apply Hge; lia); apply fset_same).
  split_and!.
  - rewrite Hat. unfold head_list. rewrite Hn, Nat2Z.id. apply list_eq. intros j.
    rewrite list_lookup_fmap. destruct (L !! j) as [sec|] eqn:E.
    + rewrite lookup_seq_lt by (by eapply lookup_lt_Some). simpl. by rewrite (Hsec j sec E).
    + apply lookup_ge_None in E. by rewrite lookup_seq_ge.
  - by rewrite Hat.
  - intros sec Hs Hnin. rewrite Hout by done. rewrite fset_other by lia. apply logs_home; [done|lia].
  - intros j sec Hj. rewrite Hout by (apply Hge; unfold log_sector; lia).
    rewrite fset_other by (unfold log_sector; lia). by apply Hcopy.
Qed.

Lemma crash_after :
  crash_new (put_all (logs ++ (st, hdr) :: inst ++ [(st, encode_head 0 [] hdr)]) g0).
Proof.
  rewrite put_all_app. set (g1 := put_all logs g0).
  change (put_all ((st, hdr) :: inst ++ [(st, encode_head 0 [] hdr)]) g1) with
    (put_all (inst ++ [(st, encode_head 0 [] hdr)]) (fset g1 st hdr)).
  rewrite put_all_app. set (g2 := put_all inst (fset g1 st hdr)).
  change (put_all [(st, encode_head 0 [] hdr)] g2) with (fset g2 st (encode_head 0 [] hdr)).
  destruct (head_roundtrip (Z.of_nat (length L)) L (f st) Hhdr HL ltac:(lia) home_header) as (Hl & _).
  split.
  - rewrite fset_same.
    by destruct (head_roundtrip 0 [] hdr Hl ltac:(simpl; lia) ltac:(lia) ltac:(constructor)) as (_ & ? & _).
  - intros sec Hs. rewrite fset_other by lia. unfold g2, inst. rewrite put_all_map. case_decide; [done|].
    rewrite fset_other by lia. apply logs_home; [done|lia].
Qed.

(** Every state between two disk writes is one of the three. *)
Lemma crash_states P :
  P `prefix_of` logs ++ commit_writes st L f ->
  crash_old (put_all P g0) \/ crash_log (put_all P g0) \/ crash_new (put_all P g0).
Proof.
  intros [HP|(k & HP & Hk)]%prefix_app_cases; [left; by apply crash_before|].
  destruct (decide (L = [])) as [EL|EL].
  { left. rewrite EL in Hk. apply prefix_nil_inv in Hk. rewrite Hk, app_nil_r in HP. subst P. by apply crash_before. }
  assert (HC : commit_writes st L f = (st, hdr) :: inst ++ [(st, encode_head 0 [] hdr)])
    by (unfold hdr, inst; by destruct L).
  rewrite HC in Hk. destruct k as [|x k]; [left; rewrite HP, app_nil_r; by apply crash_before|].
  pose proof (prefix_cons_inv_1 _ _ _ _ Hk) as ->. apply prefix_cons_inv_2 in Hk. right.
  apply prefix_app_cases in Hk as [Hk|(k' & -> & Hk)]; [left; subst P; by apply crash_during|].
  destruct k' as [|y k']; [left; rewrite HP, app_nil_r; by apply crash_during|].
  pose proof (prefix_cons_inv_1 _ _ _ _ Hk) as ->. apply prefix_cons_inv_2, prefix_nil_inv in Hk. subst k'.
  right. subst P. apply crash_after.
Qed.

End Crash.

(** ** Restart *)

(** Memory is zeroed and the disk is [dk]; start-up runs [binit] and, later,
    [initlog]. *)
Definition power_off (dk : list (list Z)) : lstate := mkLog (bss dk) 0 0 false 0 (replicate 10 0).
Definition restart : M lstate unit := bio binit ;;; initlog.

Definition log_area (sb : superblock) : Z * Z :=
  (s32 (u32 (sb_size sb - sb_nlog sb)), s32 (sb_nlog sb)).

(** A disk whose super block gives the log area, with a header that [n] fits. *)
Record log_disk (st sz : Z) (dk : list (list Z)) : Prop := {
  ld_blocks : Forall (fun d => length d = BSIZE) dk;
  ld_area : log_area (decode_sb (vdisk dk 1)) = (st, sz);
  ld_geometry : geometry st sz dk;
  ld_start : 1 < st
}.

Lemma restart_wp dk st sz :
  log_disk st sz dk ->
  let d := vdisk dk st in
  0 <= head_n d <= 10 -> head_n d <= sz - 1 -> NoDup (head_list d) ->
  Forall (fun sec => 0 <= sec < st) (head_list d) ->
  wp restart (fun _ s' => exists c' secs' f,
    s' = mkLog c' st sz false 0 secs' /\ length secs' = 10%nat /\
    let W := logged_pairs st 0 (head_list d) (vdisk dk) ++ [(st, encode_head 0 [] d)] in
    sees c' (mkView f ∅ ∅ (apply_writes W dk) W)) (power_off dk).
Proof.
  intros [HB HA HG H1] d Hn Hn' Hnd Hhome. pose proof HG as [Hst Hsz Hend Hint].
  unfold restart, power_off. lbind. apply wp_bio. eapply wp_mono; [by apply binit_wp|].
  intros [] c1 Hv1. lnorm. unfold initlog.
  change (Z.of_nat BSIZE <=? sizeof_logheader) with false. cbv iota.
  unfold readsb. lbind. lbind. eapply wp_bread; [exact Hv1|unfold on_disk; simpl; lia|set_solver| |].
  { right. unfold room. cbn [cv_held cv_pinned disk_view]. rewrite union_empty_l_L, size_empty. unfold NBUF. lia. }
  intros b c2 Hv2 Hb2 _. lnorm.
  lbind. eapply wp_bdata; [exact Hv2|exact Hb2|]. lbind.
  eapply wp_brelse; [exact Hv2|exact Hb2|by right|]. intros c3 Hv3 _. lnorm. apply wp_ret.
  change (cv_content (v_hold 1 (disk_view dk)) 1) with (vdisk dk 1). unfold log_area in HA.
  apply pair_equal_spec in HA as [HA1 HA2]. rewrite HA1, HA2. lbind. apply wp_modify. lnorm.
  apply (sees_hold_release c3 (disk_view dk) 1) in Hv3; [|clear; set_solver].
  by apply (recover_wp c3 st sz false 0 (replicate 10 0) (disk_view dk) Hv3).
Qed.

(** What recovery leaves, from the three states a crash can leave. *)
Lemma restart_crash dk st sz L f g0 :
  log_disk st sz dk -> NoDup L -> Forall (fun sec => 0 <= sec < st) L ->
  Z.of_nat (length L) <= LOGSIZE /\ Z.of_nat (length L) <= sz - 1 ->
  crash_old st g0 (vdisk dk) \/ crash_log st L f g0 (vdisk dk) \/ crash_new st L f g0 (vdisk dk) ->
  wp restart (fun _ s' => exists c' secs' v',
    s' = mkLog c' st sz false 0 secs' /\ sees c' v' /\ cv_held v' = ∅ /\ cv_pinned v' = ∅ /\
    ((forall sec, 0 <= sec < st -> vdisk (cv_disk v') sec = g0 sec) \/
     (forall sec, 0 <= sec < st -> vdisk (cv_disk v') sec = if decide (sec ∈ L) then f sec else g0 sec)))
    (power_off dk).
Proof.
  intros HD Hnd Hhome HL Hcrash. pose proof (ld_geometry _ _ _ HD) as [Hst Hsz Hend Hint].
  unfold LOGSIZE in HL. set (d := vdisk dk st).
  assert (Hh : head_n d = 0 /\ head_list d = [] \/ head_n d = Z.of_nat (length L) /\ head_list d = L).
  { destruct Hcrash as [[E _]|[(El & En & _)|[E _]]]; [left|by right|left]; split; try done;
      unfold head_list, d; by rewrite E. }
  assert (Hok : 0 <= head_n d <= 10 /\ head_n d <= sz - 1 /\ NoDup (head_list d) /\
    Forall (fun sec => 0 <= sec < st) (head_list d)).
  { destruct Hh as [[-> ->]|[-> ->]]; split_and!; try lia; try done; constructor. }
  destruct Hok as (Hn1 & Hn2 & Hn3 & Hn4).
  eapply wp_mono; [by apply (restart_wp dk st sz)|]. fold d.
  intros [] s' (c' & secs' & fc & -> & _ & Hv'). cbn zeta in Hv'.
  set (W := logged_pairs st 0 (head_list d) (vdisk dk)) in *.
  eexists c', secs', _. split; [done|]. split; [exact Hv'|]. cbn [cv_held cv_pinned cv_disk].
  split_and!; [done|done|].
  assert (HW : forall sec, 0 <= sec < st ->
    vdisk (apply_writes (W ++ [(st, encode_head 0 [] d)]) dk) sec = put_all W (vdisk dk) sec).
  { intros sec Hs. rewrite vdisk_apply.
    - rewrite put_all_app. apply fset_other. simpl. lia.
    - apply Forall_app. split; [|constructor; [simpl; lia|constructor]].
      apply Forall_forall. intros w Hw. assert (Hin : w.1 ∈ head_list d).
      { rewrite <- (logged_pairs_fst st 0 (head_list d) (vdisk dk)). apply list_elem_of_fmap. eauto. }
      rewrite Forall_forall in Hn4. specialize (Hn4 _ Hin). lia. }
  destruct Hcrash as [[E Hg]|[(El & En & Hout & Hcp)|[E Hg]]].
  - left. intros sec Hs. rewrite HW by done. unfold W, head_list, d. rewrite E. by apply Hg.
  - right. intros sec Hs. rewrite HW by done. unfold W, d. rewrite El.
    rewrite (logged_pairs_map st 0 L _ f) by (intros j x Hj; by apply Hcp). rewrite put_all_map.
    case_decide; [done|by apply Hout].
  - right. intros sec Hs. rewrite HW by done. unfold W, head_list, d. rewrite E. by apply Hg.
Qed.

(** ** Atomicity *)

Lemma apply_writes_blocks W dk :
  Forall (fun d => length d = BSIZE) dk -> Forall (fun w => length w.2 = BSIZE) W ->
  Forall (fun d => length d = BSIZE) (apply_writes W dk).
Proof.
  revert dk. induction W as [|w W IH]; intros dk Hd HW; [done|]. apply Forall_cons in HW as [Hw HW].
  apply IH; [|done]. by apply Forall_insert.
Qed.

Lemma commit_writes_blocks c v st sz L :
  sees c v -> in_tx st sz v L ∅ ->
  Forall (fun w => 0 <= w.1 < Z.of_nat (length (cv_disk v)) /\ length w.2 = BSIZE)
    (commit_writes st L (cv_content v)).
Proof.
  intros Hv T. destruct (tx_geometry _ _ _ _ _ T) as [Hst Hsz Hend Hint].
  destruct (tx_room _ _ _ _ _ T) as [HL _]. unfold LOGSIZE in HL. pose proof (tx_home _ _ _ _ _ T) as Hh.
  assert (Hls : length (cv_content v st) = BSIZE) by (apply (sees_length c v st Hv); lia).
  destruct (head_roundtrip (Z.of_nat (length L)) L (cv_content v st) Hls ltac:(lia) ltac:(lia)) as (Hl & _).
  { eapply Forall_impl; [exact Hh|]. simpl. lia. }
  destruct (head_roundtrip 0 [] _ Hl ltac:(simpl; lia) ltac:(lia) ltac:(constructor)) as (Hl0 & _).
  assert (Hin : Forall (fun w => 0 <= w.1 < Z.of_nat (length (cv_disk v)) /\ length w.2 = BSIZE)
    ((fun sec => (sec, cv_content v sec)) <$> L)).
  { apply Forall_fmap. eapply Forall_impl; [exact Hh|]. intros sec Hs. simpl in *.
    split; [lia|]. apply (sees_length c v sec Hv). lia. }
  unfold commit_writes. destruct L as [|x L']; [constructor|].
  apply Forall_app. split; [constructor; [simpl; split; [lia|exact Hl]|constructor]|].
  apply Forall_app. split; [exact Hin|]. constructor; [|constructor]. simpl. split; [lia|exact Hl0].
Qed.

(** A disk that lost power during the writes [W] of a transaction. *)
Lemma crash_disk st sz dk W P :
  log_disk st sz dk -> Forall (fun w => 0 <= w.1 < Z.of_nat (length dk) /\ length w.2 = BSIZE) W ->
  P `prefix_of` W -> put_all P (vdisk dk) 1 = vdisk dk 1 ->
  log_disk st sz (apply_writes P dk) /\ forall sec, vdisk (apply_writes P dk) sec = put_all P (vdisk dk) sec.
Proof.
  intros [HB HA HG H1] HW [Q ->] Hsb. apply Forall_app in HW as [HP _].
  assert (Hv : forall sec, vdisk (apply_writes P dk) sec = put_all P (vdisk dk) sec).
  { intros sec. apply vdisk_apply. eapply Forall_impl; [exact HP|]. by intros w [? _]. }
  split; [|done]. split.
  - apply apply_writes_blocks; [done|]. eapply Forall_impl; [exact HP|]. by intros w [_ ?].
  - by rewrite Hv, Hsb.
  - destruct HG. by split; rewrite ?length_apply_writes.
  - done.
Qed.

Lemma crash_ext st L f g0 g g' :
  (forall sec, g sec = g' sec) ->
  crash_old st g0 g \/ crash_log st L f g0 g \/ crash_new st L f g0 g ->
  crash_old st g0 g' \/ crash_log st L f g0 g' \/ crash_new st L f g0 g'.
Proof.
  intros E. unfold crash_old, crash_log, crash_new. rewrite (E st).
  intros [[H1 H2]|[(H1 & H2 & H3 & H4)|[H1 H2]]]; [left|right; left|right; right].
  - split; [done|]. intros sec Hs. by rewrite <- E, H2.
  - split_and!; [done|done|intros sec Hs Hn; by rewrite <- E, H3|intros j sec Hj; by rewrite <- E, (H4 j sec)].
  - split; [done|]. intros sec Hs. by rewrite <- E, H2.
Qed.

Lemma crash_sb st L f g0 g :
  1 < st -> 1 ∉ L ->
  crash_old st g0 g \/ crash_log st L f g0 g \/ crash_new st L f g0 g -> g 1 = g0 1.
Proof.
  intros H1 Hn [[_ H]|[(_ & _ & H & _)|[_ H]]]; rewrite H by (done || lia); [done..|].
  by rewrite decide_False.
Qed.

(** The idle log over a quiet cache. *)
Record idle (st sz : Z) (secs : list Z) (v : cview) : Prop := {
  id_held : cv_held v = ∅;
  id_pinned : cv_pinned v = ∅;
  id_disk : log_disk st sz (cv_disk v);
  id_head : head_n (vdisk (cv_disk v) st) = 0;
  id_secs : length secs = 10%nat
}.

Lemma idle_in_tx st sz secs v : idle st sz secs v -> in_tx st sz v [] ∅.
Proof.
  intros [Hh Hp HD _ _]. destruct (ld_geometry _ _ _ HD) as [Hst Hsz Hend Hint].
  split; [by split|constructor|constructor|simpl; unfold LOGSIZE; lia|done| |done].
  intros sec Hin. rewrite Hh in Hin. by apply not_elem_of_empty in Hin.
Qed.

Lemma tx_crash c v st sz L logs dk :
  sees c v -> in_tx st sz v L ∅ -> cv_disk v = apply_writes logs dk ->
  Forall (fun w => st < w.1 < st + sz /\ length w.2 = BSIZE) logs ->
  log_disk st sz dk -> head_n (vdisk dk st) = 0 -> 1 ∉ L ->
  let f := cv_content v in
  let W := logs ++ commit_writes st L f in
  (forall P, P `prefix_of` W -> log_disk st sz (apply_writes P dk) /\
    let g := vdisk (apply_writes P dk) in
    crash_old st (vdisk dk) g \/ crash_log st L f (vdisk dk) g \/ crash_new st L f (vdisk dk) g) /\
  (forall sec, 0 <= sec < st ->
    vdisk (apply_writes W dk) sec = if decide (sec ∈ L) then f sec else vdisk dk sec).
Proof.
  intros Hv T Hdk Hlg HD Hhead H1 f W. pose proof (ld_geometry _ _ _ HD) as [Hst Hsz Hend Hint].
  assert (Hlen : length (cv_disk v) = length dk) by (rewrite Hdk; apply length_apply_writes).
  assert (HW : Forall (fun w => 0 <= w.1 < Z.of_nat (length dk) /\ length w.2 = BSIZE) W).
  { apply Forall_app. split.
    - eapply Forall_impl; [exact Hlg|]. intros w [? ?]. split; [lia|done].
    - rewrite <- Hlen. by apply (commit_writes_blocks c v st sz L). }
  assert (Hcopy : forall j sec, L !! j = Some sec -> put_all logs (vdisk dk) (log_sector st j) = f sec).
  { intros j sec Hj. rewrite <- vdisk_apply.
    - destruct (tx_log_free st sz v L ∅ (log_sector st j) T) as [Hh Hp]; [unfold log_sector; lia|].
      rewrite <- Hdk, <- (sees_clean c v) by done. by apply (tx_copy _ _ _ _ _ T).
    - eapply Forall_impl; [exact Hlg|]. intros w [? _]. simpl. lia. }
  destruct (tx_room _ _ _ _ _ T) as [HL _]. unfold LOGSIZE in HL.
  assert (Hls : length (f st) = BSIZE) by (apply (sees_length c v st Hv); lia).
  pose proof (tx_home _ _ _ _ _ T) as Hhome. split.
  - intros P HP.
    assert (Hcs : let g := put_all P (vdisk dk) in
      crash_old st (vdisk dk) g \/ crash_log st L f (vdisk dk) g \/ crash_new st L f (vdisk dk) g)
      by (apply (crash_states st sz L f (vdisk dk) logs); try done; lia).
    destruct (crash_disk st sz dk W P HD HW HP) as [HDP HgP].
    { apply (crash_sb st L f (vdisk dk) _ (ld_start _ _ _ HD) H1 Hcs). }
    split; [done|]. cbn zeta. eapply crash_ext; [intros sec; symmetry; apply HgP|exact Hcs].
  - intros sec Hs. rewrite vdisk_apply by (eapply Forall_impl; [exact HW|]; by intros w [? _]).
    destruct (decide (L = [])) as [->|EL].
    + rewrite decide_False by apply not_elem_of_nil. unfold W, commit_writes. rewrite app_nil_r.
      apply (crash_before st sz (vdisk dk) logs); done || lia.
    + unfold W. replace (commit_writes st L f) with
        ((st, encode_head (Z.of_nat (length L)) L (f st)) :: ((fun x => (x, f x)) <$> L) ++
          [(st, encode_head 0 [] (encode_head (Z.of_nat (length L)) L (f st)))]) by by destruct L.
      apply (crash_after st sz L f (vdisk dk) logs); done || lia.
Qed.

(** C1: crash atomicity.  A transaction over an idle log returns, and its writes
    are then on disk; and if power is lost after any prefix [P] of the disk writes
    it issues, the restarted system comes up with an idle log and finds in the
    blocks outside the log either all the old contents or all the new ones. *)
Theorem transaction_crash_atomic ws c st sz secs v :
  sees c v -> idle st sz secs v -> tx_writes st sz 0 ws -> 1 ∉ ws.*1 ->
  let old := vdisk (cv_disk v) in
  wp (transaction ws) (fun _ s' => exists c' secs' v' W,
    s' = mkLog c' st sz false 0 secs' /\ sees c' v' /\ cv_trace v' = cv_trace v ++ W /\
    (forall sec, 0 <= sec < st -> vdisk (cv_disk v') sec = put_all ws old sec) /\
    forall P, P `prefix_of` W ->
      wp restart (fun _ r => exists c'' secs'' v'',
        r = mkLog c'' st sz false 0 secs'' /\ sees c'' v'' /\ cv_held v'' = ∅ /\ cv_pinned v'' = ∅ /\
        ((forall sec, 0 <= sec < st -> vdisk (cv_disk v'') sec = old sec) \/
         (forall sec, 0 <= sec < st -> vdisk (cv_disk v'') sec = put_all ws old sec)))
        (power_off (apply_writes P (cv_disk v))))
    (mkLog c st sz false 0 secs).
Proof.
  intros Hv Hid Hws H1 old. pose proof (idle_in_tx _ _ _ _ Hid) as T0.
  destruct Hid as [Hheld Hpin HD Hhead Hsecs]. pose proof (ld_geometry _ _ _ HD) as [Hst Hsz Hend Hint].
  unfold transaction, begin_trans. lbind. lget. apply wp_modify. lnorm.
  lbind. eapply wp_mono; [apply (run_tx_wp ws c st sz 0 secs [] v); done|].
  intros [] s1 (c1 & n1 & secs1 & L & logs & v1 & -> & Hh1 & Hv1 & T1 & Hd1 & Hl1 & Hin1 & Hdk1 & Htr1 & Hlg1 & Hct1).
  eapply wp_mono; [apply (commit_wp c1 st sz n1 secs1 L v1 Hv1 T1 Hh1)|].
  { eapply in_tx_room; [exact T1|done|]. destruct Hws as [_ _ Hb]. simpl in Hl1, Hb. lia. }
  { intros sec _. rewrite Hd1. apply not_elem_of_empty. }
  intros [] s2 (c2 & -> & Hv2).
  assert (HL1 : 1 ∉ L) by (rewrite Hin1; intros [?%not_elem_of_nil|?]; done).
  destruct (tx_crash c1 v1 st sz L logs (cv_disk v) Hv1 T1 Hdk1 Hlg1 HD Hhead HL1) as [Hcr Hfin].
  set (f := cv_content v1) in *.
  assert (Hnew : forall sec, 0 <= sec < st -> (if decide (sec ∈ L) then f sec else old sec) = put_all ws old sec).
  { intros sec Hs. case_decide as Hin; [|symmetry; apply put_all_other; intros w Hw <-; apply Hin, Hin1; right;
      apply list_elem_of_fmap; eauto].
    unfold f. rewrite Hct1 by lia. apply put_all_ext.
    apply (sees_clean c v sec Hv); rewrite ?Hheld, ?Hpin; apply not_elem_of_empty. }
  eexists c2, secs1, _, (logs ++ commit_writes st L f). split; [done|]. split; [exact Hv2|].
  cbn [cv_trace cv_disk]. split; [by rewrite Htr1, (assoc_L app)|]. split.
  - intros sec Hs. rewrite <- Hnew, <- Hfin by done. by rewrite Hdk1, <- apply_writes_app.
  - intros P HP. destruct (Hcr P HP) as [HDP Hst3].
    eapply wp_mono; [apply (restart_crash _ st sz L f old HDP); try done; by destruct T1|].
    intros [] r (c3 & secs3 & v3 & -> & Hv3 & Hh3 & Hp3 & Hor). exists c3, secs3, v3.
    split_and!; try done. destruct Hor as [Hor|Hor]; [by left|]. right. intros sec Hs.
    by rewrite Hor, Hnew by done.
Qed.

(** A disk of 20 blocks, the last five of them the log. *)
Definition log_demo_disk : list (list Z) :=
  <[1%nat:=le_bytes 4 20 ++ le_bytes 4 12 ++ le_bytes 4 8 ++ le_bytes 4 5 ++ replicate 496 0]>
    (replicate 20 (replicate BSIZE 0)).
Definition log_demo : bcache := result binit (bss log_demo_disk).

Lemma log_demo_blocks : Forall (fun d => length d = BSIZE) log_demo_disk.
Proof. apply Forall_insert; [apply Forall_replicate; by rewrite length_replicate|done]. Qed.

Lemma log_demo_sees : sees log_demo (disk_view log_demo_disk).
Proof.
  unfold log_demo. apply (wp_result binit (fun s => sees s (disk_view log_demo_disk))).
  apply binit_wp, log_demo_blocks.
Qed.

Lemma log_demo_idle : idle 15 5 (replicate 10 0) (disk_view log_demo_disk).
Proof.
  split; [done|done| |vm_compute; reflexivity|done].
  split; [apply log_demo_blocks|vm_compute; reflexivity| |lia].
  split; [lia|lia|vm_compute; discriminate|vm_compute; reflexivity].
Qed.

Lemma transaction_crash_atomic_witness :
  idle 15 5 (replicate 10 0) (disk_view log_demo_disk) /\
  wp (transaction [(3, replicate BSIZE 9)]) (fun _ s' => exists c' secs' v',
    s' = mkLog c' 15 5 false 0 secs' /\ sees c' v' /\
    vdisk (cv_disk v') 3 = replicate BSIZE 9) (mkLog log_demo 15 5 false 0 (replicate 10 0)).
Proof.
  split; [exact log_demo_idle|].
  eapply wp_mono; [apply (transaction_crash_atomic [(3, replicate BSIZE 9)] _ _ _ _ _ log_demo_sees log_demo_idle)|].
  - split; [|simpl; lia|simpl; unfold NBUF; lia].
    constructor; [split; [simpl; lia|apply length_replicate]|constructor].
  - simpl. rewrite list_elem_of_singleton. lia.
  - intros [] s' (c' & secs' & v' & W & -> & Hs & _ & Hd & _). exists c', secs', v'.
    split_and!; [done|done|]. rewrite Hd by lia. apply fset_same.
Defined.

(** The log header survives the trip to disk: what [read_head] decodes from
    the block [write_head] encodes is the count and the sectors, whatever the
    rest of the block held. *)
Theorem log_header_roundtrip n secs d :
  length d = BSIZE -> (length secs <= 10)%nat -> n = Z.of_nat (length secs) ->
  Forall (fun x => 0 <= x < 2147483648) secs ->
  head_list (encode_head n secs d) = secs /\ length (encode_head n secs d) = BSIZE.
Proof.
  intros Hd Hs -> Hx.
  destruct (head_roundtrip (Z.of_nat (length secs)) secs d Hd Hs ltac:(lia) Hx) as (Hl & Hn & Hsec).
  split; [|done]. unfold head_list. rewrite Hn, Nat2Z.id. apply list_eq. intros j.
  rewrite list_lookup_fmap. destruct (secs !! j) as [x|] eqn:E.
  - rewrite lookup_seq_lt by (by eapply lookup_lt_Some). simpl. by rewrite (Hsec j x E).
  - apply lookup_ge_None in E. by rewrite lookup_seq_ge.
Qed.

Lemma log_header_roundtrip_witness :
  head_list (encode_head 2 [29; 40] (replicate BSIZE 0)) = [29; 40].
Proof.
  apply (log_header_roundtrip 2 [29; 40] (replicate BSIZE 0)).
  - apply length_replicate.
  - simpl. lia.
  - reflexivity.
  - repeat constructor; lia.
Defined.

End Log.
