(* ===== verification/Blocks.v ===== *)
(** * The block layer as the file system sees it

    fs.c uses the buffer cache and the log through [bread], the data of a buffer,
    [log_write] and [brelse].  [Class TxLayer] states what those operations
    promise in terms of a view of the home blocks: their contents, which of them
    are held in which buffer, which were modified but not yet logged, and which
    are in the log of the open transaction.  The theorems on fs.c are proved
    against this interface; TxLog shows that bio.c and log.c implement it. *)

From S2P Require Import Prelude Bio.

Module Blocks.

(** The block layer at one moment.  Blocks [0 <= sec < tv_size] are the home
    blocks; [tv_cap] is the number of blocks the log can take. *)
Record tview := mkT {
  tv_content : Z -> list Z;
  tv_held : gmap Z nat;
  tv_dirty : gset Z;
  tv_log : gset Z;
  tv_open : bool;
  tv_size : Z;
  tv_cap : nat
}.

Definition upd (f : Z -> list Z) (sec : Z) (d : list Z) (x : Z) : list Z :=
  if decide (x = sec) then d else f x.

Definition t_hold (sec : Z) (b : nat) (v : tview) : tview :=
  mkT (tv_content v) (<[sec:=b]> (tv_held v)) (tv_dirty v) (tv_log v) (tv_open v) (tv_size v) (tv_cap v).
Definition t_put (sec : Z) (d : list Z) (v : tview) : tview :=
  mkT (upd (tv_content v) sec d) (tv_held v) ({[sec]} ∪ tv_dirty v) (tv_log v) (tv_open v) (tv_size v) (tv_cap v).
Definition t_log (sec : Z) (v : tview) : tview :=
  mkT (tv_content v) (tv_held v) ∅ ({[sec]} ∪ tv_log v) (tv_open v) (tv_size v) (tv_cap v).
Definition t_release (sec : Z) (v : tview) : tview :=
  mkT (tv_content v) (delete sec (tv_held v)) (tv_dirty v) (tv_log v) (tv_open v) (tv_size v) (tv_cap v).

(** The buffers in use: held ones and logged ones. *)
Definition in_use (v : tview) : gset Z := dom (tv_held v) ∪ tv_log v.

Definition home (v : tview) (sec : Z) : Prop := 0 <= sec < tv_size v.

Record tview_eq (v v' : tview) : Prop := {
  te_content : forall sec, home v sec -> tv_content v sec = tv_content v' sec;
  te_held : tv_held v = tv_held v';
  te_dirty : tv_dirty v = tv_dirty v';
  te_log : tv_log v = tv_log v';
  te_open : tv_open v = tv_open v';
  te_size : tv_size v = tv_size v';
  te_cap : tv_cap v = tv_cap v'
}.

Class TxLayer (D : Type) := {
  bread : Z -> Z -> M D nat;
  bdata : nat -> M D (list Z);
  set_bdata : nat -> list Z -> M D unit;
  log_write : nat -> M D unit;
  brelse : nat -> M D unit;
  tsees : D -> tview -> Prop;
  tsees_ext : forall s v v', tsees s v -> tview_eq v v' -> tsees s v';
  tsees_length : forall s v sec, tsees s v -> home v sec -> length (tv_content v sec) = Bio.BSIZE;
  bread_law : forall s v sec, tsees s v -> home v sec -> tv_held v !! sec = None ->
    (size (in_use v) < Bio.NBUF)%nat ->
    wp (bread 1 sec) (fun b s' => tsees s' (t_hold sec b v)) s;
  bdata_law : forall s v b sec, tsees s v -> tv_held v !! sec = Some b -> home v sec ->
    wp (bdata b) (fun d s' => d = tv_content v sec /\ s' = s) s;
  set_bdata_law : forall s v b sec d, tsees s v -> tv_held v !! sec = Some b ->
    length d = Bio.BSIZE -> wp (set_bdata b d) (fun _ s' => tsees s' (t_put sec d v)) s;
  log_write_law : forall s v b sec, tsees s v -> tv_held v !! sec = Some b -> home v sec ->
    tv_dirty v ⊆ {[sec]} -> tv_open v = true -> (size (tv_log v) < tv_cap v)%nat ->
    (size (in_use v) < Bio.NBUF)%nat ->
    wp (log_write b) (fun _ s' => tsees s' (t_log sec v)) s;
  brelse_law : forall s v b sec, tsees s v -> tv_held v !! sec = Some b -> sec ∉ tv_dirty v ->
    wp (brelse b) (fun _ s' => tsees s' (t_release sec v)) s
}.

End Blocks.
