(* ===== verification/TxLog.v ===== *)
(** * bio.c and log.c implement the block layer

    [tx_layer] is the instance of [Blocks.TxLayer] by the buffer cache and the
    log: every law of the interface is proved from the lemmas of Log on the
    operations of log.c. *)

From S2P Require Import Prelude Bio Log Blocks.

Module TxLog.
Import Bio Log.

(** The transaction began on disk [dk0] after the writes [tr0] and has only written
    the log blocks since. *)
Record since (dk0 : list (list Z)) (tr0 : list (Z * list Z)) (st sz : Z) (cv : cview)
    (logs : list (Z * list Z)) : Prop := {
  sn_disk : cv_disk cv = apply_writes logs dk0;
  sn_trace : cv_trace cv = tr0 ++ logs;
  sn_logs : Forall (fun w => st < w.1 < st + sz /\ length w.2 = BSIZE) logs
}.

Lemma since_same dk0 tr0 st sz cv cv' :
  (exists logs, since dk0 tr0 st sz cv logs) -> cv_disk cv' = cv_disk cv -> cv_trace cv' = cv_trace cv ->
  exists logs, since dk0 tr0 st sz cv' logs.
Proof. intros (logs & [H1 H2 H3]) Hd Ht. exists logs. split; congruence. Qed.

Section Layer.
Context (dk0 : list (list Z)) (tr0 : list (Z * list Z)) (st0 sz0 : Z).

(** The log and the cache, seen as [cv] with the sectors [L] logged, show [v]. *)
Record tx_rel (s : lstate) (v : Blocks.tview) (cv : cview) (L : list Z) : Prop := {
  xs_area : lstart s = st0 /\ lsize s = sz0;
  xs_since : exists logs, since dk0 tr0 (lstart s) (lsize s) cv logs;
  xs_sees : sees (cache s) cv;
  xs_tx : in_tx (lstart s) (lsize s) cv L (Blocks.tv_dirty v);
  xs_head : header_is (lh_sector s) L (lh_n s);
  xs_busy : lbusy s = Blocks.tv_open v;
  xs_size : Blocks.tv_size v = lstart s;
  xs_cap : Z.of_nat (Blocks.tv_cap v) = Z.min LOGSIZE (lsize s - 1);
  xs_logged : Blocks.tv_log v = list_to_set L;
  xs_held : cv_held cv = dom (Blocks.tv_held v);
  xs_holds : forall sec b, Blocks.tv_held v !! sec = Some b -> holds (cache s) b sec;
  xs_content : forall sec, Blocks.home v sec -> cv_content cv sec = Blocks.tv_content v sec;
  xs_clean : forall sec, Blocks.home v sec -> sec ∉ Blocks.tv_dirty v -> sec ∉ cv_pinned cv ->
               cv_content cv sec = vdisk (cv_disk cv) sec
}.
Definition tx_sees (s : lstate) (v : Blocks.tview) : Prop := exists cv L, tx_rel s v cv L.

Lemma in_tx_change st sz v v' L X X' :
  in_tx st sz v L X -> cv_disk v' = cv_disk v -> cv_pinned v' = cv_pinned v ->
  (forall sec, sec ∈ cv_held v' -> 0 <= sec < st) -> X ⊆ X' ->
  (forall sec, sec ∉ X' -> cv_content v' sec = cv_content v sec) ->
  (forall sec, st <= sec -> cv_content v' sec = cv_content v sec) ->
  in_tx st sz v' L X'.
Proof.
  intros [G N H R P Hh C] Ed Ep Eh HX Ec El. split; rewrite ?Ed, ?Ep; try done.
  intros j sec Hj Hs. rewrite El, Ec; [|done|unfold log_sector; lia]. apply C; [done|set_solver].
Qed.

Section Laws.
Context (s : lstate) (v : Blocks.tview) (cv : cview) (L : list Z) (R : tx_rel s v cv L).

Lemma home_on_disk sec : Blocks.home v sec -> on_disk cv sec /\ 0 <= sec < lstart s.
Proof.
  unfold Blocks.home, on_disk. rewrite (xs_size _ _ _ _ R).
  destruct (tx_geometry _ _ _ _ _ (xs_tx _ _ _ _ R)). lia.
Qed.

Lemma held_home sec b : Blocks.tv_held v !! sec = Some b -> Blocks.home v sec.
Proof.
  intros Hb. unfold Blocks.home. rewrite (xs_size _ _ _ _ R).
  apply (tx_held _ _ _ _ _ (xs_tx _ _ _ _ R)). rewrite (xs_held _ _ _ _ R). by eapply elem_of_dom_2.
Qed.

Lemma in_use_room : (size (Blocks.in_use v) < NBUF)%nat -> room cv 1.
Proof.
  intros Hs. unfold room. unfold Blocks.in_use in Hs.
  rewrite (xs_held _ _ _ _ R), (tx_pinned _ _ _ _ _ (xs_tx _ _ _ _ R)), <- (xs_logged _ _ _ _ R). lia.
Qed.

Lemma tx_bread sec :
  Blocks.home v sec -> Blocks.tv_held v !! sec = None -> (size (Blocks.in_use v) < NBUF)%nat ->
  wp (bio (bread 1 sec)) (fun b s' => tx_sees s' (Blocks.t_hold sec b v)) s.
Proof.
  intros Hs Hn Hu. destruct (home_on_disk sec Hs) as [Hod Hst].
  assert (Hnh : sec ∉ cv_held cv) by (rewrite (xs_held _ _ _ _ R); by apply not_elem_of_dom).
  eapply wp_bread; [apply (xs_sees _ _ _ _ R)|done|done|right; by apply in_use_room|].
  intros b c Hv Hb Hk. exists (v_hold sec cv), L. destruct R as [Ra R0 Rs Rt Rh Rb Rz Rc Rl Rd Ro Rn Rk].
  split; simpl; try done.
  - by eapply since_same.
  - eapply in_tx_change; [exact Rt|done..| |done|done|done].
    simpl. intros x [->%elem_of_singleton|Hx]%elem_of_union; [done|]. by apply (tx_held _ _ _ _ _ Rt).
  - rewrite dom_insert_L, Rd. done.
  - intros x b' Hx. apply lookup_insert_Some in Hx as [[<- <-]|[_ Hx]]; [done|]. apply Hk. by apply Ro.
Qed.

Lemma tx_bdata sec b :
  Blocks.home v sec -> Blocks.tv_held v !! sec = Some b ->
  wp (bdata b) (fun d s' => d = Blocks.tv_content v sec /\ s' = s) s.
Proof.
  intros Hs Hb. eapply wp_bdata; [apply (xs_sees _ _ _ _ R)|by eapply (xs_holds _ _ _ _ R)|].
  split; [|done]. by apply (xs_content _ _ _ _ R).
Qed.

Lemma tx_set_bdata sec b d :
  Blocks.tv_held v !! sec = Some b -> length d = BSIZE ->
  wp (set_bdata b d) (fun _ s' => tx_sees s' (Blocks.t_put sec d v)) s.
Proof.
  intros Hb Hd. pose proof (held_home sec b Hb) as Hs. destruct (home_on_disk sec Hs) as [_ Hst].
  eapply wp_set_bdata; [apply (xs_sees _ _ _ _ R)|by eapply (xs_holds _ _ _ _ R)|done|].
  intros c Hv Hbc Hk. exists (v_put sec d cv), L. destruct R as [Ra R0 Rs Rt Rh Rb Rz Rc Rl Rd Ro Rn Rk].
  split; simpl; try done.
  - by eapply since_same.
  - eapply in_tx_change; [exact Rt|done|done|apply (tx_held _ _ _ _ _ Rt)|set_solver| |]; simpl; intros x Hx.
    + apply fset_other. set_solver.
    + apply fset_other. lia.
  - intros x b' Hx. by apply Hk, Ro.
  - intros x Hx. unfold Blocks.upd, fset. case_decide; [done|by apply Rn].
  - intros x Hx Hxd Hp. rewrite fset_other by set_solver. apply Rk; [done|set_solver|done].
Qed.

Lemma tx_brelse sec b :
  Blocks.tv_held v !! sec = Some b -> sec ∉ Blocks.tv_dirty v ->
  wp (bio (brelse b)) (fun _ s' => tx_sees s' (Blocks.t_release sec v)) s.
Proof.
  intros Hb Hd. pose proof (held_home sec b Hb) as Hs.
  eapply wp_brelse; [apply (xs_sees _ _ _ _ R)|by eapply (xs_holds _ _ _ _ R)| |].
  - destruct (decide (sec ∈ cv_pinned cv)); [by left|right]. by apply (xs_clean _ _ _ _ R).
  - intros c Hv Hk. exists (v_release sec cv), L.
    pose proof (holds_inj (cache s)) as Hinj. destruct R as [Ra R0 Rs Rt Rh Rb Rz Rc Rl Rd Ro Rn Rk].
    split; simpl; try done.
    + by eapply since_same.
    + eapply in_tx_change; [exact Rt|done..| |done|done|done].
      simpl. intros x Hx. apply (tx_held _ _ _ _ _ Rt). set_solver.
    + rewrite dom_delete_L, Rd. done.
    + intros x b' Hx. apply lookup_delete_Some in Hx as [Hne Hx]. apply Hk; [|by apply Ro].
      intros ->. apply Hne. eapply Hinj; by apply Ro.
Qed.

Lemma tx_log_write sec b :
  Blocks.tv_held v !! sec = Some b -> Blocks.tv_dirty v ⊆ {[sec]} -> Blocks.tv_open v = true ->
  (size (Blocks.tv_log v) < Blocks.tv_cap v)%nat -> (size (Blocks.in_use v) < NBUF)%nat ->
  wp (log_write b) (fun _ s' => tx_sees s' (Blocks.t_log sec v)) s.
Proof.
  intros Hb Hd Ho Hcap Hu. pose proof (held_home sec b Hb) as Hs. destruct (home_on_disk sec Hs) as [_ Hst].
  pose proof (in_use_room Hu) as Hroom. destruct R as [Ra R0 Rs Rt Rh Rb Rz Rc Rl Rd Ro Rn Rk].
  assert (Hlen : (length L < Blocks.tv_cap v)%nat).
  { rewrite Rl, size_list_to_set in Hcap by apply (tx_nodup _ _ _ _ _ Rt). done. }
  assert (Rt1 : in_tx (lstart s) (lsize s) cv L {[sec]}).
  { eapply in_tx_change; [exact Rt|done|done|apply (tx_held _ _ _ _ _ Rt)|done|done|done]. }
  destruct (tx_geometry _ _ _ _ _ Rt) as [G1 G2 G3 G4].
  destruct s as [c st sz bz n secs]. lnorm. rewrite Rb, Ho.
  eapply wp_mono; [apply (log_write_wp c st sz n secs L cv b sec); try done; [by apply Ro|lia|lia]|].
  intros [] s' (c' & i & n' & secs' & -> & Hi & Hh & Hbc & Hk & Hv & Ht). lnorm.
  exists (v_pin sec (v_through (log_sector st i) (cv_content cv sec) cv)), (log_add sec L).
  split; simpl; try done.
  - destruct R0 as (logs & [S1 S2 S3]). exists (logs ++ [(log_sector st i, cv_content cv sec)]). split; simpl.
    + by rewrite S1, apply_writes_app.
    + by rewrite S2, (assoc_L app).
    + apply Forall_app. split; [done|]. constructor; [|constructor]. simpl. unfold log_sector.
      split; [lia|]. apply (sees_length c cv sec Rs). lia.
  - rewrite Rl. apply set_eq. intros x. rewrite elem_of_union, elem_of_singleton, !elem_of_list_to_set.
    by rewrite elem_of_log_add.
  - intros x b' Hx. by apply Hk, Ro.
  - intros x Hx. unfold Blocks.home in Hx. simpl in Hx. rewrite fset_other; [by apply Rn|].
    unfold log_sector. lia.
  - intros x Hx _ Hp. assert (Hne : x <> log_sector st i) by (unfold Blocks.home, log_sector in *; simpl in Hx; lia).
    rewrite fset_other by done. rewrite vdisk_insert by (unfold log_sector in *; lia).
    rewrite decide_False by done. apply Rk; [done|set_solver|set_solver].
Qed.
End Laws.

Definition tx_layer : Blocks.TxLayer lstate.
Proof.
  refine {| Blocks.bread := fun d sec => bio (bread d sec);
            Blocks.bdata := bdata;
            Blocks.set_bdata := set_bdata;
            Blocks.log_write := log_write;
            Blocks.brelse := fun b => bio (brelse b);
            Blocks.tsees := tx_sees |}.
  - intros s v v' (cv & L & [Ra R0 Rs Rt Rh Rb Rz Rc Rl Rd Ro Rn Rk]) [Ec Eh Ed El Eo Es Ep].
    unfold Blocks.home in *. exists cv, L. split; unfold Blocks.home in *;
      rewrite <- ?Eh, <- ?Ed, <- ?El, <- ?Eo, <- ?Es, <- ?Ep; try done.
    + intros sec Hs. rewrite <- Ec by done. by apply Rn.
  - intros s v sec (cv & L & R) Hs. rewrite <- (xs_content _ _ _ _ R) by done.
    apply (sees_length (cache s) cv sec); [apply R|]. by destruct (home_on_disk s v cv L R sec Hs).
  - intros s v sec (cv & L & R) Hs Hn Hu. by apply (tx_bread s v cv L R).
  - intros s v b sec (cv & L & R) Hb Hs. by apply (tx_bdata s v cv L R).
  - intros s v b sec d (cv & L & R) Hb Hd. by apply (tx_set_bdata s v cv L R).
  - intros s v b sec (cv & L & R) Hb Hs Hd Ho Hc Hu. by apply (tx_log_write s v cv L R).
  - intros s v b sec (cv & L & R) Hb Hd. by apply (tx_brelse s v cv L R).
Defined.
End Layer.

(** ** Transactions over the block layer *)

Definition log_cap (sz : Z) : nat := Z.to_nat (Z.min LOGSIZE (sz - 1)).

(** What an idle log shows when a transaction begins. *)
Definition begin_view (st sz : Z) (open : bool) (cv : cview) : Blocks.tview :=
  Blocks.mkT (cv_content cv) ∅ ∅ ∅ open st (log_cap sz).

Lemma tx_begin c st sz secs cv open :
  sees c cv -> idle st sz secs cv ->
  tx_sees (cv_disk cv) (cv_trace cv) st sz (mkLog c st sz open 0 secs) (begin_view st sz open cv).
Proof.
  intros Hv Hid. pose proof (idle_in_tx _ _ _ _ Hid) as T. destruct Hid as [Hh Hp HD Hn Hs].
  destruct (ld_geometry _ _ _ HD) as [G1 G2 G3 G4]. exists cv, []. split; simpl; try done.
  - exists []. split; [done|by rewrite app_nil_r|constructor].
  - unfold log_cap, LOGSIZE. lia.
  - intros sec Hsec _ Hnp. apply (sees_clean c cv sec Hv); [|done]. rewrite Hh. apply not_elem_of_empty.
Qed.

(** The end of a transaction: nothing is held or pending. *)
Record tx_done (v : Blocks.tview) : Prop := {
  td_held : Blocks.tv_held v = ∅;
  td_dirty : Blocks.tv_dirty v = ∅;
  td_open : Blocks.tv_open v = true;
  td_room : (size (Blocks.tv_log v) < NBUF)%nat;
  td_sb : 1 ∉ Blocks.tv_log v
}.

(** The disk between two disk writes of the transaction, restarted. *)
Definition survives (st sz : Z) (dk : list (list Z)) (old new : Z -> list Z) : Prop :=
  wp restart (fun _ r => exists c secs v,
    r = mkLog c st sz false 0 secs /\ sees c v /\ cv_held v = ∅ /\ cv_pinned v = ∅ /\
    ((forall sec, 0 <= sec < st -> vdisk (cv_disk v) sec = old sec) \/
     (forall sec, 0 <= sec < st -> vdisk (cv_disk v) sec = new sec))) (power_off dk).

Lemma tx_commit dk0 tr0 st sz s v :
  tx_sees dk0 tr0 st sz s v -> tx_done v -> log_disk st sz dk0 -> head_n (vdisk dk0 st) = 0 ->
  wp commit_trans (fun _ s' => exists c secs cv W,
    s' = mkLog c st sz false 0 secs /\ sees c cv /\ cv_trace cv = tr0 ++ W /\
    (forall sec, 0 <= sec < st -> vdisk (cv_disk cv) sec = Blocks.tv_content v sec) /\
    forall P, P `prefix_of` W -> survives st sz (apply_writes P dk0) (vdisk dk0) (Blocks.tv_content v)) s.
Proof.
  intros (cv & L & [[Ra1 Ra2] (logs & [S1 S2 S3]) Rs Rt Rh Rb Rz Rc Rl Rd Ro Rn Rk])
    [T1 T2 T3 T4 T5] HD Hn. rewrite T2 in Rt. destruct s as [c st' sz' bz n secs]. lnorm. subst st' sz'.
  rewrite Rb, T3. rewrite T1, dom_empty_L in Rd.
  assert (Hroom : room cv 1).
  { unfold room. rewrite Rd, (tx_pinned _ _ _ _ _ Rt), union_empty_l_L, <- Rl. lia. }
  assert (HL1 : 1 ∉ L) by (rewrite Rl, elem_of_list_to_set in T5; done).
  eapply wp_mono; [apply (commit_wp c st sz n secs L cv Rs Rt Rh Hroom)|].
  { intros sec _. rewrite Rd. apply not_elem_of_empty. }
  intros [] s2 (c2 & -> & Hv2).
  destruct (tx_crash c cv st sz L logs dk0 Rs Rt S1 S3 HD Hn HL1) as [Hcr Hfin].
  assert (Hnew : forall sec, 0 <= sec < st ->
    (if decide (sec ∈ L) then cv_content cv sec else vdisk dk0 sec) = Blocks.tv_content v sec).
  { intros sec Hs. assert (Hh : Blocks.home v sec) by (unfold Blocks.home; lia). case_decide as Hin; [by apply Rn|].
    rewrite <- Rn, Rk; [|done|rewrite T2; apply not_elem_of_empty
      |by rewrite (tx_pinned _ _ _ _ _ Rt), elem_of_list_to_set|done].
    destruct (ld_geometry _ _ _ HD) as [G1 G2 G3 G4].
    rewrite S1, vdisk_apply by (eapply Forall_impl; [exact S3|]; intros w [? _]; simpl; lia).
    symmetry. apply put_all_other. intros w Hw. rewrite Forall_forall in S3. destruct (S3 w Hw). lia. }
  eexists c2, secs, _, (logs ++ commit_writes st L (cv_content cv)).
  split; [done|]. split; [exact Hv2|]. cbn [cv_trace cv_disk]. split; [by rewrite S2, (assoc_L app)|]. split.
  - intros sec Hs. rewrite <- Hnew, <- Hfin by done. by rewrite S1, <- apply_writes_app.
  - intros P HP. destruct (Hcr P HP) as [HDP Hst3]. unfold survives.
    eapply wp_mono; [apply (restart_crash _ st sz L (cv_content cv) (vdisk dk0) HDP); try done; by destruct Rt|].
    intros [] r (c3 & secs3 & v3 & -> & Hv3 & Hh3 & Hp3 & Hor). exists c3, secs3, v3.
    split_and!; try done. destruct Hor as [Hor|Hor]; [by left|]. right. intros sec Hs.
    by rewrite Hor, Hnew by done.
Qed.

End TxLog.
