(* ===== verification/Fs.v ===== *)
(** * fs.c: blocks, inodes, files, directories and paths

    [Module Fs] translates fs.c over an arbitrary block layer ([Blocks.TxLayer]):
    the block allocator, the inode cache, [bmap], [readi] and [writei],
    directories and path names.  On-disk structures are the bytes of their
    blocks, little-endian with the layout of fs.h.  Device files go through the
    table [devsw], which the console fills in.

    Waiting for a locked inode is a blocked outcome.  The loops over a file run on
    fuel: every round of [readi] and [writei] moves at least one byte, every round
    of the directory loops one entry, every round of [namex] one path element. *)

From S2P Require Import Prelude CString Spinlock Bio Log Blocks.

Module Fs.
Import Blocks.

Definition BSIZE : Z := 512.
Definition NDIRECT : Z := 12.
Definition NINDIRECT : Z := 128.
Definition MAXFILE : Z := NDIRECT + NINDIRECT.
Definition IPB : Z := 8.
Definition BPB : Z := 4096.
Definition IBLOCK (i : Z) : Z := i / IPB + 2.
Definition BBLOCK (b ninodes : Z) : Z := b / BPB + ninodes / IPB + 3.
Definition DIRSIZ : Z := 14.
Definition NINODE : nat := 50.
Definition NDEV : Z := 10.
Definition ROOTDEV : Z := 1.
Definition ROOTINO : Z := 1.
Definition T_DIR : Z := 1.
Definition T_FILE : Z := 2.
Definition T_DEV : Z := 3.
Definition I_BUSY : Z := 1.
Definition I_VALID : Z := 2.

(** ** On-disk and in-memory inodes *)

Record dinode := mkDinode {
  d_type : Z;
  d_major : Z;
  d_minor : Z;
  d_nlink : Z;
  d_size : Z;
  d_addrs : list Z
}.

Definition le16 (d : list Z) (off : nat) : Z := le_val (window d off 2).
Definition le32 (d : list Z) (off : nat) : Z := le_val (window d off 4).

Definition sizeof_dinode : nat := 64.

Definition decode_dinode (l : list Z) : dinode :=
  mkDinode (s16 (le16 l 0)) (s16 (le16 l 2)) (s16 (le16 l 4)) (s16 (le16 l 6)) (le32 l 8)
    ((fun i => le32 l (12 + 4 * i)) <$> seq 0 13).

Definition encode_dinode (x : dinode) : list Z :=
  le_bytes 2 (d_type x) ++ le_bytes 2 (d_major x) ++ le_bytes 2 (d_minor x) ++
  le_bytes 2 (d_nlink x) ++ le_bytes 4 (d_size x) ++ concat (le_bytes 4 <$> d_addrs x).

(** [(struct dinode* )bp->data + inum%IPB] *)
Definition dinode_off (inum : Z) : nat := Z.to_nat (inum mod IPB) * sizeof_dinode.
Definition get_dinode (d : list Z) (inum : Z) : dinode :=
  decode_dinode (window d (dinode_off inum) sizeof_dinode).
Definition put_dinode (d : list Z) (inum : Z) (x : dinode) : list Z :=
  splice d (dinode_off inum) (encode_dinode x).

(** [struct inode]; [i_d] is the copy of the disk inode. *)
Record inode := mkInode {
  i_dev : Z;
  i_inum : Z;
  i_ref : Z;
  i_flags : Z;
  i_d : dinode
}.

Definition zero_dinode : dinode := mkDinode 0 0 0 0 0 (replicate 13 0).
Definition zero_inode : inode := mkInode 0 0 0 0 zero_dinode.

Definition set_ref (r : Z) (x : inode) : inode := mkInode (i_dev x) (i_inum x) r (i_flags x) (i_d x).
Definition set_iflags (f : Z) (x : inode) : inode := mkInode (i_dev x) (i_inum x) (i_ref x) f (i_d x).
Definition set_d (d : dinode) (x : inode) : inode := mkInode (i_dev x) (i_inum x) (i_ref x) (i_flags x) d.
Definition set_type (t : Z) (d : dinode) : dinode :=
  mkDinode t (d_major d) (d_minor d) (d_nlink d) (d_size d) (d_addrs d).
Definition set_size (z : Z) (d : dinode) : dinode :=
  mkDinode (d_type d) (d_major d) (d_minor d) (d_nlink d) z (d_addrs d).
Definition set_addr (i : nat) (a : Z) (d : dinode) : dinode :=
  mkDinode (d_type d) (d_major d) (d_minor d) (d_nlink d) (d_size d) (<[i:=a]> (d_addrs d)).
Definition addr (i : nat) (d : dinode) : Z := default 0 (d_addrs d !! i).

(** [struct stat] *)
Record stat := mkStat { st_type : Z; st_dev : Z; st_ino : Z; st_nlink : Z; st_size : Z }.

Section Ops.
Context {D : Type} {TL : TxLayer D}.

(** The inode cache over the block layer. *)
Record fstate := mkFs { fs_blk : D; icache : list inode }.

Definition with_blk (d : D) (s : fstate) : fstate := mkFs d (icache s).
Definition blk {A} (m : M D A) : M fstate A := zoom fs_blk with_blk m.
Definition geti (ip : nat) : M fstate inode := gets (fun s => default zero_inode (icache s !! ip)).
Definition seti (ip : nat) (x : inode) : M fstate unit :=
  modify (fun s => mkFs (fs_blk s) (<[ip:=x]> (icache s))).
Definition updi (ip : nat) (f : inode -> inode) : M fstate unit := let* x := geti ip in seti ip (f x).

(** ** Blocks *)

Definition readsb (d : Z) : M fstate Log.superblock :=
  let* bp := blk (bread d 1) in
  let* sb := blk (bdata bp) in
  blk (brelse bp) ;;;
  ret (Log.decode_sb sb).

Definition bzero (d bno : Z) : M fstate unit :=
  let* bp := blk (bread d bno) in
  blk (set_bdata bp (replicate (Z.to_nat BSIZE) 0)) ;;;
  blk (log_write bp) ;;;
  blk (brelse bp).

(** [bp->data[bi/8] & m], setting and clearing the bit. *)
Definition bit_byte (d : list Z) (bi : Z) : Z := default 0 (d !! Z.to_nat (bi / 8)).
Definition bit_set (d : list Z) (bi : Z) : bool := negb (Z.land (bit_byte d bi) (Z.shiftl 1 (bi mod 8)) =? 0).
Definition mark_bit (d : list Z) (bi : Z) : list Z :=
  <[Z.to_nat (bi / 8):=u8 (Z.lor (bit_byte d bi) (Z.shiftl 1 (bi mod 8)))]> d.
Definition clear_bit (d : list Z) (bi : Z) : list Z :=
  <[Z.to_nat (bi / 8):=u8 (Z.land (bit_byte d bi) (Z.lnot (Z.shiftl 1 (bi mod 8))))]> d.

(** The inner loop of [balloc]: the first free bit from [bi] on. *)
Fixpoint free_bit (fuel : nat) (d : list Z) (b bi sz : Z) : option Z :=
  match fuel with
  | O => None
  | S fuel' =>
      if (bi <? BPB) && (b + bi <? sz) then
        if negb (bit_set d bi) then Some bi else free_bit fuel' d b (bi + 1) sz
      else None
  end.

Fixpoint balloc_loop (fuel : nat) (d : Z) (sb : Log.superblock) (b : Z) : M fstate Z :=
  match fuel with
  | O => panic "balloc: out of blocks"
  | S fuel' =>
      if b <? Log.sb_size sb then
        let* bp := blk (bread d (BBLOCK b (Log.sb_ninodes sb))) in
        let* data := blk (bdata bp) in
        match free_bit (Z.to_nat BPB) data b 0 (Log.sb_size sb) with
        | Some bi =>
            blk (set_bdata bp (mark_bit data bi)) ;;;
            blk (log_write bp) ;;;
            blk (brelse bp) ;;;
            bzero d (b + bi) ;;;
            ret (b + bi)
        | None => blk (brelse bp) ;;; balloc_loop fuel' d sb (b + BPB)
        end
      else panic "balloc: out of blocks"
  end.

Definition balloc (d : Z) : M fstate Z :=
  let* sb := readsb d in
  balloc_loop (S (Z.to_nat (Log.sb_size sb / BPB + 1))) d sb 0.

Definition bfree (d b : Z) : M fstate unit :=
  let* sb := readsb d in
  let* bp := blk (bread d (BBLOCK b (Log.sb_ninodes sb))) in
  let* data := blk (bdata bp) in
  let bi := b mod BPB in
  if negb (bit_set data bi) then panic "freeing free block"
  else
    blk (set_bdata bp (clear_bit data bi)) ;;;
    blk (log_write bp) ;;;
    blk (brelse bp).

(** ** Inodes *)

(** The loop of [iget]: an entry in use for the inode, or the first empty one. *)
Fixpoint iget_scan (d inum : Z) (l : list inode) (i : nat) (empty : option nat) : option nat * option nat :=
  match l with
  | [] => (None, empty)
  | x :: l' =>
      if (0 <? i_ref x) && (i_dev x =? d) && (i_inum x =? inum) then (Some i, empty)
      else iget_scan d inum l' (S i)
             (match empty with None => if i_ref x =? 0 then Some i else None | _ => empty end)
  end.

Definition iget (d inum : Z) : M fstate nat :=
  let* l := gets icache in
  match iget_scan d inum l 0 None with
  | (Some ip, _) => updi ip (fun x => set_ref (i_ref x + 1) x) ;;; ret ip
  | (None, None) => panic "iget: no inodes"
  | (None, Some ip) => updi ip (fun x => mkInode d inum 1 0 (i_d x)) ;;; ret ip
  end.

Fixpoint ialloc_loop (fuel : nat) (d type : Z) (sb : Log.superblock) (inum : Z) : M fstate nat :=
  match fuel with
  | O => panic "ialloc: no inodes"
  | S fuel' =>
      if inum <? Log.sb_ninodes sb then
        let* bp := blk (bread d (IBLOCK inum)) in
        let* data := blk (bdata bp) in
        if d_type (get_dinode data inum) =? 0 then
          blk (set_bdata bp (put_dinode data inum (set_type type zero_dinode))) ;;;
          blk (log_write bp) ;;;
          blk (brelse bp) ;;;
          iget d inum
        else
          blk (brelse bp) ;;;
          ialloc_loop fuel' d type sb (inum + 1)
      else panic "ialloc: no inodes"
  end.

Definition ialloc (d type : Z) : M fstate nat :=
  let* sb := readsb d in
  ialloc_loop (Z.to_nat (Log.sb_ninodes sb)) d type sb 1.

Definition iupdate (ip : nat) : M fstate unit :=
  let* x := geti ip in
  let* bp := blk (bread (i_dev x) (IBLOCK (i_inum x))) in
  let* data := blk (bdata bp) in
  blk (set_bdata bp (put_dinode data (i_inum x) (i_d x))) ;;;
  blk (log_write bp) ;;;
  blk (brelse bp).

Definition idup (ip : nat) : M fstate nat :=
  updi ip (fun x => set_ref (i_ref x + 1) x) ;;;
  ret ip.

Definition ilock (ip : option nat) : M fstate unit :=
  match ip with
  | None => panic "ilock"
  | Some ip =>
      let* x := geti ip in
      if i_ref x <? 1 then panic "ilock"
      else if has_flag (i_flags x) I_BUSY then block
      else
        updi ip (fun x => set_iflags (set_flag (i_flags x) I_BUSY) x) ;;;
        let* x := geti ip in
        if has_flag (i_flags x) I_VALID then ret tt
        else
          let* bp := blk (bread (i_dev x) (IBLOCK (i_inum x))) in
          let* data := blk (bdata bp) in
          updi ip (set_d (get_dinode data (i_inum x))) ;;;
          blk (brelse bp) ;;;
          updi ip (fun x => set_iflags (set_flag (i_flags x) I_VALID) x) ;;;
          let* x := geti ip in
          if d_type (i_d x) =? 0 then panic "ilock: no type" else ret tt
  end.

Definition iunlock (ip : option nat) : M fstate unit :=
  match ip with
  | None => panic "iunlock"
  | Some ip =>
      let* x := geti ip in
      if negb (has_flag (i_flags x) I_BUSY) || (i_ref x <? 1) then panic "iunlock"
      else updi ip (fun x => set_iflags (clear_flag (i_flags x) I_BUSY) x)
  end.

(** ** Inode content *)

(** [a[i]] of an indirect block. *)
Definition get_addr (data : list Z) (i : Z) : Z := le32 data (Z.to_nat (4 * i)).
Definition put_addr (data : list Z) (i a : Z) : list Z := splice data (Z.to_nat (4 * i)) (le_bytes 4 a).

Definition bmap (ip : nat) (bn : Z) : M fstate Z :=
  let* x := geti ip in
  if bn <? NDIRECT then
    let a := addr (Z.to_nat bn) (i_d x) in
    if a =? 0 then
      let* a := balloc (i_dev x) in
      updi ip (fun x => set_d (set_addr (Z.to_nat bn) a (i_d x)) x) ;;;
      ret a
    else ret a
  else
    let bn := bn - NDIRECT in
    if bn <? NINDIRECT then
      let* ind :=
        (let a := addr (Z.to_nat NDIRECT) (i_d x) in
         if a =? 0 then
           let* a := balloc (i_dev x) in
           updi ip (fun x => set_d (set_addr (Z.to_nat NDIRECT) a (i_d x)) x) ;;;
           ret a
         else ret a) in
      let* bp := blk (bread (i_dev x) ind) in
      let* data := blk (bdata bp) in
      let* a :=
        (let a := get_addr data bn in
         if a =? 0 then
           let* a := balloc (i_dev x) in
           blk (set_bdata bp (put_addr data bn a)) ;;;
           blk (log_write bp) ;;;
           ret a
         else ret a) in
      blk (brelse bp) ;;;
      ret a
    else panic "bmap: out of range".

(** The bodies of the two loops of [itrunc]. *)
Definition trunc_direct (ip i : nat) : M fstate unit :=
  let* x := geti ip in
  if addr i (i_d x) =? 0 then ret tt
  else
    bfree (i_dev x) (addr i (i_d x)) ;;;
    updi ip (fun x => set_d (set_addr i 0 (i_d x)) x).
Definition trunc_indirect (d : Z) (data : list Z) (j : nat) : M fstate unit :=
  let a := get_addr data (Z.of_nat j) in
  if a =? 0 then ret tt else bfree d a.

Definition itrunc (ip : nat) : M fstate unit :=
  for_upto (Z.to_nat NDIRECT) 0 (trunc_direct ip) ;;;
  let* x := geti ip in
  let ind := addr (Z.to_nat NDIRECT) (i_d x) in
  (if ind =? 0 then ret tt
   else
     let* bp := blk (bread (i_dev x) ind) in
     let* data := blk (bdata bp) in
     for_upto (Z.to_nat NINDIRECT) 0 (trunc_indirect (i_dev x) data) ;;;
     blk (brelse bp) ;;;
     bfree (i_dev x) ind ;;;
     updi ip (fun x => set_d (set_addr (Z.to_nat NDIRECT) 0 (i_d x)) x)) ;;;
  updi ip (fun x => set_d (set_size 0 (i_d x)) x) ;;;
  iupdate ip.

Definition iput (ip : nat) : M fstate unit :=
  let* x := geti ip in
  (if (i_ref x =? 1) && has_flag (i_flags x) I_VALID && (d_nlink (i_d x) =? 0) then
     if has_flag (i_flags x) I_BUSY then panic "iput busy"
     else
       updi ip (fun x => set_iflags (set_flag (i_flags x) I_BUSY) x) ;;;
       itrunc ip ;;;
       updi ip (fun x => set_d (set_type 0 (i_d x)) x) ;;;
       iupdate ip ;;;
       updi ip (set_iflags 0)
   else ret tt) ;;;
  updi ip (fun x => set_ref (i_ref x - 1) x).

Definition iunlockput (ip : nat) : M fstate unit :=
  iunlock (Some ip) ;;;
  iput ip.

Definition stati (ip : nat) : M fstate stat :=
  let* x := geti ip in
  ret (mkStat (d_type (i_d x)) (i_dev x) (i_inum x) (d_nlink (i_d x)) (d_size (i_d x))).

(** The device switch: the read and write functions of a major number. *)
Context (devsw_read : Z -> option (nat -> Z -> M fstate (Z * list Z))).
Context (devsw_write : Z -> option (nat -> list Z -> Z -> M fstate Z)).

(** The loop of [readi]; [acc] are the bytes copied to [dst] so far. *)
Fixpoint readi_loop (fuel : nat) (ip : nat) (off n tot : Z) (acc : list Z) : M fstate (list Z) :=
  match fuel with
  | O => ret acc
  | S fuel' =>
      if tot <? n then
        let* x := geti ip in
        let* a := bmap ip (off / BSIZE) in
        let* bp := blk (bread (i_dev x) a) in
        let m := Z.min (n - tot) (BSIZE - off mod BSIZE) in
        let* data := blk (bdata bp) in
        blk (brelse bp) ;;;
        readi_loop fuel' ip (off + m) n (tot + m)
          (acc ++ window data (Z.to_nat (off mod BSIZE)) (Z.to_nat m))
      else ret acc
  end.

(** The result of [readi] and the bytes it leaves at [dst]. *)
Definition readi (ip : nat) (off n : Z) : M fstate (Z * list Z) :=
  let* x := geti ip in
  let sz := d_size (i_d x) in
  if d_type (i_d x) =? T_DEV then
    let major := d_major (i_d x) in
    if (major <? 0) || (NDEV <=? major) then ret (-1, [])
    else match devsw_read major with
         | None => ret (-1, [])
         | Some f => f ip n
         end
  else if (sz <? off) || (u32 (off + n) <? off) then ret (-1, [])
  else
    let n := if sz <? u32 (off + n) then sz - off else n in
    let* bytes := readi_loop (Z.to_nat n) ip off n 0 [] in
    ret (s32 n, bytes).

(** The loop of [writei] over the bytes [src]. *)
Fixpoint writei_loop (fuel : nat) (ip : nat) (src : list Z) (off n tot : Z) : M fstate unit :=
  match fuel with
  | O => ret tt
  | S fuel' =>
      if tot <? n then
        let* x := geti ip in
        let* a := bmap ip (off / BSIZE) in
        let* bp := blk (bread (i_dev x) a) in
        let m := Z.min (n - tot) (BSIZE - off mod BSIZE) in
        let* data := blk (bdata bp) in
        blk (set_bdata bp (splice data (Z.to_nat (off mod BSIZE)) (window src (Z.to_nat tot) (Z.to_nat m)))) ;;;
        blk (log_write bp) ;;;
        blk (brelse bp) ;;;
        writei_loop fuel' ip src (off + m) n (tot + m)
      else ret tt
  end.

Definition writei (ip : nat) (src : list Z) (off n : Z) : M fstate Z :=
  let* x := geti ip in
  if d_type (i_d x) =? T_DEV then
    let major := d_major (i_d x) in
    if (major <? 0) || (NDEV <=? major) then ret (-1)
    else match devsw_write major with
         | None => ret (-1)
         | Some f => f ip src n
         end
  else if (d_size (i_d x) <? off) || (u32 (off + n) <? off) then ret (-1)
  else if MAXFILE * BSIZE <? u32 (off + n) then ret (-1)
  else
    writei_loop (Z.to_nat n) ip src off n 0 ;;;
    let* x := geti ip in
    (if (0 <? n) && (d_size (i_d x) <? off + n) then
       updi ip (fun x => set_d (set_size (off + n) (i_d x)) x) ;;;
       iupdate ip
     else ret tt) ;;;
    ret (s32 n).

(** ** Directories *)

Definition sizeof_dirent : Z := 16.
Definition de_inum (de : list Z) : Z := le16 de 0.
Definition de_name (de : list Z) : list Z := window de 2 (Z.to_nat DIRSIZ).
Definition mk_dirent (inum : Z) (name : list Z) : list Z := le_bytes 2 inum ++ name.

Definition namecmp (s t : list Z) : Z := Str.strncmp s t (Z.to_nat DIRSIZ).

Fixpoint dirlookup_loop (fuel : nat) (dp : nat) (name : list Z) (off : Z) : M fstate (option (nat * Z)) :=
  match fuel with
  | O => ret None
  | S fuel' =>
      let* x := geti dp in
      if off <? d_size (i_d x) then
        let* r := readi dp off sizeof_dirent in
        let '(n, de) := r in
        if negb (n =? sizeof_dirent) then panic "dirlink read"
        else if de_inum de =? 0 then dirlookup_loop fuel' dp name (off + sizeof_dirent)
        else if namecmp name (de_name de) =? 0 then
          let* x := geti dp in
          let* ip := iget (i_dev x) (de_inum de) in
          ret (Some (ip, off))
        else dirlookup_loop fuel' dp name (off + sizeof_dirent)
      else ret None
  end.

(** The inode and the offset of the entry ([*poff]). *)
Definition dirlookup (dp : nat) (name : list Z) : M fstate (option (nat * Z)) :=
  let* x := geti dp in
  if negb (d_type (i_d x) =? T_DIR) then panic "dirlookup not DIR"
  else dirlookup_loop (S (Z.to_nat (d_size (i_d x) / sizeof_dirent + 1))) dp name 0.

(** The search for an empty entry: its offset, and [de] as the loop leaves it. *)
Fixpoint empty_dirent (fuel : nat) (dp : nat) (off : Z) (de : list Z) : M fstate (Z * list Z) :=
  match fuel with
  | O => ret (off, de)
  | S fuel' =>
      let* x := geti dp in
      if off <? d_size (i_d x) then
        let* r := readi dp off sizeof_dirent in
        let '(n, de) := r in
        if negb (n =? sizeof_dirent) then panic "dirlink read"
        else if de_inum de =? 0 then ret (off, de)
        else empty_dirent fuel' dp (off + sizeof_dirent) de
      else ret (off, de)
  end.

Definition dirlink (dp : nat) (name : list Z) (inum : Z) : M fstate Z :=
  let* r := dirlookup dp name in
  match r with
  | Some (ip, _) => iput ip ;;; ret (-1)
  | None =>
      let* x := geti dp in
      let* r := empty_dirent (S (Z.to_nat (d_size (i_d x) / sizeof_dirent + 1))) dp 0
                  (replicate (Z.to_nat sizeof_dirent) 0) in
      let '(off, de) := r in
      let de' := mk_dirent inum (Str.strncpy (de_name de) name DIRSIZ) in
      let* w := writei dp de' off sizeof_dirent in
      if negb (w =? sizeof_dirent) then panic "dirlink" else ret 0
  end.

(** ** Paths *)

Fixpoint skip_slashes (path : list Z) : list Z :=
  match path with
  | c :: path' => if c =? 47 then skip_slashes path' else path
  | [] => []
  end.
Fixpoint elem_len (path : list Z) : nat :=
  match path with
  | c :: path' => if (c =? 47) || (c =? 0) then O else S (elem_len path')
  | [] => O
  end.

(** The rest of the path and the buffer [name]; [None] is a null pointer. *)
Definition skipelem (path name : list Z) : option (list Z * list Z) :=
  let path := skip_slashes path in
  if hd 0 path =? 0 then None
  else
    let len := elem_len path in
    let name :=
      if DIRSIZ <=? Z.of_nat len then splice name 0 (take (Z.to_nat DIRSIZ) path)
      else <[len:=0]> (splice name 0 (take len path)) in
    Some (skip_slashes (drop len path), name).

Fixpoint namex_loop (fuel : nat) (ip : nat) (path : list Z) (parent : bool) (name : list Z)
    : M fstate (option nat * list Z) :=
  match fuel with
  | O => ret (None, name)
  | S fuel' =>
      match skipelem path name with
      | None => if parent then iput ip ;;; ret (None, name) else ret (Some ip, name)
      | Some (path', name') =>
          ilock (Some ip) ;;;
          let* x := geti ip in
          if negb (d_type (i_d x) =? T_DIR) then iunlockput ip ;;; ret (None, name')
          else if parent && (hd 0 path' =? 0) then iunlock (Some ip) ;;; ret (Some ip, name')
          else
            let* r := dirlookup ip name' in
            match r with
            | None => iunlockput ip ;;; ret (None, name')
            | Some (next, _) =>
                iunlockput ip ;;;
                namex_loop fuel' next path' parent name'
            end
      end
  end.

(** [cwd] is [proc->cwd]; the result and the buffer [name]. *)
Definition namex (cwd : nat) (path : list Z) (parent : bool) (name : list Z) : M fstate (option nat * list Z) :=
  let* ip := (if hd 0 path =? 47 then iget ROOTDEV ROOTINO else idup cwd) in
  namex_loop (S (length path)) ip path parent name.

Definition namei (cwd : nat) (path : list Z) : M fstate (option nat) :=
  let* r := namex cwd path false (replicate (Z.to_nat DIRSIZ) 0) in
  ret (fst r).

Definition nameiparent (cwd : nat) (path name : list Z) : M fstate (option nat * list Z) :=
  namex cwd path true name.

End Ops.
Arguments fstate D : clear implicits.

(** [iinit]; the lock is the argument. *)
Definition iinit (icache_lock : nat) : M Spin.machine unit := modify (Spin.set_lock icache_lock Spin.initlock).

End Fs.
