(* ===== verification/FsAlloc.v ===== *)
(** * The block allocator of fs.c

    Rules for running fs.c over the block layer, the free bitmap as a set of
    blocks, and what [balloc] and [bfree] do to it. *)

From S2P Require Import Prelude Bio Log Blocks Fs.

Module FsAlloc.
Import Blocks Fs.

(** ** Bits of the bitmap *)

Lemma land_bit x i : 0 <= i -> negb (Z.land x (Z.shiftl 1 i) =? 0) = Z.testbit x i.
Proof.
  intros Hi. rewrite Z.shiftl_1_l. destruct (Z.testbit x i) eqn:E.
  - apply negb_true_iff, Z.eqb_neq. intros H0. apply (f_equal (fun z => Z.testbit z i)) in H0.
    by rewrite Z.land_spec, E, Z.pow2_bits_true, Z.bits_0 in H0.
  - apply negb_false_iff, Z.eqb_eq. apply Z.bits_inj'. intros j Hj. rewrite Z.land_spec, Z.bits_0.
    destruct (decide (j = i)) as [->|Hne]; [by rewrite E|]. by rewrite Z.pow2_bits_false, andb_false_r by done.
Qed.

Lemma bit_set_testbit d bi : bit_set d bi = Z.testbit (bit_byte d bi) (bi mod 8).
Proof. apply land_bit. dlia. Qed.

Lemma testbit_u8 x i : 0 <= i < 8 -> Z.testbit (u8 x) i = Z.testbit x i.
Proof. intros Hi. unfold u8. change 256 with (2 ^ 8). by rewrite Z.mod_pow2_bits_low by lia. Qed.

Lemma bit_byte_insert d bi bj x :
  0 <= bi -> 0 <= bj -> bi / 8 < Z.of_nat (length d) ->
  bit_byte (<[Z.to_nat (bi / 8):=x]> d) bj = if bi / 8 =? bj / 8 then x else bit_byte d bj.
Proof.
  intros Hi Hj Hl. unfold bit_byte. destruct (Z.eqb_spec (bi / 8) (bj / 8)) as [E|E].
  - rewrite <- E. rewrite list_lookup_insert_eq by dlia. done.
  - rewrite list_lookup_insert_ne by dlia. done.
Qed.

Lemma bit_set_mark d bi bj :
  0 <= bi -> 0 <= bj -> bi / 8 < Z.of_nat (length d) ->
  bit_set (mark_bit d bi) bj = (bi =? bj) || bit_set d bj.
Proof.
  intros Hi Hj Hl. rewrite !bit_set_testbit. unfold mark_bit. rewrite bit_byte_insert by done.
  assert (Hm : 0 <= bj mod 8 < 8) by dlia.
  destruct (Z.eqb_spec (bi / 8) (bj / 8)) as [E|E].
  - rewrite testbit_u8 by done. rewrite Z.lor_spec, Z.shiftl_1_l. unfold bit_byte. rewrite <- E.
    destruct (Z.eqb_spec bi bj) as [->|Hne].
    + by rewrite Z.pow2_bits_true, orb_true_r by lia.
    + rewrite Z.pow2_bits_false, orb_false_r by dlia. by rewrite E.
  - destruct (Z.eqb_spec bi bj) as [->|Hne]; [done|]. done.
Qed.

Lemma bit_set_clear d bi bj :
  0 <= bi -> 0 <= bj -> bi / 8 < Z.of_nat (length d) ->
  bit_set (clear_bit d bi) bj = negb (bi =? bj) && bit_set d bj.
Proof.
  intros Hi Hj Hl. rewrite !bit_set_testbit. unfold clear_bit. rewrite bit_byte_insert by done.
  assert (Hm : 0 <= bj mod 8 < 8) by dlia.
  destruct (Z.eqb_spec (bi / 8) (bj / 8)) as [E|E].
  - rewrite testbit_u8 by done. rewrite Z.land_spec, Z.lnot_spec, Z.shiftl_1_l by lia. unfold bit_byte. rewrite <- E.
    destruct (Z.eqb_spec bi bj) as [->|Hne].
    + by rewrite Z.pow2_bits_true, andb_false_r by lia.
    + rewrite Z.pow2_bits_false, andb_true_r by dlia. by rewrite E.
  - destruct (Z.eqb_spec bi bj) as [->|Hne]; [done|]. done.
Qed.

Lemma free_bit_spec fuel d b bi sz :
  0 <= bi -> BPB - bi <= Z.of_nat fuel ->
  match free_bit fuel d b bi sz with
  | Some i => bi <= i < BPB /\ b + i < sz /\ bit_set d i = false /\ forall j, bi <= j < i -> bit_set d j = true
  | None => forall j, bi <= j < BPB -> b + j < sz -> bit_set d j = true
  end.
Proof.
  revert bi. induction fuel as [|fuel IH]; intros bi Hb Hf; simpl.
  - intros j Hj. lia.
  - destruct (Z.ltb_spec bi BPB); simpl; [|intros; lia]. destruct (Z.ltb_spec (b + bi) sz); simpl; [|intros; lia].
    destruct (bit_set d bi) eqn:Eb; simpl.
    + specialize (IH (bi + 1) ltac:(lia) ltac:(lia)). destruct (free_bit fuel d b (bi + 1) sz) as [i|].
      * destruct IH as (H1 & H2 & H3 & H4). split_and!; try done; try lia.
        intros j Hj. destruct (decide (j = bi)) as [->|]; [done|]. apply H4. lia.
      * intros j Hj Hs. destruct (decide (j = bi)) as [->|]; [done|]. apply IH; lia.
    + split_and!; try done; try lia.
Qed.

(** ** Budgets *)

(** No modification is pending and there is room for two more buffers. *)
Record calm (v : tview) : Prop := {
  cm_dirty : tv_dirty v = ∅;
  cm_log : (size (tv_log v) + 3 <= Bio.NBUF)%nat;
  cm_held : (size (tv_held v) <= 1)%nat
}.

(** The open transaction may log the blocks [X] and [k] blocks more. *)
Record plan (v : tview) (X : gset Z) (k : nat) : Prop := {
  pl_calm : calm v;
  pl_open : tv_open v = true;
  pl_cap : (size (tv_log v ∪ X) + k < tv_cap v)%nat;
  pl_bufs : (size (tv_log v ∪ X) + k + 3 <= Bio.NBUF)%nat
}.

(** Block [sec] written and logged. *)
Definition t_write (sec : Z) (d : list Z) (v : tview) : tview :=
  mkT (upd (tv_content v) sec d) (tv_held v) ∅ ({[sec]} ∪ tv_log v) (tv_open v) (tv_size v) (tv_cap v).

Lemma plan_write v X k sec d : plan v X k -> sec ∈ X -> plan (t_write sec d v) X k.
Proof.
  intros [[C1 C2 C3] P1 P2 P3] Hs.
  assert (E : {[sec]} ∪ tv_log v ∪ X = tv_log v ∪ X) by set_solver.
  split; simpl; rewrite ?E; try done. split; simpl; try done.
  assert (size ({[sec]} ∪ tv_log v) <= size (tv_log v ∪ X))%nat by (apply subseteq_size; set_solver). lia.
Qed.

Lemma plan_sub v X Y k j : plan v X k -> Y ⊆ X -> (j <= k)%nat -> plan v Y j.
Proof.
  intros [C1 P1 P2 P3] HY Hj.
  assert (size (tv_log v ∪ Y) <= size (tv_log v ∪ X))%nat by (apply subseteq_size; set_solver).
  split; try done; lia.
Qed.

(** Spending one of the [k] blocks on [sec]. *)
Lemma plan_add v X k sec : plan v X (S k) -> plan v ({[sec]} ∪ X) k.
Proof.
  intros [C1 P1 P2 P3].
  assert (size (tv_log v ∪ ({[sec]} ∪ X)) <= S (size (tv_log v ∪ X)))%nat.
  { replace (tv_log v ∪ ({[sec]} ∪ X)) with ({[sec]} ∪ (tv_log v ∪ X)) by set_solver. apply Log.size_add. }
  split; try done; lia.
Qed.

(** ** Running fs.c over the block layer *)

Section Run.
Context {D : Type} {TL : TxLayer D}.
Implicit Types (s : fstate D) (v : tview).

Lemma wp_blk {A} (m : M D A) (Q : A -> fstate D -> Prop) s :
  wp m (fun a d => Q a (with_blk d s)) (fs_blk s) -> wp (blk m) Q s.
Proof. apply wp_zoom. Qed.

Lemma in_use_size v : (size (in_use v) <= size (tv_held v) + size (tv_log v))%nat.
Proof.
  unfold in_use. rewrite size_union_alt, size_dom.
  assert (size (tv_log v ∖ dom (tv_held v)) <= size (tv_log v))%nat by (apply subseteq_size; set_solver). lia.
Qed.

Lemma wp_tbread s v sec (Q : nat -> fstate D -> Prop) :
  tsees (fs_blk s) v -> home v sec -> tv_held v !! sec = None ->
  (size (tv_held v) <= 2)%nat -> (size (tv_log v) + 3 <= Bio.NBUF)%nat ->
  (forall b d, tsees d (t_hold sec b v) -> Q b (with_blk d s)) ->
  wp (blk (bread 1 sec)) Q s.
Proof.
  intros Hv Hs Hh Hn Hl HQ. apply wp_blk. eapply wp_mono; [apply (bread_law _ v sec); try done|].
  - pose proof (in_use_size v). lia.
  - intros b d. apply HQ.
Qed.

Lemma wp_tbdata s v sec b (Q : list Z -> fstate D -> Prop) :
  tsees (fs_blk s) v -> tv_held v !! sec = Some b -> home v sec ->
  Q (tv_content v sec) s -> wp (blk (bdata b)) Q s.
Proof.
  intros Hv Hb Hs HQ. apply wp_blk. eapply wp_mono; [by apply (bdata_law _ v b sec)|].
  intros x d [-> ->]. by destruct s.
Qed.

Lemma wp_tbrelse s v sec b (Q : unit -> fstate D -> Prop) :
  tsees (fs_blk s) v -> tv_held v !! sec = Some b -> sec ∉ tv_dirty v ->
  (forall d, tsees d (t_release sec v) -> Q tt (with_blk d s)) -> wp (blk (brelse b)) Q s.
Proof.
  intros Hv Hb Hd HQ. apply wp_blk. eapply wp_mono; [by apply (brelse_law _ v b sec)|]. intros [] d. apply HQ.
Qed.

Lemma release_hold v v' sec b :
  tview_eq v' (t_hold sec b v) -> tv_held v !! sec = None -> tview_eq (t_release sec v') v.
Proof.
  intros [E1 E2 E3 E4 E5 E6 E7] Hn. split; simpl; try done. rewrite E2. simpl. by apply delete_insert_id.
Qed.

(** [bread], look at the data, [brelse]: nothing changes. *)
Lemma wp_release_read s v sec b (Q : unit -> fstate D -> Prop) :
  tsees (fs_blk s) (t_hold sec b v) -> tv_held v !! sec = None -> tv_dirty v = ∅ ->
  (forall d, tsees d v -> Q tt (with_blk d s)) -> wp (blk (brelse b)) Q s.
Proof.
  intros Hv Hn Hd HQ. eapply wp_tbrelse; [exact Hv|apply lookup_insert_eq|simpl; set_solver|].
  intros d Hv'. apply HQ. eapply tsees_ext; [exact Hv'|]. by apply (release_hold v (t_hold sec b v) sec b).
Qed.

(** Modify a held block, log it and release it. *)
Lemma wp_write_nested s v sec b d X k (Q : unit -> fstate D -> Prop) :
  tsees (fs_blk s) (t_hold sec b v) -> tv_held v !! sec = None -> home v sec -> plan v X k -> sec ∈ X ->
  length d = Bio.BSIZE ->
  (forall c, tsees c (t_write sec d v) -> Q tt (with_blk c s)) ->
  wp (blk (set_bdata b d)) (fun _ => wp (blk (log_write b)) (fun _ => wp (blk (brelse b)) Q)) s.
Proof.
  intros Hv Hn Hs [[C1 C2 C3] P1 P2 P3] HX Hd HQ.
  assert (Hb : tv_held (t_hold sec b v) !! sec = Some b) by apply lookup_insert_eq.
  assert (Hsz : (size (tv_held (t_hold sec b v)) <= 2)%nat).
  { simpl. rewrite map_size_insert_None by done. lia. }
  apply wp_blk. eapply wp_mono; [by apply (set_bdata_law _ (t_hold sec b v) b sec d)|]. intros [] c1 H1.
  set (v1 := t_put sec d (t_hold sec b v)) in *.
  apply wp_blk. eapply wp_mono; [apply (log_write_law _ v1 b sec); try done|].
  - simpl. rewrite C1. set_solver.
  - simpl. assert (size (tv_log v) <= size (tv_log v ∪ X))%nat by (apply subseteq_size; set_solver). lia.
  - pose proof (in_use_size v1). simpl in *. lia.
  - intros [] c2 H2. eapply wp_tbrelse; [exact H2|done|simpl; set_solver|].
    intros c3 H3. apply (HQ c3). eapply tsees_ext; [exact H3|]. split; simpl; try done.
    by apply delete_insert_id.
Qed.

Lemma wp_write_release s v sec b d X k (Q : unit -> fstate D -> Prop) :
  tsees (fs_blk s) (t_hold sec b v) -> tv_held v !! sec = None -> home v sec -> plan v X k -> sec ∈ X ->
  length d = Bio.BSIZE ->
  (forall c, tsees c (t_write sec d v) -> Q tt (with_blk c s)) ->
  wp (blk (set_bdata b d) ;;; blk (log_write b) ;;; blk (brelse b)) Q s.
Proof.
  intros Hv Hn Hs P HX Hd HQ. apply wp_bind. eapply wp_mono; [by apply (wp_write_nested s v sec b d X k Q)|].
  intros [] s' H. by apply wp_bind.
Qed.

Lemma wp_assoc {A} (m1 m2 m3 : M (fstate D) unit) (k : M (fstate D) A) Q s :
  wp (m1 ;;; m2 ;;; m3) (fun _ => wp k Q) s -> wp (m1 ;;; m2 ;;; m3 ;;; k) Q s.
Proof.
  unfold wp, bind. destruct (m1 s) as [[] s1| |]; [|done..]. destruct (m2 s1) as [[] s2| |]; [|done..].
  by destruct (m3 s2) as [[] s3| |].
Qed.
End Run.

(** ** The free bitmap *)

(** The blocks before the data: boot and super block, inodes, bitmap. *)
Definition data_start (sb : Log.superblock) : Z := Log.sb_size sb / BPB + Log.sb_ninodes sb / IPB + 4.

Definition bitmap_block (sb : Log.superblock) (b : Z) : Z := BBLOCK b (Log.sb_ninodes sb).
Definition allocated (sb : Log.superblock) (v : tview) (b : Z) : bool :=
  bit_set (tv_content v (bitmap_block sb b)) (b mod BPB).

(** A file system: the super block, and the metadata blocks are marked in use. *)
Record fs_ok (sb : Log.superblock) (v : tview) : Prop := {
  fk_sb : Log.decode_sb (tv_content v 1) = sb;
  fk_ninodes : 0 <= Log.sb_ninodes sb;
  fk_size : 0 < tv_size v <= Log.sb_size sb;
  fk_int : Log.sb_size sb < 2147483648;
  fk_meta : data_start sb <= tv_size v;
  fk_marked : forall b, 0 <= b < data_start sb -> allocated sb v b = true
}.

(** Buffers are held for allocated data blocks only. *)
Definition holds_data (sb : Log.superblock) (v : tview) : Prop :=
  forall sec b, tv_held v !! sec = Some b -> data_start sb <= sec < tv_size v /\ allocated sb v sec = true.

Lemma bitmap_range sb b :
  0 <= b < Log.sb_size sb -> 0 <= Log.sb_ninodes sb ->
  Log.sb_ninodes sb / IPB + 3 <= bitmap_block sb b < data_start sb.
Proof. unfold bitmap_block, BBLOCK, data_start, BPB, IPB. intros H1 H2. dlia. Qed.

Lemma bitmap_index sb b b' :
  0 <= b -> 0 <= b' -> bitmap_block sb b = bitmap_block sb b' -> b mod BPB = b' mod BPB -> b = b'.
Proof. unfold bitmap_block, BBLOCK, BPB. intros H1 H2 H3 H4. dlia. Qed.

(** The bit of [a] set or cleared in its bitmap block. *)
Definition mark_block (sb : Log.superblock) (a : Z) (v : tview) : tview :=
  t_write (bitmap_block sb a) (mark_bit (tv_content v (bitmap_block sb a)) (a mod BPB)) v.
Definition clear_block (sb : Log.superblock) (a : Z) (v : tview) : tview :=
  t_write (bitmap_block sb a) (clear_bit (tv_content v (bitmap_block sb a)) (a mod BPB)) v.

Section Bitmap.
Context {D : Type} {TL : TxLayer D} (sb : Log.superblock) (d : D) (v : tview).
Context (Hv : tsees d v) (OK : fs_ok sb v).

Lemma meta_home sec : 0 <= sec < data_start sb -> home v sec.
Proof. pose proof (fk_meta _ _ OK). unfold home. lia. Qed.

Lemma bitmap_home b : 0 <= b < Log.sb_size sb -> home v (bitmap_block sb b) /\ bitmap_block sb b <> 1.
Proof.
  intros Hb. pose proof (fk_ninodes _ _ OK) as Hn. pose proof (bitmap_range sb b Hb Hn) as Hr.
  assert (0 <= Log.sb_ninodes sb / IPB) by (unfold IPB; dlia). split; [apply meta_home; lia|lia].
Qed.

Lemma bitmap_len b : 0 <= b < Log.sb_size sb ->
  0 <= b mod BPB /\ b mod BPB / 8 < Z.of_nat (length (tv_content v (bitmap_block sb b))).
Proof.
  intros Hb. rewrite (tsees_length d v) by (done || by apply bitmap_home). unfold BPB, Bio.BSIZE. dlia.
Qed.

Lemma allocated_mark a b :
  0 <= a < Log.sb_size sb -> 0 <= b < Log.sb_size sb ->
  allocated sb (mark_block sb a v) b = (a =? b) || allocated sb v b.
Proof.
  intros Ha Hb. unfold allocated, mark_block. simpl. unfold upd. case_decide as E; simpl.
  - destruct (bitmap_len a Ha). rewrite bit_set_mark by (done || (unfold BPB; dlia)). rewrite <- E. f_equal.
    destruct (Z.eqb_spec a b) as [->|Hne]; [by apply Z.eqb_eq|]. apply Z.eqb_neq. intros H'.
    apply Hne. apply (bitmap_index sb); [lia|lia|done|done].
  - destruct (Z.eqb_spec a b) as [->|Hne]; [done|]. done.
Qed.

Lemma allocated_clear a b :
  0 <= a < Log.sb_size sb -> 0 <= b < Log.sb_size sb ->
  allocated sb (clear_block sb a v) b = negb (a =? b) && allocated sb v b.
Proof.
  intros Ha Hb. unfold allocated, clear_block. simpl. unfold upd. case_decide as E; simpl.
  - destruct (bitmap_len a Ha). rewrite bit_set_clear by (done || (unfold BPB; dlia)). rewrite <- E. f_equal.
    f_equal. destruct (Z.eqb_spec a b) as [->|Hne]; [by apply Z.eqb_eq|]. apply Z.eqb_neq. intros H'.
    apply Hne. apply (bitmap_index sb); [lia|lia|done|done].
  - destruct (Z.eqb_spec a b) as [->|Hne]; [done|]. done.
Qed.

(** Writing a data block leaves the metadata alone. *)
Lemma allocated_write sec x b :
  data_start sb <= sec -> 0 <= b < Log.sb_size sb ->
  allocated sb (t_write sec x v) b = allocated sb v b.
Proof.
  intros Hs Hb. pose proof (bitmap_range sb b Hb (fk_ninodes _ _ OK)).
  unfold allocated. simpl. unfold upd. by rewrite decide_False by lia.
Qed.

Lemma fs_ok_write sec x : data_start sb <= sec -> fs_ok sb (t_write sec x v).
Proof.
  intros Hs. pose proof OK as [H1 H2 H3 Hi H4 H5].
  assert (1 < data_start sb) by (unfold data_start, BPB, IPB in *; dlia).
  split; simpl; try done.
  - unfold upd. by rewrite decide_False by lia.
  - intros b Hb. rewrite allocated_write by (done || lia). by apply H5.
Qed.

Lemma fs_ok_mark a : 0 <= a < Log.sb_size sb -> fs_ok sb (mark_block sb a v).
Proof.
  intros Ha. pose proof OK as [H1 H2 H3 Hi H4 H5]. destruct (bitmap_home a Ha) as [_ Hn1].
  split; simpl; try done.
  - unfold upd. by rewrite decide_False by lia.
  - intros b Hb. rewrite allocated_mark by lia. rewrite H5 by done. apply orb_true_r.
Qed.

Lemma fs_ok_clear a : data_start sb <= a < Log.sb_size sb -> fs_ok sb (clear_block sb a v).
Proof.
  intros Ha. pose proof OK as [H1 H2 H3 Hi H4 H5].
  assert (0 < data_start sb) by (unfold data_start, BPB, IPB in *; dlia).
  destruct (bitmap_home a ltac:(lia)) as [_ Hn1]. split; simpl; try done.
  - unfold upd. by rewrite decide_False by lia.
  - intros b Hb. rewrite allocated_clear by lia. rewrite H5 by done.
    by rewrite (proj2 (Z.eqb_neq a b)) by lia.
Qed.

Lemma mark_len a : 0 <= a < Log.sb_size sb ->
  length (mark_bit (tv_content v (bitmap_block sb a)) (a mod BPB)) = Bio.BSIZE /\
  length (clear_bit (tv_content v (bitmap_block sb a)) (a mod BPB)) = Bio.BSIZE.
Proof.
  intros Ha. unfold mark_bit, clear_bit. rewrite !length_insert.
  split; apply (tsees_length d v); by apply bitmap_home || done.
Qed.
End Bitmap.

(** ** [balloc] and [bfree] *)

Section Alloc.
Context {D : Type} {TL : TxLayer D} (sb : Log.superblock).
Implicit Types (s : fstate D) (v : tview).

Lemma held_meta v sec : holds_data sb v -> sec < data_start sb -> tv_held v !! sec = None.
Proof.
  intros Hh Hs. destruct (tv_held v !! sec) as [b|] eqn:E; [|done]. destruct (Hh sec b E). lia.
Qed.

Lemma held_free v sec : holds_data sb v -> allocated sb v sec = false -> tv_held v !! sec = None.
Proof.
  intros Hh Hs. destruct (tv_held v !! sec) as [b|] eqn:E; [|done]. destruct (Hh sec b E). congruence.
Qed.

Lemma readsb_wp s v (Q : Log.superblock -> fstate D -> Prop) :
  tsees (fs_blk s) v -> fs_ok sb v -> holds_data sb v -> calm v ->
  (forall d, tsees d v -> Q sb (with_blk d s)) -> wp (readsb 1) Q s.
Proof.
  intros Hv OK Hh [C1 C2 C3] HQ. unfold readsb.
  assert (Hd1 : 1 < data_start sb) by (destruct OK; unfold data_start, BPB, IPB in *; dlia).
  assert (H1 : home v 1) by (apply (meta_home sb v OK); lia).
  assert (Hn : tv_held v !! 1 = None) by (apply held_meta; done || lia).
  apply wp_bind. eapply wp_tbread; [exact Hv|done|done|lia|done|]. intros b d1 Hd.
  apply wp_bind. eapply wp_tbdata; [exact Hd|apply lookup_insert_eq|done|].
  apply wp_bind. eapply wp_release_read; [exact Hd|done|done|]. intros d2 H2. apply wp_ret.
  simpl tv_content. rewrite (fk_sb _ _ OK). apply (HQ d2 H2).
Qed.

Lemma bzero_wp s v a X k (Q : unit -> fstate D -> Prop) :
  tsees (fs_blk s) v -> home v a -> tv_held v !! a = None -> plan v X k -> a ∈ X ->
  (forall d, tsees d (t_write a (replicate Bio.BSIZE 0) v) -> Q tt (with_blk d s)) -> wp (bzero 1 a) Q s.
Proof.
  intros Hv Ha Hn P HX HQ. unfold bzero. pose proof P as [[C1 C2 C3] _ _ _].
  apply wp_bind. eapply wp_tbread; [exact Hv|done|done|lia|done|]. intros b d1 Hd.
  apply (wp_write_release _ v a b _ X k); try done.
Qed.

(** [a] is the lowest free block. *)
Definition lowest_free (v : tview) (a : Z) : Prop :=
  0 <= a < Log.sb_size sb /\ allocated sb v a = false /\ forall b, 0 <= b < a -> allocated sb v b = true.

Lemma lowest_data v a : fs_ok sb v -> lowest_free v a -> data_start sb <= a.
Proof.
  intros OK (Ha & Hf & _). destruct (decide (a < data_start sb)); [|lia].
  rewrite (fk_marked _ _ OK) in Hf by lia. done.
Qed.

(** The view after [a] was allocated. *)
Definition t_alloc (a : Z) (v : tview) : tview :=
  t_write a (replicate Bio.BSIZE 0) (mark_block sb a v).

Lemma balloc_loop_wp fuel s v a X k b (Q : Z -> fstate D -> Prop) :
  tsees (fs_blk s) v -> fs_ok sb v -> holds_data sb v -> lowest_free v a -> home v a ->
  plan v X k -> bitmap_block sb a ∈ X -> a ∈ X ->
  0 <= b <= a -> b mod BPB = 0 -> a / BPB - b / BPB < Z.of_nat fuel ->
  (forall d, tsees d (t_alloc a v) -> Q a (with_blk d s)) ->
  wp (balloc_loop fuel 1 sb b) Q s.
Proof.
  intros Hv OK Hh Hlow Hhome P HX1 HX2. pose proof Hlow as (Ha & Hf & Hlt).
  pose proof P as [[C1 C2 C3] _ _ _]. pose proof (lowest_data v a OK Hlow) as Hda.
  revert s Hv b. induction fuel as [|fuel IH]; intros s Hv b Hb Hb0 Hfuel HQ; [unfold BPB in *; dlia|].
  cbn [balloc_loop]. rewrite (proj2 (Z.ltb_lt b (Log.sb_size sb))) by lia.
  change (BBLOCK b (Log.sb_ninodes sb)) with (bitmap_block sb b).
  destruct (bitmap_home sb v OK b ltac:(lia)) as [Hbh _].
  pose proof (bitmap_range sb b ltac:(lia) (fk_ninodes _ _ OK)) as Hbr.
  assert (Hbn : tv_held v !! bitmap_block sb b = None) by (apply held_meta; done || lia).
  apply wp_bind. eapply wp_tbread; [exact Hv|done|done|lia|done|]. intros bp d1 Hd1.
  apply wp_bind. eapply wp_tbdata; [exact Hd1|apply lookup_insert_eq|done|]. simpl tv_content.
  set (data := tv_content v (bitmap_block sb b)).
  pose proof (free_bit_spec (Z.to_nat BPB) data b 0 (Log.sb_size sb) ltac:(lia) ltac:(unfold BPB; lia)) as Hfb.
  assert (Hbit : forall j, 0 <= j < BPB -> b + j < Log.sb_size sb -> bit_set data j = allocated sb v (b + j)).
  { intros j Hj Hjs. unfold allocated. replace ((b + j) mod BPB) with j by (unfold BPB in *; dlia).
    replace (bitmap_block sb (b + j)) with (bitmap_block sb b); [done|].
    unfold bitmap_block, BBLOCK, BPB in *. dlia. }
  destruct (free_bit (Z.to_nat BPB) data b 0 (Log.sb_size sb)) as [bi|].
  - destruct Hfb as (H1 & H2 & H3 & H4). rewrite Hbit in H3 by (done || lia).
    assert (Eab : b + bi = a).
    { destruct (decide (b + bi < a)); [rewrite Hlt in H3 by lia; done|].
      destruct (decide (a < b + bi)); [|lia]. exfalso.
      assert (bit_set data (a - b) = true) as Hc by (apply H4; lia).
      rewrite Hbit in Hc by lia. replace (b + (a - b)) with a in Hc by lia. congruence. }
    assert (Ebi : bi = a mod BPB) by (unfold BPB in *; dlia).
    assert (Ebb : bitmap_block sb b = bitmap_block sb a) by (unfold bitmap_block, BBLOCK, BPB in *; dlia).
    apply wp_assoc. unfold data. rewrite Ebb, Ebi in *.
    apply (wp_write_release _ v (bitmap_block sb a) bp _ X k); try done.
    { by apply (mark_len sb (fs_blk s) v). }
    intros d2 Hd2. fold (mark_block sb a v) in Hd2. rewrite Eab.
    apply wp_bind. apply (bzero_wp _ (mark_block sb a v) a X k); try done.
    + by apply (held_free v).
    + by apply plan_write.
  - apply wp_bind. eapply wp_release_read; [exact Hd1|done|done|]. intros d2 Hd2.
    assert (Hnext : b + BPB <= a).
    { destruct (decide (a < b + BPB)); [|lia]. exfalso.
      assert (bit_set data (a - b) = true) as Hc by (apply Hfb; lia).
      rewrite Hbit in Hc by lia. replace (b + (a - b)) with a in Hc by lia. congruence. }
    apply IH; simpl; try done; unfold BPB in *; try lia; try dlia.
Qed.

Lemma balloc_wp s v a X k (Q : Z -> fstate D -> Prop) :
  tsees (fs_blk s) v -> fs_ok sb v -> holds_data sb v -> lowest_free v a -> home v a ->
  plan v X k -> bitmap_block sb a ∈ X -> a ∈ X ->
  (forall d, tsees d (t_alloc a v) -> Q a (with_blk d s)) ->
  wp (balloc 1) Q s.
Proof.
  intros Hv OK Hh Hlow Hhome P HX1 HX2 HQ. unfold balloc. pose proof P as [C _ _ _].
  apply wp_bind. apply (readsb_wp s v); try done. intros d1 Hd1.
  apply (balloc_loop_wp _ _ v a X k); try done.
  - destruct Hlow; lia.
  - destruct Hlow as [? _]. unfold BPB. dlia.
Qed.

(** ** [bfree] *)

Lemma bfree_wp s v a X k (Q : unit -> fstate D -> Prop) :
  tsees (fs_blk s) v -> fs_ok sb v -> holds_data sb v -> 0 <= a < Log.sb_size sb -> allocated sb v a = true ->
  plan v X k -> bitmap_block sb a ∈ X ->
  (forall d, tsees d (clear_block sb a v) -> Q tt (with_blk d s)) ->
  wp (bfree 1 a) Q s.
Proof.
  intros Hv OK Hh Ha Hal P HX HQ. unfold bfree. pose proof P as [C _ _ _]. pose proof C as [C1 C2 C3].
  apply wp_bind. apply (readsb_wp s v); try done. intros d1 Hd1.
  change (BBLOCK a (Log.sb_ninodes sb)) with (bitmap_block sb a).
  destruct (bitmap_home sb v OK a ltac:(lia)) as [Hbh _].
  pose proof (bitmap_range sb a ltac:(lia) (fk_ninodes _ _ OK)) as Hbr.
  assert (Hbn : tv_held v !! bitmap_block sb a = None) by (apply held_meta; done || lia).
  apply wp_bind. eapply wp_tbread; [exact Hd1|done|done|lia|done|]. intros bp d2 Hd2.
  apply wp_bind. eapply wp_tbdata; [exact Hd2|apply lookup_insert_eq|done|]. simpl tv_content.
  fold (allocated sb v a). rewrite Hal. simpl negb. cbv iota.
  apply (wp_write_release _ v (bitmap_block sb a) bp _ X k); try done.
  by apply (mark_len sb (fs_blk s) v).
Qed.

(** ** The panics *)

Lemma bind_panic {A B} (m : M (fstate D) A) (k : A -> M (fstate D) B) msg s :
  wp m (fun a s' => k a s' = Panic msg) s -> bind m k s = Panic msg.
Proof. unfold wp, bind. by destruct (m s). Qed.

Lemma balloc_loop_panics fuel s v b :
  tsees (fs_blk s) v -> fs_ok sb v -> holds_data sb v -> calm v -> 0 <= b ->
  (forall c, 0 <= c < Log.sb_size sb -> allocated sb v c = true) -> b mod BPB = 0 ->
  balloc_loop fuel 1 sb b s = Panic "balloc: out of blocks".
Proof.
  intros Hv OK Hh [C1 C2 C3] Hb Hall. revert s Hv b Hb.
  induction fuel as [|fuel IH]; intros s Hv b Hb Hb0; [done|]. cbn [balloc_loop].
  destruct (Z.ltb_spec b (Log.sb_size sb)) as [Hlt|]; [|done].
  change (BBLOCK b (Log.sb_ninodes sb)) with (bitmap_block sb b).
  destruct (bitmap_home sb v OK b ltac:(lia)) as [Hbh _].
  pose proof (bitmap_range sb b ltac:(lia) (fk_ninodes _ _ OK)) as Hbr.
  assert (Hbn : tv_held v !! bitmap_block sb b = None) by (apply held_meta; done || lia).
  apply bind_panic. eapply wp_tbread; [exact Hv|done|done|lia|done|]. intros bp d1 Hd1.
  apply bind_panic. eapply wp_tbdata; [exact Hd1|apply lookup_insert_eq|done|].
  change (tv_content (t_hold (bitmap_block sb b) bp v) (bitmap_block sb b)) with (tv_content v (bitmap_block sb b)).
  set (data := tv_content v (bitmap_block sb b)).
  pose proof (free_bit_spec (Z.to_nat BPB) data b 0 (Log.sb_size sb) ltac:(lia) ltac:(unfold BPB; lia)) as Hfb.
  destruct (free_bit (Z.to_nat BPB) data b 0 (Log.sb_size sb)) as [bi|].
  - destruct Hfb as (H1 & H2 & H3 & _). specialize (Hall (b + bi) ltac:(lia)).
    exfalso. revert Hall. apply not_true_iff_false. rewrite <- H3. unfold allocated, data.
    replace ((b + bi) mod BPB) with bi by (unfold BPB in *; dlia).
    replace (bitmap_block sb (b + bi)) with (bitmap_block sb b); [done|].
    unfold bitmap_block, BBLOCK, BPB in *. dlia.
  - apply bind_panic. eapply wp_release_read; [exact Hd1|done|done|]. intros d2 Hd2.
    apply IH; [done|unfold BPB; lia|unfold BPB in *; dlia].
Qed.

Lemma balloc_panics s v :
  tsees (fs_blk s) v -> fs_ok sb v -> holds_data sb v -> calm v ->
  (forall c, 0 <= c < Log.sb_size sb -> allocated sb v c = true) ->
  balloc 1 s = Panic "balloc: out of blocks".
Proof.
  intros Hv OK Hh C Hall. unfold balloc. apply bind_panic. apply (readsb_wp s v); try done.
  intros d1 Hd1. by apply (balloc_loop_panics _ _ v).
Qed.

Lemma bfree_panics s v a :
  tsees (fs_blk s) v -> fs_ok sb v -> holds_data sb v -> calm v -> 0 <= a < Log.sb_size sb ->
  allocated sb v a = false -> bfree 1 a s = Panic "freeing free block".
Proof.
  intros Hv OK Hh C Ha Hal. pose proof C as [C1 C2 C3]. unfold bfree.
  apply bind_panic. apply (readsb_wp s v); try done. intros d1 Hd1.
  change (BBLOCK a (Log.sb_ninodes sb)) with (bitmap_block sb a).
  destruct (bitmap_home sb v OK a ltac:(lia)) as [Hbh _].
  pose proof (bitmap_range sb a ltac:(lia) (fk_ninodes _ _ OK)) as Hbr.
  assert (Hbn : tv_held v !! bitmap_block sb a = None) by (apply held_meta; done || lia).
  apply bind_panic. eapply wp_tbread; [exact Hd1|done|done|lia|done|]. intros bp d2 Hd2.
  apply bind_panic. eapply wp_tbdata; [exact Hd2|apply lookup_insert_eq|done|].
  change (tv_content (t_hold (bitmap_block sb a) bp v) (bitmap_block sb a)) with (tv_content v (bitmap_block sb a)).
  fold (allocated sb v a). by rewrite Hal.
Qed.
End Alloc.

End FsAlloc.
