(* ===== verification/FsFile.v ===== *)
(** * File contents: bmap, readi and writei of fs.c

    A file is the bytes its inode reaches through the direct and indirect block
    numbers.  The lemmas show what [bmap], [readi] and [writei] do to the bytes of
    a file, allocation of direct, indirect and data blocks included. *)

From S2P Require Import Prelude Bio Log Blocks Fs FsAlloc.

Module FsFile.
Import Blocks Fs FsAlloc.

(** ** The lowest free block *)

Lemma lowest_false (f : Z -> bool) (n : nat) :
  (exists b, 0 <= b < Z.of_nat n /\ f b = false) ->
  exists a, 0 <= a < Z.of_nat n /\ f a = false /\ forall b, 0 <= b < a -> f b = true.
Proof.
  assert (H : (exists a, 0 <= a < Z.of_nat n /\ f a = false /\ forall b, 0 <= b < a -> f b = true) \/
              forall b, 0 <= b < Z.of_nat n -> f b = true).
  { induction n as [|n [(a & Ha & Hfa & Hl)|IH]].
    - right. intros b Hb. lia.
    - left. exists a. split_and!; try done; lia.
    - destruct (f (Z.of_nat n)) eqn:E.
      + right. intros b Hb. destruct (decide (b = Z.of_nat n)) as [->|]; [done|]. apply IH. lia.
      + left. exists (Z.of_nat n). split_and!; [lia|lia|done|done]. }
  intros (b & Hb & Hf). destruct H as [H|H]; [done|]. rewrite H in Hf by done. done.
Qed.

(** At least [k] home blocks are free. *)
Definition free_blocks (sb : Log.superblock) (v : tview) (k : nat) : Prop :=
  exists F : gset Z, (k <= size F)%nat /\ forall b, b ∈ F -> home v b /\ allocated sb v b = false.

Lemma free_lowest sb v k :
  fs_ok sb v -> free_blocks sb v (S k) ->
  exists a, lowest_free sb v a /\ data_start sb <= a < tv_size v.
Proof.
  intros OK (F & Hk & HF). destruct (size_pos_elem_of F) as [b Hb]; [lia|].
  destruct (HF b Hb) as [Hh Hf]. pose proof (fk_size _ _ OK) as Hs. unfold home in Hh.
  destruct (lowest_false (allocated sb v) (Z.to_nat (tv_size v))) as (a & Ha & Hfa & Hl).
  { exists b. split; [lia|done]. }
  exists a. assert (Hlow : lowest_free sb v a) by (split_and!; [lia|lia|done|done]).
  split; [done|]. pose proof (lowest_data sb v a OK Hlow). lia.
Qed.

(** ** What an allocation does *)

Section AllocEffects.
Context {D : Type} {TL : TxLayer D} (sb : Log.superblock) (d : D) (v : tview) (a : Z).
Context (Hv : tsees d v) (OK : fs_ok sb v) (Hh : holds_data sb v).
Context (Hlow : lowest_free sb v a) (Ha : data_start sb <= a < tv_size v).

Lemma alloc_fs_ok : fs_ok sb (t_alloc sb a v).
Proof. destruct Hlow. apply fs_ok_write; [|lia]. by apply (fs_ok_mark sb d v). Qed.

Lemma alloc_allocated b :
  0 <= b < Log.sb_size sb -> allocated sb (t_alloc sb a v) b = (a =? b) || allocated sb v b.
Proof.
  intros Hb. destruct Hlow as [Hla _]. unfold t_alloc. rewrite allocated_write; [|by apply (fs_ok_mark sb d v)|lia|done].
  by apply (allocated_mark sb d v).
Qed.

Lemma alloc_content sec :
  data_start sb <= sec -> sec <> a -> tv_content (t_alloc sb a v) sec = tv_content v sec.
Proof.
  intros Hs Hne. destruct Hlow as [Hla _]. pose proof (bitmap_range sb a Hla (fk_ninodes _ _ OK)).
  unfold t_alloc, mark_block. simpl. unfold upd. rewrite !decide_False by lia. done.
Qed.

Lemma alloc_meta sec :
  sec < data_start sb -> sec <> bitmap_block sb a -> tv_content (t_alloc sb a v) sec = tv_content v sec.
Proof.
  intros Hs Hne. unfold t_alloc, mark_block. simpl. unfold upd. rewrite !decide_False by lia. done.
Qed.

Lemma alloc_zero : tv_content (t_alloc sb a v) a = replicate Bio.BSIZE 0.
Proof. unfold t_alloc. simpl. unfold upd. by rewrite decide_True. Qed.

Lemma alloc_holds : holds_data sb (t_alloc sb a v).
Proof.
  intros sec b Hb. destruct (Hh sec b Hb) as [Hr Hal]. split; [done|].
  pose proof (fk_size _ _ OK). assert (0 < data_start sb) by (destruct OK; unfold data_start, BPB, IPB in *; dlia).
  rewrite alloc_allocated by lia. rewrite Hal. apply orb_true_r.
Qed.

Lemma alloc_plan X k :
  plan v X k -> bitmap_block sb a ∈ X -> a ∈ X -> plan (t_alloc sb a v) X k.
Proof. intros P H1 H2. apply plan_write; [|done]. by apply plan_write. Qed.

Lemma alloc_free k : free_blocks sb v (S k) -> free_blocks sb (t_alloc sb a v) k.
Proof.
  intros (F & Hk & HF). exists (F ∖ {[a]}). split.
  - assert (size F <= S (size (F ∖ {[a]})))%nat; [|lia].
    transitivity (size ({[a]} ∪ F ∖ {[a]})); [apply subseteq_size; intros x; destruct (decide (x = a)); set_solver|].
    apply Log.size_add.
  - intros b [Hb Hn]%elem_of_difference. destruct (HF b Hb) as [Hhm Hf]. split; [done|].
    pose proof (fk_size _ _ OK). unfold home in Hhm. rewrite alloc_allocated by lia.
    rewrite Hf, (proj2 (Z.eqb_neq a b)); [done|]. set_solver.
Qed.
End AllocEffects.

(** ** The blocks of a file *)

Definition ind (d : dinode) : Z := addr 12 d.

(** The block number of block [bn] of a file, 0 if there is none. *)
Definition block_of (v : tview) (d : dinode) (bn : Z) : Z :=
  if bn <? NDIRECT then addr (Z.to_nat bn) d
  else if ind d =? 0 then 0 else get_addr (tv_content v (ind d)) (bn - NDIRECT).

Lemma get_put_addr data i j a :
  length data = Bio.BSIZE -> 0 <= i < NINDIRECT -> 0 <= j < NINDIRECT -> is_u32 a ->
  get_addr (put_addr data i a) j = if j =? i then a else get_addr data j.
Proof.
  unfold NINDIRECT, Bio.BSIZE, get_addr, put_addr, le32. intros Hl Hi Hj Ha.
  destruct (Z.eqb_spec j i) as [->|Hne].
  - rewrite <- (length_le_bytes 4 a) at 2. rewrite window_splice_same by (rewrite length_le_bytes, Hl; lia).
    rewrite le_val_bytes. change (256 ^ Z.of_nat 4) with 4294967296. apply Z.mod_small. exact Ha.
  - rewrite window_splice_ne; rewrite ?length_le_bytes, ?Hl; done || lia.
Qed.

Lemma get_addr_zero j : 0 <= j < NINDIRECT -> get_addr (replicate Bio.BSIZE 0) j = 0.
Proof.
  intros Hj. unfold get_addr, le32, window. rewrite drop_replicate, take_replicate.
  induction (_ `min` _)%nat as [|n IH]; [done|]. simpl. lia.
Qed.

Lemma length_put_addr data i a :
  length data = Bio.BSIZE -> 0 <= i < NINDIRECT -> length (put_addr data i a) = Bio.BSIZE.
Proof.
  intros Hl Hi. unfold put_addr. rewrite length_splice; [done|].
  rewrite length_le_bytes, Hl. unfold Bio.BSIZE, NINDIRECT in *. lia.
Qed.

(** The blocks of a file are allocated data blocks, each used once. *)
Record wf_blocks (sb : Log.superblock) (v : tview) (d : dinode) : Prop := {
  wb_len : length (d_addrs d) = 13%nat;
  wb_data : forall bn, 0 <= bn < MAXFILE -> block_of v d bn <> 0 ->
    data_start sb <= block_of v d bn < tv_size v /\ allocated sb v (block_of v d bn) = true;
  wb_ind : ind d <> 0 -> data_start sb <= ind d < tv_size v /\ allocated sb v (ind d) = true;
  wb_inj : forall bn bn', 0 <= bn < MAXFILE -> 0 <= bn' < MAXFILE ->
    block_of v d bn = block_of v d bn' -> block_of v d bn <> 0 -> bn = bn';
  wb_ind_ne : forall bn, 0 <= bn < MAXFILE -> ind d <> 0 -> block_of v d bn <> ind d
}.

Lemma addr_set i a d j :
  (i < length (d_addrs d))%nat -> addr j (set_addr i a d) = if decide (j = i) then a else addr j d.
Proof.
  intros Hi. unfold addr, set_addr. simpl. case_decide as E.
  - subst. by rewrite list_lookup_insert_eq.
  - by rewrite list_lookup_insert_ne.
Qed.

Section FileAlloc.
Context {D : Type} {TL : TxLayer D} (sb : Log.superblock) (s : D) (v : tview) (d : dinode) (a : Z).
Context (Hv : tsees s v) (OK : fs_ok sb v) (Hh : holds_data sb v).
Context (Hlow : lowest_free sb v a) (Ha : data_start sb <= a < tv_size v) (W : wf_blocks sb v d).

Lemma alloc_pos : 0 < a.
Proof. destruct OK. unfold data_start, BPB, IPB in *. dlia. Qed.

Lemma alloc_not_block bn : 0 <= bn < MAXFILE -> block_of v d bn <> a.
Proof.
  intros Hb E. destruct Hlow as (_ & Hf & _). pose proof alloc_pos.
  destruct (wb_data _ _ _ W bn Hb) as [_ Hal]; [lia|]. congruence.
Qed.

Lemma alloc_not_ind : ind d <> a.
Proof.
  intros E. destruct Hlow as (_ & Hf & _). pose proof alloc_pos.
  destruct (wb_ind _ _ _ W) as [_ Hal]; [lia|]. congruence.
Qed.

Let v1 := t_alloc sb a v.

(** The blocks of the file after the allocation alone. *)
Lemma alloc_block_of bn : 0 <= bn < MAXFILE -> block_of v1 d bn = block_of v d bn.
Proof.
  intros Hb. unfold block_of. destruct (bn <? NDIRECT); [done|]. destruct (Z.eqb_spec (ind d) 0); [done|].
  f_equal. destruct (wb_ind _ _ _ W) as [Hr _]; [done|].
  apply (alloc_content sb v a); try done; [lia|apply alloc_not_ind].
Qed.

Lemma alloc_kept b : 0 <= b < Log.sb_size sb -> allocated sb v b = true -> allocated sb v1 b = true.
Proof.
  intros Hb Hal. unfold v1. rewrite (alloc_allocated sb s v a) by done. rewrite Hal. apply orb_true_r.
Qed.

Lemma alloc_wf : wf_blocks sb v1 d.
Proof.
  pose proof (fk_size _ _ OK) as Hs. assert (0 < data_start sb) by (destruct OK; unfold data_start, BPB, IPB in *; dlia).
  split.
  - apply (wb_len _ _ _ W).
  - intros bn Hb. rewrite alloc_block_of by done. intros Hne. destruct (wb_data _ _ _ W bn Hb Hne) as [Hr Hal].
    split; [done|]. apply alloc_kept; [lia|done].
  - intros Hne. destruct (wb_ind _ _ _ W Hne) as [Hr Hal]. split; [done|]. apply alloc_kept; [lia|done].
  - intros bn bn' Hb Hb'. rewrite !alloc_block_of by done. by apply (wb_inj _ _ _ W).
  - intros bn Hb. rewrite alloc_block_of by done. by apply (wb_ind_ne _ _ _ W).
Qed.

Lemma alloc_new : data_start sb <= a < tv_size v1 /\ allocated sb v1 a = true.
Proof.
  split; [done|]. unfold v1. destruct Hlow. rewrite (alloc_allocated sb s v a) by done. by rewrite Z.eqb_refl.
Qed.

(** A new direct block. *)
Lemma alloc_direct i bn :
  (i < 12)%nat -> addr i d = 0 -> 0 <= bn < MAXFILE ->
  block_of v1 (set_addr i a d) bn = if bn =? Z.of_nat i then a else block_of v d bn.
Proof.
  intros Hi Hz Hb. pose proof (wb_len _ _ _ W) as Hl. unfold block_of at 1.
  assert (Hind : ind (set_addr i a d) = ind d) by (unfold ind; rewrite addr_set by lia; by rewrite decide_False by lia).
  rewrite Hind. destruct (Z.ltb_spec bn NDIRECT) as [Hlt|Hge].
  - rewrite addr_set by lia. destruct (Z.eqb_spec bn (Z.of_nat i)).
    + by rewrite decide_True by lia.
    + rewrite decide_False by lia. unfold block_of. by rewrite (proj2 (Z.ltb_lt _ _) Hlt).
  - rewrite (proj2 (Z.eqb_neq bn (Z.of_nat i))) by (unfold NDIRECT in *; lia).
    rewrite <- alloc_block_of by done. unfold block_of. by rewrite (proj2 (Z.ltb_ge _ _) Hge).
Qed.

(** A new indirect block. *)
Lemma alloc_indirect bn :
  ind d = 0 -> 0 <= bn < MAXFILE -> block_of v1 (set_addr 12 a d) bn = block_of v d bn.
Proof.
  intros Hz Hb. pose proof (wb_len _ _ _ W) as Hl. pose proof alloc_pos. unfold block_of.
  assert (Hind : ind (set_addr 12 a d) = a) by (unfold ind; rewrite addr_set by lia; by rewrite decide_True).
  rewrite Hind, Hz. destruct (Z.ltb_spec bn NDIRECT) as [Hlt|Hge].
  - rewrite addr_set by lia. by rewrite decide_False by (unfold NDIRECT in *; lia).
  - rewrite (proj2 (Z.eqb_neq a 0)) by lia. rewrite Z.eqb_refl.
    unfold v1. rewrite (alloc_zero sb v a). apply get_addr_zero. unfold MAXFILE, NDIRECT, NINDIRECT in *. lia.
Qed.
End FileAlloc.

(** ** Growing a file *)

(** The file system [v] with the inode [d] grew to [v'] with [d'] and only the data
    blocks [T] were written; the transaction may log [X] and [k] blocks more
    before, [X'] and [k'] more after. *)
Record growsT (sb : Log.superblock) (T : gset Z) (v : tview) (d : dinode) (X : gset Z) (k : nat)
    (v' : tview) (d' : dinode) (X' : gset Z) (k' : nat) : Prop := {
  e_ok : fs_ok sb v';
  e_holds : holds_data sb v';
  e_wf : wf_blocks sb v' d';
  e_plan : plan v' X' k';
  e_free : free_blocks sb v' k';
  e_sub : X ⊆ X';
  e_held : tv_held v' = tv_held v;
  e_size : tv_size v' = tv_size v;
  e_fields : d' = mkDinode (d_type d) (d_major d) (d_minor d) (d_nlink d) (d_size d) (d_addrs d');
  e_content : forall sec, data_start sb <= sec < tv_size v -> allocated sb v sec = true -> sec <> ind d ->
    sec ∉ T -> tv_content v' sec = tv_content v sec;
  e_meta : forall sec, sec < Log.sb_ninodes sb / IPB + 3 -> tv_content v' sec = tv_content v sec;
  e_alloc : forall b, 0 <= b < tv_size v -> allocated sb v b = true -> allocated sb v' b = true;
  e_keep : forall bn, 0 <= bn < MAXFILE -> block_of v d bn <> 0 -> block_of v' d' bn = block_of v d bn;
  e_ind : ind d <> 0 -> ind d' = ind d;
  e_ind_new : ind d' = ind d \/ (allocated sb v (ind d') = false /\ 0 <= ind d' < tv_size v /\ ind d' ∈ X');
  e_new : forall bn, 0 <= bn < MAXFILE -> block_of v d bn = 0 -> block_of v' d' bn <> 0 ->
    block_of v' d' bn ∈ X' /\ allocated sb v (block_of v' d' bn) = false
}.

Notation grows sb := (growsT sb ∅).

Lemma grows_refl sb v d X k :
  fs_ok sb v -> holds_data sb v -> wf_blocks sb v d -> plan v X k -> free_blocks sb v k ->
  grows sb v d X k v d X k.
Proof. intros. split; try done; [by destruct d|by left]. Qed.

Lemma growsT_trans sb T v d X k v1 d1 X1 k1 v2 d2 X2 k2 :
  growsT sb T v d X k v1 d1 X1 k1 -> growsT sb T v1 d1 X1 k1 v2 d2 X2 k2 -> growsT sb T v d X k v2 d2 X2 k2.
Proof.
  intros [A1 A2 A3 A4 A5 A6 A7 A8 A9 A10 A11 A12 A13 A14 A15 A16]
    [B1 B2 B3 B4 B5 B6 B7 B8 B9 B10 B11 B12 B13 B14 B15 B16].
  assert (0 < data_start sb) by (destruct A1; unfold data_start, BPB, IPB in *; dlia).
  split; try done.
  - set_solver.
  - congruence.
  - congruence.
  - rewrite B9, A9. done.
  - intros sec Hs Hal Hne HT. rewrite B10; [by apply A10|by rewrite A8|apply A12; [lia|done]| |done].
    destruct A15 as [->|[Hf _]]; [done|]. congruence.
  - intros sec Hs. by rewrite B11, A11.
  - intros b Hb Hal. rewrite A8 in B12. auto.
  - intros bn Hb Hne. rewrite B13, A13; try done. by rewrite A13.
  - intros Hne. rewrite B14, A14; try done. by rewrite A14.
  - destruct B15 as [->|(Hf & Hr & HX)].
    + destruct A15 as [->|(? & ? & ?)]; [by left|right]. split; [done|split; [done|set_solver]].
    + rewrite A8 in Hr. right. split; [|done].
      apply not_true_iff_false. intros Hal. rewrite A12 in Hf by done. done.
  - intros bn Hb Hz Hnz. destruct (decide (block_of v1 d1 bn = 0)) as [E|E].
    + destruct (B16 bn Hb E Hnz) as [HX Hf]. split; [done|].
      apply not_true_iff_false. intros Hal. rewrite A12 in Hf; [done| |done].
      destruct (wb_data _ _ _ B3 bn Hb Hnz). lia.
    + rewrite B13 by done. destruct (A16 bn Hb Hz E). split; [by apply B6|done].
Qed.

Lemma growsT_sub sb T T' v d X k v1 d1 X1 k1 :
  growsT sb T v d X k v1 d1 X1 k1 -> T ⊆ T' -> growsT sb T' v d X k v1 d1 X1 k1.
Proof.
  intros [A1 A2 A3 A4 A5 A6 A7 A8 A9 A10 A11 A12 A13 A14 A15 A16] HT. split; try done.
  intros sec Hs Hal Hne HnT. apply A10; try done. set_solver.
Qed.

Section Grow.
Context {D : Type} {TL : TxLayer D} (sb : Log.superblock) (s : D) (v : tview) (d : dinode) (a : Z).
Context (Hv : tsees s v) (OK : fs_ok sb v) (Hh : holds_data sb v).
Context (Hlow : lowest_free sb v a) (Ha : data_start sb <= a < tv_size v) (W : wf_blocks sb v d).
Context (X : gset Z) (k : nat) (P : plan v X (S k)) (F : free_blocks sb v (S k)).
Context (HB : forall b, 0 <= b < tv_size v -> bitmap_block sb b ∈ X).

Let v1 := t_alloc sb a v.

Lemma data_pos : 0 < data_start sb.
Proof. destruct OK. unfold data_start, BPB, IPB in *. dlia. Qed.

Lemma alloc_plan_add : plan v1 ({[a]} ∪ X) k.
Proof.
  pose proof data_pos. apply alloc_plan; [by apply plan_add| |set_solver].
  apply elem_of_union_r, HB. lia.
Qed.

(** A view whose file has one block more, [a] as block [bn0]. *)
Lemma wf_extend d' bn0 :
  length (d_addrs d') = 13%nat ->
  (forall bn, 0 <= bn < MAXFILE -> block_of v1 d' bn = if bn =? bn0 then a else block_of v d bn) ->
  (ind d' = ind d \/ ind d' = a /\ (forall bn, 0 <= bn < MAXFILE -> bn <> bn0)) ->
  wf_blocks sb v1 d'.
Proof.
  intros Hl Hbo Hind. pose proof (alloc_wf sb s v d a) as W1. specialize (W1 Hv OK Hlow Ha W).
  assert (Hold : forall bn, 0 <= bn < MAXFILE -> block_of v1 d bn = block_of v d bn)
    by (intros; by apply (alloc_block_of sb v d a)).
  pose proof (alloc_new sb s v a Hv OK Hlow Ha) as Hnew.
  assert (Hna : forall bn, 0 <= bn < MAXFILE -> block_of v d bn <> a)
    by (intros; by apply (alloc_not_block sb v d a)).
  assert (Hni : ind d <> a) by by apply (alloc_not_ind sb v d a).
  split; [done|..].
  - intros bn Hb. rewrite Hbo by done. destruct (bn =? bn0); [done|]. rewrite <- Hold by done. by apply W1.
  - destruct Hind as [->|[-> _]]; [apply W1|done].
  - intros bn bn' Hb Hb'. rewrite !Hbo by done.
    destruct (Z.eqb_spec bn bn0), (Z.eqb_spec bn' bn0); subst; try done.
    + intros E. by destruct (Hna bn' Hb').
    + intros E. by destruct (Hna bn Hb).
    + rewrite <- !Hold by done. by apply W1.
  - intros bn Hb. rewrite Hbo by done. destruct Hind as [->|[-> Hno]].
    + destruct (bn =? bn0); [done|]. rewrite <- Hold by done. by apply W1.
    + rewrite (proj2 (Z.eqb_neq bn bn0)) by by apply Hno. intros _. by apply Hna.
Qed.

Lemma bitmap_not_inode b : 0 <= b < tv_size v -> Log.sb_ninodes sb / IPB + 3 <= bitmap_block sb b < data_start sb.
Proof. intros Hb. pose proof (fk_size _ _ OK). apply bitmap_range; [lia|apply OK]. Qed.

Lemma grow_alloc d' :
  wf_blocks sb v1 d' ->
  d' = mkDinode (d_type d) (d_major d) (d_minor d) (d_nlink d) (d_size d) (d_addrs d') ->
  (forall bn, 0 <= bn < MAXFILE -> block_of v d bn <> 0 -> block_of v1 d' bn = block_of v d bn) ->
  (forall bn, 0 <= bn < MAXFILE -> block_of v d bn = 0 -> block_of v1 d' bn <> 0 -> block_of v1 d' bn = a) ->
  (ind d' = ind d \/ ind d = 0 /\ ind d' = a) ->
  grows sb v d X (S k) v1 d' ({[a]} ∪ X) k.
Proof.
  intros Hwf Hf Hk Hnew Hi. pose proof data_pos. pose proof (fk_size _ _ OK). destruct Hlow as (Hla & Hfree & _).
  pose proof (bitmap_not_inode a ltac:(lia)) as Hbr.
  split; try done.
  - by apply (alloc_fs_ok sb s v a).
  - by apply (alloc_holds sb s v a).
  - apply alloc_plan_add.
  - by apply (alloc_free sb s v a).
  - set_solver.
  - intros sec Hs Hal Hne _. apply (alloc_content sb v a); try done; [lia|]. intros ->. congruence.
  - intros sec Hs. apply (alloc_meta sb v a); lia.
  - intros b Hb Hal. apply (alloc_kept sb s v a); try done. lia.
  - destruct Hi as [->|[E ->]]; [done|]. intros Hne. congruence.
  - destruct Hi as [->|[E ->]]; [by left|right; split; [done|split; [lia|set_solver]]].
  - intros bn Hb Hz Hnz. rewrite (Hnew bn) by done. split; [set_solver|done].
Qed.

Lemma grow_direct i :
  (i < 12)%nat -> addr i d = 0 ->
  grows sb v d X (S k) v1 (set_addr i a d) ({[a]} ∪ X) k /\
  block_of v1 (set_addr i a d) (Z.of_nat i) = a.
Proof.
  intros Hi Hz. pose proof (wb_len _ _ _ W) as Hl.
  assert (Hbo : forall bn, 0 <= bn < MAXFILE ->
    block_of v1 (set_addr i a d) bn = if bn =? Z.of_nat i then a else block_of v d bn)
    by (intros; by apply (alloc_direct sb v d a)).
  assert (Hind : ind (set_addr i a d) = ind d) by (unfold ind; rewrite addr_set by lia; by rewrite decide_False by lia).
  split; [|rewrite Hbo by (unfold MAXFILE, NDIRECT, NINDIRECT; lia); by rewrite Z.eqb_refl].
  apply grow_alloc.
  - apply (wf_extend _ (Z.of_nat i)); [simpl; by rewrite length_insert|done|by left].
  - done.
  - intros bn Hb Hne. rewrite Hbo by done. destruct (Z.eqb_spec bn (Z.of_nat i)) as [->|]; [|done].
    exfalso. apply Hne. unfold block_of. rewrite (proj2 (Z.ltb_lt _ _)) by (unfold NDIRECT; lia).
    by rewrite Nat2Z.id.
  - intros bn Hb Hz0. rewrite Hbo by done. by destruct (bn =? Z.of_nat i).
  - by left.
Qed.

Lemma grow_indirect :
  ind d = 0 ->
  grows sb v d X (S k) v1 (set_addr 12 a d) ({[a]} ∪ X) k /\ ind (set_addr 12 a d) = a.
Proof.
  intros Hz. pose proof (wb_len _ _ _ W) as Hl.
  assert (Hbo : forall bn, 0 <= bn < MAXFILE -> block_of v1 (set_addr 12 a d) bn = block_of v d bn)
    by (intros; by apply (alloc_indirect sb v d a)).
  assert (Hind : ind (set_addr 12 a d) = a) by (unfold ind; rewrite addr_set by lia; by rewrite decide_True).
  split; [|done]. apply grow_alloc.
  - apply (wf_extend _ (-1)); [simpl; by rewrite length_insert| |right; split; [done|lia]].
    intros bn Hb. rewrite Hbo by done. by rewrite (proj2 (Z.eqb_neq bn (-1))) by lia.
  - done.
  - intros bn Hb Hne. by apply Hbo.
  - intros bn Hb Hz0. by rewrite Hbo.
  - by right.
Qed.

(** A new block entered in the indirect block. *)
Let v2 (bn : Z) := t_write (ind d) (put_addr (tv_content v (ind d)) (bn - NDIRECT) a) v1.

Lemma entry_block_of bn bn' :
  ind d <> 0 -> NDIRECT <= bn < MAXFILE -> 0 <= bn' < MAXFILE ->
  block_of (v2 bn) d bn' = if bn' =? bn then a else block_of v d bn'.
Proof.
  intros Hi Hb Hb'. pose proof (fk_size _ _ OK). pose proof (fk_int _ _ OK). pose proof data_pos.
  assert (Hlen : length (tv_content v (ind d)) = Bio.BSIZE).
  { apply (tsees_length s v); [done|]. destruct (wb_ind _ _ _ W Hi). unfold home. lia. }
  unfold block_of. destruct (Z.ltb_spec bn' NDIRECT) as [Hlt|Hge].
  - by rewrite (proj2 (Z.eqb_neq bn' bn)) by lia.
  - rewrite (proj2 (Z.eqb_neq (ind d) 0)) by done. unfold v2. simpl. unfold upd. rewrite decide_True by done.
    unfold MAXFILE in *. rewrite get_put_addr by (done || lia || (unfold is_u32; lia)).
    destruct (Z.eqb_spec (bn' - NDIRECT) (bn - NDIRECT)), (Z.eqb_spec bn' bn); lia || done.
Qed.

Lemma entry_allocated bn b :
  ind d <> 0 -> 0 <= b < Log.sb_size sb -> allocated sb (v2 bn) b = allocated sb v1 b.
Proof.
  intros Hi Hb. destruct (wb_ind _ _ _ W Hi) as [Hr _]. apply allocated_write; [|lia|done].
  by apply (alloc_fs_ok sb s v a).
Qed.

Lemma entry_wf bn :
  ind d <> 0 -> NDIRECT <= bn < MAXFILE -> wf_blocks sb (v2 bn) d.
Proof.
  intros Hi Hb. pose proof (alloc_wf sb s v d a Hv OK Hlow Ha W) as W1. fold v1 in W1.
  pose proof (fk_size _ _ OK). pose proof data_pos. pose proof (alloc_pos sb v a OK Ha).
  assert (Hold : forall x, 0 <= x < MAXFILE -> block_of v1 d x = block_of v d x)
    by (intros; by apply (alloc_block_of sb v d a)).
  assert (Hna : forall x, 0 <= x < MAXFILE -> block_of v d x <> a)
    by (intros; by apply (alloc_not_block sb v d a)).
  assert (Hni : ind d <> a) by by apply (alloc_not_ind sb v d a).
  destruct (alloc_new sb s v a Hv OK Hlow Ha) as [Hnr Hnal]. fold v1 in Hnr, Hnal.
  split.
  - apply (wb_len _ _ _ W).
  - intros x Hx. rewrite entry_block_of by done. destruct (x =? bn).
    + intros _. split; [done|]. rewrite entry_allocated; [done|done|simpl in *; lia].
    + rewrite <- Hold by done. intros Hne. destruct (wb_data _ _ _ W1 x Hx Hne) as [Hr Hal].
      split; [done|]. rewrite entry_allocated; [done|done|simpl in *; lia].
  - intros Hne. destruct (wb_ind _ _ _ W1 Hne) as [Hr Hal]. split; [done|].
    rewrite entry_allocated; [done|done|simpl in *; lia].
  - intros x x' Hx Hx'. rewrite !entry_block_of by done.
    destruct (Z.eqb_spec x bn), (Z.eqb_spec x' bn); subst; try done.
    + intros E. by destruct (Hna x' Hx').
    + intros E. by destruct (Hna x Hx).
    + rewrite <- !Hold by done. by apply W1.
  - intros x Hx _. rewrite entry_block_of by done. destruct (x =? bn); [done|].
    rewrite <- Hold by done. by apply W1.
Qed.

Lemma grow_entry bn :
  ind d <> 0 -> NDIRECT <= bn < MAXFILE -> block_of v d bn = 0 -> ind d ∈ X ->
  grows sb v d X (S k) (v2 bn) d ({[a]} ∪ X) k /\ block_of (v2 bn) d bn = a /\
  tv_content (v2 bn) a = replicate Bio.BSIZE 0.
Proof.
  intros Hi Hb Hz HX. pose proof data_pos. pose proof (fk_size _ _ OK).
  destruct (wb_ind _ _ _ W Hi) as [Hr Hial].
  assert (Hni : ind d <> a) by by apply (alloc_not_ind sb v d a).
  assert (Hother : forall sec, sec <> ind d -> tv_content (v2 bn) sec = tv_content v1 sec)
    by (intros sec Hne; unfold v2; simpl; unfold upd; by rewrite decide_False).
  assert (G : grows sb v d X (S k) v1 d ({[a]} ∪ X) k).
  { assert (Hbo : forall x, 0 <= x < MAXFILE -> block_of v1 d x = block_of v d x)
      by (intros; by apply (alloc_block_of sb v d a)).
    apply grow_alloc; [by apply (alloc_wf sb s v d a)|by destruct d|auto| |by left].
    intros x Hx Hz0. by rewrite Hbo. }
  split_and!.
  - destruct G as [A1 A2 A3 A4 A5 A6 A7 A8 A9 A10 A11 A12 A13 A14 A15 A16]. split; try done.
    + apply fs_ok_write; [done|lia].
    + intros sec b Hsb. destruct (A2 sec b Hsb) as [H1 H2]. split; [done|].
      rewrite entry_allocated; [done|done|simpl in *; lia].
    + by apply entry_wf.
    + apply plan_write; [done|by apply elem_of_union_r].
    + destruct A5 as (F' & HF1 & HF2). exists F'. split; [done|]. intros b Hbf. destruct (HF2 b Hbf) as [Hm Hf].
      split; [done|]. unfold home in Hm. rewrite entry_allocated; [done|done|simpl in *; lia].
    + intros sec Hs Hal Hne HT. rewrite Hother by done. by apply A10.
    + intros sec Hs. rewrite Hother; [by apply A11|].
      pose proof (bitmap_not_inode a ltac:(lia)). lia.
    + intros b Hbb Hal. rewrite entry_allocated by (done || lia). by apply A12.
    + intros x Hx Hne. rewrite entry_block_of by (done || lia).
      destruct (Z.eqb_spec x bn) as [->|]; [done|]. done.
    + intros x Hx Hz0. rewrite entry_block_of by (done || lia). destruct (x =? bn); [|done].
      intros _. split; [apply elem_of_union_l, elem_of_singleton; done|]. by destruct Hlow as (_ & ? & _).
  - rewrite entry_block_of by (done || (unfold MAXFILE, NDIRECT, NINDIRECT in *; lia)). by rewrite Z.eqb_refl.
  - rewrite Hother by done. apply (alloc_zero sb v a).
Qed.
End Grow.

(** ** [bmap] *)

Section Bmap.
Context {D : Type} {TL : TxLayer D} (sb : Log.superblock).
Implicit Types (s : fstate D) (v : tview).

Lemma wp_geti s ip x (Q : inode -> fstate D -> Prop) :
  icache s !! ip = Some x -> Q x s -> wp (geti ip) Q s.
Proof. intros Hx HQ. apply wp_gets. by rewrite Hx. Qed.

Lemma wp_updi s ip x f (Q : unit -> fstate D -> Prop) :
  icache s !! ip = Some x -> Q tt (mkFs (fs_blk s) (<[ip:=f x]> (icache s))) -> wp (updi ip f) Q s.
Proof. intros Hx HQ. apply wp_bind. apply (wp_geti _ _ x); [done|]. by apply wp_modify. Qed.

(** The new blocks [bmap] may need. *)
Definition bmap_need (v : tview) (d : dinode) (bn : Z) : nat :=
  if decide (block_of v d bn = 0) then
    if decide (NDIRECT <= bn /\ ind d = 0) then 2 else 1
  else 0.

(** All bitmap blocks may be logged. *)
Definition bitmap_in (v : tview) (X : gset Z) : Prop :=
  forall b, 0 <= b < tv_size v -> bitmap_block sb b ∈ X.

Lemma alloc_step s v X k (Q : Z -> fstate D -> Prop) :
  tsees (fs_blk s) v -> fs_ok sb v -> holds_data sb v -> plan v X (S k) -> free_blocks sb v (S k) ->
  bitmap_in v X ->
  (forall a c, lowest_free sb v a -> data_start sb <= a < tv_size v -> tsees c (t_alloc sb a v) ->
     Q a (mkFs c (icache s))) ->
  wp (balloc 1) Q s.
Proof.
  intros Hv OK Hh P F HB HQ. destruct (free_lowest sb v k OK F) as (a & Hlow & Ha).
  assert (0 < data_start sb) by (destruct OK; unfold data_start, BPB, IPB in *; dlia).
  apply (balloc_wp sb s v a ({[a]} ∪ X) k); try done.
  - unfold home. lia.
  - by apply plan_add.
  - apply elem_of_union_r, HB. lia.
  - set_solver.
  - intros c Hc. by apply HQ.
Qed.

(** The first half of the indirect branch: the indirect block. *)
Lemma bmap_ind s v d x ip X k (Q : Z -> fstate D -> Prop) :
  tsees (fs_blk s) v -> fs_ok sb v -> holds_data sb v -> wf_blocks sb v d ->
  icache s !! ip = Some x -> i_d x = d -> i_dev x = 1 ->
  plan v X k -> free_blocks sb v k -> bitmap_in v X ->
  ((if decide (ind d = 0)%Z then 1 else 0) <= k)%nat ->
  (forall c v' d' X' k', tsees c v' -> grows sb v d X k v' d' X' k' -> ind d' <> 0 ->
     (k <= k' + (if decide (ind d = 0)%Z then 1 else 0))%nat ->
     (forall bn, 0 <= bn < MAXFILE -> block_of v' d' bn = block_of v d bn) -> (ind d <> 0 -> d' = d) ->
     Q (ind d') (mkFs c (<[ip:=set_d d' x]> (icache s)))) ->
  wp (let a := addr (Z.to_nat NDIRECT) (i_d x) in
      if a =? 0 then
        let* a := balloc (i_dev x) in
        updi ip (fun x => set_d (set_addr (Z.to_nat NDIRECT) a (i_d x)) x) ;;;
        ret a
      else ret a) Q s.
Proof.
  intros Hv OK Hh W Hx Hd Hdev P F HB Hk HQ. rewrite Hd, Hdev. cbv zeta.
  change (addr (Z.to_nat NDIRECT) d) with (ind d). destruct (Z.eqb_spec (ind d) 0) as [Hz|Hnz].
  - rewrite decide_True in Hk, HQ by done. destruct k as [|k]; [lia|].
    apply wp_bind. apply (alloc_step s v X k); try done. intros a c Hlow Ha Hc.
    apply wp_bind. apply (wp_updi _ _ x); [done|]. apply wp_ret. rewrite Hd. simpl.
    change (Z.to_nat NDIRECT) with 12%nat.
    destruct (grow_indirect sb (fs_blk s) v d a Hv OK Hh Hlow Ha W X k P F HB Hz) as [G Hind].
    rewrite <- Hind at 1. pose proof (alloc_pos sb v a OK Ha).
    apply (HQ c (t_alloc sb a v) (set_addr 12 a d) ({[a]} ∪ X) k); try done; [lia|lia|].
    intros bn Hb. by apply (alloc_indirect sb v d a).
  - rewrite decide_False in Hk, HQ by done. apply wp_ret.
    replace s with (mkFs (fs_blk s) (<[ip:=set_d d x]> (icache s))).
    + apply (HQ (fs_blk s) v d X k); try done; [by apply grows_refl|lia].
    + destruct s as [b l]. simpl in *. f_equal. apply list_insert_id. rewrite Hx. f_equal.
      destruct x. simpl in *. by subst.
Qed.

(** What [bmap] of block [bn] achieves. *)
Record bmapped (v : tview) (d : dinode) (X : gset Z) (k : nat) (bn : Z)
    (v' : tview) (d' : dinode) (X' : gset Z) (k' : nat) : Prop := {
  bm_grows : grows sb v d X k v' d' X' k';
  bm_block : block_of v' d' bn <> 0;
  bm_need : (k <= k' + bmap_need v d bn)%nat;
  bm_zero : block_of v d bn = 0 -> tv_content v' (block_of v' d' bn) = replicate Bio.BSIZE 0;
  bm_same : block_of v d bn <> 0 -> d' = d
}.

Lemma plan_hold v X k sec b :
  plan v X k -> tv_held v = ∅ -> plan (t_hold sec b v) X k.
Proof.
  intros [[C1 C2 C3] P1 P2 P3] Hh. split; simpl; try done. split; simpl; try done.
  rewrite Hh. rewrite insert_empty, map_size_singleton. done.
Qed.

Lemma fs_ok_hold v sec b : fs_ok sb v -> fs_ok sb (t_hold sec b v).
Proof. intros [H1 H2 H3 H4 H5 H6]. by split. Qed.

Lemma holds_data_hold v sec b :
  holds_data sb v -> data_start sb <= sec < tv_size v -> allocated sb v sec = true ->
  holds_data sb (t_hold sec b v).
Proof.
  intros Hh Hs Hal x c Hx. simpl in Hx. apply lookup_insert_Some in Hx as [[<- <-]|[_ Hx]]; [done|]. by apply (Hh x c).
Qed.

(** The second half of the indirect branch: the entry of the indirect block. *)
Lemma bmap_entry s v d X k bn (Q : Z -> fstate D -> Prop) :
  tsees (fs_blk s) v -> fs_ok sb v -> holds_data sb v -> tv_held v = ∅ -> wf_blocks sb v d ->
  NDIRECT <= bn < MAXFILE -> ind d <> 0 -> ind d ∈ X ->
  plan v X k -> free_blocks sb v k -> bitmap_in v X ->
  ((if decide (block_of v d bn = 0)%Z then 1 else 0) <= k)%nat ->
  (forall c v' X' k', tsees c v' -> grows sb v d X k v' d X' k' -> block_of v' d bn <> 0 ->
     (k <= k' + (if decide (block_of v d bn = 0)%Z then 1 else 0))%nat ->
     (block_of v d bn = 0 -> tv_content v' (block_of v' d bn) = replicate Bio.BSIZE 0) ->
     Q (block_of v' d bn) (mkFs c (icache s))) ->
  wp (let* bp := blk (bread 1 (ind d)) in
      let* data := blk (bdata bp) in
      let* a :=
        (let a := get_addr data (bn - NDIRECT) in
         if a =? 0 then
           let* a := balloc 1 in
           blk (set_bdata bp (put_addr data (bn - NDIRECT) a)) ;;;
           blk (log_write bp) ;;;
           ret a
         else ret a) in
      blk (brelse bp) ;;;
      ret a) Q s.
Proof.
  intros Hv OK Hh Hne W Hbn Hi HiX P F HB Hk HQ. pose proof P as [[C1 C2 C3] _ _ _].
  destruct (wb_ind _ _ _ W Hi) as [Hir Hial].
  assert (0 < data_start sb) by (destruct OK; unfold data_start, BPB, IPB in *; dlia).
  assert (Hih : home v (ind d)) by (unfold home; lia).
  assert (Hin : tv_held v !! ind d = None) by (rewrite Hne; apply lookup_empty).
  assert (Hbo : get_addr (tv_content v (ind d)) (bn - NDIRECT) = block_of v d bn).
  { unfold block_of. rewrite (proj2 (Z.ltb_ge _ _)) by lia. by rewrite (proj2 (Z.eqb_neq (ind d) 0)). }
  apply wp_bind. eapply wp_tbread; [exact Hv|done|done|lia|done|]. intros b c1 Hc1.
  apply wp_bind. eapply wp_tbdata; [exact Hc1|apply lookup_insert_eq|done|]. simpl tv_content. cbv zeta.
  rewrite Hbo. apply wp_bind. destruct (Z.eqb_spec (block_of v d bn) 0) as [Hz|Hnz].
  - rewrite decide_True in Hk, HQ by done. destruct k as [|k]; [lia|]. apply wp_bind.
    apply (alloc_step _ (t_hold (ind d) b v) X k); try done.
    + by apply fs_ok_hold.
    + by apply holds_data_hold.
    + by apply plan_hold.
    + intros a c2 Hlow Ha Hc2. apply wp_bind.
      assert (Hal : plan (t_alloc sb a v) ({[a]} ∪ X) k).
      { simpl in Ha. apply alloc_plan; [by apply plan_add|apply elem_of_union_r, HB; lia|].
        apply elem_of_union_l, elem_of_singleton. done. }
      eapply wp_mono; [apply (wp_write_nested _ (t_alloc sb a v) (ind d) b _ ({[a]} ∪ X) k)|].
      * exact Hc2.
      * done.
      * done.
      * done.
      * by apply elem_of_union_r.
      * apply length_put_addr; [by apply (tsees_length (fs_blk s) v)|unfold MAXFILE in *; lia].
      * intros c3 Hc3.
        destruct (grow_entry sb (fs_blk s) v d a Hv OK Hh Hlow Ha W X k P F HB bn Hi Hbn Hz HiX) as (G & Hba & Hza).
        instantiate (1 := fun _ s' => Q a s'). cbn beta.
        rewrite <- Hba at 1. eapply (HQ c3 _ ({[a]} ∪ X) k); [exact Hc3|exact G| |lia|].
        -- rewrite Hba. pose proof (alloc_pos sb v a OK Ha). lia.
        -- intros _. by rewrite Hba.
      * intros [] s1 H1. apply wp_bind. eapply wp_mono; [exact H1|]. intros [] s2 H2. apply wp_ret.
        apply wp_bind. eapply wp_mono; [exact H2|]. intros [] s3 H3. by apply wp_ret.
  - rewrite decide_False in Hk, HQ by done. apply wp_ret. apply wp_bind.
    eapply wp_release_read; [exact Hc1|done|done|]. intros c2 Hc2. apply wp_ret.
    eapply (HQ c2 v X k); try done; [by apply grows_refl|lia].
Qed.

Lemma insert_same_inode s ip x d :
  icache s !! ip = Some x -> i_d x = d -> mkFs (fs_blk s) (<[ip:=set_d d x]> (icache s)) = s.
Proof.
  intros Hx Hd. destruct s as [b l]. simpl in *. f_equal. apply list_insert_id. rewrite Hx. f_equal.
  destruct x. simpl in *. by subst.
Qed.

Lemma bmap_wp s v ip x d X k bn (Q : Z -> fstate D -> Prop) :
  tsees (fs_blk s) v -> fs_ok sb v -> tv_held v = ∅ -> wf_blocks sb v d ->
  icache s !! ip = Some x -> i_d x = d -> i_dev x = 1 -> 0 <= bn < MAXFILE ->
  plan v X k -> free_blocks sb v k -> bitmap_in v X -> (bmap_need v d bn <= k)%nat ->
  (ind d <> 0 -> ind d ∈ X) ->
  (forall c v' d' X' k', tsees c v' -> bmapped v d X k bn v' d' X' k' ->
     Q (block_of v' d' bn) (mkFs c (<[ip:=set_d d' x]> (icache s)))) ->
  wp (bmap ip bn) Q s.
Proof.
  intros Hv OK Hne W Hx Hd Hdev Hbn P F HB Hk HiX HQ.
  assert (Hh : holds_data sb v) by (intros sec b; by rewrite Hne, lookup_empty).
  unfold bmap. apply wp_bind. apply (wp_geti _ _ x); [done|]. unfold bmap_need in Hk.
  destruct (Z.ltb_spec bn NDIRECT) as [Hlt|Hge].
  - rewrite Hd, Hdev. cbv zeta.
    assert (Hbo : addr (Z.to_nat bn) d = block_of v d bn) by (unfold block_of; by rewrite (proj2 (Z.ltb_lt _ _))).
    rewrite Hbo. destruct (Z.eqb_spec (block_of v d bn) 0) as [Hz|Hnz].
    + rewrite decide_True, decide_False in Hk by (done || lia). destruct k as [|k]; [lia|].
      apply wp_bind. apply (alloc_step s v X k); try done. intros a c Hlow Ha Hc.
      apply wp_bind. apply (wp_updi _ _ x); [done|]. apply wp_ret. rewrite Hd. simpl.
      assert (Hib : (Z.to_nat bn < 12)%nat) by (unfold NDIRECT in *; lia).
      destruct (grow_direct sb (fs_blk s) v d a Hv OK Hh Hlow Ha W X k P F HB (Z.to_nat bn) Hib) as [G Hba];
        [by rewrite Hbo|]. rewrite Z2Nat.id in Hba by lia.
      rewrite <- Hba at 1. apply (HQ c (t_alloc sb a v) _ ({[a]} ∪ X) k); [done|].
      pose proof (alloc_pos sb v a OK Ha). split; [done|lia| | |done].
      * unfold bmap_need. rewrite decide_True, decide_False by (done || lia). lia.
      * intros _. rewrite Hba. apply (alloc_zero sb v a).
    + apply wp_ret. rewrite <- (insert_same_inode s ip x d Hx Hd) at 1.
      apply (HQ _ v d X k); [done|]. split; [by apply grows_refl|done|lia|done|done].
  - rewrite (proj2 (Z.ltb_lt (bn - NDIRECT) NINDIRECT)) by (unfold MAXFILE in *; lia).
    assert (Hb0 : ind d = 0 -> block_of v d bn = 0).
    { intros E. unfold block_of. rewrite (proj2 (Z.ltb_ge _ _)) by lia. by rewrite (proj2 (Z.eqb_eq (ind d) 0)). }
    apply wp_bind. apply (bmap_ind s v d x ip X k); try done.
    { repeat case_decide; try lia; tauto. }
    intros c1 v1 d1 X1 k1 Hc1 G1 Hi1 Hk1 Hsame Hsd. rewrite Hdev.
    assert (HiX1 : ind d1 ∈ X1).
    { destruct (e_ind_new _ _ _ _ _ _ _ _ _ _ G1) as [E|(_ & _ & ?)]; [|done].
      rewrite E in *. apply (e_sub _ _ _ _ _ _ _ _ _ _ G1). by apply HiX. }
    apply (bmap_entry _ v1 d1 X1 k1 bn); try done; try apply G1.
    + by rewrite (e_held _ _ _ _ _ _ _ _ _ _ G1).
    + lia.
    + intros b Hb. rewrite (e_size _ _ _ _ _ _ _ _ _ _ G1) in Hb.
      by apply (e_sub _ _ _ _ _ _ _ _ _ _ G1), HB.
    + rewrite Hsame by done. repeat case_decide; try lia; tauto.
    + intros c2 v2 X2 k2 Hc2 G2 Hb2 Hk2 Hz2. simpl. rewrite Hsame in Hk2, Hz2 by done.
      apply (HQ c2 v2 d1 X2 k2); [done|]. split; [by eapply growsT_trans|done| |done|].
      * unfold bmap_need. repeat case_decide; try lia; tauto.
      * intros Hnz. apply Hsd. intros E. by apply Hnz, Hb0.
Qed.

End Bmap.

(** ** The bytes of a file *)

Definition fbyte (v : tview) (d : dinode) (i : Z) : Z :=
  default 0 (tv_content v (block_of v d (i / BSIZE)) !! Z.to_nat (i mod BSIZE)).
Definition file_data (v : tview) (d : dinode) : list Z := fbyte v d <$> seqZ 0 (d_size d).

(** A regular file or directory: well-formed blocks, and no holes below its size. *)
Record wf_file (sb : Log.superblock) (v : tview) (d : dinode) : Prop := {
  wf_blk : wf_blocks sb v d;
  wf_size : 0 <= d_size d <= MAXFILE * BSIZE;
  wf_full : forall bn, 0 <= bn -> bn * BSIZE < d_size d -> block_of v d bn <> 0;
  wf_type : d_type d <> T_DEV
}.

Lemma length_file_data v d : 0 <= d_size d -> Z.of_nat (length (file_data v d)) = d_size d.
Proof. intros H. unfold file_data. rewrite length_fmap, length_seqZ. lia. Qed.

Lemma lookup_file_data v d i :
  0 <= i < d_size d -> file_data v d !! Z.to_nat i = Some (fbyte v d i).
Proof.
  intros Hi. unfold file_data. rewrite list_lookup_fmap, lookup_seqZ_lt by lia. simpl. do 2 f_equal. lia.
Qed.

Lemma window_file_data v d off n :
  0 <= off -> 0 <= n -> off + n <= d_size d ->
  window (file_data v d) (Z.to_nat off) (Z.to_nat n) = fbyte v d <$> seqZ off n.
Proof.
  intros Ho Hn Hs. apply list_eq_same_length with (Z.to_nat n).
  - by rewrite length_fmap, length_seqZ.
  - rewrite length_window; [done|]. pose proof (length_file_data v d). lia.
  - intros i x y Hi. rewrite lookup_window by lia.
    replace (Z.to_nat off + i)%nat with (Z.to_nat (off + Z.of_nat i)) by lia.
    rewrite lookup_file_data by lia. rewrite list_lookup_fmap, lookup_seqZ_lt by lia. simpl. congruence.
Qed.

(** The part of a block that belongs to the bytes from [off] on. *)
Lemma window_block v d off m :
  0 <= off -> 0 <= m -> off mod BSIZE + m <= BSIZE ->
  length (tv_content v (block_of v d (off / BSIZE))) = Bio.BSIZE ->
  window (tv_content v (block_of v d (off / BSIZE))) (Z.to_nat (off mod BSIZE)) (Z.to_nat m) =
  fbyte v d <$> seqZ off m.
Proof.
  unfold BSIZE, Bio.BSIZE. intros Ho Hm Hs Hl. apply list_eq_same_length with (Z.to_nat m).
  - by rewrite length_fmap, length_seqZ.
  - rewrite length_window; [done|]. rewrite Hl. dlia.
  - intros i x y Hi. rewrite lookup_window by lia. rewrite list_lookup_fmap, lookup_seqZ_lt by lia. simpl.
    intros Hx [= <-]. unfold fbyte, BSIZE. replace ((off + Z.of_nat i) / 512) with (off / 512) by dlia.
    replace (Z.to_nat ((off + Z.of_nat i) mod 512)) with (Z.to_nat (off mod 512) + i)%nat by dlia.
    by rewrite Hx.
Qed.

Section Read.
Context {D : Type} {TL : TxLayer D} (sb : Log.superblock).
Implicit Types (s : fstate D) (v : tview).

Lemma block_home v d bn :
  fs_ok sb v -> wf_blocks sb v d -> 0 <= bn < MAXFILE -> block_of v d bn <> 0 -> home v (block_of v d bn).
Proof.
  intros OK W Hb Hne. destruct (wb_data _ _ _ W bn Hb Hne) as [Hr _].
  assert (0 < data_start sb) by (destruct OK; unfold data_start, BPB, IPB in *; dlia). unfold home. lia.
Qed.

(** [bmap] of a block that is there. *)
Lemma bmap_read_wp s v ip x d bn (Q : Z -> fstate D -> Prop) :
  tsees (fs_blk s) v -> fs_ok sb v -> calm v -> tv_held v = ∅ -> wf_blocks sb v d ->
  icache s !! ip = Some x -> i_d x = d -> i_dev x = 1 -> 0 <= bn < MAXFILE -> block_of v d bn <> 0 ->
  (forall c, tsees c v -> Q (block_of v d bn) (with_blk c s)) -> wp (bmap ip bn) Q s.
Proof.
  intros Hv OK [C1 C2 C3] Hne W Hx Hd Hdev Hbn Hb HQ. unfold bmap. apply wp_bind. apply (wp_geti _ _ x); [done|].
  rewrite Hd, Hdev. cbv zeta. unfold block_of in Hb, HQ. destruct (Z.ltb_spec bn NDIRECT) as [Hlt|Hge].
  - rewrite (proj2 (Z.eqb_neq _ _) Hb). apply wp_ret. specialize (HQ (fs_blk s) Hv). by destruct s.
  - rewrite (proj2 (Z.ltb_lt (bn - NDIRECT) NINDIRECT)) by (unfold MAXFILE in *; lia).
    change (addr (Z.to_nat NDIRECT) d) with (ind d). destruct (Z.eqb_spec (ind d) 0) as [Hz|Hnz]; [done|].
    apply wp_bind, wp_ret. destruct (wb_ind _ _ _ W Hnz) as [Hir _].
    assert (0 < data_start sb) by (destruct OK; unfold data_start, BPB, IPB in *; dlia).
    assert (Hih : home v (ind d)) by (unfold home; lia).
    assert (Hin : tv_held v !! ind d = None) by (rewrite Hne; apply lookup_empty).
    apply wp_bind. eapply wp_tbread; [exact Hv|done|done|lia|done|]. intros b c1 Hc1.
    apply wp_bind. eapply wp_tbdata; [exact Hc1|apply lookup_insert_eq|done|]. simpl tv_content.
    rewrite (proj2 (Z.eqb_neq _ _) Hb). apply wp_bind, wp_ret. apply wp_bind.
    eapply wp_release_read; [exact Hc1|done|done|]. intros c2 Hc2. apply wp_ret. apply (HQ c2 Hc2).
Qed.

Lemma readi_loop_wp fuel s v ip x d off n tot acc (Q : list Z -> fstate D -> Prop) :
  tsees (fs_blk s) v -> fs_ok sb v -> calm v -> tv_held v = ∅ -> wf_file sb v d ->
  icache s !! ip = Some x -> i_d x = d -> i_dev x = 1 -> 0 <= off -> 0 <= tot <= n ->
  off + (n - tot) <= d_size d -> n - tot <= Z.of_nat fuel ->
  (forall c, tsees c v -> Q (acc ++ (fbyte v d <$> seqZ off (n - tot))) (with_blk c s)) ->
  wp (readi_loop fuel ip off n tot acc) Q s.
Proof.
  intros Hv OK C Hne W Hx Hd Hdev. pose proof C as [C1 C2 C3]. revert s Hv Hx off tot acc.
  induction fuel as [|fuel IH]; intros s Hv Hx off tot acc Ho Ht Hs Hf HQ; simpl.
  - apply wp_ret. replace (n - tot) with 0 in HQ by lia. rewrite seqZ_nil, app_nil_r in HQ by lia.
    specialize (HQ _ Hv). by destruct s.
  - destruct (Z.ltb_spec tot n) as [Hlt|Hge].
    + apply wp_bind. apply (wp_geti _ _ x); [done|]. rewrite Hdev.
      pose proof (wf_size _ _ _ W) as Hsz.
      assert (Hbn : 0 <= off / BSIZE < MAXFILE) by (unfold BSIZE in *; dlia).
      assert (Hb : block_of v d (off / BSIZE) <> 0) by (apply (wf_full _ _ _ W); [lia|unfold BSIZE in *; dlia]).
      pose proof (block_home v d _ OK (wf_blk _ _ _ W) Hbn Hb) as Hbh.
      assert (Hbl : tv_held v !! block_of v d (off / BSIZE) = None) by (rewrite Hne; apply lookup_empty).
      apply wp_bind. apply (bmap_read_wp s v ip x d); try done; [by apply W|]. intros c1 Hc1.
      apply wp_bind. eapply wp_tbread; [exact Hc1|done|done|lia|done|]. intros b c2 Hc2.
      apply wp_bind. eapply wp_tbdata; [exact Hc2|apply lookup_insert_eq|done|]. simpl tv_content.
      apply wp_bind. eapply wp_release_read; [exact Hc2|done|done|]. intros c3 Hc3.
      set (m := Z.min (n - tot) (BSIZE - off mod BSIZE)).
      assert (Hm : 0 < m <= n - tot /\ off mod BSIZE + m <= BSIZE) by (unfold m, BSIZE in *; dlia).
      rewrite (window_block v d off m); [|lia|lia|lia|by apply (tsees_length (fs_blk s) v)].
      apply IH; [done|done|lia|lia|lia|lia|]. intros c4 Hc4. rewrite <- (assoc_L app), <- fmap_app.
      replace (n - (tot + m)) with (n - tot - m) by lia. rewrite <- seqZ_app by lia.
      replace (m + (n - tot - m)) with (n - tot) by lia. apply (HQ c4 Hc4).
    + apply wp_ret. replace (n - tot) with 0 in HQ by lia. rewrite seqZ_nil, app_nil_r in HQ by lia.
      specialize (HQ _ Hv). by destruct s.
Qed.

Context (devsw_read : Z -> option (nat -> Z -> M (fstate D) (Z * list Z))).

(** [readi] of a file: the bytes that are there, nothing past the end. *)
Lemma readi_wp s v ip x d off n (Q : Z * list Z -> fstate D -> Prop) :
  tsees (fs_blk s) v -> fs_ok sb v -> calm v -> tv_held v = ∅ -> wf_file sb v d ->
  icache s !! ip = Some x -> i_d x = d -> i_dev x = 1 ->
  0 <= off -> 0 <= n -> off + n < 4294967296 ->
  (forall c, tsees c v ->
     let n' := Z.min n (d_size d - off) in
     Q (if d_size d <? off then (-1, []) else (n', window (file_data v d) (Z.to_nat off) (Z.to_nat n')))
       (with_blk c s)) ->
  wp (readi devsw_read ip off n) Q s.
Proof.
  intros Hv OK C Hne W Hx Hd Hdev Ho Hn Hb HQ. unfold readi. apply wp_bind. apply (wp_geti _ _ x); [done|].
  rewrite Hd. cbv zeta. rewrite (proj2 (Z.eqb_neq _ _) (wf_type _ _ _ W)). cbv zeta in HQ.
  pose proof (wf_size _ _ _ W) as Hsz. rewrite (u32_small (off + n)) by (unfold is_u32; lia).
  destruct (Z.ltb_spec (d_size d) off) as [Hlt|Hge]; simpl.
  - apply wp_ret. specialize (HQ _ Hv). by destruct s.
  - rewrite (proj2 (Z.ltb_ge (off + n) off)) by lia. unfold MAXFILE, NDIRECT, NINDIRECT, BSIZE in Hsz.
    replace (if d_size d <? off + n then d_size d - off else n) with (Z.min n (d_size d - off))
      by (destruct (Z.ltb_spec (d_size d) (off + n)); lia).
    set (n' := Z.min n (d_size d - off)) in *. apply wp_bind.
    apply (readi_loop_wp _ s v ip x d); try done; try lia. intros c Hc. apply wp_ret. simpl.
    rewrite Z.sub_0_r, s32_small by lia. specialize (HQ c Hc).
    by rewrite window_file_data in HQ by lia.
Qed.
End Read.

End FsFile.
