(* ===== verification/FsWrite.v ===== *)
(** * writei of fs.c

    What writing a chunk into a block of a file does to the bytes of the file, the
    loop of [writei], and [writei] itself with the update of the inode on disk. *)

From S2P Require Import Prelude Bio Log Blocks Fs FsAlloc FsFile.

Module FsWrite.
Import Blocks Fs FsAlloc FsFile.

(** ** One chunk *)

Section Chunk.
Context {D : Type} {TL : TxLayer D} (sb : Log.superblock) (s : D) (v : tview) (d : dinode).
Context (Hv : tsees s v) (OK : fs_ok sb v) (W : wf_blocks sb v d) (off : Z) (chunk : list Z).

Let bn := off / BSIZE.
Let a := block_of v d bn.
Let m := Z.of_nat (length chunk).
Let v2 := t_write a (splice (tv_content v a) (Z.to_nat (off mod BSIZE)) chunk) v.

Context (Hoff : 0 <= off) (Hbn : bn < MAXFILE) (Ha : a <> 0) (Hm : off mod BSIZE + m <= BSIZE).

Lemma chunk_bn : 0 <= bn < MAXFILE.
Proof using All. unfold bn, BSIZE in *. dlia. Qed.

Lemma chunk_data : data_start sb <= a < tv_size v /\ allocated sb v a = true.
Proof using All. apply (wb_data _ _ _ W bn chunk_bn Ha). Qed.

Lemma chunk_length : length (tv_content v a) = Bio.BSIZE.
Proof using All.
  apply (tsees_length s v); [done|]. by apply (block_home sb v d bn OK W chunk_bn).
Qed.

Lemma chunk_new_length :
  length (splice (tv_content v a) (Z.to_nat (off mod BSIZE)) chunk) = Bio.BSIZE.
Proof using All.
  pose proof chunk_length as Hl. rewrite length_splice; [done|]. rewrite Hl. unfold BSIZE, Bio.BSIZE, m in *. dlia.
Qed.

Lemma chunk_block_of bn' : 0 <= bn' < MAXFILE -> block_of v2 d bn' = block_of v d bn'.
Proof using All.
  intros Hb. unfold block_of. destruct (bn' <? NDIRECT); [done|]. destruct (Z.eqb_spec (ind d) 0); [done|].
  f_equal. unfold v2. simpl. unfold upd. rewrite decide_False; [done|].
  intros E. by apply (wb_ind_ne _ _ _ W bn chunk_bn).
Qed.

Lemma chunk_fbyte i :
  0 <= i < MAXFILE * BSIZE ->
  fbyte v2 d i = if decide (off <= i < off + m) then default 0 (chunk !! Z.to_nat (i - off)) else fbyte v d i.
Proof using All.
  intros Hi. assert (Hib : 0 <= i / BSIZE < MAXFILE) by (unfold BSIZE in *; dlia).
  pose proof chunk_length as Hl. unfold fbyte. rewrite chunk_block_of by done.
  unfold v2. simpl. unfold upd. destruct (decide (block_of v d (i / BSIZE) = a)) as [E|E].
  - assert (Ebn : i / BSIZE = bn).
    { apply (wb_inj _ _ _ W); [done|apply chunk_bn|exact E|]. rewrite E. exact Ha. }
    rewrite lookup_splice by (rewrite Hl; unfold BSIZE, Bio.BSIZE, m in *; dlia). rewrite E. unfold bn, m, BSIZE in *.
    case_decide as H1; case_decide as H2; try done.
    + do 2 f_equal. dlia.
    + exfalso. apply H2. dlia.
    + exfalso. apply H1. dlia.
  - rewrite decide_False; [done|]. intros Hr. apply E. unfold a, bn, m, BSIZE in *. f_equal. dlia.
Qed.

Lemma chunk_grows X k :
  holds_data sb v -> plan v X k -> free_blocks sb v k -> a ∈ X -> growsT sb {[a]} v d X k v2 d X k.
Proof using All.
  intros Hh P F HX. destruct chunk_data as [Hr Hal]. pose proof (fk_size _ _ OK) as Hsz.
  assert (Hpos : 0 < data_start sb) by (destruct OK; unfold data_start, BPB, IPB in *; dlia).
  assert (Hall : forall b, 0 <= b < Log.sb_size sb -> allocated sb v2 b = allocated sb v b)
    by (intros b Hb; apply allocated_write; done || lia).
  assert (Hc : forall sec, sec <> a -> tv_content v2 sec = tv_content v sec)
    by (intros sec Hne; unfold v2; simpl; unfold upd; by rewrite decide_False).
  split; try done.
  - apply fs_ok_write; done || lia.
  - intros sec b Hb. destruct (Hh sec b Hb). split; [done|]. rewrite Hall by lia. done.
  - split.
    + apply W.
    + intros x Hx. rewrite chunk_block_of by done. intros Hne. destruct (wb_data _ _ _ W x Hx Hne).
      split; [done|]. by rewrite Hall by lia.
    + intros Hne. destruct (wb_ind _ _ _ W Hne). split; [done|]. by rewrite Hall by lia.
    + intros x x' Hx Hx'. rewrite !chunk_block_of by done. by apply W.
    + intros x Hx. rewrite chunk_block_of by done. by apply W.
  - by apply plan_write.
  - destruct F as (F & HF1 & HF2). exists F. split; [done|]. intros b Hb. destruct (HF2 b Hb) as [Hhm Hf].
    split; [done|]. unfold home in Hhm. by rewrite Hall by lia.
  - by destruct d.
  - intros sec Hs Hsal Hne HT. apply Hc. set_solver.
  - intros sec Hs. apply Hc. unfold data_start, BPB, IPB in *. dlia.
  - intros b Hb Hbal. by rewrite Hall by lia.
  - intros x Hx Hne. by apply chunk_block_of.
  - by left.
  - intros x Hx Hz. by rewrite chunk_block_of.
Qed.
End Chunk.

(** ** The blocks a range needs *)

Definition need_range (v : tview) (d : dinode) (bns : list Z) : nat :=
  length (filter (fun bn => block_of v d bn = 0) bns) + (if decide (ind d = 0) then 1 else 0).

Lemma filter_le (P Q : Z -> Prop) `{!forall x, Decision (P x), !forall x, Decision (Q x)} (l : list Z) :
  (forall x, x ∈ l -> P x -> Q x) -> (length (filter P l) <= length (filter Q l))%nat.
Proof.
  induction l as [|x l IH]; intros HPQ; [done|].
  assert (IH' : (length (filter P l) <= length (filter Q l))%nat) by (apply IH; set_solver).
  rewrite !filter_cons. repeat case_decide; simpl; try lia. exfalso. set_solver.
Qed.

Lemma need_bmap v d bn bns k :
  (need_range v d (bn :: bns) <= k)%nat -> (bmap_need v d bn <= k)%nat.
Proof.
  unfold need_range, bmap_need. rewrite filter_cons. repeat case_decide; simpl; try lia; tauto.
Qed.

Lemma need_step sb v d X k bn bns v' d' X' k' :
  bmapped sb v d X k bn v' d' X' k' -> Forall (fun b => 0 <= b < MAXFILE) bns -> 0 <= bn < MAXFILE ->
  (need_range v d (bn :: bns) <= k)%nat ->
  (need_range v' d' bns <= k')%nat.
Proof.
  intros [G Hb Hn _ _] Hbns Hbn Hk. rewrite Forall_forall in Hbns.
  assert (Hf : (length (filter (fun b => block_of v' d' b = 0%Z) bns) <= length (filter (fun b => block_of v d b = 0%Z) bns))%nat).
  { apply filter_le. intros b Hin Hz. destruct (decide (block_of v d b = 0)) as [|Hne]; [done|].
    by rewrite (e_keep _ _ _ _ _ _ _ _ _ _ G b (Hbns b Hin) Hne) in Hz. }
  assert (Hi : ind d <> 0 -> ind d' <> 0) by (intros H; by rewrite (e_ind _ _ _ _ _ _ _ _ _ _ G H)).
  assert (Hi2 : NDIRECT <= bn -> ind d' <> 0).
  { intros Hge Hz. apply Hb. unfold block_of. rewrite (proj2 (Z.ltb_ge _ _)) by lia. by rewrite (proj2 (Z.eqb_eq _ _)). }
  unfold need_range in *. unfold bmap_need in *. rewrite filter_cons in Hk.
  repeat case_decide; simpl in *; try lia; try tauto.
Qed.

(** ** The loop *)

(** The blocks of the [n] bytes from [off] on. *)
Definition block_range (off n : Z) : list Z :=
  if decide (n <= 0) then [] else seqZ (off / BSIZE) ((off + n - 1) / BSIZE - off / BSIZE + 1).

Lemma elem_of_block_range off n bn :
  0 <= off -> bn ∈ block_range off n <-> 0 < n /\ off / BSIZE <= bn <= (off + n - 1) / BSIZE.
Proof.
  intros Ho. unfold block_range. case_decide.
  - split; [by intros ?%not_elem_of_nil|lia].
  - rewrite elem_of_seqZ. lia.
Qed.

(** The first chunk takes the first block. *)
Lemma block_range_cons off n :
  0 <= off -> 0 < n ->
  let m := Z.min n (BSIZE - off mod BSIZE) in
  block_range off n = off / BSIZE :: block_range (off + m) (n - m).
Proof.
  intros Ho Hn m. unfold block_range. rewrite decide_False by lia. unfold m, BSIZE in *.
  rewrite seqZ_cons by dlia. f_equal. case_decide as Hc.
  - apply seqZ_nil. dlia.
  - replace (Z.min n (512 - off mod 512)) with (512 - off mod 512) by dlia.
    f_equal; unfold Z.succ, Z.pred; dlia.
Qed.

Lemma block_range_bounds off n :
  0 <= off -> off + n <= MAXFILE * BSIZE -> Forall (fun b => 0 <= b < MAXFILE) (block_range off n).
Proof.
  intros Ho Hn. apply Forall_forall. intros bn Hb%elem_of_block_range; [|done]. unfold BSIZE in *. dlia.
Qed.

(** [n] bytes of [src] were written at [off], into the blocks [T]. *)
Record written (sb : Log.superblock) (off n : Z) (src : list Z) (T : gset Z) (v : tview) (d : dinode) (X : gset Z) (k : nat)
    (v' : tview) (d' : dinode) (X' : gset Z) (k' : nat) : Prop := {
  wr_grows : growsT sb T v d X k v' d' X' k';
  wr_touched : forall sec, sec ∈ T -> exists bn, 0 <= bn < MAXFILE /\ sec = block_of v' d' bn /\ sec <> 0;
  wr_bytes : forall i, 0 <= i < MAXFILE * BSIZE -> off <= i < off + n \/ block_of v d (i / BSIZE) <> 0 ->
    fbyte v' d' i = if decide (off <= i < off + n) then default 0 (src !! Z.to_nat (i - off)) else fbyte v d i;
  wr_blocks : forall bn, bn ∈ block_range off n -> block_of v' d' bn <> 0;
  wr_same : (forall bn, bn ∈ block_range off n -> block_of v d bn <> 0) -> d' = d
}.

Lemma bmapped_fbyte sb v d X k bn v' d' X' k' i :
  wf_blocks sb v d -> bmapped sb v d X k bn v' d' X' k' -> 0 <= i < MAXFILE * BSIZE ->
  block_of v d (i / BSIZE) <> 0 -> fbyte v' d' i = fbyte v d i.
Proof.
  intros W [G _ _ _ _] Hi Hne. assert (Hib : 0 <= i / BSIZE < MAXFILE) by (unfold BSIZE in *; dlia).
  unfold fbyte. rewrite (e_keep _ _ _ _ _ _ _ _ _ _ G) by done.
  destruct (wb_data _ _ _ W _ Hib Hne) as [Hr Hal]. rewrite (e_content _ _ _ _ _ _ _ _ _ _ G); try done.
  destruct (decide (ind d = 0)) as [E|E]; [congruence|]. by apply (wb_ind_ne _ _ _ W).
Qed.

Lemma grow_ind_in sb T v d X k v' d' X' k' :
  growsT sb T v d X k v' d' X' k' -> (ind d <> 0 -> ind d ∈ X) -> ind d' <> 0 -> ind d' ∈ X'.
Proof.
  intros G HX Hne. destruct (e_ind_new _ _ _ _ _ _ _ _ _ _ G) as [E|(_ & _ & ?)]; [|done].
  rewrite E in *. by apply (e_sub _ _ _ _ _ _ _ _ _ _ G), HX.
Qed.

(** Blocks that may be logged before may be logged after. *)
Lemma grow_block_in sb T v d X k v' d' X' k' bn :
  growsT sb T v d X k v' d' X' k' -> 0 <= bn < MAXFILE ->
  (block_of v d bn <> 0 -> block_of v d bn ∈ X) -> block_of v' d' bn <> 0 -> block_of v' d' bn ∈ X'.
Proof.
  intros G Hb HX Hne. destruct (decide (block_of v d bn = 0)) as [E|E].
  - by apply (e_new _ _ _ _ _ _ _ _ _ _ G).
  - rewrite (e_keep _ _ _ _ _ _ _ _ _ _ G) by done. by apply (e_sub _ _ _ _ _ _ _ _ _ _ G), HX.
Qed.

Section WriteStep.
Context {D : Type} {TL : TxLayer D} (sb : Log.superblock) (s : D) (off n : Z) (src : list Z).
Context (v : tview) (d : dinode) (X : gset Z) (k : nat) (v1 : tview) (d1 : dinode) (X1 : gset Z) (k1 : nat).
Context (W : wf_blocks sb v d) (Hoff : 0 <= off) (Hn : 0 < n) (Hmax : off + n <= MAXFILE * BSIZE).
Context (B : bmapped sb v d X k (off / BSIZE) v1 d1 X1 k1) (Hv1 : tsees s v1).

Let a := block_of v1 d1 (off / BSIZE).
Let m := Z.min n (BSIZE - off mod BSIZE).
Let chunk := take (Z.to_nat m) src.
Let v2 := t_write a (splice (tv_content v1 a) (Z.to_nat (off mod BSIZE)) chunk) v1.

Context (Hsrc : n <= Z.of_nat (length src)) (Ha : a ∈ X1).

Lemma step_m : 0 < m <= n /\ off mod BSIZE + m <= BSIZE /\ Z.of_nat (length chunk) = m /\
  0 <= off / BSIZE < MAXFILE.
Proof using All.
  assert (Hm : 0 < m <= n /\ off mod BSIZE + m <= BSIZE) by (unfold m, BSIZE in *; dlia).
  split_and!; try lia.
  - unfold chunk. rewrite length_take. lia.
  - unfold BSIZE in *. dlia.
  - unfold BSIZE in *. dlia.
Qed.

Lemma step_grows : growsT sb {[a]} v1 d1 X1 k1 v2 d1 X1 k1.
Proof using All.
  destruct step_m as (Hm & Hmb & Hc & Hb). destruct B as [G Hne _ _ _].
  apply (chunk_grows sb s v1 d1); try done; try apply G; lia.
Qed.

Lemma step_fbyte i :
  0 <= i < MAXFILE * BSIZE ->
  fbyte v2 d1 i = if decide (off <= i < off + m) then default 0 (src !! Z.to_nat (i - off)) else fbyte v1 d1 i.
Proof using All.
  intros Hi. destruct step_m as (Hm & Hmb & Hc & Hb). destruct B as [G Hne _ _ _].
  assert (Hcf : fbyte v2 d1 i = if decide (off <= i < off + Z.of_nat (length chunk))
    then default 0 (chunk !! Z.to_nat (i - off)) else fbyte v1 d1 i)
    by (apply (chunk_fbyte sb s v1 d1); try done; try apply G; lia).
  rewrite Hcf, Hc. repeat case_decide; try done; try lia. unfold chunk. by rewrite lookup_take_lt by lia.
Qed.

Lemma step_block_of bn : 0 <= bn < MAXFILE -> block_of v2 d1 bn = block_of v1 d1 bn.
Proof using All.
  intros Hbn. destruct step_m as (Hm & Hmb & Hc & Hb). destruct B as [G Hne _ _ _].
  apply (chunk_block_of sb s v1 d1); try done; try apply G; lia.
Qed.

Lemma written_step T v3 d3 X3 k3 :
  written sb (off + m) (n - m) (drop (Z.to_nat m) src) T v2 d1 X1 k1 v3 d3 X3 k3 ->
  written sb off n src ({[a]} ∪ T) v d X k v3 d3 X3 k3.
Proof using All.
  intros [G3 HT Hby Hbl Hsm]. destruct step_m as (Hm & Hmb & Hc & Hb). pose proof step_grows as G2.
  pose proof B as [G Hne _ _ _].
  assert (Ga : growsT sb ({[a]} ∪ T) v d X k v3 d3 X3 k3).
  { eapply growsT_trans; [eapply growsT_trans|].
    - eapply growsT_sub; [exact G|set_solver].
    - eapply growsT_sub; [exact G2|set_solver].
    - eapply growsT_sub; [exact G3|set_solver]. }
  assert (Hkeep : forall bn, 0 <= bn < MAXFILE -> block_of v1 d1 bn <> 0 -> block_of v3 d3 bn = block_of v1 d1 bn).
  { intros bn Hbn Hnz. rewrite (e_keep _ _ _ _ _ _ _ _ _ _ G3) by (try done; by rewrite step_block_of).
    by apply step_block_of. }
  split; [done|..].
  - intros sec [->%elem_of_singleton|Hs]%elem_of_union; [|by apply HT].
    exists (off / BSIZE). split; [done|]. rewrite Hkeep by done. by split.
  - intros i Hi Hor. assert (Hib : 0 <= i / BSIZE < MAXFILE) by (unfold BSIZE in *; dlia).
    destruct (decide (off <= i < off + n)) as [Hr|Hr].
    + destruct (decide (off + m <= i)) as [Hr2|Hr2].
      * rewrite Hby by (done || (left; lia)). rewrite decide_True by lia.
        rewrite lookup_drop. do 2 f_equal. lia.
      * assert (Eb : i / BSIZE = off / BSIZE) by (unfold BSIZE in *; dlia).
        rewrite Hby; [|done|right; rewrite step_block_of by done; by rewrite Eb].
        rewrite decide_False by lia. rewrite step_fbyte by done. by rewrite decide_True by lia.
    + destruct Hor as [?|Hex]; [done|].
      rewrite Hby; [|done|right; rewrite step_block_of by done; by rewrite (e_keep _ _ _ _ _ _ _ _ _ _ G)].
      rewrite decide_False by lia. rewrite step_fbyte by done. rewrite decide_False by lia.
      by apply (bmapped_fbyte sb v d X k (off / BSIZE) v1 d1 X1 k1).
  - intros bn Hbn. pose proof (block_range_bounds off n Hoff Hmax) as HF. rewrite Forall_forall in HF.
    pose proof (HF bn Hbn) as Hbr. rewrite block_range_cons in Hbn by done. fold m in Hbn.
    apply elem_of_cons in Hbn as [->|Hbn]; [by rewrite Hkeep|]. by apply Hbl.
  - pose proof (block_range_bounds off n Hoff Hmax) as HF. rewrite Forall_forall in HF.
    rewrite block_range_cons in * by done. fold m in HF |- *. intros Hall.
    rewrite Hsm; [apply (bm_same _ _ _ _ _ _ _ _ _ _ B), Hall, list_elem_of_here|].
    intros bn Hbn. pose proof (list_elem_of_further bn (off / BSIZE) _ Hbn) as Hin.
    rewrite step_block_of by auto. rewrite (e_keep _ _ _ _ _ _ _ _ _ _ G) by auto. auto.
Qed.
End WriteStep.

Section WriteLoop.
Context {D : Type} {TL : TxLayer D} (sb : Log.superblock).
Implicit Types (s : fstate D) (v : tview).

(** What [writei] needs of the file system: room in the log for the blocks [X] and
    [k] new ones, and [k] free blocks. *)
Record can_write (v : tview) (d : dinode) (off n : Z) (X : gset Z) (k : nat) : Prop := {
  cw_ok : fs_ok sb v;
  cw_held : tv_held v = ∅;
  cw_wf : wf_blocks sb v d;
  cw_plan : plan v X k;
  cw_free : free_blocks sb v k;
  cw_bitmap : bitmap_in sb v X;
  cw_need : (need_range v d (block_range off n) <= k)%nat;
  cw_ind : ind d <> 0 -> ind d ∈ X;
  cw_blocks : forall bn, bn ∈ block_range off n -> block_of v d bn <> 0 -> block_of v d bn ∈ X
}.

Lemma written_none off n src v d X k :
  can_write v d off n X k -> n <= 0 -> written sb off n src ∅ v d X k v d X k.
Proof.
  intros [A1 A2 A3 A4 A5 A6 A7 A8 A9] Hn. split.
  - apply grows_refl; try done. intros sec b. by rewrite A2, lookup_empty.
  - intros sec Hs. set_solver.
  - intros i _ _. by rewrite decide_False by lia.
  - intros bn Hb. unfold block_range in Hb. rewrite decide_True in Hb by lia. by apply not_elem_of_nil in Hb.
  - done.
Qed.

(** The rest of the range after the first block. *)
Lemma can_write_next off n v d X k v1 d1 X1 k1 v2 T :
  can_write v d off n X k -> 0 <= off -> 0 < n -> off + n <= MAXFILE * BSIZE ->
  bmapped sb v d X k (off / BSIZE) v1 d1 X1 k1 -> growsT sb T v1 d1 X1 k1 v2 d1 X1 k1 ->
  (forall bn, 0 <= bn < MAXFILE -> block_of v2 d1 bn = block_of v1 d1 bn) ->
  let m := Z.min n (BSIZE - off mod BSIZE) in
  can_write v2 d1 (off + m) (n - m) X1 k1.
Proof.
  intros [A1 A2 A3 A4 A5 A6 A7 A8 A9] Ho Hn Hmax B G2 Hbo m. pose proof B as [G _ _ _ _].
  pose proof (block_range_bounds off n Ho Hmax) as HF. rewrite block_range_cons in HF, A7, A9 by done. fold m in HF, A7, A9.
  pose proof HF as [Hb HF']%Forall_cons. rewrite Forall_forall in HF. split; try apply G2.
  - by rewrite (e_held _ _ _ _ _ _ _ _ _ _ G2), (e_held _ _ _ _ _ _ _ _ _ _ G).
  - intros b Hbb. rewrite (e_size _ _ _ _ _ _ _ _ _ _ G2), (e_size _ _ _ _ _ _ _ _ _ _ G) in Hbb.
    by apply (e_sub _ _ _ _ _ _ _ _ _ _ G), A6.
  - transitivity (need_range v1 d1 (block_range (off + m) (n - m)));
      [|by apply (need_step sb v d X k (off / BSIZE) _ v1 d1 X1 k1)].
    unfold need_range. apply Nat.add_le_mono_r, filter_le. rewrite Forall_forall in HF'.
    intros x Hx. rewrite Hbo; [done|auto].
  - by apply (grow_ind_in sb ∅ v d X k v1 d1 X1 k1).
  - rewrite Forall_forall in HF'. intros bn Hbn. rewrite Hbo by auto.
    apply (grow_block_in sb ∅ v d X k v1 d1 X1 k1); [done|by apply HF'|].
    apply A9. by apply list_elem_of_further.
Qed.

Lemma set_d_twice d1 d2 x : set_d d2 (set_d d1 x) = set_d d2 x.
Proof. done. Qed.

Lemma writei_loop_wp fuel s v ip x d src off n tot X k (Q : unit -> fstate D -> Prop) :
  tsees (fs_blk s) v -> can_write v d off (n - tot) X k ->
  icache s !! ip = Some x -> i_d x = d -> i_dev x = 1 ->
  0 <= off -> 0 <= tot <= n -> off + (n - tot) <= MAXFILE * BSIZE -> n <= Z.of_nat (length src) ->
  n - tot <= Z.of_nat fuel ->
  (forall c T v' d' X' k', tsees c v' ->
     written sb off (n - tot) (drop (Z.to_nat tot) src) T v d X k v' d' X' k' ->
     Q tt (mkFs c (<[ip:=set_d d' x]> (icache s)))) ->
  wp (writei_loop fuel ip src off n tot) Q s.
Proof.
  revert s v x d off tot X k. induction fuel as [|fuel IH];
    intros s v x d off tot X k Hv CW Hx Hd Hdev Ho Ht Hmax Hsrc Hf HQ; simpl.
  - apply wp_ret. rewrite <- (insert_same_inode s ip x d Hx Hd).
    apply (HQ _ ∅ v d X k Hv). apply written_none; [done|lia].
  - destruct (Z.ltb_spec tot n) as [Hlt|Hge].
    2: { apply wp_ret. rewrite <- (insert_same_inode s ip x d Hx Hd).
         apply (HQ _ ∅ v d X k Hv). apply written_none; [done|lia]. }
    pose proof (block_range_bounds off (n - tot) Ho Hmax) as HF. pose proof CW as [A1 A2 A3 A4 A5 A6 A7 A8 A9].
    rewrite block_range_cons in HF, A7, A9 by lia. pose proof HF as [Hb HF']%Forall_cons.
    apply wp_bind. apply (wp_geti _ _ x); [done|]. rewrite Hdev. apply wp_bind.
    apply (bmap_wp sb s v ip x d X k (off / BSIZE)); try done; [by eapply need_bmap|].
    intros c1 v1 d1 X1 k1 Hc1 B. pose proof B as [G Hne _ _ _]. set (a := block_of v1 d1 (off / BSIZE)) in *.
    assert (Ha : a ∈ X1).
    { apply (grow_block_in sb ∅ v d X k v1 d1 X1 k1); try done. apply A9, list_elem_of_here. }
    pose proof (block_home sb v1 d1 _ (e_ok _ _ _ _ _ _ _ _ _ _ G) (e_wf _ _ _ _ _ _ _ _ _ _ G) Hb Hne) as Hah.
    assert (Hh1 : tv_held v1 = ∅) by by rewrite (e_held _ _ _ _ _ _ _ _ _ _ G).
    assert (Han : tv_held v1 !! a = None) by (rewrite Hh1; apply lookup_empty).
    pose proof (e_plan _ _ _ _ _ _ _ _ _ _ G) as P1. pose proof P1 as [[C1 C2 C3] _ _ _].
    apply wp_bind. eapply wp_tbread; [exact Hc1|done|done|lia|done|]. intros b c2 Hc2.
    apply wp_bind. eapply wp_tbdata; [exact Hc2|apply lookup_insert_eq|done|]. simpl tv_content.
    set (m := Z.min (n - tot) (BSIZE - off mod BSIZE)).
    assert (Hw : window src (Z.to_nat tot) (Z.to_nat m) = take (Z.to_nat m) (drop (Z.to_nat tot) src)) by done.
    assert (Hls : n - tot <= Z.of_nat (length (drop (Z.to_nat tot) src))) by (rewrite length_drop; lia).
    destruct (step_m sb c1 off (n - tot) (drop (Z.to_nat tot) src) v d X k v1 d1 X1 k1)
      as (Hm & Hmb & Hcl & _); try done; [lia|].
    apply wp_assoc. rewrite Hw.
    apply (wp_write_release _ v1 a b _ X1 k1); try done.
    { eapply (chunk_new_length sb c1 v1 d1 Hc1 (e_ok _ _ _ _ _ _ _ _ _ _ G) (e_wf _ _ _ _ _ _ _ _ _ _ G));
        try done; [lia|]. fold m in Hcl, Hmb. lia. }
    intros c3 Hc3. simpl. eapply (IH _ _ (set_d d1 x) d1 (off + m) (tot + m) X1 k1).
    + exact Hc3.
    + replace (n - (tot + m)) with (n - tot - m) by lia.
      eapply (can_write_next off (n - tot) v d X k v1 d1 X1 k1 _ {[a]}); try done; [lia| |].
      * apply (step_grows sb c1 off (n - tot) (drop (Z.to_nat tot) src) v d X k); try done. lia.
      * intros bn Hbn. apply (step_block_of sb c1 off (n - tot) (drop (Z.to_nat tot) src) v d X k v1 d1 X1 k1); try done. lia.
    + simpl. apply list_lookup_insert_eq. by eapply lookup_lt_Some.
    + done.
    + done.
    + lia.
    + lia.
    + lia.
    + done.
    + lia.
    + intros c4 T v4 d4 X4 k4 Hc4 HW. simpl. rewrite list_insert_insert_eq, set_d_twice.
      apply (HQ c4 ({[a]} ∪ T) v4 d4 X4 k4 Hc4).
      apply (written_step sb c1 off (n - tot) (drop (Z.to_nat tot) src) v d X k v1 d1 X1 k1); try done; [lia|].
      fold m. rewrite drop_drop. replace (n - tot - m) with (n - (tot + m)) by lia.
      by replace (Z.to_nat tot + Z.to_nat m)%nat with (Z.to_nat (tot + m)) by lia.
Qed.
End WriteLoop.

(** ** Inodes on disk *)

(** The fields fit the on-disk structure. *)
Record dinode_ok (d : dinode) : Prop := {
  do_type : -32768 <= d_type d < 32768;
  do_major : -32768 <= d_major d < 32768;
  do_minor : -32768 <= d_minor d < 32768;
  do_nlink : -32768 <= d_nlink d < 32768;
  do_size : is_u32 (d_size d);
  do_addrs : Forall is_u32 (d_addrs d);
  do_len : length (d_addrs d) = 13%nat
}.

Lemma length_addrs_bytes (l : list Z) : length (concat (le_bytes 4 <$> l)) = (4 * length l)%nat.
Proof.
  induction l as [|x l IH]; [done|].
  change (concat (le_bytes 4 <$> x :: l)) with (le_bytes 4 x ++ concat (le_bytes 4 <$> l)).
  rewrite length_app, length_le_bytes, IH. simpl. lia.
Qed.

Lemma length_encode d : length (d_addrs d) = 13%nat -> length (encode_dinode d) = sizeof_dinode.
Proof.
  intros Hl. unfold encode_dinode. rewrite !length_app, !length_le_bytes, length_addrs_bytes, Hl. done.
Qed.

Lemma s16_le_bytes x : -32768 <= x < 32768 -> s16 (le_val (le_bytes 2 x)) = x.
Proof.
  intros Hx. rewrite le_val_bytes. change (256 ^ Z.of_nat 2) with 65536. unfold s16, u16.
  rewrite Z.mod_mod by lia. destruct (Z.ltb_spec (x mod 65536) 32768); dlia.
Qed.

Lemma le32_le_bytes x : is_u32 x -> le_val (le_bytes 4 x) = x.
Proof.
  intros Hx. rewrite le_val_bytes. change (256 ^ Z.of_nat 4) with 4294967296. by apply Z.mod_small.
Qed.

Lemma window_addrs pre (l : list Z) i x :
  l !! i = Some x ->
  window (pre ++ concat (le_bytes 4 <$> l)) (length pre + 4 * i) 4 = le_bytes 4 x.
Proof.
  revert pre i. induction l as [|y l IH]; intros pre i Hi; [done|].
  change (concat (le_bytes 4 <$> y :: l)) with (le_bytes 4 y ++ concat (le_bytes 4 <$> l)).
  destruct i as [|i]; simpl in Hi.
  - injection Hi as ->. rewrite Nat.mul_0_r, Nat.add_0_r. unfold window. rewrite drop_app_length.
    rewrite <- (length_le_bytes 4 x) at 1. apply take_app_length.
  - rewrite (assoc_L app). replace (length pre + 4 * S i)%nat with (length (pre ++ le_bytes 4 y) + 4 * i)%nat
      by (rewrite length_app, length_le_bytes; lia). by apply IH.
Qed.

Lemma window_field {A} (l pre mid post : list A) n k :
  l = pre ++ mid ++ post -> n = length pre -> k = length mid -> window l n k = mid.
Proof. intros -> -> ->. unfold window. rewrite drop_app_length. apply take_app_length. Qed.

(** Decoding what was encoded. *)
Lemma decode_encode d : dinode_ok d -> decode_dinode (encode_dinode d) = d.
Proof.
  intros [H1 H2 H3 H4 H5 H6 H7]. unfold decode_dinode, le16, le32.
  set (b1 := le_bytes 2 (d_type d)). set (b2 := le_bytes 2 (d_major d)). set (b3 := le_bytes 2 (d_minor d)).
  set (b4 := le_bytes 2 (d_nlink d)). set (b5 := le_bytes 4 (d_size d)).
  set (b6 := concat (le_bytes 4 <$> d_addrs d)).
  assert (E6 : encode_dinode d = (b1 ++ b2 ++ b3 ++ b4 ++ b5) ++ b6) by (rewrite <- !(assoc_L app); done).
  assert (W1 : window (encode_dinode d) 0 2 = b1) by (by apply (window_field _ [] b1 (b2 ++ b3 ++ b4 ++ b5 ++ b6))).
  assert (W2 : window (encode_dinode d) 2 2 = b2) by (by apply (window_field _ b1 b2 (b3 ++ b4 ++ b5 ++ b6))).
  assert (W3 : window (encode_dinode d) 4 2 = b3).
  { apply (window_field _ (b1 ++ b2) b3 (b4 ++ b5 ++ b6)); [by rewrite <- !(assoc_L app)|done..]. }
  assert (W4 : window (encode_dinode d) 6 2 = b4).
  { apply (window_field _ (b1 ++ b2 ++ b3) b4 (b5 ++ b6)); [by rewrite <- !(assoc_L app)|done..]. }
  assert (W5 : window (encode_dinode d) 8 4 = b5).
  { apply (window_field _ (b1 ++ b2 ++ b3 ++ b4) b5 b6); [by rewrite <- !(assoc_L app)|done..]. }
  rewrite W1, W2, W3, W4, W5. unfold b1, b2, b3, b4, b5. rewrite !s16_le_bytes, le32_le_bytes by done.
  assert (EA : ((fun i => le_val (window (encode_dinode d) (12 + 4 * i) 4)) <$> seq 0 13) = d_addrs d).
  { apply list_eq. intros i. rewrite list_lookup_fmap. destruct (d_addrs d !! i) as [x|] eqn:E.
    - rewrite lookup_seq_lt by (rewrite <- H7; by eapply lookup_lt_Some). cbn [fmap option_fmap option_map]. f_equal.
      rewrite E6. change (12 + 4 * (0 + i))%nat with (length (b1 ++ b2 ++ b3 ++ b4 ++ b5) + 4 * i)%nat.
      unfold b6. rewrite (window_addrs _ _ i x) by done. apply le32_le_bytes. rewrite Forall_lookup in H6. eauto.
    - apply lookup_ge_None in E. by rewrite lookup_seq_ge by lia. }
  rewrite EA. by destruct d.
Qed.

Lemma dinode_off_bound inum : (dinode_off inum + sizeof_dinode <= Bio.BSIZE)%nat.
Proof. unfold dinode_off, sizeof_dinode, Bio.BSIZE, IPB. dlia. Qed.

Lemma length_put_dinode data inum d :
  length data = Bio.BSIZE -> length (d_addrs d) = 13%nat -> length (put_dinode data inum d) = Bio.BSIZE.
Proof.
  intros Hl Hd. unfold put_dinode. rewrite length_splice; [done|]. rewrite length_encode, Hl by done.
  apply dinode_off_bound.
Qed.

(** Reading an inode block after [put_dinode]: the inode, and the others as before. *)
Lemma get_put_dinode data inum inum' d :
  length data = Bio.BSIZE -> dinode_ok d -> 0 <= inum -> 0 <= inum' -> inum / IPB = inum' / IPB ->
  get_dinode (put_dinode data inum d) inum' = if decide (inum' = inum) then d else get_dinode data inum'.
Proof.
  intros Hl OK H0 H0' Hb. pose proof (length_encode d (do_len _ OK)) as He. pose proof (dinode_off_bound inum) as Hob.
  pose proof (dinode_off_bound inum') as Hob'. unfold get_dinode, put_dinode. case_decide as E.
  - subst inum'. rewrite <- He at 1. rewrite window_splice_same by lia. by apply decode_encode.
  - rewrite window_splice_ne; [done|lia| |lia]. rewrite He. unfold dinode_off, sizeof_dinode, IPB in *.
    assert (Hne : inum mod 8 <> inum' mod 8) by dlia. destruct (decide (inum mod 8 < inum' mod 8)); dlia.
Qed.

(** ** Writing an inode block *)

Lemma iblock_range sb inum :
  0 <= inum < Log.sb_ninodes sb -> 2 <= IBLOCK inum < Log.sb_ninodes sb / IPB + 3.
Proof. unfold IBLOCK, IPB. dlia. Qed.

Section InodeWrite.
Context (sb : Log.superblock) (v : tview) (sec : Z) (x : list Z).
Context (OK : fs_ok sb v) (Hsec : 2 <= sec < Log.sb_ninodes sb / IPB + 3).

Let v' := t_write sec x v.

Lemma inode_content sec' : Log.sb_ninodes sb / IPB + 3 <= sec' -> tv_content v' sec' = tv_content v sec'.
Proof using All. intros H. unfold v'. simpl. unfold upd. by rewrite decide_False by lia. Qed.

Lemma inode_allocated b : 0 <= b < Log.sb_size sb -> allocated sb v' b = allocated sb v b.
Proof using All.
  intros Hb. pose proof (bitmap_range sb b Hb (fk_ninodes _ _ OK)). unfold allocated. by rewrite inode_content by lia.
Qed.

Lemma inode_data sec' : data_start sb <= sec' -> tv_content v' sec' = tv_content v sec'.
Proof using All.
  intros H. apply inode_content. destruct OK. unfold data_start, BPB, IPB in *. dlia.
Qed.

Lemma inode_fs_ok : fs_ok sb v'.
Proof using All.
  pose proof OK as [H1 H2 H3 H4 H5 H6]. split; try done.
  - unfold v'. simpl. unfold upd. by rewrite decide_False by lia.
  - intros b Hb. simpl in H5. rewrite inode_allocated by lia. by apply H6.
Qed.

Lemma inode_block_of d bn : wf_blocks sb v d -> block_of v' d bn = block_of v d bn.
Proof using All.
  intros W. unfold block_of. destruct (bn <? NDIRECT); [done|]. destruct (Z.eqb_spec (ind d) 0); [done|].
  f_equal. apply inode_data. by apply (wb_ind _ _ _ W).
Qed.

Lemma inode_wf_blocks d : wf_blocks sb v d -> wf_blocks sb v' d.
Proof using All.
  intros W. pose proof (fk_size _ _ OK). assert (0 < data_start sb) by (destruct OK; unfold data_start, BPB, IPB in *; dlia).
  split.
  - apply W.
  - intros bn Hb. rewrite inode_block_of by done. intros Hne. destruct (wb_data _ _ _ W bn Hb Hne).
    split; [done|]. by rewrite inode_allocated by lia.
  - intros Hne. destruct (wb_ind _ _ _ W Hne). split; [done|]. by rewrite inode_allocated by lia.
  - intros bn bn'. rewrite !inode_block_of by done. by apply W.
  - intros bn. rewrite inode_block_of by done. by apply W.
Qed.

Lemma inode_fbyte d i :
  wf_blocks sb v d -> 0 <= i < MAXFILE * BSIZE -> block_of v d (i / BSIZE) <> 0 -> fbyte v' d i = fbyte v d i.
Proof using All.
  intros W Hi Hne. unfold fbyte. rewrite inode_block_of by done. rewrite inode_data; [done|].
  apply (wb_data _ _ _ W); [unfold BSIZE in *; dlia|done].
Qed.
End InodeWrite.

(** ** [iupdate] and [writei] *)

Section Writei.
Context {D : Type} {TL : TxLayer D} (sb : Log.superblock).
Context (devsw_write : Z -> option (nat -> list Z -> Z -> M (fstate D) Z)).
Implicit Types (s : fstate D) (v : tview).

(** The view after [iupdate]. *)
Definition t_iupdate (inum : Z) (d : dinode) (v : tview) : tview :=
  t_write (IBLOCK inum) (put_dinode (tv_content v (IBLOCK inum)) inum d) v.

Lemma iupdate_wp s v ip x X k (Q : unit -> fstate D -> Prop) :
  tsees (fs_blk s) v -> fs_ok sb v -> holds_data sb v -> plan v X k -> IBLOCK (i_inum x) ∈ X ->
  icache s !! ip = Some x -> i_dev x = 1 -> 0 <= i_inum x < Log.sb_ninodes sb ->
  length (d_addrs (i_d x)) = 13%nat ->
  (forall c, tsees c (t_iupdate (i_inum x) (i_d x) v) -> Q tt (with_blk c s)) ->
  wp (iupdate ip) Q s.
Proof.
  intros Hv OK Hh P HX Hx Hdev Hin Hl HQ. unfold iupdate. pose proof P as [[C1 C2 C3] _ _ _].
  pose proof (iblock_range sb _ Hin) as Hr.
  assert (Hd : Log.sb_ninodes sb / IPB + 3 < data_start sb) by (destruct OK; unfold data_start, BPB, IPB in *; dlia).
  assert (Hih : home v (IBLOCK (i_inum x))) by (apply (meta_home sb v OK); lia).
  assert (Hin' : tv_held v !! IBLOCK (i_inum x) = None) by (apply (held_meta sb); done || lia).
  apply wp_bind. apply (wp_geti _ _ x); [done|]. rewrite Hdev.
  apply wp_bind. eapply wp_tbread; [exact Hv|done|done|lia|done|]. intros b c1 Hc1.
  apply wp_bind. eapply wp_tbdata; [exact Hc1|apply lookup_insert_eq|done|]. simpl tv_content.
  apply (wp_write_release _ v (IBLOCK (i_inum x)) b _ X k); try done.
  apply length_put_dinode; [by apply (tsees_length (fs_blk s) v)|done].
Qed.

(** The size after a write. *)
Definition new_size (d : dinode) (off n : Z) : Z := if 0 <? n then Z.max (d_size d) (off + n) else d_size d.

Lemma writei_wp s v ip x d src off n X k (Q : Z -> fstate D -> Prop) :
  tsees (fs_blk s) v -> can_write sb v d off n X k -> IBLOCK (i_inum x) ∈ X -> wf_file sb v d ->
  icache s !! ip = Some x -> i_d x = d -> i_dev x = 1 -> 0 <= i_inum x < Log.sb_ninodes sb ->
  0 <= off <= d_size d -> 0 <= n -> off + n <= MAXFILE * BSIZE -> n <= Z.of_nat (length src) ->
  (forall c T v1 d1 X1 k1 v',
     tsees c v' -> written sb off n src T v d X k v1 d1 X1 k1 ->
     let d' := set_size (new_size d off n) d1 in
     v' = (if (0 <? n) && (d_size d <? off + n) then t_iupdate (i_inum x) d' v1 else v1) ->
     Q n (mkFs c (<[ip:=set_d d' x]> (icache s)))) ->
  wp (writei devsw_write ip src off n) Q s.
Proof.
  intros Hv CW HX W Hx Hd Hdev Hin Ho Hn Hmax Hsrc HQ. unfold writei. pose proof (wf_size _ _ _ W) as Hsz.
  apply wp_bind. apply (wp_geti _ _ x); [done|]. rewrite Hd. cbv zeta.
  rewrite (proj2 (Z.eqb_neq _ _) (wf_type _ _ _ W)).
  assert (Hmx : MAXFILE * BSIZE = 71680) by done. rewrite u32_small by (unfold is_u32; lia).
  rewrite (proj2 (Z.ltb_ge (d_size d) off)), (proj2 (Z.ltb_ge (off + n) off)) by lia. simpl orb. cbv iota.
  rewrite (proj2 (Z.ltb_ge (MAXFILE * BSIZE) (off + n))) by lia. apply wp_bind.
  apply (writei_loop_wp sb _ s v ip x d src off n 0 X k); try done; try lia.
  { by rewrite Z.sub_0_r. }
  intros c T v1 d1 X1 k1 Hc HW. rewrite Z.sub_0_r in HW. rewrite drop_0 in HW.
  pose proof (wr_grows _ _ _ _ _ _ _ _ _ _ _ _ _ HW) as G.
  assert (Hs1 : d_size d1 = d_size d) by (by rewrite (e_fields _ _ _ _ _ _ _ _ _ _ G)).
  assert (Hl1 : icache (mkFs c (<[ip:=set_d d1 x]> (icache s))) !! ip = Some (set_d d1 x))
    by (apply list_lookup_insert_eq; by eapply lookup_lt_Some).
  apply wp_bind. apply (wp_geti _ _ (set_d d1 x)); [done|]. simpl i_d. rewrite Hs1.
  unfold new_size in HQ.
  destruct (Z.ltb_spec 0 n) as [Hpos|Hz]; simpl in *; [destruct (Z.ltb_spec (d_size d) (off + n)) as [Hgt|Hle]|].
  - apply wp_bind, wp_bind. apply (wp_updi _ _ (set_d d1 x)); [done|]. simpl.
    rewrite list_insert_insert_eq. set (d' := set_size (off + n) d1).
    assert (Hl2 : <[ip:=set_d d' (set_d d1 x)]> (icache s) !! ip = Some (set_d d' (set_d d1 x)))
      by (apply list_lookup_insert_eq; by eapply lookup_lt_Some).
    apply (iupdate_wp _ v1 ip (set_d d' (set_d d1 x)) X1 k1); try done; try apply G; [exact HX|].
    intros c2 Hc2. simpl. apply wp_ret. rewrite s32_small by lia.
    specialize (HQ c2 T v1 d1 X1 k1 _ Hc2 HW). rewrite Z.max_r in HQ by lia. by apply HQ.
  - apply wp_bind, wp_ret, wp_ret. rewrite s32_small by lia. specialize (HQ c T v1 d1 X1 k1 v1 Hc HW).
    rewrite Z.max_l in HQ by lia. rewrite <- Hs1 in HQ. destruct d1. by apply HQ.
  - apply wp_bind, wp_ret, wp_ret. rewrite s32_small by lia. specialize (HQ c T v1 d1 X1 k1 v1 Hc HW).
    rewrite <- Hs1 in HQ. destruct d1. by apply HQ.
Qed.
End Writei.

(** ** What [writei] leaves behind *)

Lemma addrs_u32 sb v d : fs_ok sb v -> wf_blocks sb v d -> Forall is_u32 (d_addrs d).
Proof.
  intros OK W. pose proof (fk_size _ _ OK). pose proof (fk_int _ _ OK).
  assert (0 < data_start sb) by (destruct OK; unfold data_start, BPB, IPB in *; dlia).
  apply Forall_lookup. intros i x Hi. pose proof (lookup_lt_Some _ _ _ Hi) as Hlt. rewrite (wb_len _ _ _ W) in Hlt.
  assert (Hx : x = addr i d) by (unfold addr; by rewrite Hi). unfold is_u32.
  destruct (decide (x = 0)) as [|Hne]; [lia|]. destruct (decide (i = 12)%nat) as [->|Hi12].
  - destruct (wb_ind _ _ _ W); unfold ind in *; lia.
  - assert (Hb : block_of v d (Z.of_nat i) = x).
    { unfold block_of. rewrite (proj2 (Z.ltb_lt _ _)) by (unfold NDIRECT; lia). by rewrite Nat2Z.id. }
    destruct (wb_data _ _ _ W (Z.of_nat i)); [unfold MAXFILE, NDIRECT, NINDIRECT; lia|congruence|lia].
Qed.

Section Effect.
Context (sb : Log.superblock) (off n : Z) (src : list Z) (T : gset Z) (inum : Z).
Context (v : tview) (d : dinode) (X : gset Z) (k : nat) (v1 : tview) (d1 : dinode) (X1 : gset Z) (k1 : nat).
Context (HW : written sb off n src T v d X k v1 d1 X1 k1) (W : wf_file sb v d).
Context (Hin : 0 <= inum < Log.sb_ninodes sb).
Context (Ho : 0 <= off <= d_size d) (Hn : 0 <= n) (Hmax : off + n <= MAXFILE * BSIZE) (Hsrc : n <= Z.of_nat (length src)).

Let d' := set_size (new_size d off n) d1.
Let v' := if (0 <? n) && (d_size d <? off + n) then t_iupdate inum d' v1 else v1.

Lemma effect_size : d_size d' = Z.max (d_size d) (off + n).
Proof using All. unfold d', new_size. simpl. destruct (Z.ltb_spec 0 n); lia. Qed.

Lemma effect_same_blocks bn : block_of v' d' bn = block_of v1 d1 bn.
Proof using All.
  pose proof (wr_grows _ _ _ _ _ _ _ _ _ _ _ _ _ HW) as G. unfold v'.
  change (block_of v1 d1 bn) with (block_of v1 d' bn). destruct (_ && _); [|done].
  apply (inode_block_of sb); [apply G|by apply iblock_range|]. destruct (e_wf _ _ _ _ _ _ _ _ _ _ G). by split.
Qed.

Lemma effect_wf : wf_file sb v' d'.
Proof using All.
  pose proof (wr_grows _ _ _ _ _ _ _ _ _ _ _ _ _ HW) as G. pose proof (wf_size _ _ _ W) as Hsz.
  pose proof effect_size as Hs'. pose proof (e_wf _ _ _ _ _ _ _ _ _ _ G) as W1.
  assert (W1' : wf_blocks sb v1 d') by (destruct W1; by split).
  split.
  - unfold v'. destruct (_ && _); [|done]. apply inode_wf_blocks; [apply G|by apply iblock_range|done].
  - lia.
  - intros bn Hb Hlt. rewrite effect_same_blocks. rewrite Hs' in Hlt.
    assert (Hbm : 0 <= bn < MAXFILE) by (unfold BSIZE in *; lia).
    destruct (decide (bn * BSIZE < d_size d)) as [Hold|Hnew].
    + pose proof (wf_full _ _ _ W bn Hb Hold) as Hne. by rewrite (e_keep _ _ _ _ _ _ _ _ _ _ G).
    + apply (wr_blocks _ _ _ _ _ _ _ _ _ _ _ _ _ HW). apply elem_of_block_range; [lia|]. unfold BSIZE in *. dlia.
  - unfold d'. simpl. rewrite (e_fields _ _ _ _ _ _ _ _ _ _ G). apply W.
Qed.

Lemma effect_fbyte i :
  0 <= i < d_size d' ->
  fbyte v' d' i = if decide (off <= i < off + n) then default 0 (src !! Z.to_nat (i - off)) else fbyte v d i.
Proof using All.
  intros Hi. pose proof (wr_grows _ _ _ _ _ _ _ _ _ _ _ _ _ HW) as G. pose proof (wf_size _ _ _ W) as Hsz.
  rewrite effect_size in Hi. assert (Him : 0 <= i < MAXFILE * BSIZE) by lia.
  assert (Hne : off <= i < off + n \/ block_of v d (i / BSIZE) <> 0).
  { destruct (decide (i < d_size d)); [right|left; lia]. apply (wf_full _ _ _ W); unfold BSIZE in *; dlia. }
  assert (Hb1 : block_of v1 d1 (i / BSIZE) <> 0).
  { rewrite <- effect_same_blocks. apply (wf_full _ _ _ effect_wf); [unfold BSIZE; dlia|].
    rewrite effect_size. unfold BSIZE. dlia. }
  rewrite <- (wr_bytes _ _ _ _ _ _ _ _ _ _ _ _ _ HW i Him Hne).
  change (fbyte v1 d1 i) with (fbyte v1 d' i). unfold v'. destruct (_ && _); [|done].
  apply (inode_fbyte sb); [apply G|by apply iblock_range| |done|].
  - destruct (e_wf _ _ _ _ _ _ _ _ _ _ G). by split.
  - exact Hb1.
Qed.

Lemma effect_data :
  file_data v' d' = take (Z.to_nat off) (file_data v d) ++ take (Z.to_nat n) src ++
    drop (Z.to_nat (off + n)) (file_data v d).
Proof using All.
  pose proof (wf_size _ _ _ W) as Hsz. pose proof effect_size as Hs.
  pose proof (length_file_data v d ltac:(lia)) as Hl. pose proof (length_file_data v' d' ltac:(lia)) as Hl'.
  apply list_eq_same_length with (length (file_data v' d')); [|done|].
  - rewrite !length_app, !length_take, length_drop. lia.
  - intros i b1 b2 Hi. replace i with (Z.to_nat (Z.of_nat i)) at 1 by lia.
    rewrite lookup_file_data, effect_fbyte by lia. intros [= <-]. case_decide as Hr.
    + rewrite lookup_app_r, lookup_app_l by (rewrite ?length_take; lia). rewrite length_take, lookup_take_lt by lia.
      replace (i - Z.to_nat off `min` length (file_data v d))%nat with (Z.to_nat (Z.of_nat i - off)) by lia.
      by intros ->.
    + destruct (decide (Z.of_nat i < off)).
      * rewrite lookup_app_l, lookup_take_lt by (rewrite ?length_take; lia).
        replace i with (Z.to_nat (Z.of_nat i)) at 1 by lia. rewrite lookup_file_data by lia. congruence.
      * rewrite !lookup_app_r by (rewrite ?length_take; lia). rewrite lookup_drop, !length_take.
        replace (_ + _)%nat with (Z.to_nat (Z.of_nat i)) by lia. rewrite lookup_file_data by lia. congruence.
Qed.

(** Blocks of other files keep their contents. *)
Lemma effect_frame sec :
  data_start sb <= sec < tv_size v -> allocated sb v sec = true -> sec <> ind d ->
  (forall bn, 0 <= bn < MAXFILE -> block_of v d bn <> sec) -> tv_content v' sec = tv_content v sec.
Proof using All.
  intros Hs Hal Hi Hb. pose proof (wr_grows _ _ _ _ _ _ _ _ _ _ _ _ _ HW) as G.
  assert (E : tv_content v1 sec = tv_content v sec).
  { apply (e_content _ _ _ _ _ _ _ _ _ _ G); try done. intros HT.
    destruct (wr_touched _ _ _ _ _ _ _ _ _ _ _ _ _ HW sec HT) as (bn & Hbn & E & Hne).
    destruct (decide (block_of v d bn = 0)) as [Hz|Hnz].
    - destruct (e_new _ _ _ _ _ _ _ _ _ _ G bn Hbn Hz) as [_ Hf]; [congruence|]. congruence.
    - rewrite (e_keep _ _ _ _ _ _ _ _ _ _ G) in E by done. by apply (Hb bn). }
  rewrite <- E. unfold v'. destruct (_ && _); [|done]. apply (inode_data sb); [apply G|by apply iblock_range|lia].
Qed.

(** The inode on disk follows the inode in memory. *)
Lemma effect_inode :
  dinode_ok d -> length (tv_content v (IBLOCK inum)) = Bio.BSIZE ->
  get_dinode (tv_content v (IBLOCK inum)) inum = d -> get_dinode (tv_content v' (IBLOCK inum)) inum = d'.
Proof using All.
  intros [D1 D2 D3 D4 D5 D6 D7] Hl Hd. pose proof (wr_grows _ _ _ _ _ _ _ _ _ _ _ _ _ HW) as G.
  pose proof (wf_size _ _ _ W) as Hsz. pose proof (e_wf _ _ _ _ _ _ _ _ _ _ G) as W1.
  pose proof (iblock_range sb inum Hin) as Hr.
  assert (Hm : tv_content v1 (IBLOCK inum) = tv_content v (IBLOCK inum))
    by (apply (e_meta _ _ _ _ _ _ _ _ _ _ G); lia).
  assert (Hmx : MAXFILE * BSIZE = 71680) by done. pose proof effect_size as Hs'.
  unfold v'. destruct ((0 <? n) && (d_size d <? off + n)) eqn:E.
  - unfold t_iupdate. simpl. unfold upd. rewrite decide_True by done.
    rewrite get_put_dinode; [by rewrite decide_True|by rewrite Hm| |lia|lia|done].
    pose proof (e_fields _ _ _ _ _ _ _ _ _ _ G) as Ef.
    split; simpl; try (rewrite Ef; done).
    + change (is_u32 (d_size d')). unfold is_u32. rewrite Hs'. lia.
    + apply (addrs_u32 sb v1 d1); [apply G|done].
    + apply W1.
  - rewrite Hm, Hd. unfold d'. assert (Hle : off + n <= d_size d \/ n = 0).
    { apply andb_false_iff in E as [E|E]; apply Z.ltb_ge in E; lia. }
    rewrite (wr_same _ _ _ _ _ _ _ _ _ _ _ _ _ HW).
    + replace (new_size d off n) with (d_size d); [by destruct d|].
      unfold new_size. destruct (Z.ltb_spec 0 n); lia.
    + intros bn Hbn. apply elem_of_block_range in Hbn; [|lia]. apply (wf_full _ _ _ W); unfold BSIZE in *; dlia.
Qed.
End Effect.

End FsWrite.
