(* ===== verification/FsSpec.v ===== *)
(** * The contracts of fs.c

    The specifications of the block allocator, of inodes on disk, of [readi] and
    [writei], and of a file system operation that runs as a transaction of the
    log, with a small file system as the example they are instantiated on. *)

From S2P Require Import Prelude CString Bio Log Blocks TxLog Fs FsAlloc FsFile FsWrite.

Module FsSpec.
Import Blocks Fs FsAlloc FsFile FsWrite.

(** ** A small file system *)

(** 32 blocks: the super block, two blocks of inodes, the bitmap in block 4, data
    from block 5 on and the log in the last 12 blocks.  Inode 1 is the root
    directory with block 5, inode 2 a file of five bytes in block 6. *)
Definition block_with (bs : list Z) : list Z := bs ++ replicate (512 - length bs) 0.

Definition demo_root : dinode := mkDinode T_DIR 0 0 1 48 (5 :: replicate 12 0).
Definition demo_file : dinode := mkDinode T_FILE 0 0 1 5 (6 :: replicate 12 0).
Definition demo_entry (inum : Z) (name : string) : list Z := mk_dirent inum (Str.cpad 14 (bytes name)).

Definition demo_blocks : list (list Z) :=
  [replicate 512 0;
   block_with (le_bytes 4 32 ++ le_bytes 4 15 ++ le_bytes 4 8 ++ le_bytes 4 12);
   block_with (replicate 64 0 ++ encode_dinode demo_root ++ encode_dinode demo_file);
   replicate 512 0;
   block_with [127];
   block_with (demo_entry 1 "." ++ demo_entry 1 ".." ++ demo_entry 2 "f");
   block_with (bytes "hello")] ++ replicate 25 (replicate 512 0).

Definition demo_sb : Log.superblock := Log.mkSb 32 15 8 12.

(** The kernel after start-up and [begin_trans], with both inodes cached. *)
Definition demo_cache : Bio.bcache := result Bio.binit (Bio.bss demo_blocks).
Definition demo_log (open : bool) : Log.lstate := Log.mkLog demo_cache 20 12 open 0 (replicate 10 0).
Definition demo_inodes : list inode :=
  [mkInode 1 1 1 I_VALID demo_root; mkInode 1 2 1 I_VALID demo_file] ++ replicate 48 zero_inode.
Definition demo_fs (open : bool) : fstate Log.lstate := mkFs (demo_log open) demo_inodes.
Definition demo_view (open : bool) : tview := TxLog.begin_view 20 12 open (Bio.disk_view demo_blocks).

#[local] Instance demo_layer : TxLayer Log.lstate := TxLog.tx_layer demo_blocks [] 20 12.

Lemma demo_blocks_ok : Forall (fun d => length d = Bio.BSIZE) demo_blocks.
Proof. repeat constructor. Qed.

Lemma demo_cache_sees : Bio.sees demo_cache (Bio.disk_view demo_blocks).
Proof.
  unfold demo_cache. apply (wp_result Bio.binit (fun s => Bio.sees s (Bio.disk_view demo_blocks))).
  apply Bio.binit_wp, demo_blocks_ok.
Qed.

Lemma demo_idle : Log.idle 20 12 (replicate 10 0) (Bio.disk_view demo_blocks).
Proof.
  split; [done|done| |vm_compute; reflexivity|done].
  split; [apply demo_blocks_ok|vm_compute; reflexivity| |lia].
  split; [lia|lia|vm_compute; discriminate|vm_compute; reflexivity].
Qed.

Lemma demo_fs_sees open : tsees (fs_blk (demo_fs open)) (demo_view open).
Proof. apply (TxLog.tx_begin _ _ _ _ (Bio.disk_view demo_blocks)); [apply demo_cache_sees|apply demo_idle]. Qed.

Lemma small_cases (P : Z -> Prop) (n : nat) :
  Forall (fun i => P (Z.of_nat i)) (seq 0 n) -> forall b, 0 <= b < Z.of_nat n -> P b.
Proof.
  intros HF b Hb. rewrite Forall_forall in HF. specialize (HF (Z.to_nat b)). rewrite Z2Nat.id in HF by lia.
  apply HF. apply elem_of_seq. lia.
Qed.

Lemma demo_fs_ok open : fs_ok demo_sb (demo_view open).
Proof.
  split; [vm_compute; reflexivity|vm_compute; discriminate|split; [vm_compute; reflexivity|vm_compute; discriminate]
    |vm_compute; reflexivity|vm_compute; discriminate|].
  apply (small_cases _ 5). repeat constructor; vm_compute; reflexivity.
Qed.

Lemma demo_holds open : holds_data demo_sb (demo_view open).
Proof. intros sec b Hb. change ((∅ : gmap Z nat) !! sec = Some b) in Hb. by rewrite lookup_empty in Hb. Qed.

Lemma demo_calm open : calm (demo_view open).
Proof. split; [done|vm_compute; lia|vm_compute; lia]. Qed.

Lemma demo_plan : plan (demo_view true) {[4; 7]} 0.
Proof. split; [apply demo_calm|done|vm_compute; lia|vm_compute; lia]. Qed.

Lemma demo_lowest : lowest_free demo_sb (demo_view true) 7.
Proof.
  split_and!; [done|done|vm_compute; reflexivity|].
  apply (small_cases _ 7). repeat constructor; vm_compute; reflexivity.
Qed.

(** ** The block allocator *)

Section AllocSpec.
Context {D : Type} {TL : TxLayer D} (sb : Log.superblock).

(** [balloc] returns the lowest free block; the block is zeroed and marked, no
    other block changes state, and no block but it and its bitmap block is
    written. *)
Theorem balloc_allocates (s : fstate D) v a X k :
  tsees (fs_blk s) v -> fs_ok sb v -> holds_data sb v -> lowest_free sb v a -> home v a ->
  plan v X k -> bitmap_block sb a ∈ X -> a ∈ X ->
  wp (balloc 1) (fun r s' => r = a /\ icache s' = icache s /\ exists v',
    tsees (fs_blk s') v' /\ fs_ok sb v' /\ tv_content v' a = replicate Bio.BSIZE 0 /\
    (forall b, 0 <= b < Log.sb_size sb -> allocated sb v' b = (a =? b) || allocated sb v b) /\
    (forall sec, sec <> a -> sec <> bitmap_block sb a -> tv_content v' sec = tv_content v sec)) s.
Proof.
  intros Hv OK Hh Hlow Ha P HX1 HX2. pose proof (lowest_data sb v a OK Hlow) as Hd.
  apply (balloc_wp sb s v a X k); try done. intros c Hc. split_and!; [done|done|].
  assert (Har : data_start sb <= a < tv_size v) by (unfold home in Ha; lia).
  exists (t_alloc sb a v). split_and!; [done| |apply alloc_zero| |].
  - by apply (alloc_fs_ok sb (fs_blk s) v a).
  - intros b Hb. by apply (alloc_allocated sb (fs_blk s) v a).
  - intros sec H1 H2. unfold t_alloc, mark_block. simpl. unfold upd. by rewrite !decide_False.
Qed.

(** When every block is marked, [balloc] panics. *)
Theorem balloc_out_of_blocks (s : fstate D) v :
  tsees (fs_blk s) v -> fs_ok sb v -> holds_data sb v -> calm v ->
  (forall b, 0 <= b < Log.sb_size sb -> allocated sb v b = true) ->
  balloc 1 s = Panic "balloc: out of blocks".
Proof. apply balloc_panics. Qed.

(** [bfree] of a block in use clears its mark and nothing else; of a free block
    it panics. *)
Theorem bfree_frees (s : fstate D) v a X k :
  tsees (fs_blk s) v -> fs_ok sb v -> holds_data sb v -> data_start sb <= a < Log.sb_size sb ->
  plan v X k -> bitmap_block sb a ∈ X ->
  if allocated sb v a then
    wp (bfree 1 a) (fun _ s' => icache s' = icache s /\ exists v',
      tsees (fs_blk s') v' /\ fs_ok sb v' /\
      (forall b, 0 <= b < Log.sb_size sb -> allocated sb v' b = negb (a =? b) && allocated sb v b) /\
      (forall sec, sec <> bitmap_block sb a -> tv_content v' sec = tv_content v sec)) s
  else bfree 1 a s = Panic "freeing free block".
Proof.
  intros Hv OK Hh Ha P HX. assert (0 < data_start sb) by (destruct OK; unfold data_start, BPB, IPB in *; dlia).
  destruct (allocated sb v a) eqn:E; [|apply (bfree_panics sb s v a); try done; [apply P|lia]].
  apply (bfree_wp sb s v a X k); try done; [lia|]. intros c Hc. split; [done|].
  exists (clear_block sb a v). split_and!; [done|by apply (fs_ok_clear sb (fs_blk s) v)| |].
  - intros b Hb. apply (allocated_clear sb (fs_blk s) v); try done. lia.
  - intros sec H1. unfold clear_block. simpl. unfold upd. by rewrite decide_False.
Qed.
End AllocSpec.

Lemma balloc_allocates_witness :
  lowest_free demo_sb (demo_view true) 7 /\ wp (balloc 1) (fun r _ => r = 7) (demo_fs true).
Proof.
  split; [exact demo_lowest|].
  eapply wp_mono; [apply (balloc_allocates demo_sb (demo_fs true) (demo_view true) 7 {[4; 7]} 0)|].
  - apply demo_fs_sees.
  - apply demo_fs_ok.
  - apply demo_holds.
  - exact demo_lowest.
  - vm_compute. split; [discriminate|reflexivity].
  - exact demo_plan.
  - change (4 ∈ ({[4; 7]} : gset Z)). set_solver.
  - set_solver.
  - by intros r s' [-> _].
Defined.

(** The same disk with every block marked. *)
Definition full_blocks : list (list Z) := <[4%nat:=block_with [255; 255; 255; 255]]> demo_blocks.
Definition full_cache : Bio.bcache := result Bio.binit (Bio.bss full_blocks).
Definition full_view : tview := TxLog.begin_view 20 12 true (Bio.disk_view full_blocks).
Definition full_layer : TxLayer Log.lstate := TxLog.tx_layer full_blocks [] 20 12.
Definition full_fs : fstate Log.lstate := mkFs (Log.mkLog full_cache 20 12 true 0 (replicate 10 0)) demo_inodes.

Lemma full_sees : @tsees _ full_layer (fs_blk full_fs) full_view.
Proof.
  assert (HF : Forall (fun d => length d = Bio.BSIZE) full_blocks) by repeat constructor.
  apply (TxLog.tx_begin _ _ _ _ (Bio.disk_view full_blocks)).
  - unfold full_cache. apply (wp_result Bio.binit (fun s => Bio.sees s (Bio.disk_view full_blocks))).
    by apply Bio.binit_wp.
  - split; [done|done| |vm_compute; reflexivity|done].
    split; [done|vm_compute; reflexivity| |lia].
    split; [lia|lia|vm_compute; discriminate|vm_compute; reflexivity].
Qed.

Lemma full_fs_ok : fs_ok demo_sb full_view.
Proof.
  split; [vm_compute; reflexivity|vm_compute; discriminate|split; [vm_compute; reflexivity|vm_compute; discriminate]
    |vm_compute; reflexivity|vm_compute; discriminate|].
  apply (small_cases _ 5). repeat constructor; vm_compute; reflexivity.
Qed.

Lemma balloc_out_of_blocks_witness :
  allocated demo_sb full_view 31 = true /\ @balloc _ full_layer 1 full_fs = Panic "balloc: out of blocks".
Proof.
  split; [vm_compute; reflexivity|].
  apply (@balloc_out_of_blocks _ full_layer demo_sb full_fs full_view).
  - exact full_sees.
  - exact full_fs_ok.
  - intros sec b Hb. change ((∅ : gmap Z nat) !! sec = Some b) in Hb. by rewrite lookup_empty in Hb.
  - split; [done|vm_compute; lia|vm_compute; lia].
  - apply (small_cases _ 32). repeat constructor; vm_compute; reflexivity.
Defined.

Lemma demo_allocated_6 : allocated demo_sb (demo_view true) 6 = true.
Proof. vm_compute. reflexivity. Qed.
Lemma demo_allocated_9 : allocated demo_sb (demo_view true) 9 = false.
Proof. vm_compute. reflexivity. Qed.
Lemma demo_bitmap_in a : 0 <= a < 4096 -> bitmap_block demo_sb a ∈ ({[4; 7]} : gset Z).
Proof.
  intros Ha. replace (bitmap_block demo_sb a) with 4; [set_solver|].
  unfold bitmap_block, BBLOCK, demo_sb, BPB, IPB. simpl. dlia.
Qed.

Lemma bfree_frees_witness :
  allocated demo_sb (demo_view true) 6 = true /\
  wp (bfree 1 6) (fun _ s' => icache s' = demo_inodes) (demo_fs true) /\
  bfree 1 9 (demo_fs true) = Panic "freeing free block".
Proof.
  assert (Hb : forall a, data_start demo_sb <= a < 32 -> if allocated demo_sb (demo_view true) a then
      wp (bfree 1 a) (fun _ s' => icache s' = demo_inodes) (demo_fs true)
    else bfree 1 a (demo_fs true) = Panic "freeing free block").
  { intros a Ha. pose proof (bfree_frees demo_sb (demo_fs true) (demo_view true) a {[4; 7]} 0
      (demo_fs_sees true) (demo_fs_ok true) (demo_holds true) Ha demo_plan) as H.
    specialize (H (demo_bitmap_in a ltac:(unfold data_start, BPB, IPB in *; simpl in *; dlia))).
    destruct (allocated demo_sb (demo_view true) a); [|exact H].
    eapply wp_mono; [exact H|]. by intros [] s' [-> _]. }
  split; [exact demo_allocated_6|]. split.
  - specialize (Hb 6). rewrite demo_allocated_6 in Hb. apply Hb. vm_compute. split; [discriminate|reflexivity].
  - specialize (Hb 9). rewrite demo_allocated_9 in Hb. apply Hb. vm_compute. split; [discriminate|reflexivity].
Defined.

(** ** The log is not protected by the bitmap *)

(** The blocks before the log are all in use; the log blocks are not marked. *)
Definition crowded_blocks : list (list Z) := <[4%nat:=block_with [255; 255; 15]]> demo_blocks.
Definition crowded_fs : fstate Log.lstate :=
  mkFs (Log.mkLog (result Bio.binit (Bio.bss crowded_blocks)) 20 12 true 0 (replicate 10 0)) demo_inodes.

(** The log blocks are free in the bitmap that mkfs writes, and [balloc] scans
    up to [sb.size]: once the data blocks are used up it hands out the block of
    the log header instead of panicking. *)
Theorem balloc_hands_out_log :
  exists s', balloc 1 crowded_fs = Ret 20 s' /\ Log.lstart (fs_blk crowded_fs) = 20.
Proof. eexists. vm_compute. split; reflexivity. Qed.

(** ** Inodes on disk *)

(** An inode written into its block by [iupdate] is read back by [ilock] with
    all its fields, and the other inodes of the block are untouched. *)
Theorem inode_block_roundtrip data inum inum' d :
  length data = Bio.BSIZE -> dinode_ok d -> 0 <= inum -> 0 <= inum' -> IBLOCK inum = IBLOCK inum' ->
  get_dinode (put_dinode data inum d) inum' = if decide (inum' = inum) then d else get_dinode data inum'.
Proof. intros Hl OK H0 H0' Hb. apply get_put_dinode; try done. unfold IBLOCK in Hb. lia. Qed.

Lemma demo_file_ok : dinode_ok demo_file.
Proof.
  split; simpl; unfold T_FILE; [lia..|unfold is_u32; lia| |done].
  unfold is_u32. repeat (constructor; [lia|]). constructor.
Qed.

Lemma inode_block_roundtrip_witness :
  get_dinode (put_dinode (replicate 512 0) 9 demo_file) 9 = demo_file /\
  get_dinode (put_dinode (replicate 512 0) 9 demo_file) 10 = get_dinode (replicate 512 0) 10.
Proof.
  split.
  - rewrite (inode_block_roundtrip (replicate 512 0) 9 9 demo_file (length_replicate _ _) demo_file_ok) by (reflexivity || lia).
    by rewrite decide_True.
  - rewrite (inode_block_roundtrip (replicate 512 0) 9 10 demo_file (length_replicate _ _) demo_file_ok) by (reflexivity || lia).
    by rewrite decide_False.
Defined.

(** ** Reading and writing files *)

Section FileSpec.
Context {D : Type} {TL : TxLayer D} (sb : Log.superblock).
Context (devsw_read : Z -> option (nat -> Z -> M (fstate D) (Z * list Z))).

(** C28: [readi] of a file or directory returns the bytes of the file from [off] on,
    as many as are there up to [n]; past the end of the file it returns -1.  It
    changes nothing. *)
Theorem readi_reads (s : fstate D) v ip x off n :
  tsees (fs_blk s) v -> fs_ok sb v -> calm v -> tv_held v = ∅ -> wf_file sb v (i_d x) ->
  icache s !! ip = Some x -> i_dev x = 1 -> 0 <= off -> 0 <= n -> off + n < 4294967296 ->
  wp (readi devsw_read ip off n) (fun r s' =>
    tsees (fs_blk s') v /\ icache s' = icache s /\
    let data := file_data v (i_d x) in
    let m := Z.min n (Z.of_nat (length data) - off) in
    r = if Z.of_nat (length data) <? off then (-1, []) else (m, window data (Z.to_nat off) (Z.to_nat m))) s.
Proof.
  intros Hv OK C Hne W Hx Hdev Ho Hn Hb.
  apply (readi_wp sb devsw_read s v ip x (i_d x) off n); try done. intros c Hc. simpl.
  rewrite length_file_data by apply W. done.
Qed.

End FileSpec.

Section WriteSpec.
Context {D : Type} {TL : TxLayer D} (sb : Log.superblock).
Context (devsw_write : Z -> option (nat -> list Z -> Z -> M (fstate D) Z)).

(** C3: [writei] within the maximal file size replaces the [n] bytes at [off] by the
    bytes of [src], extending the file as needed: block numbers, indirect block and
    data blocks are allocated, every other byte of the file is kept, the file
    stays well-formed, the inode on disk follows the one in memory, and the blocks
    of all other files keep their contents. *)
Theorem writei_writes (s : fstate D) v ip x src off n X k :
  tsees (fs_blk s) v -> can_write sb v (i_d x) off n X k -> IBLOCK (i_inum x) ∈ X ->
  wf_file sb v (i_d x) -> dinode_ok (i_d x) -> get_dinode (tv_content v (IBLOCK (i_inum x))) (i_inum x) = i_d x ->
  icache s !! ip = Some x -> i_dev x = 1 -> 0 <= i_inum x < Log.sb_ninodes sb ->
  0 <= off <= d_size (i_d x) -> 0 <= n -> off + n <= MAXFILE * BSIZE -> n <= Z.of_nat (length src) ->
  wp (writei devsw_write ip src off n) (fun r s' => exists v' d',
    r = n /\ tsees (fs_blk s') v' /\ icache s' = <[ip:=set_d d' x]> (icache s) /\ wf_file sb v' d' /\
    file_data v' d' = take (Z.to_nat off) (file_data v (i_d x)) ++ take (Z.to_nat n) src ++
                      drop (Z.to_nat (off + n)) (file_data v (i_d x)) /\
    get_dinode (tv_content v' (IBLOCK (i_inum x))) (i_inum x) = d' /\
    forall sec, data_start sb <= sec < tv_size v -> allocated sb v sec = true -> sec <> ind (i_d x) ->
      (forall bn, 0 <= bn < MAXFILE -> block_of v (i_d x) bn <> sec) -> tv_content v' sec = tv_content v sec) s.
Proof.
  intros Hv CW HX W Hdo Hdisk Hx Hdev Hin Ho Hn Hmax Hsrc.
  assert (Hlen : length (tv_content v (IBLOCK (i_inum x))) = Bio.BSIZE).
  { apply (tsees_length (fs_blk s) v); [done|]. apply (meta_home sb v (cw_ok _ _ _ _ _ _ _ CW)).
    pose proof (iblock_range sb _ Hin). pose proof (cw_ok _ _ _ _ _ _ _ CW) as OK.
    destruct OK. unfold data_start, BPB, IPB in *. dlia. }
  apply (writei_wp sb devsw_write s v ip x (i_d x) src off n X k); try done.
  intros c T v1 d1 X1 k1 v' Hc HW. cbn zeta. intros ->.
  eexists _, (set_size (new_size (i_d x) off n) d1). split_and!; [done|exact Hc|done|..].
  - eapply effect_wf; done.
  - eapply effect_data; done.
  - eapply effect_inode; done.
  - intros sec. eapply effect_frame; done.
Qed.
End WriteSpec.

Lemma demo_file_block open bn :
  0 <= bn -> block_of (demo_view open) demo_file bn = if bn =? 0 then 6 else 0.
Proof.
  intros Hb. unfold block_of. destruct (Z.ltb_spec bn NDIRECT) as [Hlt|Hge].
  - assert (Hr : 0 <= bn < Z.of_nat 12) by (unfold NDIRECT in Hlt; lia).
    clear Hb Hlt. revert bn Hr. apply (small_cases _ 12). repeat constructor.
  - change (ind demo_file) with 0. rewrite (proj2 (Z.eqb_neq bn 0)) by (unfold NDIRECT in *; lia). done.
Qed.

Lemma demo_wf_blocks open : wf_blocks demo_sb (demo_view open) demo_file.
Proof.
  split.
  - done.
  - intros bn Hb. rewrite demo_file_block by lia. destruct (bn =? 0); [|done]. intros _.
    split; [vm_compute; split; [discriminate|reflexivity]|]. destruct open; exact demo_allocated_6.
  - intros Hne. by destruct Hne.
  - intros bn bn' Hb Hb'. rewrite !demo_file_block by lia.
    destruct (Z.eqb_spec bn 0), (Z.eqb_spec bn' 0); lia.
  - intros bn Hb Hne. by destruct Hne.
Qed.

Lemma demo_wf_file open : wf_file demo_sb (demo_view open) demo_file.
Proof.
  split; [apply demo_wf_blocks|vm_compute; split; discriminate| |done].
  intros bn Hb Hlt. rewrite demo_file_block by done. unfold BSIZE in Hlt. simpl in Hlt.
  by rewrite (proj2 (Z.eqb_eq bn 0)) by lia.
Qed.

Definition no_read (major : Z) : option (nat -> Z -> M (fstate Log.lstate) (Z * list Z)) := None.
Definition no_write (major : Z) : option (nat -> list Z -> Z -> M (fstate Log.lstate) Z) := None.
Definition demo_ip : inode := mkInode 1 2 1 I_VALID demo_file.

Lemma readi_reads_witness :
  file_data (demo_view false) demo_file = bytes "hello" /\
  wp (readi no_read 1 1 100) (fun r _ => r = (4, bytes "ello")) (demo_fs false).
Proof.
  assert (Hd : file_data (demo_view false) demo_file = bytes "hello") by (vm_compute; reflexivity).
  split; [exact Hd|].
  eapply wp_mono; [apply (readi_reads demo_sb no_read (demo_fs false) (demo_view false) 1 demo_ip 1 100)|].
  - apply demo_fs_sees.
  - apply demo_fs_ok.
  - apply demo_calm.
  - reflexivity.
  - apply demo_wf_file.
  - reflexivity.
  - reflexivity.
  - lia.
  - lia.
  - lia.
  - intros r s' (_ & _ & Hr). change (i_d demo_ip) with demo_file in Hr. rewrite Hd in Hr. exact Hr.
Defined.

Lemma demo_can_write : can_write demo_sb (demo_view true) demo_file 5 6 {[2; 4; 6]} 1.
Proof.
  split.
  - apply demo_fs_ok.
  - reflexivity.
  - apply demo_wf_blocks.
  - split; [apply demo_calm|done|vm_compute; lia|vm_compute; lia].
  - exists {[7]}. split; [vm_compute; lia|]. intros b ->%elem_of_singleton.
    split; vm_compute; [split; [discriminate|reflexivity]|reflexivity].
  - intros b Hb. change (0 <= b < 20) in Hb. replace (bitmap_block demo_sb b) with 4; [set_solver|].
    unfold bitmap_block, BBLOCK, demo_sb, BPB, IPB. simpl. dlia.
  - vm_compute. lia.
  - intros Hne. by destruct Hne.
  - intros bn Hbn. apply elem_of_block_range in Hbn as [_ Hr]; [|lia].
    change (5 / BSIZE) with 0 in Hr. change ((5 + 6 - 1) / BSIZE) with 0 in Hr.
    rewrite demo_file_block by lia. rewrite (proj2 (Z.eqb_eq bn 0)) by lia. set_solver.
Qed.

Lemma writei_writes_witness :
  can_write demo_sb (demo_view true) demo_file 5 6 {[2; 4; 6]} 1 /\
  wp (writei no_write 1 (bytes " world") 5 6) (fun r s' => exists v' d',
    r = 6 /\ tsees (fs_blk s') v' /\ file_data v' d' = bytes "hello world") (demo_fs true).
Proof.
  split; [exact demo_can_write|].
  assert (Hd : file_data (demo_view true) demo_file = bytes "hello") by (vm_compute; reflexivity).
  eapply wp_mono; [apply (writei_writes demo_sb no_write (demo_fs true) (demo_view true) 1 demo_ip (bytes " world") 5 6 {[2; 4; 6]} 1)|].
  - apply demo_fs_sees.
  - exact demo_can_write.
  - change (2 ∈ ({[2; 4; 6]} : gset Z)). set_solver.
  - apply demo_wf_file.
  - exact demo_file_ok.
  - vm_compute. reflexivity.
  - reflexivity.
  - reflexivity.
  - change (0 <= 2 < 8). lia.
  - change (0 <= 5 <= 5). lia.
  - lia.
  - change (5 + 6 <= 71680). lia.
  - change (6 <= 6). lia.
  - intros r s' (v' & d' & Hr & Hv & _ & _ & Hf & _). exists v', d'. split_and!; [done|done|].
    change (i_d demo_ip) with demo_file in Hf. rewrite Hd in Hf. exact Hf.
Defined.

(** ** Transactions *)

(** C7: a file system operation that uses the block layer through its interface,
    run between [begin_trans] and [commit_trans] over an idle log, is atomic: it
    returns what it returns, its blocks are then on disk, and a crash after any
    prefix of the disk writes is recovered to all the old or all the new contents
    of the blocks outside the log. *)
Theorem transaction_atomic {A} (m : M (fstate Log.lstate) A) (R : A -> tview -> Prop) c cv st sz secs inodes :
  Bio.sees c cv -> Log.idle st sz secs cv ->
  let old := Bio.cv_disk cv in
  wp m (fun a s' => exists v, @tsees _ (TxLog.tx_layer old (Bio.cv_trace cv) st sz) (fs_blk s') v /\
    TxLog.tx_done v /\ R a v) (mkFs (Log.mkLog c st sz true 0 secs) inodes) ->
  wp (blk Log.begin_trans ;;; let* a := m in blk Log.commit_trans ;;; ret a) (fun a s' =>
    exists c' secs' cv' v W, fs_blk s' = Log.mkLog c' st sz false 0 secs' /\ Bio.sees c' cv' /\ R a v /\
      Bio.cv_trace cv' = Bio.cv_trace cv ++ W /\
      (forall sec, 0 <= sec < st -> Log.vdisk (Bio.cv_disk cv') sec = tv_content v sec) /\
      forall P, P `prefix_of` W ->
        TxLog.survives st sz (Log.apply_writes P old) (Log.vdisk old) (tv_content v))
    (mkFs (Log.mkLog c st sz false 0 secs) inodes).
Proof.
  intros Hc Hid old Hm. pose proof Hid as [_ _ HD Hn _]. apply wp_bind, wp_blk.
  unfold Log.begin_trans. apply wp_bind, wp_gets. cbn [Log.lbusy fs_blk]. apply wp_modify.
  cbn [Log.cache Log.lstart Log.lsize Log.lh_n Log.lh_sector]. apply wp_bind.
  eapply wp_mono; [exact Hm|]. intros a s1 (v & Hv & Hd & HR). apply wp_bind, wp_blk.
  eapply wp_mono; [apply (TxLog.tx_commit old (Bio.cv_trace cv) st sz (fs_blk s1) v Hv Hd HD Hn)|].
  intros [] s2 (c' & secs' & cv' & W & -> & Hv' & Htr & Hdisk & Hcr). apply wp_ret.
  exists c', secs', cv', v, W. split_and!; done.
Qed.

Lemma transaction_atomic_witness :
  Log.idle 20 12 (replicate 10 0) (Bio.disk_view demo_blocks) /\
  wp (blk Log.begin_trans ;;; let* a := balloc 1 in blk Log.commit_trans ;;; ret a) (fun a _ => a = 7) (demo_fs false).
Proof.
  split; [exact demo_idle|].
  eapply wp_mono; [apply (transaction_atomic (balloc 1) (fun a _ => a = 7) demo_cache (Bio.disk_view demo_blocks)
    20 12 (replicate 10 0) demo_inodes demo_cache_sees demo_idle)|].
  - apply (balloc_wp demo_sb (demo_fs true) (demo_view true) 7 {[4; 7]} 0 _ (demo_fs_sees true) (demo_fs_ok true)
      (demo_holds true) demo_lowest).
    + vm_compute. split; [discriminate|reflexivity].
    + exact demo_plan.
    + apply demo_bitmap_in. lia.
    + set_solver.
    + intros d Hd. exists (t_alloc demo_sb 7 (demo_view true)). split; [exact Hd|]. split; [|done].
      split; [done|done|done|vm_compute; lia|]. change (1 ∉ ({[7]} ∪ ({[4]} ∪ ∅) : gset Z)). set_solver.
  - intros a s' (c' & secs' & cv' & v & W & _ & _ & Ha & _). exact Ha.
Defined.

End FsSpec.
