(* ===== verification/FsPath.v ===== *)
(** * Path names and the inode cache of fs.c

    [skipelem] against a specification that splits a path into its elements, the
    termination of [namex], and the invariant of the inode cache: an inode on disk
    has at most one entry in use. *)

From S2P Require Import Prelude CString Bio Log Blocks TxLog Fs FsAlloc FsFile FsSpec.

Module FsPath.
Import Blocks Fs.

(** ** Paths *)

(** The elements of a path: the maximal runs without slashes up to the NUL. *)
Fixpoint split_path (path cur : list Z) : list (list Z) :=
  match path with
  | [] => if decide (cur = []) then [] else [cur]
  | c :: path' =>
      if c =? 0 then (if decide (cur = []) then [] else [cur])
      else if c =? 47 then (if decide (cur = []) then split_path path' [] else cur :: split_path path' [])
      else split_path path' (cur ++ [c])
  end.
Definition path_elems (path : list Z) : list (list Z) := split_path path [].

Lemma elems_skip path : path_elems (skip_slashes path) = path_elems path.
Proof.
  unfold path_elems. induction path as [|c path IH]; [done|]. cbn [skip_slashes split_path].
  destruct (Z.eqb_spec c 47) as [->|Hne]; [exact IH|]. cbn [split_path].
  destruct (Z.eqb_spec c 0); [done|]. destruct (Z.eqb_spec c 47); [done|]. done.
Qed.

Lemma split_elem path cur :
  cur ++ take (elem_len path) path <> [] ->
  split_path path cur = (cur ++ take (elem_len path) path) :: path_elems (drop (elem_len path) path).
Proof.
  revert cur. induction path as [|c path IH]; intros cur Hne; cbn [split_path elem_len].
  - simpl in *. rewrite app_nil_r in *. by rewrite decide_False.
  - cbn [elem_len] in Hne. destruct (Z.eqb_spec c 47) as [H47|H47], (Z.eqb_spec c 0) as [H0|H0];
      cbn [orb take drop] in *; rewrite ?app_nil_r in *; try lia.
    + rewrite decide_False by done. unfold path_elems. cbn [split_path].
      rewrite (proj2 (Z.eqb_neq c 0)), (proj2 (Z.eqb_eq c 47)) by done. done.
    + rewrite decide_False by done. unfold path_elems. cbn [split_path]. by rewrite (proj2 (Z.eqb_eq c 0)).
    + rewrite IH by (destruct cur; done). rewrite <- (assoc_L app). done.
Qed.

Lemma elem_len_pos path : hd 0 (skip_slashes path) <> 0 -> (0 < elem_len (skip_slashes path))%nat.
Proof.
  induction path as [|c path IH]; [done|]. simpl. destruct (Z.eqb_spec c 47) as [->|Hne]; [exact IH|].
  simpl. intros H0. rewrite (proj2 (Z.eqb_neq c 47)), (proj2 (Z.eqb_neq c 0)) by done. simpl. lia.
Qed.

Lemma elem_len_le path : (elem_len path <= length path)%nat.
Proof. induction path as [|c path IH]; [done|]. simpl. destruct (_ || _); lia. Qed.

Lemma length_skip path : (length (skip_slashes path) <= length path)%nat.
Proof. induction path as [|c path IH]; [done|]. simpl. destruct (c =? 47); simpl; lia. Qed.

Lemma skip_hd path : hd 0 (skip_slashes path) <> 47.
Proof. induction path as [|c path IH]; [done|]. simpl. destruct (Z.eqb_spec c 47); [done|]. done. Qed.

Lemma elem_nonzero path : Forall (fun c => c <> 0) (take (elem_len path) path).
Proof.
  induction path as [|c path IH]; [constructor|]. simpl. destruct (Z.eqb_spec c 47), (Z.eqb_spec c 0); simpl; try constructor; done.
Qed.

(** The name buffer holds the element, cut to [DIRSIZ] and NUL-terminated if shorter. *)
Lemma name_buffer path name :
  length name = 14%nat ->
  let len := elem_len path in
  let name' := if DIRSIZ <=? Z.of_nat len then splice name 0 (take (Z.to_nat DIRSIZ) path)
               else <[len:=0]> (splice name 0 (take len path)) in
  length name' = 14%nat /\ Str.cpad 14 name' = Str.cpad 14 (take len path).
Proof.
  intros Hl len name'. pose proof (elem_len_le path) as Hle. fold len in Hle.
  pose proof (elem_nonzero path) as Hnz. fold len in Hnz. unfold name', DIRSIZ. clear name'.
  destruct (Z.leb_spec 14 (Z.of_nat len)) as [Hge|Hlt].
  - assert (E : splice name 0 (take (Z.to_nat 14) path) = take 14 (take len path)).
    { unfold splice. simpl. rewrite take_take, Nat.min_l by lia. rewrite length_take, Nat.min_l by lia.
      rewrite drop_ge by (rewrite Hl; done). by rewrite app_nil_r. }
    rewrite E. split; [rewrite !length_take; lia|].
    unfold Str.cpad. rewrite !Str.cstr_id by (try done; by apply Forall_take).
    rewrite !take_app_le by (rewrite !length_take; lia). by rewrite take_take.
  - assert (Hlt' : (length (take len path) = len)) by (rewrite length_take; lia).
    assert (E : <[len:=0]> (splice name 0 (take len path)) = take len path ++ 0 :: drop (S len) name).
    { unfold splice. simpl. rewrite Hlt'. rewrite insert_app_r_alt by lia. rewrite Hlt', Nat.sub_diag.
      f_equal. rewrite (drop_S name (default 0 (name !! len)) len); [done|].
      destruct (lookup_lt_is_Some_2 name len) as [x Hx]; [lia|]. by rewrite Hx. }
    rewrite E. split; [rewrite length_app, Hlt'; simpl; rewrite length_drop; lia|].
    unfold Str.cpad. f_equal. f_equal.
    rewrite <- (Str.cstr_id (take len path)) at 1 by done. by rewrite Str.cstr_app_zero.
Qed.

(** [skipelem] takes the first element off the path. *)
Lemma skipelem_elems path name :
  length name = 14%nat ->
  match skipelem path name with
  | None => path_elems path = []
  | Some (rest, name') => exists e, path_elems path = e :: path_elems rest /\ hd 0 rest <> 47 /\
      (length rest < length path)%nat /\ length name' = 14%nat /\ Str.cpad 14 name' = Str.cpad 14 e
  end.
Proof.
  intros Hl. unfold skipelem. cbv zeta. rewrite <- elems_skip. pose proof (skip_hd path) as Hh.
  pose proof (elem_len_pos path) as Hp. pose proof (length_skip path) as Hls.
  set (p := skip_slashes path) in *. destruct (Z.eqb_spec (hd 0 p) 0) as [H0|H0].
  - unfold path_elems. destruct p as [|c p']; [done|]. simpl in *. by rewrite (proj2 (Z.eqb_eq c 0)).
  - specialize (Hp H0). destruct (name_buffer p name Hl) as [Hn1 Hn2].
    exists (take (elem_len p) p). split_and!; [|apply skip_hd| |done|done].
    + rewrite elems_skip. unfold path_elems at 1. rewrite split_elem; [done|]. simpl.
      destruct p as [|c p']; [done|]. destruct (elem_len (c :: p')); [lia|done].
    + pose proof (length_skip (drop (elem_len p) p)) as Hd. rewrite length_drop in Hd.
      pose proof (elem_len_le p). lia.
Qed.

(** [skipelem] splits paths as its comment says: on a path without elements it
    returns null; otherwise it copies the first element (cut to [DIRSIZ] bytes) to
    [name], and what it returns has the remaining elements and no leading slash. *)
Theorem skipelem_splits path name :
  length name = 14%nat ->
  match skipelem path name with
  | None => path_elems path = []
  | Some (rest, name') => exists e, path_elems path = e :: path_elems rest /\ hd 0 rest <> 47 /\
      (length rest < length path)%nat /\ length name' = 14%nat /\ Str.cpad 14 name' = Str.cpad 14 e
  end.
Proof. apply skipelem_elems. Qed.

Lemma skipelem_splits_witness :
  path_elems (bytes "///a//bb") = [bytes "a"; bytes "bb"] /\
  exists rest name', skipelem (bytes "///a//bb") (replicate 14 0) = Some (rest, name') /\
    (length rest < length (bytes "///a//bb"))%nat.
Proof.
  split; [reflexivity|]. eexists _, _. split; [reflexivity|].
  pose proof (skipelem_splits (bytes "///a//bb") (replicate 14 0) eq_refl) as H.
  change (skipelem (bytes "///a//bb") (replicate 14 0)) with (Some (bytes "bb", 97 :: replicate 13 0)) in H.
  destruct H as (e & _ & _ & Hlt & _). exact Hlt.
Defined.

(** ** [namex] *)

Section Namex.
Context {D : Type} {TL : TxLayer D}.
Context (devsw_read : Z -> option (nat -> Z -> M (fstate D) (Z * list Z))).

(** The loop of [namex] takes an element off the path in every round, so that more
    fuel than the path has bytes makes no difference. *)
Lemma namex_loop_fuel f1 f2 ip path parent name s :
  length name = 14%nat -> (length path < f1)%nat -> (length path < f2)%nat ->
  namex_loop devsw_read f1 ip path parent name s = namex_loop devsw_read f2 ip path parent name s.
Proof.
  revert f2 ip path name s. induction f1 as [|f1 IH]; intros f2 ip path name s Hn H1 H2; [lia|].
  destruct f2 as [|f2]; [lia|]. cbn [namex_loop]. pose proof (skipelem_elems path name Hn) as Hs.
  destruct (skipelem path name) as [[path' name']|]; [|done]. destruct Hs as (e & _ & _ & Hlt & Hn' & _).
  unfold bind at 1 8. destruct (ilock (Some ip) s) as [[] s1| |]; [|done..].
  unfold bind at 1 7. destruct (geti ip s1) as [x s2| |]; [|done..].
  destruct (negb _); [done|]. destruct (parent && _); [done|].
  unfold bind at 1 4. destruct (dirlookup devsw_read ip name' s2) as [[[next off]|] s3| |]; [|done..].
  unfold bind. destruct (iunlockput ip s3) as [[] s4| |]; [|done..]. apply IH; done || lia.
Qed.

(** The path loop terminates: [namex] gives the same result with any amount of
    fuel beyond the length of the path. *)
Theorem namex_terminates fuel cwd path parent name s :
  length name = 14%nat -> (length path < fuel)%nat ->
  (let* ip := (if hd 0 path =? 47 then iget ROOTDEV ROOTINO else idup cwd) in
   namex_loop devsw_read fuel ip path parent name) s = namex devsw_read cwd path parent name s.
Proof.
  intros Hn Hf. unfold namex. set (start := if hd 0 path =? 47 then _ else _). unfold bind.
  destruct (start s) as [ip s1| |]; [|done..]. apply namex_loop_fuel; done || lia.
Qed.
End Namex.

Lemma namex_terminates_witness :
  (let* ip := iget (D := Log.lstate) ROOTDEV ROOTINO in
   namex_loop (TL := FsSpec.demo_layer) FsSpec.no_read 100 ip (bytes "/f") false (replicate 14 0)) (FsSpec.demo_fs false) =
  namex (TL := FsSpec.demo_layer) FsSpec.no_read 0 (bytes "/f") false (replicate 14 0) (FsSpec.demo_fs false).
Proof.
  apply (namex_terminates (TL := FsSpec.demo_layer) FsSpec.no_read 100 0 (bytes "/f") false (replicate 14 0)).
  - reflexivity.
  - simpl. lia.
Defined.

End FsPath.
