(* ===== verification/FsInode.v ===== *)
(** * The inode cache of fs.c as a shared table

    Processes get, duplicate, lock, unlock and drop references to cached inodes.
    Each of these runs under [icache.lock] (or while the entry is busy), so an
    execution is a sequence of them in any order.  The invariant: the reference
    count of an entry is the number of references that exist, an entry is busy
    exactly when someone has it locked, and no inode has two entries in use. *)

From S2P Require Import Prelude CString Bio Log Blocks TxLog Fs FsAlloc FsFile FsSpec.

Module FsInode.
Import Blocks Fs.

(** What the other operations leave alone in an entry. *)
Definition ident (x : inode) : Z * Z * Z * bool := (i_dev x, i_inum x, i_ref x, has_flag (i_flags x) I_BUSY).
Definition idents {D} (s : fstate D) : list (Z * Z * Z * bool) := ident <$> icache s.

Section Keeps.
Context {D : Type}.

Definition keeps {A} (m : M (fstate D) A) : Prop := forall s a s', m s = Ret a s' -> idents s' = idents s.

Lemma keeps_ret {A} (a : A) : keeps (ret a).
Proof. by intros s a' s' [= _ <-]. Qed.
Lemma keeps_panic {A} msg : keeps (A := A) (panic msg).
Proof. by intros s a s'. Qed.
Lemma keeps_block {A} : keeps (A := A) block.
Proof. by intros s a s'. Qed.
Lemma keeps_geti ip : keeps (geti ip).
Proof. by intros s a s' [= _ <-]. Qed.

Lemma keeps_bind {A B} (m : M (fstate D) A) (k : A -> M (fstate D) B) :
  keeps m -> (forall a, keeps (k a)) -> keeps (bind m k).
Proof.
  intros Hm Hk s b s'. unfold bind. destruct (m s) as [a s1| |] eqn:E; [|done..]. intros E'.
  rewrite (Hk a s1 b s' E'). by apply (Hm s a s1).
Qed.

Lemma keeps_blk {A} (m : M D A) : keeps (blk m).
Proof. intros s a s'. unfold blk, zoom. by destruct (m (fs_blk s)) as [b d| |]; [intros [= _ <-]|..]. Qed.

Lemma idents_insert (s : fstate D) ip x y :
  icache s !! ip = Some x -> ident y = ident x -> idents (mkFs (fs_blk s) (<[ip:=y]> (icache s))) = idents s.
Proof.
  intros Hx Hy. unfold idents. simpl. rewrite list_fmap_insert, Hy. apply list_insert_id.
  by rewrite list_lookup_fmap, Hx.
Qed.

Lemma keeps_updi ip f : (forall x, ident (f x) = ident x) -> keeps (updi ip f).
Proof.
  intros Hf s a s' [= _ <-]. destruct (icache s !! ip) as [x|] eqn:E.
  - simpl. by apply idents_insert with x.
  - unfold idents. simpl. by rewrite list_insert_ge by (by apply lookup_ge_None).
Qed.

Lemma keeps_for n i body : (forall j, keeps (body j)) -> keeps (for_upto n i body).
Proof.
  intros Hb. revert i. induction n as [|n IH]; intros i; [apply keeps_ret|].
  apply keeps_bind; [apply Hb|]. intros _. apply IH.
Qed.
End Keeps.

Create HintDb keeps.
#[export] Hint Resolve keeps_ret keeps_panic keeps_block keeps_geti keeps_blk : keeps.

(** Goes through the code of an operation. *)
Ltac keeps_tac :=
  repeat first
    [ solve [eauto with keeps]
    | apply keeps_updi; by intros []
    | apply keeps_bind; [|intros ?]
    | apply keeps_for; intros ?
    | progress cbv zeta
    | match goal with
      | |- keeps (if ?b then _ else _) => destruct b
      | |- keeps (match ?o with _ => _ end) => destruct o
      end ].

Section Ops.
Context {D : Type} {TL : TxLayer D}.

Lemma keeps_readsb d : keeps (readsb d).
Proof. unfold readsb. keeps_tac. Qed.
Lemma keeps_bzero d b : keeps (bzero d b).
Proof. unfold bzero. keeps_tac. Qed.
#[local] Hint Resolve keeps_readsb keeps_bzero : keeps.
Lemma keeps_balloc_loop fuel d sb b : keeps (balloc_loop fuel d sb b).
Proof. revert b. induction fuel as [|fuel IH]; intros b; cbn [balloc_loop]; keeps_tac. Qed.
#[local] Hint Resolve keeps_balloc_loop : keeps.
Lemma keeps_balloc d : keeps (balloc d).
Proof. unfold balloc. keeps_tac. Qed.
Lemma keeps_bfree d b : keeps (bfree d b).
Proof. unfold bfree. keeps_tac. Qed.
Lemma keeps_iupdate ip : keeps (iupdate ip).
Proof. unfold iupdate. keeps_tac. Qed.
#[local] Hint Resolve keeps_balloc keeps_bfree keeps_iupdate : keeps.
Lemma keeps_bmap ip bn : keeps (bmap ip bn).
Proof. unfold bmap. keeps_tac. Qed.
Lemma keeps_itrunc ip : keeps (itrunc ip).
Proof. unfold itrunc, trunc_direct, trunc_indirect. keeps_tac. Qed.
#[local] Hint Resolve keeps_bmap keeps_itrunc : keeps.
Lemma keeps_readi_loop fuel ip off n tot acc : keeps (readi_loop fuel ip off n tot acc).
Proof. revert off tot acc. induction fuel as [|fuel IH]; intros; cbn [readi_loop]; keeps_tac. Qed.
Lemma keeps_writei_loop fuel ip src off n tot : keeps (writei_loop fuel ip src off n tot).
Proof. revert off tot. induction fuel as [|fuel IH]; intros; cbn [writei_loop]; keeps_tac. Qed.
#[local] Hint Resolve keeps_readi_loop keeps_writei_loop : keeps.

(** Reading and writing files, with device functions that leave the cache alone. *)
Context (devsw_read : Z -> option (nat -> Z -> M (fstate D) (Z * list Z))).
Context (devsw_write : Z -> option (nat -> list Z -> Z -> M (fstate D) Z)).
Context (Hdr : forall major f, devsw_read major = Some f -> forall ip n, keeps (f ip n)).
Context (Hdw : forall major f, devsw_write major = Some f -> forall ip src n, keeps (f ip src n)).

Lemma keeps_readi ip off n : keeps (readi devsw_read ip off n).
Proof.
  unfold readi. apply keeps_bind; [apply keeps_geti|]. intros x. cbv zeta. destruct (_ =? T_DEV); [|keeps_tac].
  destruct (_ || _); [keeps_tac|]. destruct (devsw_read _) as [f|] eqn:E; [by eapply Hdr|keeps_tac].
Qed.

Lemma keeps_writei ip src off n : keeps (writei devsw_write ip src off n).
Proof.
  unfold writei. apply keeps_bind; [apply keeps_geti|]. intros x. cbv zeta. destruct (_ =? T_DEV); [|keeps_tac].
  destruct (_ || _); [keeps_tac|]. destruct (devsw_write _) as [f|] eqn:E; [by eapply Hdw|keeps_tac].
Qed.
End Ops.

(** ** References and locks *)

(** How often [ip] occurs. *)
Definition count (ip : nat) (l : list nat) : nat := length (filter (fun j => j = ip) l).

Lemma count_cons ip j l : count ip (j :: l) = (if decide (j = ip) then S (count ip l) else count ip l).
Proof. unfold count. rewrite filter_cons. by case_decide. Qed.

Lemma count_remove ip j l :
  j ∈ l -> count ip l = (if decide (j = ip) then S (count ip (remove_one j l)) else count ip (remove_one j l)).
Proof.
  induction l as [|y l IH]; intros Hj; [by apply not_elem_of_nil in Hj|]. cbn [remove_one].
  rewrite count_cons. destruct (decide (j = y)) as [->|Hne]; [done|].
  apply elem_of_cons in Hj as [->|Hj]; [done|]. specialize (IH Hj). rewrite count_cons.
  repeat case_decide; congruence.
Qed.

Lemma count_pos ip l : ip ∈ l -> (0 < count ip l)%nat.
Proof. intros H. rewrite (count_remove ip ip l H), decide_True by done. lia. Qed.

Lemma count_in ip l : (0 < count ip l)%nat -> ip ∈ l.
Proof.
  induction l as [|y l IH]; [unfold count; simpl; lia|]. rewrite count_cons, elem_of_cons.
  case_decide; [by left|]. intros Hp. right. by apply IH.
Qed.

Section Sys.
Context {D : Type} {TL : TxLayer D}.

(** The cache, the references and the locks that processes hold. *)
Record sys := mkSys { fs : fstate D; refs : list nat; locks : list nat }.

Inductive step : sys -> sys -> Prop :=
| step_iget s r l d inum ip s' :
    iget d inum s = Ret ip s' -> step (mkSys s r l) (mkSys s' (ip :: r) l)
| step_idup s r l ip ip' s' :
    ip ∈ r -> idup ip s = Ret ip' s' -> step (mkSys s r l) (mkSys s' (ip :: r) l)
| step_ilock s r l ip s' :
    ip ∈ r -> ilock (Some ip) s = Ret tt s' -> step (mkSys s r l) (mkSys s' r (ip :: l))
| step_iunlock s r l ip s' :
    ip ∈ l -> iunlock (Some ip) s = Ret tt s' -> step (mkSys s r l) (mkSys s' r (remove_one ip l))
| step_iput s r l ip s' :
    ip ∈ r -> (count ip l < count ip r)%nat -> iput ip s = Ret tt s' ->
    step (mkSys s r l) (mkSys s' (remove_one ip r) l)
| step_use {A} (m : M (fstate D) A) s r l a s' :
    keeps m -> m s = Ret a s' -> step (mkSys s r l) (mkSys s' r l).

Record inv (x : sys) : Prop := {
  v_ref : forall ip e, icache (fs x) !! ip = Some e -> i_ref e = Z.of_nat (count ip (refs x));
  v_busy : forall ip e, icache (fs x) !! ip = Some e ->
    count ip (locks x) = if has_flag (i_flags e) I_BUSY then 1%nat else 0%nat;
  v_held : forall ip, (count ip (locks x) <= count ip (refs x))%nat;
  v_in : forall ip, ip ∈ refs x -> is_Some (icache (fs x) !! ip);
  v_unique : forall i j e f, icache (fs x) !! i = Some e -> icache (fs x) !! j = Some f ->
    0 < i_ref e -> 0 < i_ref f -> i_dev e = i_dev f -> i_inum e = i_inum f -> i = j
}.

(** The invariant depends on the identities of the entries only. *)
Lemma inv_idents s s' r l : idents s' = idents s -> inv (mkSys s r l) -> inv (mkSys s' r l).
Proof.
  intros E [V1 V2 V3 V4 V5]. simpl in *.
  assert (Hl : forall ip e, icache s' !! ip = Some e -> exists e0, icache s !! ip = Some e0 /\ ident e0 = ident e).
  { intros ip e He. assert (H : idents s' !! ip = Some (ident e)) by (unfold idents; by rewrite list_lookup_fmap, He).
    rewrite E in H. unfold idents in H. rewrite list_lookup_fmap in H.
    destruct (icache s !! ip) as [e0|]; [|done]. exists e0. split; [done|]. simpl in H. congruence. }
  split; simpl.
  - intros ip e He. destruct (Hl ip e He) as (e0 & He0 & [= _ _ <- _]). eauto.
  - intros ip e He. destruct (Hl ip e He) as (e0 & He0 & [= _ _ _ <-]). eauto.
  - done.
  - intros ip Hip. destruct (V4 ip Hip) as [e He]. apply lookup_lt_is_Some_2.
    rewrite <- (length_fmap ident (icache s')). change (ip < length (idents s'))%nat. rewrite E.
    unfold idents. rewrite length_fmap. by eapply lookup_lt_Some.
  - intros i j e f He Hf. destruct (Hl i e He) as (e0 & He0 & [= <- <- <- _]).
    destruct (Hl j f Hf) as (f0 & Hf0 & [= <- <- <- _]). eauto.
Qed.

(** The entry of [ip] changes, and the references and locks with it. *)
Lemma inv_update s r l ip e e' b' r' l' :
  inv (mkSys s r l) -> icache s !! ip = Some e ->
  i_ref e' = Z.of_nat (count ip r') -> count ip l' = (if has_flag (i_flags e') I_BUSY then 1 else 0)%nat ->
  (count ip l' <= count ip r')%nat ->
  (forall j, j <> ip -> count j r' = count j r /\ count j l' = count j l) ->
  (forall j, j ∈ r' -> is_Some (icache s !! j)) ->
  (0 < i_ref e' -> (i_dev e' = i_dev e /\ i_inum e' = i_inum e /\ 0 < i_ref e) \/
     forall j f, icache s !! j = Some f -> j <> ip -> 0 < i_ref f -> ~ (i_dev f = i_dev e' /\ i_inum f = i_inum e')) ->
  inv (mkSys (mkFs b' (<[ip:=e']> (icache s))) r' l').
Proof.
  intros [V1 V2 V3 V4 V5] He H1 H2 H3 H4 H5 H6. simpl in *. pose proof (lookup_lt_Some _ _ _ He) as Hlt.
  split; simpl.
  - intros j f Hf. apply list_lookup_insert_Some in Hf as [(-> & -> & _)|[Hne Hf]]; [done|].
    destruct (H4 j) as [-> _]; [done|]. by apply V1.
  - intros j f Hf. apply list_lookup_insert_Some in Hf as [(-> & -> & _)|[Hne Hf]]; [done|].
    destruct (H4 j) as [_ ->]; [done|]. by apply V2.
  - intros j. destruct (decide (j = ip)) as [->|Hne]; [done|]. destruct (H4 j) as [-> ->]; [done|]. apply V3.
  - intros j Hj. apply lookup_lt_is_Some_2. rewrite length_insert. apply lookup_lt_is_Some. by apply H5.
  - intros i j f g Hf Hg Hrf Hrg Hd Hn.
    apply list_lookup_insert_Some in Hf as [(Ei & Ef & _)|[Hnei Hf]];
      apply list_lookup_insert_Some in Hg as [(Ej & Eg & _)|[Hnej Hg]].
    + congruence.
    + subst i f. destruct (H6 Hrf) as [(A1 & A2 & A3)|A].
      * apply (V5 ip j e g); try done; congruence.
      * exfalso. by apply (A j g).
    + subst j g. destruct (H6 Hrg) as [(A1 & A2 & A3)|A].
      * apply (V5 i ip f e); try done; congruence.
      * exfalso. by apply (A i f).
    + by apply (V5 i j f g).
Qed.

Lemma flag_set f : has_flag (set_flag f I_BUSY) I_BUSY = true.
Proof.
  unfold has_flag, set_flag, I_BUSY. apply negb_true_iff, Z.eqb_neq. intros H.
  apply (f_equal (fun z => Z.testbit z 0)) in H. by rewrite Z.land_spec, Z.lor_spec, orb_true_r in H.
Qed.
Lemma flag_clear f : has_flag (clear_flag f I_BUSY) I_BUSY = false.
Proof.
  unfold has_flag, clear_flag, I_BUSY. apply negb_false_iff, Z.eqb_eq.
  rewrite <- Z.land_assoc. change (Z.land (Z.lnot 1) 1) with 0. apply Z.land_0_r.
Qed.
Lemma flag_valid f : has_flag (set_flag f I_VALID) I_BUSY = has_flag f I_BUSY.
Proof.
  unfold has_flag, set_flag, I_BUSY, I_VALID. rewrite Z.land_lor_distr_l. change (Z.land 2 1) with 0.
  by rewrite Z.lor_0_r.
Qed.

Lemma iget_scan_spec d inum l i empty :
  match iget_scan d inum l i empty with
  | (Some ip, _) => exists x, l !! (ip - i)%nat = Some x /\ (i <= ip)%nat /\ 0 < i_ref x /\ i_dev x = d /\ i_inum x = inum
  | (None, e) =>
      (forall j x, l !! j = Some x -> 0 < i_ref x -> ~ (i_dev x = d /\ i_inum x = inum)) /\
      (forall ip, e = Some ip -> empty = Some ip \/ (i <= ip)%nat /\ exists x, l !! (ip - i)%nat = Some x /\ i_ref x = 0)
  end.
Proof.
  revert i empty. induction l as [|x l IH]; intros i empty; cbn [iget_scan].
  - split; [done|]. intros ip ->. by left.
  - destruct ((0 <? i_ref x) && (i_dev x =? d) && (i_inum x =? inum)) eqn:E.
    + exists x. rewrite Nat.sub_diag. apply andb_true_iff in E as [[E1 E2]%andb_true_iff E3]. split_and!; [done|lia|lia|lia|lia].
    + set (empty' := match empty with None => if i_ref x =? 0 then Some i else None | _ => empty end).
      specialize (IH (S i) empty'). destruct (iget_scan d inum l (S i) empty') as [[ip|] e].
      * destruct IH as (y & Hy & Hle & Hr). exists y. replace (ip - i)%nat with (S (ip - S i)) by lia. split_and!; [done|lia|apply Hr..].
      * destruct IH as [H1 H2]. split.
        -- intros [|j] y Hy Hr [Hd Hi]; [|by apply (H1 j y)]. simpl in Hy. injection Hy as ->.
           rewrite (proj2 (Z.ltb_lt _ _) Hr), (proj2 (Z.eqb_eq _ _) Hd), (proj2 (Z.eqb_eq _ _) Hi) in E. done.
        -- intros ip He. destruct (H2 ip He) as [He'|(Hle & y & Hy & Hr)].
           ++ unfold empty' in He'. destruct empty as [p|]; [by left|]. destruct (Z.eqb_spec (i_ref x) 0) as [E0|]; [|done].
              injection He' as <-. right. split; [lia|]. exists x. by rewrite Nat.sub_diag.
           ++ right. split; [lia|]. exists y. by replace (ip - i)%nat with (S (ip - S i)) by lia.
Qed.

Lemma updi_eq (s : fstate D) ip f x :
  icache s !! ip = Some x -> updi ip f s = Ret tt (mkFs (fs_blk s) (<[ip:=f x]> (icache s))).
Proof. intros Hx. unfold updi, bind, geti, gets. simpl. by rewrite Hx. Qed.

Lemma inv_iget s r l d inum ip s' :
  inv (mkSys s r l) -> iget d inum s = Ret ip s' -> inv (mkSys s' (ip :: r) l).
Proof.
  intros V. pose proof V as [V1 V2 V3 V4 V5]. simpl in *. unfold iget, bind at 1, gets. cbn beta iota.
  pose proof (iget_scan_spec d inum (icache s) 0 None) as Hs.
  destruct (iget_scan d inum (icache s) 0 None) as [[p|] [e|]].
  1,2: destruct Hs as (x & Hx & _ & Hr & Hd & Hi); rewrite Nat.sub_0_r in Hx; unfold bind; rewrite (updi_eq s p _ x Hx);
    intros [= <- <-]; eapply (inv_update s r l p x); [done|done| | | | | |].
  1,7: simpl; rewrite count_cons, decide_True by done; rewrite (V1 p x Hx); lia.
  1,6: simpl; by apply V2.
  1,5: rewrite count_cons, decide_True by done; specialize (V3 p); lia.
  1,4: intros j Hj; rewrite count_cons, decide_False by done; done.
  1,3: intros j [->|Hj]%elem_of_cons; [by rewrite Hx|by apply V4].
  1,2: simpl; intros _; left; done.
  2: done.
  destruct Hs as [Hno He]. destruct (He e eq_refl) as [?|(_ & x & Hx & Hr)]; [done|]. rewrite Nat.sub_0_r in Hx.
  unfold bind. rewrite (updi_eq s e _ x Hx). intros [= <- <-].
  pose proof (V1 e x Hx) as Hre. pose proof (V3 e) as H3e.
  eapply (inv_update s r l e x); [done|done| | | | | |]; simpl.
  - rewrite count_cons, decide_True by done. lia.
  - change (has_flag 0 I_BUSY) with false. simpl. lia.
  - rewrite count_cons, decide_True by done. lia.
  - intros j Hj. rewrite count_cons, decide_False by done. done.
  - intros j [->|Hj]%elem_of_cons; [by rewrite Hx|by apply V4].
  - intros _. right. intros j f Hf Hj Hrf. by apply (Hno j f).
Qed.

Lemma inv_idup s r l ip ip' s' :
  inv (mkSys s r l) -> ip ∈ r -> idup ip s = Ret ip' s' -> inv (mkSys s' (ip :: r) l).
Proof.
  intros V Hin. pose proof V as [V1 V2 V3 V4 V5]. simpl in *. destruct (V4 ip Hin) as [x Hx].
  unfold idup, bind at 1. rewrite (updi_eq s ip _ x Hx). intros [= _ <-].
  pose proof (count_pos ip r Hin) as Hp. pose proof (V1 ip x Hx) as Hr.
  eapply (inv_update s r l ip x); [done|done| | | | | |]; simpl.
  - rewrite count_cons, decide_True by done. lia.
  - by apply V2.
  - rewrite count_cons, decide_True by done. specialize (V3 ip). lia.
  - intros j Hj. rewrite count_cons, decide_False by done. done.
  - intros j [->|Hj]%elem_of_cons; [by rewrite Hx|by apply V4].
  - intros _. left. split_and!; [done|done|lia].
Qed.

(** The part of [ilock] that reads the inode in. *)
Definition ilock_read (ip : nat) : M (fstate D) unit :=
  let* x := geti ip in
  if has_flag (i_flags x) I_VALID then ret tt
  else
    let* bp := blk (bread (i_dev x) (IBLOCK (i_inum x))) in
    let* data := blk (bdata bp) in
    updi ip (set_d (get_dinode data (i_inum x))) ;;;
    blk (brelse bp) ;;;
    updi ip (fun x => set_iflags (set_flag (i_flags x) I_VALID) x) ;;;
    let* x := geti ip in
    if d_type (i_d x) =? 0 then panic "ilock: no type" else ret tt.

Lemma keeps_valid ip : keeps (D := D) (updi ip (fun x => set_iflags (set_flag (i_flags x) I_VALID) x)).
Proof. apply keeps_updi. intros x. unfold ident. simpl. by rewrite flag_valid. Qed.
#[local] Hint Resolve keeps_valid : keeps.

Lemma keeps_ilock_read ip : keeps (ilock_read ip).
Proof. unfold ilock_read. keeps_tac. Qed.

Lemma inv_ilock s r l ip s' :
  inv (mkSys s r l) -> ip ∈ r -> ilock (Some ip) s = Ret tt s' -> inv (mkSys s' r (ip :: l)).
Proof.
  intros V Hin. pose proof V as [V1 V2 V3 V4 V5]. simpl in *. destruct (V4 ip Hin) as [x Hx].
  unfold ilock, bind at 1, geti at 1, gets. cbn beta iota. rewrite Hx. change (default zero_inode (Some x)) with x.
  destruct (i_ref x <? 1); [by intros [=]|]. destruct (has_flag (i_flags x) I_BUSY) eqn:Eb; [by intros [=]|].
  unfold bind at 1. rewrite (updi_eq s ip _ x Hx). fold (ilock_read ip). intros E.
  apply keeps_ilock_read in E. eapply inv_idents; [exact E|].
  pose proof (V2 ip x Hx) as H2. rewrite Eb in H2. pose proof (count_pos ip r Hin) as Hp.
  eapply (inv_update s r l ip x); [done|done| | | | | |]; simpl.
  - by apply V1.
  - rewrite flag_set, count_cons, decide_True by done. lia.
  - rewrite count_cons, decide_True by done. lia.
  - intros j Hj. rewrite count_cons, decide_False by done. done.
  - done.
  - intros Hpos. by left.
Qed.

Lemma inv_iunlock s r l ip s' :
  inv (mkSys s r l) -> ip ∈ l -> iunlock (Some ip) s = Ret tt s' -> inv (mkSys s' r (remove_one ip l)).
Proof.
  intros V Hin. pose proof V as [V1 V2 V3 V4 V5]. simpl in *.
  pose proof (count_pos ip l Hin) as Hp. pose proof (V3 ip) as H3.
  assert (Hr : ip ∈ r).
  { apply count_in. lia. }
  destruct (V4 ip Hr) as [x Hx]. unfold iunlock, bind at 1, geti at 1, gets. cbn beta iota. rewrite Hx. change (default zero_inode (Some x)) with x.
  destruct (_ || _); [by intros [=]|]. rewrite (updi_eq s ip _ x Hx). intros [= <-].
  pose proof (V2 ip x Hx) as H2.
  assert (Hc : forall j, count j l = if decide (ip = j) then S (count j (remove_one ip l)) else count j (remove_one ip l))
    by (intros j; by apply count_remove).
  pose proof (Hc ip) as Hcp. rewrite decide_True in Hcp by done.
  eapply (inv_update s r l ip x); [done|done| | | | | |]; simpl.
  - by apply V1.
  - rewrite flag_clear. destruct (has_flag (i_flags x) I_BUSY); lia.
  - lia.
  - intros j Hj. split; [done|]. rewrite (Hc j). by rewrite decide_False by done.
  - done.
  - intros Hpos. by left.
Qed.

(** The freeing part of [iput] returns the entry as it found it. *)
Lemma iput_free_idents s ip x s1 :
  icache s !! ip = Some x -> has_flag (i_flags x) I_BUSY = false ->
  (updi ip (fun x => set_iflags (set_flag (i_flags x) I_BUSY) x) ;;;
   itrunc ip ;;;
   updi ip (fun x => set_d (set_type 0 (i_d x)) x) ;;;
   iupdate ip ;;;
   updi ip (set_iflags 0)) s = Ret tt s1 ->
  idents s1 = idents s.
Proof.
  intros Hx Hb. unfold bind at 1. rewrite (updi_eq s ip _ x Hx).
  set (sa := mkFs (fs_blk s) (<[ip:=set_iflags (set_flag (i_flags x) I_BUSY) x]> (icache s))).
  assert (Hk : keeps (itrunc ip ;;; updi ip (fun x => set_d (set_type 0 (i_d x)) x) ;;; iupdate ip)).
  { apply keeps_bind; [apply keeps_itrunc|intros _]. apply keeps_bind; [by apply keeps_updi|intros _]. apply keeps_iupdate. }
  intros E. assert (Hsb : exists sb, (itrunc ip ;;; updi ip (fun x => set_d (set_type 0 (i_d x)) x) ;;; iupdate ip) sa = Ret tt sb /\
    updi ip (set_iflags 0) sb = Ret tt s1).
  { unfold bind in E |- *. destruct (itrunc ip sa) as [[] s2| |]; [|done..].
    destruct (updi ip _ s2) as [[] s3| |]; [|done..]. destruct (iupdate ip s3) as [[] s4| |]; [|done..]. eauto. }
  destruct Hsb as (sb & Esb & E1). apply Hk in Esb.
  assert (Hlt : (ip < length (icache s))%nat) by by eapply lookup_lt_Some.
  assert (Hsb : idents sb = <[ip:=(i_dev x, i_inum x, i_ref x, true)]> (idents s)).
  { rewrite Esb. unfold idents, sa. simpl. rewrite list_fmap_insert. do 2 f_equal. unfold ident. simpl. by rewrite flag_set. }
  assert (Hy : exists y, icache sb !! ip = Some y /\ ident y = (i_dev x, i_inum x, i_ref x, true)).
  { assert (H : idents sb !! ip = Some (i_dev x, i_inum x, i_ref x, true)).
    { rewrite Hsb. apply list_lookup_insert_eq. unfold idents. by rewrite length_fmap. }
    unfold idents in H. rewrite list_lookup_fmap in H. destruct (icache sb !! ip) as [y|]; [|done].
    exists y. split; [done|]. simpl in H. congruence. }
  destruct Hy as (y & Hy & Hiy). rewrite (updi_eq sb ip _ y Hy) in E1. injection E1 as <-.
  unfold idents at 1. simpl. rewrite list_fmap_insert. fold (idents sb). rewrite Hsb, list_insert_insert_eq.
  apply list_insert_id. unfold idents. rewrite list_lookup_fmap, Hx. simpl. f_equal.
  unfold ident in *. simpl. injection Hiy as -> -> -> _. by rewrite Hb.
Qed.

Lemma inv_iput s r l ip s' :
  inv (mkSys s r l) -> ip ∈ r -> (count ip l < count ip r)%nat -> iput ip s = Ret tt s' ->
  inv (mkSys s' (remove_one ip r) l).
Proof.
  intros V Hin Hc. pose proof V as [V1 V2 V3 V4 V5]. simpl in *. destruct (V4 ip Hin) as [x Hx].
  unfold iput, bind at 1, geti at 1, gets. cbn beta iota. rewrite Hx. change (default zero_inode (Some x)) with x.
  unfold bind at 1. intros E.
  assert (Hs1 : exists s1, idents s1 = idents s /\ updi ip (fun x => set_ref (i_ref x - 1) x) s1 = Ret tt s').
  { destruct (_ && _) in E.
    - destruct (has_flag (i_flags x) I_BUSY) eqn:Eb; [discriminate E|].
      match type of E with match ?m with _ => _ end = _ => destruct m as [[] s1| |] eqn:E1 end; [|done..].
      exists s1. split; [by apply (iput_free_idents s ip x s1)|done].
    - exists s. by split. }
  destruct Hs1 as (s1 & Hid & E1). assert (V' : inv (mkSys s1 r l)) by by eapply inv_idents.
  clear V V1 V2 V3 V4 V5 E. pose proof V' as [V1 V2 V3 V4 V5]. simpl in *. destruct (V4 ip Hin) as [y Hy].
  rewrite (updi_eq s1 ip _ y Hy) in E1. injection E1 as <-.
  assert (Hcr : forall j, count j r = if decide (ip = j) then S (count j (remove_one ip r)) else count j (remove_one ip r))
    by (intros j; by apply count_remove).
  pose proof (Hcr ip) as Hcp. rewrite decide_True in Hcp by done. pose proof (V1 ip y Hy) as Hr1.
  eapply (inv_update s1 r l ip y); [done|done| | | | | |]; simpl.
  - lia.
  - by apply V2.
  - lia.
  - intros j Hj. split; [|done]. rewrite (Hcr j). by rewrite decide_False by done.
  - intros j Hj. apply V4. by eapply elem_of_remove_one_sub.
  - intros Hpos. left. split_and!; [done|done|lia].
Qed.

Lemma icache_inv_step x y : step x y -> inv x -> inv y.
Proof.
  intros [] V; [by eapply inv_iget|by eapply inv_idup|by eapply inv_ilock|by eapply inv_iunlock|by eapply inv_iput|].
  eapply inv_idents; [by eapply H|done].
Qed.

(** C21: over every sequence of operations on the inode cache by any number of
    processes: the reference count of an entry is the number of references held,
    an entry is busy exactly when it is locked and then by one process only, and
    two entries in use never stand for the same inode. *)
Theorem icache_invariant x y : rtc step x y -> inv x -> inv y.
Proof. induction 1 as [|x y z Hs _ IH]; intros V; [done|]. apply IH. by eapply icache_inv_step. Qed.
End Sys.

(** Two references to inode 2 share an entry. *)
Definition empty_sys : sys (D := Log.lstate) := mkSys (mkFs (FsSpec.demo_log false) (replicate 50 zero_inode)) [] [].

Lemma empty_inv : inv empty_sys.
Proof.
  assert (H : forall ip e, replicate 50 zero_inode !! ip = Some e -> e = zero_inode)
    by (intros ip e [-> _]%lookup_replicate; done).
  split; simpl.
  - intros ip e He. by rewrite (H ip e He).
  - intros ip e He. by rewrite (H ip e He).
  - done.
  - intros ip Hip. by apply not_elem_of_nil in Hip.
  - intros i j e f He _ Hr. rewrite (H i e He) in Hr. done.
Qed.

Definition entry_refs (n : Z) : list inode := <[0%nat:=mkInode 1 2 n 0 zero_dinode]> (replicate 50 zero_inode).

Lemma two_igets {D} (b : D) :
  iget 1 2 (mkFs b (replicate 50 zero_inode)) = Ret 0%nat (mkFs b (entry_refs 1)) /\
  iget 1 2 (mkFs b (entry_refs 1)) = Ret 0%nat (mkFs b (entry_refs 2)).
Proof. split; reflexivity. Qed.

Lemma two_refs :
  rtc (step (TL := FsSpec.demo_layer)) empty_sys (mkSys (mkFs (FsSpec.demo_log false) (entry_refs 2)) [0%nat; 0%nat] []).
Proof.
  destruct (two_igets (FsSpec.demo_log false)) as [E1 E2].
  eapply rtc_l; [by eapply step_iget|]. eapply rtc_once. by eapply step_iget.
Qed.

Lemma icache_invariant_witness :
  inv (mkSys (mkFs (FsSpec.demo_log false) (entry_refs 2)) [0%nat; 0%nat] []).
Proof. apply (icache_invariant empty_sys _ two_refs empty_inv). Defined.

End FsInode.
