(* ===== verification/Kalloc.v ===== *)
(** * kalloc.c: the physical page allocator

    [Module Kalloc] translates kalloc.c with the macros of mmu.h and memlayout.h it
    uses.  Memory is the bytes at the physical addresses; the kernel reaches the
    physical address [a] at the virtual address [p2v a].  The free list is
    linked through the free pages, as in the code, so that a stray write to a free
    page would corrupt it.  The critical sections of [kmem.lock] are single steps.

    [kalloc_invariant] states that no page is handed out twice, whatever the
    owners write to their pages; [freerange_frees] what initialisation puts on the
    free list. *)

From S2P Require Import Prelude.

Module Kalloc.

Definition PGSIZE : Z := 4096.
Definition KERNBASE : Z := 2147483648.
Definition EXTMEM : Z := 1048576.
Definition KERNLINK : Z := KERNBASE + EXTMEM.
Definition PHYSTOP : Z := 234881024.
Definition DEVSPACE : Z := 4261412864.

Definition v2p (a : Z) : Z := u32 (a - KERNBASE).
Definition p2v (a : Z) : Z := u32 (a + KERNBASE).
Definition PGROUNDUP (sz : Z) : Z := Z.land (u32 (sz + PGSIZE - 1)) (Z.lnot (PGSIZE - 1)).
Definition PGROUNDDOWN (a : Z) : Z := Z.land a (Z.lnot (PGSIZE - 1)).

(** ** Memory *)

Definition memory : Type := Z -> Z.

(** The 32-bit word at [a]; [memset], [memmove] and a copy from a buffer. *)
Definition load32 (m : memory) (a : Z) : Z :=
  m a + 256 * m (a + 1) + 65536 * m (a + 2) + 16777216 * m (a + 3).
Definition store32 (m : memory) (a w : Z) : memory := fun x =>
  if (a <=? x) && (x <? a + 4) then u8 (Z.shiftr w (8 * (x - a))) else m x.
Definition m_fill (m : memory) (a n c : Z) : memory := fun x =>
  if (a <=? x) && (x <? a + n) then u8 c else m x.
Definition m_move (m : memory) (dst src n : Z) : memory := fun x =>
  if (dst <=? x) && (x <? dst + n) then m (src + (x - dst)) else m x.
Definition m_write (m : memory) (a : Z) (l : list Z) : memory := fun x =>
  if (a <=? x) && (x <? a + Z.of_nat (length l)) then default 0 (l !! Z.to_nat (x - a)) else m x.

(** [struct kmem] without its lock, and memory. *)
Record kstate := mkK { mem : memory; use_lock : bool; freelist : Z }.

Definition set_mem (f : memory -> memory) : M kstate unit :=
  modify (fun s => mkK (f (mem s)) (use_lock s) (freelist s)).
Definition set_freelist (r : Z) : M kstate unit := modify (fun s => mkK (mem s) (use_lock s) r).
Definition set_use_lock (b : bool) : M kstate unit := modify (fun s => mkK (mem s) b (freelist s)).

Section Alloc.
(** [end]: the first address after the kernel, set by the linker. *)
Context (kend : Z).

Definition kfree (v : Z) : M kstate unit :=
  if negb (v mod PGSIZE =? 0) || (v <? kend) || (PHYSTOP <=? v2p v) then panic "kfree"
  else
    set_mem (fun m => m_fill m (v2p v) PGSIZE 1) ;;;
    let* next := gets freelist in
    set_mem (fun m => store32 m (v2p v) next) ;;;
    set_freelist v.

Definition kalloc : M kstate Z :=
  let* r := gets freelist in
  (if r =? 0 then ret tt
   else let* m := gets mem in set_freelist (load32 m (v2p r))) ;;;
  ret r.

(** A round of [freerange] returns only for a page below [vend], so there are at
    most [vend / PGSIZE] of them. *)
Fixpoint freerange_loop (fuel : nat) (p vend : Z) : M kstate unit :=
  match fuel with
  | O => ret tt
  | S fuel' =>
      if u32 (p + PGSIZE) <=? vend then kfree p ;;; freerange_loop fuel' (u32 (p + PGSIZE)) vend
      else ret tt
  end.
Definition freerange (vstart vend : Z) : M kstate unit :=
  freerange_loop (S (Z.to_nat (vend / PGSIZE))) (PGROUNDUP vstart) vend.

Definition kinit1 (vstart vend : Z) : M kstate unit :=
  set_use_lock false ;;;
  freerange vstart vend.
Definition kinit2 (vstart vend : Z) : M kstate unit :=
  freerange vstart vend ;;;
  set_use_lock true.
End Alloc.

(** ** Words and pages *)

Lemma land_page x : Z.land x (Z.lnot (PGSIZE - 1)) = x - x mod PGSIZE.
Proof.
  change (PGSIZE - 1) with (Z.ones 12). rewrite <- Z.ldiff_land, Z.ldiff_ones_r by lia.
  rewrite Z.shiftl_mul_pow2, Z.shiftr_div_pow2 by lia. unfold PGSIZE. dlia.
Qed.

Lemma load_store_same m a w : is_u32 w -> load32 (store32 m a w) a = w.
Proof.
  intros Hw. unfold load32, store32, u8.
  replace (a <=? a) with true by lia. replace (a <=? a + 1) with true by lia.
  replace (a <=? a + 2) with true by lia. replace (a <=? a + 3) with true by lia.
  replace (a <? a + 4) with true by lia. replace (a + 1 <? a + 4) with true by lia.
  replace (a + 2 <? a + 4) with true by lia. replace (a + 3 <? a + 4) with true by lia.
  replace (8 * (a - a)) with 0 by lia. replace (8 * (a + 1 - a)) with 8 by lia.
  replace (8 * (a + 2 - a)) with 16 by lia. replace (8 * (a + 3 - a)) with 24 by lia.
  rewrite !Z.shiftr_div_pow2 by lia. change (2 ^ 0) with 1. change (2 ^ 8) with 256.
  change (2 ^ 16) with 65536. change (2 ^ 24) with 16777216. cbn [andb]. unfold is_u32 in Hw. dlia.
Qed.

(** A word depends on its four bytes. *)
Lemma load_ext m m' a : (forall i, 0 <= i < 4 -> m' (a + i) = m (a + i)) -> load32 m' a = load32 m a.
Proof.
  intros H. unfold load32. pose proof (H 0 ltac:(lia)) as H0. rewrite Z.add_0_r in H0.
  rewrite H0, !H by lia. done.
Qed.

Lemma store_outside m a w x : x < a \/ a + 4 <= x -> store32 m a w x = m x.
Proof. intros. unfold store32. destruct (Z.leb_spec a x), (Z.ltb_spec x (a + 4)); simpl; done || lia. Qed.
Lemma fill_outside m a n c x : x < a \/ a + n <= x -> m_fill m a n c x = m x.
Proof. intros. unfold m_fill. destruct (Z.leb_spec a x), (Z.ltb_spec x (a + n)); simpl; done || lia. Qed.
Lemma fill_inside m a n c x : a <= x < a + n -> m_fill m a n c x = u8 c.
Proof. intros. unfold m_fill. destruct (Z.leb_spec a x), (Z.ltb_spec x (a + n)); simpl; done || lia. Qed.

Lemma load_store_other m a w b : b + 4 <= a \/ a + 4 <= b -> load32 (store32 m a w) b = load32 m b.
Proof. intros. apply load_ext. intros i Hi. apply store_outside. lia. Qed.

(** Two memories agree on the page at [f]. *)
Definition same_page (m m' : memory) (f : Z) : Prop := forall i, 0 <= i < PGSIZE -> m' (f + i) = m (f + i).

Lemma same_page_refl m f : same_page m m f.
Proof. done. Qed.
Lemma same_page_trans m1 m2 m3 f : same_page m1 m2 f -> same_page m2 m3 f -> same_page m1 m3 f.
Proof. intros H1 H2 i Hi. by rewrite H2, H1. Qed.
Lemma same_page_load m m' f i : same_page m m' f -> 0 <= i -> i + 4 <= PGSIZE -> load32 m' (f + i) = load32 m (f + i).
Proof. intros H Hi Hb. apply load_ext. intros j Hj. rewrite <- !Z.add_assoc. apply H. lia. Qed.
Lemma same_page_load0 m m' f : same_page m m' f -> load32 m' f = load32 m f.
Proof. intros H. pose proof (same_page_load m m' f 0 H ltac:(lia) ltac:(done)) as E. by rewrite !Z.add_0_r in E. Qed.

(** ** The free list *)

Section Free.
Context (kend : Z) (Hend : KERNLINK <= kend < KERNBASE + PHYSTOP).

(** A page the allocator manages, by its physical address. *)
Definition frame (f : Z) : Prop := f mod PGSIZE = 0 /\ kend - KERNBASE <= f < PHYSTOP.

Fixpoint chain (m : memory) (l : list Z) (head : Z) : Prop :=
  match l with
  | [] => head = 0
  | f :: l' => head = f + KERNBASE /\ chain m l' (load32 m f)
  end.

Record kinv (s : kstate) (l : list Z) : Prop := {
  k_chain : chain (mem s) l (freelist s);
  k_nodup : NoDup l;
  k_frames : Forall frame l
}.

Lemma frame_range f : frame f -> EXTMEM <= f < PHYSTOP.
Proof using Hend. unfold frame, KERNLINK in *. lia. Qed.
Lemma frame_v2p f : frame f -> v2p (f + KERNBASE) = f.
Proof using Hend.
  intros H%frame_range. unfold v2p, EXTMEM, PHYSTOP, KERNBASE in *.
  rewrite u32_small; [lia|]. unfold is_u32. lia.
Qed.
Lemma frame_p2v f : frame f -> p2v f = f + KERNBASE.
Proof using Hend.
  intros H%frame_range. unfold p2v, EXTMEM, PHYSTOP, KERNBASE in *. apply u32_small. unfold is_u32. lia.
Qed.

(** Distinct pages do not overlap. *)
Lemma frames_apart f g : frame f -> frame g -> f <> g -> f + PGSIZE <= g \/ g + PGSIZE <= f.
Proof. unfold frame, PGSIZE. intros [Hf _] [Hg _] Hne. dlia. Qed.

Lemma chain_ext m m' l head : (forall f, f ∈ l -> same_page m m' f) -> chain m l head -> chain m' l head.
Proof.
  revert head. induction l as [|f l IH]; intros head Hs; simpl; [done|]. intros [-> Hc]. split; [done|].
  rewrite (same_page_load0 m m' f) by (apply Hs; left). apply IH; [|done]. intros g Hg. apply Hs. by right.
Qed.

Lemma kinv_ext s s' l :
  freelist s' = freelist s -> (forall f, f ∈ l -> same_page (mem s) (mem s') f) -> kinv s l -> kinv s' l.
Proof. intros Hf Hs [H1 H2 H3]. split; [|done..]. rewrite Hf. by eapply chain_ext. Qed.

Lemma kalloc_wp s l (Q : Z -> kstate -> Prop) :
  kinv s l ->
  match l with
  | [] => Q 0 s
  | f :: l' => forall s', kinv s' l' -> mem s' = mem s -> use_lock s' = use_lock s -> Q (f + KERNBASE) s'
  end -> wp kalloc Q s.
Proof using Hend.
  intros [Hc Hnd Hfr] HQ. unfold kalloc. apply wp_bind, wp_gets. destruct l as [|f l]; simpl in Hc.
  - rewrite Hc. simpl. apply wp_bind, wp_ret, wp_ret. done.
  - destruct Hc as [Hh Hc]. rewrite Hh. apply NoDup_cons in Hnd as [_ Hnd]. apply Forall_cons in Hfr as [Hf Hfr].
    pose proof (frame_range f Hf). destruct (Z.eqb_spec (f + KERNBASE) 0); [unfold KERNBASE, EXTMEM in *; lia|].
    apply wp_bind, wp_bind, wp_gets. apply wp_modify, wp_ret. rewrite frame_v2p by done. apply HQ; [|done..]. by split.
Qed.

(** The kernel's image and the memory below it are as before. *)
Definition kept (m m' : memory) : Prop := forall x, x < kend - KERNBASE -> m' x = m x.

(** [x] is not in page [f]. *)
Definition off_page (f x : Z) : Prop := x < f \/ f + PGSIZE <= x.

Lemma off_page_same m m' f g : frame f -> frame g -> g <> f -> (forall x, off_page f x -> m' x = m x) -> same_page m m' g.
Proof. intros Hf Hg Hne Hm i Hi. apply Hm. unfold off_page. destruct (frames_apart f g Hf Hg); [done|lia..]. Qed.

(** [kfree] writes the page it frees. *)
Lemma kfree_only s l f (Q : unit -> kstate -> Prop) :
  kinv s l -> frame f -> f ∉ l ->
  (forall s', kinv s' (f :: l) -> (forall x, off_page f x -> mem s' x = mem s x) -> use_lock s' = use_lock s -> Q tt s') ->
  wp (kfree kend (f + KERNBASE)) Q s.
Proof using Hend.
  intros [Hc Hnd Hfr] Hf Hni HQ. pose proof (frame_range f Hf) as Hr. unfold kfree.
  rewrite frame_v2p by done. pose proof Hf as [Hm Hlo]. rewrite (proj2 (Z.eqb_eq _ 0)) by (unfold KERNBASE, PGSIZE in *; dlia).
  destruct (Z.ltb_spec (f + KERNBASE) kend); [lia|]. destruct (Z.leb_spec PHYSTOP f); [lia|]. simpl.
  apply wp_bind, wp_modify, wp_bind, wp_gets, wp_bind, wp_modify, wp_modify. simpl.
  assert (Hs : forall x, off_page f x -> store32 (m_fill (mem s) f PGSIZE 1) f (freelist s) x = mem s x).
  { intros x Hx. unfold off_page in Hx. rewrite store_outside by (unfold PGSIZE in *; lia). apply fill_outside. lia. }
  apply HQ; [|done..]. split; simpl; [|by apply NoDup_cons|by apply Forall_cons].
  split; [done|]. rewrite load_store_same.
  - eapply chain_ext; [|exact Hc]. intros g Hg. rewrite Forall_forall in Hfr. apply (off_page_same _ _ f); [done|by apply Hfr| |exact Hs]. by intros ->.
  - destruct l as [|g l]; simpl in Hc; [rewrite Hc; done|]. destruct Hc as [-> _]. apply Forall_cons in Hfr as [Hg _].
    apply frame_range in Hg. unfold is_u32, KERNBASE, PHYSTOP, EXTMEM in *. lia.
Qed.

Lemma kfree_wp s l f (Q : unit -> kstate -> Prop) :
  kinv s l -> frame f -> f ∉ l ->
  (forall s', kinv s' (f :: l) -> (forall g, frame g -> g <> f -> same_page (mem s) (mem s') g) ->
     use_lock s' = use_lock s -> Q tt s') ->
  wp (kfree kend (f + KERNBASE)) Q s.
Proof using Hend.
  intros K Hf Hni HQ. apply (kfree_only s l); [done..|]. intros s' K' Hm Hu. apply HQ; [done| |done].
  intros g Hg Hne. by apply (off_page_same _ _ f).
Qed.

(** ** Initialisation *)

Lemma roundup_spec x : 0 <= x <= 4294963200 ->
  PGROUNDUP x mod PGSIZE = 0 /\ x <= PGROUNDUP x < x + PGSIZE.
Proof. intros. unfold PGROUNDUP. rewrite land_page, u32_small; unfold is_u32, PGSIZE in *; dlia. Qed.

(** The pages of [a..b), [a] aligned. *)
Definition in_range (a b f : Z) : Prop := f mod PGSIZE = 0 /\ a <= f /\ f + PGSIZE <= b.

Lemma freerange_loop_wp fuel p vend s l (Q : unit -> kstate -> Prop) :
  p mod PGSIZE = 0 -> kend <= p -> vend <= KERNBASE + PHYSTOP -> vend - p < Z.of_nat fuel * PGSIZE ->
  kinv s l -> (forall f, in_range (p - KERNBASE) (vend - KERNBASE) f -> f ∉ l) ->
  (forall s' l', kinv s' (l' ++ l) -> (forall f, f ∈ l' <-> in_range (p - KERNBASE) (vend - KERNBASE) f) ->
     use_lock s' = use_lock s -> (forall x, (forall f, f ∈ l' -> off_page f x) -> mem s' x = mem s x) -> Q tt s') ->
  (0 < fuel)%nat -> p <= KERNBASE + PHYSTOP -> wp (freerange_loop kend fuel p vend) Q s.
Proof using Hend.
  revert p s l Q. induction fuel as [|fuel IH]; intros p s l Q Hp Hlo Hhi Hf Hk Hd HQ Hpos Hph; [lia|].
  cbn [freerange_loop]. assert (Hu : u32 (p + PGSIZE) = p + PGSIZE).
  { apply u32_small. unfold is_u32, KERNLINK, KERNBASE, PHYSTOP, PGSIZE, EXTMEM in *. lia. }
  rewrite Hu. destruct (Z.leb_spec (p + PGSIZE) vend).
  - assert (Hfr : frame (p - KERNBASE)) by (unfold frame, KERNBASE, PGSIZE in *; split; [dlia|lia]).
    apply wp_bind. replace p with (p - KERNBASE + KERNBASE) at 1 by lia.
    apply (kfree_only s l); [done|done|apply Hd; unfold in_range; split; [apply Hfr|lia]|].
    intros s1 Hk1 Hm1 Hl1. apply (IH _ s1 (p - KERNBASE :: l)); [unfold PGSIZE in *; dlia|unfold PGSIZE in *; lia|done|lia|done|..].
    + intros f [Hm [Ha Hb]]. apply not_elem_of_cons. split; [unfold PGSIZE in *; lia|].
      apply Hd. unfold in_range, PGSIZE in *. lia.
    + intros s2 l2 Hk2 Hl2 Hu2 Hm2. apply (HQ s2 (l2 ++ [p - KERNBASE])); [by rewrite <- app_assoc| |congruence|].
      2: { intros x Hx. rewrite Hm2 by (intros f Hf2; apply Hx; rewrite elem_of_app; by left). apply Hm1, Hx. rewrite elem_of_app, list_elem_of_singleton. by right. }
      intros f. rewrite elem_of_app, list_elem_of_singleton, Hl2. unfold in_range. destruct Hfr as [Hm _].
      unfold PGSIZE in *. split; [intros [?| ->]; [lia|split; [done|lia]]|].
      intros (Hfm & Ha & Hb). destruct (decide (f = p - KERNBASE)); [by right|]. left. split; [done|]. dlia.
    + unfold PGSIZE in *. lia.
    + lia.
  - apply wp_ret, (HQ s []); [done| |done|done]. intros f. split; [by intros ?%not_elem_of_nil|].
    intros (_ & Ha & Hb). unfold PGSIZE in *. lia.
Qed.

Lemma freerange_wp vstart vend s l (Q : unit -> kstate -> Prop) :
  kend <= vstart -> vstart <= vend -> vend <= KERNBASE + PHYSTOP -> kinv s l ->
  (forall f, in_range (vstart - KERNBASE) (vend - KERNBASE) f -> f ∉ l) ->
  (forall s' l', kinv s' (l' ++ l) ->
     (forall f, f ∈ l' <-> in_range (vstart - KERNBASE) (vend - KERNBASE) f) ->
     use_lock s' = use_lock s -> (forall x, (forall f, f ∈ l' -> off_page f x) -> mem s' x = mem s x) -> Q tt s') ->
  wp (freerange kend vstart vend) Q s.
Proof using Hend.
  intros H1 H2 H3 Hk Hd HQ. unfold freerange. destruct (roundup_spec vstart) as [Hm Hr].
  { unfold KERNLINK, KERNBASE, PHYSTOP, EXTMEM in *. lia. }
  assert (Heq : forall f, in_range (PGROUNDUP vstart - KERNBASE) (vend - KERNBASE) f <->
                          in_range (vstart - KERNBASE) (vend - KERNBASE) f).
  { intros f. unfold in_range, KERNBASE, PGSIZE in *. split; intros (Hfm & Ha & Hb); split; [done|lia|done|dlia]. }
  assert (Hq : PGROUNDUP vstart <= KERNBASE + PHYSTOP) by (unfold KERNBASE, PHYSTOP, PGSIZE in *; dlia).
  apply (freerange_loop_wp _ _ _ s l); [done|lia|done| |done| | |lia|done].
  - unfold KERNLINK, KERNBASE, PGSIZE, EXTMEM in *. dlia.
  - intros f Hf. by apply Hd, Heq.
  - intros s' l' Hk' Hl' Hu Hm'. apply (HQ s' l'); [done| |done|done]. intros f. by rewrite Hl', Heq.
Qed.

(** ** Owners of pages *)

Record ksys := mkSys { ks : kstate; owned : list Z }.

(** A step of the system: a page is allocated, an allocation fails, a page is
    freed by an owner, or owners write to their pages. *)
Inductive step : ksys -> ksys -> Prop :=
| step_kalloc s o r s' : kalloc s = Ret r s' -> r <> 0 -> step (mkSys s o) (mkSys s' (v2p r :: o))
| step_no_memory s o s' : kalloc s = Ret 0 s' -> step (mkSys s o) (mkSys s' o)
| step_kfree s o f s' : f ∈ o -> kfree kend (p2v f) s = Ret tt s' -> step (mkSys s o) (mkSys s' (remove_one f o))
| step_write s o m : (forall f, frame f -> f ∉ o -> same_page (mem s) m f) ->
    step (mkSys s o) (mkSys (mkK m (use_lock s) (freelist s)) o).

Definition pages_split (l0 : list Z) (x : ksys) (l : list Z) : Prop := kinv (ks x) l /\ owned x ++ l ≡ₚ l0.

Lemma remove_one_perm f (o : list Z) : f ∈ o -> f :: remove_one f o ≡ₚ o.
Proof.
  induction o as [|g o IH]; simpl; [by intros ?%not_elem_of_nil|]. case_decide as E; [by subst|].
  rewrite elem_of_cons. intros [?|Hin]; [done|]. rewrite Permutation_swap. by rewrite IH.
Qed.

Lemma kalloc_Ret s l r s' : kinv s l -> kalloc s = Ret r s' ->
  match l with [] => r = 0 /\ kinv s' [] | f :: l' => r = f + KERNBASE /\ kinv s' l' end.
Proof using Hend.
  intros Hk E. refine (wp_elim kalloc (fun r s' => _) s r s' _ E).
  apply (kalloc_wp s l); [done|]. by destruct l.
Qed.
Lemma kfree_Ret s l f s' : kinv s l -> frame f -> f ∉ l -> kfree kend (f + KERNBASE) s = Ret tt s' -> kinv s' (f :: l).
Proof using Hend.
  intros Hk Hf Hl E. refine (wp_elim (kfree kend (f + KERNBASE)) (fun _ s' => kinv s' (f :: l)) s tt s' _ E).
  by apply (kfree_wp s l).
Qed.

Lemma split_step l0 x y l : NoDup l0 -> Forall frame l0 -> step x y -> pages_split l0 x l ->
  exists l', pages_split l0 y l'.
Proof using Hend.
  intros Hnd Hall Hs [Hk Hp]. assert (Hfr : forall f, f ∈ owned x ++ l -> frame f).
  { intros f. rewrite Hp. revert f. by apply Forall_forall. }
  assert (Hd : forall f, f ∈ owned x -> f ∉ l) by (by rewrite <- Hp in Hnd; apply NoDup_app in Hnd as (_ & ? & _)).
  destruct Hs as [s o r s' E Hr|s o s' E|s o f s' Hf E|s o m Hw]; simpl in *.
  - pose proof (kalloc_Ret s l r s' Hk E) as H. destruct l as [|f l]; [by destruct H|]. destruct H as [-> Hk'].
    exists l. split; [done|]. simpl. rewrite frame_v2p by (apply Hfr; set_solver). by rewrite <- Hp, <- Permutation_middle.
  - pose proof (kalloc_Ret s l 0 s' Hk E) as H. destruct l as [|f l]; [by exists []; destruct H|]. destruct H as [Hz _].
    assert (frame f) as Hf%frame_range by (apply Hfr; set_solver). unfold KERNBASE, EXTMEM in *. lia.
  - assert (Hff : frame f) by (apply Hfr; set_solver). rewrite frame_p2v in E by done. exists (f :: l). split; simpl.
    + by apply (kfree_Ret s); auto.
    + rewrite <- Hp, <- Permutation_middle. by rewrite app_comm_cons, remove_one_perm.
  - exists l. split; [|done]. eapply kinv_ext; [| |exact Hk]; [done|]. intros f Hf. simpl.
    apply Hw; [apply Hfr; set_solver|]. intros Ho. by apply (Hd f).
Qed.
End Free.

(** C20: over every sequence of allocations, frees by owners and arbitrary writes of
    owners to their pages, the pages in use and the free pages stay a partition of
    the pages the allocator started with: no page is handed out twice or lost,
    [kalloc] returns 0 only when all are in use, and [kfree] of a page in use does
    not panic. *)
Theorem kalloc_invariant kend s0 l0 x :
  KERNLINK <= kend < KERNBASE + PHYSTOP -> kinv kend s0 l0 -> rtc (step kend) (mkSys s0 []) x ->
  exists l, NoDup (owned x ++ l) /\ owned x ++ l ≡ₚ l0 /\
    wp kalloc (fun r _ => if decide (r = 0) then owned x ≡ₚ l0 else v2p r ∈ l) (ks x) /\
    forall f, f ∈ owned x -> wp (kfree kend (p2v f)) (fun _ s' => kinv kend s' (f :: l)) (ks x).
Proof.
  intros Hend Hk0 Hr. pose proof (k_nodup _ _ _ Hk0) as Hnd. pose proof (k_frames _ _ _ Hk0) as Hall.
  assert (exists l, pages_split kend l0 x l) as (l & Hk & Hp).
  { assert (exists l, pages_split kend l0 (mkSys s0 []) l) as Hi by (by exists l0). revert Hi.
    induction Hr as [|x y z Hs _ IH]; [done|]. intros [l Hl]. apply IH. by eapply split_step. }
  assert (Hn : NoDup (owned x ++ l)) by (by rewrite Hp). exists l. split_and!; [done|done|..].
  - apply (kalloc_wp kend Hend _ l); [done|]. destruct l as [|f l].
    + rewrite decide_True by done. by rewrite app_nil_r in Hp.
    + intros s' _ _ _. assert (Hf : frame kend f) by (eapply Forall_inv; apply (k_frames _ _ _ Hk)).
      rewrite decide_False; [rewrite (frame_v2p kend Hend) by done; left|].
      apply (frame_range kend Hend) in Hf. unfold KERNBASE, EXTMEM in *. lia.
  - intros f Hf. assert (Hff : frame kend f) by (rewrite Forall_forall in Hall; apply Hall; rewrite <- Hp; set_solver).
    rewrite (frame_p2v kend Hend) by done. apply (kfree_wp kend Hend _ l); [done|done| |by intros].
    apply NoDup_app in Hn as (_ & Hd & _). by apply Hd.
Qed.

(** Three pages on the free list, one of them allocated. *)
Definition demo_end : Z := KERNBASE + 2097152.
Definition demo_k : kstate :=
  result (freerange demo_end (KERNBASE + 2097152) (KERNBASE + 2097152 + 3 * PGSIZE)) (mkK (fun _ => 0) false 0).

Lemma demo_kinv : kinv demo_end demo_k [2105344; 2101248; 2097152].
Proof.
  split; [vm_compute; tauto|by apply (bool_decide_unpack _); vm_compute|].
  repeat constructor; vm_compute; done.
Qed.

Lemma kalloc_invariant_witness :
  exists l, NoDup ([2105344] ++ l) /\ [2105344] ++ l ≡ₚ [2105344; 2101248; 2097152] /\
    wp kalloc (fun r _ => if decide (r = 0) then [2105344] ≡ₚ [2105344; 2101248; 2097152] else v2p r ∈ l) (result kalloc demo_k) /\
    wp (kfree demo_end (p2v 2105344)) (fun _ s' => kinv demo_end s' (2105344 :: l)) (result kalloc demo_k).
Proof.
  destruct (kalloc_invariant demo_end demo_k _ (mkSys (result kalloc demo_k) [2105344])
    ltac:(vm_compute; split; done) demo_kinv) as (l & Hn & Hp & Ha & Hf).
  - apply rtc_once. apply (step_kalloc demo_end demo_k [] (2105344 + KERNBASE)); [reflexivity|done].
  - exists l. split; [exact Hn|]. split; [exact Hp|]. split; [exact Ha|]. apply Hf. left.
Defined.

(** The two phases of initialisation, with the arguments [main] gives them and
    one right after the other ([main] allocates pages in between), put every page
    between the end of the kernel and [PHYSTOP] on the free list, once, and turn
    locking on. *)
Theorem kinit_frees_all kend s :
  KERNLINK <= kend <= KERNBASE + 4194304 -> freelist s = 0 ->
  wp (kinit1 kend kend (p2v 4194304) ;;; kinit2 kend (p2v 4194304) (p2v PHYSTOP)) (fun _ s' =>
    use_lock s' = true /\ exists l, kinv kend s' l /\ forall f, f ∈ l <-> frame kend f) s.
Proof.
  intros Hend Hf. assert (He : KERNLINK <= kend < KERNBASE + PHYSTOP) by (unfold KERNBASE, PHYSTOP in *; lia).
  change (p2v 4194304) with (KERNBASE + 4194304). change (p2v PHYSTOP) with (KERNBASE + PHYSTOP).
  apply wp_bind, wp_bind, wp_modify. apply (freerange_wp kend He _ _ _ []); [lia|lia|unfold PHYSTOP; lia|..].
  { split; [done|constructor|constructor]. }
  { intros f _. apply not_elem_of_nil. }
  intros s1 l1 Hk1 Hl1 _ _. rewrite app_nil_r in Hk1. apply wp_bind.
  apply (freerange_wp kend He _ _ _ l1); [lia|unfold PHYSTOP; lia|lia|done|..].
  { intros f (_ & Ha & Hb). rewrite Hl1. intros (_ & Ha' & Hb'). unfold PGSIZE in *. lia. }
  intros s2 l2 Hk2 Hl2 _ _. apply wp_modify. split; [done|]. exists (l2 ++ l1). split.
  { by eapply kinv_ext; [..|exact Hk2]. }
  intros f. rewrite elem_of_app, Hl1, Hl2. unfold in_range, frame, KERNBASE, PHYSTOP, PGSIZE in *.
  split; [intros [(Hm & Ha & Hb)|(Hm & Ha & Hb)]; split; done || lia|]. intros [Hm Hr].
  destruct (decide (4194304 <= f)); [left|right]; (split; [done|]); dlia.
Qed.

Lemma kinit_frees_all_witness :
  wp (kinit1 demo_end demo_end (p2v 4194304) ;;; kinit2 demo_end (p2v 4194304) (p2v PHYSTOP))
    (fun _ s' => exists l, kinv demo_end s' l /\ 2097152 ∈ l) (mkK (fun _ => 0) false 0).
Proof.
  eapply wp_mono; [apply (kinit_frees_all demo_end (mkK (fun _ => 0) false 0)); [vm_compute; split; done|done]|].
  intros [] s' (_ & l & Hk & Hl). exists l. split; [done|]. apply Hl. vm_compute. split; [done|split; done].
Defined.
End Kalloc.
