(* ===== verification/Vm.v ===== *)
(** * vm.c: page tables

    [Module Vm] translates the page table code of vm.c over the memory and the
    allocator of [Kalloc]: page directories and page tables are words in physical
    pages, as the hardware reads them.  Pointers are 32-bit kernel virtual
    addresses, null is 0.  The state is the allocator's; [loaduvm] also runs
    [readi], on a state of its own.  The segment descriptors ([seginit]) and the register
    loads ([switchkvm], [switchuvm]) are in [Machine]; the message that [allocuvm] prints
    is left out.

    Reading through a null page table entry pointer ([uva2ka] does not test for it)
    is the panic ["null pte"]: the source has no defined behaviour there. *)

From S2P Require Import Prelude Kalloc.

Module Vm.
Import Kalloc.

Definition PTE_P : Z := 1.
Definition PTE_W : Z := 2.
Definition PTE_U : Z := 4.
Definition NPDENTRIES : Z := 1024.
Definition NPTENTRIES : Z := 1024.
Definition PTXSHIFT : Z := 12.
Definition PDXSHIFT : Z := 22.
Definition PDX (va : Z) : Z := Z.land (Z.shiftr va PDXSHIFT) 1023.
Definition PTX (va : Z) : Z := Z.land (Z.shiftr va PTXSHIFT) 1023.
Definition PTE_ADDR (pte : Z) : Z := Z.land pte (Z.lnot 4095).
Definition PTE_FLAGS (pte : Z) : Z := Z.land pte 4095.

(** [*p] and [*p = w] through a kernel pointer. *)
Definition deref (p : Z) : M kstate Z := gets (fun s => load32 (mem s) (v2p p)).
Definition assign (p w : Z) : M kstate unit := set_mem (fun m => store32 m (v2p p) (u32 w)).

(** [struct kmap] *)
Record kmap_entry := mkKmap { virt : Z; phys_start : Z; phys_end : Z; perm : Z }.

Section Ops.
(** [end] and [data], set by the linker. *)
Context (kend kdata : Z).

Definition walkpgdir (pgdir va : Z) (alloc : bool) : M kstate Z :=
  let pde := u32 (pgdir + 4 * PDX va) in
  let* e := deref pde in
  if has_flag e PTE_P then ret (u32 (p2v (PTE_ADDR e) + 4 * PTX va))
  else if negb alloc then ret 0
  else
    let* pgtab := kalloc in
    if pgtab =? 0 then ret 0
    else
      set_mem (fun m => m_fill m (v2p pgtab) PGSIZE 0) ;;;
      assign pde (Z.lor (Z.lor (Z.lor (v2p pgtab) PTE_P) PTE_W) PTE_U) ;;;
      ret (u32 (pgtab + 4 * PTX va)).

(** [a] runs from the first to the last page, modulo 2^32. *)
Fixpoint mappages_loop (fuel : nat) (pgdir a last pa perm : Z) : M kstate Z :=
  match fuel with
  | O => ret 0
  | S fuel' =>
      let* pte := walkpgdir pgdir a true in
      if pte =? 0 then ret (-1)
      else
        let* e := deref pte in
        if has_flag e PTE_P then panic "remap"
        else
          assign pte (Z.lor (Z.lor pa perm) PTE_P) ;;;
          if a =? last then ret 0
          else mappages_loop fuel' pgdir (u32 (a + PGSIZE)) last (u32 (pa + PGSIZE)) perm
  end.

Definition mappages (pgdir va size pa perm : Z) : M kstate Z :=
  let a := PGROUNDDOWN va in
  let last := PGROUNDDOWN (u32 (va + size - 1)) in
  mappages_loop (S (Z.to_nat (u32 (last - a) / PGSIZE))) pgdir a last pa perm.

Definition kmap : list kmap_entry :=
  [ mkKmap KERNBASE 0 EXTMEM PTE_W;
    mkKmap KERNLINK (v2p KERNLINK) (v2p kdata) 0;
    mkKmap kdata (v2p kdata) PHYSTOP PTE_W;
    mkKmap DEVSPACE DEVSPACE 0 PTE_W ].

Fixpoint setupkvm_loop (pgdir : Z) (ks : list kmap_entry) : M kstate Z :=
  match ks with
  | [] => ret pgdir
  | k :: ks' =>
      let* r := mappages pgdir (virt k) (u32 (phys_end k - phys_start k)) (phys_start k) (perm k) in
      if r <? 0 then ret 0 else setupkvm_loop pgdir ks'
  end.

Definition setupkvm : M kstate Z :=
  let* pgdir := kalloc in
  if pgdir =? 0 then ret 0
  else
    set_mem (fun m => m_fill m (v2p pgdir) PGSIZE 0) ;;;
    if DEVSPACE <? p2v PHYSTOP then panic "PHYSTOP too high"
    else setupkvm_loop pgdir kmap.

Definition inituvm (pgdir : Z) (init : list Z) (sz : Z) : M kstate unit :=
  if PGSIZE <=? sz then panic "inituvm: more than a page"
  else
    let* pg := kalloc in
    set_mem (fun m => m_fill m (v2p pg) PGSIZE 0) ;;;
    mappages pgdir 0 PGSIZE (v2p pg) (Z.lor PTE_W PTE_U) ;;;
    set_mem (fun m => m_write m (v2p pg) (take (Z.to_nat sz) init)).

Fixpoint deallocuvm_loop (fuel : nat) (pgdir oldsz a : Z) : M kstate unit :=
  match fuel with
  | O => ret tt
  | S fuel' =>
      if a <? oldsz then
        let* pte := walkpgdir pgdir a false in
        let* a' :=
          (if pte =? 0 then ret (u32 (a + (NPTENTRIES - 1) * PGSIZE))
           else
             let* e := deref pte in
             if has_flag e PTE_P then
               let pa := PTE_ADDR e in
               if pa =? 0 then panic "kfree"
               else kfree kend (p2v pa) ;;; assign pte 0 ;;; ret a
             else ret a) in
        deallocuvm_loop fuel' pgdir oldsz (u32 (a' + PGSIZE))
      else ret tt
  end.

Definition deallocuvm (pgdir oldsz newsz : Z) : M kstate Z :=
  if oldsz <=? newsz then ret oldsz
  else
    deallocuvm_loop (S (Z.to_nat (oldsz / PGSIZE + 1))) pgdir oldsz (PGROUNDUP newsz) ;;;
    ret newsz.

Fixpoint allocuvm_loop (fuel : nat) (pgdir oldsz newsz a : Z) : M kstate Z :=
  match fuel with
  | O => ret newsz
  | S fuel' =>
      if a <? newsz then
        let* pg := kalloc in
        if pg =? 0 then
          deallocuvm pgdir newsz oldsz ;;;
          ret 0
        else
          set_mem (fun m => m_fill m (v2p pg) PGSIZE 0) ;;;
          mappages pgdir a PGSIZE (v2p pg) (Z.lor PTE_W PTE_U) ;;;
          allocuvm_loop fuel' pgdir oldsz newsz (u32 (a + PGSIZE))
      else ret newsz
  end.

(** [newsz] is below [KERNBASE], so [a] does not wrap around. *)
Definition allocuvm (pgdir oldsz newsz : Z) : M kstate Z :=
  if KERNBASE <=? newsz then ret 0
  else if newsz <? oldsz then ret oldsz
  else allocuvm_loop (S (Z.to_nat (newsz / PGSIZE + 1))) pgdir oldsz newsz (PGROUNDUP oldsz).

(** One entry of the loop of [freevm] over the directory. *)
Definition free_table (pgdir : Z) (i : nat) : M kstate unit :=
  let* e := deref (u32 (pgdir + 4 * Z.of_nat i)) in
  if has_flag e PTE_P then kfree kend (p2v (PTE_ADDR e)) else ret tt.

Definition freevm (pgdir : Z) : M kstate unit :=
  if pgdir =? 0 then panic "freevm: no pgdir"
  else
    deallocuvm pgdir KERNBASE 0 ;;;
    for_upto (Z.to_nat NPDENTRIES) 0 (free_table pgdir) ;;;
    kfree kend pgdir.

Definition clearpteu (pgdir uva : Z) : M kstate unit :=
  let* pte := walkpgdir pgdir uva false in
  if pte =? 0 then panic "clearpteu"
  else
    let* e := deref pte in
    assign pte (Z.land e (Z.lnot PTE_U)).

Fixpoint copyuvm_loop (fuel : nat) (pgdir d sz i : Z) : M kstate Z :=
  match fuel with
  | O => ret d
  | S fuel' =>
      if i <? sz then
        let* pte := walkpgdir pgdir i false in
        if pte =? 0 then panic "copyuvm: pte should exist"
        else
          let* e := deref pte in
          if negb (has_flag e PTE_P) then panic "copyuvm: page not present"
          else
            let pa := PTE_ADDR e in
            let flags := PTE_FLAGS e in
            let* pg := kalloc in
            if pg =? 0 then freevm d ;;; ret 0
            else
              set_mem (fun m => m_move m (v2p pg) (v2p (p2v pa)) PGSIZE) ;;;
              let* r := mappages d i PGSIZE (v2p pg) flags in
              if r <? 0 then freevm d ;;; ret 0
              else copyuvm_loop fuel' pgdir d sz (u32 (i + PGSIZE))
      else ret d
  end.

Definition copyuvm (pgdir sz : Z) : M kstate Z :=
  let* d := setupkvm in
  if d =? 0 then ret 0
  else copyuvm_loop (S (Z.to_nat (sz / PGSIZE + 1))) pgdir d sz 0.

Definition uva2ka (pgdir uva : Z) : M kstate Z :=
  let* pte := walkpgdir pgdir uva false in
  if pte =? 0 then panic "null pte"
  else
    let* e := deref pte in
    if negb (has_flag e PTE_P) then ret 0
    else if negb (has_flag e PTE_U) then ret 0
    else ret (p2v (PTE_ADDR e)).

(** Every round copies at least one byte of [buf], which holds [len] bytes. *)
Fixpoint copyout_loop (fuel : nat) (pgdir va : Z) (buf : list Z) (len : Z) : M kstate Z :=
  match fuel with
  | O => ret 0
  | S fuel' =>
      if 0 <? len then
        let va0 := PGROUNDDOWN va in
        let* pa0 := uva2ka pgdir va0 in
        if pa0 =? 0 then ret (-1)
        else
          let n := Z.min (PGSIZE - (va - va0)) len in
          set_mem (fun m => m_write m (v2p (u32 (pa0 + (va - va0)))) (take (Z.to_nat n) buf)) ;;;
          copyout_loop fuel' pgdir (u32 (va0 + PGSIZE)) (drop (Z.to_nat n) buf) (len - n)
      else ret 0
  end.
Definition copyout (pgdir va : Z) (p : list Z) (len : Z) : M kstate Z :=
  copyout_loop (S (Z.to_nat len)) pgdir va p len.

(** ** Loading a segment from a file *)

Section Load.
Context {F : Type} (readi : nat -> Z -> Z -> M F (Z * list Z)).

Definition kpart {A} (m : M kstate A) : M (kstate * F) A := zoom fst (fun k s => (k, snd s)) m.
Definition fpart {A} (m : M F A) : M (kstate * F) A := zoom snd (fun f s => (fst s, f)) m.

Fixpoint loaduvm_loop (fuel : nat) (pgdir addr : Z) (ip : nat) (offset sz i : Z) : M (kstate * F) Z :=
  match fuel with
  | O => ret 0
  | S fuel' =>
      if i <? sz then
        let* pte := kpart (walkpgdir pgdir (u32 (addr + i)) false) in
        if pte =? 0 then panic "loaduvm: address should exist"
        else
          let* e := kpart (deref pte) in
          let pa := PTE_ADDR e in
          let n := if sz - i <? PGSIZE then sz - i else PGSIZE in
          let* r := fpart (readi ip (u32 (offset + i)) n) in
          kpart (set_mem (fun m => m_write m (v2p (p2v pa)) (snd r))) ;;;
          if negb (u32 (fst r) =? n) then ret (-1)
          else loaduvm_loop fuel' pgdir addr ip offset sz (u32 (i + PGSIZE))
      else ret 0
  end.
Definition loaduvm (pgdir addr : Z) (ip : nat) (offset sz : Z) : M (kstate * F) Z :=
  if negb (addr mod PGSIZE =? 0) then panic "loaduvm: addr must be page aligned"
  else loaduvm_loop (S (Z.to_nat (sz / PGSIZE + 1))) pgdir addr ip offset sz 0.
End Load.
End Ops.
End Vm.
