(* ===== verification/VmSpace.v ===== *)
(** * Address spaces

    The abstraction of the page tables of vm.c: a [space] is a directory page, its
    page tables and a map from virtual page numbers to page table entries.
    [vinv] says that memory holds the space and the free list side by side;
    [walk_wp], [pte_read] and [pte_write] are the rules for the accesses of vm.c,
    [mappages_wp] is the specification of [mappages] on all its branches. *)

From S2P Require Import Prelude Kalloc Vm.

Module VmSpace.
Import Kalloc Vm.

(** ** Page table entries *)

Lemma pdx_spec va : is_u32 va -> PDX va = va / PGSIZE / 1024.
Proof.
  intros H. unfold PDX. change 1023 with (Z.ones 10). rewrite Z.land_ones by lia.
  rewrite Z.shiftr_div_pow2 by (unfold PDXSHIFT; lia). change (2 ^ PDXSHIFT) with 4194304.
  change (2 ^ 10) with 1024. unfold is_u32, PGSIZE in *. dlia.
Qed.
Lemma ptx_spec va : is_u32 va -> PTX va = va / PGSIZE mod 1024.
Proof.
  intros H. unfold PTX. change 1023 with (Z.ones 10). rewrite Z.land_ones by lia.
  by rewrite Z.shiftr_div_pow2 by (unfold PTXSHIFT; lia).
Qed.
Lemma pte_addr_spec e : PTE_ADDR e = e - e mod PGSIZE.
Proof. apply land_page. Qed.
Lemma pte_flags_spec e : PTE_FLAGS e = e mod PGSIZE.
Proof. unfold PTE_FLAGS. change 4095 with (Z.ones 12). by rewrite Z.land_ones by lia. Qed.

Lemma land_low f c : 0 <= c < PGSIZE -> Z.land f c = Z.land (f mod PGSIZE) c.
Proof.
  intros Hc. assert (Z.land (Z.ones 12) c = c) as <-.
  { rewrite Z.land_comm, Z.land_ones by lia. apply Z.mod_small. done. }
  rewrite !Z.land_assoc, !Z.land_ones by lia. change (2 ^ 12) with PGSIZE. by rewrite Z.mod_mod by done.
Qed.

Lemma has_flag_low f w c : f mod PGSIZE = 0 -> 0 <= w < PGSIZE -> 0 <= c < PGSIZE ->
  has_flag (f + w) c = has_flag w c.
Proof.
  intros Hf Hw Hc. unfold has_flag. rewrite (land_low (f + w)) by done. do 4 f_equal. unfold PGSIZE in *. dlia.
Qed.

Lemma lor_aligned f w : f mod PGSIZE = 0 -> 0 <= w < PGSIZE -> Z.lor f w = f + w.
Proof.
  intros Hf Hw. assert (H0 : Z.land f w = 0) by (by rewrite land_low, Hf by done).
  rewrite <- Z.lxor_lor by done. symmetry. by apply Z.add_nocarry_lxor.
Qed.

Lemma aligned_addr f w : f mod PGSIZE = 0 -> 0 <= w < PGSIZE -> PTE_ADDR (f + w) = f.
Proof. intros. rewrite pte_addr_spec. unfold PGSIZE in *. dlia. Qed.
Lemma aligned_flags f w : f mod PGSIZE = 0 -> 0 <= w < PGSIZE -> PTE_FLAGS (f + w) = w.
Proof. intros. rewrite pte_flags_spec. unfold PGSIZE in *. dlia. Qed.

Lemma u32_lor a b : is_u32 a -> is_u32 b -> is_u32 (Z.lor a b).
Proof.
  unfold is_u32. intros Ha Hb. split; [apply Z.lor_nonneg; lia|]. change 4294967296 with (2 ^ 32).
  destruct (decide (Z.lor a b = 0)) as [->|]; [done|]. apply Z.log2_lt_pow2; [pose proof (proj2 (Z.lor_nonneg a b)); lia|].
  rewrite Z.log2_lor by lia.
  assert (Hl : forall x, 0 <= x < 4294967296 -> Z.log2 x < 32).
  { intros x Hx. destruct (decide (x = 0)) as [->|]; [done|]. apply Z.log2_lt_pow2; [lia|]. change (2 ^ 32) with 4294967296. lia. }
  apply Z.max_lub_lt; by apply Hl.
Qed.

(** ** Spaces *)

Record space := mkSpace { dir : Z; tabs : gmap Z Z; ents : gmap Z Z }.

(** The entry of a virtual page; 0 where there is no page table. *)
Definition ent (sp : space) (p : Z) : Z := default 0 (ents sp !! p).
Definition set_ent (p w : Z) (sp : space) : space := mkSpace (dir sp) (tabs sp) (<[p:=w]> (ents sp)).
Definition add_tab (d t : Z) (sp : space) : space := mkSpace (dir sp) (<[d:=t]> (tabs sp)) (ents sp).

Definition ptpage (sp : space) (f : Z) : Prop := f = dir sp \/ exists d, tabs sp !! d = Some f.

Section Inv.
Context (kend : Z) (Hend : KERNLINK <= kend < KERNBASE + PHYSTOP).

Record repr (m : memory) (sp : space) : Prop := {
  r_dir : forall d, 0 <= d < 1024 ->
    load32 m (dir sp + 4 * d) = match tabs sp !! d with Some t => t + 7 | None => 0 end;
  r_tab : forall d t i, tabs sp !! d = Some t -> 0 <= i < 1024 -> load32 m (t + 4 * i) = ent sp (1024 * d + i);
  r_ents : forall p w, ents sp !! p = Some w -> is_u32 w /\ 0 <= p < 1048576 /\ is_Some (tabs sp !! (p / 1024));
  r_tdom : forall d t, tabs sp !! d = Some t -> 0 <= d < 1024;
  r_frames : forall f, ptpage sp f -> frame kend f;
  r_dir_tab : forall d, tabs sp !! d <> Some (dir sp);
  r_inj : forall d d' t, tabs sp !! d = Some t -> tabs sp !! d' = Some t -> d = d'
}.

Record vinv (s : kstate) (sp : space) (l : list Z) : Prop := {
  v_k : kinv kend s l;
  v_repr : repr (mem s) sp;
  v_apart : forall f, ptpage sp f -> f ∉ l
}.

(** What an operation that adds page tables does to a space: [l'] is what it leaves
    of the free list, and only the pages of the space and of the free list are
    written. *)
Record grown (s : kstate) (sp : space) (l : list Z) (s' : kstate) (sp' : space) (l' : list Z) : Prop := {
  g_inv : vinv s' sp' l';
  g_dir : dir sp' = dir sp;
  g_tabs : tabs sp ⊆ tabs sp';
  g_list : exists used, l = used ++ l';
  g_pages : forall f, ptpage sp' f -> ptpage sp f \/ (f ∈ l /\ f ∉ l');
  g_mem : forall f, frame kend f -> ~ ptpage sp f -> f ∉ l -> same_page (mem s) (mem s') f;
  g_used : forall f, f ∈ l -> f ∉ l' -> ptpage sp' f;
  g_kept : kept kend (mem s) (mem s')
}.

Lemma ptpage_mono sp sp' f : dir sp' = dir sp -> tabs sp ⊆ tabs sp' -> ptpage sp f -> ptpage sp' f.
Proof. intros Hd Ht [->|[d Hf]]; [by left|right; exists d; by eapply lookup_weaken]. Qed.

Lemma grown_refl s sp l : vinv s sp l -> grown s sp l s sp l.
Proof. intros V. split; [done..|by exists []|by left|done|done|done]. Qed.

Lemma grown_trans s1 sp1 l1 s2 sp2 l2 s3 sp3 l3 :
  grown s1 sp1 l1 s2 sp2 l2 -> grown s2 sp2 l2 s3 sp3 l3 -> grown s1 sp1 l1 s3 sp3 l3.
Proof.
  intros [V1 D1 T1 [u1 L1] P1 M1 U1 K1] [V2 D2 T2 [u2 L2] P2 M2 U2 K2].
  pose proof (k_nodup _ _ _ (v_k _ _ _ V2)) as Hnd3.
  assert (Hsub : forall f, f ∈ l2 -> f ∈ l1) by (intros f; rewrite L1, elem_of_app; by right).
  split; [done|congruence|by etrans|exists (u1 ++ u2); by rewrite <- app_assoc, <- L2| | | |intros x Hx; by rewrite K2, K1].
  - intros f [[Hf|[Hf Hn]]%P1|[Hf Hn]]%P2.
    + by left.
    + right. split; [done|]. intros Hf3. apply Hn. rewrite L2, elem_of_app. by right.
    + right. split; [by apply Hsub|done].
  - intros f Hf Hp Hl. eapply same_page_trans; [by apply M1|]. apply M2; [done| |by intros ?%Hsub].
    intros [?|[? _]]%P1; done.
  - intros f Hf Hn. destruct (decide (f ∈ l2)); [by apply U2|]. apply (ptpage_mono sp2); [done|done|by apply U1].
Qed.

Lemma ptpage_word (f i : Z) : 0 <= i < 1024 -> 0 <= 4 * i /\ 4 * i + 4 <= PGSIZE.
Proof. unfold PGSIZE. lia. Qed.

(** The representation depends on the pages of the space only. *)
Lemma repr_ext m m' sp : (forall f, ptpage sp f -> same_page m m' f) -> repr m sp -> repr m' sp.
Proof.
  intros Hs [R1 R2 R3 R4 R5 R6 R7]. split; try done.
  - intros d Hd. destruct (ptpage_word (dir sp) d Hd). rewrite (same_page_load m m') by (done || apply Hs; by left). by apply R1.
  - intros d t i Ht Hi. destruct (ptpage_word t i Hi).
    rewrite (same_page_load m m') by (done || apply Hs; right; by exists d). by apply R2.
Qed.

(** Pointers into the pages of a space. *)
Lemma word_ptr f i : frame kend f -> 0 <= i < 1024 ->
  u32 (f + KERNBASE + 4 * i) = f + KERNBASE + 4 * i /\ v2p (f + KERNBASE + 4 * i) = f + 4 * i /\ f + KERNBASE + 4 * i <> 0.
Proof using Hend.
  intros Hf Hi. apply (frame_range kend Hend) in Hf. unfold v2p, EXTMEM, PHYSTOP, KERNBASE in *.
  rewrite !u32_small; unfold is_u32; lia.
Qed.

Lemma pde_present t : frame kend t ->
  has_flag (t + 7) PTE_P = true /\ PTE_ADDR (t + 7) = t.
Proof. intros [Hm _]. rewrite has_flag_low, aligned_addr by (done || unfold PGSIZE; lia). done. Qed.

(** ** Walking *)

Lemma vpn_range va : is_u32 va -> 0 <= va / PGSIZE / 1024 < 1024 /\ 0 <= va / PGSIZE mod 1024 < 1024 /\
  1024 * (va / PGSIZE / 1024) + va / PGSIZE mod 1024 = va / PGSIZE.
Proof. unfold is_u32, PGSIZE. dlia. Qed.

(** The address of the entry of page [p] in the page table at [t]. *)
Definition pte_ptr (t p : Z) : Z := t + KERNBASE + 4 * (p mod 1024).

Lemma walk_found s sp l va t alloc : vinv s sp l -> is_u32 va -> tabs sp !! (va / PGSIZE / 1024) = Some t ->
  walkpgdir (dir sp + KERNBASE) va alloc s = Ret (pte_ptr t (va / PGSIZE)) s.
Proof using Hend.
  intros [_ R _] Hva Ht. destruct (vpn_range va Hva) as (Hd & Hi & _).
  assert (Hfd : frame kend (dir sp)) by (apply (r_frames _ _ R); by left).
  assert (Hft : frame kend t) by (apply (r_frames _ _ R); right; by eexists).
  destruct (word_ptr _ _ Hfd Hd) as (E1 & E2 & _). destruct (word_ptr _ _ Hft Hi) as (E3 & _).
  destruct (pde_present t Hft) as [E4 E5]. unfold walkpgdir, deref, bind, gets. rewrite pdx_spec by done.
  rewrite E1, E2, (r_dir _ _ R), Ht by done. rewrite E4, E5, ptx_spec by done.
  rewrite (frame_p2v kend Hend) by done. by rewrite E3.
Qed.

Lemma walk_none s sp l va : vinv s sp l -> is_u32 va -> tabs sp !! (va / PGSIZE / 1024) = None ->
  walkpgdir (dir sp + KERNBASE) va false s = Ret 0 s.
Proof using Hend.
  intros [_ R _] Hva Ht. destruct (vpn_range va Hva) as (Hd & _).
  assert (Hfd : frame kend (dir sp)) by (apply (r_frames _ _ R); by left).
  destruct (word_ptr _ _ Hfd Hd) as (E1 & E2 & _). unfold walkpgdir, deref, bind, gets. rewrite pdx_spec by done.
  by rewrite E1, E2, (r_dir _ _ R), Ht by done.
Qed.

(** Reading an entry. *)
Lemma pte_read s sp l p t : vinv s sp l -> 0 <= p -> tabs sp !! (p / 1024) = Some t ->
  deref (pte_ptr t p) s = Ret (ent sp p) s.
Proof using Hend.
  intros [_ R _] Hp Ht. assert (Hi : 0 <= p mod 1024 < 1024) by dlia.
  assert (Hft : frame kend t) by (apply (r_frames _ _ R); right; by eexists).
  destruct (word_ptr _ _ Hft Hi) as (_ & E & _). unfold deref, gets, pte_ptr. rewrite E.
  rewrite (r_tab _ _ R (p / 1024)) by done. do 2 f_equal. dlia.
Qed.

Lemma pte_ptr_nonzero s sp l p t : vinv s sp l -> 0 <= p -> tabs sp !! (p / 1024) = Some t -> (pte_ptr t p =? 0) = false.
Proof using Hend.
  intros [_ R _] Hp Ht. apply Z.eqb_neq. assert (Hft : frame kend t) by (apply (r_frames _ _ R); right; by eexists).
  apply (word_ptr t (p mod 1024) Hft). dlia.
Qed.

(** ** Writing an entry *)

Lemma store_page m f i w g : frame kend f -> frame kend g -> f <> g -> 0 <= i < 1024 ->
  same_page m (store32 m (f + 4 * i) w) g.
Proof.
  intros Hf Hg Hne Hi j Hj. apply store_outside. destruct (frames_apart kend f g Hf Hg Hne); unfold PGSIZE in *; lia.
Qed.
Lemma fill_page m f c g : frame kend f -> frame kend g -> f <> g -> same_page m (m_fill m f PGSIZE c) g.
Proof.
  intros Hf Hg Hne j Hj. apply fill_outside. destruct (frames_apart kend f g Hf Hg Hne); lia.
Qed.
Lemma load_fill m f i : 0 <= i < 1024 -> load32 (m_fill m f PGSIZE 0) (f + 4 * i) = 0.
Proof. intros Hi. unfold load32. rewrite !fill_inside by (unfold PGSIZE; lia). done. Qed.

Lemma repr_set_ent m sp p t w : repr m sp -> 0 <= p < 1048576 -> tabs sp !! (p / 1024) = Some t -> is_u32 w ->
  repr (store32 m (t + 4 * (p mod 1024)) w) (set_ent p w sp).
Proof.
  intros R Hp Ht Hw. assert (Hft : frame kend t) by (apply (r_frames _ _ R); right; by eexists).
  assert (Hi : 0 <= p mod 1024 < 1024) by dlia. pose proof R as [R1 R2 R3 R4 R5 R6 R7]. split; simpl; try done.
  - intros d Hd. destruct (ptpage_word (dir sp) d Hd). rewrite <- R1 by done.
    apply (same_page_load m); [|done..]. apply store_page; [done|apply R5; by left| |done]. intros ->. by apply (R6 (p / 1024)).
  - intros d t' i Ht' Hi'. unfold ent, set_ent. simpl. destruct (decide (d = p / 1024)) as [->|Hd].
    + rewrite Ht in Ht'. injection Ht' as <-. destruct (decide (i = p mod 1024)) as [->|Hne].
      * rewrite load_store_same by done. replace (1024 * (p / 1024) + p mod 1024) with p by dlia. by rewrite lookup_insert_eq.
      * rewrite load_store_other by lia. rewrite lookup_insert_ne by dlia. by apply R2.
    + rewrite lookup_insert_ne by dlia. destruct (ptpage_word t' i Hi').
      rewrite (same_page_load m); [by apply R2| |done..]. apply store_page; [done|apply R5; right; by eexists| |done].
      intros ->. apply Hd. by eapply R7.
  - intros q w' [[<- <-]|[Hne Hq]]%lookup_insert_Some; [done|by apply R3].
Qed.

Lemma pte_write s sp l p t w : vinv s sp l -> 0 <= p < 1048576 -> tabs sp !! (p / 1024) = Some t ->
  exists s', assign (pte_ptr t p) w s = Ret tt s' /\ grown s sp l s' (set_ent p (u32 w) sp) l /\
    forall g, frame kend g -> g <> t -> same_page (mem s) (mem s') g.
Proof using Hend.
  intros [K R A] Hp Ht. assert (Hi : 0 <= p mod 1024 < 1024) by dlia.
  assert (Hft : frame kend t) by (apply (r_frames _ _ R); right; by eexists).
  destruct (word_ptr _ _ Hft Hi) as (_ & E & _). eexists. split; [reflexivity|].
  assert (Hs : forall g, frame kend g -> g <> t -> same_page (mem s) (store32 (mem s) (v2p (pte_ptr t p)) (u32 w)) g).
  { intros g Hg Hne. unfold pte_ptr. rewrite E. by apply store_page. }
  split; [|done]. split; [|done|done|by exists []|by left| |done|].
  - split; [|unfold pte_ptr in *; simpl; rewrite E; apply repr_set_ent; auto with xv6|done].
    apply (kinv_ext kend s); [done| |done]. intros f Hf. pose proof (k_frames _ _ _ K) as Hfr. rewrite Forall_forall in Hfr.
    apply Hs; [by apply Hfr|]. intros ->. apply (A t); [right; by eexists|done].
  - intros f Hf Hnp Hl. simpl. apply Hs; [done|]. intros ->. apply Hnp. right. by eexists.
  - intros x Hx. simpl. unfold pte_ptr. rewrite E. apply store_outside. destruct Hft. lia.
Qed.

(** ** Adding a page table *)

Lemma ptpage_add d t sp f : ptpage (add_tab d t sp) f -> ptpage sp f \/ f = t.
Proof.
  unfold ptpage, add_tab. simpl. intros [->|[d' [[_ <-]|[_ ?]]%lookup_insert_Some]]; [by left; left|by right|].
  left. right. by eexists.
Qed.

Lemma repr_add_tab m sp d t : repr m sp -> 0 <= d < 1024 -> tabs sp !! d = None -> frame kend t -> ~ ptpage sp t ->
  repr (store32 (m_fill m t PGSIZE 0) (dir sp + 4 * d) (t + 7)) (add_tab d t sp).
Proof using Hend.
  intros R Hd Hn Hft Hnp. pose proof R as [R1 R2 R3 R4 R5 R6 R7].
  assert (Hfd : frame kend (dir sp)) by (apply R5; by left). assert (Hne : t <> dir sp) by (intros ->; apply Hnp; by left).
  assert (Hu : is_u32 (t + 7)).
  { apply (frame_range kend Hend) in Hft. unfold is_u32, PHYSTOP, EXTMEM in *. lia. }
  assert (Hpage : forall g, frame kend g -> g <> t -> g <> dir sp ->
    same_page m (store32 (m_fill m t PGSIZE 0) (dir sp + 4 * d) (t + 7)) g).
  { intros g Hg Hg1 Hg2. eapply same_page_trans; [apply (fill_page m t 0)|apply store_page]; done || congruence. }
  split; simpl.
  - intros d' Hd'. destruct (decide (d' = d)) as [->|Hd2].
    + by rewrite load_store_same, lookup_insert_eq.
    + rewrite load_store_other by lia. rewrite lookup_insert_ne by done. rewrite <- R1 by done.
      destruct (ptpage_word (dir sp) d' Hd'). apply (same_page_load m); [|done..]. by apply fill_page.
  - intros d' t' i Ht' Hi. destruct (ptpage_word t' i Hi). change (ent (add_tab d t sp)) with (ent sp).
    apply lookup_insert_Some in Ht' as [[<- <-]|[Hd2 Ht']].
    + rewrite (same_page_load (m_fill m t PGSIZE 0)); [|by apply store_page|done..]. rewrite load_fill by done.
      unfold ent. destruct (ents sp !! (1024 * d + i)) eqn:E; [|done]. apply R3 in E as (_ & _ & [t' E]).
      replace ((1024 * d + i) / 1024) with d in E by dlia. congruence.
    + rewrite (same_page_load m); [by apply R2| |done..]. assert (ptpage sp t') by (right; by eexists).
      apply Hpage; [by apply R5|by intros ->|]. intros ->. by apply (R6 d').
  - intros p w Hp. destruct (R3 p w Hp) as (? & ? & [t' ?]). split_and!; [done|lia|lia|].
    rewrite lookup_insert_ne by congruence. by eexists.
  - intros d' t' [[<- _]|[_ ?]]%lookup_insert_Some; [done|by eapply R4].
  - intros f [Hf| ->]%ptpage_add; [by apply R5|done].
  - intros d' [[_ ?]|[_ ?]]%lookup_insert_Some; [done|]. by apply (R6 d').
  - intros d1 d2 f [[<- <-]|[? H1]]%lookup_insert_Some [[<- H2]|[? H2]]%lookup_insert_Some; try done.
    + destruct Hnp. right. by eexists.
    + subst. destruct Hnp. right. by eexists.
    + by eapply R7.
Qed.

(** [walkpgdir] with [alloc] set: the entry of a page table, new if there was none;
    null when there is no page for it. *)
Lemma walk_wp s sp l va (Q : Z -> kstate -> Prop) : vinv s sp l -> is_u32 va ->
  let d := va / PGSIZE / 1024 in
  (l = [] -> tabs sp !! d = None -> Q 0 s) ->
  (forall s' sp' l' t, grown s sp l s' sp' l' -> ents sp' = ents sp -> tabs sp' !! d = Some t ->
     length l = (length l' + if tabs sp !! d then 0 else 1)%nat -> Q (pte_ptr t (va / PGSIZE)) s') ->
  wp (walkpgdir (dir sp + KERNBASE) va true) Q s.
Proof using Hend.
  intros V Hva d H0 HQ. destruct (tabs sp !! d) as [t|] eqn:Ht.
  { unfold wp. erewrite walk_found by done. apply (HQ s sp l); [by apply grown_refl|done..|lia]. }
  pose proof V as [K R A]. destruct (vpn_range va Hva) as (Hd & Hi & _).
  assert (Hfd : frame kend (dir sp)) by (apply (r_frames _ _ R); by left).
  destruct (word_ptr _ _ Hfd Hd) as (E1 & E2 & _). fold d in Hd, E1, E2. unfold walkpgdir.
  rewrite pdx_spec by done. fold d. rewrite E1.
  apply wp_bind. unfold deref. apply wp_gets. rewrite E2, (r_dir _ _ R), Ht by done. simpl.
  apply wp_bind. apply (kalloc_wp kend Hend s l); [done|]. destruct l as [|t l]; [by apply H0|].
  intros s1 K1 M1 _. assert (Hft : frame kend t) by (eapply Forall_inv, (k_frames _ _ _ K)).
  assert (Hnp : ~ ptpage sp t) by (intros Hp; apply (A t Hp); left).
  destruct (word_ptr _ _ Hft Hi) as (E3 & _ & _). pose proof (frame_range kend Hend t Hft) as Hrt.
  destruct (Z.eqb_spec (t + KERNBASE) 0); [unfold KERNBASE, EXTMEM in *; lia|].
  apply wp_bind, wp_modify, wp_bind, wp_modify, wp_ret. cbn [mem use_lock freelist].
  rewrite (frame_v2p kend Hend) by done. rewrite E2, ptx_spec, E3 by done. rewrite M1.
  assert (Z.lor (Z.lor (Z.lor t PTE_P) PTE_W) PTE_U = t + 7) as ->.
  { rewrite <- !Z.lor_assoc. apply lor_aligned; [apply Hft|]. vm_compute. split; [discriminate|reflexivity]. }
  assert (u32 (t + 7) = t + 7) as -> by (apply u32_small; unfold is_u32, PHYSTOP, EXTMEM in *; lia).
  pose proof (k_nodup _ _ _ K) as [Hni Hnd]%NoDup_cons. pose proof (k_frames _ _ _ K) as [_ Hfr]%Forall_cons. rewrite Forall_forall in Hfr.
  assert (Hs : forall f, frame kend f -> f <> t -> f <> dir sp ->
    same_page (mem s) (store32 (m_fill (mem s) t PGSIZE 0) (dir sp + 4 * d) (t + 7)) f).
  { intros f Hf Hf1 Hf2. eapply same_page_trans; [apply (fill_page _ t 0)|apply store_page]; done || congruence. }
  apply (HQ _ (add_tab d t sp) l); [|done|apply lookup_insert_eq|simpl; lia].
  split; [|done|by apply insert_subseteq|by exists [t]| | | |].
  - split; simpl; [|by apply repr_add_tab|intros f [Hf| ->]%ptpage_add; [|done]; intros Hl; by apply (A f Hf); right].
    apply (kinv_ext kend s1); [done| |done]. intros f Hf. simpl. rewrite M1. apply Hs; [by apply Hfr|by intros ->|].
    intros ->. apply (A (dir sp)); [by left|by right].
  - intros f [Hf| ->]%ptpage_add; [by left|right; split; [left|done]].
  - intros f Hf Hp Hl. apply Hs; [done|intros ->; apply Hl; left|intros ->; apply Hp; by left].
  - intros f [->|Hf]%elem_of_cons Hn; [|done]. right. exists d. apply lookup_insert_eq.
  - intros x Hx. destruct Hft, Hfd. simpl. rewrite store_outside by lia. apply fill_outside. lia.
Qed.

(** ** [mappages] *)

Definition mk_pte (pa perm : Z) : Z := Z.lor (Z.lor pa perm) PTE_P.

(** The entries after mapping [n] pages from page [p] on. *)
Fixpoint map_pages (n : nat) (p pa perm : Z) (e : gmap Z Z) : gmap Z Z :=
  match n with
  | O => e
  | S n' => map_pages n' (p + 1) (u32 (pa + PGSIZE)) perm (<[p:=mk_pte pa perm]> e)
  end.

(** How many page tables the pages [p..p+k] may need. *)
Definition tables_needed (sp : space) (p k : Z) : Z :=
  (p + k) / 1024 - p / 1024 + if tabs sp !! (p / 1024) then 0 else 1.

(** [mappages] over [k+1] pages: it maps all of them, or runs out of memory after
    [j] of them. *)
Definition mapped (s : kstate) (sp : space) (l : list Z) (p : Z) (k : nat) (pa perm r : Z) (s' : kstate) : Prop :=
  exists sp' l' j, grown s sp l s' sp' l' /\ ents sp' = map_pages j p pa perm (ents sp) /\
    ((r = 0 /\ j = S k /\ Z.of_nat (length l) <= Z.of_nat (length l') + tables_needed sp p (Z.of_nat k)) \/
     (r = -1 /\ (j <= k)%nat /\ l' = [] /\ Z.of_nat (length l) < tables_needed sp p (Z.of_nat k))).

Lemma tables_needed_pos sp p k : 0 <= k -> 0 <= tables_needed sp p k.
Proof. intros. unfold tables_needed. destruct (tabs sp !! (p / 1024)); dlia. Qed.

Lemma tables_needed_step sp sp1 p k : is_Some (tabs sp1 !! (p / 1024)) ->
  tables_needed sp1 (p + 1) k + (if tabs sp !! (p / 1024) then 0 else 1) <= tables_needed sp p (k + 1).
Proof.
  intros [t Ht]. unfold tables_needed. replace (p + (k + 1)) with (p + 1 + k) by lia.
  destruct (decide ((p + 1) / 1024 = p / 1024)) as [E|E]; [rewrite E, Ht; lia|].
  assert ((p + 1) / 1024 = p / 1024 + 1) as -> by dlia.
  destruct (tabs sp1 !! (p / 1024 + 1)), (tabs sp !! (p / 1024)); lia.
Qed.

Lemma mk_pte_u32 pa perm : is_u32 pa -> is_u32 perm -> is_u32 (mk_pte pa perm).
Proof. intros. unfold mk_pte. repeat apply u32_lor; done. Qed.

(** One page: walk, check, set the entry. *)
Lemma map_one s sp l p pa perm (Q : Z -> kstate -> Prop) (rest : M kstate Z) :
  vinv s sp l -> 0 <= p < 1048576 -> is_u32 pa -> is_u32 perm -> has_flag (ent sp p) PTE_P = false ->
  (l = [] -> tabs sp !! (p / 1024) = None -> Q (-1) s) ->
  (forall s' sp' l', grown s sp l s' sp' l' -> ents sp' = <[p:=mk_pte pa perm]> (ents sp) -> is_Some (tabs sp' !! (p / 1024)) ->
     length l = (length l' + if tabs sp !! (p / 1024)%Z then 0 else 1)%nat -> wp rest Q s') ->
  wp (let* pte := walkpgdir (dir sp + KERNBASE) (PGSIZE * p) true in
      if pte =? 0 then ret (-1)
      else
        let* e := deref pte in
        if has_flag e PTE_P then panic "remap"
        else assign pte (Z.lor (Z.lor pa perm) PTE_P) ;;; rest) Q s.
Proof using Hend.
  intros V Hp Hpa Hperm Hn H0 HQ. assert (Hva : is_u32 (PGSIZE * p)) by (unfold is_u32, PGSIZE; lia).
  assert (Hdiv : PGSIZE * p / PGSIZE = p) by (unfold PGSIZE; dlia).
  apply wp_bind. apply (walk_wp s sp l); [done..| |]; rewrite ?Hdiv.
  - intros Hl Ht. simpl. apply wp_ret. by apply H0.
  - intros s1 sp1 l1 t G1 He Ht Hlen. rewrite (pte_ptr_nonzero s1 sp1 l1) by (done || apply (g_inv _ _ _ _ _ _ G1) || lia).
    apply wp_bind. unfold wp at 1. rewrite (pte_read s1 sp1 l1) by (done || apply (g_inv _ _ _ _ _ _ G1) || lia).
    unfold ent. rewrite He. fold (ent sp p). rewrite Hn. apply wp_bind. unfold wp at 1. fold (mk_pte pa perm).
    destruct (pte_write s1 sp1 l1 p t (mk_pte pa perm)) as (s2 & -> & G2 & _); [apply (g_inv _ _ _ _ _ _ G1)|done..|].
    rewrite u32_small in G2 by (by apply mk_pte_u32).
    apply (HQ s2 (set_ent p (mk_pte pa perm) sp1) l1); [by eapply grown_trans|simpl; by rewrite He|simpl; by eexists|done].
Qed.

Lemma mappages_loop_wp k s sp l p pa perm :
  vinv s sp l -> 0 <= p -> p + Z.of_nat k < 1048576 -> is_u32 pa -> is_u32 perm ->
  (forall q, p <= q <= p + Z.of_nat k -> has_flag (ent sp q) PTE_P = false) ->
  wp (mappages_loop (S k) (dir sp + KERNBASE) (PGSIZE * p) (PGSIZE * (p + Z.of_nat k)) pa perm)
    (mapped s sp l p k pa perm) s.
Proof using Hend.
  revert s sp l p pa. induction k as [|k IH]; intros s sp l p pa V Hp Hk Hpa Hperm Hn; cbn [mappages_loop].
  - rewrite Z.add_0_r, Z.eqb_refl. apply (map_one s sp l); [done|lia|done|done|apply Hn; lia|..].
    + intros -> Ht. exists sp, [], 0%nat. split_and!; [by apply grown_refl|done|]. right. unfold tables_needed.
      rewrite Ht. split_and!; [done|lia|done|simpl; dlia].
    + intros s1 sp1 l1 G He _ Hlen. apply wp_ret. exists sp1, l1, 1%nat. split_and!; [done|done|]. left.
      split_and!; [done|done|]. unfold tables_needed. rewrite Z.add_0_r, Hlen. destruct (tabs sp !! (p / 1024)); lia.
  - apply (map_one s sp l); [done|lia|done|done|apply Hn; lia|..].
    + intros -> Ht. exists sp, [], 0%nat. split_and!; [by apply grown_refl|done|]. right. unfold tables_needed.
      rewrite Ht. split_and!; [done|lia|done|simpl; dlia].
    + intros s1 sp1 l1 G He [t1 Ht1] Hlen. destruct (Z.eqb_spec (PGSIZE * p) (PGSIZE * (p + Z.of_nat (S k)))); [unfold PGSIZE in *; lia|].
      assert (u32 (PGSIZE * p + PGSIZE) = PGSIZE * (p + 1)) as ->.
      { rewrite u32_small; unfold is_u32, PGSIZE; lia. }
      replace (p + Z.of_nat (S k)) with (p + 1 + Z.of_nat k) by lia. rewrite <- (g_dir _ _ _ _ _ _ G).
      eapply wp_mono.
      * apply (IH s1 sp1 l1 (p + 1)); [apply G|lia|lia|apply u32_range|done|].
        intros q Hq. unfold ent. rewrite He, lookup_insert_ne by lia. apply Hn. lia.
      * pose proof (tables_needed_step sp sp1 p (Z.of_nat k) (ex_intro _ t1 Ht1)) as Hneed.
        replace (Z.of_nat k + 1) with (Z.of_nat (S k)) in Hneed by lia.
        pose proof (tables_needed_pos sp1 (p + 1) (Z.of_nat k) ltac:(lia)).
        intros r s' (sp' & l' & j & G' & He' & Hr). exists sp', l', (S j).
        split_and!; [by eapply grown_trans|simpl; by rewrite He', He|].
        destruct Hr as [(-> & -> & Hl)|(-> & Hj & -> & Hl)]; [left|right]; split_and!; try done; try lia;
          destruct (tabs sp !! (p / 1024)); simpl in *; lia.
Qed.

Lemma mappages_wp k s sp l p pa perm :
  vinv s sp l -> 0 <= p -> p + Z.of_nat k < 1048576 -> is_u32 pa -> is_u32 perm ->
  (forall q, p <= q <= p + Z.of_nat k -> has_flag (ent sp q) PTE_P = false) ->
  wp (mappages (dir sp + KERNBASE) (PGSIZE * p) (PGSIZE * (Z.of_nat k + 1)) pa perm)
    (mapped s sp l p k pa perm) s.
Proof using Hend.
  intros V Hp Hk Hpa Hperm Hn. unfold mappages, PGROUNDDOWN. rewrite !land_page.
  assert (PGSIZE * p - (PGSIZE * p) mod PGSIZE = PGSIZE * p) as -> by (unfold PGSIZE; dlia).
  assert (u32 (PGSIZE * p + PGSIZE * (Z.of_nat k + 1) - 1) = PGSIZE * (p + Z.of_nat k) + (PGSIZE - 1)) as ->.
  { rewrite u32_small; unfold is_u32, PGSIZE; lia. }
  assert (forall x, PGSIZE * x + (PGSIZE - 1) - (PGSIZE * x + (PGSIZE - 1)) mod PGSIZE = PGSIZE * x) as -> by (unfold PGSIZE; dlia).
  assert (u32 (PGSIZE * (p + Z.of_nat k) - PGSIZE * p) / PGSIZE = Z.of_nat k) as ->.
  { rewrite u32_small; unfold is_u32, PGSIZE; [dlia|lia]. }
  rewrite Nat2Z.id. by apply mappages_loop_wp.
Qed.
End Inv.
End VmSpace.
