(* ===== verification/VmUser.v ===== *)
(** * User memory

    What a process sees through its page table, and what [allocuvm], [deallocuvm],
    [copyout] and [copyuvm] do to it.  [ainv] is the well-formedness of an address
    space: its user pages are allocated, distinct, and neither page tables nor
    free.  [ubyte] is the byte that user code reads at a virtual address. *)

From S2P Require Import Prelude Kalloc Vm VmSpace.

Module VmUser.
Import Kalloc Vm VmSpace.

(** The number of pages below [KERNBASE]. *)
Definition UPAGES : Z := 524288.

Definition present (sp : space) (p : Z) : bool := has_flag (ent sp p) PTE_P.
Definition upage (sp : space) (p : Z) : Z := PTE_ADDR (ent sp p).

(** The byte at the user address [va]; [None] is a page fault. *)
Definition ubyte (m : memory) (sp : space) (va : Z) : option Z :=
  let p := va / PGSIZE in
  if present sp p && has_flag (ent sp p) PTE_U then Some (m (upage sp p + va mod PGSIZE)) else None.

Section User.
Context (kend : Z) (Hend : KERNLINK <= kend < KERNBASE + PHYSTOP).
Notation frame := (frame kend).
Notation vinv := (vinv kend).
Notation grown := (grown kend).

(** A page in the use of neither the page tables nor the free list. *)
Definition taken (sp : space) (l : list Z) (f : Z) : Prop := frame f /\ ~ ptpage sp f /\ f ∉ l.

Record ainv (s : kstate) (sp : space) (l : list Z) : Prop := {
  a_v : vinv s sp l;
  a_user : forall p, 0 <= p < UPAGES -> present sp p = true -> taken sp l (upage sp p);
  a_inj : forall p q, 0 <= p < UPAGES -> 0 <= q < UPAGES -> present sp p = true -> present sp q = true ->
    upage sp p = upage sp q -> p = q
}.

(** The pages of an address space. *)
Definition own (sp : space) (f : Z) : Prop :=
  ptpage sp f \/ exists p, 0 <= p < UPAGES /\ present sp p = true /\ upage sp p = f.

Lemma own_taken s sp l f : ainv s sp l -> own sp f -> frame f /\ f ∉ l.
Proof.
  intros [[K R Ap] Au Ai] [Hf|(p & Hp & Hpr & <-)]; [split; [by apply (r_frames _ _ _ R)|by apply Ap]|].
  by destruct (Au p Hp Hpr) as (? & ? & ?).
Qed.

(** A page that the space does not map yet. *)
Definition spare (sp : space) (l : list Z) (f : Z) : Prop :=
  taken sp l f /\ forall p, 0 <= p < UPAGES -> present sp p = true -> upage sp p <> f.

Lemma ubyte_ext m m' sp sp' va :
  ent sp' (va / PGSIZE) = ent sp (va / PGSIZE) ->
  (present sp (va / PGSIZE) = true -> same_page m m' (upage sp (va / PGSIZE))) ->
  ubyte m' sp' va = ubyte m sp va.
Proof.
  intros He Hs. unfold ubyte, present, upage in *. rewrite He.
  destruct (has_flag (ent sp (va / PGSIZE)) PTE_P); [|done]. simpl. destruct (has_flag _ PTE_U); [|done].
  rewrite Hs; [done|done|]. unfold PGSIZE. dlia.
Qed.

Lemma taken_grown s sp l s' sp' l' f : grown s sp l s' sp' l' -> taken sp l f -> taken sp' l' f.
Proof.
  intros G (Hf & Hp & Hl). destruct (g_list _ _ _ _ _ _ _ G) as [u ->]. rewrite elem_of_app in Hl. split_and!; [done| |tauto].
  intros [?|[Hin _]]%(g_pages _ _ _ _ _ _ _ G); [done|]. rewrite elem_of_app in Hin. tauto.
Qed.

Lemma taken_same s sp l s' sp' l' f : grown s sp l s' sp' l' -> taken sp l f -> same_page (mem s) (mem s') f.
Proof. intros G (Hf & Hp & Hl). by apply (g_mem _ _ _ _ _ _ _ G). Qed.

(** Growing the page tables keeps the address space. *)
Lemma ainv_grown s sp l s' sp' l' : ainv s sp l -> grown s sp l s' sp' l' ->
  (forall p, 0 <= p < UPAGES -> ent sp' p = ent sp p) -> ainv s' sp' l'.
Proof.
  intros A G He. split; [apply G|..]; unfold present, upage in *.
  - intros p Hp. rewrite He by done. intros Hpr. eapply taken_grown; [done|]. by apply (a_user _ _ _ A).
  - intros p q Hp Hq. rewrite !He by done. by apply (a_inj _ _ _ A).
Qed.

(** Mapping a spare page. *)
Lemma ainv_map s sp l s' sp' l' p f perm : ainv s sp l -> grown s sp l s' sp' l' -> 0 <= p < UPAGES ->
  spare sp l f -> 0 <= perm < PGSIZE -> ents sp' = <[p:=mk_pte f perm]> (ents sp) ->
  ainv s' sp' l' /\ upage sp' p = f /\ PTE_FLAGS (ent sp' p) = Z.lor perm 1 /\
  forall q, q <> p -> ent sp' q = ent sp q.
Proof.
  intros A G Hp [Hf Hsp] Hperm He.
  assert (Hlo : 0 <= Z.lor perm 1 < PGSIZE).
  { split; [apply Z.lor_nonneg; lia|]. assert (Z.lor perm 1 <= perm + 1); [|unfold PGSIZE in *; dlia || idtac].
    { pose proof (Z.add_lor_land perm 1). assert (0 <= Z.land perm 1) by (apply Z.land_nonneg; lia). lia. }
    destruct (decide (perm = 4095)) as [->|]; [done|unfold PGSIZE in *; lia]. }
  assert (Hep : ent sp' p = f + Z.lor perm 1).
  { unfold ent. rewrite He, lookup_insert_eq. simpl. unfold mk_pte. rewrite <- Z.lor_assoc. apply lor_aligned; [apply Hf|done]. }
  assert (Hq : forall q, q <> p -> ent sp' q = ent sp q) by (intros q Hq; unfold ent; by rewrite He, lookup_insert_ne).
  assert (Hup : upage sp' p = f) by (unfold upage; rewrite Hep; by apply aligned_addr; [apply Hf|]).
  split_and!; [|done|rewrite Hep; by apply aligned_flags; [apply Hf|]|done].
  split; [apply G|..].
  - intros q Hq1 Hpr. destruct (decide (q = p)) as [->|Hne].
    + rewrite Hup. by eapply taken_grown.
    + unfold present, upage in *. rewrite Hq in * by done. eapply taken_grown; [done|]. by apply (a_user _ _ _ A).
  - intros q1 q2 H1 H2 P1 P2 E. destruct (decide (q1 = p)) as [->|N1], (decide (q2 = p)) as [->|N2]; [done|..].
    + rewrite Hup in E. unfold present, upage in *. rewrite Hq in * by done. by destruct (Hsp q2).
    + rewrite Hup in E. unfold present, upage in *. rewrite Hq in * by done. by destruct (Hsp q1).
    + unfold present, upage in *. rewrite !Hq in * by done. by apply (a_inj _ _ _ A).
Qed.

(** [mappages] of one spare user page; it fails when a page table is missing and there is
    no page for it. *)
Lemma map_user_any s sp l p f perm (Q : Z -> kstate -> Prop) : ainv s sp l -> 0 <= p < UPAGES ->
  spare sp l f -> 0 <= perm < PGSIZE -> present sp p = false ->
  (forall s' sp' l', grown s sp l s' sp' l' -> ainv s' sp' l' -> upage sp' p = f ->
     PTE_FLAGS (ent sp' p) = Z.lor perm 1 -> (forall q, q <> p -> ent sp' q = ent sp q) ->
     is_Some (tabs sp' !! (p / 1024)) -> Z.of_nat (length l) <= Z.of_nat (length l') + tables_needed sp p 0 -> Q 0 s') ->
  (forall s' sp', l = [] -> 0 < tables_needed sp p 0 -> grown s sp [] s' sp' [] -> ents sp' = ents sp -> Q (-1) s') ->
  wp (mappages (dir sp + KERNBASE) (PGSIZE * p) PGSIZE f perm) Q s.
Proof using Hend.
  intros A Hp Hf Hperm Hn HQ HF. eapply wp_mono.
  - replace PGSIZE with (PGSIZE * (Z.of_nat 0 + 1)) at 2 by done.
    apply (mappages_wp kend Hend 0 s sp l); [apply A|lia|unfold UPAGES in *; lia| |unfold is_u32, PGSIZE in *; lia|].
    + pose proof (frame_range kend Hend f (proj1 (proj1 Hf))). unfold is_u32, PHYSTOP, EXTMEM in *. lia.
    + intros q Hq. by replace q with p by lia.
  - intros r s' (sp' & l' & j & G & He & [(-> & -> & Hlen)|(-> & Hj & -> & Hlen)]); change (Z.of_nat 0) with 0 in Hlen.
    + destruct (ainv_map s sp l s' sp' l' p f perm A G Hp Hf Hperm He) as (A' & H1 & H2 & H3).
      eapply (HQ s' sp' l'); try done. apply (r_ents _ _ _ (v_repr _ _ _ _ (a_v _ _ _ A')) p (mk_pte f perm)).
      rewrite He. apply lookup_insert_eq.
    + assert (tables_needed sp p 0 <= 1) by (unfold tables_needed; rewrite Z.add_0_r; destruct (tabs sp !! (p / 1024)); lia).
      destruct l; [|simpl in Hlen; lia]. assert (j = 0%nat) as -> by lia. by apply (HF s' sp').
Qed.

Lemma map_user_wp s sp l p f perm (Q : Z -> kstate -> Prop) : ainv s sp l -> 0 <= p < UPAGES ->
  spare sp l f -> 0 <= perm < PGSIZE -> present sp p = false -> tables_needed sp p 0 <= Z.of_nat (length l) ->
  (forall s' sp' l', grown s sp l s' sp' l' -> ainv s' sp' l' -> upage sp' p = f ->
     PTE_FLAGS (ent sp' p) = Z.lor perm 1 -> (forall q, q <> p -> ent sp' q = ent sp q) ->
     is_Some (tabs sp' !! (p / 1024)) -> Z.of_nat (length l) <= Z.of_nat (length l') + tables_needed sp p 0 -> Q 0 s') ->
  wp (mappages (dir sp + KERNBASE) (PGSIZE * p) PGSIZE f perm) Q s.
Proof using Hend. intros A Hp Hf Hperm Hn Hl HQ. apply (map_user_any s sp l); [done..|]. intros s' sp' -> Hn0. simpl in Hl. lia. Qed.

(** Taking a page off the free list. *)
Lemma kalloc_user s sp f l (Q : Z -> kstate -> Prop) : ainv s sp (f :: l) ->
  (forall s', ainv s' sp l -> spare sp l f -> mem s' = mem s -> Q (f + KERNBASE) s') -> wp kalloc Q s.
Proof using Hend.
  intros [[K R Ap] Au Ai] HQ. pose proof (k_nodup _ _ _ K) as [Hf _]%NoDup_cons.
  apply (kalloc_wp kend Hend s (f :: l)); [done|]. intros s' K' Hm _. apply HQ; [|split|done].
  - split; [|intros p Hp Hpr; destruct (Au p Hp Hpr) as (? & ? & ?); split_and!; set_solver|done].
    split; [done|by rewrite Hm|]. intros g Hg Hl. apply (Ap g Hg). by right.
  - split_and!; [by eapply Forall_inv, (k_frames _ _ _ K)| |done]. intros Hp. apply (Ap f Hp). left.
  - intros p Hp Hpr E. destruct (Au p Hp Hpr) as (_ & _ & Hn). apply Hn. rewrite E. left.
Qed.

(** Writing a spare page. *)
Lemma write_spare s sp l f m' : ainv s sp l -> spare sp l f ->
  (forall g, frame g -> g <> f -> same_page (mem s) m' g) -> ainv (mkK m' (use_lock s) (freelist s)) sp l.
Proof.
  intros [[K R Ap] Au Ai] [(Hf & Hp & Hl) _] Hs. split; [|done..]. split; [|simpl|done].
  - apply (kinv_ext kend s); [done| |done]. intros g Hg. simpl. pose proof (k_frames _ _ _ K) as Hfr.
    rewrite Forall_forall in Hfr. apply Hs; [by apply Hfr|by intros ->].
  - eapply repr_ext; [|exact R]. intros g Hg. apply Hs; [by apply (r_frames _ _ _ R)|by intros ->].
Qed.

(** ** [allocuvm] *)

(** What adding user pages [p..pe) does: they read as 0, the rest of the address
    space and all pages outside of it and of the free list are as before. *)
Record extended (s : kstate) (sp : space) (l : list Z) (p pe : Z) (s' : kstate) (sp' : space) (l' : list Z) : Prop := {
  x_inv : ainv s' sp' l';
  x_dir : dir sp' = dir sp;
  x_list : exists used, l = used ++ l';
  x_new : forall va, PGSIZE * p <= va < PGSIZE * pe -> ubyte (mem s') sp' va = Some 0;
  x_old : forall va, 0 <= va < KERNBASE -> ~ PGSIZE * p <= va < PGSIZE * pe -> ubyte (mem s') sp' va = ubyte (mem s) sp va;
  x_kernel : forall q, UPAGES <= q -> ent sp' q = ent sp q;
  x_rest : forall q, 0 <= q < UPAGES -> ~ p <= q < pe -> ent sp' q = ent sp q;
  x_pages : forall f, ptpage sp' f -> ptpage sp f \/ (f ∈ l /\ f ∉ l');
  x_own : forall f, own sp' f -> own sp f \/ (f ∈ l /\ f ∉ l');
  x_mem : forall f, frame f -> ~ ptpage sp f -> f ∉ l -> same_page (mem s) (mem s') f;
  x_mono : forall f, own sp f -> own sp' f;
  x_used : forall f, f ∈ l -> f ∉ l' -> own sp' f;
  x_tabs : tabs sp ⊆ tabs sp'
}.

Lemma page_index va p : PGSIZE * p <= va < PGSIZE * (p + 1) -> va / PGSIZE = p.
Proof. unfold PGSIZE. dlia. Qed.

(** A page that is taken off the free list, cleared and mapped. *)
Lemma page_added s sp f l p s1 s3 sp3 l3 : 0 <= p < UPAGES -> present sp p = false ->
  ainv s1 sp l -> spare sp l f -> mem s1 = mem s ->
  let s2 := mkK (m_fill (mem s1) f PGSIZE 0) (use_lock s1) (freelist s1) in
  ainv s2 sp l -> grown s2 sp l s3 sp3 l3 -> ainv s3 sp3 l3 -> upage sp3 p = f ->
  PTE_FLAGS (ent sp3 p) = Z.lor (Z.lor PTE_W PTE_U) 1 -> (forall q, q <> p -> ent sp3 q = ent sp q) ->
  extended s sp (f :: l) p (p + 1) s3 sp3 l3.
Proof using Hend.
  intros Hp Hn A1 Hsp Hm1 s2 A2 G A3 Hup Hfl Hent. pose proof Hsp as [(Hf & _ & _) _].
  assert (Hsame : forall q, 0 <= q < UPAGES -> present sp q = true -> same_page (mem s) (mem s3) (upage sp q)).
  { intros q Hq Hpr. pose proof (a_user _ _ _ A2 q Hq Hpr) as Hu. eapply same_page_trans; [|by apply (taken_same s2 sp l s3 sp3 l3)].
    simpl. rewrite Hm1. apply (fill_page kend); [done|apply Hu|]. intros E. by destruct (proj2 Hsp q). }
  destruct (g_list _ _ _ _ _ _ _ G) as [u Hu].
  assert (Hpg : forall g, ptpage sp3 g -> ptpage sp g \/ (g ∈ f :: l /\ g ∉ l3)).
  { intros g [?|[? ?]]%(g_pages _ _ _ _ _ _ _ G); [by left|right; split; [by right|done]]. }
  assert (Hfl3 : f ∉ l3) by (intros Hf3; apply (proj2 (proj2 (proj1 Hsp))); rewrite Hu; apply elem_of_app; by right).
  assert (Hpr3 : present sp3 p = true).
  { unfold present, has_flag. rewrite land_low by (unfold PGSIZE; done). by rewrite <- pte_flags_spec, Hfl. }
  split; [done|by apply G|exists (f :: u); by rewrite Hu| | | | |done| | | | |apply G].
  - intros va Hva. pose proof (page_index va p Hva) as Hi. unfold ubyte, present. rewrite Hi, Hup.
    assert (has_flag (ent sp3 p) PTE_P = true /\ has_flag (ent sp3 p) PTE_U = true) as [-> ->].
    { unfold has_flag. rewrite !(land_low (ent sp3 p)) by (unfold PGSIZE; done). by rewrite <- pte_flags_spec, Hfl. }
    simpl. f_equal. assert (Hb : 0 <= va mod PGSIZE < PGSIZE) by (unfold PGSIZE; dlia).
    rewrite (taken_same s2 sp l s3 sp3 l3 f G (proj1 Hsp)) by done. simpl. rewrite fill_inside by lia. done.
  - intros va Hva Hnot. apply ubyte_ext; [apply Hent; unfold PGSIZE in *; dlia|]. apply Hsame. unfold UPAGES, KERNBASE, PGSIZE in *. dlia.
  - intros q Hq. apply Hent. unfold UPAGES in *. lia.
  - intros q Hq Hne. apply Hent. lia.
  - intros g [Hg|(q & Hq & Hpr & <-)]; [destruct (Hpg g Hg) as [?|?]; [by left; left|by right]|].
    destruct (decide (q = p)) as [->|Hne]; [right; rewrite Hup; split; [by left|done]|].
    left. right. exists q. unfold present, upage in *. by rewrite Hent in * by done.
  - intros g Hg Hnp [Hgf Hgl]%not_elem_of_cons. eapply same_page_trans; [|by apply (g_mem _ _ _ _ _ _ _ G)].
    simpl. rewrite Hm1. by apply (fill_page kend).
  - intros g [Hg|(q & Hq & Hpr & <-)]; [left; eapply ptpage_mono; [apply G|apply G|done]|].
    right. exists q. unfold present, upage in *. rewrite Hent; [done|]. intros ->. congruence.
  - intros g [->|Hgl]%elem_of_cons Hg3; [right; by exists p|left; by apply (g_used _ _ _ _ _ _ _ G)].
Qed.

(** One page: allocate, clear, map. *)
Lemma alloc_page s sp f l p (fails rest : M kstate Z) (R : Z -> kstate -> Prop) :
  ainv s sp (f :: l) -> 0 <= p < UPAGES -> present sp p = false -> tables_needed sp p 0 <= Z.of_nat (length l) ->
  (forall s' sp' l', extended s sp (f :: l) p (p + 1) s' sp' l' -> is_Some (tabs sp' !! (p / 1024)) ->
     Z.of_nat (length l) <= Z.of_nat (length l') + tables_needed sp p 0 -> wp rest R s') ->
  wp (let* pg := kalloc in
      if pg =? 0 then fails
      else
        set_mem (fun m => m_fill m (v2p pg) PGSIZE 0) ;;;
        mappages (dir sp + KERNBASE) (PGSIZE * p) PGSIZE (v2p pg) (Z.lor PTE_W PTE_U) ;;; rest) R s.
Proof using Hend.
  intros A Hp Hn Hl HR. apply wp_bind. apply (kalloc_user s sp f l); [done|]. intros s1 A1 Hsp Hm1.
  pose proof Hsp as [(Hf & _ & _) _]. pose proof (frame_range kend Hend f Hf) as Hr.
  destruct (Z.eqb_spec (f + KERNBASE) 0); [unfold KERNBASE, EXTMEM in *; lia|].
  rewrite (frame_v2p kend Hend) by done. apply wp_bind, wp_modify.
  pose proof (write_spare s1 sp l f (m_fill (mem s1) f PGSIZE 0) A1 Hsp) as A2.
  specialize (A2 ltac:(intros g Hg Hne; by apply (fill_page kend))). set (s2 := mkK _ _ _) in *.
  apply wp_bind. apply (map_user_wp s2 sp l); [done|done|done|done|done|done|].
  intros s3 sp3 l3 G A3 Hup Hfl Hent Ht Hlen. apply (HR s3 sp3 l3); [|done|done]. by apply (page_added s sp f l p s1).
Qed.

Lemma extended_trans s1 sp1 l1 p q r s2 sp2 l2 s3 sp3 l3 : p <= q <= r ->
  extended s1 sp1 l1 p q s2 sp2 l2 -> extended s2 sp2 l2 q r s3 sp3 l3 -> 0 <= p -> r <= UPAGES ->
  extended s1 sp1 l1 p r s3 sp3 l3.
Proof.
  intros Hpq [I1 D1 [u1 L1] N1 O1 K1 E1 P1 W1 M1 X1 U1 S1] [I2 D2 [u2 L2] N2 O2 K2 E2 P2 W2 M2 X2 U2 S2] Hp Hr.
  assert (Hsub : forall f, f ∈ l2 -> f ∈ l1) by (intros f ?; rewrite L1; apply elem_of_app; by right).
  assert (Hsub' : forall f, f ∈ l3 -> f ∈ l2) by (intros f ?; rewrite L2; apply elem_of_app; by right).
  split; [done|congruence|exists (u1 ++ u2); by rewrite L1, L2, app_assoc| | | | | | | | | |by etrans].
  - intros va Hva. destruct (decide (PGSIZE * q <= va)); [apply N2; lia|].
    rewrite O2; [apply N1; lia| |lia]. unfold UPAGES, KERNBASE, PGSIZE in *. lia.
  - intros va Hva Hnot. rewrite O2, O1; [done|done|unfold PGSIZE in *; lia..].
  - intros x Hx. by rewrite K2, K1.
  - intros x Hx Hnot. rewrite E2, E1; [done|done|lia|done|lia].
  - intros f [[?|[? ?]]%P1|[? ?]]%P2; [by left|right; auto..].
  - intros f [[?|[? ?]]%W1|[? ?]]%W2; [by left|right; auto..].
  - intros f Hf Hnp Hl. eapply same_page_trans; [by apply M1|]. apply M2; [done| |by auto]. intros [?|[? _]]%P1; done.
  - intros f Hf. by apply X2, X1.
  - intros f Hf Hn. destruct (decide (f ∈ l2)); [by apply U2|by apply X2, U1].
Qed.

Lemma extended_refl s sp l p : ainv s sp l -> extended s sp l p p s sp l.
Proof. intros A. split; [done|done|by exists []|intros; lia|done|done|done|by left|by left|done|done|done|done]. Qed.

(** The memory [allocuvm] may need for the pages [p..pe). *)
Definition pages_needed (sp : space) (p pe : Z) : Z :=
  if p <? pe then pe - p + tables_needed sp p (pe - 1 - p) else 0.

Lemma allocuvm_loop_wp fuel s sp l oldsz newsz p pe : ainv s sp l -> 0 <= p -> pe <= UPAGES -> p <= pe ->
  PGSIZE * (pe - 1) < newsz <= PGSIZE * pe -> pe - p < Z.of_nat fuel ->
  (forall q, p <= q < pe -> present sp q = false) -> pages_needed sp p pe <= Z.of_nat (length l) ->
  wp (allocuvm_loop kend fuel (dir sp + KERNBASE) oldsz newsz (PGSIZE * p)) (fun r s' => r = newsz /\
    exists sp' l', extended s sp l p pe s' sp' l' /\
      Z.of_nat (length l) <= Z.of_nat (length l') + pages_needed sp p pe) s.
Proof using Hend.
  revert s sp l p. induction fuel as [|fuel IH]; intros s sp l p A Hp Hpe Hle Hsz Hf Hn Hl; [lia|]. cbn [allocuvm_loop].
  unfold pages_needed in Hl |- *. destruct (Z.ltb_spec (PGSIZE * p) newsz), (Z.ltb_spec p pe); try (unfold PGSIZE in *; lia).
  - assert (Htn : 0 <= tables_needed sp p (pe - 1 - p)) by (apply tables_needed_pos; lia).
    destruct l as [|f l]; [simpl in Hl; lia|]. simpl length in Hl |- *.
    assert (Ht1 : tables_needed sp p 0 = if tabs sp !! (p / 1024) then 0 else 1).
    { unfold tables_needed. rewrite Z.add_0_r. lia. }
    assert (Ht2 : tables_needed sp p 0 <= tables_needed sp p (pe - 1 - p)).
    { unfold tables_needed. assert ((p + 0) / 1024 <= (p + (pe - 1 - p)) / 1024) by dlia. lia. }
    apply (alloc_page s sp f l); [done|lia|apply Hn; lia|lia|]. intros s1 sp1 l1 X Ht Hlen.
    assert (u32 (PGSIZE * p + PGSIZE) = PGSIZE * (p + 1)) as ->.
    { rewrite u32_small; unfold is_u32, UPAGES, PGSIZE in *; lia. }
    rewrite <- (x_dir _ _ _ _ _ _ _ _ X).
    assert (Hneed : pages_needed sp1 (p + 1) pe + tables_needed sp p 0 <= pe - (p + 1) + tables_needed sp p (pe - 1 - p)).
    { unfold pages_needed. destruct (Z.ltb_spec (p + 1) pe); [|lia].
      pose proof (tables_needed_step sp sp1 p (pe - 1 - (p + 1)) Ht) as Hst.
      replace (pe - 1 - (p + 1) + 1) with (pe - 1 - p) in Hst by lia. lia. }
    eapply wp_mono; [apply (IH s1 sp1 l1); [apply X|lia|done|lia|done|lia| |lia]|].
    + intros q Hq. unfold present. rewrite (x_rest _ _ _ _ _ _ _ _ X) by lia. apply Hn. lia.
    + intros r s' (-> & sp' & l' & X' & Hl'). split; [done|]. exists sp', l'.
      split; [eapply (extended_trans s sp (f :: l) p (p + 1)); [lia|done|done|done|lia]|].
      unfold pages_needed in *. destruct (p + 1 <? pe); lia.
  - assert (p = pe) as -> by lia. apply wp_ret. split; [done|]. exists sp, l. split; [by apply extended_refl|lia].
Qed.

(** ** [deallocuvm] *)

(** What removing user pages [p..pe) does: they are unmapped and the pages behind
    them are on the free list. *)
Record shrunk (s : kstate) (sp : space) (l : list Z) (p pe : Z) (s' : kstate) (sp' : space) (l' : list Z) : Prop := {
  h_inv : ainv s' sp' l';
  h_dir : dir sp' = dir sp;
  h_tabs : tabs sp' = tabs sp;
  h_list : exists freed, l' = freed ++ l /\
    forall f, f ∈ freed <-> exists q, p <= q < pe /\ present sp q = true /\ upage sp q = f;
  h_gone : forall q, p <= q < pe -> present sp' q = false;
  h_rest : forall q, ~ p <= q < pe -> ent sp' q = ent sp q;
  h_old : forall va, 0 <= va < KERNBASE -> ~ PGSIZE * p <= va < PGSIZE * pe -> ubyte (mem s') sp' va = ubyte (mem s) sp va;
  h_mem : forall f, frame f -> ~ ptpage sp f -> f ∉ l' -> same_page (mem s) (mem s') f
}.

Lemma unmap_page s sp l p t (Q : Z -> kstate -> Prop) (k : M kstate Z) : ainv s sp l -> 0 <= p < UPAGES ->
  tabs sp !! (p / 1024) = Some t -> present sp p = true ->
  (forall s' sp', shrunk s sp l p (p + 1) s' sp' (upage sp p :: l) -> wp k Q s') ->
  wp (kfree kend (p2v (upage sp p)) ;;; assign (pte_ptr t p) 0 ;;; k) Q s.
Proof using Hend.
  intros A Hp Ht Hpr HQ. pose proof (a_user _ _ _ A p Hp Hpr) as (Hf & Hnp & Hnl). set (f := upage sp p) in *.
  pose proof A as [[K R Ap] Au Ai]. rewrite (frame_p2v kend Hend) by done. apply wp_bind.
  apply (kfree_wp kend Hend s l); [done..|]. intros s1 K1 Hm1 _. apply wp_bind. unfold wp at 1.
  assert (V1 : vinv s1 sp (f :: l)).
  { split; [done| |intros g Hg; apply not_elem_of_cons; split; [by intros ->|by apply Ap]].
    eapply repr_ext; [|exact R]. intros g Hg. apply Hm1; [by apply (r_frames _ _ _ R)|by intros ->]. }
  destruct (pte_write kend Hend s1 sp (f :: l) p t 0 V1 ltac:(unfold UPAGES in *; lia) Ht) as (s2 & -> & G & _).
  change (u32 0) with 0 in G. apply (HQ s2 (set_ent p 0 sp)).
  assert (He : forall q, q <> p -> ent (set_ent p 0 sp) q = ent sp q).
  { intros q Hq. unfold ent, set_ent. simpl. by rewrite lookup_insert_ne. }
  assert (Hp0 : present (set_ent p 0 sp) p = false) by (unfold present, ent, set_ent; simpl; by rewrite lookup_insert_eq).
  assert (Hne : forall q, 0 <= q < UPAGES -> q <> p -> present sp q = true -> upage sp q <> f).
  { intros q Hq Hqp Hpq E. apply Hqp. by apply Ai. }
  split; [|done|done| |intros q Hq; by replace q with p by lia|intros q Hq; apply He; lia| |].
  - split; [apply G|..].
    + intros q Hq Hpq. destruct (decide (q = p)) as [->|Hqp]; [congruence|]. unfold present, upage in *. rewrite He in * by done.
      destruct (Au q Hq Hpq) as (H1 & H2 & H3). split_and!; [done|done|]. apply not_elem_of_cons. split; [by apply Hne|done].
    + intros q1 q2 H1 H2 P1 P2 E. destruct (decide (q1 = p)) as [->|]; [congruence|]. destruct (decide (q2 = p)) as [->|]; [congruence|].
      unfold present, upage in *. rewrite !He in * by done. by apply Ai.
  - exists [f]. split; [done|]. intros g. rewrite list_elem_of_singleton. split.
    + intros ->. exists p. split_and!; [lia|lia|done|done].
    + intros (q & Hq & _ & <-). by replace q with p by lia.
  - intros va Hva Hnot. assert (Hq : va / PGSIZE <> p) by (unfold PGSIZE in *; dlia). apply ubyte_ext; [by apply He|].
    intros Hpq. assert (Hr : 0 <= va / PGSIZE < UPAGES) by (unfold UPAGES, KERNBASE, PGSIZE in *; dlia).
    destruct (Au _ Hr Hpq) as (H1 & H2 & H3). eapply same_page_trans; [apply Hm1; [done|by apply Hne]|].
    apply (g_mem _ _ _ _ _ _ _ G); [done|done|]. apply not_elem_of_cons. split; [by apply Hne|done].
  - intros g Hg Hgp Hgl. eapply same_page_trans; [apply Hm1; [done|by intros ->; apply Hgl; left]|]. by apply (g_mem _ _ _ _ _ _ _ G).
Qed.

Lemma shrunk_refl s sp l p pe : ainv s sp l -> (forall q, p <= q < pe -> present sp q = false) -> shrunk s sp l p pe s sp l.
Proof.
  intros A Hn. split; [done|done|done| |done|done|done|done]. exists []. split; [done|]. intros f.
  split; [by intros ?%not_elem_of_nil|]. intros (q & Hq & Hpr & _). by rewrite Hn in Hpr.
Qed.

Lemma shrunk_trans s1 sp1 l1 p q r s2 sp2 l2 s3 sp3 l3 : p <= q <= r ->
  shrunk s1 sp1 l1 p q s2 sp2 l2 -> shrunk s2 sp2 l2 q r s3 sp3 l3 -> shrunk s1 sp1 l1 p r s3 sp3 l3.
Proof.
  intros Hpq [I1 D1 T1 (f1 & L1 & F1) G1 R1 O1 M1] [I2 D2 T2 (f2 & L2 & F2) G2 R2 O2 M2].
  split; [done|congruence|congruence| | | | |].
  - exists (f2 ++ f1). split; [by rewrite L2, L1, app_assoc|]. intros f. rewrite elem_of_app, F1, F2. unfold present, upage. split.
    + intros [(x & Hx & Hp & Hu)|(x & Hx & Hp & Hu)]; exists x; [|split_and!; done || lia].
      rewrite R1 in Hp, Hu by lia. split_and!; done || lia.
    + intros (x & Hx & Hp & Hu). destruct (decide (x < q)); [right|left]; exists x; rewrite ?R1 by lia; split_and!; done || lia.
  - intros x Hx. destruct (decide (x < q)); [|apply G2; lia]. unfold present. rewrite R2 by lia. apply G1. lia.
  - intros x Hx. rewrite R2, R1; [done|lia..].
  - intros va Hva Hnot. rewrite O2, O1; [done|done|unfold PGSIZE in *; lia..].
  - intros f Hf Hnp Hl. eapply same_page_trans; [apply M1|apply M2]; try done.
    + intros Hl2. apply Hl. rewrite L2. apply elem_of_app. by right.
    + unfold ptpage in *. by rewrite D1, T1.
Qed.

(** Pages without a page table are not mapped. *)
Lemma no_table s sp l q : ainv s sp l -> tabs sp !! (q / 1024) = None -> present sp q = false.
Proof.
  intros A Ht. destruct (present sp q) eqn:Hp; [|done]. unfold present, ent in Hp. destruct (ents sp !! q) eqn:E; [|done].
  apply (r_ents _ _ _ (v_repr _ _ _ _ (a_v _ _ _ A))) in E as (_ & _ & [t Ht']). congruence.
Qed.

(** One round of the loop at a page that has a page table. *)
Lemma dealloc_round fuel s sp l oldsz p t (Q : unit -> kstate -> Prop) : ainv s sp l -> 0 <= p < UPAGES ->
  PGSIZE * p < oldsz -> tabs sp !! (p / 1024) = Some t ->
  (forall s' sp' l', shrunk s sp l p (p + 1) s' sp' l' -> wp (deallocuvm_loop kend fuel (dir sp' + KERNBASE) oldsz (PGSIZE * (p + 1))) Q s') ->
  wp (deallocuvm_loop kend (S fuel) (dir sp + KERNBASE) oldsz (PGSIZE * p)) Q s.
Proof using Hend.
  intros A Hp Hlt Htp HQ. cbn [deallocuvm_loop]. destruct (Z.ltb_spec (PGSIZE * p) oldsz); [|lia].
  assert (Hdiv : PGSIZE * p / PGSIZE = p) by (unfold PGSIZE; dlia).
  assert (Hnext : u32 (PGSIZE * p + PGSIZE) = PGSIZE * (p + 1)).
  { rewrite u32_small; unfold is_u32, UPAGES, PGSIZE in *; lia. }
  assert (Hgo : forall s1 sp1 l1, shrunk s sp l p (p + 1) s1 sp1 l1 -> wp (deallocuvm_loop kend fuel (dir sp + KERNBASE) oldsz (u32 (PGSIZE * p + PGSIZE))) Q s1).
  { intros s1 sp1 l1 H1. rewrite Hnext, <- (h_dir _ _ _ _ _ _ _ _ H1). by eapply HQ. }
  apply wp_bind. unfold wp at 1. rewrite (walk_found kend Hend s sp l (PGSIZE * p) t);
    [|apply A|unfold is_u32, UPAGES, PGSIZE in *; lia|by rewrite Hdiv]. rewrite Hdiv.
  rewrite (pte_ptr_nonzero kend Hend s sp l p t) by (done || apply A || lia).
  apply wp_bind, wp_bind. unfold wp at 1. rewrite (pte_read kend Hend s sp l p t) by (done || apply A || lia).
  fold (present sp p). destruct (present sp p) eqn:Hpr; [|apply wp_ret; apply (Hgo s sp l); apply shrunk_refl; [done|];
    intros q Hq; by replace q with p by lia].
  fold (upage sp p). pose proof (a_user _ _ _ A p ltac:(lia) Hpr) as (Hfr & _ & _).
  destruct (Z.eqb_spec (upage sp p) 0) as [E|_]; [apply (frame_range kend Hend) in Hfr; rewrite E in Hfr; unfold EXTMEM in *; lia|].
  apply (unmap_page s sp l p t); [done|lia|done|done|]. intros s1 sp1 H1. apply wp_ret. by apply (Hgo s1 sp1 (upage sp p :: l)).
Qed.

(** Where a page table is missing, the loop skips 1023 pages more than the one it looked
    at; that is right at the first page of the table. *)
Lemma deallocuvm_loop_wp fuel s sp l oldsz p pe : ainv s sp l -> 0 <= p -> pe <= UPAGES ->
  PGSIZE * (pe - 1) < oldsz <= PGSIZE * pe -> p <= pe -> pe - p < Z.of_nat fuel ->
  (tabs sp !! (p / 1024) = None -> p mod 1024 = 0) ->
  wp (deallocuvm_loop kend fuel (dir sp + KERNBASE) oldsz (PGSIZE * p)) (fun _ s' =>
    exists sp' l', shrunk s sp l p pe s' sp' l') s.
Proof using Hend.
  revert s sp l p. induction fuel as [|fuel IH]; intros s sp l p A Hp Hpe Hsz Hle Hf Ht; [lia|].
  destruct (decide (PGSIZE * p < oldsz)) as [Hlt|Hge].
  2: { assert (p = pe) as -> by (unfold PGSIZE in *; lia). cbn [deallocuvm_loop]. destruct (Z.ltb_spec (PGSIZE * pe) oldsz); [lia|].
       apply wp_ret. exists sp, l. apply shrunk_refl; [done|]. intros; lia. }
  assert (Hpp : p < pe) by (unfold PGSIZE in *; lia). destruct (tabs sp !! (p / 1024)) as [t|] eqn:Htp.
  - eapply dealloc_round; [done|lia|done|done|]. intros s1 sp1 l1 H1.
    eapply wp_mono; [apply (IH s1 sp1 l1); [apply H1|lia|done|done|lia|lia|]|].
    + rewrite (h_tabs _ _ _ _ _ _ _ _ H1). intros Hnone. destruct (decide ((p + 1) / 1024 = p / 1024)) as [E|]; [congruence|dlia].
    + intros [] s' (sp' & l' & H2). exists sp', l'. eapply (shrunk_trans s sp l p (p + 1)); [lia|done|done].
  - specialize (Ht eq_refl). assert (Hdiv : PGSIZE * p / PGSIZE = p) by (unfold PGSIZE; dlia). cbn [deallocuvm_loop].
    destruct (Z.ltb_spec (PGSIZE * p) oldsz); [|lia]. apply wp_bind. unfold wp at 1.
    rewrite (walk_none kend Hend s sp l (PGSIZE * p)); [|apply A|unfold is_u32, UPAGES, PGSIZE in *; lia|by rewrite Hdiv].
    cbn [Z.eqb]. apply wp_bind, wp_ret.
    assert (u32 (u32 (PGSIZE * p + (NPTENTRIES - 1) * PGSIZE) + PGSIZE) = PGSIZE * (p + 1024)) as ->.
    { rewrite u32_add_l, u32_small; unfold is_u32, UPAGES, NPTENTRIES, PGSIZE in *; lia. }
    assert (Hnone : forall q, p <= q < p + 1024 -> present sp q = false).
    { intros q Hq. apply (no_table s sp l); [done|]. replace (q / 1024) with (p / 1024) by dlia. done. }
    destruct (decide (p + 1024 <= pe)) as [Hin|Hout].
    + eapply wp_mono; [apply (IH s sp l (p + 1024)); [done|lia|done|done|lia|lia|intros _; dlia]|].
      intros [] s' (sp' & l' & H2). exists sp', l'. eapply (shrunk_trans s sp l p (p + 1024)); [lia|by apply shrunk_refl|done].
    + destruct fuel as [|fuel]; [lia|]. cbn [deallocuvm_loop]. destruct (Z.ltb_spec (PGSIZE * (p + 1024)) oldsz); [unfold PGSIZE in *; lia|].
      apply wp_ret. exists sp, l. apply shrunk_refl; [done|]. intros q Hq. apply Hnone. lia.
Qed.

(** ** [copyout] *)

Lemma write_inside m a l x : a <= x < a + Z.of_nat (length l) -> Some (m_write m a l x) = l !! Z.to_nat (x - a).
Proof.
  intros H. unfold m_write. destruct (Z.leb_spec a x), (Z.ltb_spec x (a + Z.of_nat (length l))); try lia. simpl.
  destruct (lookup_lt_is_Some_2 l (Z.to_nat (x - a))) as [b ->]; [lia|done].
Qed.
Lemma write_outside m a l x : x < a \/ a + Z.of_nat (length l) <= x -> m_write m a l x = m x.
Proof. intros H. unfold m_write. destruct (Z.leb_spec a x), (Z.ltb_spec x (a + Z.of_nat (length l))); try lia; done. Qed.

Definition accessible (sp : space) (p : Z) : bool := present sp p && has_flag (ent sp p) PTE_U.

(** Writing [b] at an offset of a mapped user page. *)
Lemma write_user s sp l p o b : ainv s sp l -> 0 <= p < UPAGES -> accessible sp p = true -> 0 <= o ->
  o + Z.of_nat (length b) <= PGSIZE ->
  let s' := mkK (m_write (mem s) (upage sp p + o) b) (use_lock s) (freelist s) in
  ainv s' sp l /\ (forall va, 0 <= va < KERNBASE ->
    ubyte (mem s') sp va = if (PGSIZE * p + o <=? va) && (va <? PGSIZE * p + o + Z.of_nat (length b))
                           then b !! Z.to_nat (va - (PGSIZE * p + o)) else ubyte (mem s) sp va) /\
  forall g, frame g -> g <> upage sp p -> same_page (mem s) (mem s') g.
Proof.
  intros A Hp Hac Ho Hb s'. pose proof Hac as [Hpr _]%andb_prop. pose proof (a_user _ _ _ A p Hp Hpr) as (Hf & Hnp & Hnl).
  assert (Hs : forall g, frame g -> g <> upage sp p -> same_page (mem s) (mem s') g).
  { intros g Hg Hne i Hi. simpl. apply write_outside. destruct (frames_apart kend (upage sp p) g Hf Hg); [done|lia..]. }
  split_and!; [| |done].
  - destruct A as [[K R Ap] Au Ai]. split; [|done..]. split; [|simpl|done].
    + apply (kinv_ext kend s); [done| |done]. intros g Hg. pose proof (k_frames _ _ _ K) as Hfr. rewrite Forall_forall in Hfr.
      apply Hs; [by apply Hfr|by intros ->].
    + eapply repr_ext; [|exact R]. intros g Hg. apply Hs; [by apply (r_frames _ _ _ R)|by intros ->].
  - intros va Hva. assert (Hr : 0 <= va / PGSIZE < UPAGES) by (unfold UPAGES, KERNBASE, PGSIZE in *; dlia).
    assert (Hm : va = PGSIZE * (va / PGSIZE) + va mod PGSIZE /\ 0 <= va mod PGSIZE < PGSIZE) by (unfold PGSIZE; dlia).
    destruct (decide (va / PGSIZE = p)) as [E|Hne].
    + unfold ubyte. rewrite E. fold (accessible sp p). rewrite Hac. rewrite E in Hm.
      destruct (Z.leb_spec (PGSIZE * p + o) va), (Z.ltb_spec va (PGSIZE * p + o + Z.of_nat (length b)));
        simpl; try (f_equal; apply write_outside; lia).
      rewrite write_inside by lia. f_equal. lia.
    + assert (va < PGSIZE * p \/ PGSIZE * p + PGSIZE <= va) by (unfold PGSIZE in *; dlia).
      destruct (Z.leb_spec (PGSIZE * p + o) va), (Z.ltb_spec va (PGSIZE * p + o + Z.of_nat (length b))); try lia; simpl;
        (apply ubyte_ext; [done|]; intros Hpq; apply Hs; [by apply (a_user _ _ _ A)|]; intros E; apply Hne; by apply (a_inj _ _ _ A)).
Qed.

Lemma uva2ka_spec s sp l va t : ainv s sp l -> 0 <= va < KERNBASE -> tabs sp !! (va / PGSIZE / 1024) = Some t ->
  uva2ka (dir sp + KERNBASE) va s = Ret (if accessible sp (va / PGSIZE) then p2v (upage sp (va / PGSIZE)) else 0) s.
Proof using Hend.
  intros A Hva Ht. assert (Hq : 0 <= va / PGSIZE) by (unfold PGSIZE; dlia).
  unfold uva2ka, bind. rewrite (walk_found kend Hend s sp l va t) by (done || apply A || unfold is_u32, KERNBASE in *; lia).
  rewrite (pte_ptr_nonzero kend Hend s sp l _ t) by (done || apply A).
  rewrite (pte_read kend Hend s sp l _ t) by (done || apply A).
  unfold accessible, present, upage. destruct (has_flag (ent sp (va / PGSIZE)) PTE_P); [|done]. simpl.
  by destruct (has_flag (ent sp (va / PGSIZE)) PTE_U).
Qed.

(** The bytes of [buf] are at [va..va+n), the rest is as before. *)
Definition copied (s : kstate) (sp : space) (va n : Z) (buf : list Z) (s' : kstate) : Prop :=
  forall x, 0 <= x < KERNBASE -> ubyte (mem s') sp x =
    if (va <=? x) && (x <? va + n) then buf !! Z.to_nat (x - va) else ubyte (mem s) sp x.

(** Only the pages of the space have changed. *)
Definition inside (sp : space) (s s' : kstate) : Prop := forall g, frame g -> ~ own sp g -> same_page (mem s) (mem s') g.

Lemma inside_trans sp s1 s2 s3 : inside sp s1 s2 -> inside sp s2 s3 -> inside sp s1 s3.
Proof. intros H1 H2 g Hg Ho. eapply same_page_trans; [by apply H1|by apply H2]. Qed.

Lemma copyout_loop_wp fuel s sp l va buf len : ainv s sp l -> 0 <= va -> 0 <= len -> va + len <= KERNBASE ->
  Z.of_nat (length buf) = len -> len < Z.of_nat fuel ->
  (forall x, va <= x < va + len -> is_Some (tabs sp !! (x / PGSIZE / 1024))) ->
  wp (copyout_loop fuel (dir sp + KERNBASE) va buf len) (fun r s' => ainv s' sp l /\ inside sp s s' /\ exists n, 0 <= n <= len /\
    copied s sp va n buf s' /\ ((r = 0 /\ n = len) \/ (r = -1 /\ n < len /\ ubyte (mem s) sp (va + n) = None))) s.
Proof using Hend.
  revert s va buf len. induction fuel as [|fuel IH]; intros s va buf len A Hva Hlen Hmax Hbuf Hf Ht; [lia|]. cbn [copyout_loop].
  destruct (Z.ltb_spec 0 len) as [Hpos|].
  2: { apply wp_ret. split_and!; [done|done|]. exists 0. split_and!; [lia|lia| |left; split; [done|lia]]. intros x Hx. bool_cases; done || lia. }
  set (p := va / PGSIZE). set (o := va mod PGSIZE).
  assert (Hdiv : va = PGSIZE * p + o /\ 0 <= o < PGSIZE) by (unfold p, o, PGSIZE; dlia).
  assert (Hp : 0 <= p < UPAGES) by (unfold UPAGES, KERNBASE, PGSIZE in *; lia).
  assert (Hva0 : PGROUNDDOWN va = PGSIZE * p) by (unfold PGROUNDDOWN; rewrite land_page; unfold o in Hdiv; lia).
  assert (Hq : PGSIZE * p / PGSIZE = p) by (unfold PGSIZE; dlia). rewrite Hva0.
  destruct (Ht va) as [t Htp]; [lia|]. fold p in Htp. apply wp_bind. unfold wp at 1.
  rewrite (uva2ka_spec s sp l _ t) by (rewrite ?Hq; done || unfold KERNBASE, UPAGES, PGSIZE in *; lia). rewrite Hq.
  destruct (accessible sp p) eqn:Hac.
  2: { simpl. apply wp_ret. split_and!; [done|done|]. exists 0. split_and!; [lia|lia| |].
       - intros x Hx. bool_cases; done || lia.
       - right. split_and!; [done|lia|]. rewrite Z.add_0_r. unfold ubyte. fold p. fold (accessible sp p). by rewrite Hac. }
  pose proof Hac as [Hpr _]%andb_prop. pose proof (a_user _ _ _ A p Hp Hpr) as (Hfr & _ & _).
  pose proof (frame_range kend Hend _ Hfr) as Hr. rewrite (frame_p2v kend Hend) by done.
  destruct (Z.eqb_spec (upage sp p + KERNBASE) 0) as [|_]; [unfold KERNBASE, EXTMEM in *; lia|].
  replace (va - PGSIZE * p) with o by lia. set (n := Z.min (PGSIZE - o) len).
  assert (v2p (u32 (upage sp p + KERNBASE + o)) = upage sp p + o) as ->.
  { unfold v2p. rewrite u32_sub_l, u32_small; unfold is_u32, KERNBASE, PHYSTOP, EXTMEM, PGSIZE in *; lia. }
  apply wp_bind, wp_modify.
  assert (Hn : Z.of_nat (length (take (Z.to_nat n) buf)) = n) by (rewrite length_take; lia).
  destruct (write_user s sp l p o (take (Z.to_nat n) buf) A Hp Hac) as (A1 & Hu1 & Hi1); [lia|lia|]. rewrite Hn, <- (proj1 Hdiv) in Hu1.
  set (s1 := mkK (m_write _ _ _) _ _) in *. assert (Hnext : u32 (PGSIZE * p + PGSIZE) = PGSIZE * (p + 1)).
  { rewrite u32_small; unfold is_u32, UPAGES, PGSIZE in *; lia. }
  assert (Hin : inside sp s s1) by (intros g Hg Ho; apply Hi1; [done|intros ->; apply Ho; right; by exists p]).
  rewrite Hnext. destruct (decide (len = n)) as [Hall|Hmore].
  - replace (len - n) with 0 by lia. destruct fuel as [|fuel']; [lia|]. cbn [copyout_loop]. apply wp_ret.
    split_and!; [done|done|]. exists n. split_and!; [lia|lia| |left; done].
    intros x Hx. rewrite Hu1 by done. bool_cases; [|done]. rewrite lookup_take_lt by lia. done.
  - assert (Ho : n = PGSIZE - o) by lia. assert (Hv : va + n = PGSIZE * (p + 1)) by lia. rewrite <- Hv.
    eapply wp_mono; [apply (IH s1 (va + n)); [done|lia|lia|lia|rewrite length_drop; lia|lia|intros x Hx; apply Ht; lia]|].
    intros r s' (A' & Hi' & n' & Hn' & Hc & Hr'). split_and!; [done|by eapply inside_trans|]. exists (n + n').
    split_and!; [lia|lia| |destruct Hr' as [[-> ->]|(-> & Hlt & Hnone)]; [left; lia|right; split_and!; [done|lia|]]].
    + intros x Hx. rewrite Hc, Hu1 by done. destruct (Z.leb_spec (va + n) x), (Z.ltb_spec x (va + n + n')), (Z.leb_spec va x),
        (Z.ltb_spec x (va + n)), (Z.ltb_spec x (va + (n + n'))); try lia; simpl; try done.
      * rewrite lookup_drop. f_equal. lia.
      * by rewrite lookup_take_lt by lia.
    + rewrite Z.add_assoc. rewrite Hu1 in Hnone by (unfold KERNBASE in *; lia). revert Hnone. bool_cases; [lia|done].
Qed.
End User.
End VmUser.
