(* ===== verification/VmLoad.v ===== *)
(** * Loading and freeing address spaces: freevm, clearpteu, inituvm and loaduvm of vm.c

    [freevm_wp]: [freevm] puts exactly the pages of an address space on the free list.
    [clearpteu_wp]: [clearpteu] takes one page away from user code.  [inituvm_wp]:
    [inituvm] makes a first page with the given bytes.  [loaduvm_wp]:
    [loaduvm] copies a range of a file into user memory.  Each lemma says which pages
    outside the address space stay as they are, so that two spaces can be handled
    together. *)

From S2P Require Import Prelude Kalloc Vm VmSpace VmUser.

Module VmLoad.
Import Kalloc Vm VmSpace VmUser.

Section Load.
Context (kend : Z) (Hend : KERNLINK <= kend < KERNBASE + PHYSTOP).
Notation frame := (frame kend).
Notation ainv := (ainv kend).
Notation inside := (inside kend).

(** ** [freevm] *)

(** The page tables [0..i) are on the free list, in front of [l]. *)
Definition tables_freed (s0 : kstate) (sp : space) (l : list Z) (i : nat) (s : kstate) : Prop :=
  exists fr, kinv kend s (fr ++ l) /\ (forall f, f ∈ fr <-> exists d, 0 <= d < Z.of_nat i /\ tabs sp !! d = Some f) /\
    forall g, frame g -> (forall d, tabs sp !! d <> Some g) -> same_page (mem s0) (mem s) g.

Lemma free_table_wp s0 sp l i s : ainv s0 sp l -> (i < 1024)%nat -> tables_freed s0 sp l i s ->
  wp (free_table kend (dir sp + KERNBASE) i) (fun _ => tables_freed s0 sp l (S i)) s.
Proof using Hend.
  intros [[K0 R Ap] _ _] Hi (fr & K & Hfr & Hm). assert (Hfd : frame (dir sp)) by (apply (r_frames _ _ _ R); by left).
  assert (Hi' : 0 <= Z.of_nat i < 1024) by lia. destruct (word_ptr kend Hend (dir sp) (Z.of_nat i) Hfd Hi') as (E1 & E2 & _).
  destruct (ptpage_word (dir sp) (Z.of_nat i) Hi') as [B1 B2].
  unfold free_table. apply wp_bind, wp_gets. rewrite E1, E2.
  rewrite (same_page_load (mem s0) (mem s)) by (done || (apply Hm; [done|apply (r_dir_tab _ _ _ R)])). rewrite (r_dir _ _ _ R) by done.
  assert (Hstep : forall f, (exists d, 0 <= d < Z.of_nat (S i) /\ tabs sp !! d = Some f) <->
    tabs sp !! Z.of_nat i = Some f \/ exists d, 0 <= d < Z.of_nat i /\ tabs sp !! d = Some f).
  { intros f. split.
    - intros (d & Hd & Hdf). destruct (decide (d = Z.of_nat i)) as [->|]; [by left|]. right. exists d. split; [lia|done].
    - intros [H|(d & Hd & Hdf)]; [exists (Z.of_nat i)|exists d]; (split; [lia|done]). }
  destruct (tabs sp !! Z.of_nat i) as [t|] eqn:Ht.
  - assert (Hpt : ptpage sp t) by (right; by eexists). assert (Hft : frame t) by (by apply (r_frames _ _ _ R)).
    destruct (pde_present kend t Hft) as [-> ->]. rewrite (frame_p2v kend Hend) by done. apply (kfree_wp kend Hend s (fr ++ l)); [done|done| |].
    { rewrite elem_of_app, Hfr. intros [(d & Hd & Hdt)|Hl]; [|by apply (Ap t)]. assert (d = Z.of_nat i) by (by eapply (r_inj _ _ _ R)). lia. }
    intros s' K' Hm' _. exists (t :: fr). split; [done|]. split.
    + intros f. rewrite elem_of_cons, Hfr, Hstep. split; [intros [->|?]; auto|intros [[= ->]|?]; auto].
    + intros g Hg Hng. eapply same_page_trans; [by apply Hm|]. apply Hm'; [done|]. intros ->. by apply (Hng (Z.of_nat i)).
  - change (has_flag 0 PTE_P) with false. cbn iota. apply wp_ret. exists fr. split; [done|]. split; [|done].
    intros f. rewrite Hfr, Hstep. split; [by right|by intros [?|?]].
Qed.

(** [freevm] of a space: its page directory, page tables and user pages are free. *)
Lemma freevm_wp s sp l (Q : unit -> kstate -> Prop) : ainv s sp l ->
  (forall s' fr, kinv kend s' (fr ++ l) -> (forall f, f ∈ fr <-> own sp f) ->
     (forall g, frame g -> ~ own sp g -> g ∉ l -> same_page (mem s) (mem s') g) -> Q tt s') ->
  wp (freevm kend (dir sp + KERNBASE)) Q s.
Proof using Hend.
  intros A HQ. pose proof A as [[K R Ap] _ _]. assert (Hfd : frame (dir sp)) by (apply (r_frames _ _ _ R); by left).
  pose proof (frame_range kend Hend _ Hfd) as Hr. unfold freevm. rewrite (proj2 (Z.eqb_neq _ 0)) by (unfold KERNBASE, EXTMEM in *; lia).
  apply wp_bind. unfold deallocuvm. change (KERNBASE <=? 0) with false. cbn iota. change (PGROUNDUP 0) with (PGSIZE * 0). apply wp_bind.
  eapply wp_mono; [apply (deallocuvm_loop_wp kend Hend _ s sp l KERNBASE 0 UPAGES); [done|lia|lia|done|done|by vm_compute|done]|].
  intros [] s1 (sp1 & l1 & [I1 D1 T1 (fr1 & -> & F1) G1 R1 O1 M1]). apply wp_ret, wp_bind. rewrite <- D1.
  eapply wp_mono; [apply (wp_for_upto (tables_freed s1 sp1 (fr1 ++ l)))|].
  - exists []. split; [apply I1|]. split; [|done]. intros f. split; [by intros ?%not_elem_of_nil|intros (d & Hd & _); lia].
  - intros j s' Hj HI. apply free_table_wp; [done|change (Z.to_nat NPDENTRIES) with 1024%nat in Hj; lia|done].
  - intros [] s2 (fr2 & K2 & F2 & M2). change (Z.of_nat (0 + Z.to_nat NPDENTRIES)) with 1024 in F2. rewrite D1, T1 in *.
    pose proof (a_v _ _ _ _ I1) as [_ _ Ap1].
    apply (kfree_wp kend Hend s2 (fr2 ++ fr1 ++ l)); [done|done| |].
    { rewrite elem_of_app, F2. intros [(d & _ & Hd)|Hl]; [by apply (r_dir_tab _ _ _ R d)|]. apply (Ap1 (dir sp)); [left; congruence|done]. }
    intros s3 K3 M3 _. apply (HQ s3 (dir sp :: fr2 ++ fr1)); [simpl; by rewrite <- app_assoc|..].
    + intros f. rewrite elem_of_cons, elem_of_app, F2, F1. unfold own, ptpage. split.
      * intros [->|[(d & _ & Hd)|(q & Hq & Hp & Hu)]]; [by left; left|left; right; by exists d|right; by exists q].
      * intros [[->|[d Hd]]|(q & Hq & Hp & Hu)]; [by left|right; left; exists d; split; [by apply (r_tdom _ _ _ R) in Hd|done]|right; right; by exists q].
    + intros g Hg Hn Hl. unfold own, ptpage in Hn. eapply same_page_trans; [apply M1; [done|tauto|]|].
      { rewrite elem_of_app, F1. intros [(q & Hq)|?]; [apply Hn; right; by exists q|done]. }
      eapply same_page_trans; [apply M2; [done|]|apply M3; [done|intros ->; apply Hn; by left; left]].
      intros d Hd. apply Hn. left. right. by exists d.
Qed.

(** Freeing pages outside of a space keeps it. *)
Lemma ainv_more s sp l s' fr : ainv s sp l -> kinv kend s' (fr ++ l) -> (forall f, f ∈ fr -> ~ own sp f) ->
  (forall f, own sp f -> same_page (mem s) (mem s') f) ->
  ainv s' sp (fr ++ l) /\ forall va, 0 <= va < KERNBASE -> ubyte (mem s') sp va = ubyte (mem s) sp va.
Proof.
  intros A K Hfr Hs. split.
  - destruct A as [[_ R Ap] Au Ai]. split; [|intros p Hp Hpr; destruct (Au p Hp Hpr) as (? & ? & Hn)|done].
    + split; [done|eapply repr_ext; [|exact R]; intros f Hf; apply Hs; by left|].
      intros f Hf. rewrite elem_of_app. intros [Hl|Hl]; [apply (Hfr f Hl); by left|by apply (Ap f)].
    + split_and!; [done|done|]. rewrite elem_of_app. intros [Hl|?]; [|done]. apply (Hfr _ Hl). right. by exists p.
  - intros va Hva. apply ubyte_ext; [done|]. intros Hpr. apply Hs. right. exists (va / PGSIZE).
    split_and!; try done; unfold UPAGES, KERNBASE, PGSIZE in *; dlia.
Qed.

(** ** [clearpteu] *)

Lemma clear_u32 e : is_u32 e -> u32 (Z.land e (Z.lnot PTE_U)) = Z.land e (Z.lnot PTE_U).
Proof.
  intros He. unfold u32. change 4294967296 with (2 ^ 32). rewrite <- Z.land_ones by lia. rewrite <- Z.land_assoc, (Z.land_comm (Z.lnot PTE_U)), Z.land_assoc.
  rewrite (Z.land_ones e) by lia. by rewrite Z.mod_small by (unfold is_u32 in He; lia).
Qed.

Lemma clear_flags e : let e' := Z.land e (Z.lnot PTE_U) in
  has_flag e' PTE_P = has_flag e PTE_P /\ has_flag e' PTE_U = false /\ PTE_ADDR e' = PTE_ADDR e.
Proof.
  unfold has_flag, PTE_ADDR, PTE_P, PTE_U. cbv zeta. rewrite <- !Z.land_assoc. change (Z.land (Z.lnot 4) 1) with 1.
  change (Z.land (Z.lnot 4) 4) with 0. change (Z.land (Z.lnot 4) (Z.lnot 4095)) with (Z.lnot 4095). by rewrite Z.land_0_r.
Qed.

(** The page [p] is no longer user code's; nothing else changes. *)
Lemma clearpteu_wp s sp l p (Q : unit -> kstate -> Prop) : ainv s sp l -> 0 <= p < UPAGES -> present sp p = true ->
  (forall s' sp', ainv s' sp' l -> dir sp' = dir sp -> tabs sp' = tabs sp -> inside sp s s' -> (forall f, own sp' f <-> own sp f) ->
     (forall va, 0 <= va < KERNBASE -> ubyte (mem s') sp' va = if va / PGSIZE =? p then None else ubyte (mem s) sp va) ->
     (forall q, q <> p -> ent sp' q = ent sp q) -> Q tt s') ->
  wp (clearpteu (dir sp + KERNBASE) (PGSIZE * p)) Q s.
Proof using Hend.
  intros A Hp Hpr HQ. pose proof A as [V Au Ai]. pose proof V as [K R Ap].
  assert (He : is_u32 (ent sp p) /\ is_Some (tabs sp !! (p / 1024))).
  { unfold present, ent in *. destruct (ents sp !! p) eqn:E; [|done]. apply (r_ents _ _ _ R) in E. simpl. tauto. }
  destruct He as [Heu [t Ht]]. assert (Hdiv : PGSIZE * p / PGSIZE = p) by (unfold PGSIZE; dlia).
  unfold clearpteu. apply wp_bind. unfold wp at 1.
  rewrite (walk_found kend Hend s sp l (PGSIZE * p) t); [|done|unfold is_u32, UPAGES, PGSIZE in *; lia|by rewrite Hdiv]. rewrite Hdiv.
  rewrite (pte_ptr_nonzero kend Hend s sp l p t) by (done || lia). apply wp_bind. unfold wp at 1.
  rewrite (pte_read kend Hend s sp l p t) by (done || lia).
  destruct (pte_write kend Hend s sp l p t (Z.land (ent sp p) (Z.lnot PTE_U)) V ltac:(unfold UPAGES in *; lia) Ht) as (s' & E & G & Hm).
  unfold wp. rewrite E. rewrite clear_u32 in G by done. set (e' := Z.land (ent sp p) (Z.lnot PTE_U)) in *. set (sp' := set_ent p e' sp) in *.
  destruct (clear_flags (ent sp p)) as (F1 & F2 & F3). fold e' in F1, F2, F3.
  assert (Hep : ent sp' p = e') by (unfold ent, sp', set_ent; simpl; by rewrite lookup_insert_eq).
  assert (Heq : forall q, q <> p -> ent sp' q = ent sp q) by (intros q Hq; unfold ent, sp', set_ent; simpl; by rewrite lookup_insert_ne).
  assert (Hpe : forall q, present sp' q = present sp q).
  { intros q. unfold present. destruct (decide (q = p)) as [->|]; [by rewrite Hep|by rewrite Heq]. }
  assert (Hpu : forall q, upage sp' q = upage sp q).
  { intros q. unfold upage. destruct (decide (q = p)) as [->|]; [by rewrite Hep|by rewrite Heq]. }
  assert (Hpt : ptpage sp t) by (right; by exists (p / 1024)).
  apply (HQ s' sp'); [|done|done| | | |].
  - split; [apply G|intros q Hq|intros q1 q2 H1 H2]; rewrite !Hpe, !Hpu; [by apply Au|by apply Ai].
  - intros g Hg Hno. apply Hm; [done|]. intros ->. apply Hno. by left.
  - intros f. unfold own. split; (intros [H|(q & Hq & H1 & H2)]; [by left|right; exists q]); rewrite Hpe, Hpu in *; done.
  - intros va Hva. assert (Hq : 0 <= va / PGSIZE < UPAGES) by (unfold UPAGES, KERNBASE, PGSIZE in *; dlia).
    destruct (Z.eqb_spec (va / PGSIZE) p) as [E'|Hne].
    + unfold ubyte. rewrite E', Hep, F2. by rewrite andb_false_r.
    + apply ubyte_ext; [by apply Heq|]. intros Hpq. destruct (Au _ Hq Hpq) as (Hf & Hnp & _). apply Hm; [done|]. intros Et. by rewrite Et in Hnp.
  - done.
Qed.

(** ** [loaduvm] *)

(** ** [inituvm] *)

(** The first page of a space holds [init], followed by zeros; [l] is the free list before
    and [l'] after. *)
Record first_page (s : kstate) (sp : space) (l : list Z) (init : list Z) (s' : kstate) (sp' : space) (l' : list Z) : Prop := {
  fp_inv : ainv s' sp' l';
  fp_dir : dir sp' = dir sp;
  fp_bytes : forall va, 0 <= va < PGSIZE -> ubyte (mem s') sp' va = Some (default 0 (init !! Z.to_nat va));
  fp_rest : forall q, q <> 0 -> ent sp' q = ent sp q;
  fp_pages : forall f, f ∈ l <-> f ∈ l' \/ (own sp' f /\ ~ own sp f);
  fp_own : forall f, own sp f -> own sp' f;
  fp_mem : forall f, frame f -> ~ own sp' f -> f ∉ l -> same_page (mem s) (mem s') f
}.

Lemma inituvm_wp s sp l init : ainv s sp l -> present sp 0 = false -> Z.of_nat (length init) < PGSIZE -> 2 <= Z.of_nat (length l) ->
  wp (inituvm (dir sp + KERNBASE) init (Z.of_nat (length init))) (fun _ s' => exists sp' l', first_page s sp l init s' sp' l' /\ Z.of_nat (length l) <= Z.of_nat (length l') + 2) s.
Proof using Hend.
  intros A Hn Hi Hl. unfold inituvm. rewrite (proj2 (Z.leb_gt _ _)) by done. rewrite Nat2Z.id, firstn_all.
  destruct l as [|f l]; [simpl in Hl; lia|]. apply wp_bind, (kalloc_user kend Hend s sp f l); [done|]. intros s1 A1 Hsp M1.
  pose proof Hsp as [(Hf & _ & _) _]. rewrite (frame_v2p kend Hend) by done. apply wp_bind, wp_modify.
  pose proof (write_spare kend s1 sp l f (m_fill (mem s1) f PGSIZE 0) A1 Hsp ltac:(intros g Hg Hne; by apply (fill_page kend))) as A2.
  assert (Ht : tables_needed sp 0 0 <= 1) by (unfold tables_needed; destruct (tabs sp !! (0 / 1024)); rewrite ?Z.add_0_r; change (0 / 1024) with 0; lia).
  set (s2 := mkK _ _ _) in *. apply wp_bind. apply (map_user_wp kend Hend s2 sp l 0 f (Z.lor PTE_W PTE_U)); [done|done|done|done|done|simpl in Hl; lia|].
  intros s3 sp3 l3 G A3 Hup Hfl Hent _ Hlen. apply wp_modify.
  pose proof (page_added kend Hend s sp f l 0 s1 s3 sp3 l3 ltac:(done) Hn A1 Hsp M1 A2 G A3 Hup Hfl Hent) as X.
  assert (Hac : accessible sp3 0 = true).
  { unfold accessible, present, has_flag. rewrite !(land_low (ent sp3 0)) by (unfold PGSIZE; done). by rewrite <- pte_flags_spec, Hfl. }
  pose proof Hac as [Hpr _]%andb_prop. destruct (write_user kend s3 sp3 l3 0 0 init A3 ltac:(done) Hac ltac:(done) ltac:(lia)) as (A4 & U4 & S4).
  rewrite Hup, Z.add_0_r in *. assert (Hown : own sp3 f) by (right; by exists 0). assert (Hof : ~ own sp f).
  { intros Ho. destruct (own_taken kend s1 sp l f A1 Ho). apply (own_taken kend s sp (f :: l) f A Ho). left. }
  exists sp3, l3. split; [|simpl; lia]. split.
  - done.
  - apply (x_dir _ _ _ _ _ _ _ _ _ X).
  - intros va Hva. rewrite U4 by (unfold KERNBASE, PGSIZE in *; lia). rewrite Z.mul_0_r, !Z.add_0_l, Z.sub_0_r.
    destruct (Z.leb_spec 0 va), (Z.ltb_spec va (Z.of_nat (length init))); try lia; cbn [andb].
    + destruct (lookup_lt_is_Some_2 init (Z.to_nat va)) as [b ->]; [lia|done].
    + rewrite (x_new _ _ _ _ _ _ _ _ _ X) by (unfold PGSIZE in *; lia). rewrite lookup_ge_None_2 by lia. done.
  - intros q Hq. by apply Hent.
  - intros g. destruct (x_list _ _ _ _ _ _ _ _ _ X) as [u Hu]. split.
    + intros Hg. destruct (decide (g ∈ l3)); [by left|right]. split; [by apply (x_used _ _ _ _ _ _ _ _ _ X)|].
      intros Ho. by apply (own_taken kend s sp (f :: l) g A Ho).
    + intros [Hg|[Ho Hno]]; [rewrite Hu, elem_of_app; by right|]. destruct (x_own _ _ _ _ _ _ _ _ _ X g Ho) as [?|[? _]]; done.
  - apply (x_mono _ _ _ _ _ _ _ _ _ X).
  - intros g Hg Hno Hgl. eapply same_page_trans; [apply (x_mem _ _ _ _ _ _ _ _ _ X); [done| |done]|apply S4; [done|by intros ->]].
    intros Hp. apply Hno, (x_mono _ _ _ _ _ _ _ _ _ X). by left.
Qed.

Section File.
(** [readi] of the inode [ip], whose file holds [c] as long as [Inv] does. *)
Context {F : Type} (readi : nat -> Z -> Z -> M F (Z * list Z)) (ip : nat) (Inv : F -> Prop) (c : list Z).

Hypothesis readi_ok : forall f off n, Inv f -> 0 <= off -> 0 <= n -> off + n <= Z.of_nat (length c) ->
  wp (readi ip off n) (fun r f' => Inv f' /\ r = (n, window c (Z.to_nat off) (Z.to_nat n))) f.
Hypothesis small : Z.of_nat (length c) < 4294967296.

(** The file bytes [offset..offset+sz) are at [addr]; no other byte changed. *)
Definition loaded (sp : space) (l : list Z) (addr offset sz i : Z) (t t' : kstate * F) : Prop :=
  ainv (fst t') sp l /\ inside sp (fst t) (fst t') /\ Inv (snd t') /\
  copied (fst t) sp (addr + i) (Z.max 0 (sz - i)) (drop (Z.to_nat (offset + i)) c) (fst t').

Lemma loaded_nothing sp l addr offset sz i t : ainv (fst t) sp l -> Inv (snd t) -> sz <= i -> loaded sp l addr offset sz i t t.
Proof. intros A HI Hi. split_and!; [done|done|done|]. intros x Hx. rewrite Z.max_l by lia. bool_cases; [lia|done]. Qed.

Lemma loaduvm_loop_wp fuel sp l p0 offset sz k t : ainv (fst t) sp l -> Inv (snd t) -> 0 <= p0 -> 0 <= k -> 0 <= offset -> offset + sz <= Z.of_nat (length c) ->
  PGSIZE * p0 + sz < KERNBASE -> sz < PGSIZE * (k + Z.of_nat fuel) -> 
  (forall q, p0 <= q -> PGSIZE * (q - p0) < sz -> accessible sp q = true) ->
  wp (loaduvm_loop readi fuel (dir sp + KERNBASE) (PGSIZE * p0) ip offset sz (PGSIZE * k))
    (fun r t' => r = 0 /\ loaded sp l (PGSIZE * p0) offset sz (PGSIZE * k) t t') t.
Proof using Hend readi_ok small.
  revert k t. induction fuel as [|fuel IH]; intros k [s f] A HI Hp0 Hk Hoff Hlen Hmax Hf Hac; cbn [fst snd] in *.
  - apply wp_ret. split; [done|]. apply loaded_nothing; [done|done|unfold PGSIZE in *; lia].
  - cbn [loaduvm_loop]. destruct (Z.ltb_spec (PGSIZE * k) sz) as [Hlt|Hge]; [|apply wp_ret; split; [done|by apply loaded_nothing]].
    set (p := p0 + k). assert (Hp : 0 <= p < UPAGES) by (unfold p, UPAGES, KERNBASE, PGSIZE in *; lia).
    assert (Hva : u32 (PGSIZE * p0 + PGSIZE * k) = PGSIZE * p) by (rewrite u32_small; unfold p, is_u32, KERNBASE, PGSIZE in *; lia).
    assert (Hdiv : PGSIZE * p / PGSIZE = p) by (unfold PGSIZE; dlia).
    assert (Hacp : accessible sp p = true) by (apply Hac; unfold p; lia). pose proof Hacp as [Hpr _]%andb_prop.
    pose proof (a_user _ _ _ _ A p Hp Hpr) as (Hfr & _ & _).
    assert (Ht : is_Some (tabs sp !! (p / 1024))).
    { destruct (tabs sp !! (p / 1024)) eqn:E; [by eexists|]. by rewrite (no_table kend s sp l p A E) in Hpr. }
    destruct Ht as [t Ht]. apply wp_bind, wp_zoom. cbn [fst]. unfold wp at 1. rewrite Hva.
    rewrite (walk_found kend Hend s sp l (PGSIZE * p) t); [|apply A|unfold is_u32, UPAGES, PGSIZE in *; lia|by rewrite Hdiv]. rewrite Hdiv.
    rewrite (pte_ptr_nonzero kend Hend s sp l p t) by (apply A || done || lia). apply wp_bind, wp_zoom. cbn [fst snd]. unfold wp at 1.
    rewrite (pte_read kend Hend s sp l p t) by (apply A || done || lia). fold (upage sp p).
    rewrite (frame_p2v kend Hend), (frame_v2p kend Hend) by done.
    set (n := if sz - PGSIZE * k <? PGSIZE then sz - PGSIZE * k else PGSIZE).
    assert (Hn : 0 < n <= PGSIZE /\ n <= sz - PGSIZE * k) by (unfold n; destruct (Z.ltb_spec (sz - PGSIZE * k) PGSIZE); unfold PGSIZE in *; lia).
    rewrite u32_small by (unfold is_u32, PGSIZE in *; lia).
    apply wp_bind, wp_zoom. cbn [fst snd]. eapply wp_mono; [apply readi_ok; [done|unfold PGSIZE in *; lia..]|]. intros r f' [HI' ->]. cbn [fst snd].
    set (b := window c (Z.to_nat (offset + PGSIZE * k)) (Z.to_nat n)).
    assert (Hb : Z.of_nat (length b) = n) by (unfold b; rewrite length_window; unfold PGSIZE in *; lia).
    apply wp_bind, wp_zoom. cbn [fst snd]. apply wp_modify. rewrite u32_small by (unfold is_u32, PGSIZE in *; lia). rewrite Z.eqb_refl. cbn [negb].
    destruct (write_user kend s sp l p 0 b A Hp Hacp ltac:(lia) ltac:(lia)) as (A1 & Hu1 & Hi1). rewrite Z.add_0_r in A1, Hi1. rewrite !Z.add_0_r in Hu1. set (s1 := mkK _ _ _) in *.
    assert (Hnext : u32 (PGSIZE * k + PGSIZE) = PGSIZE * (k + 1)) by (rewrite u32_small; unfold is_u32, KERNBASE, PGSIZE in *; lia).
    rewrite Hnext. eapply wp_mono; [apply (IH (k + 1) (s1, f')); try done; [lia|unfold PGSIZE in *; lia]|].
    intros r t' [-> (A' & Hi' & HI'' & Hc)]. split; [done|]. cbn [fst snd] in *. unfold loaded. cbn [fst snd]. split_and!; [done| |done|].
    + eapply inside_trans; [|done]. intros g Hg Ho. apply Hi1; [done|]. intros ->. apply Ho. right. by exists p.
    + intros x Hx. rewrite Hc, Hu1 by done. cbn [fst] in *. rewrite Hb. replace (PGSIZE * p0 + PGSIZE * k) with (PGSIZE * p) by (unfold p; lia).
      replace (PGSIZE * p0 + PGSIZE * (k + 1)) with (PGSIZE * p + PGSIZE) by (unfold p, PGSIZE; lia).
      assert (Hcase : n = PGSIZE \/ (n < PGSIZE /\ n = sz - PGSIZE * k)) by (unfold n; destruct (Z.ltb_spec (sz - PGSIZE * k) PGSIZE); lia).
      assert (Hin : 0 <= x - PGSIZE * p < n -> b !! Z.to_nat (x - PGSIZE * p) = drop (Z.to_nat (offset + PGSIZE * k)) c !! Z.to_nat (x - PGSIZE * p)).
      { intros Hxn. unfold b, window. by rewrite lookup_take_lt by lia. }
      destruct (Z.leb_spec (PGSIZE * p + PGSIZE) x), (Z.ltb_spec x (PGSIZE * p + PGSIZE + Z.max 0 (sz - PGSIZE * (k + 1)))), (Z.leb_spec (PGSIZE * p) x),
        (Z.ltb_spec x (PGSIZE * p + n)), (Z.ltb_spec x (PGSIZE * p + Z.max 0 (sz - PGSIZE * k))); cbn [andb]; try (unfold PGSIZE in *; lia); try done.
      * rewrite !lookup_drop. f_equal. unfold PGSIZE in *. lia.
      * apply Hin. lia.
Qed.

(** [loaduvm] of [sz] bytes of the file at [offset]. *)
Lemma loaduvm_wp sp l addr offset sz t : ainv (fst t) sp l -> Inv (snd t) -> 0 <= addr -> addr mod PGSIZE = 0 -> 0 <= offset -> 0 <= sz -> offset + sz <= Z.of_nat (length c) ->
  addr + sz < KERNBASE -> (forall q, addr / PGSIZE <= q -> PGSIZE * q < addr + sz -> accessible sp q = true) ->
  wp (loaduvm readi (dir sp + KERNBASE) addr ip offset sz) (fun r t' => r = 0 /\ ainv (fst t') sp l /\ inside sp (fst t) (fst t') /\ Inv (snd t') /\
    copied (fst t) sp addr sz (drop (Z.to_nat offset) c) (fst t')) t.
Proof using Hend readi_ok small.
  intros A HI Ha Hal Ho Hsz Hlen Hmax Hac. unfold loaduvm. rewrite Hal. cbn [Z.eqb negb].
  assert (Hp : addr = PGSIZE * (addr / PGSIZE)) by (unfold PGSIZE in *; dlia). rewrite Hp at 1.
  change 0 with (PGSIZE * 0) at 1. eapply wp_mono; [apply (loaduvm_loop_wp _ sp l (addr / PGSIZE) offset sz 0 t); try done; unfold PGSIZE in *; try dlia|].
  - intros q Hq Hlt. apply Hac; [done|]. lia.
  - intros r t' [-> (A' & Hi & HI' & Hc)]. split_and!; try done. rewrite Z.mul_0_r, !Z.add_0_r, Z.sub_0_r, Z.max_r, <- Hp in Hc by lia. done.
Qed.
End File.

End Load.
End VmLoad.
