(* ===== verification/VmFork.v ===== *)
(** * Kernel mappings and copies of address spaces

    [setupkvm] builds a directory with the kernel's mappings, [copyuvm] a copy of
    the address space of a process.  The specifications say what both do with any amount
    of memory: with enough of it the parent and the child of [copyuvm] share no page;
    when it runs out the child's pages are free again, but for the page that could not be
    mapped, and a failed [setupkvm] keeps the whole free list. *)

From S2P Require Import Prelude Kalloc Vm VmSpace VmUser VmLoad.

Module VmFork.
Import Kalloc Vm VmSpace VmUser VmLoad.

Lemma map_pages_lookup n p pa perm e q : map_pages n p pa perm e !! q =
  if (p <=? q) && (q <? p + Z.of_nat n) then Some (mk_pte (if p =? q then pa else u32 (pa + PGSIZE * (q - p))) perm) else e !! q.
Proof.
  revert p pa e. induction n as [|n IH]; intros p pa e; cbn [map_pages].
  - destruct (Z.leb_spec p q), (Z.ltb_spec q (p + Z.of_nat 0)); try lia; done.
  - rewrite IH. destruct (Z.eqb_spec p q) as [->|Hne].
    + rewrite lookup_insert_eq.
      destruct (Z.leb_spec (q + 1) q), (Z.leb_spec q q), (Z.ltb_spec q (q + Z.of_nat (S n))); try lia; done.
    + rewrite lookup_insert_ne by done.
      destruct (Z.leb_spec (p + 1) q), (Z.ltb_spec q (p + 1 + Z.of_nat n)), (Z.leb_spec p q), (Z.ltb_spec q (p + Z.of_nat (S n)));
        try lia; simpl; try done. do 2 f_equal. destruct (Z.eqb_spec (p + 1) q); [subst; f_equal; unfold PGSIZE; lia|].
      rewrite u32_add_l. f_equal. unfold PGSIZE. lia.
Qed.

(** Case analysis on the range tests of a goal. *)
Ltac range_cases :=
  repeat (match goal with
  | |- context [?x <=? ?y] => destruct (Z.leb_spec x y)
  | |- context [?x <? ?y] => destruct (Z.ltb_spec x y)
  end; try lia); cbn [andb].

Section Region.
Context (kend : Z) (Hend : KERNLINK <= kend < KERNBASE + PHYSTOP).
Notation frame := (frame kend).
Notation vinv := (vinv kend).
Notation grown := (grown kend).

Lemma region_step n s sp l p pa perm (rest : M kstate Z) (Q : Z -> kstate -> Prop) :
  vinv s sp l -> 0 <= p -> p + Z.of_nat n < 1048576 -> is_u32 pa -> is_u32 perm ->
  (forall q, p <= q <= p + Z.of_nat n -> has_flag (ent sp q) PTE_P = false) ->
  (forall s' sp', grown s sp l s' sp' [] -> Z.of_nat (length l) < Z.of_nat n / 1024 + 2 -> Q 0 s') ->
  (forall s' sp' l', grown s sp l s' sp' l' -> ents sp' = map_pages (S n) p pa perm (ents sp) ->
     Z.of_nat (length l) <= Z.of_nat (length l') + (Z.of_nat n / 1024 + 2) -> wp rest Q s') ->
  wp (let* r := mappages (dir sp + KERNBASE) (PGSIZE * p) (PGSIZE * (Z.of_nat n + 1)) pa perm in
      if r <? 0 then ret 0 else rest) Q s.
Proof using Hend.
  intros V Hp Hn Hpa Hperm Hno HF HQ. apply wp_bind.
  assert (Ht : tables_needed sp p (Z.of_nat n) <= Z.of_nat n / 1024 + 2).
  { unfold tables_needed. destruct (tabs sp !! (p / 1024)); dlia. }
  eapply wp_mono; [by apply (mappages_wp kend Hend n s sp l)|].
  intros r s' (sp' & l' & j & G & He & [(-> & -> & Hlen)|(-> & _ & -> & Hlen)]); simpl.
  - apply (HQ s' sp' l'); [done|done|lia].
  - apply wp_ret, (HF s' sp'); [done|lia].
Qed.

Lemma ent_map n p pa perm sp sp' q : ents sp' = map_pages n p pa perm (ents sp) ->
  0 <= pa -> pa + PGSIZE * Z.of_nat n <= 4294967296 ->
  ent sp' q = if (p <=? q) && (q <? p + Z.of_nat n) then mk_pte (pa + PGSIZE * (q - p)) perm else ent sp q.
Proof.
  intros He Hpa Hmax. unfold ent. rewrite He, map_pages_lookup.
  destruct (Z.leb_spec p q), (Z.ltb_spec q (p + Z.of_nat n)); try done. simpl. f_equal.
  destruct (Z.eqb_spec p q); [unfold PGSIZE; lia|]. apply u32_small. unfold is_u32, PGSIZE in *. lia.
Qed.

(** The directory after [memset]. *)
Lemma empty_dir s f l : kinv kend s l -> frame f -> f ∉ l ->
  vinv (mkK (m_fill (mem s) f PGSIZE 0) (use_lock s) (freelist s)) (mkSpace f ∅ ∅) l.
Proof.
  intros K Hf Hl. split.
  - apply (kinv_ext kend s); [done| |done]. intros g Hg. simpl. pose proof (k_frames _ _ _ K) as Hfr. rewrite Forall_forall in Hfr.
    apply (fill_page kend); [done|by apply Hfr|by intros ->].
  - split; simpl; try done.
    + intros d Hd. by rewrite load_fill.
    + intros g [->|[d Hd]]; [done|]. simpl in Hd. by rewrite lookup_empty in Hd.
  - intros g [->|[d Hd]]; [done|]. simpl in Hd. by rewrite lookup_empty in Hd.
Qed.

End Region.

Section Kernel.
Context (kend kdata : Z) (Hend : KERNLINK <= kend < KERNBASE + PHYSTOP).
Context (Hdata : KERNLINK < kdata < KERNBASE + PHYSTOP) (Hda : kdata mod PGSIZE = 0).
Notation frame := (frame kend).
Notation vinv := (vinv kend).
Notation grown := (grown kend).
Notation ainv := (ainv kend).

(** The entry of a kernel page: the table in the comment before [kmap]. *)
Definition kernel_ent (q : Z) : Z :=
  let kd := kdata / PGSIZE in
  if (524288 <=? q) && (q <? 524544) then mk_pte (PGSIZE * (q - 524288)) PTE_W
  else if (524544 <=? q) && (q <? kd) then mk_pte (PGSIZE * (q - 524288)) 0
  else if (kd <=? q) && (q <? 581632) then mk_pte (PGSIZE * (q - 524288)) PTE_W
  else if (1040384 <=? q) && (q <? 1048576) then mk_pte (PGSIZE * q) PTE_W
  else 0.

(** The kernel's entries are in place from [KERNBASE] up to page [b]. *)
Definition stage (b : Z) (sp : space) : Prop :=
  forall q, ent sp q = if (524288 <=? q) && (q <? b) then kernel_ent q else 0.

Lemma stage_step n b pa perm sp sp' : stage b sp -> 524288 <= b -> ents sp' = map_pages n b pa perm (ents sp) ->
  0 <= pa -> pa + PGSIZE * Z.of_nat n <= 4294967296 ->
  (forall q, b <= q < b + Z.of_nat n -> kernel_ent q = mk_pte (pa + PGSIZE * (q - b)) perm) ->
  stage (b + Z.of_nat n) sp'.
Proof.
  intros St Hb He Hpa Hmax Hk q. rewrite (ent_map _ _ _ _ _ _ q He Hpa Hmax), St.
  range_cases; try done. symmetry. apply Hk. lia.
Qed.
Lemma stage_free b sp q : stage b sp -> b <= q -> has_flag (ent sp q) PTE_P = false.
Proof. intros St Hq. rewrite St. by range_cases. Qed.

Section Entries.
Let kd := kdata / PGSIZE.
Context (Hkr : 524544 < kd < 581632).
Lemma kernel_ent_io q : 524288 <= q < 524544 -> kernel_ent q = mk_pte (0 + PGSIZE * (q - 524288)) PTE_W.
Proof using Hkr. intros Hq. unfold kernel_ent. fold kd. range_cases. done. Qed.
Lemma kernel_ent_text q : 524544 <= q < kd -> kernel_ent q = mk_pte (PGSIZE * 256 + PGSIZE * (q - 524544)) 0.
Proof using Hkr. intros Hq. unfold kernel_ent. fold kd. range_cases. f_equal. unfold PGSIZE. lia. Qed.
Lemma kernel_ent_data q : kd <= q < 581632 ->
  kernel_ent q = mk_pte (PGSIZE * (kd - 524288) + PGSIZE * (q - kd)) PTE_W.
Proof using Hkr. intros Hq. unfold kernel_ent. fold kd. range_cases. f_equal. unfold PGSIZE. lia. Qed.
Lemma kernel_ent_dev sp sp' q : stage 581632 sp ->
  ents sp' = map_pages (S (Z.to_nat 8191)) 1040384 (PGSIZE * 1040384) PTE_W (ents sp) -> ent sp' q = kernel_ent q.
Proof using Hkr.
  intros St He. rewrite (ent_map _ _ _ _ _ _ q He), St by done. replace (1040384 + Z.of_nat (S (Z.to_nat 8191))) with 1048576 by lia.
  unfold kernel_ent. fold kd. clearbody kd. clear - Hkr. range_cases; try done. f_equal. unfold PGSIZE. lia.
Qed.
End Entries.

Lemma kmap_wp s sp l : vinv s sp l -> (forall q, ent sp q = 0) ->
  wp (setupkvm_loop (dir sp + KERNBASE) (kmap kdata)) (fun r s' =>
    (exists sp' l', r = dir sp' + KERNBASE /\ grown s sp l s' sp' l' /\ (forall q, ent sp' q = kernel_ent q) /\
       Z.of_nat (length l) <= Z.of_nat (length l') + 79) \/
    (r = 0 /\ Z.of_nat (length l) < 79 /\ exists sp', grown s sp l s' sp' [])) s.
Proof using Hend Hdata Hda.
  intros V0 E0. set (kd := kdata / PGSIZE).
  assert (Hkd : kdata = PGSIZE * kd) by (unfold kd, PGSIZE in *; dlia).
  assert (Hkr : 524544 < kd < 581632) by (unfold KERNLINK, KERNBASE, EXTMEM, PHYSTOP, PGSIZE in *; lia).
  assert (Hv : v2p kdata = PGSIZE * (kd - 524288)).
  { unfold v2p. rewrite u32_small; unfold is_u32, KERNBASE, PGSIZE in *; lia. }
  assert (St1 : stage 524288 sp) by (intros q; rewrite E0; by range_cases).
  unfold kmap. cbn [setupkvm_loop virt phys_end phys_start perm]. rewrite Hv.
  apply (region_step kend Hend 255 s sp l 524288 0 PTE_W); [done|lia|lia|done|done|intros q Hq; eapply stage_free; [done|lia]|intros s' sp' G HL; right; split_and!; [done|dlia|by exists sp']|].
  intros s2 sp2 l2 G2 H2 L2. pose proof (stage_step _ _ _ _ _ _ St1 ltac:(lia) H2 ltac:(done) ltac:(done) (kernel_ent_io Hkr)) as St2.
  assert (KERNLINK = PGSIZE * 524544) as -> by done. assert (v2p (PGSIZE * 524544) = PGSIZE * 256) as -> by done.
  assert (u32 (PGSIZE * (kd - 524288) - PGSIZE * 256) = PGSIZE * (Z.of_nat (Z.to_nat (kd - 524545)) + 1)) as ->.
  { rewrite u32_small; unfold is_u32, PGSIZE; lia. }
  rewrite <- (g_dir _ _ _ _ _ _ _ G2). apply (region_step kend Hend _ s2 sp2 l2);
    [apply G2|lia|lia|done|done|intros q Hq; eapply stage_free; [done|lia]|intros s' sp' G HL; right; split_and!; [done|dlia|exists sp'; eapply grown_trans; [exact G2|]; exact G]|].
  intros s3 sp3 l3 G3 H3 L3. change (524288 + Z.of_nat 256) with 524544 in St2.
  pose proof (stage_step _ _ _ _ _ _ St2 ltac:(lia) H3 ltac:(done) ltac:(unfold PGSIZE; lia)
    ltac:(intros q Hq; apply (kernel_ent_text Hkr); fold kd; lia)) as St3.
  replace (524544 + Z.of_nat (S (Z.to_nat (kd - 524545)))) with kd in St3 by lia.
  rewrite Hkd. assert (u32 (PHYSTOP - PGSIZE * (kd - 524288)) = PGSIZE * (Z.of_nat (Z.to_nat (581631 - kd)) + 1)) as ->.
  { rewrite u32_small; unfold is_u32, PHYSTOP, PGSIZE; lia. }
  rewrite <- (g_dir _ _ _ _ _ _ _ G3). apply (region_step kend Hend _ s3 sp3 l3);
    [apply G3|lia|lia|unfold is_u32, PGSIZE; lia|done|intros q Hq; eapply stage_free; [done|lia]|intros s' sp' G HL; right; split_and!; [done|dlia|exists sp'; eapply grown_trans; [exact G2|]; eapply grown_trans; [exact G3|]; exact G]|].
  intros s4 sp4 l4 G4 H4 L4.
  pose proof (stage_step _ _ _ _ _ _ St3 ltac:(lia) H4 ltac:(unfold PGSIZE; lia) ltac:(unfold PGSIZE; lia)
    ltac:(intros q Hq; apply (kernel_ent_data Hkr); fold kd; lia)) as St4.
  replace (kd + Z.of_nat (S (Z.to_nat (581631 - kd)))) with 581632 in St4 by lia.
  rewrite <- (g_dir _ _ _ _ _ _ _ G4). assert (DEVSPACE = PGSIZE * 1040384) as -> by done.
  assert (u32 (0 - PGSIZE * 1040384) = PGSIZE * (Z.of_nat (Z.to_nat 8191) + 1)) as -> by (rewrite Z2Nat.id by lia; done).
  apply (region_step kend Hend _ s4 sp4 l4); [apply G4|lia|lia|done|done|intros q Hq; eapply stage_free; [done|lia]|intros s' sp' G HL; right; split_and!; [done|dlia|exists sp'; eapply grown_trans; [exact G2|]; eapply grown_trans; [exact G3|]; eapply grown_trans; [exact G4|]; exact G]|].
  intros s5 sp5 l5 G5 H5 L5. apply wp_ret. left. exists sp5, l5. split_and!; [by rewrite <- (g_dir _ _ _ _ _ _ _ G5)| | |dlia].
  - eapply grown_trans; [exact G2|]. eapply grown_trans; [exact G3|]. by eapply grown_trans.
  - intros q. by eapply kernel_ent_dev.
Qed.

(** The result of [setupkvm] out of the free list [l]. *)
Record kernel_space (s : kstate) (l : list Z) (s' : kstate) (sp : space) (l' : list Z) : Prop := {
  ks_inv : vinv s' sp l';
  ks_ents : forall q, ent sp q = kernel_ent q;
  ks_list : exists used, l = used ++ l';
  ks_pages : forall f, ptpage sp f -> f ∈ l;
  ks_mem : forall f, frame f -> f ∉ l -> same_page (mem s) (mem s') f;
  ks_used : forall f, f ∈ l -> f ∉ l' -> ptpage sp f;
  ks_cost : Z.of_nat (length l) <= Z.of_nat (length l') + 80;
  ks_kept : kept kend (mem s) (mem s')
}.

(** When it fails it has used up the free list. *)
Lemma setupkvm_any s l (Q : Z -> kstate -> Prop) : kinv kend s l ->
  (forall s' sp l', kernel_space s l s' sp l' -> Q (dir sp + KERNBASE) s') ->
  (forall s', Z.of_nat (length l) < 80 -> kinv kend s' [] -> (forall f, frame f -> f ∉ l -> same_page (mem s) (mem s') f) -> Q 0 s') ->
  wp (setupkvm kdata) Q s.
Proof using Hend Hdata Hda.
  intros K HQ HF. unfold setupkvm. apply wp_bind, (kalloc_wp kend Hend s l); [done|]. destruct l as [|f l]; [simpl; apply wp_ret, HF; done|].
  intros s0 K0 M0 _. pose proof (k_nodup _ _ _ K) as [Hnl _]%NoDup_cons. pose proof (k_frames _ _ _ K) as [Hf _]%Forall_cons.
  pose proof (frame_range kend Hend f Hf) as Hr. destruct (Z.eqb_spec (f + KERNBASE) 0) as [|_]; [unfold KERNBASE, EXTMEM in *; lia|].
  rewrite (frame_v2p kend Hend) by done. apply wp_bind, wp_modify. change (DEVSPACE <? p2v PHYSTOP) with false. cbn iota.
  pose proof (empty_dir kend s0 f l K0 Hf Hnl) as V0. set (s1 := mkK _ _ _) in *.
  assert (Hpt : forall g, ptpage (mkSpace f ∅ ∅) g -> g = f) by (intros g [->|[d Hd]]; [done|simpl in Hd; by rewrite lookup_empty in Hd]).
  assert (Hm : forall s' sp' l' g, grown s1 (mkSpace f ∅ ∅) l s' sp' l' -> frame g -> g ∉ f :: l -> same_page (mem s) (mem s') g).
  { intros s' sp' l' g G Hg [Hgf Hgl]%not_elem_of_cons. eapply same_page_trans; [|apply (g_mem _ _ _ _ _ _ _ G); [done|by intros ?%Hpt|done]].
    simpl. rewrite M0. by apply (fill_page kend). }
  eapply wp_mono; [apply (kmap_wp s1 (mkSpace f ∅ ∅) l V0); done|].
  intros r s' [(sp' & l' & -> & G & He & Hlen)|(-> & Hlen & sp' & G)].
  2: { apply HF; [simpl; lia|apply G|]. intros g. by eapply Hm. }
  apply (HQ s' sp' l'). destruct (g_list _ _ _ _ _ _ _ G) as [u Hu].
  split; [apply G|done|exists (f :: u); by rewrite Hu| | | |simpl; lia|].
  - intros g [->%Hpt|[Hg _]]%(g_pages _ _ _ _ _ _ _ G); [left|by right].
  - intros g. by eapply Hm.
  - intros g [->|Hg]%elem_of_cons Hn; [eapply ptpage_mono; [apply G|apply G|by left]|by apply (g_used _ _ _ _ _ _ _ G)].
  - intros x Hx. rewrite (g_kept _ _ _ _ _ _ _ G) by done. simpl. rewrite M0. apply fill_outside. destruct Hf. lia.
Qed.

Lemma setupkvm_wp s l (Q : Z -> kstate -> Prop) : kinv kend s l -> 80 <= Z.of_nat (length l) ->
  (forall s' sp l', kernel_space s l s' sp l' -> Q (dir sp + KERNBASE) s') -> wp (setupkvm kdata) Q s.
Proof using Hend Hdata Hda. intros K Hl HQ. apply (setupkvm_any s l); [done|done|]. lia. Qed.

(** ** [copyuvm] *)

(** Changes outside the pages of a space keep it. *)
Lemma ainv_keep s sp l s' l' : ainv s sp l -> kinv kend s' l' -> (forall f, f ∈ l' -> f ∈ l) ->
  (forall f, own sp f -> same_page (mem s) (mem s') f) ->
  ainv s' sp l' /\ forall va, 0 <= va < KERNBASE -> ubyte (mem s') sp va = ubyte (mem s) sp va.
Proof.
  intros A K Hsub Hs. split.
  - destruct A as [[_ R Ap] Au Ai]. split; [|intros p Hp Hpr; destruct (Au p Hp Hpr) as (? & ? & Hn)|done].
    + split; [done|eapply repr_ext; [|exact R]; intros f Hf; apply Hs; by left|].
      intros f Hf Hl. by apply (Ap f Hf), Hsub.
    + split_and!; [done|done|]. intros Hl. by apply Hn, Hsub.
  - intros va Hva. apply ubyte_ext; [done|]. intros Hpr. apply Hs. right. exists (va / PGSIZE).
    split_and!; try done; unfold UPAGES, KERNBASE, PGSIZE in *; dlia.
Qed.

Lemma has_flag_flags e c : 0 <= c < PGSIZE -> has_flag e c = has_flag (PTE_FLAGS e) c.
Proof. intros Hc. unfold has_flag. by rewrite (land_low e c Hc), pte_flags_spec. Qed.

(** Parent and child after the first [p] pages; [l0] was the free list at the start. *)
Record two (s0 : kstate) (l0 : list Z) (sp : space) (s : kstate) (spc : space) (l : list Z) (p : Z) : Prop := {
  t_parent : ainv s sp l;
  t_child : ainv s spc l;
  t_apart : forall f, own sp f -> ~ own spc f;
  t_same : forall va, 0 <= va < PGSIZE * p -> ubyte (mem s) spc va = ubyte (mem s) sp va;
  t_rest : forall q, p <= q < UPAGES -> present spc q = false;
  t_kernel : forall q, UPAGES <= q -> ent spc q = kernel_ent q;
  t_kept : forall va, 0 <= va < KERNBASE -> ubyte (mem s) sp va = ubyte (mem s0) sp va;
  t_from : forall f, f ∈ l0 <-> f ∈ l \/ own spc f;
  t_mem : forall f, frame f -> f ∉ l0 -> same_page (mem s0) (mem s) f
}.

(** A failed copy: the child's pages are free again but for those in [lost], and nothing
    that was in use has changed. *)
Definition undone (s0 : kstate) (l0 : list Z) (sp : space) (s : kstate) (lost l : list Z) : Prop :=
  l0 ≡ₚ lost ++ l /\ ainv s sp l /\ (forall va, 0 <= va < KERNBASE -> ubyte (mem s) sp va = ubyte (mem s0) sp va) /\
  forall f, frame f -> f ∉ l0 -> same_page (mem s0) (mem s) f.

Lemma undone_intro s0 l0 sp s lost l : ainv s0 sp l0 -> kinv kend s l -> NoDup lost -> (forall f, f ∈ lost -> f ∉ l) ->
  (forall f, f ∈ l0 <-> f ∈ lost \/ f ∈ l) -> (forall f, frame f -> f ∉ l0 -> same_page (mem s0) (mem s) f) ->
  undone s0 l0 sp s lost l.
Proof using kdata.
  intros A K Hnd Hd Hl Hm. destruct (ainv_keep s0 sp l0 s l A K) as [A' U'].
  - intros f Hf. apply Hl. by right.
  - intros f Hf. destruct (own_taken kend s0 sp l0 f A Hf). by apply Hm.
  - split_and!; [|done|done|done]. apply NoDup_Permutation; [apply (k_nodup _ _ _ (v_k _ _ _ _ (a_v _ _ _ _ A)))| |].
    + apply NoDup_app. split_and!; [done|done|apply (k_nodup _ _ _ K)].
    + intros f. by rewrite elem_of_app.
Qed.

(** [freevm] of the child, when the page [f] of each of [lost] was taken for it but not mapped. *)
Lemma copy_bad s0 l0 sp s spc lost : ainv s0 sp l0 -> ainv s spc [] -> NoDup lost -> (forall f, f ∈ lost -> ~ own spc f) ->
  (forall f, f ∈ l0 <-> f ∈ lost \/ own spc f) -> (forall f, frame f -> f ∉ l0 -> same_page (mem s0) (mem s) f) ->
  wp (freevm kend (dir spc + KERNBASE) ;;; ret 0) (fun r s' => r = 0 /\ exists l, undone s0 l0 sp s' lost l) s.
Proof using All.
  intros A Ac Hnd Hd Hl Hm. apply wp_bind. apply (freevm_wp kend Hend s spc []); [done|]. intros s' fr K Hfr Hs. apply wp_ret. split; [done|].
  exists fr. rewrite app_nil_r in K. apply undone_intro; [done|done|done|intros f; rewrite Hfr; apply Hd|intros f; rewrite Hl, Hfr; done|].
  intros f Hf Hn. eapply same_page_trans; [by apply Hm|]. apply Hs; [done| |apply not_elem_of_nil]. intros Ho. apply Hn, Hl. by right.
Qed.

Lemma has_flag_set x : has_flag (Z.lor x 1) PTE_P = true.
Proof.
  unfold has_flag, PTE_P. rewrite Z.land_lor_distr_l. apply negb_true_iff, Z.eqb_neq. intros E. apply Z.lor_eq_0_iff in E as [_ E]. done.
Qed.

(** The pages of the child and the free list after mapping [f]. *)
Lemma from_step s1 spc l s2 spc' l' f p g : grown s1 spc l s2 spc' l' -> 0 <= p < UPAGES -> present spc p = false ->
  upage spc' p = f -> present spc' p = true -> (forall q, q <> p -> ent spc' q = ent spc q) ->
  (g ∈ f :: l \/ own spc g) <-> (g ∈ l' \/ own spc' g).
Proof.
  intros G Hp Hn Hu Hpr He. destruct (g_list _ _ _ _ _ _ _ G) as [u Hl].
  assert (Hsame : forall q, q <> p -> present spc' q = present spc q /\ upage spc' q = upage spc q).
  { intros q Hq. unfold present, upage. by rewrite He. }
  split.
  - intros [[->|Hg]%elem_of_cons|[Hg|(q & Hq & Hpq & Hqu)]].
    + right. right. by exists p.
    + destruct (decide (g ∈ l')); [by left|]. right. left. by apply (g_used _ _ _ _ _ _ _ G).
    + right. left. eapply ptpage_mono; [apply G|apply G|done].
    + right. right. exists q. destruct (Hsame q) as [-> ->]; [congruence|]. done.
  - intros [Hg|[Hg|(q & Hq & Hpq & Hqu)]].
    + left. right. rewrite Hl. apply elem_of_app. by right.
    + apply (g_pages _ _ _ _ _ _ _ G) in Hg as [Hg|[Hg _]]; [right; by left|left; by right].
    + destruct (decide (q = p)) as [->|Hqp]; [left; apply elem_of_cons; left; congruence|]. destruct (Hsame q Hqp) as [Ep Eu]. rewrite Ep in Hpq. rewrite Eu in Hqu.
      right. right. by exists q.
Qed.

(** Copying and mapping a page: [f] is the new page of the child. *)
Lemma two_step s0 l0 sp s spc f l p s1 s2 spc' l' : two s0 l0 sp s spc (f :: l) p -> 0 <= p < UPAGES -> present sp p = true ->
  ainv s1 spc l -> spare kend spc l f ->
  (forall g, frame g -> g <> f -> same_page (mem s) (mem s1) g) ->
  (forall i, 0 <= i < PGSIZE -> mem s1 (f + i) = mem s (upage sp p + i)) ->
  grown s1 spc l s2 spc' l' -> ainv s2 spc' l' -> upage spc' p = f ->
  PTE_FLAGS (ent spc' p) = Z.lor (PTE_FLAGS (ent sp p)) 1 -> (forall q, q <> p -> ent spc' q = ent spc q) ->
  two s0 l0 sp s2 spc' l' (p + 1).
Proof.
  intros [TP TC TA TS TR TK TE TF TM] Hp Hpr A1 Hsp Hm Hcopy G A2 Hup Hfl Hent.
  pose proof Hsp as [Hft _]. destruct (g_list _ _ _ _ _ _ _ G) as [u Hu].
  assert (Hpar : forall g, own sp g -> same_page (mem s) (mem s2) g).
  { intros g Hg. destruct (own_taken kend s sp (f :: l) g TP Hg) as [Hgf [Hne Hgl]%not_elem_of_cons].
    eapply same_page_trans; [by apply Hm|]. apply (g_mem _ _ _ _ _ _ _ G); [done| |done]. intros Hpt. apply (TA g Hg). by left. }
  assert (Hchild : forall q, 0 <= q < UPAGES -> present spc q = true -> same_page (mem s) (mem s2) (upage spc q)).
  { intros q Hq Hpq. destruct (own_taken kend s spc (f :: l) (upage spc q) TC) as [Hgf [Hne Hgl]%not_elem_of_cons]; [right; by exists q|].
    eapply same_page_trans; [by apply Hm|]. apply (taken_same kend s1 spc l s2 spc' l'); [done|]. by apply (a_user _ _ _ _ A1). }
  destruct (ainv_keep s sp (f :: l) s2 l' TP (v_k _ _ _ _ (g_inv _ _ _ _ _ _ _ G))) as [P2 U2]; [intros g Hg; right; rewrite Hu, elem_of_app; by right|done|].
  split; [done|done| | | | | |intros g; rewrite TF; apply (from_step s1 spc l s2 spc' l' f p g); [done|done|apply TR; lia|done|unfold present; rewrite has_flag_flags, Hfl by done; apply has_flag_set|done]|].
  - intros g Hg Hc. destruct (own_taken kend s sp (f :: l) g TP Hg) as [_ [Hne Hgl]%not_elem_of_cons]. apply (TA g Hg).
    destruct Hc as [[Hc|[Hc _]]%(g_pages _ _ _ _ _ _ _ G)|(q & Hq & Hpq & Hqu)]; [by left|done|].
    destruct (decide (q = p)) as [->|Hqp]; [congruence|]. unfold present, upage in Hpq, Hqu. rewrite Hent in Hpq, Hqu by done.
    right. by exists q.
  - intros va Hva. assert (Hvk : 0 <= va < KERNBASE) by (unfold UPAGES, KERNBASE, PGSIZE in *; lia).
    rewrite U2 by done. destruct (decide (va < PGSIZE * p)) as [Hlt|Hge].
    + rewrite <- TS by lia. apply ubyte_ext; [apply Hent; unfold PGSIZE in *; dlia|]. apply Hchild. unfold UPAGES, PGSIZE in *. dlia.
    + pose proof (page_index va p ltac:(lia)) as Hi. unfold ubyte, present in *. rewrite Hi, Hup.
      rewrite !(has_flag_flags (ent spc' p)), Hfl by (unfold PGSIZE; done). rewrite !(has_flag_flags (ent sp p)) in * by (unfold PGSIZE; done).
      assert (Z.lor (PTE_FLAGS (ent sp p)) 1 = PTE_FLAGS (ent sp p)) as ->.
      { apply Z.bits_inj'. intros i Hi0. rewrite Z.lor_spec. destruct (decide (i = 0)) as [->|Hne].
        - rewrite Z.bit0_odd. change (Z.testbit 1 0) with true. rewrite orb_true_r. symmetry. unfold has_flag in Hpr.
          change PTE_P with (Z.ones 1) in Hpr. rewrite Z.land_ones, Z.pow_1_r in Hpr by lia. rewrite Zmod_odd in Hpr. by destruct (Z.odd _).
        - destruct i as [|[i|i|]|]; try done; simpl; by rewrite orb_false_r. }
      rewrite Hpr. simpl. destruct (has_flag _ PTE_U); [|done]. f_equal.
      assert (Hb : 0 <= va mod PGSIZE < PGSIZE) by (unfold PGSIZE; dlia).
      rewrite (taken_same kend s1 spc l s2 spc' l' f G Hft) by done. by apply Hcopy.
  - intros q Hq. unfold present. rewrite Hent by lia. apply TR. lia.
  - intros q Hq. rewrite Hent by (unfold UPAGES in *; lia). by apply TK.
  - intros va Hva. by rewrite U2, TE.
  - intros g Hg Hn. rewrite TF, elem_of_cons in Hn. eapply same_page_trans; [apply TM; [done|rewrite TF, elem_of_cons; done]|].
    eapply same_page_trans; [apply Hm; [done|tauto]|]. apply (g_mem _ _ _ _ _ _ _ G); [done| |tauto]. intros Hpt. apply Hn. right. by left.
Qed.

(** The copy is undone when the page [f] cannot be mapped. *)
Lemma copy_unmapped s0 l0 sp s spc p f s2 s3 spc3 : ainv s0 sp l0 -> two s0 l0 sp s spc [f] p -> ainv s2 spc [] -> spare kend spc [] f ->
  (forall g, frame g -> g <> f -> same_page (mem s) (mem s2) g) -> grown s2 spc [] s3 spc3 [] -> ents spc3 = ents spc ->
  wp (freevm kend (dir spc + KERNBASE) ;;; ret 0) (fun r s' => r = 0 /\ exists l, undone s0 l0 sp s' [f] l) s3.
Proof using All.
  intros A0 T A2 Hsp Hm G3 He3. pose proof (t_from _ _ _ _ _ _ _ T) as TF.
  assert (A3 : ainv s3 spc3 []) by (eapply (ainv_grown kend Hend s2 spc); [exact A2|exact G3|]; intros q _; unfold ent; by rewrite He3).
  assert (Hown : forall g, own spc3 g <-> own spc g).
  { intros g. unfold own, present, upage, ent. rewrite He3. split; (intros [Hg|Hg]; [left|by right]).
    - by apply (g_pages _ _ _ _ _ _ _ G3) in Hg as [?|[?%not_elem_of_nil _]].
    - eapply ptpage_mono; [apply G3|apply G3|done]. }
  rewrite <- (g_dir _ _ _ _ _ _ _ G3). apply copy_bad; try done; [apply NoDup_singleton|..].
  - intros g ->%list_elem_of_singleton. rewrite Hown. intros [Hg|(q & Hq & Hpq & Hqu)]; [by apply Hsp in Hg|by apply (proj2 Hsp q)].
  - intros g. by rewrite TF, Hown.
  - intros g Hg Hn. eapply same_page_trans; [by apply (t_mem _ _ _ _ _ _ _ T)|]. rewrite TF, elem_of_cons in Hn.
    eapply same_page_trans; [apply Hm; [done|tauto]|]. apply (g_mem _ _ _ _ _ _ _ G3); [done| |apply not_elem_of_nil].
    intros Hpt. apply Hn. right. by left.
Qed.

Lemma copyuvm_loop_wp fuel s0 l0 sp s spc l p pe sz : ainv s0 sp l0 -> two s0 l0 sp s spc l p -> 0 <= p <= pe -> pe <= UPAGES ->
  PGSIZE * (pe - 1) < sz <= PGSIZE * pe -> pe - p < Z.of_nat fuel ->
  (forall q, p <= q < pe -> present sp q = true) ->
  wp (copyuvm_loop kend fuel (dir sp + KERNBASE) (dir spc + KERNBASE) sz (PGSIZE * p)) (fun r s' =>
    (exists spc' l', r = dir spc' + KERNBASE /\ two s0 l0 sp s' spc' l' pe) \/
    (Z.of_nat (length l) < pages_needed spc p pe /\ r = 0 /\ exists lost l', (length lost <= 1)%nat /\ undone s0 l0 sp s' lost l')) s.
Proof using All.
  revert s spc l p. induction fuel as [|fuel IH]; intros s spc l p A0 T Hp Hpe Hsz Hf Hpres; [lia|]. cbn [copyuvm_loop].
  unfold pages_needed. destruct (Z.ltb_spec (PGSIZE * p) sz), (Z.ltb_spec p pe); try (unfold PGSIZE in *; lia).
  2: { assert (p = pe) as -> by lia. apply wp_ret. left. by exists spc, l. }
  assert (Htn : 0 <= tables_needed spc p (pe - 1 - p)) by (apply tables_needed_pos; lia).
  assert (Ht2 : tables_needed spc p 0 <= tables_needed spc p (pe - 1 - p)).
  { unfold tables_needed. assert ((p + 0) / 1024 <= (p + (pe - 1 - p)) / 1024) by dlia. lia. }
  pose proof (t_parent _ _ _ _ _ _ _ T) as AP. pose proof (Hpres p ltac:(lia)) as Hpr.
  assert (Hdiv : PGSIZE * p / PGSIZE = p) by (unfold PGSIZE; dlia).
  assert (exists t, tabs sp !! (p / 1024) = Some t) as [t Ht].
  { destruct (ents sp !! p) eqn:E; [|unfold present, ent in Hpr; by rewrite E in Hpr].
    apply (r_ents _ _ _ (v_repr _ _ _ _ (a_v _ _ _ _ AP))) in E as (_ & _ & Ht). done. }
  apply wp_bind. unfold wp at 1. rewrite (walk_found kend Hend s sp l (PGSIZE * p) t);
    [|apply AP|unfold is_u32, UPAGES, PGSIZE in *; lia|by rewrite Hdiv]. rewrite Hdiv.
  rewrite (pte_ptr_nonzero kend Hend s sp l p t) by (done || apply AP || lia).
  apply wp_bind. unfold wp at 1. rewrite (pte_read kend Hend s sp l p t) by (done || apply AP || lia).
  fold (present sp p). rewrite Hpr. cbn [negb]. fold (upage sp p).
  pose proof (t_child _ _ _ _ _ _ _ T) as AC. destruct l as [|f l].
  { apply wp_bind, (kalloc_wp kend Hend s []); [apply AC|]. cbn [Z.eqb]. eapply wp_mono; [apply (copy_bad s0 l0 sp s spc []); try done; [by constructor|set_solver| |apply T]|].
    - intros g. rewrite (t_from _ _ _ _ _ _ _ T). done.
    - intros r s' (-> & l' & Hu). right. split_and!; [simpl; lia|done|]. exists [], l'. split; [simpl; lia|done]. }
  apply wp_bind. apply (kalloc_user kend Hend s spc f l); [apply T|]. intros s1 A1 Hsp M1.
  pose proof Hsp as [(Hff & _ & _) _]. pose proof (frame_range kend Hend f Hff).
  destruct (Z.eqb_spec (f + KERNBASE) 0) as [|_]; [unfold KERNBASE, EXTMEM in *; lia|].
  destruct (a_user _ _ _ _ AP p ltac:(lia) Hpr) as (Hfu & _ & Hul). apply not_elem_of_cons in Hul as [Huf _].
  rewrite (frame_p2v kend Hend (upage sp p)), !(frame_v2p kend Hend) by done. apply wp_bind, wp_modify.
  assert (Hother : forall g, frame g -> g <> f -> same_page (mem s1) (m_move (mem s1) f (upage sp p) PGSIZE) g).
  { intros g Hg Hne i Hi. unfold m_move. destruct (frames_apart kend f g Hff Hg); [done|..];
      destruct (Z.leb_spec f (g + i)), (Z.ltb_spec (g + i) (f + PGSIZE)); done || lia. }
  pose proof (write_spare kend s1 spc l f _ A1 Hsp Hother) as A2. set (s2 := mkK _ _ _) in *.
  assert (Hfb : 0 <= PTE_FLAGS (ent sp p) < PGSIZE) by (rewrite pte_flags_spec; unfold PGSIZE; dlia).
  apply wp_bind. apply (map_user_any kend Hend s2 spc l); [done|lia|done|done|apply (t_rest _ _ _ _ _ _ _ T); lia| |].
  2: { intros s3 spc3 -> Hn0 G3 He3. cbn [Z.ltb Z.compare]. eapply wp_mono; [apply (copy_unmapped s0 l0 sp s spc p f s2 s3 spc3); try done|].
    - intros g Hg Hne. unfold s2. simpl. rewrite <- M1. by apply Hother.
    - intros r s' (-> & l' & Hu). right. split_and!; [simpl; lia|done|]. exists [f], l'. split; [simpl; lia|done]. }
  intros s3 spc3 l3 G A3 Hup Hfl Hent Ht3 Hlen. cbn [Z.ltb Z.compare].
  assert (T3 : two s0 l0 sp s3 spc3 l3 (p + 1)).
  { eapply (two_step s0 l0 sp s spc f l p s2); try done; [lia| |].
    - intros g Hg Hne. unfold s2. simpl. rewrite <- M1. by apply Hother.
    - intros i Hi. simpl. unfold m_move. rewrite M1. destruct (Z.leb_spec f (f + i)), (Z.ltb_spec (f + i) (f + PGSIZE)); try lia.
      simpl. f_equal. lia. }
  assert (u32 (PGSIZE * p + PGSIZE) = PGSIZE * (p + 1)) as ->.
  { rewrite u32_small; unfold is_u32, UPAGES, PGSIZE in *; lia. }
  rewrite <- (g_dir _ _ _ _ _ _ _ G). eapply wp_mono; [apply (IH s3 spc3 l3); [done|done|lia|done|done|lia|intros q Hq; apply Hpres; lia]|].
  intros r s' [Hok|(Hlt & Hr)]; [by left|right; split; [|done]]. unfold pages_needed in Hlt. destruct (Z.ltb_spec (p + 1) pe); [|lia]. simpl length.
  pose proof (tables_needed_step spc spc3 p (pe - 1 - (p + 1)) Ht3) as Hst.
  replace (pe - 1 - (p + 1) + 1) with (pe - 1 - p) in Hst by lia.
  unfold tables_needed in Hlen at 1. rewrite Z.add_0_r in Hlen. lia.
Qed.

(** A new kernel space has no user pages. *)
Lemma kernel_no_user s l s' sp l' q : kernel_space s l s' sp l' -> q < UPAGES -> present sp q = false.
Proof using Hdata Hda.
  intros KS Hq. unfold present. rewrite (ks_ents _ _ _ _ _ KS). unfold kernel_ent, UPAGES in *.
  assert (524288 < kdata / PGSIZE) by (unfold KERNLINK, KERNBASE, EXTMEM, PGSIZE in *; dlia). by range_cases.
Qed.

Lemma kernel_ainv s l s' sp l' : kernel_space s l s' sp l' -> ainv s' sp l'.
Proof using Hdata Hda.
  intros KS. split; [apply KS|intros q Hq Hpq|intros q q' Hq _ Hpq]; rewrite (kernel_no_user _ _ _ _ _ q KS) in Hpq by lia; done.
Qed.

(** The pages a child of [n] pages may take. *)
Definition fork_cost (n : Z) : Z := 80 + n + n / 1024 + 2.

Lemma copyuvm_wp s sp l sz pe : ainv s sp l -> 0 <= pe <= UPAGES -> PGSIZE * (pe - 1) < sz <= PGSIZE * pe -> 0 <= sz ->
  (forall q, 0 <= q < pe -> present sp q = true) ->
  wp (copyuvm kend kdata (dir sp + KERNBASE) sz) (fun r s' =>
    (exists spc' l', r = dir spc' + KERNBASE /\ two s l sp s' spc' l' pe) \/
    (Z.of_nat (length l) < fork_cost pe /\ r = 0 /\ exists lost l', ((length lost <= 1)%nat \/ l' = []) /\ undone s l sp s' lost l')) s.
Proof using Hend Hdata Hda.
  intros A Hpe Hsz Hsz0 Hpres. unfold copyuvm. apply wp_bind.
  assert (0 <= pe / 1024) by dlia. unfold fork_cost. apply (setupkvm_any s l); [apply A| |].
  2: { intros s' Hlen K' Hm'. cbn [Z.eqb]. apply wp_ret. right. split_and!; [lia|done|]. exists l, []. split; [by right|].
    apply undone_intro; [done|done|apply (k_nodup _ _ _ (v_k _ _ _ _ (a_v _ _ _ _ A)))|by intros ? _ ?%not_elem_of_nil| |done].
    intros f. split; [by left|by intros [?|?%not_elem_of_nil]]. }
  intros s1 spc l1 KS. pose proof KS as [V KE [u ->] KP KM KU KC].
  assert (Hdf : frame (dir spc)) by (apply (r_frames _ _ _ (v_repr _ _ _ _ V)); by left).
  pose proof (frame_range kend Hend _ Hdf). destruct (Z.eqb_spec (dir spc + KERNBASE) 0) as [|_]; [unfold KERNBASE, EXTMEM in *; lia|].
  assert (Hup : forall q, q < UPAGES -> present spc q = false) by (intros q; by apply (kernel_no_user _ _ _ _ _ q KS)).
  assert (Hown : forall f, own spc f -> f ∈ u ++ l1) by (intros f [Hf|(q & Hq & Hpq & _)]; [by apply KP|by rewrite Hup in Hpq by lia]).
  destruct (ainv_keep s sp (u ++ l1) s1 l1 A (v_k _ _ _ _ V)) as [A1 U1]; [intros f Hf; apply elem_of_app; by right|..].
  { intros f Hf. destruct (own_taken kend s sp (u ++ l1) f A Hf). by apply KM. }
  replace 0 with (PGSIZE * 0) at 2 by done.
  eapply wp_mono; [apply (copyuvm_loop_wp _ s (u ++ l1) sp s1 spc l1 0 pe); [done| |lia|lia|done| |intros q Hq; by apply Hpres]|].
  - split; [done| | | |intros q Hq; apply Hup; lia|intros q Hq; apply KE|done| |done].
    + by eapply kernel_ainv.
    + intros f Hf Hc. by destruct (own_taken kend s sp (u ++ l1) f A Hf) as [_ []]; [apply Hown].
    + intros va Hva. unfold PGSIZE in *. lia.
    + intros f. split; [|intros [Hf|Hf]; [apply elem_of_app; by right|by apply Hown]].
      intros Hf. destruct (decide (f ∈ l1)); [by left|]. right. left. by apply KU.
  - unfold PGSIZE in *. dlia.
  - intros r s' [Hok|(Hlt & -> & lost & l' & Hlost & Hu)]; [by left|right]. split_and!; [|done|exists lost, l'; split; [by left|done]].
    unfold pages_needed, tables_needed in Hlt. destruct (Z.ltb_spec 0 pe); [|lia]. destruct (tabs spc !! (0 / 1024)); dlia.
Qed.
End Kernel.
End VmFork.
