(* ===== verification/VmSpec.v ===== *)
(** * What the page table code promises

    The properties of [allocuvm], [deallocuvm], [copyout] and [copyuvm] in terms of
    what user code reads through a page table, and what the same code does when
    memory runs out. *)

From S2P Require Import Prelude Kalloc Vm VmSpace VmUser VmFork.

Module VmSpec.
Import Kalloc Vm VmSpace VmUser VmFork.

(** The number of pages of a process of [sz] bytes. *)
Definition npages (sz : Z) : Z := PGROUNDUP sz / PGSIZE.

Lemma npages_spec sz : 0 <= sz <= KERNBASE ->
  PGROUNDUP sz = PGSIZE * npages sz /\ PGSIZE * (npages sz - 1) < sz <= PGSIZE * npages sz /\ 0 <= npages sz <= UPAGES.
Proof.
  intros H. destruct (roundup_spec sz) as [Hm Hr]; [unfold KERNBASE in *; lia|].
  unfold npages, UPAGES, KERNBASE, PGSIZE in *. split_and!; dlia.
Qed.

Section Spec.
Context (kend : Z) (Hend : KERNLINK <= kend < KERNBASE + PHYSTOP).

Lemma allocuvm_wp s sp l oldsz newsz : ainv kend s sp l -> 0 <= oldsz <= newsz -> newsz < KERNBASE ->
  (forall q, npages oldsz <= q < npages newsz -> present sp q = false) ->
  pages_needed sp (npages oldsz) (npages newsz) <= Z.of_nat (length l) ->
  wp (allocuvm kend (dir sp + KERNBASE) oldsz newsz) (fun r s' => r = newsz /\ exists sp' l',
    extended kend s sp l (npages oldsz) (npages newsz) s' sp' l' /\
    Z.of_nat (length l) <= Z.of_nat (length l') + pages_needed sp (npages oldsz) (npages newsz)) s.
Proof using Hend.
  intros A Hsz Hmax Hn Hl. destruct (npages_spec oldsz) as (E1 & B1 & C1); [lia|]. destruct (npages_spec newsz) as (E2 & B2 & C2); [lia|].
  unfold allocuvm. destruct (Z.leb_spec KERNBASE newsz); [lia|]. destruct (Z.ltb_spec newsz oldsz); [lia|]. rewrite E1.
  eapply wp_mono; [apply (allocuvm_loop_wp kend Hend _ s sp l oldsz newsz (npages oldsz) (npages newsz)); [done|lia|lia|unfold PGSIZE in *; lia|done| |done|done]|].
  - unfold PGSIZE in *. dlia.
  - intros r s' (-> & sp' & l' & X & Hlen). split; [done|]. by exists sp', l'.
Qed.

(** Mapped pages have a page table. *)
Lemma present_table s sp l p : ainv kend s sp l -> present sp p = true -> is_Some (tabs sp !! (p / 1024)).
Proof.
  intros A Hp. destruct (ents sp !! p) eqn:E; [|unfold present, ent in Hp; by rewrite E in Hp].
  by apply (r_ents _ _ _ (v_repr _ _ _ _ (a_v _ _ _ _ A))) in E as (_ & _ & Ht).
Qed.
End Spec.

(** C22: with enough free memory, [allocuvm] returns the new size and gives the
    process exactly the pages between the two sizes, filled with zeros; the rest of
    its memory and the kernel's mappings are unchanged, and the address space stays
    well-formed (its pages allocated, distinct and apart from page tables and free
    pages). *)
Theorem allocuvm_grows kend s sp l oldsz newsz :
  KERNLINK <= kend < KERNBASE + PHYSTOP -> ainv kend s sp l -> 0 <= oldsz <= newsz -> newsz < KERNBASE ->
  (forall q, npages oldsz <= q < npages newsz -> present sp q = false) ->
  pages_needed sp (npages oldsz) (npages newsz) <= Z.of_nat (length l) ->
  wp (allocuvm kend (dir sp + KERNBASE) oldsz newsz) (fun r s' => r = newsz /\ exists sp' l',
    ainv kend s' sp' l' /\ dir sp' = dir sp /\ (exists used, l = used ++ l') /\
    (forall va, 0 <= va < KERNBASE -> ubyte (mem s') sp' va =
       if (PGROUNDUP oldsz <=? va) && (va <? PGROUNDUP newsz) then Some 0 else ubyte (mem s) sp va) /\
    (forall q, UPAGES <= q -> ent sp' q = ent sp q)) s.
Proof.
  intros Hend A Hsz Hmax Hn Hl. eapply wp_mono; [by apply (allocuvm_wp kend Hend s sp l)|].
  intros r s' (-> & sp' & l' & [I D L N O K _ _ _ _ _ _ _] & _). split; [done|]. exists sp', l'. split_and!; [done|done|done| |done].
  intros va Hva. destruct (npages_spec oldsz) as (-> & _); [lia|]. destruct (npages_spec newsz) as (-> & _); [lia|].
  destruct (Z.leb_spec (PGSIZE * npages oldsz) va), (Z.ltb_spec va (PGSIZE * npages newsz)); simpl; (apply N || apply O); lia.
Qed.

(** C33: [deallocuvm] to a smaller size unmaps exactly the pages between the sizes
    and puts the pages that backed them on the free list; memory below and the
    address space's other pages are unchanged.  Missing page tables are skipped, which
    is right unless the new size ends inside of one.  To a size that is not smaller it
    does nothing and returns the old size. *)
Theorem deallocuvm_shrinks kend s sp l oldsz newsz :
  KERNLINK <= kend < KERNBASE + PHYSTOP -> ainv kend s sp l -> 0 <= newsz -> 0 <= oldsz <= KERNBASE ->
  (tabs sp !! (npages newsz / 1024) = None -> npages newsz mod 1024 = 0) ->
  wp (deallocuvm kend (dir sp + KERNBASE) oldsz newsz) (fun r s' =>
    if oldsz <=? newsz then r = oldsz /\ s' = s
    else r = newsz /\ exists sp' freed, ainv kend s' sp' (freed ++ l) /\ dir sp' = dir sp /\
      (forall f, f ∈ freed <-> exists q, npages newsz <= q < npages oldsz /\ present sp q = true /\ upage sp q = f) /\
      (forall q, npages newsz <= q < npages oldsz -> present sp' q = false) /\
      (forall va, 0 <= va < KERNBASE -> ~ PGROUNDUP newsz <= va < PGROUNDUP oldsz ->
         ubyte (mem s') sp' va = ubyte (mem s) sp va)) s.
Proof.
  intros Hend A Hnew Hold Ht. unfold deallocuvm. destruct (Z.leb_spec oldsz newsz); [by apply wp_ret|].
  destruct (npages_spec oldsz) as (E1 & B1 & C1); [lia|]. destruct (npages_spec newsz) as (E2 & B2 & C2); [lia|]. rewrite E2, E1.
  apply wp_bind. eapply wp_mono.
  - apply (deallocuvm_loop_wp kend Hend _ s sp l oldsz (npages newsz) (npages oldsz)); [done|lia|lia|done|unfold PGSIZE in *; lia| |done].
    unfold PGSIZE in *. dlia.
  - intros [] s' (sp' & l' & [I D T (fr & -> & F) G R O _]). apply wp_ret. split; [done|]. by exists sp', fr.
Qed.

(** C34: [copyout] writes the buffer to user memory page by page: it returns 0 when
    all of it is written; it returns -1 when it meets a page the user cannot
    access, and then exactly the bytes before that page are written.  No other byte
    of the process changes. *)
Theorem copyout_writes kend s sp l va buf len :
  KERNLINK <= kend < KERNBASE + PHYSTOP -> ainv kend s sp l -> 0 <= va -> 0 <= len -> va + len <= KERNBASE ->
  Z.of_nat (length buf) = len ->
  (forall x, va <= x < va + len -> is_Some (tabs sp !! (x / PGSIZE / 1024))) ->
  wp (copyout (dir sp + KERNBASE) va buf len) (fun r s' => ainv kend s' sp l /\ exists n, 0 <= n <= len /\
    (forall x, 0 <= x < KERNBASE -> ubyte (mem s') sp x =
       if (va <=? x) && (x <? va + n) then buf !! Z.to_nat (x - va) else ubyte (mem s) sp x) /\
    ((r = 0 /\ n = len) \/ (r = -1 /\ n < len /\ ubyte (mem s) sp (va + n) = None))) s.
Proof.
  intros Hend A Hva Hlen Hmax Hb Ht. eapply wp_mono; [apply (copyout_loop_wp kend Hend); done || lia|].
  intros r s' (A' & _ & H). by split.
Qed.

(** C11: with enough free memory, [copyuvm] of a process whose pages are all mapped
    returns a new directory with the kernel's mappings; the child reads the same
    bytes as the parent below the size and faults above, the parent's memory is
    unchanged, both address spaces are well-formed and they share no page. *)
Theorem copyuvm_copies kend kdata s sp l sz :
  KERNLINK <= kend < KERNBASE + PHYSTOP -> KERNLINK < kdata < KERNBASE + PHYSTOP -> kdata mod PGSIZE = 0 ->
  ainv kend s sp l -> 0 <= sz <= KERNBASE -> (forall q, 0 <= q < npages sz -> present sp q = true) ->
  fork_cost (npages sz) <= Z.of_nat (length l) ->
  wp (copyuvm kend kdata (dir sp + KERNBASE) sz) (fun r s' => exists spc l', r = dir spc + KERNBASE /\
    ainv kend s' sp l' /\ ainv kend s' spc l' /\ (forall f, own sp f -> ~ own spc f) /\
    (forall va, 0 <= va < KERNBASE -> ubyte (mem s') sp va = ubyte (mem s) sp va /\
       ubyte (mem s') spc va = if va <? PGROUNDUP sz then ubyte (mem s) sp va else None) /\
    (forall q, UPAGES <= q -> ent spc q = kernel_ent kdata q)) s.
Proof.
  intros Hend Hdata Hda A Hsz Hp Hl. destruct (npages_spec sz) as (E & B & C); [lia|].
  eapply wp_mono; [apply (copyuvm_wp kend kdata Hend Hdata Hda s sp l sz (npages sz)); done || lia|].
  intros r s' [(spc & l' & -> & [TP TC TA TS TR TK TE _ _])|(Hlt & _)]; [|lia]. exists spc, l'. split_and!; try done. intros va Hva. split; [by apply TE|].
  rewrite E. destruct (Z.ltb_spec va (PGSIZE * npages sz)); [by rewrite TS, TE by lia|].
  unfold ubyte. rewrite TR; [done|]. unfold UPAGES, KERNBASE, PGSIZE in *. dlia.
Qed.

(** ** A process of two pages *)

Definition d_end : Z := KERNBASE + 2097152.
Definition d_data : Z := KERNBASE + 1081344.
Definition d_list (n : nat) : list Z := reverse ((fun i => 2097152 + PGSIZE * Z.of_nat i) <$> seq 0 n).
Definition d_free (n : nat) : kstate :=
  result (freerange d_end d_end (d_end + PGSIZE * Z.of_nat n)) (mkK (fun _ => 0) false 0).
(** The first page of the list as an empty directory. *)
Definition d_dir (n : nat) : Z := 2097152 + PGSIZE * Z.of_nat n.
Definition d_state (n : nat) : kstate :=
  mkK (m_fill (mem (d_free n)) (d_dir n) PGSIZE 0) (use_lock (d_free n)) (freelist (d_free n)).
Definition d_space (n : nat) : space := mkSpace (d_dir n) ∅ ∅.

Definition frameb (f : Z) : bool := (f mod PGSIZE =? 0) && (2097152 <=? f) && (f <? PHYSTOP).
Lemma frameb_spec f : frameb f = true -> frame d_end f.
Proof. unfold frameb, frame, d_end. intros [[?%Z.eqb_eq ?%Z.leb_le]%andb_prop ?%Z.ltb_lt]%andb_prop. lia. Qed.

Lemma d_end_ok : KERNLINK <= d_end < KERNBASE + PHYSTOP.
Proof. vm_compute. split; [discriminate|reflexivity]. Qed.

Lemma d_kinv n : n = 100%nat -> kinv d_end (d_free n) (d_list n).
Proof.
  intros ->. split; [vm_compute; repeat split|apply (bool_decide_unpack _); vm_compute; exact I|].
  apply Forall_forall. intros f Hf. apply frameb_spec. revert f Hf. apply Forall_forall.
  apply (bool_decide_unpack _); vm_compute; exact I.
Qed.

Lemma d_ainv n : n = 100%nat -> ainv d_end (d_state n) (d_space n) (d_list n).
Proof.
  intros Hn. assert (frame d_end (d_dir n)) by (subst; apply frameb_spec; done).
  assert (d_dir n ∉ d_list n) by (subst; apply (bool_decide_unpack _); vm_compute; exact I).
  split; [by apply empty_dir; [apply d_kinv|..]|done|done].
Qed.

Lemma allocuvm_grows_witness :
  wp (allocuvm d_end (dir (d_space 100) + KERNBASE) 0 8192)
    (fun r s' => r = 8192 /\ exists sp', ubyte (mem s') sp' 5000 = Some 0) (d_state 100).
Proof.
  eapply wp_mono; [apply (allocuvm_grows d_end (d_state 100) (d_space 100) (d_list 100) 0 8192 d_end_ok (d_ainv 100 eq_refl))|].
  - lia.
  - reflexivity.
  - done.
  - vm_compute. discriminate.
  - intros r s' (-> & sp' & l' & _ & _ & _ & Hu & _). split; [done|]. exists sp'. rewrite Hu; [done|vm_compute; split; [discriminate|done]].
Defined.

(** The state after [allocuvm] of two pages. *)
Lemma d_grown : exists s sp l, ainv d_end s sp l /\ 1 + fork_cost 2 <= Z.of_nat (length l) /\
  (forall q, 0 <= q < 2 -> present sp q = true) /\ forall va, 0 <= va < 8192 -> ubyte (mem s) sp va = Some 0.
Proof.
  pose proof (allocuvm_wp d_end d_end_ok (d_state 100) (d_space 100) (d_list 100) 0 8192 (d_ainv 100 eq_refl)
    ltac:(lia) ltac:(done) ltac:(done) ltac:(vm_compute; discriminate)) as H.
  destruct (proj1 (wp_returns _ _ _) H) as (r & s & _ & _ & sp & l & X & Hl). clear H. exists s, sp, l.
  change (npages 0) with 0 in *. change (npages 8192) with 2 in *.
  assert (Hu : forall va, 0 <= va < 8192 -> ubyte (mem s) sp va = Some 0).
  { intros va Hva. apply (x_new _ _ _ _ _ _ _ _ _ X). unfold PGSIZE. lia. }
  split_and!; [apply X| | |done].
  - assert (Z.of_nat (length (d_list 100)) = 100 /\ pages_needed (d_space 100) 0 2 = 3 /\ fork_cost 2 = 84) as (E1 & E2 & E3) by done. lia.
  - intros q Hq. specialize (Hu (PGSIZE * q) ltac:(unfold PGSIZE; lia)). unfold ubyte in Hu.
    replace (PGSIZE * q / PGSIZE) with q in Hu by (unfold PGSIZE; dlia). by destruct (present sp q).
Qed.

Lemma deallocuvm_shrinks_witness : exists s sp l, ainv d_end s sp l /\ present sp 1 = true /\
  wp (deallocuvm d_end (dir sp + KERNBASE) 8192 4096) (fun r s' => r = 4096 /\ exists sp' l', ainv d_end s' sp' l' /\ present sp' 1 = false) s.
Proof.
  destruct d_grown as (s & sp & l & A & _ & Hp & _). exists s, sp, l. split_and!; [done|apply Hp; lia|].
  eapply wp_mono; [apply (deallocuvm_shrinks d_end s sp l 8192 4096 d_end_ok A)|].
  - lia.
  - vm_compute. split; discriminate.
  - change (npages 4096) with 1. intros Hn. destruct (present_table d_end s sp l 1 A (Hp 1 ltac:(lia))). congruence.
  - intros r s' [-> (sp' & fr & A' & _ & _ & Hg & _)]. split; [done|]. exists sp', (fr ++ l). split; [done|].
    apply Hg. vm_compute. split; [discriminate|reflexivity].
Defined.

Lemma copyout_writes_witness : exists s sp, 
  wp (copyout (dir sp + KERNBASE) 4094 [1; 2; 3; 4] 4) (fun r s' => r = 0 /\ ubyte (mem s') sp 4097 = Some 4) s.
Proof.
  destruct d_grown as (s & sp & l & A & _ & Hp & Hu). exists s, sp.
  eapply wp_mono; [apply (copyout_writes d_end s sp l 4094 [1; 2; 3; 4] 4 d_end_ok A)|].
  - lia.
  - lia.
  - vm_compute. discriminate.
  - done.
  - intros x Hx. apply (present_table d_end s sp l); [done|]. apply Hp. unfold PGSIZE. dlia.
  - intros r s' (_ & n & Hn & Hc & [[-> ->]|(-> & Hlt & Hnone)]); [|rewrite Hu in Hnone by lia; discriminate].
    split; [done|]. rewrite Hc; [done|]. vm_compute. split; [discriminate|done].
Defined.

Lemma copyuvm_copies_witness : exists s sp,
  wp (copyuvm d_end d_data (dir sp + KERNBASE) 8192) (fun r s' => exists spc,
    r = dir spc + KERNBASE /\ ubyte (mem s') spc 5000 = Some 0) s.
Proof.
  destruct d_grown as (s & sp & l & A & Hl & Hp & Hu). exists s, sp.
  eapply wp_mono; [apply (copyuvm_copies d_end d_data s sp l 8192 d_end_ok)|].
  - vm_compute. split; reflexivity.
  - reflexivity.
  - exact A.
  - vm_compute. split; discriminate.
  - exact Hp.
  - change (npages 8192) with 2. lia.
  - intros r s' (spc & l' & -> & _ & _ & _ & Hb & _). exists spc. split; [done|].
    destruct (Hb 5000) as [_ ->]; [vm_compute; split; [discriminate|done]|]. apply Hu. lia.
Defined.

(** ** Running out of memory *)

(** One free page and an empty directory. *)
Definition low_memory : kstate :=
  let s := result (freerange d_end d_end (d_end + 2 * PGSIZE)) (mkK (fun _ => 0) false 0) in
  let s := result kalloc s in
  mkK (m_fill (mem s) 2101248 PGSIZE 0) (use_lock s) (freelist s).

(** [allocuvm] ignores the result of [mappages]: with one page left it takes it,
    cannot map it for want of a page table, and still reports success; the page
    is neither mapped nor free. *)
Lemma allocuvm_ignores_mappages :
  wp (allocuvm d_end (2101248 + KERNBASE) 0 4096)
    (fun r s' => r = 4096 /\ freelist s' = 0 /\ load32 (mem s') 2101248 = 0) low_memory.
Proof. vm_compute. split_and!; reflexivity. Qed.

(** [setupkvm] does not free the directory when it cannot map the kernel. *)
Lemma setupkvm_leaks :
  freelist low_memory <> 0 /\ wp (setupkvm d_data) (fun r s' => r = 0 /\ freelist s' = 0) low_memory.
Proof. split; [vm_compute; discriminate|]. vm_compute. split; reflexivity. Qed.

(** [uva2ka] uses the result of [walkpgdir] without testing it. *)
Lemma uva2ka_null : uva2ka (2101248 + KERNBASE) 0 low_memory = Panic "null pte".
Proof. vm_compute. reflexivity. Qed.

(** A page mapped at 4 MB with no page table below it: [deallocuvm] from address
    4096 on steps over a whole table from the middle of it and misses the page. *)
Definition sparse : kstate :=
  let s := result (freerange d_end d_end (d_end + 3 * PGSIZE)) (mkK (fun _ => 0) false 0) in
  let s := result kalloc s in
  let s := mkK (m_fill (mem s) 2105344 PGSIZE 0) (use_lock s) (freelist s) in
  result (mappages (2105344 + KERNBASE) 4194304 PGSIZE (2097152 + 100 * PGSIZE) 6) s.

Lemma deallocuvm_skips :
  wp (let* r := deallocuvm d_end (2105344 + KERNBASE) 4198400 4096 in
      let* ka := uva2ka (2105344 + KERNBASE) 4194304 in ret (r, ka))
    (fun x _ => x = (4096, 2097152 + 100 * PGSIZE + KERNBASE)) sparse.
Proof. vm_compute. reflexivity. Qed.
End VmSpec.
