(* ===== verification/Syscall.v ===== *)
(** * syscall.c, sysproc.c, trap.c: entering the kernel

    [Module Syscall] translates the fetching of system call arguments, the
    dispatch table, the system calls on processes and [trap].  User memory is the
    bytes the process sees at its virtual addresses ([um]), [psz] its size.  A
    fetch function that returns -1 is [None].

    A system call ends with [Some r] when it returns [r] and with [None] when the
    process has been switched away: it exited or went to sleep.  The interrupt
    handlers of the devices and the messages to the console are not part of this
    state; the handlers are operations of the environment.

    [syscall_args_bounds]: an accepted buffer or string lies inside the process.
    [trap_returns_unkilled]: a killed process does not get back to user space, also when it
    is killed while it waits for the processor. *)

From S2P Require Import Prelude CString Spinlock Kalloc Proc ProcSys.

Module Syscall.
Import Proc.

(** ** Arguments *)

Section Args.
Context (psz : Z) (um : Z -> Z) (esp : Z).

Definition fetchint (addr : Z) : option Z :=
  if (psz <=? addr) || (psz <? u32 (addr + 4)) then None else Some (s32 (Kalloc.load32 um addr)).

(** The loop of [fetchstr] from [s] to the end of the process. *)
Fixpoint fetchstr_loop (fuel : nat) (s pp : Z) : option Z :=
  match fuel with
  | O => None
  | S fuel' => if s <? psz then if um s =? 0 then Some (s - pp) else fetchstr_loop fuel' (s + 1) pp else None
  end.
(** The length of the string; [*pp] is [addr]. *)
Definition fetchstr (addr : Z) : option Z :=
  if psz <=? addr then None else fetchstr_loop (Z.to_nat (psz - addr)) addr addr.

Definition argint (n : Z) : option Z := fetchint (u32 (esp + 4 + 4 * n)).

Definition argptr (n size : Z) : option Z :=
  match argint n with
  | None => None
  | Some i =>
      let i := u32 i in
      if (psz <=? i) || (psz <? u32 (i + size)) then None else Some i
  end.

(** The address and the length of the string. *)
Definition argstr (n : Z) : option (Z * Z) :=
  match argint n with
  | None => None
  | Some addr => (fun len => (u32 addr, len)) <$> fetchstr (u32 addr)
  end.
End Args.

(** ** The dispatch table *)

Inductive sysname :=
  | sys_fork | sys_exit | sys_wait | sys_pipe | sys_read | sys_kill | sys_exec | sys_fstat | sys_chdir
  | sys_dup | sys_getpid | sys_sbrk | sys_sleep | sys_uptime | sys_open | sys_write | sys_mknod
  | sys_unlink | sys_link | sys_mkdir | sys_close | sys_random | sys_random_set | sys_change_seed
  | sys_actual_seed.

(** Indexed by the numbers of syscall.h; index 0 is empty. *)
Definition syscalls : list (option sysname) :=
  [ None; Some sys_fork; Some sys_exit; Some sys_wait; Some sys_pipe; Some sys_read; Some sys_kill;
    Some sys_exec; Some sys_fstat; Some sys_chdir; Some sys_dup; Some sys_getpid; Some sys_sbrk;
    Some sys_sleep; Some sys_uptime; Some sys_open; Some sys_write; Some sys_mknod; Some sys_unlink;
    Some sys_link; Some sys_mkdir; Some sys_close; Some sys_random; Some sys_random_set;
    Some sys_change_seed; Some sys_actual_seed ].

Section Calls.
Context {E : Type} {KE : KernelEnv E}.
Context (forkret trapret : Z) (self : nat) (x : cpu).

Definition syscall (handler : sysname -> M (ktable E) (option Z)) : M (ktable E) (option unit) :=
  let* p := getproc self in
  let num := s32 (tf_eax (tf p)) in
  let return_value v := upd self (fun p => set_tf (set_eax v (tf p)) p) ;;; ret (Some tt) in
  match (if (0 <? num) && (num <? Z.of_nat (length syscalls)) then mjoin (syscalls !! Z.to_nat num) else None) with
  | Some name =>
      let* r := handler name in
      match r with
      | Some v => return_value (u32 v)
      | None => ret None
      end
  | None => return_value (u32 (-1))
  end.

(** ** sysproc.c *)

(** The arguments of the current process; [um] is its memory. *)
Definition arg (um : Z -> Z) (n : Z) : M (ktable E) (option Z) :=
  let* p := getproc self in
  ret (argint (sz p) um (tf_esp (tf p)) n).

Definition do_fork : M (ktable E) (option Z) :=
  let* r := fork forkret trapret self in
  ret (Some r).

Definition do_exit : M (ktable E) (option Z) :=
  exit self x ;;;
  ret None.

Definition do_wait : M (ktable E) (option Z) := wait self x.

Definition do_kill (um : Z -> Z) : M (ktable E) (option Z) :=
  let* pd := arg um 0 in
  match pd with
  | None => ret (Some (-1))
  | Some pd => let* r := kill pd in ret (Some r)
  end.

Definition do_getpid : M (ktable E) (option Z) :=
  let* p := getproc self in
  ret (Some (pid p)).

Definition do_sbrk (um : Z -> Z) : M (ktable E) (option Z) :=
  let* n := arg um 0 in
  match n with
  | None => ret (Some (-1))
  | Some n =>
      let* p := getproc self in
      let* r := growproc self n in
      if r <? 0 then ret (Some (-1)) else ret (Some (s32 (sz p)))
  end.

(** A section of [sys_sleep] under [tickslock]: the loop test with [ticks0] fixed by
    the first section.  The difference is unsigned, and so is the comparison. *)
Definition do_sleep (ticks ticks0 n : Z) (wasKilled : bool) : option Z :=
  if u32 (ticks - ticks0) <? u32 n then if wasKilled then Some (-1) else None else Some 0.

Definition do_uptime (ticks : Z) : Z := s32 ticks.

(** ** trap.c *)

Definition T_SYSCALL : Z := 64.
Definition T_IRQ0 : Z := 32.
Definition IRQ_TIMER : Z := 0.
Definition IRQ_KBD : Z := 1.
Definition IRQ_COM1 : Z := 4.
Definition IRQ_IDE : Z := 14.
Definition IRQ_SPURIOUS : Z := 31.

(** How [trap] ends: it returns to the interrupted code, or the process has been
    switched away for good, in [exit] or in a system call that does not come back. *)
Inductive trapres := TReturn | TGone.

Section Trap.
(** The handlers of the device interrupts, and the end of interrupt. *)
Context (ideintr kbdintr uartintr lapiceoi : M E unit) (ticks_chan : chan).
(** Whether this is CPU 0, and the update of [ticks]. *)
Context (cpu0 : bool) (tick : M E unit).

(** The [switch] of [trap] over the interrupts; [other] is its default case. *)
Definition interrupt (t : trapframe) (other : M (ktable E) unit) : M (ktable E) unit :=
  if tf_trapno t =? T_IRQ0 + IRQ_TIMER then
    (if cpu0 then call tick ;;; wakeup ticks_chan else ret tt) ;;;
    call lapiceoi
  else if tf_trapno t =? T_IRQ0 + IRQ_IDE then call ideintr ;;; call lapiceoi
  else if tf_trapno t =? T_IRQ0 + IRQ_IDE + 1 then ret tt
  else if tf_trapno t =? T_IRQ0 + IRQ_KBD then call kbdintr ;;; call lapiceoi
  else if tf_trapno t =? T_IRQ0 + IRQ_COM1 then call uartintr ;;; call lapiceoi
  else if (tf_trapno t =? T_IRQ0 + 7) || (tf_trapno t =? T_IRQ0 + IRQ_SPURIOUS) then call lapiceoi
  else other.

(** [trap] on a processor that runs no process; [proc->killed] is then a read through the
    null pointer. *)
Definition trap_idle (t : trapframe) : M (ktable E) trapres :=
  if tf_trapno t =? T_SYSCALL then panic "null process"
  else interrupt t (panic "trap") ;;; ret TReturn.

Definition leave : M (ktable E) trapres := exit self x ;;; ret TGone.

(** The end of [trap]: a killed process exits on its way to user space. *)
Definition check_killed (t : trapframe) (k : M (ktable E) trapres) : M (ktable E) trapres :=
  let* p := getproc self in
  if killed p && (Z.land (tf_cs t) 3 =? DPL_USER) then leave else k.

(** [trap] with a current process.  [away] is what the other processes and processors do
    while the process is switched away in [yield], until [yield] returns.  In the same
    way [handler] includes what happens while a system call sleeps. *)
Definition trap (away : M (ktable E) unit) (handler : sysname -> M (ktable E) (option Z)) (t : trapframe) : M (ktable E) trapres :=
  if tf_trapno t =? T_SYSCALL then
    let* p := getproc self in
    if killed p then leave
    else
      upd self (set_tf t) ;;;
      let* r := syscall handler in
      match r with
      | None => ret TGone
      | Some _ =>
          let* p := getproc self in
          if killed p then leave else ret TReturn
      end
  else
    interrupt t (if Z.land (tf_cs t) 3 =? 0 then panic "trap" else upd self (set_killed true)) ;;;
    check_killed t
      (let* p := getproc self in
       (if decide (state p = RUNNING) then
          if tf_trapno t =? T_IRQ0 + IRQ_TIMER then yield self x ;;; away else ret tt
        else ret tt) ;;;
       check_killed t (ret TReturn)).
End Trap.
End Calls.

(** ** Accepted arguments lie inside the process *)

Lemma fetchstr_loop_spec psz um fuel s pp : psz - s <= Z.of_nat fuel ->
  match fetchstr_loop psz um fuel s pp with
  | Some len => s <= pp + len < psz /\ um (pp + len) = 0 /\ forall i, s <= i < pp + len -> um i <> 0
  | None => forall i, s <= i < psz -> um i <> 0
  end.
Proof.
  revert s. induction fuel as [|fuel IH]; intros s Hf; simpl; [intros i Hi; lia|].
  destruct (Z.ltb_spec s psz); [|intros i Hi; lia]. destruct (Z.eqb_spec (um s) 0) as [E|E].
  - replace (pp + (s - pp)) with s by lia. split_and!; [lia|lia|done|]. intros i Hi. lia.
  - specialize (IH (s + 1) ltac:(lia)). destruct (fetchstr_loop psz um fuel (s + 1) pp) as [len|].
    + destruct IH as (Hr & H0 & Hn). split_and!; [lia|lia|done|]. intros i Hi. destruct (decide (i = s)) as [->|]; [done|]. apply Hn. lia.
    + intros i Hi. destruct (decide (i = s)) as [->|]; [done|]. apply IH. lia.
Qed.

(** C29: what the kernel accepts from user space lies inside the process: a buffer of
    [size] bytes accepted by [argptr] ends below the size of the process, a string
    accepted by [argstr] has its NUL there, at the returned length and not before;
    [argstr] refuses a string only if its address is not in the process or no NUL
    follows it there. *)
Theorem syscall_args_bounds psz um esp n size :
  0 <= psz <= Kalloc.KERNBASE -> 0 <= size < 2147483648 ->
  match argptr psz um esp n size with
  | Some p => 0 <= p < psz /\ p + size <= psz
  | None => True
  end /\
  match argstr psz um esp n with
  | Some (a, len) => 0 <= a /\ 0 <= len /\ a + len < psz /\ um (a + len) = 0 /\ forall i, a <= i < a + len -> um i <> 0
  | None => argint psz um esp n = None \/ exists a, argint psz um esp n = Some a /\
      forall i, u32 a <= i < psz -> um i <> 0
  end.
Proof.
  intros Hp Hs. unfold argptr, argstr. destruct (argint psz um esp n) as [a|] eqn:Ea; [|by split; [|left]].
  pose proof (u32_range a) as Ha. unfold is_u32 in Ha. split.
  - destruct (Z.leb_spec psz (u32 a)); [done|]. simpl. destruct (Z.ltb_spec psz (u32 (u32 a + size))) as [|Hle]; [done|].
    rewrite (u32_small (u32 a + size)) in Hle by (unfold is_u32, Kalloc.KERNBASE in *; lia). lia.
  - unfold fetchstr. destruct (Z.leb_spec psz (u32 a)) as [Hge|Hlt]; simpl.
    + right. exists a. split; [done|]. intros i Hi. lia.
    + pose proof (fetchstr_loop_spec psz um (Z.to_nat (psz - u32 a)) (u32 a) (u32 a) ltac:(lia)) as H.
      destruct (fetchstr_loop _ _ _ _ _) as [len|]; simpl; [|right; by exists a].
      destruct H as (Hr & H0 & Hn). split_and!; [lia|lia|lia|done|done].
Qed.

(** A process of 64 bytes whose stack, at 0, holds the address 16 of a string of
    length 2. *)
Definition demo_um (a : Z) : Z := if a =? 4 then 16 else if (a =? 16) || (a =? 17) then 97 else 0.

Lemma syscall_args_bounds_witness :
  argptr 64 demo_um 0 0 48 = Some 16 /\ argptr 64 demo_um 0 0 49 = None /\ argstr 64 demo_um 0 0 = Some (16, 2) /\ 16 + 2 < 64.
Proof.
  pose proof (syscall_args_bounds 64 demo_um 0 0 48 ltac:(vm_compute; split; discriminate) ltac:(lia)) as [H1 H2].
  split_and!; [reflexivity|reflexivity|reflexivity|]. change (argstr 64 demo_um 0 0) with (Some (16, 2)) in H2. apply H2.
Defined.

(** [argptr] does not test the sign of [size]: a negative size passes. *)
Lemma argptr_negative : argptr 64 demo_um 0 0 (-1) = Some 16.
Proof. reflexivity. Qed.

(** ** Returning to user space *)

Section Killed.
Context {E : Type} {KE : KernelEnv E}.

Lemma check_killed_return self x t k (s : ktable E) :
  (forall s, wlp k (fun r s' => r = TReturn -> Z.land (tf_cs t) 3 = DPL_USER ->
     exists p, procs s' !! self = Some p /\ killed p = false) s) ->
  wlp (check_killed self x t k) (fun r s' => r = TReturn -> Z.land (tf_cs t) 3 = DPL_USER ->
     exists p, procs s' !! self = Some p /\ killed p = false) s.
Proof.
  intros Hk. unfold check_killed. apply wlp_bind, wlp_intro. intros p s1 _. destruct (_ && _); [|apply Hk].
  unfold leave. apply wlp_bind, wlp_intro. intros b s2 _. by apply wlp_ret.
Qed.

Lemma bind_Ret {St A B} (m : M St A) (k : A -> M St B) s a s' : m s = Ret a s' -> bind m k s = k a s'.
Proof. intros H. unfold bind. by rewrite H. Qed.

Lemma getproc_eq self p (s : ktable E) : procs s !! self = Some p -> getproc self s = Ret p s.
Proof. intros H. unfold getproc. by rewrite H. Qed.

Lemma last_check self x t (s : ktable E) : wlp (check_killed self x t (ret TReturn)) (fun r s' => r = TReturn ->
  Z.land (tf_cs t) 3 = DPL_USER -> exists p, procs s' !! self = Some p /\ killed p = false) s.
Proof.
  unfold check_killed. apply wlp_bind, wlp_intro. intros p s1 H. unfold getproc in H.
  destruct (procs s !! self) as [q|] eqn:Eq; [|done]. injection H as <- <-. destruct (killed q) eqn:Ek.
  - destruct (Z.eqb_spec (Z.land (tf_cs t) 3) DPL_USER); simpl; [|by apply wlp_ret].
    unfold leave. apply wlp_bind, wlp_intro. intros b s2 _. by apply wlp_ret.
  - simpl. apply wlp_ret. intros _ _. by exists q.
Qed.
End Killed.

(** A clock tick on the first processor wakes the processes that sleep on [ticks], also when
    no process runs there. *)
Lemma trap_idle_tick {E} `{!KernelEnv E} ideintr kbdintr uartintr eoi tc tick t (s : ktable E) :
  tf_trapno t = T_IRQ0 + IRQ_TIMER -> wp tick (fun _ e => wp eoi (fun _ _ => True) e) (env s) ->
  wp (trap_idle ideintr kbdintr uartintr eoi tc true tick t) (fun r s' => r = TReturn /\ procs s' = (wake (Some tc) <$> procs s)) s.
Proof.
  intros Ht Hw. unfold trap_idle, interrupt. rewrite Ht. change (T_IRQ0 + IRQ_TIMER =? T_SYSCALL) with false. rewrite Z.eqb_refl. cbn iota.
  do 3 apply wp_bind. apply wp_zoom. eapply wp_mono; [exact Hw|]. intros [] e He. apply wp_modify. apply wp_zoom. eapply wp_mono; [exact He|].
  intros [] e' _. by apply wp_ret.
Qed.

(** C32: a killed process does not get back to user space.  Whatever the interrupt or
    system call, and whatever the others do while the process is switched away in [yield] or
    in a system call: when [trap] returns to code running at user privilege, the process is
    not marked killed.  In particular, after a clock tick at which the process gives up the
    processor, [trap] calls [exit] if the process has been marked when [yield] returns, and
    returns if it has not. *)
Theorem trap_returns_unkilled {E} `{!KernelEnv E} self x ideintr kbdintr uartintr eoi tc cpu0 tick away handler t
    (s : ktable E) : Z.land (tf_cs t) 3 = DPL_USER ->
  (forall s', trap self x ideintr kbdintr uartintr eoi tc cpu0 tick away handler t s = Ret TReturn s' ->
     exists p, procs s' !! self = Some p /\ killed p = false) /\
  (forall s1 s2 s3 p1 p3 b, tf_trapno t = T_IRQ0 + IRQ_TIMER ->
     interrupt ideintr kbdintr uartintr eoi tc cpu0 tick t (panic "trap") s = Ret tt s1 ->
     procs s1 !! self = Some p1 -> killed p1 = false -> state p1 = RUNNING ->
     yield self x s1 = Ret b s2 -> away s2 = Ret tt s3 -> procs s3 !! self = Some p3 ->
     trap self x ideintr kbdintr uartintr eoi tc cpu0 tick away handler t s =
       if killed p3 then (exit self x ;;; ret TGone) s3 else Ret TReturn s3).
Proof.
  intros Hu. split.
  - intros s' H. cut (wlp (trap self x ideintr kbdintr uartintr eoi tc cpu0 tick away handler t) (fun r s' => r = TReturn ->
      Z.land (tf_cs t) 3 = DPL_USER -> exists p, procs s' !! self = Some p /\ killed p = false) s).
    { intros Hw. by apply (wlp_elim _ _ _ _ _ Hw H). }
    clear H s'. unfold trap. destruct (_ =? T_SYSCALL).
    + apply wlp_bind, wlp_intro. intros p s1 _. destruct (killed p).
      { unfold leave. apply wlp_bind, wlp_intro. intros b s2 _. by apply wlp_ret. }
      apply wlp_bind, wlp_intro. intros [] s2 _. apply wlp_bind, wlp_intro. intros [[]|] s3 _; [|by apply wlp_ret].
      apply wlp_bind, wlp_intro. intros q s4 H. unfold getproc in H. destruct (procs s3 !! self) as [q'|] eqn:Eq; [|done].
      injection H as <- <-. destruct (killed q') eqn:Ek; [|by apply wlp_ret; exists q'].
      unfold leave. apply wlp_bind, wlp_intro. intros b s5 _. by apply wlp_ret.
    + apply wlp_bind, wlp_intro. intros [] s1 _. apply check_killed_return. intros s2.
      apply wlp_bind, wlp_intro. intros p s3 _. apply wlp_bind, wlp_intro. intros [] s4 _. apply last_check.
  - intros s1 s2 s3 p1 p3 b Ht Hi Hp1 Hk1 Hr Hy Ha Hp3. unfold interrupt in Hi. unfold trap, interrupt. rewrite Ht in *.
    change (T_IRQ0 + IRQ_TIMER =? T_SYSCALL) with false. rewrite Z.eqb_refl in *. cbn iota in *. rewrite (bind_Ret _ _ _ _ _ Hi).
    unfold check_killed at 1. rewrite (bind_Ret _ _ _ _ _ (getproc_eq _ _ _ Hp1)), Hk1. cbn [andb].
    rewrite (bind_Ret _ _ _ _ _ (getproc_eq _ _ _ Hp1)), decide_True by done.
    assert (Hya : (yield self x ;;; away) s1 = Ret tt s3) by (by rewrite (bind_Ret _ _ _ _ _ Hy)). rewrite (bind_Ret _ _ _ _ _ Hya).
    unfold check_killed. rewrite (bind_Ret _ _ _ _ _ (getproc_eq _ _ _ Hp3)), Hu, Z.eqb_refl, andb_true_r. unfold leave. by destruct (killed p3).
Qed.

(** A running process that asks for its pid, and what it gets; and one that another process
    kills while it waits for the processor after a clock tick. *)
Definition getpid_tf : trapframe := mkTf 0 0 0 0 0 0 0 11 0 0 0 0 T_SYSCALL 0 0 35 512 4096 0.
Definition tick_tf : trapframe := mkTf 0 0 0 0 0 0 0 11 0 0 0 0 (T_IRQ0 + IRQ_TIMER) 0 0 35 512 4096 0.
Definition one_running : ktable Z := mkTable [set_pid 7 (set_state RUNNING zero_proc)] 8 None 0.
Definition getpid_handler (n : sysname) : M (ktable Z) (option Z) :=
  match n with sys_getpid => do_getpid 0 | _ => ret (Some (-1)) end.
Definition demo_trap (away : M (ktable Z) unit) (t : trapframe) : M (ktable Z) trapres :=
  @trap Z ProcSys.toy_env 0 (mkCpu 0 true true) (ret tt) (ret tt) (ret tt) (ret tt) (ChAddr 1) true (ret tt) away getpid_handler t.
(** The others kill process 7; then the scheduler picks it again. *)
Definition killed_away : M (ktable Z) unit := kill 7 ;;; upd 0 (set_state RUNNING).
Definition ticked : ktable Z := mkTable [set_pid 7 (set_state RUNNABLE zero_proc)] 8 None 0.
Definition back : ktable Z := mkTable [set_killed true (set_pid 7 (set_state RUNNING zero_proc))] 8 None 0.

Lemma trap_returns_unkilled_witness :
  (exists s' p, demo_trap (ret tt) getpid_tf one_running = Ret TReturn s' /\ procs s' !! 0%nat = Some p /\ killed p = false /\ tf_eax (tf p) = 7) /\
  exists s' p, demo_trap killed_away tick_tf one_running = Ret TGone s' /\ procs s' !! 0%nat = Some p /\ state p = ZOMBIE.
Proof.
  split.
  - assert (H : exists p, procs (result (demo_trap (ret tt) getpid_tf) one_running) !! 0%nat = Some p /\ killed p = false).
    { apply (proj1 (@trap_returns_unkilled Z ProcSys.toy_env 0 (mkCpu 0 true true) (ret tt) (ret tt) (ret tt) (ret tt) (ChAddr 1) true (ret tt)
        (ret tt) getpid_handler getpid_tf one_running eq_refl)). reflexivity. }
    destruct H as (p & Hp & Hk). eexists _, p. split; [reflexivity|]. split; [exact Hp|]. split; [exact Hk|].
    vm_compute in Hp. injection Hp as <-. reflexivity.
  - pose proof (proj2 (@trap_returns_unkilled Z ProcSys.toy_env 0 (mkCpu 0 true true) (ret tt) (ret tt) (ret tt) (ret tt) (ChAddr 1) true (ret tt)
      killed_away getpid_handler tick_tf one_running eq_refl) one_running ticked back
      (set_pid 7 (set_state RUNNING zero_proc)) (set_killed true (set_pid 7 (set_state RUNNING zero_proc))) true) as H.
    exists (result (@exit Z ProcSys.toy_env 0 (mkCpu 0 true true)) back), (set_state ZOMBIE (set_killed true (set_pid 7 zero_proc))).
    split; [refine (eq_trans (H _ _ _ _ _ _ _ _) _)|]; vm_compute; try reflexivity. split; reflexivity.
Defined.
End Syscall.
