(* ===== verification/Sysfile.v ===== *)
(** * file.c, sysfile.c and pipealloc: open files and the system calls on them

    [Module Sysfile] puts the file system ([Fs]), the pipes ([Pipe]) and the page
    allocator ([Kalloc]) together under the table of open files and the
    descriptors of the current process.  The block layer is the interface
    [Blocks.TxLayer] with [begin_trans] and [commit_trans]; the device switch is a
    parameter, as in [Fs].  User memory is the bytes at the virtual addresses of the
    process.

    One process runs a system call from its beginning to its end; where the code
    would sleep (a locked inode, an empty or full pipe, another transaction) the
    outcome is [Blocked].  Wakeups of other processes leave no trace in this state.
    [exec] (Exec) is a parameter of [sys_exec]. *)

From S2P Require Import Prelude CString Spinlock Bio Log Blocks Fs Pipe Kalloc Syscall.

Module Sysfile.
Import Blocks Fs.

Definition NFILE : nat := 100.
Definition NOFILE : Z := 16.
Definition MAXARG : Z := 32.
Definition O_RDONLY : Z := 0.
Definition O_WRONLY : Z := 1.
Definition O_RDWR : Z := 2.
Definition O_CREATE : Z := 512.

(** [struct file]; [f_pipe] is the address of the pipe. *)
Inductive ftype := FD_NONE | FD_PIPE | FD_INODE.
#[export] Instance ftype_eq_dec : EqDecision ftype.
Proof. solve_decision. Defined.

Record file := mkFile {
  f_type : ftype;
  f_ref : Z;
  f_readable : bool;
  f_writable : bool;
  f_pipe : Z;
  f_ip : nat;
  f_off : Z
}.
Definition zero_file : file := mkFile FD_NONE 0 false false 0 0 0.

Definition set_fref (r : Z) (f : file) : file :=
  mkFile (f_type f) r (f_readable f) (f_writable f) (f_pipe f) (f_ip f) (f_off f).
Definition set_ftype (t : ftype) (f : file) : file :=
  mkFile t (f_ref f) (f_readable f) (f_writable f) (f_pipe f) (f_ip f) (f_off f).
Definition set_off (o : Z) (f : file) : file :=
  mkFile (f_type f) (f_ref f) (f_readable f) (f_writable f) (f_pipe f) (f_ip f) o.

(** The part of [struct proc] that the system calls use, and user memory. *)
Record task := mkTask {
  t_ofile : list (option nat);
  t_cwd : nat;
  t_sz : Z;
  t_esp : Z;
  t_killed : bool;
  t_mem : Z -> Z
}.

Section Ops.
Context {D : Type} {TL : TxLayer D} (begin_trans commit_trans : M D unit) (kend : Z).
Context (devsw_read : Z -> option (nat -> Z -> M (fstate D) (Z * list Z))).
Context (devsw_write : Z -> option (nat -> list Z -> Z -> M (fstate D) Z)).

Record kern := mkKern {
  k_fs : fstate D;
  ftable : list file;
  pipes : gmap Z Pipe.pipe;
  k_mem : Kalloc.kstate;
  cur : task
}.

Definition onfs {A} (m : M (fstate D) A) : M kern A :=
  zoom k_fs (fun s k => mkKern s (ftable k) (pipes k) (k_mem k) (cur k)) m.
Definition onmem {A} (m : M Kalloc.kstate A) : M kern A :=
  zoom k_mem (fun s k => mkKern (k_fs k) (ftable k) (pipes k) s (cur k)) m.
Definition getf (f : nat) : M kern file := gets (fun k => default zero_file (ftable k !! f)).
Definition updf (f : nat) (g : file -> file) : M kern unit :=
  modify (fun k => mkKern (k_fs k) (alter g f (ftable k)) (pipes k) (k_mem k) (cur k)).
Definition updt (g : task -> task) : M kern unit :=
  modify (fun k => mkKern (k_fs k) (ftable k) (pipes k) (k_mem k) (g (cur k))).
Definition set_pipes (g : gmap Z Pipe.pipe -> gmap Z Pipe.pipe) : M kern unit :=
  modify (fun k => mkKern (k_fs k) (ftable k) (g (pipes k)) (k_mem k) (cur k)).
Definition getpipe (a : Z) : M kern Pipe.pipe := gets (fun k => default (Pipe.pipe_init []) (pipes k !! a)).
Definition begin_op : M kern unit := onfs (blk begin_trans).
Definition commit_op : M kern unit := onfs (blk commit_trans).

(** ** file.c *)

(** [fileinit]; the lock is the argument. *)
Definition fileinit (ftable_lock : nat) : M Spin.machine unit := modify (Spin.set_lock ftable_lock Spin.initlock).

Definition filealloc : M kern (option nat) :=
  let* l := gets ftable in
  match list_find (fun f => f_ref f = 0) l with
  | Some (f, _) => updf f (set_fref 1) ;;; ret (Some f)
  | None => ret None
  end.

Definition filedup (f : nat) : M kern nat :=
  let* x := getf f in
  if f_ref x <? 1 then panic "filedup"
  else updf f (set_fref (f_ref x + 1)) ;;; ret f.

(** [pipeclose] of pipe.c on the pipe at [a]. *)
Definition pipeclose (a : Z) (writable : bool) : M kern unit :=
  let* p := getpipe a in
  match snd (Pipe.pipeclose writable p) with
  | Pipe.Keep p' => set_pipes (insert a p')
  | Pipe.Kfree => set_pipes (delete a) ;;; onmem (Kalloc.kfree kend a)
  end.

Definition fileclose (f : nat) : M kern unit :=
  let* x := getf f in
  if f_ref x <? 1 then panic "fileclose"
  else
    updf f (set_fref (f_ref x - 1)) ;;;
    if 0 <? f_ref x - 1 then ret tt
    else
      let* ff := getf f in
      updf f (fun x => set_ftype FD_NONE (set_fref 0 x)) ;;;
      match f_type ff with
      | FD_PIPE => pipeclose (f_pipe ff) (f_writable ff)
      | FD_INODE => begin_op ;;; onfs (iput (f_ip ff)) ;;; commit_op
      | FD_NONE => ret tt
      end.

Definition filestat (f : nat) : M kern (option stat) :=
  let* x := getf f in
  match f_type x with
  | FD_INODE =>
      onfs (ilock (Some (f_ip x))) ;;;
      let* st := onfs (stati (f_ip x)) in
      onfs (iunlock (Some (f_ip x))) ;;;
      ret (Some st)
  | _ => ret None
  end.

(** The result and the bytes left at [addr]. *)
Definition fileread (f : nat) (n : Z) : M kern (Z * list Z) :=
  let* x := getf f in
  if negb (f_readable x) then ret (-1, [])
  else
    match f_type x with
    | FD_PIPE =>
        let* p := getpipe (f_pipe x) in
        let* t := gets cur in
        match Pipe.piperead (t_killed t) n p with
        | (p', _, Pipe.RDone r l) => set_pipes (insert (f_pipe x) p') ;;; ret (r, l)
        | (_, _, Pipe.RSleep) => block
        end
    | FD_INODE =>
        onfs (ilock (Some (f_ip x))) ;;;
        let* r := onfs (readi devsw_read (f_ip x) (f_off x) (u32 n)) in
        (if 0 <? fst r then updf f (fun x => set_off (u32 (f_off x + fst r)) x) else ret tt) ;;;
        onfs (iunlock (Some (f_ip x))) ;;;
        ret r
    | FD_NONE => panic "fileread"
    end.

(** [((LOGSIZE-1-1-2) / 2) * 512] *)
Definition max_write : Z := (10 - 1 - 1 - 2) / 2 * 512.

(** The loop of [filewrite]: the final value of [i].  Every round that goes on has
    written at least one byte. *)
Fixpoint filewrite_loop (fuel : nat) (f : nat) (addr : list Z) (n i : Z) : M kern Z :=
  match fuel with
  | O => ret i
  | S fuel' =>
      if i <? n then
        let n1 := Z.min (n - i) max_write in
        begin_op ;;;
        let* x := getf f in
        onfs (ilock (Some (f_ip x))) ;;;
        let* r := onfs (writei devsw_write (f_ip x) (drop (Z.to_nat i) addr) (f_off x) n1) in
        (if 0 <? r then updf f (fun x => set_off (u32 (f_off x + r)) x) else ret tt) ;;;
        onfs (iunlock (Some (f_ip x))) ;;;
        commit_op ;;;
        if r <? 0 then ret i
        else if negb (r =? n1) then panic "short filewrite"
        else filewrite_loop fuel' f addr n (i + r)
      else ret i
  end.

Definition filewrite (f : nat) (addr : list Z) (n : Z) : M kern Z :=
  let* x := getf f in
  if negb (f_writable x) then ret (-1)
  else
    match f_type x with
    | FD_PIPE =>
        let* p := getpipe (f_pipe x) in
        let* t := gets cur in
        match Pipe.pipewrite (t_killed t) n (take (Z.to_nat n) addr) p with
        | (p', _, Pipe.WDone r) => set_pipes (insert (f_pipe x) p') ;;; ret r
        | (_, _, Pipe.WSleep _) => block
        end
    | FD_INODE =>
        let* i := filewrite_loop (S (Z.to_nat n)) f addr n 0 in
        ret (if i =? n then n else -1)
    | FD_NONE => panic "filewrite"
    end.

(** [pipealloc]: the read and the write end. *)
Definition close_end (f : option nat) : M kern unit :=
  match f with Some f => fileclose f | None => ret tt end.
Definition pipealloc : M kern (option (nat * nat)) :=
  let* f0 := filealloc in
  let* f1 := (match f0 with Some _ => filealloc | None => ret None end) in
  match f0, f1 with
  | Some f0, Some f1 =>
      let* p := onmem Kalloc.kalloc in
      if p =? 0 then fileclose f0 ;;; fileclose f1 ;;; ret None
      else
        let* junk := gets (fun k => (fun i => Kalloc.mem (k_mem k) (Kalloc.v2p p + Z.of_nat i)) <$> seq 0 512) in
        set_pipes (insert p (Pipe.pipe_init junk)) ;;;
        updf f0 (fun x => mkFile FD_PIPE (f_ref x) true false p (f_ip x) (f_off x)) ;;;
        updf f1 (fun x => mkFile FD_PIPE (f_ref x) false true p (f_ip x) (f_off x)) ;;;
        ret (Some (f0, f1))
  | _, _ => close_end f0 ;;; close_end f1 ;;; ret None
  end.

(** ** Arguments *)

Definition arg_int (n : Z) : M kern (option Z) :=
  gets (fun k => Syscall.argint (t_sz (cur k)) (t_mem (cur k)) (t_esp (cur k)) n).
Definition arg_ptr (n size : Z) : M kern (option Z) :=
  gets (fun k => Syscall.argptr (t_sz (cur k)) (t_mem (cur k)) (t_esp (cur k)) n size).
(** The bytes of the string. *)
Definition user_bytes (m : Z -> Z) (a n : Z) : list Z := (fun i => m (a + Z.of_nat i)) <$> seq 0 (Z.to_nat n).
Definition arg_str (n : Z) : M kern (option (list Z)) :=
  gets (fun k =>
    (fun x => user_bytes (t_mem (cur k)) (fst x) (snd x)) <$>
      Syscall.argstr (t_sz (cur k)) (t_mem (cur k)) (t_esp (cur k)) n).
Definition put_user (a : Z) (l : list Z) : M kern unit :=
  updt (fun t => mkTask (t_ofile t) (t_cwd t) (t_sz t) (t_esp t) (t_killed t) (Kalloc.m_write (t_mem t) a l)).

Definition argfd (n : Z) : M kern (option (Z * nat)) :=
  let* fd := arg_int n in
  match fd with
  | None => ret None
  | Some fd =>
      if (fd <? 0) || (NOFILE <=? fd) then ret None
      else let* t := gets cur in
           ret ((fun f => (fd, f)) <$> mjoin (t_ofile t !! Z.to_nat fd))
  end.

Definition set_fd (fd : nat) (f : option nat) : M kern unit :=
  updt (fun t => mkTask (<[fd:=f]> (t_ofile t)) (t_cwd t) (t_sz t) (t_esp t) (t_killed t) (t_mem t)).

Definition fdalloc (f : nat) : M kern Z :=
  let* t := gets cur in
  match list_find (fun x => x = None) (t_ofile t) with
  | Some (fd, _) => set_fd fd (Some f) ;;; ret (Z.of_nat fd)
  | None => ret (-1)
  end.

(** ** sysfile.c *)

Definition sys_dup : M kern Z :=
  let* a := argfd 0 in
  match a with
  | None => ret (-1)
  | Some (_, f) =>
      let* fd := fdalloc f in
      if fd <? 0 then ret (-1) else filedup f ;;; ret fd
  end.

(** The file, [n] and the buffer of [read] and [write]. *)
Definition rw_args : M kern (option (nat * Z * Z)) :=
  let* a := argfd 0 in
  match a with
  | None => ret None
  | Some (_, f) =>
      let* n := arg_int 2 in
      match n with
      | None => ret None
      | Some n => let* p := arg_ptr 1 n in ret ((fun p => (f, n, p)) <$> p)
      end
  end.

Definition sys_read : M kern Z :=
  let* a := rw_args in
  match a with
  | None => ret (-1)
  | Some (f, n, p) => let* r := fileread f n in put_user p (snd r) ;;; ret (fst r)
  end.

Definition sys_write : M kern Z :=
  let* a := rw_args in
  match a with
  | None => ret (-1)
  | Some (f, n, p) => let* t := gets cur in filewrite f (user_bytes (t_mem t) p n) n
  end.

Definition sys_close : M kern Z :=
  let* a := argfd 0 in
  match a with
  | None => ret (-1)
  | Some (fd, f) => set_fd (Z.to_nat fd) None ;;; fileclose f ;;; ret 0
  end.

Definition sizeof_stat : Z := 20.
Definition put_stat (p : Z) (st : stat) : M kern unit :=
  put_user p (le_bytes 2 (st_type st)) ;;;
  put_user (p + 4) (le_bytes 4 (st_dev st)) ;;;
  put_user (p + 8) (le_bytes 4 (st_ino st)) ;;;
  put_user (p + 12) (le_bytes 2 (st_nlink st)) ;;;
  put_user (p + 16) (le_bytes 4 (st_size st)).

Definition sys_fstat : M kern Z :=
  let* a := argfd 0 in
  let* p := arg_ptr 1 sizeof_stat in
  match a, p with
  | Some (_, f), Some p =>
      let* st := filestat f in
      match st with
      | Some st => put_stat p st ;;; ret 0
      | None => ret (-1)
      end
  | _, _ => ret (-1)
  end.

Definition path_lookup (path : list Z) : M kern (option nat) :=
  let* t := gets cur in onfs (namei devsw_read (t_cwd t) path).
Definition parent_lookup (path : list Z) : M kern (option nat * list Z) :=
  let* t := gets cur in onfs (nameiparent devsw_read (t_cwd t) path (replicate (Z.to_nat DIRSIZ) 0)).

Definition set_nlink (n : Z) (d : dinode) : dinode :=
  mkDinode (d_type d) (d_major d) (d_minor d) n (d_size d) (d_addrs d).
Definition add_nlink (ip : nat) (k : Z) : M (fstate D) unit :=
  updi ip (fun x => set_d (set_nlink (s16 (d_nlink (i_d x) + k)) (i_d x)) x).

(** The label [bad] of [sys_link]. *)
Definition link_bad (ip : nat) : M kern Z :=
  onfs (ilock (Some ip) ;;; add_nlink ip (-1) ;;; iupdate ip ;;; iunlockput ip) ;;;
  commit_op ;;;
  ret (-1).

Definition sys_link : M kern Z :=
  let* old := arg_str 0 in
  let* new := arg_str 1 in
  match old, new with
  | Some old, Some new =>
      let* ip := path_lookup old in
      match ip with
      | None => ret (-1)
      | Some ip =>
          begin_op ;;;
          onfs (ilock (Some ip)) ;;;
          let* x := onfs (geti ip) in
          if d_type (i_d x) =? T_DIR then onfs (iunlockput ip) ;;; commit_op ;;; ret (-1)
          else
            onfs (add_nlink ip 1 ;;; iupdate ip ;;; iunlock (Some ip)) ;;;
            let* r := parent_lookup new in
            match fst r with
            | None => link_bad ip
            | Some dp =>
                onfs (ilock (Some dp)) ;;;
                let* dx := onfs (geti dp) in
                let* x := onfs (geti ip) in
                let* linked := (if negb (i_dev dx =? i_dev x) then ret (-1)
                                else onfs (dirlink devsw_read devsw_write dp (snd r) (i_inum x))) in
                if linked <? 0 then onfs (iunlockput dp) ;;; link_bad ip
                else
                  onfs (iunlockput dp ;;; iput ip) ;;;
                  commit_op ;;;
                  ret 0
            end
      end
  | _, _ => ret (-1)
  end.

(** Every round of [isdirempty] reads one entry. *)
Fixpoint isdirempty_loop (fuel : nat) (dp : nat) (off : Z) : M (fstate D) bool :=
  match fuel with
  | O => ret true
  | S fuel' =>
      let* x := geti dp in
      if off <? d_size (i_d x) then
        let* r := readi devsw_read dp off sizeof_dirent in
        if negb (fst r =? sizeof_dirent) then panic "isdirempty: readi"
        else if negb (de_inum (snd r) =? 0) then ret false
        else isdirempty_loop fuel' dp (off + sizeof_dirent)
      else ret true
  end.
Definition isdirempty (dp : nat) : M (fstate D) bool :=
  let* x := geti dp in
  isdirempty_loop (S (Z.to_nat (d_size (i_d x) / sizeof_dirent + 1))) dp (2 * sizeof_dirent).

(** The label [bad] of [sys_unlink]. *)
Definition unlink_bad (dp : nat) : M kern Z :=
  onfs (iunlockput dp) ;;;
  commit_op ;;;
  ret (-1).

(** [sys_unlink] once [ip] is found at [off] of [dp] and locked. *)
Definition unlink_entry (dp ip : nat) (off : Z) : M kern Z :=
  let* x := onfs (geti ip) in
  if d_nlink (i_d x) <? 1 then panic "unlink: nlink < 1"
  else
    let* nonempty := (if d_type (i_d x) =? T_DIR then let* e := onfs (isdirempty ip) in ret (negb e) else ret false) in
    if nonempty then onfs (iunlockput ip) ;;; unlink_bad dp
    else
      let* w := onfs (writei devsw_write dp (replicate (Z.to_nat sizeof_dirent) 0) off sizeof_dirent) in
      if negb (w =? sizeof_dirent) then panic "unlink: writei"
      else
        (if d_type (i_d x) =? T_DIR then onfs (add_nlink dp (-1) ;;; iupdate dp) else ret tt) ;;;
        onfs (iunlockput dp) ;;;
        onfs (add_nlink ip (-1) ;;; iupdate ip ;;; iunlockput ip) ;;;
        commit_op ;;;
        ret 0.

Definition sys_unlink : M kern Z :=
  let* path := arg_str 0 in
  match path with
  | None => ret (-1)
  | Some path =>
      let* r := parent_lookup path in
      match fst r with
      | None => ret (-1)
      | Some dp =>
          let name := snd r in
          begin_op ;;;
          onfs (ilock (Some dp)) ;;;
          if (namecmp name (bytes ".") =? 0) || (namecmp name (bytes "..") =? 0) then unlink_bad dp
          else
            let* e := onfs (dirlookup devsw_read dp name) in
            match e with
            | None => unlink_bad dp
            | Some (ip, off) => onfs (ilock (Some ip)) ;;; unlink_entry dp ip off
            end
      end
  end.

Definition set_dev (major minor : Z) (d : dinode) : dinode :=
  mkDinode (d_type d) major minor (d_nlink d) (d_size d) (d_addrs d).

(** The new inode comes back locked. *)
Definition create (path : list Z) (type major minor : Z) : M kern (option nat) :=
  let* r := parent_lookup path in
  match fst r with
  | None => ret None
  | Some dp =>
      let name := snd r in
      onfs (
        ilock (Some dp) ;;;
        let* e := dirlookup devsw_read dp name in
        match e with
        | Some (ip, _) =>
            iunlockput dp ;;;
            ilock (Some ip) ;;;
            let* x := geti ip in
            if (type =? T_FILE) && (d_type (i_d x) =? T_FILE) then ret (Some ip)
            else iunlockput ip ;;; ret None
        | None =>
            let* dx := geti dp in
            let* ip := ialloc (i_dev dx) type in
            ilock (Some ip) ;;;
            updi ip (fun x => set_d (set_nlink 1 (set_dev (s16 major) (s16 minor) (i_d x))) x) ;;;
            iupdate ip ;;;
            let* x := geti ip in
            (if type =? T_DIR then
               add_nlink dp 1 ;;;
               iupdate dp ;;;
               let* a := dirlink devsw_read devsw_write ip (bytes ".") (i_inum x) in
               let* b := (if a <? 0 then ret a
                          else dirlink devsw_read devsw_write ip (bytes "..") (i_inum dx)) in
               if b <? 0 then panic "create dots" else ret tt
             else ret tt) ;;;
            let* l := dirlink devsw_read devsw_write dp name (i_inum x) in
            if l <? 0 then panic "create: dirlink"
            else iunlockput dp ;;; ret (Some ip)
        end)
  end.

(** [sys_open] with the inode found and locked. *)
Definition open_inode (ip : nat) (omode : Z) : M kern Z :=
  let* f := filealloc in
  match f with
  | None => onfs (iunlockput ip) ;;; ret (-1)
  | Some f =>
      let* fd := fdalloc f in
      if fd <? 0 then fileclose f ;;; onfs (iunlockput ip) ;;; ret (-1)
      else
        onfs (iunlock (Some ip)) ;;;
        updf f (fun x => mkFile FD_INODE (f_ref x) (negb (has_flag omode O_WRONLY))
                  (has_flag omode O_WRONLY || has_flag omode O_RDWR) (f_pipe x) ip 0) ;;;
        ret fd
  end.

Definition sys_open : M kern Z :=
  let* path := arg_str 0 in
  let* omode := arg_int 1 in
  match path, omode with
  | Some path, Some omode =>
      if has_flag omode O_CREATE then
        begin_op ;;;
        let* ip := create path T_FILE 0 0 in
        commit_op ;;;
        match ip with
        | None => ret (-1)
        | Some ip => open_inode ip omode
        end
      else
        let* ip := path_lookup path in
        match ip with
        | None => ret (-1)
        | Some ip =>
            onfs (ilock (Some ip)) ;;;
            let* x := onfs (geti ip) in
            if (d_type (i_d x) =? T_DIR) && negb (omode =? O_RDONLY) then onfs (iunlockput ip) ;;; ret (-1)
            else open_inode ip omode
        end
  | _, _ => ret (-1)
  end.

(** The end of [sys_mkdir] and [sys_mknod]. *)
Definition finish_create (ip : option nat) : M kern Z :=
  match ip with
  | None => commit_op ;;; ret (-1)
  | Some ip => onfs (iunlockput ip) ;;; commit_op ;;; ret 0
  end.

Definition sys_mkdir : M kern Z :=
  begin_op ;;;
  let* path := arg_str 0 in
  let* ip := (match path with Some path => create path T_DIR 0 0 | None => ret None end) in
  finish_create ip.

Definition sys_mknod : M kern Z :=
  begin_op ;;;
  let* path := arg_str 0 in
  let* major := arg_int 1 in
  let* minor := arg_int 2 in
  let* ip := (match path, major, minor with
              | Some path, Some major, Some minor => create path T_DEV major minor
              | _, _, _ => ret None
              end) in
  finish_create ip.

Definition sys_chdir : M kern Z :=
  let* path := arg_str 0 in
  match path with
  | None => ret (-1)
  | Some path =>
      let* ip := path_lookup path in
      match ip with
      | None => ret (-1)
      | Some ip =>
          onfs (ilock (Some ip)) ;;;
          let* x := onfs (geti ip) in
          if negb (d_type (i_d x) =? T_DIR) then onfs (iunlockput ip) ;;; ret (-1)
          else
            onfs (iunlock (Some ip)) ;;;
            let* t := gets cur in
            onfs (iput (t_cwd t)) ;;;
            updt (fun t => mkTask (t_ofile t) ip (t_sz t) (t_esp t) (t_killed t) (t_mem t)) ;;;
            ret 0
      end
  end.

(** The loop of [sys_exec]: the addresses of the arguments. *)
Fixpoint exec_args (fuel : nat) (t : task) (uargv i : Z) (argv : list Z) : option (list Z) :=
  match fuel with
  | O => None
  | S fuel' =>
      if MAXARG <=? i then None
      else
        match Syscall.fetchint (t_sz t) (t_mem t) (u32 (uargv + 4 * i)) with
        | None => None
        | Some uarg =>
            if uarg =? 0 then Some argv
            else match Syscall.fetchstr (t_sz t) (t_mem t) (u32 uarg) with
                 | None => None
                 | Some _ => exec_args fuel' t uargv (i + 1) (argv ++ [u32 uarg])
                 end
        end
  end.

Definition sys_exec (exec : list Z -> list Z -> M kern Z) : M kern Z :=
  let* path := arg_str 0 in
  let* uargv := arg_int 1 in
  match path, uargv with
  | Some path, Some uargv =>
      let* t := gets cur in
      match exec_args (S (Z.to_nat MAXARG)) t (u32 uargv) 0 [] with
      | None => ret (-1)
      | Some argv => exec path argv
      end
  | _, _ => ret (-1)
  end.

Definition sys_pipe : M kern Z :=
  let* fd := arg_ptr 0 8 in
  match fd with
  | None => ret (-1)
  | Some fd =>
      let* p := pipealloc in
      match p with
      | None => ret (-1)
      | Some (rf, wf) =>
          let* fd0 := fdalloc rf in
          let* fd1 := (if fd0 <? 0 then ret (-1) else fdalloc wf) in
          if fd1 <? 0 then
            (if 0 <=? fd0 then set_fd (Z.to_nat fd0) None else ret tt) ;;;
            fileclose rf ;;;
            fileclose wf ;;;
            ret (-1)
          else
            put_user fd (le_bytes 4 fd0) ;;;
            put_user (fd + 4) (le_bytes 4 fd1) ;;;
            ret 0
      end
  end.
End Ops.
Arguments kern D : clear implicits.
End Sysfile.
