(* ===== verification/SysfileSpec.v ===== *)
(** * Open files: reference counts, and two system calls that go wrong

    [ftable_invariant]: over all sequences of system calls, context switches and
    forks, the reference count of an open file is the number of descriptors that
    name it.  [rmdir_cwd_panics] and [read_negative_overruns] run the translated
    system calls on a small file system and show what two unchecked cases do. *)

From S2P Require Import Prelude CString Bio Log Blocks TxLog Fs FsSpec FsInode Pipe Kalloc Syscall Sysfile.

Module SysfileSpec.
Import Fs Sysfile.

(** The files that a descriptor table names. *)
Definition fds (l : list (option nat)) : list nat := omap id l.

Section Refs.
Context {D : Type}.
Implicit Types (k : kern D) (o : nat -> Z).

Definition mine (k : kern D) (f : nat) : Z := Z.of_nat (FsInode.count f (fds (t_ofile (cur k)))).

(** The reference counts, with [o f] references to [f] outside the current
    process. *)
Record refs_ok (k : kern D) (o : nat -> Z) : Prop := {
  ro_ref : forall f x, ftable k !! f = Some x -> f_ref x = mine k f + o f;
  ro_none : forall f x, ftable k !! f = Some x -> f_ref x = 0 -> f_type x = FD_NONE;
  ro_in : forall f, f ∈ fds (t_ofile (cur k)) -> is_Some (ftable k !! f);
  ro_len : length (ftable k) = NFILE
}.

Definition bump (f : nat) (d : Z) (o : nat -> Z) : nat -> Z := fun g => if decide (g = f) then o g + d else o g.

(** The part of the state the counts depend on. *)
Definition shape (k : kern D) : list (Z * ftype) * list (option nat) :=
  ((fun x => (f_ref x, f_type x)) <$> ftable k, t_ofile (cur k)).

Lemma shape_lookup k k' f x : shape k' = shape k -> ftable k' !! f = Some x ->
  exists y, ftable k !! f = Some y /\ f_ref y = f_ref x /\ f_type y = f_type x.
Proof.
  intros [= Hs _] Hx. assert (H : ((fun x => (f_ref x, f_type x)) <$> ftable k') !! f = Some (f_ref x, f_type x))
    by (by rewrite list_lookup_fmap, Hx).
  rewrite Hs, list_lookup_fmap in H. destruct (ftable k !! f) as [y|]; [|done]. injection H as ? ?. by exists y.
Qed.

Lemma refs_shape k k' o : shape k' = shape k -> refs_ok k o -> refs_ok k' o.
Proof.
  intros Hs [R N I L]. assert (Ht : t_ofile (cur k') = t_ofile (cur k)) by (by injection Hs).
  split; unfold mine in *; rewrite ?Ht.
  - intros f x Hx. destruct (shape_lookup k k' f x Hs Hx) as (y & Hy & <- & _). by apply R.
  - intros f x Hx. destruct (shape_lookup k k' f x Hs Hx) as (y & Hy & <- & <-). by apply (N f).
  - intros f Hf. destruct (I f Hf) as [y Hy]. symmetry in Hs. destruct (shape_lookup k' k f y Hs Hy) as (z & Hz & _). by exists z.
  - injection Hs as Hs _. apply (f_equal length) in Hs. rewrite !length_fmap in Hs. congruence.
Qed.

Lemma refs_ext k o o' : (forall f, o' f = o f) -> refs_ok k o -> refs_ok k o'.
Proof. intros He [R N I L]. split; [|done..]. intros f x Hx. rewrite He. by apply R. Qed.

(** ** Operations that keep the counts *)

Definition steady {A} (m : M (kern D) A) : Prop := forall k a k', m k = Ret a k' -> shape k' = shape k.

Lemma steady_ret {A} (a : A) : steady (ret a).
Proof. by intros k a' k' [= _ <-]. Qed.
Lemma steady_panic {A} msg : steady (A := A) (panic msg).
Proof. by intros k a k'. Qed.
Lemma steady_block {A} : steady (A := A) block.
Proof. by intros k a k'. Qed.
Lemma steady_gets {A} (g : kern D -> A) : steady (gets g).
Proof. by intros k a k' [= _ <-]. Qed.
Lemma steady_bind {A B} (m : M (kern D) A) (n : A -> M (kern D) B) : steady m -> (forall a, steady (n a)) -> steady (bind m n).
Proof.
  intros Hm Hn k b k'. unfold bind. destruct (m k) as [a k1| |] eqn:E; [|done..]. intros E'.
  rewrite (Hn a k1 b k' E'). by apply (Hm k a k1).
Qed.
Lemma steady_onfs {A} (m : M (fstate D) A) : steady (onfs m).
Proof. intros k a k'. unfold onfs, zoom. by destruct (m (k_fs k)); [intros [= _ <-]|..]. Qed.
Lemma steady_onmem {A} (m : M Kalloc.kstate A) : steady (onmem m).
Proof. intros k a k'. unfold onmem, zoom. by destruct (m (k_mem k)); [intros [= _ <-]|..]. Qed.
Lemma steady_pipes g : steady (set_pipes g).
Proof. by intros k a k' [= _ <-]. Qed.
Lemma steady_updt g : (forall t, t_ofile (g t) = t_ofile t) -> steady (updt g).
Proof. intros Hg k a k' [= _ <-]. unfold shape. simpl. by rewrite Hg. Qed.
Lemma steady_updf f g : (forall x, f_ref (g x) = f_ref x /\ f_type (g x) = f_type x) -> steady (updf f g).
Proof.
  intros Hg k a k' [= _ <-]. unfold shape. simpl. f_equal. apply list_eq. intros i. rewrite !list_lookup_fmap.
  destruct (decide (i = f)) as [->|Hne]; [|by rewrite list_lookup_alter_ne by done].
  rewrite list_lookup_alter_eq. destruct (ftable k !! f) as [x|]; [|done]. simpl. by destruct (Hg x) as [-> ->].
Qed.
End Refs.

Create HintDb steady.
#[export] Hint Resolve steady_ret steady_panic steady_block steady_gets steady_onfs steady_onmem steady_pipes : steady.

(** Goes through the code of an operation. *)
Ltac steady_tac :=
  repeat first
    [ solve [eauto with steady]
    | apply steady_gets
    | apply steady_updt; by intros []
    | apply steady_updf; by intros []
    | apply steady_bind; [|intros ?]
    | progress cbv zeta
    | match goal with
      | |- steady (if ?b then _ else _) => destruct b
      | |- steady (match ?o with _ => _ end) => destruct o
      end ].

Section Steady.
Context {D : Type} {TL : Blocks.TxLayer D} (begin_trans commit_trans : M D unit) (kend : Z).
Context (devsw_read : Z -> option (nat -> Z -> M (fstate D) (Z * list Z))).
Context (devsw_write : Z -> option (nat -> list Z -> Z -> M (fstate D) Z)).

Lemma steady_filestat f : steady (D := D) (filestat f).
Proof. unfold filestat, getf. steady_tac. Qed.
Lemma steady_fileread f n : steady (fileread devsw_read f n).
Proof. unfold fileread, getf, getpipe. steady_tac. Qed.
Lemma steady_filewrite_loop fuel f a n i : steady (filewrite_loop begin_trans commit_trans devsw_write fuel f a n i).
Proof. revert i. induction fuel as [|fuel IH]; intros i; cbn [filewrite_loop]; unfold begin_op, commit_op, getf; steady_tac. Qed.
Lemma steady_filewrite f a n : steady (filewrite begin_trans commit_trans devsw_write f a n).
Proof. pose proof steady_filewrite_loop. unfold filewrite, getf, getpipe. steady_tac. Qed.
Lemma steady_pipeclose a w : steady (D := D) (pipeclose kend a w).
Proof. unfold pipeclose, getpipe. steady_tac. Qed.
Lemma steady_argfd n : steady (D := D) (argfd n).
Proof. unfold argfd, arg_int. steady_tac. Qed.
Lemma steady_arg_str n : steady (D := D) (arg_str n).
Proof. apply steady_gets. Qed.
Lemma steady_put_user a l : steady (D := D) (put_user a l).
Proof. unfold put_user. steady_tac. Qed.
Lemma steady_create p t ma mi : steady (create devsw_read devsw_write p t ma mi).
Proof. unfold create, parent_lookup. steady_tac. Qed.
#[local] Hint Resolve steady_filestat steady_fileread steady_filewrite steady_argfd steady_arg_str steady_put_user steady_create : steady.

Lemma steady_read : steady (sys_read devsw_read).
Proof. unfold sys_read, rw_args, arg_int, arg_ptr. steady_tac. Qed.
Lemma steady_write : steady (sys_write begin_trans commit_trans devsw_write).
Proof. unfold sys_write, rw_args, arg_int, arg_ptr. steady_tac. Qed.
Lemma steady_fstat : steady (D := D) sys_fstat.
Proof. unfold sys_fstat, arg_ptr, put_stat. steady_tac. Qed.
Lemma steady_link : steady (sys_link begin_trans commit_trans devsw_read devsw_write).
Proof. unfold sys_link, path_lookup, parent_lookup, link_bad, begin_op, commit_op. steady_tac. Qed.
Lemma steady_unlink : steady (sys_unlink begin_trans commit_trans devsw_read devsw_write).
Proof. unfold sys_unlink, parent_lookup, unlink_entry, unlink_bad, begin_op, commit_op. steady_tac. Qed.
Lemma steady_mkdir : steady (sys_mkdir begin_trans commit_trans devsw_read devsw_write).
Proof. unfold sys_mkdir, finish_create, begin_op, commit_op. steady_tac. Qed.
Lemma steady_mknod : steady (sys_mknod begin_trans commit_trans devsw_read devsw_write).
Proof. unfold sys_mknod, finish_create, arg_int, begin_op, commit_op. steady_tac. Qed.
Lemma steady_chdir : steady (sys_chdir devsw_read).
Proof. unfold sys_chdir, path_lookup. steady_tac. Qed.
End Steady.

(** ** Operations that change the counts *)

Lemma count_app f l1 l2 : FsInode.count f (l1 ++ l2) = (FsInode.count f l1 + FsInode.count f l2)%nat.
Proof. unfold FsInode.count. by rewrite filter_app, length_app. Qed.

Lemma alter_twice {A} (g h : A -> A) i (l : list A) : alter g i (alter h i l) = alter (fun x => g (h x)) i l.
Proof.
  apply list_eq. intros j. destruct (decide (j = i)) as [->|]; [|by rewrite !list_lookup_alter_ne by done].
  rewrite !list_lookup_alter_eq. by destruct (l !! i).
Qed.

Definition names (f : nat) (x : option nat) : Z := if decide (x = Some f) then 1 else 0.

Lemma count_fds_insert f l fd x y : l !! fd = Some x ->
  Z.of_nat (FsInode.count f (fds (<[fd:=y]> l))) = Z.of_nat (FsInode.count f (fds l)) - names f x + names f y.
Proof.
  intros Hx. assert (Hc : forall z r, Z.of_nat (FsInode.count f (fds (z :: r))) = names f z + Z.of_nat (FsInode.count f (fds r))).
  { intros z r. unfold fds, names. destruct z as [g|].
    - change (omap id (Some g :: r)) with (g :: omap id r). rewrite FsInode.count_cons. repeat case_decide; simplify_eq; lia.
    - change (omap id (None :: r)) with (omap (M := list) (@id (option nat)) r). rewrite decide_False by done. lia. }
  rewrite (insert_take_drop l fd y) by (by eapply lookup_lt_Some). rewrite <- (take_drop_middle l fd x Hx) at 3.
  unfold fds in *. rewrite !omap_app, !count_app, !Nat2Z.inj_add, !Hc. lia.
Qed.

Section Changes.
Context {D : Type}.
Implicit Types (k : kern D) (o : nat -> Z).

Lemma refs_update k o f x g : refs_ok k o -> ftable k !! f = Some x -> (f_ref (g x) = 0 -> f_type (g x) = FD_NONE) ->
  refs_ok (mkKern (k_fs k) (alter g f (ftable k)) (pipes k) (k_mem k) (cur k)) (bump f (f_ref (g x) - f_ref x) o).
Proof.
  intros [R N I L] Hx Hg. split; simpl; [..|by rewrite length_alter].
  - intros h y. unfold bump, mine. simpl. case_decide as E.
    + subst h. rewrite list_lookup_alter_eq, Hx. intros [= <-]. specialize (R f x Hx). unfold mine in R. lia.
    + rewrite list_lookup_alter_ne by done. apply R.
  - intros h y. destruct (decide (h = f)) as [->|E].
    + rewrite list_lookup_alter_eq, Hx. by intros [= <-].
    + rewrite list_lookup_alter_ne by done. apply N.
  - intros h Hh. destruct (I h Hh) as [y Hy]. destruct (decide (h = f)) as [->|E].
    + rewrite list_lookup_alter_eq, Hx. by eexists.
    + rewrite list_lookup_alter_ne by done. by eexists.
Qed.

(** A descriptor set or cleared. *)
Lemma refs_set_fd k o fd x y : refs_ok k o -> t_ofile (cur k) !! fd = Some x -> (forall f, y = Some f -> is_Some (ftable k !! f)) ->
  wlp (set_fd fd y) (fun _ k' => refs_ok k' (fun f => o f + names f x - names f y) /\ ftable k' = ftable k) k.
Proof.
  intros [R N I L] Hx Hy. apply wlp_modify. split; [|done]. split; simpl; [|done| |done].
  - intros f z Hz. rewrite (R f z Hz). unfold mine. simpl. rewrite (count_fds_insert f _ fd x y Hx). lia.
  - intros f Hf. unfold fds in Hf. apply list_elem_of_omap in Hf as (z & Hz & Hzf). unfold id in Hzf. subst z.
    apply list_elem_of_lookup in Hz as [j Hj]. destruct (decide (j = fd)) as [->|E].
    + rewrite list_lookup_insert_eq in Hj by (by eapply lookup_lt_Some). injection Hj as ->. by apply Hy.
    + rewrite list_lookup_insert_ne in Hj by done. apply I. apply list_elem_of_omap. exists (Some f). split; [|done].
      by eapply list_elem_of_lookup_2.
Qed.

Lemma filealloc_refs k o : refs_ok k o -> wlp filealloc (fun r k' =>
  match r with
  | Some f => refs_ok k' (bump f 1 o) /\ t_ofile (cur k') = t_ofile (cur k) /\ (exists x, ftable k' !! f = Some x /\ f_ref x = 1) /\
      forall g x, ftable k !! g = Some x -> f_ref x <> 0 -> ftable k' !! g = Some x
  | None => k' = k
  end) k.
Proof.
  intros R. unfold filealloc. apply wlp_bind, wlp_gets. destruct (list_find _ _) as [[f x]|] eqn:E; [|by apply wlp_ret].
  apply list_find_Some in E as (Hx & H0 & _). apply wlp_bind, wlp_modify, wlp_ret. split_and!; [|done| |].
  - eapply refs_ext; [|apply (refs_update k o f x (set_fref 1) R Hx); done]. intros g. unfold bump. simpl. case_decide; lia.
  - simpl. rewrite list_lookup_alter_eq, Hx. by eexists.
  - intros g y Hy Hr. simpl. rewrite list_lookup_alter_ne; [done|]. intros ->. congruence.
Qed.

Lemma filedup_refs k o f : refs_ok k o -> wlp (filedup f) (fun _ k' => refs_ok k' (bump f 1 o) /\ t_ofile (cur k') = t_ofile (cur k) /\ length (ftable k') = length (ftable k)) k.
Proof.
  intros R. unfold filedup, getf. apply wlp_bind, wlp_gets. destruct (ftable k !! f) as [x|] eqn:Hx; simpl; [|apply wlp_panic].
  destruct (Z.ltb_spec (f_ref x) 1); [apply wlp_panic|]. apply wlp_bind, wlp_modify, wlp_ret. split_and!; [|done|apply length_alter].
  eapply refs_ext; [|apply (refs_update k o f x (set_fref (f_ref x + 1)) R Hx); simpl; lia].
  intros g. unfold bump. simpl. case_decide; lia.
Qed.

Lemma steady_wlp {A} (m : M (kern D) A) k o (Q : A -> kern D -> Prop) : steady m -> refs_ok k o ->
  (forall a k', refs_ok k' o -> shape k' = shape k -> Q a k') -> wlp m Q k.
Proof. intros Hm R HQ. apply wlp_intro. intros a k' E. pose proof (Hm k a k' E) as Hs. apply HQ; [by eapply refs_shape|done]. Qed.

Context {TL : Blocks.TxLayer D} (begin_trans commit_trans : M D unit) (kend : Z).

Lemma fileclose_refs k o f : refs_ok k o -> wlp (fileclose begin_trans commit_trans kend f) (fun _ k' =>
  refs_ok k' (bump f (-1) o) /\ t_ofile (cur k') = t_ofile (cur k)) k.
Proof.
  intros R. unfold fileclose, getf. apply wlp_bind, wlp_gets. destruct (ftable k !! f) as [x|] eqn:Hx; simpl; [|apply wlp_panic].
  destruct (Z.ltb_spec (f_ref x) 1); [apply wlp_panic|]. apply wlp_bind, wlp_modify.
  destruct (Z.ltb_spec 0 (f_ref x - 1)).
  - apply wlp_ret. split; [|done]. eapply refs_ext; [|apply (refs_update k o f x (set_fref (f_ref x - 1)) R Hx); simpl; lia].
    intros g. unfold bump. simpl. case_decide; lia.
  - apply wlp_bind, wlp_gets. apply wlp_bind, wlp_modify. simpl.
    pose proof (refs_update k o f x (fun y => set_ftype FD_NONE (set_fref 0 (set_fref (f_ref x - 1) y))) R Hx ltac:(done)) as R'.
    assert (R2 : refs_ok (mkKern (k_fs k) (alter (fun y => set_ftype FD_NONE (set_fref 0 y)) f (alter (set_fref (f_ref x - 1)) f (ftable k)))
      (pipes k) (k_mem k) (cur k)) (bump f (-1) o)).
    { rewrite alter_twice. eapply refs_ext; [|exact R']. intros g. unfold bump. simpl. case_decide; lia. }
    match goal with |- wlp ?m _ _ => assert (Hst : steady m) end.
    { pose proof (@steady_pipeclose D kend). unfold begin_op, commit_op. steady_tac. }
    eapply (steady_wlp _ _ _ _ Hst R2). intros a k' Hk Hs. split; [done|]. by injection Hs.
Qed.

Lemma fdalloc_refs k o f : refs_ok k o -> is_Some (ftable k !! f) -> wlp (fdalloc f) (fun r k' =>
  if r <? 0 then k' = k
  else refs_ok k' (bump f (-1) o) /\ ftable k' = ftable k /\ t_ofile (cur k') = <[Z.to_nat r:=Some f]> (t_ofile (cur k)) /\
       t_ofile (cur k) !! Z.to_nat r = Some None) k.
Proof.
  intros R Hf. unfold fdalloc. apply wlp_bind, wlp_gets. destruct (list_find _ _) as [[fd x]|] eqn:E; [|by apply wlp_ret].
  apply list_find_Some in E as (Hx & -> & _). apply wlp_bind.
  pose proof (refs_set_fd k o fd None (Some f) R Hx ltac:(by intros ? [= <-])) as H. unfold set_fd, updt in *. apply wlp_modify. apply wlp_ret.
  destruct (Z.ltb_spec (Z.of_nat fd) 0); [lia|]. rewrite Nat2Z.id. destruct H as [H1 H2]. split_and!; [|done|done|done].
  eapply refs_ext; [|exact H1]. intros g. unfold bump, names. simpl. repeat case_decide; simplify_eq; lia.
Qed.

(** ** The system calls *)

Lemma argfd_spec k n : wlp (argfd n) (fun r k' => k' = k /\
  match r with Some (fd, f) => 0 <= fd /\ t_ofile (cur k) !! Z.to_nat fd = Some (Some f) | None => True end) k.
Proof.
  unfold argfd, arg_int. apply wlp_bind, wlp_gets. destruct (Syscall.argint _ _ _ _) as [fd|]; [|by apply wlp_ret].
  destruct (Z.ltb_spec fd 0); [by apply wlp_ret|]. destruct (NOFILE <=? fd); [by apply wlp_ret|]. simpl.
  apply wlp_bind, wlp_gets, wlp_ret. split; [done|]. by destruct (t_ofile (cur k) !! Z.to_nat fd) as [[f|]|] eqn:E; simpl; rewrite ?E.
Qed.

Lemma fd_in k o fd f : refs_ok k o -> t_ofile (cur k) !! fd = Some (Some f) -> is_Some (ftable k !! f).
Proof.
  intros R Hf. apply (ro_in _ _ R). apply list_elem_of_omap. exists (Some f). split; [|done]. by eapply list_elem_of_lookup_2.
Qed.

Lemma bump_back o f d g : bump f (-d) (bump f d o) g = o g.
Proof. unfold bump. case_decide; lia. Qed.

Lemma dup_refs k o : refs_ok k o -> wlp sys_dup (fun _ k' => refs_ok k' o) k.
Proof.
  intros R. unfold sys_dup. apply wlp_bind. eapply wlp_mono; [apply argfd_spec|]. intros r k1 [-> Hr].
  destruct r as [[fd f]|]; [|by apply wlp_ret]. destruct Hr as [_ Hf]. apply wlp_bind.
  eapply wlp_mono; [apply (fdalloc_refs k o f R); by eapply fd_in|]. intros fd' k1 H1. cbv beta in H1.
  destruct (fd' <? 0); [subst; by apply wlp_ret|]. destruct H1 as (R1 & _). apply wlp_bind.
  eapply wlp_mono; [apply (filedup_refs _ _ f R1)|]. intros _ k2 (R2 & _). apply wlp_ret.
  eapply refs_ext; [|exact R2]. intros g. symmetry. apply (bump_back o f (-1)).
Qed.

Lemma close_refs k o fd f : refs_ok k o -> t_ofile (cur k) !! fd = Some (Some f) ->
  wlp (set_fd fd None ;;; fileclose begin_trans commit_trans kend f) (fun _ k' => refs_ok k' o) k.
Proof.
  intros R Hf. apply wlp_bind. eapply wlp_mono; [by apply (refs_set_fd k o fd (Some f) None)|]. intros _ k1 [R1 _].
  eapply wlp_mono; [apply (fileclose_refs _ _ _ R1)|]. intros _ k2 [R2 _]. eapply refs_ext; [|exact R2].
  intros g. unfold bump, names. rewrite (decide_False (P := None = Some g)) by done. repeat case_decide; simplify_eq; lia.
Qed.

Lemma sys_close_refs k o : refs_ok k o -> wlp (sys_close begin_trans commit_trans kend) (fun _ k' => refs_ok k' o) k.
Proof.
  intros R. unfold sys_close. apply wlp_bind. eapply wlp_mono; [apply argfd_spec|]. intros r k1 [-> Hr].
  destruct r as [[fd f]|]; [|by apply wlp_ret]. destruct Hr as [_ Hf].
  pose proof (close_refs k o (Z.to_nat fd) f R Hf) as H. unfold wlp, bind in *. destruct (set_fd _ _ k) as [[] k1| |]; [|done..].
  by destruct (fileclose _ _ _ _ k1).
Qed.

(** Changing a file in use without its count. *)
Lemma updf_refs k o f x g : refs_ok k o -> ftable k !! f = Some x -> f_ref x <> 0 -> f_ref (g x) = f_ref x ->
  wlp (updf f g) (fun _ k' => refs_ok k' o /\ t_ofile (cur k') = t_ofile (cur k) /\ ftable k' = alter g f (ftable k)) k.
Proof.
  intros R Hx Hr Hg. apply wlp_modify. split_and!; [|done|done].
  eapply refs_ext; [|apply (refs_update k o f x g R Hx); rewrite Hg; done]. intros h. unfold bump. case_decide; lia.
Qed.

Lemma open_refs k o ip om : refs_ok k o -> wlp (open_inode begin_trans commit_trans kend ip om) (fun _ k' => refs_ok k' o) k.
Proof.
  intros R. unfold open_inode. apply wlp_bind. eapply wlp_mono; [apply (filealloc_refs _ _ R)|]. intros [f|] k1 H1; cbv beta iota in H1.
  2: { subst. apply wlp_bind. eapply (steady_wlp _ _ _ _ (steady_onfs _) R). intros _ k2 R2 _. by apply wlp_ret. }
  destruct H1 as (R1 & _ & (x & Hx & Hr) & _). apply wlp_bind.
  eapply wlp_mono; [apply (fdalloc_refs k1 _ f R1); by eexists|]. intros fd k2 H2. cbv beta in H2. destruct (fd <? 0).
  - subst k2. apply wlp_bind. eapply wlp_mono; [apply (fileclose_refs _ _ _ R1)|]. intros _ k2 [R2 _]. apply wlp_bind.
    eapply (steady_wlp _ _ _ _ (steady_onfs _) R2). intros _ k3 R3 _. apply wlp_ret.
    eapply refs_ext; [|exact R3]. intros g. symmetry. apply (bump_back o f 1).
  - destruct H2 as (R2 & E2 & _). apply wlp_bind. eapply (steady_wlp _ _ _ _ (steady_onfs _) R2). intros _ k3 R3 S3. apply wlp_bind.
    rewrite <- E2 in Hx. destruct (shape_lookup k3 k2 f x (eq_sym S3) Hx) as (y & Hy & Hyr & _).
    eapply wlp_mono; [apply (updf_refs k3 _ f y _ R3 Hy); [lia|done]|]. intros _ k4 (R4 & _). apply wlp_ret.
    eapply refs_ext; [|exact R4]. intros g. symmetry. apply (bump_back o f 1).
Qed.
End Changes.

Section Calls.
Context {D : Type} {TL : Blocks.TxLayer D} (begin_trans commit_trans : M D unit) (kend : Z).
Context (devsw_read : Z -> option (nat -> Z -> M (fstate D) (Z * list Z))).
Context (devsw_write : Z -> option (nat -> list Z -> Z -> M (fstate D) Z)).
Implicit Types (k : kern D) (o : nat -> Z).

Lemma sys_open_refs k o : refs_ok k o ->
  wlp (sys_open begin_trans commit_trans kend devsw_read devsw_write) (fun _ k' => refs_ok k' o) k.
Proof.
  intros R. unfold sys_open, arg_str, arg_int. apply wlp_bind, wlp_gets, wlp_bind, wlp_gets.
  destruct (_ <$> _) as [path|]; [|by apply wlp_ret]. destruct (Syscall.argint _ _ _ _) as [om|]; [|by apply wlp_ret].
  destruct (has_flag om O_CREATE).
  - apply wlp_bind. eapply (steady_wlp _ _ _ _ (steady_onfs _) R). intros _ k1 R1 _. apply wlp_bind.
    eapply (steady_wlp _ _ _ _ (steady_create _ _ _ _ _ _) R1). intros ip k2 R2 _. apply wlp_bind.
    eapply (steady_wlp _ _ _ _ (steady_onfs _) R2). intros _ k3 R3 _. destruct ip; [by apply open_refs|by apply wlp_ret].
  - apply wlp_bind. unfold path_lookup. apply wlp_bind, wlp_gets. eapply (steady_wlp _ _ _ _ (steady_onfs _) R). intros ip k1 R1 _.
    destruct ip as [ip|]; [|by apply wlp_ret]. apply wlp_bind. eapply (steady_wlp _ _ _ _ (steady_onfs _) R1). intros _ k2 R2 _.
    apply wlp_bind. eapply (steady_wlp _ _ _ _ (steady_onfs _) R2). intros x k3 R3 _. destruct (_ && _); [|by apply open_refs].
    apply wlp_bind. eapply (steady_wlp _ _ _ _ (steady_onfs _) R3). intros _ k4 R4 _. by apply wlp_ret.
Qed.

(** Closing both ends of a new pipe. *)
Lemma close_two k o f0 f1 : refs_ok k (bump f1 1 (bump f0 1 o)) ->
  wlp (fileclose begin_trans commit_trans kend f0 ;;; fileclose begin_trans commit_trans kend f1) (fun _ k' => refs_ok k' o) k.
Proof.
  intros R. apply wlp_bind. eapply wlp_mono; [apply (fileclose_refs begin_trans commit_trans kend _ _ _ R)|]. intros _ k1 [R1 _].
  eapply wlp_mono; [apply (fileclose_refs begin_trans commit_trans kend _ _ _ R1)|]. intros _ k2 [R2 _].
  eapply refs_ext; [|exact R2]. intros g. unfold bump. repeat case_decide; lia.
Qed.

Lemma pipealloc_refs k o : refs_ok k o -> wlp (pipealloc begin_trans commit_trans kend) (fun r k' =>
  match r with
  | Some (f0, f1) => refs_ok k' (bump f1 1 (bump f0 1 o)) /\ is_Some (ftable k' !! f0) /\ is_Some (ftable k' !! f1)
  | None => refs_ok k' o
  end) k.
Proof.
  intros R. unfold pipealloc. apply wlp_bind. eapply wlp_mono; [apply (filealloc_refs _ _ R)|]. intros [f0|] k1 H1; cbv beta iota in H1.
  2: { subst. apply wlp_bind, wlp_ret, wlp_bind, wlp_ret, wlp_bind, wlp_ret. by apply wlp_ret. }
  destruct H1 as (R1 & _ & (x0 & Hx0 & Hr0) & _). apply wlp_bind. eapply wlp_mono; [apply (filealloc_refs _ _ R1)|].
  intros [f1|] k2 H2; cbv beta iota in H2.
  2: { subst. apply wlp_bind. eapply wlp_mono; [apply (fileclose_refs begin_trans commit_trans kend _ _ _ R1)|]. intros _ k2 [R2 _].
       apply wlp_bind, wlp_ret, wlp_ret. eapply refs_ext; [|exact R2]. intros g. symmetry. apply (bump_back o f0 1). }
  destruct H2 as (R2 & _ & (x1 & Hx1 & Hr1) & Hold). specialize (Hold f0 x0 Hx0 ltac:(lia)).
  apply wlp_bind. eapply (steady_wlp _ _ _ _ (steady_onmem _) R2). intros p k3 R3 S3.
  destruct (shape_lookup k3 k2 f0 x0 (eq_sym S3) Hold) as (y0 & Hy0 & Hyr0 & _).
  destruct (shape_lookup k3 k2 f1 x1 (eq_sym S3) Hx1) as (y1 & Hy1 & Hyr1 & _). destruct (p =? 0).
  - pose proof (close_two k3 o f0 f1 R3) as Hc. unfold wlp, bind in *. destruct (fileclose _ _ _ f0 k3) as [[] k4| |]; [|done..].
    by destruct (fileclose _ _ _ f1 k4).
  - apply wlp_bind, wlp_gets, wlp_bind, wlp_modify, wlp_bind. set (k4 := mkKern _ _ _ _ _).
    assert (R4 : refs_ok k4 (bump f1 1 (bump f0 1 o))) by (by apply (refs_shape k3)).
    eapply wlp_mono; [apply (updf_refs k4 _ f0 y0 _ R4 Hy0); [lia|done]|]. intros _ k5 (R5 & _ & E5). apply wlp_bind.
    assert (exists z1, ftable k5 !! f1 = Some z1 /\ f_ref z1 = 1) as (z1 & Hz1 & Hzr1).
    { rewrite E5. destruct (decide (f1 = f0)) as [->|Hne].
      - rewrite list_lookup_alter_eq. simpl. rewrite Hy0. eexists. split; [done|]. simpl. lia.
      - rewrite list_lookup_alter_ne by done. exists y1. split; [done|lia]. }
    eapply wlp_mono; [apply (updf_refs k5 _ f1 z1 _ R5 Hz1); [lia|done]|]. intros _ k6 (R6 & _ & E6). apply wlp_ret.
    split_and!; [done|rewrite E6, E5..].
    + apply lookup_lt_is_Some. rewrite !length_alter. apply lookup_lt_is_Some. by eexists.
    + apply lookup_lt_is_Some. rewrite !length_alter. apply lookup_lt_is_Some. by eexists.
Qed.

Lemma sys_pipe_refs k o : refs_ok k o -> wlp (sys_pipe begin_trans commit_trans kend) (fun _ k' => refs_ok k' o) k.
Proof.
  intros R. unfold sys_pipe, arg_ptr. apply wlp_bind, wlp_gets. destruct (Syscall.argptr _ _ _ _ _) as [a|]; [|by apply wlp_ret].
  apply wlp_bind. eapply wlp_mono; [apply (pipealloc_refs _ _ R)|]. intros [[rf wf]|] k1 H1; cbv beta iota in H1; [|by apply wlp_ret].
  destruct H1 as (R1 & I0 & I1). apply wlp_bind. eapply wlp_mono; [apply (fdalloc_refs _ _ rf R1 I0)|]. intros fd0 k2 H2. cbv beta in H2.
  assert (Hclose : forall k3, refs_ok k3 (bump wf 1 (bump rf 1 o)) -> wlp (fileclose begin_trans commit_trans kend rf ;;;
    fileclose begin_trans commit_trans kend wf ;;; ret (-1)) (fun _ k' => refs_ok k' o) k3).
  { intros k3 R3. pose proof (close_two k3 o rf wf R3) as Hc. unfold wlp, bind in *.
    destruct (fileclose _ _ _ rf k3) as [[] k4| |]; [|done..]. by destruct (fileclose _ _ _ wf k4). }
  destruct (Z.ltb_spec fd0 0).
  - subst k2. apply wlp_bind, wlp_ret. cbn iota. destruct (Z.ltb_spec (-1) 0); [|lia]. destruct (Z.leb_spec 0 fd0); [lia|].
    apply wlp_bind, wlp_ret. by apply Hclose.
  - destruct H2 as (R2 & E2 & T2 & F2). rewrite <- E2 in I1, I0. apply wlp_bind.
    eapply wlp_mono; [apply (fdalloc_refs _ _ wf R2 I1)|]. intros fd1 k3 H3. cbv beta in H3. destruct (fd1 <? 0).
    + subst k3. destruct (Z.leb_spec 0 fd0); [|lia]. apply wlp_bind.
      assert (Hfd : t_ofile (cur k2) !! Z.to_nat fd0 = Some (Some rf)).
      { rewrite T2. apply list_lookup_insert_eq. by eapply lookup_lt_Some. }
      eapply wlp_mono; [by apply (refs_set_fd _ _ _ _ None R2 Hfd)|]. intros _ k3 [R3 _]. apply Hclose.
      eapply refs_ext; [|exact R3]. intros g. unfold bump, names. rewrite (decide_False (P := None = Some g)) by done.
      repeat case_decide; simplify_eq; lia.
    + destruct H3 as (R3 & _). assert (Ro : refs_ok k3 o).
      { eapply refs_ext; [|exact R3]. intros g. unfold bump. repeat case_decide; lia. }
      apply wlp_bind. eapply (steady_wlp _ _ _ _ (steady_put_user _ _) Ro). intros _ k4 R4 _.
      apply wlp_bind. eapply (steady_wlp _ _ _ _ (steady_put_user _ _) R4). intros _ k5 R5 _. by apply wlp_ret.
Qed.

(** ** All processes *)

(** The loop of [fork] over the open files. *)
Fixpoint dup_all (l : list nat) : M (kern D) unit :=
  match l with [] => ret tt | f :: l' => filedup f ;;; dup_all l' end.

Lemma dup_all_refs l k o : refs_ok k o -> wlp (dup_all l) (fun _ k' =>
  refs_ok k' (fun f => o f + Z.of_nat (FsInode.count f l)) /\ t_ofile (cur k') = t_ofile (cur k) /\
  length (ftable k') = length (ftable k)) k.
Proof.
  revert k o. induction l as [|f l IH]; intros k o R; cbn [dup_all].
  - apply wlp_ret. split_and!; [|done|done]. eapply refs_ext; [|exact R]. intros g. change (FsInode.count g []) with 0%nat. lia.
  - apply wlp_bind. eapply wlp_mono; [apply (filedup_refs _ _ f R)|]. intros _ k1 (R1 & T1 & L1).
    eapply wlp_mono; [apply (IH _ _ R1)|]. intros _ k2 (R2 & T2 & L2). split_and!; [|congruence|congruence].
    eapply refs_ext; [|exact R2]. intros g. rewrite FsInode.count_cons. unfold bump. repeat case_decide; simplify_eq; lia.
Qed.

(** A system call on files of the current process. *)
Definition is_syscall (m : M (kern D) Z) : Prop :=
  m = sys_dup \/ m = sys_read devsw_read \/ m = sys_write begin_trans commit_trans devsw_write \/
  m = sys_close begin_trans commit_trans kend \/ m = sys_fstat \/
  m = sys_link begin_trans commit_trans devsw_read devsw_write \/
  m = sys_unlink begin_trans commit_trans devsw_read devsw_write \/
  m = sys_open begin_trans commit_trans kend devsw_read devsw_write \/
  m = sys_mkdir begin_trans commit_trans devsw_read devsw_write \/
  m = sys_mknod begin_trans commit_trans devsw_read devsw_write \/
  m = sys_chdir devsw_read \/ m = sys_pipe begin_trans commit_trans kend.

Lemma syscall_refs m k o : is_syscall m -> refs_ok k o -> wlp m (fun _ k' => refs_ok k' o) k.
Proof.
  intros Hm R. assert (Hst : steady m -> wlp m (fun _ k' => refs_ok k' o) k) by (intros Hs; by apply (steady_wlp _ _ _ _ Hs R)).
  destruct Hm as [->|[->|[->|[->|[->|[->|[->|[->|[->|[->|[->| ->]]]]]]]]]]];
    [by apply dup_refs|..|by apply sys_pipe_refs]; try (by apply sys_close_refs); try (by apply sys_open_refs);
    apply Hst; auto using steady_read, steady_write, steady_fstat, steady_link, steady_unlink, steady_mkdir, steady_mknod, steady_chdir.
Qed.

(** The kernel, and the descriptors of the processes that are not running. *)
Record sys := mkSys { ks : kern D; others : list nat }.

(** A step: a system call; a context switch to a process whose descriptors are among
    the others; a fork; an exiting process closing a descriptor. *)
Inductive step : sys -> sys -> Prop :=
| step_call m k q r k' : is_syscall m -> m k = Ret r k' -> step (mkSys k q) (mkSys k' q)
| step_switch k q t q' : fds (t_ofile t) ++ q' ≡ₚ fds (t_ofile (cur k)) ++ q ->
    step (mkSys k q) (mkSys (mkKern (k_fs k) (ftable k) (pipes k) (k_mem k) t) q')
| step_fork k q k' : dup_all (fds (t_ofile (cur k))) k = Ret tt k' ->
    step (mkSys k q) (mkSys k' (fds (t_ofile (cur k)) ++ q))
| step_exit k q fd f k' : t_ofile (cur k) !! fd = Some (Some f) ->
    (set_fd fd None ;;; fileclose begin_trans commit_trans kend f) k = Ret tt k' -> step (mkSys k q) (mkSys k' q).

Record inv (x : sys) : Prop := {
  inv_refs : refs_ok (ks x) (fun f => Z.of_nat (FsInode.count f (others x)));
  inv_others : forall f, f ∈ others x -> (f < NFILE)%nat
}.

Lemma count_perm f l1 l2 : l1 ≡ₚ l2 -> FsInode.count f l1 = FsInode.count f l2.
Proof. intros H. unfold FsInode.count. by rewrite H. Qed.

Lemma mine_in k o f : refs_ok k o -> f ∈ fds (t_ofile (cur k)) -> (f < NFILE)%nat.
Proof. intros R Hf. destruct (ro_in _ _ R f Hf) as [x Hx]. rewrite <- (ro_len _ _ R). by eapply lookup_lt_Some. Qed.

Lemma ftable_step x y : step x y -> inv x -> inv y.
Proof.
  intros Hs [R O]. destruct Hs as [m k q r k' Hm E|k q t q' Hp|k q k' E|k q fd f k' Hf E]; simpl in *.
  - split; [|done]. by apply (wlp_elim _ _ _ _ _ (syscall_refs m k _ Hm R) E).
  - assert (Hin : forall f, f ∈ fds (t_ofile t) ++ q' -> (f < NFILE)%nat).
    { intros f. rewrite Hp, elem_of_app. intros [Hf|Hf]; [by apply (mine_in k _ f R)|by apply O]. }
    split; simpl; [|intros f Hf; apply Hin, elem_of_app; by right]. destruct R as [R N I L]. split; simpl; [|done| |done].
    + intros f z Hz. rewrite (R f z Hz). unfold mine. simpl. rewrite <- !Nat2Z.inj_add, <- !count_app. f_equal. symmetry. by apply count_perm.
    + intros f Hf. apply lookup_lt_is_Some. rewrite L. apply Hin, elem_of_app. by left.
  - destruct (wlp_elim _ _ _ _ _ (dup_all_refs _ k _ R) E) as (R' & T & _). split; simpl.
    + eapply refs_ext; [|exact R']. intros f. rewrite count_app. lia.
    + intros f [Hf|Hf]%elem_of_app; [by apply (mine_in k _ f R)|by apply O].
  - split; [|done]. by apply (wlp_elim _ _ _ _ _ (close_refs begin_trans commit_trans kend k _ fd f R Hf) E).
Qed.

(** C4: over every sequence of system calls on files, context switches, forks and
    exits, the reference count of every open file is the number of descriptors of all
    processes that name it, and an entry of the table without descriptors is free:
    no error path of the calls leaks or drops a reference. *)
Theorem ftable_invariant x y : rtc step x y -> inv x -> inv y.
Proof. induction 1 as [|x y z Hs _ IH]; intros V; [done|]. apply IH. by eapply ftable_step. Qed.
End Calls.

(** ** A small system *)

#[local] Existing Instance FsSpec.demo_layer.

(** User memory with the path [p] at 100 as the first argument. *)
Definition path_mem (p : list Z) : Z -> Z := Kalloc.m_write (fun a => if a =? 4 then 100 else 0) 100 p.
Definition demo_task : task := mkTask (replicate 16 None) 0 4096 0 false (fun _ => 0).
Definition demo_kern : kern Log.lstate :=
  mkKern (FsSpec.demo_fs false) (replicate NFILE zero_file) ∅ (Kalloc.mkK (fun _ => 0) true 0) demo_task.
Definition with_mem {A} (um : Z -> Z) (m : M (kern Log.lstate) A) : M (kern Log.lstate) A :=
  updt (fun t => mkTask (t_ofile t) (t_cwd t) (t_sz t) (t_esp t) (t_killed t) um) ;;; m.
Definition with_path {A} (p : string) (m : M (kern Log.lstate) A) : M (kern Log.lstate) A := with_mem (path_mem (bytes p)) m.

Definition do_open := sys_open Log.begin_trans Log.commit_trans 0 FsSpec.no_read FsSpec.no_write.
Definition do_mkdir := sys_mkdir Log.begin_trans Log.commit_trans FsSpec.no_read FsSpec.no_write.
Definition do_unlink := sys_unlink Log.begin_trans Log.commit_trans FsSpec.no_read FsSpec.no_write.
Definition do_chdir := sys_chdir FsSpec.no_read.

Lemma demo_inv k : ftable k = replicate NFILE zero_file -> t_ofile (cur k) = replicate 16 None -> inv (D := Log.lstate) (mkSys k []).
Proof.
  intros Ht Hf. split; simpl; [|by intros f ?%not_elem_of_nil]. split; unfold mine; rewrite ?Ht, ?Hf; [..|done].
  - intros f x [-> _]%lookup_replicate. done.
  - by intros f x [-> _]%lookup_replicate.
  - intros f Hin. by apply not_elem_of_nil in Hin.
Qed.

(** The file "f" is opened, and the descriptor is duplicated by [fork]. *)
Definition opening : kern Log.lstate := result (with_path "f" (ret tt)) demo_kern.
Definition opened : kern Log.lstate := result do_open opening.

Lemma ftable_invariant_witness :
  (exists q, rtc (step Log.begin_trans Log.commit_trans 0 FsSpec.no_read FsSpec.no_write) (mkSys opening []) (mkSys opened q) /\
     inv (mkSys opened q)) /\ f_ref <$> ftable opened !! 0%nat = Some 1.
Proof.
  split; [|vm_compute; reflexivity]. exists [].
  assert (H : rtc (step Log.begin_trans Log.commit_trans 0 FsSpec.no_read FsSpec.no_write) (mkSys opening []) (mkSys opened [])).
  { apply rtc_once. apply (step_call _ _ _ _ _ do_open _ _ 0); [unfold is_syscall, do_open; tauto|]. vm_compute. reflexivity. }
  split; [exact H|]. apply (ftable_invariant _ _ _ _ _ _ _ H). by apply demo_inv.
Defined.

(** ** Two unchecked cases *)

(** [sys_chdir] drops the old current directory outside of a transaction.  After
    [mkdir d], [chdir d] and [unlink ../d], which all succeed, [chdir /] drops the last
    reference to the unlinked directory, truncates it without a transaction and
    panics the kernel. *)
Theorem rmdir_cwd_panics :
  wp (let* a := with_path "d" do_mkdir in
      let* b := with_path "d" do_chdir in
      let* c := with_path "../d" do_unlink in
      ret (a, b, c)) (fun r _ => r = (0, 0, 0)) demo_kern /\
  (with_path "d" do_mkdir ;;; with_path "d" do_chdir ;;; with_path "../d" do_unlink ;;; with_path "/" do_chdir) demo_kern =
    Panic "write outside of trans".
Proof. split; vm_compute; reflexivity. Qed.

(** The arguments of [read(0, p, n)]. *)
Definition read_args (p n : Z) : Z -> Z := Kalloc.m_write (fun _ => 0) 4 (le_bytes 4 0 ++ le_bytes 4 p ++ le_bytes 4 n).

(** [read] with size -1 passes the check of [argptr] and copies the whole file, here
    past the end of a process of 4096 bytes: address 4096 gets the second byte of
    the file. *)
Lemma read_negative_overruns :
  wp (let* fd := with_path "f" do_open in
      let* r := with_mem (read_args 4095 (-1)) (sys_read FsSpec.no_read) in
      ret (fd, r)) (fun x k => x = (0, 5) /\ t_sz (cur k) = 4096 /\ t_mem (cur k) 4096 = 101) demo_kern.
Proof. vm_compute. split_and!; reflexivity. Qed.
End SysfileSpec.
