(* ===== verification/Random.v ===== *)
(** * random.c: the random number system calls

    [Module Random] translates random.c.  A C [long] is a 32-bit integer here; what
    an operation of the generator gives outside of its range is a parameter, the processor
    wrapping around.  The value of
    [randomValue] is kept as the numerator of the quotient the code computes;
    rounding to [float] is not modelled.  An access to [zrng] outside of the array,
    which the code does not exclude, is a panic of the model.

    [random_is_lehmer]: without overflow, the two 16-bit steps of the code are one
    multiplication by 630360016 modulo 2^31-1, for every sequence of calls that sets the
    streams to states of the generator; [change_seed_overflows]: the code accepts others. *)

From S2P Require Import Prelude.

Module Random.

Definition MODLUS : Z := 2147483647.
Definition MULTONE : Z := 24112.
Definition MULTTWO : Z := 26143.

Record rstate := mkR { seed : Z; zrng : list Z; randomValue : Z }.

Definition zrng_init : list Z :=
  [
    0; 1973272912; 281629770; 20006270; 1280689831; 2096730329; 1933576050;
    913566091; 246780520; 1363774876; 604901985; 1511192140; 1259851944; 824064364;
    150493284; 242708531; 75253171; 1964472944; 1202299975; 233217322; 1911216000;
    726370533; 403498145; 993232223; 1103205531; 762430696; 1922803170; 1385516923;
    76271663; 413682397; 726466604; 336157058; 1432650381; 1120463904; 595778810;
    877722890; 1046574445; 68911991; 2088367019; 748545416; 622401386; 2122378830;
    640690903; 1774806513; 2132545692; 2079249579; 78130110; 852776735; 1187867272;
    1351423507; 1645973084; 1997049139; 922510944; 2045512870; 898585771; 243649545;
    1004818771; 773686062; 403188473; 372279877; 1901633463; 498067494; 2087759558;
    493157915; 597104727; 1530940798; 1814496276; 536444882; 1663153658; 855503735;
    67784357; 1432404475; 619691088; 119025595; 880802310; 176192644; 1116780070;
    277854671; 1366580350; 1142483975; 2026948561; 1053920743; 786262391; 1792203830;
    1494667770; 1923011392; 1433700034; 1244184613; 1147297105; 539712780; 1545929719;
    190641742; 1645390429; 264907697; 620389253; 1502074852; 927711160; 364849192;
    2049576050; 638580085; 547070247 ].
Definition r_init : rstate := mkR 0 zrng_init 0.

(** Arithmetic on [long]s.  [op] says what an operation gives whose exact result is its
    argument: [wraps] is what the processor does, [checked] stops at an overflow. *)
Definition wraps (x : Z) : option Z := Some (s32 x).
Definition checked (x : Z) : option Z := if (-2147483648 <=? x) && (x <? 2147483648) then Some x else None.

Section Arithmetic.
Context (op : Z -> option Z).

(** One of the two steps: [zi] times [mult] modulo [MODLUS] in 32-bit arithmetic. *)
Definition step (mult zi : Z) : option Z :=
  lowprd ← op (Z.land zi 65535 * mult);
  hi ← op (Z.shiftr zi 16 * mult);
  hi3l ← op (hi + Z.shiftr lowprd 16);
  low ← op (Z.land lowprd 65535 - MODLUS);
  mid ← op (Z.shiftl (Z.land hi3l 32767) 16);
  sum ← op (low + mid);
  zi ← op (sum + Z.shiftr hi3l 15);
  if zi <? 0 then op (zi + MODLUS) else Some zi.

Definition next_seed (zi : Z) : option Z :=
  zi ← step MULTONE zi;
  step MULTTWO zi.

(** [(zi >> 7 | 1) + 1], the numerator over 1667772116. *)
Definition numerator (zi : Z) : option Z := op (Z.lor (Z.shiftr zi 7) 1 + 1).
Definition denominator : Z := 1667772116.

(** The common part of [sys_random] and [sys_random_set]. *)
Definition draw : M rstate unit := fun s =>
  match (zi ← next_seed (default 0 (zrng s !! Z.to_nat (seed s))); v ← numerator zi; Some (zi, v)) with
  | Some (zi, v) => Ret tt (mkR (seed s) (<[Z.to_nat (seed s):=zi]> (zrng s)) v)
  | None => Panic "overflow"
  end.

Definition in_use (s : rstate) : bool := (0 <? seed s) && (seed s <? 101).

Definition sys_random : M rstate Z :=
  modify (fun s => if seed s <=? 0 then mkR 0 (zrng s) (randomValue s) else s) ;;;
  let* b := gets in_use in
  (if b then draw else ret tt) ;;;
  gets randomValue.

(** [arg0] is what [argint(0, &seed)] fetches. *)
Definition sys_random_set (arg0 : option Z) : M rstate Z :=
  match arg0 with
  | None => ret (-1)
  | Some a =>
      modify (fun s => mkR a (zrng s) (randomValue s)) ;;;
      let* b := gets in_use in
      if b then draw ;;; ret 0 else ret (-1)
  end.
End Arithmetic.

Definition in_array (stream : Z) (s : rstate) : bool := (0 <=? stream) && (stream <? Z.of_nat (length (zrng s))).

Definition sys_change_seed (arg0 arg1 : option Z) : M rstate Z :=
  match arg0, arg1 with
  | Some stream, Some v =>
      let* b := gets (in_array stream) in
      if b then modify (fun s => mkR (seed s) (<[Z.to_nat stream:=v]> (zrng s)) (randomValue s)) ;;; ret 0
      else panic "zrng: index out of bounds"
  | _, _ => ret (-1)
  end.

Definition sys_actual_seed (arg0 : option Z) : M rstate Z :=
  match arg0 with
  | None => ret (-1)
  | Some stream =>
      let* b := gets (in_array stream) in
      if b then gets (fun s => default 0 (zrng s !! Z.to_nat stream)) else panic "zrng: index out of bounds"
  end.

(** ** The generator *)

(** [op] is exact where the result is a [long]; nothing is said of overflows. *)
Definition exact (op : Z -> option Z) : Prop := forall x, -2147483648 <= x < 2147483648 -> op x = Some x.

Lemma wraps_exact : exact wraps.
Proof. intros x Hx. unfold wraps. by rewrite s32_small. Qed.

Lemma checked_exact : exact checked.
Proof. intros x Hx. unfold checked. by rewrite (proj2 (Z.leb_le _ _)), (proj2 (Z.ltb_lt _ _)) by lia. Qed.

Section Generator.
Context (op : Z -> option Z) (Hop : exact op).

(** Splitting the product into 16-bit and 15-bit parts computes it modulo 2^31-1, and
    no intermediate value leaves the range of a [long]. *)
Lemma step_mod mult zi : 0 <= mult < 32768 -> 0 <= zi < MODLUS -> step op mult zi = Some ((mult * zi) mod MODLUS).
Proof using Hop.
  intros Hm Hz. unfold step, MODLUS in *. change 65535 with (Z.ones 16). change 32767 with (Z.ones 15).
  rewrite Z.land_ones, Z.shiftr_div_pow2 by lia. change (2 ^ 16) with 65536.
  set (lo := zi mod 65536). set (hi := zi / 65536). assert (Hlo : 0 <= lo < 65536) by (unfold lo; dlia).
  assert (Hhi : 0 <= hi < 32768) by (unfold hi; dlia). assert (Hzi : zi = hi * 65536 + lo) by (unfold hi, lo; dlia).
  rewrite (Hop (lo * mult)) by nia. set (p := lo * mult). assert (Hp : 0 <= p < 2147483648) by nia. cbn [mbind option_bind].
  rewrite (Hop (hi * mult)) by nia. set (h := hi * mult). assert (Hh : 0 <= h <= 32767 * 32767) by nia. cbn [mbind option_bind].
  rewrite Z.shiftr_div_pow2 by lia. change (2 ^ 16) with 65536. assert (Hq : 0 <= p / 65536 < 32768) by dlia.
  rewrite (Hop (h + p / 65536)) by lia. cbn [mbind option_bind]. set (t := h + p / 65536). assert (Ht : 0 <= t < 1073741824) by lia.
  rewrite !Z.land_ones, Z.shiftl_mul_pow2, Z.shiftr_div_pow2 by lia. change (2 ^ 16) with 65536. change (2 ^ 15) with 32768.
  set (a := p mod 65536). set (b := t mod 32768). set (c := t / 32768).
  assert (Ha : 0 <= a < 65536) by (unfold a; dlia). assert (Hb : 0 <= b < 32768) by (unfold b; dlia).
  assert (Hc : 0 <= c < 32768) by (unfold c; dlia). assert (Htc : t = c * 32768 + b) by (unfold b, c; dlia).
  assert (Hpa : p = (t - h) * 65536 + a) by (unfold t, a; dlia).
  rewrite (Hop (a - _)), (Hop (b * 65536)) by lia. cbn [mbind option_bind]. do 2 (rewrite Hop by lia; cbn [mbind option_bind]).
  assert (Hprod : mult * zi = c * 2147483647 + (a + b * 65536 + c)).
  { rewrite Hzi. unfold p, h in *. nia. }
  rewrite Hprod, (Z.add_comm (c * _)), Z.mod_add by lia.
  destruct (Z.ltb_spec (a - 2147483647 + b * 65536 + c) 0).
  - rewrite Hop by lia. f_equal. rewrite Z.mod_small by lia. lia.
  - f_equal. rewrite <- (Z.mod_add _ (-1)) by lia. rewrite Z.mod_small by lia. lia.
Qed.

Definition lehmer (z : Z) : Z := (630360016 * z) mod MODLUS.

Lemma lehmer_range z : 0 <= lehmer z < MODLUS.
Proof using Type. by apply Z.mod_pos_bound. Qed.

Lemma next_seed_lehmer zi : 0 <= zi < MODLUS -> next_seed op zi = Some (lehmer zi).
Proof using Hop.
  intros Hz. unfold next_seed. assert (Hr : 0 <= (MULTONE * zi) mod MODLUS < MODLUS) by (by apply Z.mod_pos_bound).
  rewrite (step_mod MULTONE) by (done || unfold MULTONE; lia). cbn [mbind option_bind]. rewrite step_mod by (done || unfold MULTTWO; lia).
  unfold lehmer. rewrite Z.mul_mod_idemp_r by done. do 2 f_equal. unfold MULTONE, MULTTWO. lia.
Qed.

(** The numerator is between 1 and 2^24. *)
Definition quotient (z : Z) : Z := Z.lor (Z.shiftr z 7) 1 + 1.

Lemma quotient_range z : 0 <= z < MODLUS -> 0 < quotient z <= 16777216.
Proof using Type.
  intros Hz. unfold quotient, MODLUS in *. rewrite Z.shiftr_div_pow2 by lia. change (2 ^ 7) with 128.
  set (q := z / 128). assert (Hq : 0 <= q < 16777216) by (unfold q; dlia).
  assert (0 <= Z.lor q 1 <= 16777215); [|lia].
  split; [apply Z.lor_nonneg; lia|]. pose proof (Z.add_lor_land q 1) as H. change 1 with (Z.ones 1) in H at 2.
  rewrite Z.land_ones, Z.pow_1_r in H by lia. dlia.
Qed.

Lemma draw_wp s z Q : 0 <= z < MODLUS -> zrng s !! Z.to_nat (seed s) = Some z ->
  Q tt (mkR (seed s) (<[Z.to_nat (seed s):=lehmer z]> (zrng s)) (quotient (lehmer z))) -> wp (draw op) Q s.
Proof using Hop.
  intros Hr Hz HQ. unfold wp, draw. rewrite Hz. change (default 0 (Some z)) with z. rewrite next_seed_lehmer by done. cbn [mbind option_bind].
  pose proof (quotient_range _ (lehmer_range z)). change (numerator op (lehmer z)) with (op (quotient (lehmer z))). rewrite Hop by lia. exact HQ.
Qed.

(** ** Sequences of calls *)

(** The four system calls, with what [argint] fetches. *)
Inductive rcall :=
  | Random_
  | RandomSet (arg0 : option Z)
  | ChangeSeed (arg0 arg1 : option Z)
  | ActualSeed (arg0 : option Z).

Definition run1 (c : rcall) : M rstate Z :=
  match c with
  | Random_ => sys_random op
  | RandomSet a => sys_random_set op a
  | ChangeSeed a v => sys_change_seed a v
  | ActualSeed a => sys_actual_seed a
  end.

Fixpoint run (cs : list rcall) : M rstate unit :=
  match cs with
  | [] => ret tt
  | c :: cs' => let* _ := run1 c in run cs'
  end.

(** Calls that stay inside of [zrng] and set streams to states of the generator. *)
Definition admissible (c : rcall) : Prop :=
  match c with
  | ChangeSeed (Some a) (Some v) => 0 <= a <= 100 /\ 0 <= v < MODLUS
  | ActualSeed (Some a) => 0 <= a <= 100
  | _ => True
  end.

(** What a sequence of calls means for stream [i]: the stream selected at the end, the
    state stream [i] was last set to, and the draws on it since. *)
Record history := mkHist { selected : Z; start : Z; draws : nat }.

Definition drawn (i : Z) (h : history) : history :=
  if (1 <=? i) && (selected h =? i) then mkHist (selected h) (start h) (S (draws h)) else h.

Definition record (i : Z) (h : history) (c : rcall) : history :=
  match c with
  | Random_ => drawn i (mkHist (Z.max 0 (selected h)) (start h) (draws h))
  | RandomSet (Some a) => drawn i (mkHist a (start h) (draws h))
  | ChangeSeed (Some a) (Some v) => if a =? i then mkHist (selected h) v 0 else h
  | _ => h
  end.

Definition history_of (i : Z) (cs : list rcall) : history :=
  foldl (record i) (mkHist 0 (default 0 (zrng_init !! Z.to_nat i)) 0) cs.

(** The state of a stream after [n] draws. *)
Definition stream (n : nat) (z : Z) : Z := (630360016 ^ Z.of_nat n * z) mod MODLUS.

Lemma stream_S n z : lehmer (stream n z) = stream (S n) z.
Proof using Type.
  unfold lehmer, stream. rewrite Z.mul_mod_idemp_r by done. f_equal. rewrite Nat2Z.inj_succ, Z.pow_succ_r by lia. lia.
Qed.

Lemma stream_range n z : 0 <= stream n z < MODLUS.
Proof using Type. by apply Z.mod_pos_bound. Qed.

(** The state of the generator tells the histories of all streams. *)
Record follows (hs : Z -> history) (s : rstate) : Prop := {
  fo_len : length (zrng s) = 101%nat;
  fo_seed : forall i, selected (hs i) = seed s;
  fo_stream : forall i, 0 <= i <= 100 -> zrng s !! Z.to_nat i = Some (stream (draws (hs i)) (start (hs i)))
}.

Lemma draw_follows hs s Q : follows hs s -> 1 <= seed s <= 100 ->
  (forall s', follows (fun i => drawn i (hs i)) s' -> randomValue s' = quotient (stream (S (draws (hs (seed s)))) (start (hs (seed s)))) -> Q tt s') ->
  wp (draw op) Q s.
Proof using Hop.
  intros [Hl Hs Hz] Hi HQ. pose proof (Hz (seed s) ltac:(lia)) as Hc. eapply draw_wp; [|exact Hc|]; [apply stream_range|].
  rewrite stream_S. apply HQ; [|done]. split; cbn [zrng seed].
  - by rewrite length_insert.
  - intros i. unfold drawn. by destruct (_ && _); simpl.
  - intros i Hr. unfold drawn. rewrite Hs. destruct (Z.eqb_spec (seed s) i) as [<-|Hne].
    + rewrite (proj2 (Z.leb_le _ _)) by lia. cbn [andb]. apply list_lookup_insert_eq. lia.
    + rewrite andb_false_r, list_lookup_insert_ne by lia. by apply Hz.
Qed.

Lemma follows_idle hs hs' s : follows hs s -> (forall i, 0 <= i <= 100 -> hs' i = hs i) -> (forall i, selected (hs' i) = seed s) -> follows hs' s.
Proof using Type. intros [Hl Hs Hz] E Es. split; [done|done|]. intros i Hi. rewrite E by done. by apply Hz. Qed.

(** [if(seed > 0 && seed < 101)], with a draw or without. *)
Lemma in_use_follows hs s Q : follows hs s ->
  (forall s', follows (fun i => drawn i (hs i)) s' ->
     (1 <= seed s <= 100 -> randomValue s' = quotient (stream (S (draws (hs (seed s)))) (start (hs (seed s))))) -> Q tt s') ->
  wp (if in_use s then draw op else ret tt) Q s.
Proof using Hop.
  intros F HQ. unfold in_use. destruct (Z.ltb_spec 0 (seed s)), (Z.ltb_spec (seed s) 101); cbn [andb].
  1: { apply (draw_follows hs); [done|lia|]. auto. }
  all: apply wp_ret, HQ; [|lia]; apply (follows_idle hs); [done| |intros i; unfold drawn; destruct (_ && _); simpl; apply F].
  all: intros i Hi; unfold drawn; rewrite (fo_seed _ _ F); destruct (Z.eqb_spec (seed s) i), (Z.leb_spec 1 i); (done || lia).
Qed.

Lemma random_follows hs s Q : follows hs s ->
  (forall r s', follows (fun i => record i (hs i) Random_) s' ->
     (1 <= seed s <= 100 -> r = quotient (stream (S (draws (hs (seed s)))) (start (hs (seed s))))) -> Q r s') -> wp (sys_random op) Q s.
Proof using Hop.
  intros F HQ. unfold sys_random. apply wp_bind, wp_modify, wp_bind, wp_gets, wp_bind.
  set (s1 := if seed s <=? 0 then mkR 0 (zrng s) (randomValue s) else s).
  assert (E1 : seed s1 = Z.max 0 (seed s) /\ zrng s1 = zrng s) by (unfold s1; destruct (Z.leb_spec (seed s) 0); simpl; split; (done || lia)).
  destruct E1 as [E1 E2]. set (hs1 := fun i => mkHist (Z.max 0 (selected (hs i))) (start (hs i)) (draws (hs i))).
  assert (F1 : follows hs1 s1). { destruct F as [Hl Hs Hz]. split; rewrite ?E1, ?E2; [done|intros i; simpl; by rewrite Hs|exact Hz]. }
  apply (in_use_follows hs1); [done|]. intros s' F' Hv. apply wp_gets, HQ; [exact F'|]. intros Hi. rewrite E1, Z.max_r in Hv by lia. by apply Hv.
Qed.

Lemma run1_follows hs s c : admissible c -> follows hs s -> wp (run1 c) (fun _ => follows (fun i => record i (hs i) c)) s.
Proof using Hop.
  intros Ha F. destruct c as [|[a|]|[a|] [v|]|[a|]]; cbn [run1]; try (by apply wp_ret).
  - by apply (random_follows hs).
  - unfold sys_random_set. apply wp_bind, wp_modify, wp_bind, wp_gets.
    set (s1 := mkR a (zrng s) (randomValue s)). set (hs1 := fun i => mkHist a (start (hs i)) (draws (hs i))).
    assert (F1 : follows hs1 s1) by (destruct F; by split).
    pose proof (in_use_follows hs1 s1 (fun _ => follows (fun i => drawn i (hs1 i))) F1 ltac:(auto)) as H. destruct (in_use s1).
    + apply wp_bind. eapply wp_mono; [exact H|]. intros [] s' F'. by apply wp_ret.
    + by apply wp_ret.
  - cbn [admissible] in Ha. destruct Ha as [Ha Hv]. destruct F as [Hl Hs Hz]. unfold sys_change_seed. apply wp_bind, wp_gets. unfold in_array. rewrite Hl.
    rewrite (proj2 (Z.leb_le _ _)), (proj2 (Z.ltb_lt _ _)) by lia. cbn [andb]. apply wp_bind, wp_modify, wp_ret. split; cbn [zrng seed].
    + by rewrite length_insert.
    + intros i. cbn [record]. by destruct (a =? i); simpl.
    + intros i Hi. cbn [record]. destruct (Z.eqb_spec a i) as [->|Hne].
      * rewrite list_lookup_insert_eq by lia. cbn [draws start]. unfold stream. rewrite Z.mul_1_l, Z.mod_small by done. done.
      * rewrite list_lookup_insert_ne by lia. by apply Hz.
  - cbn [admissible] in Ha. unfold sys_actual_seed. apply wp_bind, wp_gets. unfold in_array. rewrite (fo_len _ _ F).
    rewrite (proj2 (Z.leb_le _ _)), (proj2 (Z.ltb_lt _ _)) by lia. cbn [andb]. by apply wp_gets.
Qed.

Lemma run_follows cs hs s : Forall admissible cs -> follows hs s -> wp (run cs) (fun _ => follows (fun i => foldl (record i) (hs i) cs)) s.
Proof using Hop.
  intros Ha. revert hs s. induction Ha as [|c cs Hc _ IH]; intros hs s F; [by apply wp_ret|]. cbn [run foldl]. apply wp_bind.
  eapply wp_mono; [by apply run1_follows|]. intros r s' F'. exact (IH _ _ F').
Qed.

Lemma init_follows : follows (fun i => history_of i []) r_init.
Proof using Type.
  split; [done|done|]. intros i Hi. assert (Hlt : (Z.to_nat i < length zrng_init)%nat) by (change (length zrng_init) with 101%nat; lia).
  destruct (lookup_lt_is_Some_2 zrng_init _ Hlt) as [z Hz]. cbn [history_of foldl draws start zrng r_init]. rewrite Hz. cbn [default].
  unfold stream. rewrite Z.mul_1_l, Z.mod_small; [done|].
  assert (HF : Forall (fun z => 0 <= z < MODLUS) zrng_init) by (apply (bool_decide_unpack _); by vm_compute).
  rewrite Forall_lookup in HF. eauto.
Qed.
End Generator.

(** C39: the streams are Lehmer generators.  After any sequence of the four system calls
    from boot, in which [change_seed] names streams from 0 to 100 and states from 0 to
    2^31-2 and [actual_seed] names streams from 0 to 100, every stream is in the state
    [630360016^n * z] modulo 2^31-1, where [z] is the state it was last set to and [n] the
    number of draws on it since; draws on the other streams do not touch it.  If one of the
    streams 1 to 100 is selected, [random] takes it one step further and gives the
    numerator made of its state.  None of this depends on what an overflow of the 32-bit arithmetic
    would do ([op]), and [op] may stop the kernel there: there is no overflow. *)
Theorem random_is_lehmer op cs : exact op -> Forall admissible cs -> wp (run op cs) (fun _ s =>
  (forall i, 0 <= i <= 100 -> zrng s !! Z.to_nat i = Some (stream (draws (history_of i cs)) (start (history_of i cs)))) /\
  (forall i, 1 <= i <= 100 -> selected (history_of i cs) = i ->
     wp (sys_random op) (fun r s' => r = quotient (stream (S (draws (history_of i cs))) (start (history_of i cs))) /\
       zrng s' = <[Z.to_nat i:=stream (S (draws (history_of i cs))) (start (history_of i cs))]> (zrng s)) s)) r_init.
Proof.
  intros Hop Ha. eapply wp_mono; [apply (run_follows op Hop cs _ _ Ha init_follows)|]. intros u s F. split; [apply F|].
  intros i Hi Hs. pose proof (fo_seed _ _ F i) as Hseed. pose proof (fo_stream _ _ F i ltac:(lia)) as Hz. cbn beta in Hseed, Hz.
  change (foldl (record i) (history_of i []) cs) with (history_of i cs) in *. rewrite Hs in Hseed. symmetry in Hseed.
  unfold sys_random. apply wp_bind, wp_modify. rewrite (proj2 (Z.leb_gt _ _)) by lia. apply wp_bind, wp_gets.
  unfold in_use. rewrite (proj2 (Z.ltb_lt _ _)), (proj2 (Z.ltb_lt _ _)) by lia. cbn [andb]. apply wp_bind.
  rewrite <- Hseed in Hz at 1. eapply (draw_wp op Hop); [|exact Hz|]; [apply stream_range|]. apply wp_gets. cbn [randomValue zrng].
  by rewrite stream_S, Hseed.
Qed.

(** Stream 1 is drawn from twice, then set to 5 and drawn from again. *)
Definition demo_calls : list rcall := [RandomSet (Some 1); Random_; ChangeSeed (Some 1) (Some 5); Random_].
Lemma random_is_lehmer_witness : wp (run checked demo_calls) (fun _ s => zrng s !! 1%nat = Some ((630360016 * 5) mod MODLUS)) r_init.
Proof.
  eapply wp_mono; [apply (random_is_lehmer checked demo_calls)|].
  - intros x Hx. unfold checked. rewrite (proj2 (Z.leb_le _ _)), (proj2 (Z.ltb_lt _ _)) by lia. reflexivity.
  - unfold demo_calls. repeat constructor; unfold MODLUS; lia.
  - intros [] s [Hz _]. refine (eq_trans (Hz 1 _) _); [lia|reflexivity].
Defined.

(** A state outside of the range, which [sys_change_seed] accepts: the arithmetic
    overflows, and the processor's result is not that of the generator. *)
Lemma change_seed_overflows :
  wp (sys_change_seed (Some 1) (Some (-2147483648))) (fun r s => r = 0 /\ zrng s !! 1%nat = Some (-2147483648)) r_init /\
  next_seed checked (-2147483648) = None /\ next_seed wraps (-2147483648) = Some 1517175917 /\ lehmer (-2147483648) = 1517123631.
Proof. split_and!; by vm_compute. Qed.

(** The quotient of a draw lies between 0 and 1/99: the divisor has two digits more
    than 2^24 = 16777216, the range of the numerator. *)
Lemma random_value_small z : 0 <= z < MODLUS -> 0 < quotient z <= 16777216 /\ 99 * quotient z < denominator.
Proof. intros Hz. pose proof (quotient_range z Hz). unfold denominator. lia. Qed.

(** [sys_change_seed] and [sys_actual_seed] index [zrng] with whatever the user
    passes. *)
Lemma change_seed_unchecked : sys_change_seed (Some (-1)) (Some 7) r_init = Panic "zrng: index out of bounds" /\
  sys_actual_seed (Some 101) r_init = Panic "zrng: index out of bounds".
Proof. split; reflexivity. Qed.
End Random.
