(* ===== verification/Sh.v ===== *)
(** * sh.c: the shell

    [Module Sh] translates the shell: the lexer ([gettoken], [peek]), the recursive
    descent parser ([parseline] to [parseexec]), [nulterminate], [runcmd] and the
    command loop.

    A [char *] into the input line is an index of the buffer [b]; [es] is the end of the
    line.  The parser state is the index [*ps].  The shell's [panic] is [Panic], and a
    recursion that runs out of fuel is [Blocked]; [parse_fuel] is enough for every line
    (ShParse.v).  The tree of commands is a value of [cmd]; the one place where the code
    keeps a second pointer into the tree, the [execcmd] that [parseexec] fills while
    redirections are wrapped around it, is an update below the wrappers ([put_arg]).
    [malloc] is taken to succeed, so that a [cmd] pointer is never null.

    [runcmd] and [main] end in system calls; they are trees of them ([prog]), with a
    branch for what the call returns. *)

From S2P Require Import Prelude CString.

Module Sh.

(** ** Commands *)

Definition MAXARGS : nat := 10.
Definition O_RDONLY : Z := 0.
Definition O_WRONLY : Z := 1.
Definition O_RDWR : Z := 2.
Definition O_CREATE : Z := 512.

Inductive cmd :=
  | EXEC (argv eargv : list (option nat))
  | REDIR (c : cmd) (file efile : nat) (mode fd : Z)
  | PIPE (left right : cmd)
  | LIST (left right : cmd)
  | BACK (c : cmd).

Definition execcmd : cmd := EXEC (replicate MAXARGS None) (replicate MAXARGS None).
Definition redircmd (subcmd : cmd) (file efile : nat) (mode fd : Z) : cmd := REDIR subcmd file efile mode fd.
Definition pipecmd (left right : cmd) : cmd := PIPE left right.
Definition listcmd (left right : cmd) : cmd := LIST left right.
Definition backcmd (subcmd : cmd) : cmd := BACK subcmd.

(** [cmd->argv[argc] = q; cmd->eargv[argc] = eq] on the [execcmd] inside of the
    redirections. *)
Fixpoint put_arg (c : cmd) (argc : nat) (q eq : option nat) : cmd :=
  match c with
  | EXEC argv eargv => EXEC (<[argc:=q]> argv) (<[argc:=eq]> eargv)
  | REDIR c' f ef mode fd => REDIR (put_arg c' argc q eq) f ef mode fd
  | _ => c
  end.

(** ** The lexer *)

Definition whitespace : list Z := [32; 9; 13; 10; 11].
Definition symbols : list Z := bytes "<|>&;()".

Definition strchr_b (s : list Z) (c : Z) : bool := match Str.strchr s c with Some _ => true | None => false end.

(** The character at index [i]; the buffer ends in NUL. *)
Definition char_at (b : list Z) (i : nat) : Z := default 0 (b !! i).

Record token := mkTok { tk_ret : Z; tk_q : nat; tk_eq : nat }.

Section Parser.
Context (b : list Z) (es : nat).

(** [while(s < es && p( *s)) s++;] *)
Fixpoint scan_loop (n : nat) (p : Z -> bool) (s : nat) : nat :=
  match n with
  | O => s
  | S n' => if (s <? es)%nat && p (char_at b s) then scan_loop n' p (S s) else s
  end.
Definition scan (p : Z -> bool) (s : nat) : nat := scan_loop (es - s) p s.

(** The [switch] of [gettoken]: the token that starts at [s], and where it ends. *)
Definition lex (s : nat) : Z * nat :=
  let c := char_at b s in
  if c =? 0 then (0, s)
  else if (c =? 124) || (c =? 40) || (c =? 41) || (c =? 59) || (c =? 38) || (c =? 60) then (c, S s)
  else if c =? 62 then (if char_at b (S s) =? 62 then (43, S (S s)) else (c, S s))
  else (97, scan (fun c => negb (strchr_b whitespace c) && negb (strchr_b symbols c)) s).

Definition gettoken : M nat token := fun ps =>
  let q := scan (strchr_b whitespace) ps in
  let '(r, eq) := lex q in
  Ret (mkTok r q eq) (scan (strchr_b whitespace) eq).

Definition peek (toks : list Z) : M nat bool := fun ps =>
  let s := scan (strchr_b whitespace) ps in
  Ret (negb (char_at b s =? 0) && strchr_b toks (char_at b s)) s.

(** ** The parser

    Every iteration of a loop of the parser consumes a token, so a loop that starts at
    [s] has [S (es - s)] iterations of fuel. *)

Fixpoint parseredirs_loop (n : nat) (c : cmd) : M nat cmd :=
  match n with
  | O => block
  | S n' =>
      let* more := peek (bytes "<>") in
      if more then
        let* tok := gettoken in
        let* w := gettoken in
        if negb (tk_ret w =? 97) then panic "missing file for redirection" else
        parseredirs_loop n'
          (if tk_ret tok =? 60 then redircmd c (tk_q w) (tk_eq w) O_RDONLY 0
           else if tk_ret tok =? 62 then redircmd c (tk_q w) (tk_eq w) (Z.lor O_WRONLY O_CREATE) 1
           else if tk_ret tok =? 43 then redircmd c (tk_q w) (tk_eq w) (Z.lor O_WRONLY O_CREATE) 1
           else c)
      else ret c
  end.
Definition parseredirs (c : cmd) : M nat cmd := fun s => parseredirs_loop (S (es - s)) c s.

(** The [while] loop of [parseexec]: [ret] wraps the [execcmd] being filled. *)
Fixpoint parseargs_loop (n : nat) (r : cmd) (argc : nat) : M nat (cmd * nat) :=
  match n with
  | O => block
  | S n' =>
      let* stop := peek (bytes "|)&;") in
      if stop then ret (r, argc) else
      let* tok := gettoken in
      if tk_ret tok =? 0 then ret (r, argc)
      else if negb (tk_ret tok =? 97) then panic "syntax"
      else
        let r := put_arg r argc (Some (tk_q tok)) (Some (tk_eq tok)) in
        if (MAXARGS <=? S argc)%nat then panic "too many args" else
        let* r := parseredirs r in
        parseargs_loop n' r (S argc)
  end.
Definition parseargs (r : cmd) : M nat (cmd * nat) := fun s => parseargs_loop (S (es - s)) r 0 s.

(** The [while] loop of [parseline]. *)
Fixpoint parseback_loop (n : nat) (c : cmd) : M nat cmd :=
  match n with
  | O => block
  | S n' =>
      let* more := peek (bytes "&") in
      if more then let* _ := gettoken in parseback_loop n' (backcmd c) else ret c
  end.
Definition parseback (c : cmd) : M nat cmd := fun s => parseback_loop (S (es - s)) c s.

(** The four routines of the recursive descent call each other in a circle, which is cut at
    the call of [parseline] in [parseblock]: the first two take what that call does as
    [line], [parsepipe] hands it on, and [parseline] ties the knot with itself. *)
Definition parseblock (line : M nat cmd) : M nat cmd :=
  let* more := peek (bytes "(") in
  if negb more then panic "parseblock" else
  let* _ := gettoken in
  let* c := line in
  let* more := peek (bytes ")") in
  if negb more then panic "syntax - missing )" else
  let* _ := gettoken in
  parseredirs c.

Definition parseexec (line : M nat cmd) : M nat cmd :=
  let* more := peek (bytes "(") in
  if more then parseblock line
  else
    let* r := parseredirs execcmd in
    let* ra := parseargs r in
    ret (put_arg (fst ra) (snd ra) None None).

Fixpoint parsepipe (line : M nat cmd) (fuel : nat) : M nat cmd :=
  match fuel with
  | O => block
  | S f =>
      let* c := parseexec line in
      let* more := peek (bytes "|") in
      if more then
        let* _ := gettoken in
        let* r := parsepipe line f in
        ret (pipecmd c r)
      else ret c
  end.

Fixpoint parseline (fuel : nat) : M nat cmd :=
  match fuel with
  | O => block
  | S f =>
      let* c := parsepipe (parseline f) f in
      let* c := parseback c in
      let* more := peek (bytes ";") in
      if more then
        let* _ := gettoken in
        let* r := parseline f in
        ret (listcmd c r)
      else ret c
  end.
End Parser.

(** [for(i=0; ecmd->argv[i]; i++) *ecmd->eargv[i] = 0;] *)
Fixpoint nulterminate_args (argv eargv : list (option nat)) (b : list Z) : list Z :=
  match argv, eargv with
  | Some _ :: argv', Some e :: eargv' => nulterminate_args argv' eargv' (<[e:=0]> b)
  | _, _ => b
  end.

Fixpoint nulterminate (c : cmd) (b : list Z) : list Z :=
  match c with
  | EXEC argv eargv => nulterminate_args argv eargv b
  | REDIR c' file efile mode fd => <[efile:=0]> (nulterminate c' b)
  | PIPE cl cr => nulterminate cr (nulterminate cl b)
  | LIST cl cr => nulterminate cr (nulterminate cl b)
  | BACK c' => nulterminate c' b
  end.

(** How [parsecmd] ends: with a command and the buffer it points into, with the panic
    for the leftovers of the line (printed before), with a panic of the parser. *)
Inductive parsed :=
  | Parsed (c : cmd) (b : list Z)
  | Leftovers (text : list Z)
  | SyntaxError (msg : string)
  | NoFuel.

Definition parse_fuel (es : nat) : nat := (es + 2)%nat.

Definition parsecmd (b : list Z) : parsed :=
  let es := Z.to_nat (Str.strlen b) in
  match (let* c := parseline b es (parse_fuel es) in let* _ := peek b es [] in ret c) 0%nat with
  | Ret c s => if (s =? es)%nat then Parsed c (nulterminate c b) else Leftovers (Str.cstr (drop s b))
  | Panic msg => SyntaxError msg
  | Blocked => NoFuel
  end.

(** ** Running commands *)

(** Programs as trees of system calls.  [PExec] goes on only if [exec] fails; [PPrintf]
    is a message on descriptor 2. *)
Inductive prog :=
  | PExit
  | PExec (path : list Z) (argv : list (list Z)) (k : prog)
  | PPrintf (msg : list Z) (k : prog)
  | PClose (fd : Z) (k : prog)
  | POpen (file : list Z) (mode : Z) (k : Z -> prog)
  | PFork (k : Z -> prog)
  | PWait (k : prog)
  | PPipe (k : option (Z * Z) -> prog)
  | PDup (fd : Z) (k : prog)
  | PChdir (path : list Z) (k : Z -> prog).

(** The [panic] of sh.c. *)
Definition sh_panic (s : list Z) : prog := PPrintf (s ++ [10]) PExit.

Definition fork1 (k : Z -> prog) : prog :=
  PFork (fun pid => if pid =? -1 then sh_panic (bytes "fork") else k pid).

(** The string a [char *] points to, and the strings of an [argv]. *)
Definition str_at (b : list Z) (q : nat) : list Z := Str.cstr (drop q b).
Fixpoint strings (b : list Z) (argv : list (option nat)) : list (list Z) :=
  match argv with
  | Some q :: argv' => str_at b q :: strings b argv'
  | _ => []
  end.

Fixpoint runcmd (b : list Z) (c : cmd) : prog :=
  match c with
  | EXEC argv _ =>
      match strings b argv with
      | [] => PExit
      | path :: args =>
          PExec path (path :: args) (PPrintf (bytes "exec " ++ path ++ bytes " failed" ++ [10]) PExit)
      end
  | REDIR c' file _ mode fd =>
      PClose fd (POpen (str_at b file) mode (fun r =>
        if r <? 0 then PPrintf (bytes "open " ++ str_at b file ++ bytes " failed" ++ [10]) PExit
        else runcmd b c'))
  | LIST cl cr =>
      fork1 (fun pid => if pid =? 0 then runcmd b cl else PWait (runcmd b cr))
  | PIPE cl cr =>
      PPipe (fun p =>
        match p with
        | None => sh_panic (bytes "pipe")
        | Some (p0, p1) =>
            fork1 (fun pid =>
              if pid =? 0 then PClose 1 (PDup p1 (PClose p0 (PClose p1 (runcmd b cl))))
              else fork1 (fun pid =>
                if pid =? 0 then PClose 0 (PDup p0 (PClose p0 (PClose p1 (runcmd b cr))))
                else PClose p0 (PClose p1 (PWait (PWait PExit)))))
        end)
  | BACK c' => fork1 (fun pid => if pid =? 0 then runcmd b c' else PExit)
  end.

(** [runcmd(parsecmd(buf))]. *)
Definition run_line (buf : list Z) : prog :=
  match parsecmd buf with
  | Parsed c b => runcmd b c
  | Leftovers text => PPrintf (bytes "leftovers: " ++ text ++ [10]) (sh_panic (bytes "syntax"))
  | SyntaxError msg => sh_panic (bytes msg)
  | NoFuel => PExit
  end.

(** [getcmd]: the line buffer after [gets], and the rest of the input; [None] is the
    return value -1. *)
Definition nbuf : Z := 100.
Definition getcmd (input : list Z) : option (list Z) * list Z :=
  let '(buf, rest) := Str.gets (replicate (Z.to_nat nbuf) 0) nbuf input in
  (if char_at buf 0 =? 0 then None else Some buf, rest).

Definition is_cd (buf : list Z) : bool :=
  (char_at buf 0 =? 99) && (char_at buf 1 =? 100) && (char_at buf 2 =? 32).

(** The loop of [main], on the bytes the standard input will deliver.  Each line read
    consumes at least one of them. *)
Fixpoint main_loop (fuel : nat) (input : list Z) : prog :=
  match fuel with
  | O => PExit
  | S fuel' =>
      PPrintf (bytes "$ ")
        (match getcmd input with
         | (None, _) => PExit
         | (Some buf, rest) =>
             if is_cd buf then
               let buf := <[Z.to_nat (Str.strlen buf - 1):=0]> buf in
               PChdir (str_at buf 3) (fun r =>
                 if r <? 0 then PPrintf (bytes "cannot cd " ++ str_at buf 3 ++ [10]) (main_loop fuel' rest)
                 else main_loop fuel' rest)
             else fork1 (fun pid => if pid =? 0 then run_line buf else PWait (main_loop fuel' rest))
         end)
  end.

(** [while((fd = open("console", O_RDWR)) >= 0)]: an [open] that returns less than 3
    takes one of the descriptors 0 to 2, so the fourth one leaves the loop. *)
Fixpoint open_console (n : nat) (k : prog) : prog :=
  match n with
  | O => k
  | S n' => POpen (bytes "console") O_RDWR (fun fd =>
              if fd <? 0 then k else if 3 <=? fd then PClose fd k else open_console n' k)
  end.

Definition main (input : list Z) : prog := open_console 4 (main_loop (S (length input)) input).

End Sh.
