(* ===== verification/ShParse.v ===== *)
(** * sh.c: the parser terminates, and its words are words of the line

    For every line [parsecmd] ends; when it returns a command, the words of the command
    are exactly the words of the line, and its strings after [nulterminate] are these
    words: no terminator is written into another word. *)

From S2P Require Import Prelude CString Sh.

Module ShParse.
Import Sh.

(** ** How a routine of the parser ends

    [ends pan blk m Q s]: [m] returns in [Q], or panics and [pan], or runs out of fuel
    and [blk]. *)
Definition ends {A} (pan blk : Prop) (m : M nat A) (Q : A -> nat -> Prop) (s : nat) : Prop :=
  match m s with
  | Ret a s' => Q a s'
  | Panic _ => pan
  | Blocked => blk
  end.

Section Ends.
Context {pan blk : Prop}.

Lemma ends_ret {A} (a : A) (Q : A -> nat -> Prop) s : Q a s -> ends pan blk (ret a) Q s.
Proof. done. Qed.

Lemma ends_panic {A} msg (Q : A -> nat -> Prop) s : pan -> ends pan blk (panic msg) Q s.
Proof. done. Qed.

Lemma ends_bind {A B} (m : M nat A) (k : A -> M nat B) Q s :
  ends pan blk m (fun a s' => ends pan blk (k a) Q s') s -> ends pan blk (bind m k) Q s.
Proof. unfold ends, bind. by destruct (m s). Qed.

Lemma ends_mono {A} (m : M nat A) (P Q : A -> nat -> Prop) s :
  ends pan blk m P s -> (forall a s', P a s' -> Q a s') -> ends pan blk m Q s.
Proof. unfold ends. destruct (m s); auto. Qed.
End Ends.

(** ** The lexer *)

Lemma strchr_b_elem t c : 0 ∉ t -> strchr_b t c = true <-> c ∈ t.
Proof.
  unfold strchr_b. induction t as [|x t IH]; simpl; intros H0.
  - split; [done|]. intros []%not_elem_of_nil.
  - apply not_elem_of_cons in H0 as [Hx Ht]. specialize (IH Ht). rewrite elem_of_cons.
    destruct (Z.eqb_spec x 0) as [|_]; [congruence|]. destruct (Z.eqb_spec x c) as [->|Hne]; [tauto|].
    destruct (Str.strchr t c); simpl; split; intros H; (done || naive_solver).
Qed.

Definition wordchar (c : Z) : bool := negb (strchr_b whitespace c) && negb (strchr_b symbols c) && negb (c =? 0).

Lemma wordchar_nonzero c : wordchar c = true -> c <> 0.
Proof. by intros H ->. Qed.

(** [es] is the end of the line in [b]. *)
Record line_at (b : list Z) (es : nat) : Prop := {
  la_len : (es < length b)%nat;
  la_end : char_at b es = 0;
  la_in : forall i, (i < es)%nat -> char_at b i <> 0;
}.

Lemma strlen_line b : 0 ∈ b -> line_at b (Z.to_nat (Str.strlen b)).
Proof.
  induction b as [|c b IH]; [by intros []%not_elem_of_nil|]. intros Hin. simpl. destruct (Z.eqb_spec c 0) as [->|Hc].
  - split; [simpl; lia|done|intros i Hi; simpl in Hi; lia].
  - rewrite elem_of_cons in Hin. destruct Hin as [E|Hin]; [congruence|]. destruct (IH Hin) as [H1 H2 H3].
    rewrite Str.strlen_cstr in *. replace (Z.to_nat (1 + Z.of_nat (length (Str.cstr b)))) with (S (Z.to_nat (Z.of_nat (length (Str.cstr b))))) by lia.
    split; [simpl; lia|done|]. intros [|i] Hi; [done|]. apply H3. lia.
Qed.

Section Lexer.
Context (b : list Z) (es : nat) (Hline : line_at b es).

Lemma scan_loop_spec n p s : (es - s <= n)%nat ->
  let e := scan_loop b es n p s in
  (s <= e <= s + n)%nat /\ ((s <= es)%nat -> (e <= es)%nat) /\
  (forall i, (s <= i < e)%nat -> p (char_at b i) = true) /\ ((e < es)%nat -> p (char_at b e) = false).
Proof using Type.
  revert s. induction n as [|n IH]; intros s Hn; cbn [scan_loop].
  - split_and!; lia.
  - destruct (Nat.ltb_spec s es); simpl; [|split_and!; lia].
    destruct (p (char_at b s)) eqn:Hp; [|split_and!; [lia..| |done]; intros; lia].
    destruct (IH (S s)) as (H1 & H2 & H3 & H4); [lia|]. split_and!; [lia|lia|lia| |done].
    intros i Hi. destruct (decide (i = s)) as [->|]; [done|]. apply H3. lia.
Qed.

Lemma scan_spec p s : (s <= es)%nat ->
  let e := scan b es p s in
  (s <= e <= es)%nat /\ (forall i, (s <= i < e)%nat -> p (char_at b i) = true) /\ ((e < es)%nat -> p (char_at b e) = false).
Proof using Type.
  intros Hs. destruct (scan_loop_spec (es - s) p s) as (H1 & H2 & H3 & H4); [lia|]. cbv zeta. unfold scan. split_and!; auto; lia.
Qed.

(** The indices [q] to [e] delimit a word of the line: a run of word characters that cannot
    be extended on either side. *)
Definition word_at (q e : nat) : Prop :=
  (q < e <= es)%nat /\ (forall i, (q <= i < e)%nat -> wordchar (char_at b i) = true) /\ wordchar (char_at b e) = false /\
  ((0 < q)%nat -> wordchar (char_at b (q - 1)) = false).

(** [W] are the words that start from [s] on and before [s'], each of them once. *)
Definition between (W : list (nat * nat)) (s s' : nat) : Prop :=
  NoDup W /\ forall w, w ∈ W <-> word_at w.1 w.2 /\ (s <= w.1 < s')%nat.

(** The position [s] is not inside of a word. *)
Definition outside (s : nat) : Prop :=
  wordchar (char_at b s) = true -> (0 < s)%nat -> wordchar (char_at b (s - 1)) = false.

Lemma between_nil s s' : (forall i, (s <= i < s')%nat -> wordchar (char_at b i) = false) -> between [] s s'.
Proof using Type.
  intros H. split; [constructor|]. intros [q e]. cbn [fst snd]. split; [by intros ?%not_elem_of_nil|].
  intros [(Hq & Hin & _) Hr]. specialize (H q Hr). rewrite Hin in H by lia. done.
Qed.

Lemma between_refl s : between [] s s.
Proof using Type. apply between_nil. lia. Qed.

Lemma between_join W W1 W2 s s1 s2 : W ≡ₚ W1 ++ W2 -> between W1 s s1 -> between W2 s1 s2 -> (s <= s1 <= s2)%nat -> between W s s2.
Proof using Type.
  intros HW [N1 H1] [N2 H2] Hs. split.
  - rewrite HW. apply NoDup_app. split_and!; [done| |done]. intros w [_ ?]%H1 [_ ?]%H2. lia.
  - intros w. rewrite HW, elem_of_app, H1, H2. split; [intros [[? ?]|[? ?]]; split; (done || lia)|].
    intros [Hw ?]. destruct (decide (w.1 < s1)%nat); [left|right]; split; (done || lia).
Qed.

Lemma between_after W s s1 s2 : between W s s1 -> between [] s1 s2 -> (s <= s1 <= s2)%nat -> between W s s2.
Proof using Type. apply between_join. by rewrite app_nil_r. Qed.

Lemma between_before W s s1 s2 : between [] s s1 -> between W s1 s2 -> (s <= s1 <= s2)%nat -> between W s s2.
Proof using Type. by apply between_join. Qed.

(** A word is the only one that starts before its end. *)
Lemma between_word q e : word_at q e -> between [(q, e)] q e.
Proof using Type.
  intros (Hq & Hin & He & Hl). split; [apply NoDup_singleton|]. intros [q' e']. rewrite list_elem_of_singleton. cbn [fst snd]. split.
  - intros [= -> ->]. split; [exact (conj Hq (conj Hin (conj He Hl)))|lia].
  - intros [(Hq' & Hin' & He' & Hl') Hr]. assert (q' = q) as ->.
    { destruct (decide (q' = q)); [done|]. rewrite Hin in Hl' by lia. discriminate Hl'. lia. }
    f_equal. destruct (decide (e' < e)%nat); [rewrite Hin in He' by lia; done|].
    destruct (decide (e < e')%nat); [rewrite Hin' in He by lia; done|]. lia.
Qed.

Lemma char_end s : (s <= es)%nat -> char_at b s <> 0 -> (s < es)%nat.
Proof using Hline.
  intros Hs Hc. destruct (decide (s = es)) as [->|]; [|lia]. by rewrite (la_end _ _ Hline) in Hc.
Qed.

(** The first character that [gettoken] does not skip is not in [whitespace], and the
    [switch] covers all of [symbols]. *)
Lemma strchr_b_ws0 : strchr_b whitespace 0 = false.
Proof. done. Qed.

Lemma symbols_cases c : strchr_b symbols c = true ->
  c = 60 \/ c = 124 \/ c = 62 \/ c = 38 \/ c = 59 \/ c = 40 \/ c = 41.
Proof.
  rewrite strchr_b_elem by (compute_done). change symbols with [60; 124; 62; 38; 59; 40; 41].
  rewrite !elem_of_cons, elem_of_nil. tauto.
Qed.

Lemma white_not_word c : strchr_b whitespace c = true -> wordchar c = false.
Proof using Type. intros H. unfold wordchar. by rewrite H. Qed.

Lemma symbol_not_word c : strchr_b symbols c = true -> wordchar c = false.
Proof using Type. intros H. unfold wordchar. by rewrite H, andb_false_r. Qed.

Lemma symbol_elem c : c ∈ symbols -> wordchar c = false.
Proof using Type. intros H. apply symbol_not_word, strchr_b_elem; [compute_done|done]. Qed.

(** Skipping white space skips no word. *)
Lemma scan_white s : (s <= es)%nat -> outside s ->
  let q := scan b es (strchr_b whitespace) s in (s <= q <= es)%nat /\ strchr_b whitespace (char_at b q) = false /\ outside q /\ between [] s q.
Proof using Hline.
  intros Hs Ho q. destruct (scan_spec (strchr_b whitespace) s Hs) as (H1 & H2 & H3). fold q in H1, H2, H3. split_and!; [lia|lia| | |].
  - destruct (decide (q = es)) as [E|]; [rewrite E, (la_end _ _ Hline); done|apply H3; lia].
  - destruct (decide (q = s)) as [->|]; [done|]. intros _ _. apply white_not_word, H2. lia.
  - apply between_nil. intros i Hi. by apply white_not_word, H2.
Qed.

(** What [gettoken] finds between [s] and [e]: a word if it returns 97, no word otherwise. *)
Definition token_words (r : Z) (q e : nat) : list (nat * nat) := if r =? 97 then [(q, e)] else [].

Lemma lex_spec s : (s <= es)%nat -> strchr_b whitespace (char_at b s) = false -> outside s ->
  let '(r, e) := lex b es s in
  (s <= e <= es)%nat /\ (char_at b s <> 0 -> (s < e)%nat /\ r <> 0) /\ (char_at b s = 0 -> r = 0) /\ (r = 97 -> word_at s e) /\
  (strchr_b symbols (char_at b s) = true -> r <> 97) /\ outside e /\ between (token_words r s e) s e.
Proof using Hline.
  intros Hs Hws Ho. unfold lex. destruct (Z.eqb_spec (char_at b s) 0) as [H0|H0].
  { split_and!; try (done || lia). apply between_refl. }
  pose proof (char_end s Hs H0) as Hlt.
  destruct ((char_at b s =? 124) || (char_at b s =? 40) || (char_at b s =? 41) || (char_at b s =? 59)
    || (char_at b s =? 38) || (char_at b s =? 60)) eqn:Hsym.
  { assert (Hel : char_at b s ∈ symbols).
    { change symbols with [60; 124; 62; 38; 59; 40; 41]. rewrite !orb_true_iff, !Z.eqb_eq in Hsym. rewrite !elem_of_cons. naive_solver. }
    assert (Hn : char_at b s <> 97) by (intros E; by rewrite E in Hsym). unfold token_words. rewrite (proj2 (Z.eqb_neq _ 97) Hn).
    split_and!; [lia|lia|intros; split; [lia|done]|done|done|done| |].
    - intros _ _. replace (S s - 1)%nat with s by lia. by apply symbol_elem.
    - apply between_nil. intros i Hi. replace i with s by lia. by apply symbol_elem. }
  destruct (Z.eqb_spec (char_at b s) 62) as [Hgt|Hgt].
  { assert (Hw : wordchar (char_at b s) = false) by (rewrite Hgt; done).
    destruct (Z.eqb_spec (char_at b (S s)) 62) as [Hg2|Hg2].
    - assert (S s < es)%nat by (apply char_end; [lia|congruence]). assert (Hw2 : wordchar (char_at b (S s)) = false) by (rewrite Hg2; done).
      split_and!; [lia|lia|intros; split; [lia|done]|done|done|done| |].
      + intros _ _. by replace (S (S s) - 1)%nat with (S s) by lia.
      + apply between_nil. intros i Hi. destruct (decide (i = s)) as [->|]; [done|]. by replace i with (S s) by lia.
    - rewrite Hgt. split_and!; [lia|lia|intros; split; [lia|done]|done|done|done| |].
      + intros _ _. by replace (S s - 1)%nat with s by lia.
      + apply between_nil. intros i Hi. by replace i with s by lia. }
  set (p := fun c => negb (strchr_b whitespace c) && negb (strchr_b symbols c)).
  assert (Hns : strchr_b symbols (char_at b s) = false).
  { destruct (strchr_b symbols (char_at b s)) eqn:E; [|done]. apply symbols_cases in E. rewrite !orb_false_iff, !Z.eqb_neq in Hsym. lia. }
  assert (Hp : p (char_at b s) = true) by (unfold p; by rewrite Hws, Hns).
  destruct (scan_spec p s Hs) as (H1 & H2 & H3). assert (Hprog : scan b es p s <> s).
  { intros E. rewrite E in H3. rewrite Hp in H3. discriminate H3. done. }
  assert (Hin : forall i, (s <= i < scan b es p s)%nat -> wordchar (char_at b i) = true).
  { intros i Hi. unfold wordchar. specialize (H2 i Hi). unfold p in H2. rewrite H2. simpl.
    destruct (Z.eqb_spec (char_at b i) 0) as [E|]; [|done]. exfalso. apply (la_in _ _ Hline i); [lia|done]. }
  assert (Hend : wordchar (char_at b (scan b es p s)) = false).
  { destruct (decide (scan b es p s = es)) as [->|].
    + by rewrite (la_end _ _ Hline).
    + change (p (char_at b (scan b es p s)) && negb (char_at b (scan b es p s) =? 0) = false). by rewrite H3 by lia. }
  assert (Hw : word_at s (scan b es p s)) by (split_and!; [lia|lia|done|done|apply Ho, Hin; lia]).
  split_and!; [lia|lia|split; [lia|done]|done|done|by rewrite Hns| |by apply between_word].
  intros Hc. by rewrite Hend in Hc.
Qed.

Lemma gettoken_spec pan blk s Q : (s <= es)%nat -> outside s ->
  (forall t s', (s <= tk_q t <= tk_eq t)%nat -> (tk_eq t <= s' <= es)%nat ->
     (tk_ret t <> 0 -> (s < s')%nat) -> (tk_ret t = 97 -> word_at (tk_q t) (tk_eq t)) ->
     outside s' -> between (token_words (tk_ret t) (tk_q t) (tk_eq t)) s s' -> Q t s') ->
  ends pan blk (gettoken b es) Q s.
Proof using Hline.
  intros Hs Ho HQ. unfold ends, gettoken. destruct (scan_white s Hs Ho) as (H1 & Hws & Hoq & Hb).
  set (q := scan b es (strchr_b whitespace) s) in *.
  pose proof (lex_spec q ltac:(lia) Hws Hoq) as Hl. destruct (lex b es q) as [r e]. destruct Hl as (L1 & L2 & L3 & L4 & _ & Hoe & Hbe).
  destruct (scan_white e ltac:(lia) Hoe) as (K1 & _ & Ho' & Hb'). apply HQ; cbn [tk_ret tk_q tk_eq]; [lia|lia| |done|done|].
  - intros Hr. destruct (decide (char_at b q = 0)) as [E|E]; [by rewrite (L3 E) in Hr|]. destruct (L2 E). lia.
  - eapply between_before; [exact Hb| |lia]. eapply between_after; [exact Hbe|done|lia].
Qed.

(** A [peek] that finds something leaves the position at a character, so the next
    [gettoken] consumes it. *)
Lemma peek_spec pan blk toks s Q : (s <= es)%nat -> outside s ->
  (forall r s', (s <= s' <= es)%nat -> outside s' -> between [] s s' ->
     (r = true -> (s' < es)%nat /\ char_at b s' <> 0 /\ strchr_b toks (char_at b s') = true /\ strchr_b whitespace (char_at b s') = false) -> Q r s') ->
  ends pan blk (peek b es toks) Q s.
Proof using Hline.
  intros Hs Ho HQ. unfold ends, peek. destruct (scan_white s Hs Ho) as (H1 & Hws & Hoq & Hb).
  apply HQ; [lia|done|done|]. rewrite andb_true_iff, negb_true_iff, Z.eqb_neq. intros [Hc Ht].
  pose proof (char_end _ (proj2 H1) Hc) as Hlt. split_and!; auto.
Qed.

(** A redirection: [<], [>] or [>>]. *)
Lemma lex_redir s : strchr_b (bytes "<>") (char_at b s) = true -> (lex b es s).1 = 60 \/ (lex b es s).1 = 62 \/ (lex b es s).1 = 43.
Proof using Type.
  rewrite strchr_b_elem by compute_done. change (bytes "<>") with [60; 62]. rewrite !elem_of_cons, elem_of_nil. unfold lex.
  intros [->|[->|[]]]; [by left|]. destruct (char_at b (S s) =? 62); simpl; auto.
Qed.

(** The symbols the parser peeks for are no words. *)
Lemma gettoken_peeked pan blk toks s Q : (s < es)%nat /\ char_at b s <> 0 /\ strchr_b toks (char_at b s) = true /\ strchr_b whitespace (char_at b s) = false ->
  Forall (fun c => c ∈ symbols) toks -> outside s ->
  (forall t s', tk_ret t = (lex b es s).1 -> (s < s' <= es)%nat -> outside s' -> between [] s s' -> Q t s') -> ends pan blk (gettoken b es) Q s.
Proof using Hline.
  intros (Hs & Hc & Ht & Hws) Hsym Ho HQ. unfold ends, gettoken. destruct (scan_white s ltac:(lia) Ho) as (H1 & _ & Hoq & Hb).
  set (q := scan b es (strchr_b whitespace) s) in *. assert (Hq : q = s).
  { destruct (decide (q = s)) as [|Hne]; [done|]. destruct (scan_spec (strchr_b whitespace) s ltac:(lia)) as (_ & H2 & _).
    fold q in H2. specialize (H2 s ltac:(lia)). congruence. }
  rewrite Hq in *. pose proof (lex_spec s ltac:(lia) Hws Ho) as Hl. destruct (lex b es s) as [r e]. destruct Hl as (L1 & L2 & _ & _ & L5 & Hoe & Hbe).
  assert (Hsc : strchr_b symbols (char_at b s) = true).
  { apply strchr_b_elem; [compute_done|]. rewrite Forall_forall in Hsym. apply Hsym, strchr_b_elem; [|done].
    intros H0. specialize (Hsym 0 H0). revert Hsym. compute_done. }
  unfold token_words in Hbe. rewrite (proj2 (Z.eqb_neq r 97) (L5 Hsc)) in Hbe.
  destruct (scan_white e ltac:(lia) Hoe) as (K1 & _ & Ho' & Hb'). apply HQ; [done|destruct (L2 Hc); lia|done|]. eapply between_after; [exact Hbe|done|lia].
Qed.
End Lexer.

(** ** The commands the parser builds *)

(** The [execcmd] with the arguments [ws]. *)
Definition exec_with (ws : list (nat * nat)) : cmd :=
  EXEC (((fun w => Some w.1) <$> ws) ++ replicate (MAXARGS - length ws) None)
       (((fun w => Some w.2) <$> ws) ++ replicate (MAXARGS - length ws) None).

Definition redir_mode (mode fd : Z) : Prop := (mode = 0 /\ fd = 0) \/ (mode = 513 /\ fd = 1).

(** The words of a command. *)
Fixpoint exec_words (argv eargv : list (option nat)) : list (nat * nat) :=
  match argv, eargv with
  | Some q :: argv', Some e :: eargv' => (q, e) :: exec_words argv' eargv'
  | _, _ => []
  end.

Fixpoint cmd_words (c : cmd) : list (nat * nat) :=
  match c with
  | EXEC argv eargv => exec_words argv eargv
  | REDIR c' f ef _ _ => cmd_words c' ++ [(f, ef)]
  | PIPE cl cr => cmd_words cl ++ cmd_words cr
  | LIST cl cr => cmd_words cl ++ cmd_words cr
  | BACK c' => cmd_words c'
  end.

Lemma exec_words_with (ws : list (nat * nat)) n :
  exec_words (((fun w => Some w.1) <$> ws) ++ replicate n None) (((fun w => Some w.2) <$> ws) ++ replicate n None) = ws.
Proof. induction ws as [|[q e] ws IH]; [by destruct n|]. rewrite !fmap_cons. cbn [app exec_words fst snd]. by rewrite IH. Qed.

Section Commands.
Context (b : list Z) (es : nat).

(** All words of the command are words of the line, an [argv] is NULL-terminated. *)
Inductive cmd_ok : cmd -> Prop :=
  | ok_exec ws : (length ws < MAXARGS)%nat -> Forall (fun w => word_at b es w.1 w.2) ws -> cmd_ok (exec_with ws)
  | ok_redir c f ef mode fd : cmd_ok c -> word_at b es f ef -> redir_mode mode fd -> cmd_ok (REDIR c f ef mode fd)
  | ok_pipe c1 c2 : cmd_ok c1 -> cmd_ok c2 -> cmd_ok (PIPE c1 c2)
  | ok_list c1 c2 : cmd_ok c1 -> cmd_ok c2 -> cmd_ok (LIST c1 c2)
  | ok_back c : cmd_ok c -> cmd_ok (BACK c).

(** An [execcmd] with the arguments [ws] so far, inside of redirections. *)
Inductive filling (ws : list (nat * nat)) : cmd -> Prop :=
  | fill_exec : filling ws (exec_with ws)
  | fill_redir c f ef mode fd : filling ws c -> word_at b es f ef -> redir_mode mode fd -> filling ws (REDIR c f ef mode fd).

Lemma filling_ok ws c : (length ws < MAXARGS)%nat -> Forall (fun w => word_at b es w.1 w.2) ws -> filling ws c -> cmd_ok c.
Proof. intros Hl Hw. induction 1; constructor; auto. Qed.

Lemma insert_arg {A} (g : nat * nat -> A) ws (w : nat * nat) : (length ws < MAXARGS)%nat ->
  <[length ws:=Some (g w)]> (((fun w => Some (g w)) <$> ws) ++ replicate (MAXARGS - length ws) None) =
  ((fun w => Some (g w)) <$> ws ++ [w]) ++ replicate (MAXARGS - length (ws ++ [w])) None.
Proof.
  intros Hl. rewrite fmap_app, <- app_assoc, length_app, insert_app_r_alt by (rewrite length_fmap; lia).
  rewrite length_fmap, Nat.sub_diag. f_equal. simpl. replace (MAXARGS - length ws)%nat with (S (MAXARGS - (length ws + 1))) by lia. done.
Qed.

Lemma insert_none {A} (g : nat * nat -> A) ws : (length ws < MAXARGS)%nat ->
  <[length ws:=None]> (((fun w => Some (g w)) <$> ws) ++ replicate (MAXARGS - length ws) None) =
  ((fun w => Some (g w)) <$> ws) ++ replicate (MAXARGS - length ws) None.
Proof.
  intros Hl. rewrite insert_app_r_alt by (rewrite length_fmap; lia). rewrite length_fmap, Nat.sub_diag. f_equal.
  by replace (MAXARGS - length ws)%nat with (S (MAXARGS - S (length ws))) by lia.
Qed.

Lemma filling_put ws c q e : (length ws < MAXARGS)%nat -> filling ws c ->
  filling (ws ++ [(q, e)]) (put_arg c (length ws) (Some q) (Some e)).
Proof.
  intros Hl. induction 1 as [|c f ef mode fd Hf IH Hw Hm]; [|by constructor]. unfold exec_with. cbn [put_arg].
  pose proof (insert_arg fst ws (q, e) Hl) as E1. pose proof (insert_arg snd ws (q, e) Hl) as E2. cbn [fst snd] in E1, E2.
  rewrite E1, E2. constructor.
Qed.

Lemma filling_end ws c : (length ws < MAXARGS)%nat -> filling ws c -> put_arg c (length ws) None None = c.
Proof.
  intros Hl. induction 1 as [|c f ef mode fd Hf IH Hw Hm]; cbn [put_arg]; [|by rewrite IH]. unfold exec_with. cbn [put_arg].
  by rewrite (insert_none fst), (insert_none snd).
Qed.

Lemma filling_words ws c q e : (length ws < MAXARGS)%nat -> filling ws c ->
  cmd_words (put_arg c (length ws) (Some q) (Some e)) ≡ₚ cmd_words c ++ [(q, e)].
Proof.
  intros Hl. induction 1 as [|c f ef mode fd Hf IH Hw Hm].
  - unfold exec_with. cbn [put_arg cmd_words]. pose proof (insert_arg fst ws (q, e) Hl) as E1. pose proof (insert_arg snd ws (q, e) Hl) as E2. cbn [fst snd] in E1, E2.
    by rewrite E1, E2, !exec_words_with.
  - cbn [put_arg cmd_words]. rewrite IH, <- !app_assoc. apply Permutation_app_head, Permutation_app_comm.
Qed.
End Commands.

(** ** Termination and well-formedness *)

Section Parser.
Context (b : list Z) (es : nat) (Hline : line_at b es).

(** The routine returns at a position from [s] on that is not inside of a word, with a
    result in [P], or panics; it does not run out of fuel. *)
Definition parses {A} (m : M nat A) (P : A -> nat -> Prop) (s : nat) : Prop :=
  ends True False m (fun a s' => P a s' /\ outside b s' /\ (s <= s' <= es)%nat) s.

(** A command with the words of the line from [s] to [s']. *)
Definition has_words (s : nat) (P : cmd -> Prop) (c : cmd) (s' : nat) : Prop := P c /\ between b es (cmd_words c) s s'.

Ltac symbol := apply (bool_decide_unpack _); by vm_compute.

Lemma has_words_after s s1 s2 (P : cmd -> Prop) c : has_words s P c s1 -> between b es [] s1 s2 -> (s <= s1 <= s2)%nat -> has_words s P c s2.
Proof using Type. intros [HP Hb] Hn Hs. split; [done|]. by eapply between_after. Qed.

Lemma has_words_before s s1 s2 (P : cmd -> Prop) c : between b es [] s s1 -> has_words s1 P c s2 -> (s <= s1 <= s2)%nat -> has_words s P c s2.
Proof using Type. intros Hn [HP Hb] Hs. split; [done|]. by eapply between_before. Qed.

Lemma parseredirs_loop_parses (P : cmd -> Prop) n c s0 s :
  (forall c f ef mode fd, P c -> word_at b es f ef -> redir_mode mode fd -> P (REDIR c f ef mode fd)) ->
  has_words s0 P c s -> outside b s -> (s0 <= s <= es)%nat -> (es - s < n)%nat -> parses (parseredirs_loop b es n c) (has_words s0 P) s.
Proof using Hline.
  intros HP. revert c s. induction n as [|n IH]; intros c s Hc Ho Hs Hn; [lia|]. cbn [parseredirs_loop].
  apply ends_bind, (peek_spec _ _ Hline); [lia|done|]. intros more s1 H1 Ho1 B1 Hm. pose proof (has_words_after _ _ _ _ _ Hc B1 ltac:(lia)) as Hc1.
  destruct more; [|by apply ends_ret]. specialize (Hm eq_refl).
  apply ends_bind, (gettoken_peeked _ _ Hline _ _ _ _ _ Hm); [symbol|done|]. intros t s2 Et H2 Ho2 B2.
  apply ends_bind, (gettoken_spec _ _ Hline); [lia|done|]. intros w s3 H3 H4 H5 H6 Ho3 B3.
  destruct (Z.eqb_spec (tk_ret w) 97) as [Ha|]; simpl; [|by apply ends_panic]. specialize (H6 Ha). unfold token_words in B3. rewrite (proj2 (Z.eqb_eq _ 97) Ha) in B3.
  destruct (has_words_after _ _ _ _ _ Hc1 B2 ltac:(lia)) as [Hp Hb].
  eapply ends_mono; [apply IH; [|done|lia|lia]|simpl; intros a s' (Ha' & Ho' & Hs'); split_and!; (done || lia)].
  assert (Hnew : forall mode fd, redir_mode mode fd -> has_words s0 P (redircmd c (tk_q w) (tk_eq w) mode fd) s3).
  { intros mode fd Hmode. split; [by apply HP|]. eapply between_join; [|exact Hb|exact B3|lia]. done. }
  destruct (Z.eqb_spec (tk_ret t) 60); [apply Hnew; by left|]. destruct (Z.eqb_spec (tk_ret t) 62); [apply Hnew; by right|].
  destruct (Z.eqb_spec (tk_ret t) 43); [apply Hnew; by right|]. rewrite Et in *. destruct (lex_redir b es s1) as [?|[?|?]]; [apply Hm|done..].
Qed.

Lemma parseargs_loop_parses n ws c s0 s : (length ws < MAXARGS)%nat -> Forall (fun w => word_at b es w.1 w.2) ws ->
  has_words s0 (filling b es ws) c s -> outside b s -> (s0 <= s <= es)%nat -> (es - s < n)%nat ->
  parses (parseargs_loop b es n c (length ws)) (fun ra => has_words s0 (cmd_ok b es) (put_arg ra.1 ra.2 None None)) s.
Proof using Hline.
  revert ws c s. induction n as [|n IH]; intros ws c s Hl Hw Hf Ho Hs Hn; [lia|]. cbn [parseargs_loop].
  assert (Hend : forall s', has_words s0 (filling b es ws) c s' -> has_words s0 (cmd_ok b es) (put_arg c (length ws) None None) s').
  { intros s' [Hfi Hb]. rewrite (filling_end b es) by done. split; [by eapply filling_ok|done]. }
  apply ends_bind, (peek_spec _ _ Hline); [lia|done|]. intros stop s1 H1 Ho1 B1 _. pose proof (has_words_after _ _ _ _ _ Hf B1 ltac:(lia)) as Hf1.
  destruct stop; [apply ends_ret; auto|]. apply ends_bind, (gettoken_spec _ _ Hline); [lia|done|]. intros t s2 H2 H3 H4 H5 Ho2 B2.
  destruct (Z.eqb_spec (tk_ret t) 0) as [H0|Hne].
  { rewrite H0 in B2. apply ends_ret. split_and!; [|done|lia..]. apply Hend. by eapply has_words_after; [|exact B2|lia]. }
  destruct (Z.eqb_spec (tk_ret t) 97) as [Ha|]; cbn [negb]; [|by apply ends_panic].
  destruct (Nat.leb_spec MAXARGS (S (length ws))); [by apply ends_panic|].
  specialize (H4 Hne). specialize (H5 Ha). unfold token_words in B2. rewrite (proj2 (Z.eqb_eq _ 97) Ha) in B2. destruct Hf1 as [Hf1 Hb1].
  apply ends_bind. unfold parseredirs.
  eapply ends_mono; [apply (parseredirs_loop_parses (filling b es (ws ++ [(tk_q t, tk_eq t)])) _ _ s0)|].
  - intros. by constructor.
  - split; [by apply filling_put|]. eapply between_join; [by eapply filling_words|exact Hb1|exact B2|lia].
  - done.
  - lia.
  - lia.
  - simpl. intros c' s3 (Hf' & Ho3 & Hs3). assert (Hlen : length (ws ++ [(tk_q t, tk_eq t)]) = S (length ws)) by (rewrite length_app; simpl; lia).
    rewrite <- Hlen. eapply ends_mono; [apply IH|simpl; intros a s' (? & ? & ?); split_and!; (done || lia)]; try (done || lia).
    apply Forall_app_2; [done|]. by constructor.
Qed.

Lemma parseback_loop_parses n c s0 s : has_words s0 (cmd_ok b es) c s -> outside b s -> (s0 <= s <= es)%nat -> (es - s < n)%nat ->
  parses (parseback_loop b es n c) (has_words s0 (cmd_ok b es)) s.
Proof using Hline.
  revert c s. induction n as [|n IH]; intros c s Hc Ho Hs Hn; [lia|]. cbn [parseback_loop].
  apply ends_bind, (peek_spec _ _ Hline); [lia|done|]. intros more s1 H1 Ho1 B1 Hm. pose proof (has_words_after _ _ _ _ _ Hc B1 ltac:(lia)) as Hc1.
  destruct more; [|by apply ends_ret].
  apply ends_bind, (gettoken_peeked _ _ Hline _ _ _ _ _ (Hm eq_refl)); [symbol|done|]. intros t s2 _ H2 Ho2 B2.
  destruct (has_words_after _ _ _ _ _ Hc1 B2 ltac:(lia)) as [Hok Hb].
  eapply ends_mono; [apply IH; [by split; [constructor|]|done|lia|lia]|]. simpl. intros a s' (? & ? & ?). split_and!; (done || lia).
Qed.

(** The recursive descent.  [parseblock] calls [parseline] after the parenthesis, so it is
    enough that the call works from every later position. *)
Definition line_parses (line : M nat cmd) (s : nat) : Prop :=
  forall s', (s < s' <= es)%nat -> outside b s' -> parses line (has_words s' (cmd_ok b es)) s'.

Lemma parseblock_parses line s : (s <= es)%nat -> outside b s -> line_parses line s -> parses (parseblock b es line) (has_words s (cmd_ok b es)) s.
Proof using Hline.
  intros Hs Ho IHl. unfold parseblock.
  apply ends_bind, (peek_spec _ _ Hline); [lia|done|]. intros more s1 H1 Ho1 B1 Hm. destruct more; simpl; [|by apply ends_panic].
  apply ends_bind, (gettoken_peeked _ _ Hline _ _ _ _ _ (Hm eq_refl)); [symbol|done|]. intros t s2 _ H2 Ho2 B2.
  apply ends_bind. eapply ends_mono; [apply IHl; [lia|done]|]. intros c s3 (Hc & Ho3 & H3).
  apply ends_bind, (peek_spec _ _ Hline); [lia|done|]. intros more' s4 H4 Ho4 B4 Hm'. destruct more'; simpl; [|by apply ends_panic].
  apply ends_bind, (gettoken_peeked _ _ Hline _ _ _ _ _ (Hm' eq_refl)); [symbol|done|]. intros t' s5 _ H5 Ho5 B5.
  assert (B12 : between b es [] s s2) by (by eapply between_after; [exact B1|exact B2|lia]).
  assert (B45 : between b es [] s3 s5) by (by eapply between_after; [exact B4|exact B5|lia]).
  unfold parseredirs. eapply ends_mono; [apply (parseredirs_loop_parses (cmd_ok b es) _ _ s); [by constructor| |done|lia|lia]|].
  - eapply has_words_after; [|exact B45|lia]. eapply has_words_before; [exact B12|exact Hc|lia].
  - intros a s' (? & ? & ?). split_and!; (done || lia).
Qed.

Lemma parseexec_parses line s : (s <= es)%nat -> outside b s -> line_parses line s -> parses (parseexec b es line) (has_words s (cmd_ok b es)) s.
Proof using Hline.
  intros Hs Ho IHl. unfold parseexec.
  apply ends_bind, (peek_spec _ _ Hline); [lia|done|]. intros more s1 H1 Ho1 B1 _. destruct more.
  { eapply ends_mono; [apply parseblock_parses; [lia|done|intros s' ?; apply IHl; lia]|]. intros c s2 (Hc & Ho2 & H2).
    split_and!; [by eapply has_words_before; [exact B1|exact Hc|lia]|done|lia..]. }
  apply ends_bind. unfold parseredirs. eapply ends_mono; [apply (parseredirs_loop_parses (filling b es []) _ _ s); [|split; [constructor|exact B1]|done|lia|lia]|].
  { intros. by constructor. }
  intros r s2 (Hr & Ho2 & H2). apply ends_bind. unfold parseargs.
  eapply ends_mono; [apply (parseargs_loop_parses _ [] _ s); [unfold MAXARGS; simpl; lia|constructor|done|done|lia|lia]|].
  intros ra s3 (Hra & Ho3 & H3). apply ends_ret. split_and!; (done || lia).
Qed.

Lemma parsepipe_parses line f s : (s <= es)%nat -> outside b s -> (es - s < f)%nat -> line_parses line s ->
  parses (parsepipe b es line f) (has_words s (cmd_ok b es)) s.
Proof using Hline.
  revert s. induction f as [|f IH]; intros s Hs Ho Hf IHl; [lia|]. cbn [parsepipe].
  apply ends_bind. eapply ends_mono; [by apply parseexec_parses|]. intros c s1 (Hc & Ho1 & H1).
  apply ends_bind, (peek_spec _ _ Hline); [lia|done|]. intros more s3 H3 Ho3 B3 Hm. pose proof (has_words_after _ _ _ _ _ Hc B3 ltac:(lia)) as Hc3.
  destruct more; [|apply ends_ret; split_and!; (done || lia)].
  apply ends_bind, (gettoken_peeked _ _ Hline _ _ _ _ _ (Hm eq_refl)); [symbol|done|]. intros t s4 _ H4 Ho4 B4.
  apply ends_bind. eapply ends_mono; [apply IH; [lia|done|lia|intros s' ?; apply IHl; lia]|].
  intros r s5 ([Hr Hb] & Ho5 & H5). destruct (has_words_after _ _ _ _ _ Hc3 B4 ltac:(lia)) as [Hok Hb4]. apply ends_ret. split_and!; [|done|lia..].
  split; [by constructor|]. by eapply between_join; [|exact Hb4|exact Hb|lia].
Qed.

(** A pipeline has at most one command per character, and each level of parentheses
    consumes one. *)
Lemma parseline_parses f s : (s <= es)%nat -> outside b s -> (es - s + 2 <= f)%nat -> parses (parseline b es f) (has_words s (cmd_ok b es)) s.
Proof using Hline.
  revert s. induction f as [|f IH]; intros s Hs Ho Hf; [lia|]. cbn [parseline].
  apply ends_bind. eapply ends_mono; [apply parsepipe_parses; [lia|done|lia|intros s' ? ?; apply IH; (done || lia)]|]. intros c s1 (Hc & Ho1 & H1).
  apply ends_bind. unfold parseback. eapply ends_mono; [apply (parseback_loop_parses _ _ s); [done|done|lia|lia]|]. intros c' s2 (Hc' & Ho2 & H2).
  apply ends_bind, (peek_spec _ _ Hline); [lia|done|]. intros more s3 H3 Ho3 B3 Hm. pose proof (has_words_after _ _ _ _ _ Hc' B3 ltac:(lia)) as Hc3.
  destruct more; [|apply ends_ret; split_and!; (done || lia)].
  apply ends_bind, (gettoken_peeked _ _ Hline _ _ _ _ _ (Hm eq_refl)); [symbol|done|]. intros t s4 _ H4 Ho4 B4.
  apply ends_bind. eapply ends_mono; [apply IH; [lia|done|lia]|]. intros r s5 ([Hr Hb] & Ho5 & H5).
  destruct (has_words_after _ _ _ _ _ Hc3 B4 ltac:(lia)) as [Hok Hb4]. apply ends_ret. split_and!; [|done|lia..].
  split; [by constructor|]. by eapply between_join; [|exact Hb4|exact Hb|lia].
Qed.
End Parser.

(** ** NUL termination *)

(** Commands with the strings in place of pointers. *)
Inductive tree :=
  | TExec (argv : list (list Z))
  | TRedir (t : tree) (file : list Z) (mode fd : Z)
  | TPipe (tl tr : tree)
  | TList (tl tr : tree)
  | TBack (t : tree).

(** What [runcmd] sees: C strings in the buffer. *)
Fixpoint view (b : list Z) (c : cmd) : tree :=
  match c with
  | EXEC argv _ => TExec (strings b argv)
  | REDIR c' f _ mode fd => TRedir (view b c') (str_at b f) mode fd
  | PIPE cl cr => TPipe (view b cl) (view b cr)
  | LIST cl cr => TList (view b cl) (view b cr)
  | BACK c' => TBack (view b c')
  end.

(** What the lexer delimited: the bytes between the two pointers of a word. *)
Definition word_text (b : list Z) (q e : nat) : list Z := window b q (e - q).

Fixpoint lexed (b : list Z) (c : cmd) : tree :=
  match c with
  | EXEC argv eargv => TExec ((fun w => word_text b w.1 w.2) <$> exec_words argv eargv)
  | REDIR c' f ef mode fd => TRedir (lexed b c') (word_text b f ef) mode fd
  | PIPE cl cr => TPipe (lexed b cl) (lexed b cr)
  | LIST cl cr => TList (lexed b cl) (lexed b cr)
  | BACK c' => TBack (lexed b c')
  end.

(** The positions [nulterminate] writes to. *)
Fixpoint word_ends (c : cmd) : list nat :=
  match c with
  | EXEC argv eargv => snd <$> exec_words argv eargv
  | REDIR c' _ ef _ _ => word_ends c' ++ [ef]
  | PIPE cl cr => word_ends cl ++ word_ends cr
  | LIST cl cr => word_ends cl ++ word_ends cr
  | BACK c' => word_ends c'
  end.

Definition nul_at (l : list nat) (b : list Z) : list Z := foldl (fun b e => <[e:=0]> b) b l.

Lemma nulterminate_args_ends argv eargv b : nulterminate_args argv eargv b = nul_at (snd <$> exec_words argv eargv) b.
Proof.
  revert eargv b. induction argv as [|[q|] argv IH]; intros [|[e|] eargv] b; simpl; done || apply IH.
Qed.

Lemma nulterminate_ends c b : nulterminate c b = nul_at (word_ends c) b.
Proof.
  revert b. induction c as [argv eargv|c IH f ef mode fd|cl IHl cr IHr|cl IHl cr IHr|c IH]; intros b; simpl; [apply nulterminate_args_ends|..|done].
  - unfold nul_at. rewrite foldl_app. simpl. by rewrite IH.
  - unfold nul_at. rewrite foldl_app, IHr, IHl. done.
  - unfold nul_at. rewrite foldl_app, IHr, IHl. done.
Qed.

Lemma length_nul_at l b : length (nul_at l b) = length b.
Proof. revert b. induction l as [|e l IH]; intros b; simpl; [done|]. by rewrite IH, length_insert. Qed.

Lemma nul_at_other l b i : i ∉ l -> nul_at l b !! i = b !! i.
Proof.
  revert b. induction l as [|e l IH]; intros b Hi; simpl; [done|]. apply not_elem_of_cons in Hi as [? ?].
  rewrite IH by done. by rewrite list_lookup_insert_ne.
Qed.

Lemma nul_at_end l b i : i ∈ l \/ b !! i = Some 0 -> (i < length b)%nat -> nul_at l b !! i = Some 0.
Proof.
  revert b. induction l as [|e l IH]; intros b Hi Hlt; simpl; [destruct Hi as [[]%not_elem_of_nil|]; done|].
  apply IH; [|by rewrite length_insert]. rewrite elem_of_cons in Hi. destruct (decide (e = i)) as [->|Hne].
  - right. by rewrite list_lookup_insert_eq.
  - rewrite list_lookup_insert_ne by done. naive_solver.
Qed.

Lemma cstr_take t n : (n < length t)%nat -> (forall i, (i < n)%nat -> default 0 (t !! i) <> 0) -> t !! n = Some 0 ->
  Str.cstr t = take n t.
Proof.
  revert n. induction t as [|c t IH]; intros n Hn Hin Hend; simpl in Hn; [lia|]. destruct n as [|n].
  - simpl in Hend. simplify_eq. done.
  - simpl. pose proof (Hin O ltac:(lia)) as Hc. simpl in Hc. destruct (Z.eqb_spec c 0); [done|]. f_equal. apply IH; [lia| |done].
    intros i Hi. apply (Hin (S i)). lia.
Qed.

Section Terminated.
Context (b : list Z) (es : nat) (Hline : line_at b es).

(** A word whose end is terminated reads as that word, whatever other words of the line
    are terminated. *)
Lemma str_at_word l q e : Forall (fun e' => wordchar (char_at b e') = false) l -> e ∈ l -> word_at b es q e ->
  str_at (nul_at l b) q = word_text b q e.
Proof using Hline.
  intros Hl He (Hq & Hin & _ & _). pose proof (la_len _ _ Hline). unfold str_at, word_text, window.
  assert (Hsame : forall i, (i < e - q)%nat -> drop q (nul_at l b) !! i = drop q b !! i).
  { intros i Hi. rewrite !lookup_drop. apply nul_at_other. intros Hbad. rewrite Forall_forall in Hl.
    specialize (Hl _ Hbad). rewrite Hin in Hl by lia. done. }
  rewrite (cstr_take _ (e - q)).
  - apply list_eq. intros i. destruct (decide (i < e - q)%nat).
    + rewrite !lookup_take_lt by done. by apply Hsame.
    + rewrite !lookup_take_ge by lia. done.
  - rewrite length_drop, length_nul_at. lia.
  - intros i Hi. rewrite Hsame by done. rewrite lookup_drop. specialize (Hin (q + i)%nat ltac:(lia)). by apply wordchar_nonzero.
  - rewrite lookup_drop. replace (q + (e - q))%nat with e by lia. apply nul_at_end; [by left|lia].
Qed.

Lemma strings_with b' ws n :
  strings b' (((fun w => Some w.1) <$> ws) ++ replicate n None) = (fun w => str_at b' w.1) <$> (ws : list (nat * nat)).
Proof using Type. induction ws as [|[q e] ws IH]; [by destruct n|]. rewrite !fmap_cons. cbn [app strings fst]. by rewrite IH. Qed.

Lemma word_ends_ok c : cmd_ok b es c -> Forall (fun e => wordchar (char_at b e) = false) (word_ends c).
Proof using Type.
  induction 1 as [ws Hl Hw|c f ef mode fd Hc IH Hf Hm|c1 c2 H1 IH1 H2 IH2|c1 c2 H1 IH1 H2 IH2|c Hc IH]; simpl; rewrite ?Forall_app; auto.
  - rewrite exec_words_with, Forall_fmap. eapply Forall_impl; [exact Hw|]. intros [q e] (_ & _ & H & _). done.
  - split; [done|]. constructor; [apply Hf|constructor].
Qed.

Lemma view_nul_at c l : Forall (fun e => wordchar (char_at b e) = false) l -> cmd_ok b es c -> word_ends c ⊆ l ->
  view (nul_at l b) c = lexed b c.
Proof using Hline.
  intros Hl. induction 1 as [ws Hlen Hw|c f ef mode fd Hc IH Hf Hm|c1 c2 H1 IH1 H2 IH2|c1 c2 H1 IH1 H2 IH2|c Hc IH]; simpl; intros Hsub.
  - rewrite strings_with, exec_words_with. rewrite exec_words_with in Hsub. f_equal. apply list_fmap_ext. intros i [q e] Hi.
    rewrite Forall_forall in Hw. apply list_elem_of_lookup_2 in Hi. apply str_at_word; [done| |by apply (Hw (q, e))].
    apply Hsub. rewrite list_elem_of_fmap. by exists (q, e).
  - rewrite IH by set_solver. f_equal. apply str_at_word; [done|set_solver|done].
  - rewrite IH1, IH2 by set_solver. done.
  - rewrite IH1, IH2 by set_solver. done.
  - by rewrite IH.
Qed.
End Terminated.

Lemma parsecmd_sound b : 0 ∈ b ->
  match parsecmd b with
  | Parsed c b' => cmd_ok b (Z.to_nat (Str.strlen b)) c /\ between b (Z.to_nat (Str.strlen b)) (cmd_words c) 0 (Z.to_nat (Str.strlen b)) /\
      view b' c = lexed b c /\ length b' = length b
  | NoFuel => False
  | _ => True
  end.
Proof.
  intros H0. pose proof (strlen_line b H0) as Hline. unfold parsecmd. set (es := Z.to_nat (Str.strlen b)) in *.
  assert (H : ends True False (let* c := parseline b es (parse_fuel es) in let* _ := peek b es [] in ret c)
    (has_words b es 0 (cmd_ok b es)) 0%nat).
  { apply ends_bind. eapply ends_mono; [apply (parseline_parses b es Hline); [lia|intros _ ?; lia|unfold parse_fuel; lia]|]. intros c s (Hc & Ho & Hs).
    apply ends_bind, (peek_spec _ _ Hline); [lia|done|]. intros r s' Hs' _ Hb _. apply ends_ret. eapply has_words_after; [exact Hc|exact Hb|lia]. }
  unfold ends in H. destruct ((let* c := parseline b es (parse_fuel es) in let* _ := peek b es [] in ret c) 0%nat) as [c s|msg|]; try done.
  destruct (Nat.eqb_spec s es) as [->|]; [|done]. destruct H as [Hok Hb]. rewrite nulterminate_ends. split_and!; [done|done| |by rewrite length_nul_at].
  apply (view_nul_at b es Hline); [by apply (word_ends_ok b es)|done|done].
Qed.

(** C24: for every line the parser of the shell ends, with a command or an error message.
    When it returns a command, the words of the command (arguments and file names) are the
    words of the line, each of them once: a word of the line is a run of characters that are
    neither white space nor symbols which cannot be extended on either side.  After
    [nulterminate] every string of the command is exactly its word, at most nine arguments
    stand before the NULL of an argument array, and the buffer keeps its length. *)
Theorem parsecmd_total b : 0 ∈ b ->
  match parsecmd b with
  | Parsed c b' =>
      let es := Z.to_nat (Str.strlen b) in
      NoDup (cmd_words c) /\ (forall q e, (q, e) ∈ cmd_words c <-> word_at b es q e) /\
      cmd_ok b es c /\ view b' c = lexed b c /\ length b' = length b
  | NoFuel => False
  | _ => True
  end.
Proof.
  intros H0. pose proof (parsecmd_sound b H0) as H. destruct (parsecmd b) as [c b'| | |]; try done. destruct H as (Hok & [Hn Hb] & Hv & Hl).
  split_and!; [done| |done..]. intros q e. rewrite (Hb (q, e)). cbn [fst snd]. split; [tauto|]. intros Hw. split; [done|]. destruct Hw as [? _]. lia.
Qed.

Definition demo_line : list Z := bytes "ls -l < a | (cat ; wc) > b &" ++ [10; 0; 0; 0].
Lemma parsecmd_total_witness : exists c b', parsecmd demo_line = Parsed c b' /\ view b' c = lexed demo_line c /\ length (cmd_words c) = 6%nat.
Proof.
  assert (H0 : 0 ∈ demo_line) by compute_done.
  pose proof (parsecmd_total demo_line H0) as H. destruct (parsecmd demo_line) as [c b'|t|m|] eqn:E; [|vm_compute in E; discriminate..].
  exists c, b'. split; [done|]. split; [apply H|]. vm_compute in E. injection E as <- _. reflexivity.
Defined.

End ShParse.
