(* ===== verification/ShSpec.v ===== *)
(** * sh.c: the language of the shell and how commands run

    [line], [pipeline] and [exec] are the grammar of the shell.  [parsecmd_print]: the
    parser reads the text of any line of the grammar back as the command it stands for.
    [sh_runs_line]: running that command starts the programs of the line, each with
    exactly the standard descriptors the line asks for. *)

From S2P Require Import Prelude CString Sh ShParse.

Module ShSpec.
Import Sh ShParse.

(** ** The grammar *)

Inductive rkind := RIn | ROut | RAppend.
Record redir := mkRedir { r_kind : rkind; r_file : list Z }.

(** [LSeq p n l] is [p & ... & ; l] with [n] ampersands. *)
Inductive line :=
  | LEnd (p : pipeline) (n : nat)
  | LSeq (p : pipeline) (n : nat) (l : line)
with pipeline :=
  | POne (e : exec)
  | PBar (e : exec) (p : pipeline)
with exec :=
  | EBlock (l : line) (rs : list redir)
  | ESimple (rs : list redir) (args : list (list Z * list redir)).

Scheme line_mut := Induction for line Sort Prop
  with pipeline_mut := Induction for pipeline Sort Prop
  with exec_mut := Induction for exec Sort Prop.
Combined Scheme grammar_ind from line_mut, pipeline_mut, exec_mut.

Definition r_text (k : rkind) : list Z := match k with RIn => [60] | ROut => [62] | RAppend => [62; 62] end.
Definition r_mode (k : rkind) : Z := match k with RIn => 0 | _ => 513 end.
Definition r_fd (k : rkind) : Z := match k with RIn => 0 | _ => 1 end.

(** The command a line stands for. *)
Definition redirect (t : tree) (rs : list redir) : tree :=
  foldl (fun t r => TRedir t (r_file r) (r_mode (r_kind r)) (r_fd (r_kind r))) t rs.
Definition args_redirs (args : list (list Z * list redir)) : list redir := concat (snd <$> args).

Fixpoint line_tree (l : line) : tree :=
  match l with
  | LEnd p n => Nat.iter n TBack (pipeline_tree p)
  | LSeq p n l => TList (Nat.iter n TBack (pipeline_tree p)) (line_tree l)
  end
with pipeline_tree (p : pipeline) : tree :=
  match p with
  | POne e => exec_tree e
  | PBar e p => TPipe (exec_tree e) (pipeline_tree p)
  end
with exec_tree (e : exec) : tree :=
  match e with
  | EBlock l rs => redirect (line_tree l) rs
  | ESimple rs args => redirect (TExec (fst <$> args)) (rs ++ args_redirs args)
  end.

(** Words are nonempty, an [argv] has room for its terminator. *)
Definition is_word (w : list Z) : Prop := w <> [] /\ Forall (fun c => wordchar c = true) w.
Definition redirs_wf (rs : list redir) : Prop := Forall (fun r => is_word (r_file r)) rs.

Fixpoint line_wf (l : line) : Prop :=
  match l with
  | LEnd p n => pipeline_wf p
  | LSeq p n l => pipeline_wf p /\ line_wf l
  end
with pipeline_wf (p : pipeline) : Prop :=
  match p with
  | POne e => exec_wf e
  | PBar e p => exec_wf e /\ pipeline_wf p
  end
with exec_wf (e : exec) : Prop :=
  match e with
  | EBlock l rs => line_wf l /\ redirs_wf rs
  | ESimple rs args => redirs_wf rs /\ (length args < MAXARGS)%nat /\ Forall (fun a => is_word a.1 /\ redirs_wf a.2) args
  end.

(** The text of a line; [sp] is the white space written after each token. *)
Section Print.
Context (sp : list Z).

Definition tokn (x : list Z) : list Z := x ++ sp.
Definition print_redirs (rs : list redir) : list Z := concat ((fun r => tokn (r_text (r_kind r)) ++ tokn (r_file r)) <$> rs).
Definition print_args (args : list (list Z * list redir)) : list Z := concat ((fun a => tokn a.1 ++ print_redirs a.2) <$> args).
Definition print_backs (n : nat) : list Z := concat (replicate n (tokn [38])).

Fixpoint print_line (l : line) : list Z :=
  match l with
  | LEnd p n => print_pipeline p ++ print_backs n
  | LSeq p n l => print_pipeline p ++ print_backs n ++ tokn [59] ++ print_line l
  end
with print_pipeline (p : pipeline) : list Z :=
  match p with
  | POne e => print_exec e
  | PBar e p => print_exec e ++ tokn [124] ++ print_pipeline p
  end
with print_exec (e : exec) : list Z :=
  match e with
  | EBlock l rs => tokn [40] ++ print_line l ++ tokn [41] ++ print_redirs rs
  | ESimple rs args => print_redirs rs ++ print_args args
  end.
End Print.

(** ** The lexer on printed text *)

Section Text.
Context (sp text tl : list Z).
Context (Hsp : Forall (fun c => strchr_b whitespace c = true) sp) (Hne : sp <> []).
Notation b := (text ++ 0 :: tl).
Notation es := (length text).

(** What is left of the text at [p]. *)
Definition at_pos (p : nat) (t : list Z) : Prop := exists pre, text = pre ++ t /\ length pre = p.

(** The text starts with a token, or is empty. *)
Definition norm (t : list Z) : Prop := match t with [] => True | c :: _ => strchr_b whitespace c = false end.

Lemma at_pos_app p x t : at_pos p (x ++ t) -> at_pos (p + length x) t.
Proof. intros (pre & E & <-). exists (pre ++ x). by rewrite <- app_assoc, length_app. Qed.

Lemma at_pos_len p t : at_pos p t -> (p + length t = es)%nat.
Proof. intros (pre & E & <-). rewrite E, length_app. lia. Qed.

Lemma at_pos_char p t : at_pos p t -> char_at b p = hd 0 t.
Proof.
  intros (pre & E & <-). unfold char_at. rewrite E, <- app_assoc, lookup_app_r, Nat.sub_diag by lia. by destruct t.
Qed.

Lemma at_pos_text p x t : at_pos p (x ++ t) -> word_text b p (p + length x) = x.
Proof.
  intros (pre & E & <-). unfold word_text, window. rewrite E, <- !app_assoc, drop_app_length.
  replace (length pre + length x - length pre)%nat with (length x) by lia. apply take_app_length.
Qed.

Lemma at_pos_text' p x t : at_pos p (tokn sp x ++ t) -> word_text b p (p + length x) = x.
Proof. unfold tokn. rewrite <- app_assoc. apply at_pos_text. Qed.

Lemma scan_text pr p x t : at_pos p (x ++ t) -> Forall (fun c => pr c = true) x -> (t = [] \/ pr (hd 0 t) = false) ->
  scan b es pr p = (p + length x)%nat.
Proof.
  intros Hp Hx Ht. unfold scan. assert (Hn : (es - p = length x + length t)%nat) by (apply at_pos_len in Hp; rewrite length_app in Hp; lia).
  rewrite Hn. clear Hn. revert p Hp. induction Hx as [|c x Hc Hx IH]; intros p Hp; simpl.
  - rewrite Nat.add_0_r. destruct t as [|c t]; simpl; [done|]. pose proof (at_pos_char _ _ Hp) as E. simpl in E. rewrite E.
    destruct Ht as [|Ht]; [done|]. simpl in Ht. rewrite Ht, andb_false_r. done.
  - pose proof (at_pos_char _ _ Hp) as E. simpl in E. rewrite E, Hc. pose proof (at_pos_len _ _ Hp) as Hl. simpl in Hl.
    destruct (Nat.ltb_spec p es); [|lia]. simpl. apply (at_pos_app p [c]) in Hp. simpl in Hp. rewrite Nat.add_1_r in Hp. rewrite IH by done. lia.
Qed.

Lemma norm_hd t : norm t -> t = [] \/ strchr_b whitespace (hd 0 t) = false.
Proof. destruct t; [by left|by right]. Qed.

Lemma scan_norm p t : at_pos p t -> norm t -> scan b es (strchr_b whitespace) p = p.
Proof. intros Hp Ht. rewrite (scan_text _ p [] t); [simpl; lia|done|done|by apply norm_hd]. Qed.

(** The text of a token, and what [gettoken] returns for it. *)
Inductive token_text : list Z -> Z -> Prop :=
  | tt_word w : is_word w -> token_text w 97
  | tt_sym c : c ∈ symbols -> token_text [c] c
  | tt_append : token_text [62; 62] 43.

Lemma wordchar_ws c : wordchar c = true -> strchr_b whitespace c = false.
Proof. unfold wordchar. by destruct (strchr_b whitespace c). Qed.

Lemma wordchar_sym c : wordchar c = true -> strchr_b symbols c = false.
Proof. unfold wordchar. rewrite !andb_true_iff. intros [[_ H] _]. by apply negb_true_iff. Qed.

Lemma in_symbols c : c ∈ symbols <-> strchr_b symbols c = true.
Proof. symmetry. apply strchr_b_elem. compute_done. Qed.

Lemma token_norm x r t : token_text x r -> norm (x ++ t).
Proof.
  destruct 1 as [w [Hw Hc]|c Hc|]; simpl; [|..|done].
  - destruct Hc; [done|]. by apply wordchar_ws.
  - apply in_symbols, symbols_cases in Hc. by destruct_or! Hc; subst c.
Qed.

Lemma sp_hd t : exists c sp', sp ++ t = c :: sp' ++ t /\ strchr_b whitespace c = true.
Proof using Hsp Hne. destruct Hsp as [|c sp' Hc]; [done|]. by exists c, sp'. Qed.

Lemma lex_word p w t : at_pos p (w ++ sp ++ t) -> is_word w -> lex b es p = (97, (p + length w)%nat).
Proof using Hsp Hne.
  intros Hp [Hw Hc]. pose proof (at_pos_char _ _ Hp) as E. destruct w as [|c w]; [done|]. simpl in E.
  pose proof (Forall_inv Hc) as H1. unfold lex. rewrite E.
  assert (Hns : forall x, x ∈ symbols -> (c =? x) = false).
  { intros x Hx. apply Z.eqb_neq. intros ->. apply in_symbols in Hx. rewrite wordchar_sym in Hx; done. }
  destruct (Z.eqb_spec c 0) as [->|_]; [done|]. rewrite !Hns by (unfold symbols; compute_done). cbn [orb].
  rewrite (scan_text _ p (c :: w) (sp ++ t)); [done|done| |].
  - eapply Forall_impl; [exact Hc|]. simpl. intros x Hx. by rewrite (wordchar_ws _ Hx), (wordchar_sym _ Hx).
  - right. destruct (sp_hd t) as (c' & sp' & -> & Hws). simpl. by rewrite Hws.
Qed.

Lemma lex_token p x r t : at_pos p (x ++ sp ++ t) -> token_text x r -> lex b es p = (r, (p + length x)%nat).
Proof using Hsp Hne.
  intros Hp Hx. destruct Hx as [w Hw|c Hc|]; [by apply (lex_word p w t)|..]; pose proof (at_pos_char _ _ Hp) as E; simpl in E.
  - pose proof (at_pos_char _ _ (at_pos_app p [c] _ Hp)) as E2. simpl in E2. destruct (sp_hd t) as (c' & sp' & Eq & Hws).
    rewrite Eq, Nat.add_1_r in E2. simpl in E2. unfold lex. rewrite E, E2. simpl length. rewrite Nat.add_1_r.
    apply in_symbols, symbols_cases in Hc. destruct_or! Hc; subst c; try done. simpl.
    destruct (Z.eqb_spec c' 62) as [->|]; [|done]. done.
  - pose proof (at_pos_char _ _ (at_pos_app p [62] _ Hp)) as E2. simpl in E2. rewrite Nat.add_1_r in E2.
    unfold lex. rewrite E, E2. simpl. f_equal. lia.
Qed.

(** [gettoken] at the start of a printed token. *)
Lemma gettoken_text pan blk p x r t Q : at_pos p (tokn sp x ++ t) -> token_text x r -> norm t ->
  (forall p', at_pos p' t -> Q (mkTok r p (p + length x)) p') -> ends pan blk (gettoken b es) Q p.
Proof using Hsp Hne.
  intros Hp Hx Ht HQ. unfold tokn in Hp. rewrite <- app_assoc in Hp. unfold ends, gettoken.
  rewrite (scan_norm p _ Hp (token_norm _ _ _ Hx)), (lex_token p x r t Hp Hx).
  apply at_pos_app in Hp. rewrite (scan_text _ _ sp t Hp Hsp (norm_hd _ Ht)). apply HQ. by apply at_pos_app.
Qed.

Definition peeks (toks t : list Z) : bool := negb (hd 0 t =? 0) && strchr_b toks (hd 0 t).

Lemma peek_text pan blk toks p t Q : at_pos p t -> norm t -> Q (peeks toks t) p -> ends pan blk (peek b es toks) Q p.
Proof. intros Hp Ht HQ. unfold ends, peek. rewrite (scan_norm p t Hp Ht), (at_pos_char p t Hp). done. Qed.

(** What follows in the text: nothing, or a token that starts with one of [set]. *)
Definition follow (set t : list Z) : Prop := t = [] \/ hd 0 t ∈ set.

Lemma follow_peeks set toks t : follow set t -> forallb (fun c => negb (strchr_b toks c)) set = true -> peeks toks t = false.
Proof.
  intros [->|Hin] Hset; [done|]. unfold peeks. rewrite forallb_forall in Hset. rewrite list_elem_of_In in Hin.
  specialize (Hset _ Hin). apply negb_true_iff in Hset. by rewrite Hset, andb_false_r.
Qed.

Lemma follow_norm set t : follow set t -> forallb (fun c => negb (strchr_b whitespace c)) set = true -> norm t.
Proof.
  intros [->|Hin] Hset; [done|]. destruct t as [|c t]; [done|]. simpl in *. rewrite forallb_forall in Hset.
  rewrite list_elem_of_In in Hin. by apply negb_true_iff, Hset.
Qed.

Lemma follow_sub set set' t : follow set t -> set ⊆ set' -> follow set' t.
Proof. intros [?|?] Hs; [by left|right; by apply Hs]. Qed.

Lemma follow_tok set c t : c ∈ set -> follow set (tokn sp [c] ++ t).
Proof. by right. Qed.

Lemma r_token k : token_text (r_text k) (match k with RIn => 60 | ROut => 62 | RAppend => 43 end).
Proof. destruct k; simpl; [apply tt_sym; compute_done..|apply tt_append]. Qed.

(** ** Redirections *)

Lemma print_redirs_cons r rs t :
  print_redirs sp (r :: rs) ++ t = tokn sp (r_text (r_kind r)) ++ tokn sp (r_file r) ++ print_redirs sp rs ++ t.
Proof. unfold print_redirs. simpl. by rewrite <- !app_assoc. Qed.

Lemma norm_redirs rs t : norm t -> norm (print_redirs sp rs ++ t).
Proof. destruct rs as [|r rs]; [done|]. intros _. rewrite print_redirs_cons. unfold tokn. rewrite <- app_assoc. eapply token_norm, r_token. Qed.

Lemma norm_word w t : is_word w -> norm (tokn sp w ++ t).
Proof. intros Hw. unfold tokn. rewrite <- app_assoc. eapply token_norm. by apply tt_word. Qed.

Lemma parseredirs_text (P : cmd -> Prop) rs n c p t Q :
  (forall c f ef mode fd, P c -> P (REDIR c f ef mode fd)) -> redirs_wf rs -> P c ->
  at_pos p (print_redirs sp rs ++ t) -> norm t -> peeks (bytes "<>") t = false ->
  (forall c' p', at_pos p' t -> P c' -> lexed b c' = redirect (lexed b c) rs -> Q c' p') ->
  ends False True (parseredirs_loop b es n c) Q p.
Proof using Hsp Hne.
  intros HP Hwf. revert n c p. induction Hwf as [|r rs Hr Hrs IH]; intros [|n] c p Hc Hp Ht Hpk HQ; [done| |done|]; cbn [parseredirs_loop].
  - apply ends_bind. eapply peek_text; [exact Hp|done|]. simpl in *. rewrite Hpk. apply ends_ret. auto.
  - rewrite print_redirs_cons in Hp. apply ends_bind. eapply peek_text; [exact Hp| |].
    { unfold tokn. rewrite <- app_assoc. eapply token_norm, r_token. }
    assert (Hpk' : peeks (bytes "<>") (tokn sp (r_text (r_kind r)) ++ tokn sp (r_file r) ++ print_redirs sp rs ++ t) = true) by (by destruct (r_kind r)).
    rewrite Hpk'. apply ends_bind. eapply gettoken_text; [exact Hp|apply r_token|by apply norm_word|]. intros p1 Hp1.
    apply ends_bind. eapply gettoken_text; [exact Hp1|by apply tt_word|by apply norm_redirs|]. intros p2 Hp2.
    apply at_pos_text' in Hp1. cbn [tk_ret tk_q tk_eq negb Z.eqb Pos.eqb]. apply (IH n); try done.
    + destruct (r_kind r); by apply HP.
    + intros c' p' Hp' Hc' Hl. apply HQ; [done..|]. rewrite Hl. unfold redirect. simpl. f_equal. by destruct (r_kind r); simpl; rewrite Hp1.
Qed.

(** ** Arguments *)

(** An [execcmd] with [n] arguments, inside of redirections. *)
Fixpoint fillable (n : nat) (c : cmd) : Prop :=
  match c with
  | EXEC _ _ => exists ws, length ws = n /\ c = exec_with ws
  | REDIR c' _ _ _ _ => fillable n c'
  | _ => False
  end.

(** One more argument for the program inside of redirections. *)
Fixpoint add_arg (t : tree) (w : list Z) : tree :=
  match t with
  | TExec args => TExec (args ++ [w])
  | TRedir t' f mode fd => TRedir (add_arg t' w) f mode fd
  | _ => t
  end.

Lemma add_arg_redirect t rs w : add_arg (redirect t rs) w = redirect (add_arg t w) rs.
Proof. revert t. induction rs as [|r rs IH]; intros t; [done|]. apply (IH (TRedir t _ _ _)). Qed.

Lemma add_args_redirect t rs ws : foldl add_arg (redirect t rs) ws = redirect (foldl add_arg t ws) rs.
Proof. revert t. induction ws as [|w ws IH]; intros t; simpl; [done|]. by rewrite add_arg_redirect, IH. Qed.

Lemma add_args_exec l ws : foldl add_arg (TExec l) ws = TExec (l ++ ws).
Proof. revert l. induction ws as [|w ws IH]; intros l; simpl; [by rewrite app_nil_r|]. by rewrite IH, <- app_assoc. Qed.

Lemma redirect_app t rs rs' : redirect t (rs ++ rs') = redirect (redirect t rs) rs'.
Proof. apply foldl_app. Qed.

Lemma lexed_exec_with ws : lexed b (exec_with ws) = TExec ((fun w => word_text b w.1 w.2) <$> ws).
Proof. unfold exec_with. cbn [lexed]. by rewrite exec_words_with. Qed.

Lemma fillable_put n c q e : fillable n c -> (n < MAXARGS)%nat ->
  fillable (S n) (put_arg c n (Some q) (Some e)) /\
  lexed b (put_arg c n (Some q) (Some e)) = add_arg (lexed b c) (word_text b q e).
Proof.
  intros Hf Hn. induction c as [argv eargv|c IH f ef mode fd|cl _ cr _|cl _ cr _|c _]; try done.
  - destruct Hf as (ws & Hl & E). rewrite E. subst n. pose proof (insert_arg fst ws (q, e) Hn) as E1.
    pose proof (insert_arg snd ws (q, e) Hn) as E2. cbn [fst snd] in E1, E2.
    assert (Hput : put_arg (exec_with ws) (length ws) (Some q) (Some e) = exec_with (ws ++ [(q, e)])).
    { unfold exec_with. cbn [put_arg]. by rewrite E1, E2. }
    rewrite Hput. split; [exists (ws ++ [(q, e)]); split; [rewrite length_app; simpl; lia|done]|].
    rewrite !lexed_exec_with, fmap_app. done.
  - destruct (IH Hf) as [H1 H2]. split; [done|]. cbn [put_arg lexed add_arg]. by rewrite H2.
Qed.

Lemma fillable_end n c : fillable n c -> (n < MAXARGS)%nat -> put_arg c n None None = c.
Proof.
  intros Hf Hn. induction c as [argv eargv|c IH f ef mode fd|cl _ cr _|cl _ cr _|c _]; try done.
  - destruct Hf as (ws & Hl & ->). subst n. unfold exec_with. cbn [put_arg]. by rewrite (insert_none fst), (insert_none snd).
  - cbn [put_arg]. by rewrite IH.
Qed.

Lemma print_args_cons a args t :
  print_args sp (a :: args) ++ t = tokn sp a.1 ++ print_redirs sp a.2 ++ print_args sp args ++ t.
Proof. unfold print_args. simpl. by rewrite <- !app_assoc. Qed.

Definition exec_follow : list Z := bytes "|)&;".

Lemma norm_args args t : Forall (fun a => is_word a.1 /\ redirs_wf a.2) args -> follow exec_follow t -> norm (print_args sp args ++ t).
Proof.
  intros Ha Ht. destruct Ha as [|a args [Hw _] _]; [by apply (follow_norm exec_follow)|]. rewrite print_args_cons. by apply norm_word.
Qed.

Lemma peeks_word toks w t : is_word w -> 0 ∉ toks -> forallb (strchr_b symbols) toks = true -> peeks toks (tokn sp w ++ t) = false.
Proof.
  intros [Hw Hc] H0 Hs. destruct Hc as [|c w Hc _]; [done|]. unfold peeks. simpl.
  destruct (strchr_b toks c) eqn:E; [|by rewrite andb_false_r]. apply strchr_b_elem in E; [|done].
  rewrite forallb_forall in Hs. rewrite list_elem_of_In in E. apply Hs in E. rewrite (wordchar_sym _ Hc) in E. done.
Qed.

Lemma peeks_args args t : Forall (fun a => is_word a.1 /\ redirs_wf a.2) args -> follow exec_follow t ->
  peeks (bytes "<>") (print_args sp args ++ t) = false.
Proof.
  intros Ha Ht. destruct Ha as [|a args [Hw _] _]; [by apply (follow_peeks exec_follow)|]. rewrite print_args_cons.
  by apply peeks_word; [done|compute_done|].
Qed.

Lemma parseargs_text args n c k p t Q : Forall (fun a => is_word a.1 /\ redirs_wf a.2) args ->
  fillable k c -> (k + length args < MAXARGS)%nat -> at_pos p (print_args sp args ++ t) -> follow exec_follow t ->
  (forall c' p', at_pos p' t -> fillable (k + length args) c' ->
     lexed b c' = redirect (foldl add_arg (lexed b c) (fst <$> args)) (args_redirs args) ->
     Q (c', k + length args)%nat p') ->
  ends False True (parseargs_loop b es n c k) Q p.
Proof using Hsp Hne.
  intros Ha. revert n c k p. induction Ha as [|a args [Hw Hr] Ha IH]; intros [|n] c k p Hf Hk Hp Ht HQ; [done| |done|]; cbn [parseargs_loop].
  - apply ends_bind. simpl in Hp. eapply peek_text; [exact Hp|by apply (follow_norm exec_follow)|].
    simpl in HQ. rewrite Nat.add_0_r in HQ. destruct Ht as [->|Hin].
    + cbn. apply ends_bind. unfold ends at 1, gettoken. rewrite (scan_norm p [] Hp I). unfold lex. rewrite (at_pos_char _ _ Hp). simpl.
      rewrite (scan_norm p [] Hp I). apply ends_ret. by apply HQ.
    + assert (Hpk : peeks (bytes "|)&;") t = true).
      { unfold peeks. apply (strchr_b_elem exec_follow) in Hin; [|compute_done]. unfold exec_follow in Hin. rewrite Hin.
        destruct (Z.eqb_spec (hd 0 t) 0) as [E|]; [|done]. rewrite E in Hin. done. }
      rewrite Hpk. apply ends_ret. by apply HQ.
  - rewrite print_args_cons in Hp. simpl in Hk. apply ends_bind. eapply peek_text; [exact Hp|by apply norm_word|].
    rewrite peeks_word; [|done|compute_done|done]. apply ends_bind.
    eapply gettoken_text; [exact Hp|by apply tt_word|by apply norm_redirs, norm_args|]. intros p1 Hp1.
    cbn [tk_ret tk_q tk_eq negb Z.eqb Pos.eqb]. destruct (Nat.leb_spec MAXARGS (S k)); [lia|].
    destruct (fillable_put k c p (p + length a.1) Hf ltac:(lia)) as [Hf' Hl]. rewrite (at_pos_text' _ _ _ Hp) in Hl.
    apply ends_bind. unfold parseredirs.
    apply (parseredirs_text (fillable (S k)) a.2 _ _ p1 (print_args sp args ++ t)); [done..|by apply norm_args|by apply peeks_args|].
    intros c' p2 Hp2 Hc' Hlx. eapply IH; [exact Hc'|lia|exact Hp2|done|]. intros c'' p3 Hp3 Hc'' Hl3.
    replace (S k + length args)%nat with (k + S (length args))%nat in * by lia. apply HQ; [done..|].
    rewrite Hl3, Hlx, Hl. unfold args_redirs. rewrite !fmap_cons. cbn [concat foldl fst]. rewrite redirect_app, add_args_redirect. done.
Qed.

(** ** Lines *)

Definition pipe_follow : list Z := bytes ")&;".
Definition line_follow : list Z := bytes ")".

Lemma iter_back n t : Nat.iter n TBack (TBack t) = TBack (Nat.iter n TBack t).
Proof. induction n as [|n IH]; simpl; [done|]. by rewrite IH. Qed.

Lemma print_backs_S n t : print_backs sp (S n) ++ t = tokn sp [38] ++ print_backs sp n ++ t.
Proof. unfold print_backs. simpl. by rewrite <- app_assoc. Qed.

Lemma norm_tok c t : c ∈ symbols -> norm (tokn sp [c] ++ t).
Proof. intros Hc. unfold tokn. rewrite <- app_assoc. eapply token_norm. by apply tt_sym. Qed.

Lemma norm_backs n t : norm t -> norm (print_backs sp n ++ t).
Proof. destruct n; [done|]. rewrite print_backs_S. intros _. apply norm_tok. compute_done. Qed.

Lemma parseback_text k n c p t Q : at_pos p (print_backs sp k ++ t) -> norm t -> peeks (bytes "&") t = false ->
  (forall c' p', at_pos p' t -> lexed b c' = Nat.iter k TBack (lexed b c) -> Q c' p') ->
  ends False True (parseback_loop b es n c) Q p.
Proof using Hsp Hne.
  revert n c p. induction k as [|k IH]; intros [|n] c p Hp Ht Hpk HQ; [done| |done|]; cbn [parseback_loop].
  - apply ends_bind. eapply peek_text; [exact Hp|done|]. simpl in *. rewrite Hpk. apply ends_ret. by apply HQ.
  - rewrite print_backs_S in Hp. apply ends_bind. eapply peek_text; [exact Hp|apply norm_tok; compute_done|].
    change (peeks (bytes "&") (tokn sp [38] ++ print_backs sp k ++ t)) with true. cbv iota.
    apply ends_bind. eapply gettoken_text; [exact Hp|apply tt_sym; compute_done|by apply norm_backs|]. intros p1 Hp1.
    eapply IH; [exact Hp1|done..|]. intros c' p' Hp' Hl. apply HQ; [done|]. rewrite Hl. apply iter_back.
Qed.

(** A symbol that the parser peeks for and then consumes. *)
Lemma peek_then_get {A} c p t (k : bool -> M nat A) Q (cont : token -> M nat A) : c ∈ symbols -> at_pos p (tokn sp [c] ++ t) -> norm t ->
  k true = bind (gettoken b es) cont ->
  (forall tok p', at_pos p' t -> ends False True (cont tok) Q p') ->
  ends False True (bind (peek b es [c]) k) Q p.
Proof using Hsp Hne.
  intros Hc Hp Ht Hk Hcont. apply ends_bind. eapply peek_text; [exact Hp|by apply norm_tok|].
  assert (Hpk : peeks [c] (tokn sp [c] ++ t) = true).
  { unfold peeks. simpl. apply in_symbols, symbols_cases in Hc. by destruct_or! Hc; subst c. }
  rewrite Hpk, Hk. apply ends_bind. eapply gettoken_text; [exact Hp|by apply tt_sym|done|]. intros p' Hp'. by apply Hcont.
Qed.

Definition line_reads (l : line) : Prop := line_wf l -> forall f p t Q, at_pos p (print_line sp l ++ t) -> follow line_follow t ->
  (forall c p', at_pos p' t -> lexed b c = line_tree l -> Q c p') -> ends False True (parseline b es f) Q p.
Definition pipeline_reads (l : pipeline) : Prop := pipeline_wf l -> forall fl f p t Q, at_pos p (print_pipeline sp l ++ t) -> follow pipe_follow t ->
  (forall c p', at_pos p' t -> lexed b c = pipeline_tree l -> Q c p') -> ends False True (parsepipe b es (parseline b es fl) f) Q p.
Definition exec_reads (e : exec) : Prop := exec_wf e -> forall fl p t Q, at_pos p (print_exec sp e ++ t) -> follow exec_follow t ->
  (forall c p', at_pos p' t -> lexed b c = exec_tree e -> Q c p') -> ends False True (parseexec b es (parseline b es fl)) Q p.

(** A block starts with a parenthesis, a simple command does not. *)
Lemma simple_reads rs args : exec_reads (ESimple rs args).
Proof using Hsp Hne.
  intros (Hrs & Hlen & Hargs) fl p t Q Hp Ht HQ. unfold parseexec. cbn [print_exec] in *. rewrite <- app_assoc in Hp.
  pose proof (norm_args args t Hargs Ht) as Hn. apply ends_bind. eapply peek_text; [exact Hp|by apply norm_redirs|].
  assert (Hpk : peeks (bytes "(") (print_redirs sp rs ++ print_args sp args ++ t) = false).
  { destruct rs as [|r rs]; [|rewrite print_redirs_cons; by destruct (r_kind r)]. simpl.
    destruct Hargs as [|a args [Hw _] _]; [by apply (follow_peeks exec_follow)|]. rewrite print_args_cons. by apply peeks_word; [|compute_done|]. }
  rewrite Hpk. apply ends_bind. unfold parseredirs.
  eapply (parseredirs_text (fillable 0)); [done|done|by exists []|exact Hp|done|by apply peeks_args|]. intros c p1 Hp1 Hc Hl.
  apply ends_bind. unfold parseargs. eapply parseargs_text; [exact Hargs|exact Hc|done|exact Hp1|done|]. intros c' p2 Hp2 Hc' Hl'.
  apply ends_ret. cbn [fst snd]. rewrite (fillable_end _ _ Hc') by done. apply HQ; [done|].
  rewrite Hl', Hl, add_args_redirect. cbn [exec_tree]. rewrite redirect_app. f_equal. f_equal.
  change (lexed b execcmd) with (TExec []). by rewrite add_args_exec.
Qed.

Lemma norm_app x t : norm x -> norm t -> norm (x ++ t).
Proof. by destruct x. Qed.

Lemma print_norm :
  (forall l, line_wf l -> norm (print_line sp l)) /\ (forall l, pipeline_wf l -> norm (print_pipeline sp l)) /\
  (forall e, exec_wf e -> norm (print_exec sp e)).
Proof using Type.
  assert (Hb : forall n, norm (print_backs sp n)) by (intros n; rewrite <- app_nil_r; by apply norm_backs).
  apply grammar_ind; simpl.
  - intros p IH n Hw. apply norm_app; auto.
  - intros p IH n l IHl [Hp Hl]. apply norm_app; [auto|]. apply norm_app; [auto|]. apply norm_tok. compute_done.
  - done.
  - intros e IHe p IHp [He Hp]. apply norm_app; [auto|]. apply norm_tok. compute_done.
  - done.
  - intros rs args (Hrs & _ & Ha). apply norm_redirs. rewrite <- (app_nil_r (print_args _ _)). apply norm_args; [done|by left].
Qed.

Lemma block_reads l rs : line_reads l -> exec_reads (EBlock l rs).
Proof using Hsp Hne.
  intros IH (Hl & Hrs) fl p t Q Hp Ht HQ. unfold parseexec. cbn [print_exec] in *. rewrite <- !app_assoc in Hp.
  assert (Hnt : norm t) by (by apply (follow_norm exec_follow)).
  assert (Hnr : norm (tokn sp [41] ++ print_redirs sp rs ++ t)) by (apply norm_tok; compute_done).
  assert (Hnl : norm (print_line sp l ++ tokn sp [41] ++ print_redirs sp rs ++ t)).
  { apply norm_app; [by apply print_norm|done]. }
  apply ends_bind. eapply peek_text; [exact Hp|apply norm_tok; compute_done|].
  change (peeks (bytes "(") (tokn sp [40] ++ print_line sp l ++ tokn sp [41] ++ print_redirs sp rs ++ t)) with true. cbv iota.
  unfold parseblock.
  apply (peek_then_get 40 p _ _ _ _ ltac:(compute_done) Hp Hnl eq_refl). intros tok p1 Hp1.
  apply ends_bind. eapply (IH Hl); [exact Hp1|by right; apply list_elem_of_here|]. intros c p2 Hp2 Hc.
  apply (peek_then_get 41 p2 _ _ _ _ ltac:(compute_done) Hp2 (norm_redirs _ _ Hnt) eq_refl). intros tok' p3 Hp3. unfold parseredirs.
  eapply (parseredirs_text (fun _ => True)); [done|done|done|exact Hp3|done|by apply (follow_peeks exec_follow)|].
  intros c' p4 Hp4 _ Hl'. apply HQ; [done|]. rewrite Hl', Hc. done.
Qed.

Lemma pipeline_end e : exec_reads e -> pipeline_reads (POne e).
Proof using Hsp Hne.
  intros IH He fl [|f] p t Q Hp Ht HQ; [done|]. cbn [parsepipe print_pipeline pipeline_tree pipeline_wf] in *. apply ends_bind.
  eapply (IH He); [exact Hp|eapply follow_sub; [exact Ht|set_solver]|]. intros c p1 Hp1 Hc. apply ends_bind.
  eapply peek_text; [exact Hp1|by apply (follow_norm pipe_follow)|]. rewrite (follow_peeks pipe_follow) by done. apply ends_ret. auto.
Qed.

Lemma pipeline_bar e l : exec_reads e -> pipeline_reads l -> pipeline_reads (PBar e l).
Proof using Hsp Hne.
  intros IHe IHl [He Hl] fl [|f] p t Q Hp Ht HQ; [done|]. cbn [parsepipe print_pipeline pipeline_tree] in *. rewrite <- !app_assoc in Hp.
  assert (Hnt : norm t) by (by apply (follow_norm pipe_follow)). apply ends_bind.
  eapply (IHe He); [exact Hp|right; apply list_elem_of_here|]. intros c p1 Hp1 Hc.
  apply (peek_then_get 124 p1 _ _ _ _ ltac:(compute_done) Hp1 (norm_app _ _ (proj1 (proj2 print_norm) l Hl) Hnt) eq_refl). intros tok p2 Hp2.
  apply ends_bind. eapply (IHl Hl); [exact Hp2|done|]. intros c' p3 Hp3 Hc'. apply ends_ret. apply HQ; [done|].
  cbn [lexed pipecmd]. by rewrite Hc, Hc'.
Qed.

Lemma line_end l n : pipeline_reads l -> line_reads (LEnd l n).
Proof using Hsp Hne.
  intros IH Hl [|f] p t Q Hp Ht HQ; [done|]. cbn [parseline print_line line_tree line_wf] in *. rewrite <- !app_assoc in Hp.
  assert (Hnt : norm t) by (by apply (follow_norm line_follow)). apply ends_bind.
  eapply (IH Hl); [exact Hp| |].
  { destruct n; [eapply follow_sub; [exact Ht|set_solver]|right; rewrite print_backs_S; compute_done]. }
  intros c p1 Hp1 Hc. apply ends_bind. unfold parseback. eapply parseback_text; [exact Hp1|done|by apply (follow_peeks line_follow)|].
  intros c' p2 Hp2 Hc'. apply ends_bind. eapply peek_text; [exact Hp2|done|]. rewrite (follow_peeks line_follow) by done.
  apply ends_ret. apply HQ; [done|]. by rewrite Hc', Hc.
Qed.

Lemma line_seq l n l' : pipeline_reads l -> line_reads l' -> line_reads (LSeq l n l').
Proof using Hsp Hne.
  intros IH IH' [Hl Hl'] [|f] p t Q Hp Ht HQ; [done|]. cbn [parseline print_line line_tree] in *. rewrite <- !app_assoc in Hp.
  assert (Hnt : norm t) by (by apply (follow_norm line_follow)). apply ends_bind.
  eapply (IH Hl); [exact Hp| |].
  { destruct n; [right; compute_done|right; rewrite print_backs_S; compute_done]. }
  intros c p1 Hp1 Hc. apply ends_bind. unfold parseback. eapply parseback_text; [exact Hp1|apply norm_tok; compute_done|done|].
  intros c' p2 Hp2 Hc'.
  apply (peek_then_get 59 p2 _ _ _ _ ltac:(compute_done) Hp2 (norm_app _ _ (proj1 print_norm l' Hl') Hnt) eq_refl). intros tok p3 Hp3.
  apply ends_bind. eapply (IH' Hl'); [exact Hp3|done|]. intros c'' p4 Hp4 Hc''. apply ends_ret. apply HQ; [done|].
  cbn [lexed listcmd]. by rewrite Hc', Hc, Hc''.
Qed.

Lemma grammar_reads : (forall l, line_reads l) /\ (forall l, pipeline_reads l) /\ (forall e, exec_reads e).
Proof using Hsp Hne.
  apply grammar_ind; auto using line_end, line_seq, pipeline_end, pipeline_bar, block_reads, simple_reads.
Qed.

End Text.

Section RoundTrip.
Context (sp : list Z) (Hsp : Forall (fun c => strchr_b whitespace c = true) sp) (Hne : sp <> []).
Notation nonzero := (Forall (fun c => c <> 0)).

Lemma nonzero_tok x : nonzero x -> nonzero (tokn sp x).
Proof using Hsp.
  intros Hx. apply Forall_app_2; [done|]. eapply Forall_impl; [exact Hsp|]. simpl. by intros c Hc ->.
Qed.

Lemma nonzero_word w : is_word w -> nonzero w.
Proof using Type. intros [_ Hw]. eapply Forall_impl; [exact Hw|]. simpl. apply wordchar_nonzero. Qed.

Lemma nonzero_redirs rs : redirs_wf rs -> nonzero (print_redirs sp rs).
Proof using Hsp.
  unfold print_redirs. induction 1 as [|r rs Hr Hrs IH]; simpl; [constructor|]. rewrite !Forall_app. split; [split|done].
  - apply nonzero_tok. destruct (r_kind r); repeat constructor; done.
  - by apply nonzero_tok, nonzero_word.
Qed.

Lemma nonzero_args args : Forall (fun a => is_word a.1 /\ redirs_wf a.2) args -> nonzero (print_args sp args).
Proof using Hsp.
  unfold print_args. induction 1 as [|a args [Hw Hr] Ha IH]; simpl; [constructor|]. rewrite !Forall_app.
  split; [split|done]; [by apply nonzero_tok, nonzero_word|by apply nonzero_redirs].
Qed.

Lemma print_nonzero :
  (forall l, line_wf l -> nonzero (print_line sp l)) /\ (forall l, pipeline_wf l -> nonzero (print_pipeline sp l)) /\
  (forall e, exec_wf e -> nonzero (print_exec sp e)).
Proof using Hsp.
  assert (Htok : forall c, c <> 0 -> nonzero (tokn sp [c])) by (intros; apply nonzero_tok; by constructor).
  assert (Hb : forall n, nonzero (print_backs sp n)).
  { unfold print_backs. induction n as [|n IH]; cbn [replicate concat]; [constructor|]. apply Forall_app_2; [by apply Htok|done]. }
  apply grammar_ind; cbn [print_line print_pipeline print_exec line_wf pipeline_wf exec_wf]; intros; rewrite ?Forall_app; destruct_and?; split_and?;
    auto using nonzero_redirs, nonzero_args; by apply Htok.
Qed.

(** The parser on the text of a line. *)
Lemma parsecmd_reads l tl : line_wf l ->
  exists c b', parsecmd (print_line sp l ++ 0 :: tl) = Parsed c b' /\ view b' c = line_tree l /\
    cmd_ok (print_line sp l ++ 0 :: tl) (length (print_line sp l)) c.
Proof using Hsp Hne.
  intros Hl. set (text := print_line sp l). set (b := text ++ 0 :: tl). pose proof (proj1 print_nonzero l Hl) as Hnz.
  assert (Hlen : Z.to_nat (Str.strlen b) = length text).
  { unfold b. rewrite Str.strlen_cstr, <- (Str.cstr_id text Hnz), Str.cstr_app_zero, (Str.cstr_id text Hnz). lia. }
  pose proof (parsecmd_sound b ltac:(unfold b; set_solver)) as Hs. revert Hs. unfold parsecmd. rewrite Hlen.
  assert (H : ends False True (let* c := parseline b (length text) (parse_fuel (length text)) in let* _ := peek b (length text) [] in ret c)
    (fun c s => s = length text /\ lexed b c = line_tree l) 0%nat).
  { apply ends_bind. eapply (proj1 (grammar_reads sp text tl Hsp Hne) l Hl _ _ []); [by exists []; rewrite app_nil_r|by left|].
    intros c p Hp Hc. apply ends_bind. eapply peek_text; [exact Hp|done|]. apply ends_ret. split; [|done].
    apply at_pos_len in Hp. simpl in Hp. lia. }
  unfold ends in H. destruct ((let* c := parseline b (length text) (parse_fuel (length text)) in let* _ := peek b (length text) [] in ret c) 0%nat)
    as [c s|msg|]; [|done|done]. destruct H as [-> Hc]. rewrite Nat.eqb_refl. intros (Hok & _ & Hv & _).
  eexists _, _. split; [done|]. split; [by rewrite Hv|done].
Qed.
End RoundTrip.

(** ** Running a command *)

(** What a descriptor refers to: what the shell was started with, a file opened by name,
    an end of the pipe numbered [id]. *)
Inductive obj := OStd (n : nat) | OFile (name : list Z) (mode : Z) | ORead (id : nat) | OWrite (id : nat).
Definition fdtable := list (option obj).

(** Descriptors are the lowest free entries of a table of [NOFILE] = 16. *)
Fixpoint lowest (t : fdtable) : option nat :=
  match t with
  | [] => None
  | None :: _ => Some O
  | Some _ :: t' => S <$> lowest t'
  end.
Definition fd_alloc (t : fdtable) (o : obj) : option (Z * fdtable) :=
  match lowest t with Some i => Some (Z.of_nat i, <[i:=Some o]> t) | None => None end.

(** The programs that a tree of system calls executes, with their arguments and their
    descriptors, when no system call fails but for want of a descriptor.  [id] counts the
    pipes. *)
Fixpoint run (id : nat) (t : fdtable) (p : prog) : nat * list (list (list Z) * fdtable) :=
  match p with
  | PExit => (id, [])
  | PExec _ argv _ => (id, [(argv, t)])
  | PPrintf _ k => run id t k
  | PClose fd k => run id (<[Z.to_nat fd:=None]> t) k
  | POpen f mode k =>
      match fd_alloc t (OFile f mode) with
      | Some (fd, t') => run id t' (k fd)
      | None => run id t (k (-1))
      end
  | PFork k =>
      let '(id1, ev1) := run id t (k 0) in
      let '(id2, ev2) := run id1 t (k 1) in (id2, ev1 ++ ev2)
  | PWait k => run id t k
  | PPipe k =>
      match fd_alloc t (ORead id) with
      | Some (p0, t0) =>
          match fd_alloc t0 (OWrite id) with
          | Some (p1, t1) => run (S id) t1 (k (Some (p0, p1)))
          | None => run id t (k None)
          end
      | None => run id t (k None)
      end
  | PDup fd k =>
      match t !! Z.to_nat fd with
      | Some (Some o) => match fd_alloc t o with Some (_, t') => run id t' k | None => run id t k end
      | _ => run id t k
      end
  | PChdir _ k => run id t (k 0)
  end.

(** The table of a process with only the three standard descriptors. *)
Definition std_fds (i o e : obj) : fdtable := [Some i; Some o; Some e] ++ replicate 13 None.

(** What a command should run: each program with exactly three descriptors. *)
Fixpoint expected (id : nat) (i o e : obj) (t : tree) : nat * list (list (list Z) * fdtable) :=
  match t with
  | TExec [] => (id, [])
  | TExec argv => (id, [(argv, std_fds i o e)])
  | TRedir t' f mode fd => if fd =? 0 then expected id (OFile f mode) o e t' else expected id i (OFile f mode) e t'
  | TPipe tl tr =>
      let '(id1, ev1) := expected (S id) i (OWrite id) e tl in
      let '(id2, ev2) := expected id1 (ORead id) o e tr in (id2, ev1 ++ ev2)
  | TList tl tr =>
      let '(id1, ev1) := expected id i o e tl in
      let '(id2, ev2) := expected id1 i o e tr in (id2, ev1 ++ ev2)
  | TBack t' => expected id i o e t'
  end.

Lemma run_runcmd b0 es c : cmd_ok b0 es c -> forall b id i o e, run id (std_fds i o e) (runcmd b c) = expected id i o e (view b c).
Proof.
  induction 1 as [ws Hl Hw|c f ef mode fd Hc IH Hf Hm|c1 c2 H1 IH1 H2 IH2|c1 c2 H1 IH1 H2 IH2|c Hc IH]; intros b id i o e.
  - cbn [exec_with runcmd view expected]. unfold exec_with. cbn [runcmd view]. rewrite strings_with. destruct ws as [|[q e'] ws]; done.
  - destruct Hm as [[-> ->]|[-> ->]].
    + exact (IH b id (OFile (str_at b f) 0) o e).
    + exact (IH b id i (OFile (str_at b f) 513) e).
  - transitivity (let '(id1, ev1) := run (S id) (std_fds i (OWrite id) e) (runcmd b c1) in
      let '(id2, ev2) := (let '(id2, ev2) := run id1 (std_fds (ORead id) o e) (runcmd b c2) in (id2, ev2 ++ [])) in (id2, ev1 ++ ev2)); [done|].
    rewrite IH1. cbn [view expected]. destruct (expected _ _ _ _ (view b c1)) as [id1 ev1]. rewrite IH2.
    destruct (expected _ _ _ _ (view b c2)) as [id2 ev2]. by rewrite app_nil_r.
  - transitivity (let '(id1, ev1) := run id (std_fds i o e) (runcmd b c1) in
      let '(id2, ev2) := run id1 (std_fds i o e) (runcmd b c2) in (id2, ev1 ++ ev2)); [done|].
    rewrite IH1. cbn [view expected]. destruct (expected _ _ _ _ (view b c1)) as [id1 ev1]. by rewrite IH2.
  - transitivity (let '(id1, ev1) := run id (std_fds i o e) (runcmd b c) in (id1, ev1 ++ [])); [done|].
    rewrite IH. cbn [view expected]. destruct (expected _ _ _ _ (view b c)) as [id1 ev1]. by rewrite app_nil_r.
Qed.

(** C25: the parser reads the language of the shell.  For every line of the grammar
    (words, redirections, pipelines, lists, background commands and blocks, nested in
    any way, with any white space between the tokens), [parsecmd] returns a command, and
    the command that [runcmd] sees in the buffer is the one the line stands for. *)
Theorem parsecmd_print sp l tl : Forall (fun c => strchr_b whitespace c = true) sp -> sp <> [] -> line_wf l ->
  exists c b', parsecmd (print_line sp l ++ 0 :: tl) = Parsed c b' /\ view b' c = line_tree l.
Proof. intros Hsp Hne Hl. destruct (parsecmd_reads sp Hsp Hne l tl Hl) as (c & b' & H1 & H2 & _). eauto. Qed.

(** [a < x | (b ; c) > y &] *)
Definition demo_grammar : line :=
  LEnd (PBar (ESimple [] [([97], [mkRedir RIn [120]])])
    (POne (EBlock (LSeq (POne (ESimple [] [([98], [])])) 0 (LEnd (POne (ESimple [] [([99], [])])) 0)) [mkRedir ROut [121]]))) 1.

Lemma demo_grammar_wf : line_wf demo_grammar.
Proof. cbn. unfold redirs_wf, is_word. repeat constructor; done. Qed.

Lemma parsecmd_print_witness :
  exists c b', parsecmd (bytes "a < x | ( b ; c ) > y & " ++ [0]) = Parsed c b' /\ view b' c = line_tree demo_grammar.
Proof.
  apply (parsecmd_print [32] demo_grammar []).
  - repeat constructor.
  - discriminate.
  - apply demo_grammar_wf.
Defined.

(** C13: running a line.  For every line of the grammar, the shell's child process starts
    exactly the programs of the line, with their arguments, and each with exactly three
    descriptors: the input, output and error of its place in the line.  Both ends of every
    pipe are connected and closed everywhere else, and nothing else is left open. *)
Theorem sh_runs_line sp l tl id i o e :
  Forall (fun c => strchr_b whitespace c = true) sp -> sp <> [] -> line_wf l ->
  run id (std_fds i o e) (run_line (print_line sp l ++ 0 :: tl)) = expected id i o e (line_tree l).
Proof.
  intros Hsp Hne Hl. destruct (parsecmd_reads sp Hsp Hne l tl Hl) as (c & b' & H1 & H2 & Hok).
  unfold run_line. rewrite H1, <- H2. by eapply run_runcmd.
Qed.

Lemma sh_runs_line_witness :
  run 0 (std_fds (OStd 0) (OStd 1) (OStd 2)) (run_line (bytes "a < x | ( b ; c ) > y & " ++ [0])) =
  (1%nat, [([[97]], std_fds (OFile [120] 0) (OWrite 0) (OStd 2));
           ([[98]], std_fds (ORead 0) (OFile [121] 513) (OStd 2)); ([[99]], std_fds (ORead 0) (OFile [121] 513) (OStd 2))]).
Proof.
  refine (eq_trans (sh_runs_line [32] demo_grammar [] 0 (OStd 0) (OStd 1) (OStd 2) _ _ _) eq_refl).
  - repeat constructor.
  - discriminate.
  - apply demo_grammar_wf.
Defined.

(** [>>] opens its file with the mode of [>]. *)
Lemma append_overwrites :
  run 0 (std_fds (OStd 0) (OStd 1) (OStd 2)) (run_line (bytes "a >> f" ++ [0])) =
  run 0 (std_fds (OStd 0) (OStd 1) (OStd 2)) (run_line (bytes "a > f" ++ [0])).
Proof. by vm_compute. Qed.

(** The loop of [main] has enough fuel: every line read consumes some of the input. *)
Lemma gets_loop_rest n buf i max input : (length (Str.gets_loop n buf i max input).2 <= length input)%nat.
Proof.
  revert buf i input. induction n as [|n IH]; intros buf i input; cbn [Str.gets_loop]; [done|].
  destruct (i + 1 <? max); [|done]. destruct input as [|c input]; [done|].
  destruct ((c =? 10) || (c =? 13)); simpl; [lia|]. etransitivity; [apply IH|lia].
Qed.

Lemma gets_consumes buf max c input : 1 < max -> (length (Str.gets buf max (c :: input)).2 <= length input)%nat.
Proof.
  intros Hm. unfold Str.gets. destruct (Z.to_nat max) as [|n] eqn:En; [lia|]. cbn [Str.gets_loop].
  destruct (Z.ltb_spec (0 + 1) max); [|lia]. destruct ((c =? 10) || (c =? 13)); [done|].
  pose proof (gets_loop_rest n (<[Z.to_nat 0:=c]> buf) (0 + 1) max input) as Hr.
  by destruct (Str.gets_loop n _ _ _ _) as [[buf' i] rest'].
Qed.

Lemma getcmd_consumes input buf rest : getcmd input = (Some buf, rest) -> (length rest < length input)%nat.
Proof.
  unfold getcmd. destruct input as [|c input]; [done|].
  pose proof (gets_consumes (replicate (Z.to_nat nbuf) 0) nbuf c input ltac:(done)) as H.
  destruct (Str.gets _ _ _) as [buf' rest']. destruct (char_at buf' 0 =? 0); intros; simplify_eq. simpl in *. lia.
Qed.

End ShSpec.
