(* ===== verification/Console.v ===== *)
(** * console.c and uart.c: the console

    [Module Console] translates the screen and serial output ([cgaputc], [consputc],
    [uartputc]) and the line editor on the input side ([consoleintr], [consoleread]).
    The spinlocks make [consoleintr] and the code of [consoleread] between two calls of
    [sleep] atomic; [consoleread] says whether it returned or went to sleep.

    The input buffer is a ring of 128 bytes with three 32-bit counters.
    [console_refines]: for every sequence of interrupts and reads it behaves like two
    queues, the lines that can be read and the line being edited. *)

From S2P Require Import Prelude CString Printf.

Module Console.

Definition BACKSPACE : Z := 256.
Definition INPUT_BUF : Z := 128.
Definition C (x : Z) : Z := x - 64.

(** [struct input], the CGA memory with the cursor register of the CRT controller, the
    bytes sent to the serial port, the flags; [wakeups] counts [wakeup(&input.r)]. *)
Record cons := mkCons {
  buf : list Z; i_r : Z; i_w : Z; i_e : Z;
  crt : list Z; cursor : Z;
  uart : bool; serial : list Z;
  locking : bool; panicked : bool; wakeups : nat }.

Definition set_input (b : list Z) (r w e : Z) (s : cons) : cons :=
  mkCons b r w e (crt s) (cursor s) (uart s) (serial s) (locking s) (panicked s) (wakeups s).
Definition set_screen (c : list Z) (p : Z) (s : cons) : cons :=
  mkCons (buf s) (i_r s) (i_w s) (i_e s) c p (uart s) (serial s) (locking s) (panicked s) (wakeups s).

(** ** Output *)

(** uart.c [uartputc]; the wait for the transmitter is bounded and not modelled. *)
Definition uartputc (c : Z) (s : cons) : cons :=
  if uart s then
    mkCons (buf s) (i_r s) (i_w s) (i_e s) (crt s) (cursor s) (uart s) (serial s ++ [u8 c]) (locking s) (panicked s) (wakeups s)
  else s.

(** The scrolling of [cgaputc]: [memmove] of 23 rows, [memset] of what follows. *)
Definition scroll (crt : list Z) (pos : Z) : list Z :=
  splice (splice crt 0 (window crt 80 (23 * 80))) (Z.to_nat pos) (replicate (Z.to_nat (24 * 80 - pos)) 0).

Definition cgaputc (c : Z) (s : cons) : cons :=
  let pos := cursor s in
  let '(crt, pos) :=
    if c =? 10 then (crt s, pos + (80 - pos mod 80))
    else if c =? BACKSPACE then (crt s, if 0 <? pos then pos - 1 else pos)
    else (<[Z.to_nat pos:=Z.lor (Z.land c 255) 1792]> (crt s), pos + 1) in
  let '(crt, pos) := if 24 <=? pos / 80 then (scroll crt (pos - 80), pos - 80) else (crt, pos) in
  set_screen (<[Z.to_nat pos:=Z.lor 32 1792]> crt) (u16 pos) s.

(** A panicked machine spins in [consputc]. *)
Definition consputc (c : Z) : M cons unit := fun s =>
  if panicked s then Blocked
  else
    let s := if c =? BACKSPACE then uartputc 8 (uartputc 32 (uartputc 8 s)) else uartputc c s in
    Ret tt (cgaputc c s).

Fixpoint consputs (l : list Z) : M cons unit :=
  match l with
  | [] => ret tt
  | c :: l' => consputc c ;;; consputs l'
  end.

(** [cprintf]: [Printf.cprintf] computes the characters. *)
Definition cprintf (mem : Z -> list Z) (args : nat -> Z) (fmt : list Z) : M cons unit := consputs (Printf.cprintf mem args fmt).

(** [panic] until it spins: [cpuid] and the return addresses [pcs] are what it prints. *)
Definition panic (cpuid : Z) (msg : list Z) (pcs : list Z) : M cons unit :=
  modify (fun s => mkCons (buf s) (i_r s) (i_w s) (i_e s) (crt s) (cursor s) (uart s) (serial s) false (panicked s) (wakeups s)) ;;;
  cprintf (fun _ => []) (fun _ => cpuid) (bytes "cpu%d: panic: ") ;;;
  cprintf (fun _ => []) (fun _ => 0) msg ;;;
  cprintf (fun _ => []) (fun _ => 0) [10] ;;;
  (fix loop (l : list Z) : M cons unit :=
     match l with
     | [] => ret tt
     | pc :: l' => cprintf (fun _ => []) (fun _ => pc) (bytes " %p") ;;; loop l'
     end) (take 10 pcs) ;;;
  modify (fun s => mkCons (buf s) (i_r s) (i_w s) (i_e s) (crt s) (cursor s) (uart s) (serial s) (locking s) true (wakeups s)).

Definition consolewrite (data : list Z) (n : Z) : M cons Z :=
  consputs ((fun c => Z.land c 255) <$> take (Z.to_nat n) data) ;;; ret n.

(** ** Input *)

Definition ring_at (b : list Z) (i : Z) : Z := nth (Z.to_nat (i mod INPUT_BUF)) b 0.

(** [while(input.e != input.w && input.buf[(input.e-1) % INPUT_BUF] != '\n')]; at most
    [INPUT_BUF] characters can be erased. *)
Fixpoint kill_line (n : nat) : M cons unit :=
  match n with
  | O => block
  | S n' => fun s =>
      if negb (i_e s =? i_w s) && negb (ring_at (buf s) (u32 (i_e s - 1)) =? 10)
      then (modify (fun s => set_input (buf s) (i_r s) (i_w s) (u32 (i_e s - 1)) s) ;;; consputc BACKSPACE ;;; kill_line n') s
      else Ret tt s
  end.

(** The [default] case: a character for the line. *)
Definition consolechar (c : Z) : M cons unit := fun s =>
  if negb (c =? 0) && (u32 (i_e s - i_r s) <? INPUT_BUF) then
    let c := if c =? 13 then 10 else c in
    (modify (fun s => set_input (<[Z.to_nat (i_e s mod INPUT_BUF):=u8 c]> (buf s)) (i_r s) (i_w s) (u32 (i_e s + 1)) s) ;;;
     consputc c ;;;
     modify (fun s =>
       if (c =? 10) || (c =? C 68) || (i_e s =? u32 (i_r s + INPUT_BUF)) then
         mkCons (buf s) (i_r s) (i_e s) (i_e s) (crt s) (cursor s) (uart s) (serial s) (locking s) (panicked s) (S (wakeups s))
       else s)) s
  else Ret tt s.

(** One iteration of [consoleintr]; [dump] is what [procdump] prints. *)
Definition consolekey (dump : list Z) (c : Z) : M cons unit :=
  if c =? C 80 then consputs dump
  else if c =? C 85 then kill_line (S (Z.to_nat INPUT_BUF))
  else if (c =? C 72) || (c =? 127) then fun s =>
    if negb (i_e s =? i_w s)
    then (modify (fun s => set_input (buf s) (i_r s) (i_w s) (u32 (i_e s - 1)) s) ;;; consputc BACKSPACE) s
    else Ret tt s
  else consolechar c.

(** [keys] is what [getc] delivers until it returns a negative number. *)
Fixpoint consoleintr (dump keys : list Z) : M cons unit :=
  match keys with
  | [] => ret tt
  | c :: keys' => if 0 <=? c then consolekey dump c ;;; consoleintr dump keys' else ret tt
  end.

(** How a section of [consoleread] ends: it returns, or sleeps with [n] bytes to go. *)
Inductive rres := RDone (ret : Z) | RSleep (n : nat).

(** The section of [consoleread] that starts with [n] of [target] bytes to go, with the
    bytes it stores at [dst]. *)
Fixpoint consoleread_loop (killed : bool) (target : Z) (n : nat) (s : cons) : cons * list Z * rres :=
  match n with
  | O => (s, [], RDone target)
  | S n' =>
      if i_r s =? i_w s then (s, [], if killed then RDone (-1) else RSleep n)
      else
        let c := ring_at (buf s) (i_r s) in
        let s1 := set_input (buf s) (u32 (i_r s + 1)) (i_w s) (i_e s) s in
        if c =? C 68 then
          (if Z.of_nat n <? target then set_input (buf s) (u32 (u32 (i_r s + 1) - 1)) (i_w s) (i_e s) s else s1,
           [], RDone (target - Z.of_nat n))
        else if c =? 10 then (s1, [c], RDone (target - Z.of_nat n'))
        else let '(s2, l, r) := consoleread_loop killed target n' s1 in (s2, c :: l, r)
  end.

(** The first section: [target] is [n], a negative [n] reads nothing. *)
Definition consoleread (killed : bool) (n : Z) (s : cons) : cons * list Z * rres :=
  if n <=? 0 then (s, [], RDone 0) else consoleread_loop killed n (Z.to_nat n) s.

(** The state after [consoleinit], on the screen the BIOS left. *)
Definition cons_init (screen : list Z) (pos : Z) (hasuart : bool) : cons :=
  mkCons (replicate (Z.to_nat INPUT_BUF) 0) 0 0 0 screen pos hasuart [] true false 0.

(** ** The ring *)

(** The [n] bytes from counter [i] on. *)
Definition ring (b : list Z) (i : Z) (n : nat) : list Z := (fun k => ring_at b (i + Z.of_nat k)) <$> seq 0 n.

Lemma ring_app b i n m : ring b i (n + m) = ring b i n ++ ring b (i + Z.of_nat n) m.
Proof.
  unfold ring. rewrite seq_app, fmap_app. f_equal. rewrite Nat.add_0_l, <- (Nat.add_0_r n) at 1. rewrite <- fmap_add_seq, <- list_fmap_compose.
  apply list_fmap_ext. intros j k _. unfold compose. f_equal. lia.
Qed.

Lemma ring_u32 b i n : ring b (u32 i) n = ring b i n.
Proof. unfold ring. apply list_fmap_ext. intros j k _. unfold ring_at, INPUT_BUF. do 2 f_equal. u32_lia. Qed.

Lemma ring_S b i n : ring b i (S n) = ring_at b i :: ring b (u32 (i + 1)) n.
Proof. rewrite ring_u32. change (S n) with (1 + n)%nat. rewrite ring_app. unfold ring at 1. simpl. by rewrite Z.add_0_r. Qed.

Lemma ring_snoc b i n : ring b i (S n) = ring b i n ++ [ring_at b (i + Z.of_nat n)].
Proof. rewrite <- (Nat.add_1_r n), ring_app. unfold ring at 2. simpl. by rewrite Z.add_0_r. Qed.

(** A store at a counter does not change the up to 127 bytes before it. *)
Lemma ring_store b i n e c : length b = 128%nat -> (forall k, (k < n)%nat -> (i + Z.of_nat k) mod 128 <> e mod 128) ->
  ring (<[Z.to_nat (e mod INPUT_BUF):=c]> b) i n = ring b i n.
Proof.
  intros Hb Hne. unfold ring. apply list_fmap_ext. intros j k Hk. apply lookup_seq in Hk as [-> Hk]. unfold ring_at, INPUT_BUF.
  rewrite !nth_lookup, list_lookup_insert_ne; [done|]. specialize (Hne j Hk). simpl. dlia.
Qed.

Lemma ring_at_store b e c : length b = 128%nat -> ring_at (<[Z.to_nat (e mod INPUT_BUF):=c]> b) e = c.
Proof. intros Hb. unfold ring_at, INPUT_BUF. rewrite nth_lookup, list_lookup_insert_eq; [done|]. dlia. Qed.

(** ** The specification: lines that can be read, and the line being edited *)

Definition queues : Type := list Z * list Z.

Definition spec_key (q : queues) (c : Z) : queues :=
  let '(ready, line) := q in
  if c =? C 80 then q
  else if c =? C 85 then (ready, [])
  else if (c =? C 72) || (c =? 127) then (ready, take (length line - 1) line)
  else if negb (c =? 0) && (length ready + length line <? 128)%nat then
    let c := if c =? 13 then 10 else c in
    let line := line ++ [c] in
    if (c =? 10) || (c =? C 68) || (length ready + length line =? 128)%nat then (ready ++ line, []) else (ready, line)
  else q.

(** A read takes bytes up to a newline or control-D; a control-D that does not come
    first stays in the queue. *)
Fixpoint spec_read (killed : bool) (target : Z) (n : nat) (ready : list Z) : list Z * list Z * rres :=
  match n, ready with
  | O, _ => (ready, [], RDone target)
  | S _, [] => ([], [], if killed then RDone (-1) else RSleep n)
  | S n', c :: ready' =>
      if c =? C 68 then (if Z.of_nat n <? target then ready else ready', [], RDone (target - Z.of_nat n))
      else if c =? 10 then (ready', [c], RDone (target - Z.of_nat n'))
      else let '(q, l, r) := spec_read killed target n' ready' in (q, c :: l, r)
  end.

(** Interrupts, and sections of reads by any process. *)
Inductive event := Intr (keys : list Z) | Read (killed : bool) (target : Z) (n : nat).

Fixpoint run (dump : list Z) (evs : list event) (s : cons) : option (list (list Z * rres)) :=
  match evs with
  | [] => Some []
  | Intr keys :: evs' => match consoleintr dump keys s with Ret _ s' => run dump evs' s' | _ => None end
  | Read killed target n :: evs' =>
      let '(s', l, r) := consoleread_loop killed target n s in
      match run dump evs' s' with Some out => Some ((l, r) :: out) | None => None end
  end.

Fixpoint spec_run (evs : list event) (q : queues) : list (list Z * rres) :=
  match evs with
  | [] => []
  | Intr keys :: evs' => spec_run evs' (foldl spec_key q keys)
  | Read killed target n :: evs' => let '(ready, l, r) := spec_read killed target n q.1 in (l, r) :: spec_run evs' (ready, q.2)
  end.

Definition cnt (i j : Z) : nat := Z.to_nat (u32 (j - i)).

Record cinv (s : cons) (q : queues) : Prop := {
  ci_buf : length (buf s) = 128%nat;
  ci_r : is_u32 (i_r s);
  ci_w : is_u32 (i_w s);
  ci_e : is_u32 (i_e s);
  ci_len : (cnt (i_r s) (i_w s) + cnt (i_w s) (i_e s) <= 128)%nat;
  ci_ready : q.1 = ring (buf s) (i_r s) (cnt (i_r s) (i_w s));
  ci_line : q.2 = ring (buf s) (i_w s) (cnt (i_w s) (i_e s));
  ci_nonl : 10 ∉ q.2;
  ci_run : panicked s = false;
}.

(** Output does not touch the input. *)
Definition same_input (s s' : cons) : Prop :=
  buf s' = buf s /\ i_r s' = i_r s /\ i_w s' = i_w s /\ i_e s' = i_e s /\ panicked s' = panicked s.

Lemma same_trans s1 s2 s3 : same_input s1 s2 -> same_input s2 s3 -> same_input s1 s3.
Proof. intros (H1 & H2 & H3 & H4 & H5) (K1 & K2 & K3 & K4 & K5). split_and!; congruence. Qed.

Lemma uartputc_same c s : same_input s (uartputc c s).
Proof. unfold uartputc. by destruct (uart s). Qed.

Lemma cgaputc_same c s : same_input s (cgaputc c s).
Proof.
  unfold cgaputc. destruct (if c =? 10 then _ else _) as [crt1 pos1]. by destruct (if 24 <=? pos1 / 80 then _ else _).
Qed.

Lemma consputc_wp c s : panicked s = false -> wp (consputc c) (fun _ s' => same_input s s') s.
Proof.
  intros Hp. unfold wp, consputc. rewrite Hp. eapply same_trans; [|apply cgaputc_same].
  destruct (c =? BACKSPACE); eauto using same_trans, uartputc_same.
Qed.

Lemma consputs_wp l s : panicked s = false -> wp (consputs l) (fun _ s' => same_input s s') s.
Proof.
  revert s. induction l as [|c l IH]; intros s Hp; cbn [consputs]; [by apply wp_ret|]. apply wp_bind.
  eapply wp_mono; [by apply consputc_wp|]. intros _ s1 (H1 & H2 & H3 & H4 & H5). eapply wp_mono; [apply IH; congruence|].
  intros _ s2 (K1 & K2 & K3 & K4 & K5). split_and!; congruence.
Qed.

Lemma cinv_same s s' q : cinv s q -> same_input s s' -> cinv s' q.
Proof. intros [] (H1 & H2 & H3 & H4 & H5). split; rewrite ?H1, ?H2, ?H3, ?H4, ?H5; done. Qed.

Lemma length_ring b i n : length (ring b i n) = n.
Proof. unfold ring. by rewrite length_fmap, length_seq. Qed.

(** Erasing the last character of the line. *)
Lemma erase_wp s ready line : cinv s (ready, line) -> i_e s <> i_w s ->
  wp (consputc BACKSPACE) (fun _ s' => cinv s' (ready, take (length line - 1) line))
    (set_input (buf s) (i_r s) (i_w s) (u32 (i_e s - 1)) s).
Proof.
  intros [Hb Hr Hw He Hl Hq1 Hq2 Hnl Hp] Hne. simpl in *. eapply wp_mono; [by apply consputc_wp|].
  intros [] s' Hs. eapply cinv_same; [|exact Hs].
  assert (Hc : cnt (i_w s) (i_e s) = S (cnt (i_w s) (u32 (i_e s - 1)))) by (unfold cnt; clear - Hw He Hne; u32_lia).
  split; simpl; try done; [apply u32_range|lia| |].
  - rewrite Hq2, length_ring, Hc, ring_snoc, Nat.sub_1_r. cbn [Nat.pred]. rewrite take_app_le by (rewrite length_ring; done).
    by rewrite take_ge by (rewrite length_ring; done).
  - intros Hin. apply Hnl. rewrite <- (take_drop (length line - 1) line). apply elem_of_app. by left.
Qed.

Lemma line_nil s ready line : cinv s (ready, line) -> line = [] <-> i_e s = i_w s.
Proof.
  intros [Hb Hr Hw He Hl Hq1 Hq2 Hnl Hp]. simpl in *. rewrite <- length_zero_iff_nil, Hq2, length_ring. unfold cnt.
  clear - Hw He. u32_lia.
Qed.

Lemma line_last s ready line : cinv s (ready, line) -> i_e s <> i_w s -> ring_at (buf s) (u32 (i_e s - 1)) ∈ line.
Proof.
  intros [Hb Hr Hw He Hl Hq1 Hq2 Hnl Hp] Hne. simpl in *. rewrite Hq2.
  assert (Hc : cnt (i_w s) (i_e s) = S (cnt (i_w s) (u32 (i_e s - 1)))) by (unfold cnt; clear - Hw He Hne; u32_lia).
  rewrite Hc, ring_snoc. apply elem_of_app. right. apply list_elem_of_singleton. unfold ring_at, INPUT_BUF. do 2 f_equal.
  unfold cnt. clear - Hw He Hne. u32_lia.
Qed.

Lemma kill_line_wp n s ready line : cinv s (ready, line) -> (length line < n)%nat ->
  wp (kill_line n) (fun _ s' => cinv s' (ready, [])) s.
Proof.
  revert s line. induction n as [|n IH]; intros s line Hi Hn; [lia|]. unfold wp. cbn [kill_line].
  destruct (Z.eqb_spec (i_e s) (i_w s)) as [E|E]; cbn [negb andb].
  - apply (line_nil _ _ _ Hi) in E. by rewrite E in Hi.
  - destruct (Z.eqb_spec (ring_at (buf s) (u32 (i_e s - 1))) 10) as [E'|_]; cbn [negb].
    { exfalso. apply (ci_nonl _ _ Hi). simpl. rewrite <- E'. by eapply line_last. }
    apply (wp_bind (consputc BACKSPACE) (fun _ => kill_line n)). eapply wp_mono; [by apply erase_wp|]. intros [] s' Hi'.
    eapply IH; [exact Hi'|]. rewrite length_take. assert (length line <> O); [|lia].
    rewrite length_zero_iff_nil. by rewrite (line_nil _ _ _ Hi).
Qed.

(** Storing a character at the end of the line. *)
Lemma store_line s ready line c : cinv s (ready, line) -> (length ready + length line < 128)%nat ->
  let b' := <[Z.to_nat (i_e s mod INPUT_BUF):=c]> (buf s) in
  let e' := u32 (i_e s + 1) in
  ready = ring b' (i_r s) (cnt (i_r s) (i_w s)) /\ line ++ [c] = ring b' (i_w s) (cnt (i_w s) e') /\
  cnt (i_w s) e' = S (length line) /\ cnt (i_r s) e' = (length ready + S (length line))%nat /\
  ready ++ line ++ [c] = ring b' (i_r s) (cnt (i_r s) e').
Proof.
  intros [Hb Hr Hw He Hl Hq1 Hq2 Hnl Hp] Hlt. simpl in *. rewrite Hq1, Hq2, !length_ring in Hlt. rewrite Hq1, Hq2, !length_ring.
  assert (H1 : cnt (i_w s) (u32 (i_e s + 1)) = S (cnt (i_w s) (i_e s))) by (unfold cnt in *; clear - Hw He Hr Hlt; u32_lia).
  assert (H2 : cnt (i_r s) (u32 (i_e s + 1)) = (cnt (i_r s) (i_w s) + S (cnt (i_w s) (i_e s)))%nat).
  { unfold cnt in *. clear - Hw He Hr Hlt. u32_lia. }
  assert (R1 : ring (<[Z.to_nat (i_e s mod INPUT_BUF):=c]> (buf s)) (i_r s) (cnt (i_r s) (i_w s)) = ring (buf s) (i_r s) (cnt (i_r s) (i_w s))).
  { apply ring_store; [done|]. unfold cnt in *. clear - Hw He Hr Hlt. intros k Hk. u32_lia. }
  assert (R2 : ring (<[Z.to_nat (i_e s mod INPUT_BUF):=c]> (buf s)) (i_w s) (S (cnt (i_w s) (i_e s))) = ring (buf s) (i_w s) (cnt (i_w s) (i_e s)) ++ [c]).
  { rewrite ring_snoc. f_equal.
    - apply ring_store; [done|]. unfold cnt in *. clear - Hw He Hr Hlt. intros k Hk. u32_lia.
    - f_equal. rewrite <- (ring_at_store (buf s) (i_e s) c Hb) at 2. unfold ring_at, INPUT_BUF. do 2 f_equal. unfold cnt. clear - Hw He. u32_lia. }
  rewrite H1, H2, ring_app, R1. split_and!; [done|by rewrite R2|done|done|]. f_equal. rewrite <- R2. rewrite <- ring_u32.
  rewrite <- (ring_u32 _ (i_r s + _)). f_equal. unfold cnt. clear - Hw Hr. u32_lia.
Qed.

(** A character for the line. *)
Lemma consolechar_wp c s ready line : is_byte c -> cinv s (ready, line) -> c <> C 80 -> c <> C 85 -> c <> C 72 -> c <> 127 ->
  wp (consolechar c) (fun _ s' => cinv s' (spec_key (ready, line) c)) s.
Proof.
  intros Hc Hi N1 N2 N3 N4. unfold spec_key, wp, consolechar.
  destruct (Z.eqb_spec c (C 80)); [done|]. destruct (Z.eqb_spec c (C 85)); [done|].
  destruct (Z.eqb_spec c (C 72)); [done|]. destruct (Z.eqb_spec c 127); [done|]. cbn [orb].
  pose proof Hi as [Hb Hr Hw He Hl Hq1 Hq2 Hnl Hp]. simpl in Hq1, Hq2, Hnl, Hl.
  assert (Hlen : Z.of_nat (length ready + length line) = u32 (i_e s - i_r s)).
  { rewrite Hq1, Hq2, !length_ring. unfold cnt in *. clear - Hr Hw He Hl. u32_lia. }
  assert (Hcond : (u32 (i_e s - i_r s) <? INPUT_BUF) = (length ready + length line <? 128)%nat).
  { rewrite <- Hlen. unfold INPUT_BUF. destruct (Z.ltb_spec (Z.of_nat (length ready + length line)) 128), (Nat.ltb_spec (length ready + length line) 128); done || lia. }
  rewrite Hcond. destruct (Z.eqb_spec c 0) as [|Hc0]; cbn [negb andb]; [done|].
  destruct (Nat.ltb_spec (length ready + length line) 128) as [Hlt|]; [|done].
  set (c' := if c =? 13 then 10 else c). assert (Hc' : u8 c' = c') by (apply u8_small; unfold c'; destruct (c =? 13); unfold is_byte in *; lia).
  rewrite Hc'. destruct (store_line s ready line c' Hi Hlt) as (S1 & S2 & S3 & S4 & S5). cbv zeta in *.
  set (b' := <[Z.to_nat (i_e s mod INPUT_BUF):=c']> (buf s)) in *. set (e' := u32 (i_e s + 1)) in *.
  apply (wp_bind (consputc c')). eapply wp_mono; [by apply consputc_wp|]. intros [] s' (K1 & K2 & K3 & K4 & K5). apply wp_modify.
  simpl in K1, K2, K3, K4, K5. fold b' in K1. fold e' in K4. rewrite K2, K4.
  assert (Hfull : (e' =? u32 (i_r s + INPUT_BUF)) = (length ready + length (line ++ [c']) =? 128)%nat).
  { rewrite length_app. simpl. assert (He' : is_u32 e') by apply u32_range. unfold cnt, INPUT_BUF in *. clear - S4 Hr He'.
    destruct (Z.eqb_spec e' (u32 (i_r s + 128))), (Nat.eqb_spec (length ready + (length line + 1)) 128); try done; u32_lia. }
  rewrite Hfull. assert (He' : is_u32 e') by apply u32_range. assert (Hb' : length b' = 128%nat) by (unfold b'; by rewrite length_insert).
  assert (Hnil : cnt e' e' = O) by (unfold cnt; by rewrite Z.sub_diag).
  destruct ((c' =? 10) || (c' =? C 68) || (length ready + length (line ++ [c']) =? 128)%nat) eqn:Hcommit.
  - split; simpl; rewrite ?K1, ?K2, ?K4, ?K5, ?Hnil; try done; [lia|]. intros []%not_elem_of_nil.
  - rewrite !orb_false_iff, Z.eqb_neq in Hcommit. split; simpl; rewrite ?K1, ?K2, ?K3, ?K4, ?K5; try done.
    + rewrite S3. rewrite Hq1, length_ring in Hlt. lia.
    + rewrite elem_of_app, list_elem_of_singleton. naive_solver.
Qed.

Lemma consolekey_wp dump c s q : is_byte c -> cinv s q -> wp (consolekey dump c) (fun _ s' => cinv s' (spec_key q c)) s.
Proof.
  intros Hc Hi. destruct q as [ready line]. pose proof Hi as [Hb Hr Hw He Hl Hq1 Hq2 Hnl Hp]. simpl in Hq2, Hl.
  destruct (Z.eq_dec c (C 80)) as [->|N1].
  { eapply wp_mono; [by apply consputs_wp|]. intros [] s' Hs. by eapply cinv_same. }
  destruct (Z.eq_dec c (C 85)) as [->|N2].
  { eapply kill_line_wp; [done|]. rewrite Hq2, length_ring. unfold INPUT_BUF. lia. }
  destruct (decide (c = C 72 \/ c = 127)) as [H3|H3].
  - assert (Heq : consolekey dump c = fun s => if negb (i_e s =? i_w s)
      then (modify (fun s => set_input (buf s) (i_r s) (i_w s) (u32 (i_e s - 1)) s) ;;; consputc BACKSPACE) s else Ret tt s) by (by destruct H3 as [->| ->]).
    assert (Hspec : spec_key (ready, line) c = (ready, take (length line - 1) line)) by (by destruct H3 as [->| ->]).
    rewrite Heq, Hspec. unfold wp. destruct (Z.eqb_spec (i_e s) (i_w s)) as [E|E]; cbn [negb]; [|by apply erase_wp].
    apply (line_nil _ _ _ Hi) in E. by rewrite E in *.
  - assert (Heq : consolekey dump c = consolechar c).
    { unfold consolekey. destruct (Z.eqb_spec c (C 80)), (Z.eqb_spec c (C 85)), (Z.eqb_spec c (C 72)), (Z.eqb_spec c 127); naive_solver. }
    rewrite Heq. apply consolechar_wp; naive_solver.
Qed.

Lemma consoleintr_wp dump keys s q : Forall is_byte keys -> cinv s q -> wp (consoleintr dump keys) (fun _ s' => cinv s' (foldl spec_key q keys)) s.
Proof.
  intros Hk. revert s q. induction Hk as [|c keys Hc Hk IH]; intros s q Hi; cbn [consoleintr foldl]; [done|].
  destruct (Z.leb_spec 0 c); [|unfold is_byte in Hc; lia]. apply wp_bind. eapply wp_mono; [by apply consolekey_wp|]. intros [] s' Hi'. by apply IH.
Qed.

Lemma consoleread_refines killed target n s ready line : cinv s (ready, line) ->
  let '(s', l, r) := consoleread_loop killed target n s in
  let '(ready', l', r') := spec_read killed target n ready in cinv s' (ready', line) /\ l = l' /\ r = r'.
Proof.
  revert s ready. induction n as [|n IH]; intros s ready Hi; cbn [consoleread_loop spec_read]; [done|].
  pose proof Hi as [Hb Hr Hw He Hl Hq1 Hq2 Hnl Hp]. simpl in Hq1, Hq2, Hnl, Hl.
  destruct (Z.eqb_spec (i_r s) (i_w s)) as [E|E].
  { assert (ready = []) as ->; [|done]. rewrite Hq1, E. unfold cnt. by rewrite Z.sub_diag. }
  assert (Hc : cnt (i_r s) (i_w s) = S (cnt (u32 (i_r s + 1)) (i_w s))) by (unfold cnt; clear - Hr Hw E; u32_lia).
  rewrite Hc, ring_S in Hq1. rewrite Hq1.
  assert (Hi1 : cinv (set_input (buf s) (u32 (i_r s + 1)) (i_w s) (i_e s) s) (ring (buf s) (u32 (i_r s + 1)) (cnt (u32 (i_r s + 1)) (i_w s)), line)).
  { split; simpl; try done; [apply u32_range|lia]. }
  destruct (ring_at (buf s) (i_r s) =? C 68).
  - destruct (Z.of_nat (S n) <? target); [|done]. split; [|done].
    assert (Hback : u32 (u32 (i_r s + 1) - 1) = i_r s) by (clear - Hr; u32_lia). rewrite Hback. rewrite <- ring_S, <- Hc.
    split; simpl; done.
  - destruct (ring_at (buf s) (i_r s) =? 10); [done|]. specialize (IH _ _ Hi1).
    destruct (consoleread_loop killed target n _) as [[s' l] r], (spec_read killed target n _) as [[ready' l'] r']. naive_solver.
Qed.

Definition event_ok (ev : event) : Prop := match ev with Intr keys => Forall is_byte keys | Read _ _ _ => True end.

Lemma run_refines dump evs s q : Forall event_ok evs -> cinv s q -> run dump evs s = Some (spec_run evs q).
Proof.
  intros Hev. revert s q. induction Hev as [|ev evs Hok Hev IH]; intros s q Hi; [done|]. destruct ev as [keys|killed target n]; cbn [run spec_run].
  - destruct (proj1 (wp_returns _ _ _) (consoleintr_wp dump keys s q Hok Hi)) as ([] & s' & -> & Hi'). by apply IH.
  - destruct q as [ready line]. pose proof (consoleread_refines killed target n s ready line Hi) as H.
    destruct (consoleread_loop killed target n s) as [[s' l] r]. cbn [fst snd]. destruct (spec_read killed target n ready) as [[ready' l'] r'].
    destruct H as (Hi' & -> & ->). by rewrite (IH _ _ Hi').
Qed.

Lemma cinv_init screen pos u : cinv (cons_init screen pos u) ([], []).
Proof. split; simpl; try done; try (compute; lia). intros []%not_elem_of_nil. Qed.

(** C23: the console input is a line editor.  From boot on, for every sequence of
    keyboard or serial interrupts and of sections of [consoleread] by any processes, no
    handler hangs, and every read delivers what it would from two queues: bytes typed go
    to the line being edited, backspace and control-U edit only that line, a newline, a
    control-D or a full buffer makes it readable, and reads take bytes in order, up to a
    newline or control-D.  The 32-bit counters of the ring may wrap. *)
Theorem console_refines dump evs screen pos u : Forall event_ok evs ->
  run dump evs (cons_init screen pos u) = Some (spec_run evs ([], [])).
Proof. intros Hev. apply run_refines; [done|apply cinv_init]. Qed.

(** [a b ^H c \r d], a read, then [^D]. *)
Lemma console_refines_witness :
  run [] [Intr [97; 98; 8; 99; 13; 100]; Read false 10 10; Intr [4]; Read false 10 10; Read false 10 10; Read false 10 10]
    (cons_init (replicate 2000 0) 0 true) =
  Some [([97; 99; 10], RDone 3); ([100], RDone 1); ([], RDone 0); ([], RSleep 10)].
Proof.
  refine (eq_trans (console_refines [] _ (replicate 2000 0) 0 true _) eq_refl).
  repeat constructor; unfold is_byte; lia.
Defined.

(** ** The screen *)

(** The cursor is on the 25 rows of the screen. *)
Definition on_screen (s : cons) : Prop := length (crt s) = 2000%nat /\ 0 <= cursor s < 2000.

(** Where [cgaputc] moves the cursor before scrolling. *)
Definition advance (c pos : Z) : Z :=
  if c =? 10 then pos + (80 - pos mod 80) else if c =? BACKSPACE then (if 0 <? pos then pos - 1 else pos) else pos + 1.

Lemma length_scroll l pos : length l = 2000%nat -> 0 <= pos <= 1920 -> length (scroll l pos) = 2000%nat.
Proof.
  intros Hl Hp. assert (Hw : length (window l 80 (23 * 80)) = 1840%nat) by (apply length_window; lia). unfold scroll.
  assert (H1 : length (splice l 0 (window l 80 (23 * 80))) = 2000%nat) by (rewrite length_splice; lia).
  rewrite length_splice; [done|]. rewrite length_replicate. lia.
Qed.

(** A row of the screen after scrolling is the next row before. *)
Lemma scroll_row l pos i : length l = 2000%nat -> 1840 <= pos <= 1920 -> (i < 1840)%nat -> scroll l pos !! i = l !! (80 + i)%nat.
Proof.
  intros Hl Hp Hi. assert (Hw : length (window l 80 (23 * 80)) = 1840%nat) by (apply length_window; lia). unfold scroll.
  assert (H1 : length (splice l 0 (window l 80 (23 * 80))) = 2000%nat) by (rewrite length_splice; lia).
  rewrite lookup_splice by (rewrite length_replicate; lia). rewrite decide_False by (rewrite length_replicate; lia).
  rewrite lookup_splice by lia. rewrite decide_True by lia. rewrite Nat.sub_0_r. apply lookup_window. lia.
Qed.

Definition put_char (c : Z) (s : cons) : list Z :=
  if (c =? 10) || (c =? BACKSPACE) then crt s else <[Z.to_nat (cursor s):=Z.lor (Z.land c 255) 1792]> (crt s).

Lemma cgaputc_eq c s : cgaputc c s =
  let pos := advance c (cursor s) in
  if 24 <=? pos / 80
  then set_screen (<[Z.to_nat (pos - 80):=Z.lor 32 1792]> (scroll (put_char c s) (pos - 80))) (u16 (pos - 80)) s
  else set_screen (<[Z.to_nat pos:=Z.lor 32 1792]> (put_char c s)) (u16 pos) s.
Proof.
  unfold cgaputc, advance, put_char. cbv zeta. destruct (c =? 10); cbn [orb]; [by destruct (24 <=? _)|].
  destruct (c =? BACKSPACE); by destruct (24 <=? _).
Qed.

Lemma advance_range c pos : 0 <= pos < 2000 ->
  0 <= advance c pos <= 2000 /\ (pos < 1920 -> advance c pos <= 1920) /\ (c <> 10 -> c <> BACKSPACE -> advance c pos = pos + 1).
Proof.
  intros Hp. unfold advance. destruct (Z.eqb_spec c 10); [split_and!; try done; dlia|].
  destruct (Z.eqb_spec c BACKSPACE); [|lia]. destruct (Z.ltb_spec 0 pos); split_and!; try done; lia.
Qed.

Lemma put_char_spec c s : on_screen s -> length (put_char c s) = 2000%nat /\
  (0 <= c < 256 -> c <> 10 -> put_char c s !! Z.to_nat (cursor s) = Some (Z.lor c 1792)).
Proof.
  intros [Hl Hc]. unfold put_char. split; [destruct (_ || _); by rewrite ?length_insert|]. intros Hb N.
  destruct (Z.eqb_spec c 10); [done|]. destruct (Z.eqb_spec c BACKSPACE); [unfold BACKSPACE in *; lia|]. cbn [orb].
  rewrite list_lookup_insert_eq by lia. change 255 with (Z.ones 8). rewrite Z.land_ones by lia. by rewrite Z.mod_small.
Qed.

(** Screen output stays on the screen.  While the cursor is on the 25 rows, every
    access of [cgaputc] to the CGA memory is inside of them, the length it passes to
    [memset] is never negative, the cursor stays there (and on the first 24 rows once it
    is), and the new cursor cell is blank.  A character printed on the first 24 rows
    appears where the cursor was, one row up if the screen scrolls. *)
Theorem cgaputc_on_screen c s : on_screen s -> 0 <= c <= 256 ->
  let pos := advance c (cursor s) in
  let up := if 24 <=? pos / 80 then 80 else 0 in
  let s' := cgaputc c s in
  on_screen s' /\ cursor s' = pos - up /\ (cursor s < 1920 -> cursor s' < 1920) /\ pos - up <= 24 * 80 /\
  crt s' !! Z.to_nat (pos - up) = Some (Z.lor 32 1792) /\
  (c <> 10 -> c <> BACKSPACE -> cursor s < 1920 -> crt s' !! Z.to_nat (cursor s - up) = Some (Z.lor c 1792)).
Proof.
  intros Hs Hc. destruct (put_char_spec c s Hs) as [P1 P2]. pose proof Hs as [Hl Hp].
  destruct (advance_range c (cursor s) Hp) as (A1 & A2 & A3). cbv zeta. rewrite cgaputc_eq. cbv zeta. unfold on_screen.
  assert (Hu : forall x, 0 <= x < 2000 -> u16 x = x) by (intros x Hx; unfold u16; dlia).
  destruct (Z.leb_spec 24 (advance c (cursor s) / 80)) as [H24|H24]; cbn [crt cursor set_screen].
  - assert (H80 : 1920 <= advance c (cursor s) <= 2000) by dlia. pose proof (length_scroll (put_char c s) (advance c (cursor s) - 80) P1 ltac:(lia)) as Hls.
    rewrite Hu by lia. rewrite length_insert. split_and!; try lia; [by rewrite list_lookup_insert_eq by lia|].
    intros N1 N2 Hrow. rewrite A3 in * by done. rewrite list_lookup_insert_ne by lia. rewrite scroll_row; [|done|lia|lia].
    rewrite <- P2; [f_equal; lia|unfold BACKSPACE in *; lia|done].
  - assert (H80 : advance c (cursor s) < 1920) by dlia. rewrite Hu, Z.sub_0_r by lia. rewrite length_insert.
    split_and!; try lia; [by rewrite list_lookup_insert_eq by lia|].
    intros N1 N2 Hrow. rewrite A3 in * by done. rewrite Z.sub_0_r, list_lookup_insert_ne by lia.
    apply P2; [unfold BACKSPACE in *; lia|done].
Qed.

Definition demo_screen : cons := cons_init (replicate 2000 0) 1919 true.
Lemma cgaputc_on_screen_witness : cursor (cgaputc 65 demo_screen) = 1840 /\ crt (cgaputc 65 demo_screen) !! 1839%nat = Some (Z.lor 65 1792).
Proof.
  assert (Hs : on_screen demo_screen) by (split; [reflexivity|simpl; lia]).
  destruct (cgaputc_on_screen 65 demo_screen Hs ltac:(lia)) as (_ & H1 & _ & _ & _ & H2). split; [exact H1|].
  apply H2; unfold BACKSPACE; simpl; lia.
Defined.

(** On the last row of the screen, where only the firmware can leave the cursor, a
    printed character is lost: scrolling moves 23 rows only. *)
Lemma cgaputc_last_row : crt (cgaputc 65 (cons_init (replicate 2000 0) 1930 true)) !! 1850%nat = Some 0.
Proof. by vm_compute. Qed.

End Console.
