(* ===== verification/Kbd.v ===== *)
(** * kbd.c, kbd.h: the keyboard

    [Module Kbd] translates the scan code tables and [kbdgetc], which keeps the state of
    the modifier keys, and [kbdintr], which feeds the console.

    [kbd_state]: whatever the keyboard sends, the tables are indexed inside of their
    bounds and the console gets bytes. *)

From S2P Require Import Prelude CString Printf Console.

Module Kbd.

Definition KBS_DIB : Z := 1.
Definition SHIFT : Z := 1.
Definition CTL : Z := 2.
Definition CAPSLOCK : Z := 8.
Definition E0ESC : Z := 64.

(** A table of 256 bytes: the leading entries, and the designated ones. *)
Definition table (l : list Z) (d : list (nat * Z)) : list Z :=
  foldl (fun t e => <[e.1:=e.2]> t) (l ++ replicate (256 - length l) 0) d.

Definition shiftcode : list Z :=
  table []
    [(29%nat, 2); (42%nat, 1); (54%nat, 1); (56%nat, 4); (157%nat, 2); (184%nat, 4)].
Definition togglecode : list Z :=
  table []
    [(58%nat, 8); (69%nat, 16); (70%nat, 32)].
Definition normalmap : list Z :=
  table [0; 27; 49; 50; 51; 52; 53; 54; 55; 56; 57; 48; 45; 61; 8; 9;
     113; 119; 101; 114; 116; 121; 117; 105; 111; 112; 91; 93; 10; 0; 97; 115;
     100; 102; 103; 104; 106; 107; 108; 59; 39; 96; 0; 92; 122; 120; 99; 118;
     98; 110; 109; 44; 46; 47; 0; 42; 0; 32; 0; 0; 0; 0; 0; 0;
     0; 0; 0; 0; 0; 0; 0; 55; 56; 57; 45; 52; 53; 54; 43; 49;
     50; 51; 48; 46; 0; 0; 0; 0]
    [(156%nat, 10); (181%nat, 47); (200%nat, 226); (208%nat, 227); (201%nat, 230); (209%nat, 231); (203%nat, 228); (205%nat, 229); (151%nat, 224); (207%nat, 225); (210%nat, 232); (211%nat, 233)].
Definition shiftmap : list Z :=
  table [0; 27; 33; 64; 35; 36; 37; 94; 38; 42; 40; 41; 95; 43; 8; 9;
     81; 87; 69; 82; 84; 89; 85; 73; 79; 80; 123; 125; 10; 0; 65; 83;
     68; 70; 71; 72; 74; 75; 76; 58; 34; 126; 0; 124; 90; 88; 67; 86;
     66; 78; 77; 60; 62; 63; 0; 42; 0; 32; 0; 0; 0; 0; 0; 0;
     0; 0; 0; 0; 0; 0; 0; 55; 56; 57; 45; 52; 53; 54; 43; 49;
     50; 51; 48; 46; 0; 0; 0; 0]
    [(156%nat, 10); (181%nat, 47); (200%nat, 226); (208%nat, 227); (201%nat, 230); (209%nat, 231); (203%nat, 228); (205%nat, 229); (151%nat, 224); (207%nat, 225); (210%nat, 232); (211%nat, 233)].
Definition ctlmap : list Z :=
  table [0; 0; 0; 0; 0; 0; 0; 0; 0; 0; 0; 0; 0; 0; 0; 0;
     17; 23; 5; 18; 20; 25; 21; 9; 15; 16; 0; 0; 13; 0; 1; 19;
     4; 6; 7; 8; 10; 11; 12; 0; 0; 0; 0; 28; 26; 24; 3; 22;
     2; 14; 13; 0; 0; 239; 0; 0]
    [(156%nat, 13); (181%nat, 239); (200%nat, 226); (208%nat, 227); (201%nat, 230); (209%nat, 231); (203%nat, 228); (205%nat, 229); (151%nat, 224); (207%nat, 225); (210%nat, 232); (211%nat, 233)].

Definition at_ (t : list Z) (i : Z) : Z := default 0 (t !! Z.to_nat i).

Definition charcode (i : Z) : list Z := if i =? 0 then normalmap else if i =? 1 then shiftmap else ctlmap.

(** The part of [kbdgetc] after the data port was read: the new value of [shift] and the
    return value. *)
Definition kbd_data (shift data : Z) : Z * Z :=
  if data =? 224 then (Z.lor shift E0ESC, 0)
  else if has_flag data 128 then
    let data := if has_flag shift E0ESC then data else Z.land data 127 in
    (clear_flag shift (Z.lor (at_ shiftcode data) E0ESC), 0)
  else
    let '(data, shift) := if has_flag shift E0ESC then (Z.lor data 128, clear_flag shift E0ESC) else (data, shift) in
    let shift := Z.lor shift (at_ shiftcode data) in
    let shift := Z.lxor shift (at_ togglecode data) in
    let c := at_ (charcode (Z.land shift (Z.lor CTL SHIFT))) data in
    let c := if has_flag shift CAPSLOCK then
               if (97 <=? c) && (c <=? 122) then c + (65 - 97)
               else if (65 <=? c) && (c <=? 90) then c + (97 - 65) else c
             else c in
    (shift, c).

(** [kbdgetc] on the status port [st] and the data port [data]. *)
Definition kbdgetc (shift st data : Z) : Z * Z :=
  if Z.land st KBS_DIB =? 0 then (shift, -1) else kbd_data shift data.

(** The bytes [consoleintr] gets from [kbdgetc] while the controller has the scan codes
    [codes] for it. *)
Fixpoint kbd_keys (shift : Z) (codes : list Z) : Z * list Z :=
  match codes with
  | [] => (shift, [])
  | d :: codes' =>
      let '(shift, c) := kbdgetc shift KBS_DIB d in
      let '(shift, keys) := kbd_keys shift codes' in (shift, c :: keys)
  end.

Definition kbdintr (dump codes : list Z) (shift : Z) : M Console.cons Z :=
  let '(shift, keys) := kbd_keys shift codes in
  Console.consoleintr dump keys ;;; ret shift.

(** ** Properties *)

(** A table access of [kbdgetc] is in bounds. *)
Lemma table_lengths : length shiftcode = 256%nat /\ length togglecode = 256%nat /\ length normalmap = 256%nat /\
  length shiftmap = 256%nat /\ length ctlmap = 256%nat.
Proof. by vm_compute. Qed.

Definition kbd_ok (shift data : Z) : bool :=
  let '(shift', c) := kbd_data shift data in
  (0 <=? shift') && (shift' <? 128) && (0 <=? c) && (c <? 256) && Bool.eqb (has_flag shift' E0ESC) (data =? 224).

Lemma kbd_ok_all : forallb (fun sh => forallb (fun d => kbd_ok (Z.of_nat sh) (Z.of_nat d)) (seq 0 256)) (seq 0 128) = true.
Proof. by vm_compute. Qed.

Lemma kbd_data_ok shift data : 0 <= shift < 128 -> is_byte data -> kbd_ok shift data = true.
Proof.
  intros Hs Hd. pose proof kbd_ok_all as H. rewrite forallb_forall in H. specialize (H (Z.to_nat shift)).
  rewrite Z2Nat.id in H by lia. apply (byte_forall (kbd_ok shift)); [|done]. apply H, in_seq. lia.
Qed.

(** C40: the state of the keyboard driver is well typed.  Whatever scan code arrives in
    whatever modifier state, [kbdgetc] returns a byte, keeps the modifier word in its
    seven bits, and remembers an E0 prefix exactly until the next code. *)
Theorem kbd_state shift data : 0 <= shift < 128 -> is_byte data ->
  let '(shift', c) := kbdgetc shift KBS_DIB data in
  0 <= shift' < 128 /\ is_byte c /\ (has_flag shift' E0ESC = true <-> data = 224).
Proof.
  intros Hs Hd. pose proof (kbd_data_ok shift data Hs Hd) as H. unfold kbdgetc. simpl. unfold kbd_ok in H.
  destruct (kbd_data shift data) as [shift' c]. rewrite !andb_true_iff, !Z.leb_le, !Z.ltb_lt in H.
  destruct H as [[[[H1 H2] H3] H4] H5]. apply Bool.eqb_prop in H5. unfold is_byte. rewrite H5, Z.eqb_eq. split_and!; (lia || done).
Qed.

Lemma kbd_state_witness : let '(shift', c) := kbdgetc 1 KBS_DIB 30 in 0 <= shift' < 128 /\ is_byte c.
Proof.
  pose proof (kbd_state 1 30 ltac:(lia) ltac:(unfold is_byte; lia)) as H. destruct (kbdgetc 1 KBS_DIB 30) as [shift' c].
  destruct H as (H1 & H2 & _). split; [exact H1|exact H2].
Defined.

(** The console gets bytes from the keyboard, so its interrupt is an event of
    [Console.console_refines]. *)
Lemma kbd_keys_bytes shift codes : 0 <= shift < 128 -> Forall is_byte codes ->
  let '(shift', keys) := kbd_keys shift codes in 0 <= shift' < 128 /\ Forall is_byte keys.
Proof.
  intros Hs Hc. revert shift Hs. induction Hc as [|d codes Hd Hc IH]; intros shift Hs; cbn [kbd_keys]; [done|].
  pose proof (kbd_data_ok shift d Hs Hd) as H. unfold kbdgetc. cbn [Z.land]. simpl Z.eqb. cbv iota. unfold kbd_ok in H.
  destruct (kbd_data shift d) as [shift1 c]. rewrite !andb_true_iff, !Z.leb_le, !Z.ltb_lt in H.
  specialize (IH shift1 ltac:(lia)). destruct (kbd_keys shift1 codes) as [shift2 keys]. split; [apply IH|].
  constructor; [unfold is_byte; lia|apply IH].
Qed.

Lemma kbdintr_event shift codes : 0 <= shift < 128 -> Forall is_byte codes -> Console.event_ok (Console.Intr (kbd_keys shift codes).2).
Proof. intros Hs Hc. pose proof (kbd_keys_bytes shift codes Hs Hc). destruct (kbd_keys shift codes). apply H. Qed.

(** Typing [A b] with the shift key: make and break codes. *)
Example kbd_types : kbd_keys 0 [42; 30; 158; 170; 48; 176] = (0, [0; 65; 0; 0; 98; 0]).
Proof. by vm_compute. Qed.

End Kbd.
