(* ===== verification/Umalloc.v ===== *)
(** * umalloc.c: the user-level memory allocator

    [Module Umalloc] translates [malloc], [free] and [morecore].  A [Header *] is its
    address; memory is seen through the two words of the header at an address,
    [s_ptr] and [s_size].  [sbrk] is the system call as a program sees it; whether the
    kernel can grow the process is a parameter.

    The heap is tiled by blocks, free or in use; the free ones and [base] form the
    circular list through the headers.  This file has the code, the lemmas on circular
    lists and on tilings; UmallocSpec proves the allocator correct. *)

From S2P Require Import Prelude.

Module Umalloc.

Definition sizeof_Header : Z := 8.

Record heap := mkHeap { s_ptr : Z -> Z; s_size : Z -> Z; freep : Z; brk : Z }.

Definition fupd (f : Z -> Z) (a v : Z) : Z -> Z := fun x => if x =? a then v else f x.

Definition set_ptr (a v : Z) : M heap unit := modify (fun s => mkHeap (fupd (s_ptr s) a v) (s_size s) (freep s) (brk s)).
Definition set_size (a v : Z) : M heap unit := modify (fun s => mkHeap (s_ptr s) (fupd (s_size s) a v) (freep s) (brk s)).
Definition set_freep (v : Z) : M heap unit := modify (fun s => mkHeap (s_ptr s) (s_size s) v (brk s)).

(** [p + n] on [Header *]. *)
Definition hadd (p n : Z) : Z := u32 (p + sizeof_Header * n).

(** The loop of [free]: the element [p] of the circular list after which [bp] belongs. *)
Fixpoint free_search (fuel : nat) (ptr : Z -> Z) (bp p : Z) : option Z :=
  match fuel with
  | O => None
  | S fuel' =>
      if (p <? bp) && (bp <? ptr p) then Some p
      else if (ptr p <=? p) && ((p <? bp) || (bp <? ptr p)) then Some p
      else free_search fuel' ptr bp (ptr p)
  end.

Definition free (fuel : nat) (ap : Z) : M heap unit :=
  let bp := hadd ap (-1) in
  let* s := gets id in
  match free_search fuel (s_ptr s) bp (freep s) with
  | None => block
  | Some p =>
      let q := s_ptr s p in
      (if hadd bp (s_size s bp) =? q
       then set_size bp (u32 (s_size s bp + s_size s q)) ;;; set_ptr bp (s_ptr s q)
       else set_ptr bp q) ;;;
      let* s := gets id in
      (if hadd p (s_size s p) =? bp
       then set_size p (u32 (s_size s p + s_size s bp)) ;;; set_ptr p (s_ptr s bp)
       else set_ptr p bp) ;;;
      set_freep p
  end.

Section Malloc.
Context (base : Z) (can_grow : Z -> Z -> bool).

(** The system call: the old break, or -1. *)
Definition sbrk (n : Z) : M heap Z := fun s =>
  if can_grow (brk s) (s32 n) then Ret (brk s) (mkHeap (s_ptr s) (s_size s) (freep s) (u32 (brk s + s32 n)))
  else Ret 4294967295 s.

Definition morecore (fuel : nat) (nu : Z) : M heap Z :=
  let nu := if nu <? 4096 then 4096 else nu in
  let* p := sbrk (u32 (nu * sizeof_Header)) in
  if p =? 4294967295 then ret 0
  else
    set_size p nu ;;;
    free fuel (hadd p 1) ;;;
    gets freep.

(** The [for] loop of [malloc]. *)
Fixpoint malloc_loop (fuel : nat) (nunits prevp p : Z) : M heap Z :=
  match fuel with
  | O => block
  | S fuel' =>
      let* s := gets id in
      if nunits <=? s_size s p then
        let* p :=
          (if s_size s p =? nunits then set_ptr prevp (s_ptr s p) ;;; ret p
           else
             set_size p (s_size s p - nunits) ;;;
             let p := hadd p (s_size s p - nunits) in
             set_size p nunits ;;; ret p) in
        set_freep prevp ;;;
        ret (hadd p 1)
      else if p =? freep s then
        let* p := morecore fuel nunits in
        if p =? 0 then ret 0
        else let* q := gets (fun s => s_ptr s p) in malloc_loop fuel' nunits p q
      else malloc_loop fuel' nunits p (s_ptr s p)
  end.

Definition malloc (fuel : nat) (nbytes : Z) : M heap Z :=
  let nunits := u32 (u32 (nbytes + sizeof_Header - 1) / sizeof_Header + 1) in
  let* f := gets freep in
  (if f =? 0 then set_ptr base base ;;; set_freep base ;;; set_size base 0 else ret tt) ;;;
  let* prevp := gets freep in
  let* p := gets (fun s => s_ptr s prevp) in
  malloc_loop fuel nunits prevp p.
End Malloc.

(** ** Circular lists

    [linked ptr a L z]: following [ptr] from [a] leads through [L] to [z]. *)
Fixpoint linked (ptr : Z -> Z) (a : Z) (L : list Z) (z : Z) : Prop :=
  match L with
  | [] => ptr a = z
  | b :: L' => ptr a = b /\ linked ptr b L' z
  end.

(** The last element of [a :: L]. *)
Fixpoint lastd (a : Z) (L : list Z) : Z := match L with [] => a | b :: L' => lastd b L' end.

Lemma fupd_eq f a v : fupd f a v a = v.
Proof. unfold fupd. by rewrite Z.eqb_refl. Qed.

Lemma fupd_ne f a v x : x <> a -> fupd f a v x = f x.
Proof. intros. unfold fupd. by destruct (Z.eqb_spec x a). Qed.

Lemma linked_app ptr a L1 b L2 z : linked ptr a (L1 ++ b :: L2) z <-> linked ptr a L1 b /\ linked ptr b L2 z.
Proof. revert a. induction L1 as [|c L1 IH]; intros a; simpl; [tauto|]. rewrite IH. tauto. Qed.

Lemma linked_ext ptr ptr' a L z : (forall x, x ∈ a :: L -> ptr' x = ptr x) -> linked ptr a L z -> linked ptr' a L z.
Proof.
  revert a. induction L as [|b L IH]; intros a Hx; simpl.
  - intros <-. apply Hx. by apply list_elem_of_here.
  - intros [<- H]. split; [apply Hx; set_solver|]. apply IH; [|done]. intros x Hin. apply Hx. set_solver.
Qed.

Lemma lastd_elem a L : lastd a L ∈ a :: L.
Proof. revert a. induction L as [|b L IH]; intros a; simpl; [set_solver|]. specialize (IH b). set_solver. Qed.

Lemma lastd_in a L L' : lastd a L ∈ a :: L ++ L'.
Proof. pose proof (lastd_elem a L) as H. rewrite app_comm_cons. apply elem_of_app. by left. Qed.

Lemma lastd_snoc a L b : lastd a (L ++ [b]) = b.
Proof. revert a. induction L as [|c L IH]; intros a; simpl; [done|apply IH]. Qed.

Lemma linked_succ ptr a L z x : linked ptr a L z -> x ∈ a :: L -> ptr x ∈ L ++ [z].
Proof.
  revert a. induction L as [|b L IH]; intros a; simpl.
  - intros <-. rewrite !list_elem_of_singleton. by intros ->.
  - intros [Ha H] Hin. apply elem_of_cons in Hin as [->|Hin]; [rewrite Ha; set_solver|]. specialize (IH b H Hin). set_solver.
Qed.

(** The element before [q] is the only one that points to it. *)
Lemma linked_pred ptr a L1 q L2 z x : linked ptr a (L1 ++ q :: L2) z -> NoDup (a :: L1 ++ q :: L2) -> q <> z ->
  x ∈ a :: L1 ++ q :: L2 -> ptr x = q -> x = lastd a L1.
Proof.
  revert a. induction L1 as [|b L1 IH]; intros a; simpl; intros [Ha Hl] Hnd Hq Hin Hx.
  - apply elem_of_cons in Hin as [|Hin]; [done|]. pose proof (linked_succ _ _ _ _ _ Hl Hin) as Hs. rewrite Hx in Hs.
    apply NoDup_cons in Hnd as [_ Hnd]. apply NoDup_cons in Hnd as [Hn _]. set_solver.
  - apply NoDup_cons in Hnd as [Hna Hnd]. apply elem_of_cons in Hin as [->|Hin].
    + apply NoDup_cons in Hnd as [Hn _]. exfalso. apply Hn. set_solver.
    + apply IH; done.
Qed.

(** Insertion after the last element of [a :: L1]. *)
Lemma linked_insert ptr a L1 L2 z q : linked ptr a (L1 ++ L2) z -> NoDup (a :: L1 ++ L2) -> q ∉ a :: L1 ++ L2 ->
  linked (fupd (fupd ptr q (ptr (lastd a L1))) (lastd a L1) q) a (L1 ++ q :: L2) z.
Proof.
  revert a. induction L1 as [|b L1 IH]; intros a; simpl; intros Hl Hnd Hq.
  - apply not_elem_of_cons in Hq as [Hqa Hq]. split; [apply fupd_eq|]. apply NoDup_cons in Hnd as [Hna _]. destruct L2 as [|c L2]; simpl in Hl.
    + simpl. rewrite fupd_ne by done. by rewrite fupd_eq.
    + destruct Hl as [Ha Hl]. simpl. split; [rewrite fupd_ne by done; by rewrite fupd_eq|].
      eapply linked_ext; [|exact Hl]. intros x Hx. rewrite !fupd_ne; [done|congruence|congruence].
  - destruct Hl as [Ha Hl]. apply NoDup_cons in Hnd as [Hna Hnd]. apply not_elem_of_cons in Hq as [Hqa Hq].
    assert (a <> lastd b L1) by (intros E; apply Hna; rewrite E; apply lastd_in). split; [rewrite !fupd_ne by congruence; done|]. by apply IH.
Qed.

(** Removal of the element after the last one of [a :: L1]. *)
Lemma linked_remove ptr a L1 q L2 z : linked ptr a (L1 ++ q :: L2) z -> NoDup (a :: L1 ++ q :: L2) ->
  linked (fupd ptr (lastd a L1) (ptr q)) a (L1 ++ L2) z.
Proof.
  revert a. induction L1 as [|b L1 IH]; intros a; simpl; intros [Ha Hl] Hnd; apply NoDup_cons in Hnd as [Hna Hnd].
  - destruct L2 as [|c L2]; simpl in *; [by rewrite fupd_eq|]. destruct Hl as [Hq Hl]. split; [by rewrite fupd_eq|].
    eapply linked_ext; [|exact Hl]. intros x Hx. rewrite fupd_ne; [done|]. intros ->. apply Hna. by apply list_elem_of_further.
  - assert (a <> lastd b L1) by (intros E; apply Hna; rewrite E; apply lastd_in). split; [rewrite fupd_ne by congruence; done|]. by apply IH.
Qed.

(** The list as a cycle from any of its elements. *)
Lemma linked_rotate ptr a L c : linked ptr a L a -> NoDup (a :: L) -> c ∈ a :: L ->
  exists R, linked ptr c R c /\ c ∉ R /\ (forall x, x ∈ c :: R <-> x ∈ a :: L) /\ length R = length L.
Proof.
  intros Hl Hnd Hc. apply elem_of_cons in Hc as [->|Hc]; [exists L; apply NoDup_cons in Hnd; naive_solver|].
  apply list_elem_of_split in Hc as (L1 & L2 & ->). apply linked_app in Hl as [H1 H2].
  exists (L2 ++ a :: L1). rewrite linked_app. split_and!; [done|done| |set_solver|rewrite !length_app; simpl; rewrite ?length_app; simpl; lia].
  rewrite NoDup_cons, NoDup_app, NoDup_cons in Hnd. set_solver.
Qed.

(** ** The search of [free] *)

(** The last element of [c :: L] below [bp], in increasing order. *)
Fixpoint last_below (bp c : Z) (L : list Z) : Z :=
  match L with
  | [] => c
  | b :: L' => if b <? bp then last_below bp b L' else c
  end.

Fixpoint increasing (c : Z) (L : list Z) : Prop :=
  match L with
  | [] => True
  | b :: L' => c < b /\ increasing b L'
  end.

Lemma increasing_Forall c L : increasing c L -> Forall (fun x => c < x) L.
Proof.
  revert c. induction L as [|b L IH]; intros c; simpl; [constructor|]. intros [H1 H2]. constructor; [done|].
  eapply Forall_impl; [exact (IH b H2)|]. simpl. lia.
Qed.

Lemma increasing_NoDup c L : increasing c L -> NoDup (c :: L).
Proof.
  revert c. induction L as [|b L IH]; intros c Hi; [apply NoDup_singleton|]. apply NoDup_cons. split; [|apply IH; apply Hi].
  intros Hin. apply increasing_Forall in Hi. rewrite Forall_forall in Hi. apply Hi in Hin. lia.
Qed.

Lemma increasing_app c L1 L2 : increasing c (L1 ++ L2) <-> increasing c L1 /\ increasing (lastd c L1) L2.
Proof. revert c. induction L1 as [|b L1 IH]; intros c; simpl; [tauto|]. rewrite IH. tauto. Qed.

Lemma search_below ptr bp c L z f : linked ptr c L z -> increasing c L -> z <= c -> c < bp -> bp ∉ L ->
  free_search (length L + S f) ptr bp c = Some (last_below bp c L).
Proof.
  revert c. induction L as [|b L IH]; intros c Hl Hi Hz Hc Hn; cbn [length Nat.add free_search last_below]; simpl in Hl.
  - rewrite Hl. destruct (Z.ltb_spec c bp); [|lia]. destruct (Z.ltb_spec bp z); [lia|]. cbn [andb orb].
    destruct (Z.leb_spec z c); [done|lia].
  - destruct Hl as [Ha Hl], Hi as [Hb Hi]. apply not_elem_of_cons in Hn as [Hnb Hn]. rewrite Ha.
    destruct (Z.ltb_spec c bp); [|lia]. destruct (Z.ltb_spec bp b), (Z.ltb_spec b bp); cbn [andb]; try (done || lia).
    destruct (Z.leb_spec b c); [lia|]. cbn [andb]. apply IH; (done || lia).
Qed.

Lemma search_above ptr bp c L z f : linked ptr c L z -> increasing c L -> z < bp -> bp < c ->
  free_search (length L + S f) ptr bp c = free_search f ptr bp z.
Proof.
  revert c. induction L as [|b L IH]; intros c Hl Hi Hz Hc; cbn [length Nat.add free_search]; simpl in Hl.
  - rewrite Hl. destruct (Z.ltb_spec c bp); [lia|]. destruct (Z.ltb_spec bp z); [lia|]. cbn [andb orb]. by rewrite andb_false_r.
  - destruct Hl as [Ha Hl], Hi as [Hb Hi]. rewrite Ha. destruct (Z.ltb_spec c bp); [lia|]. cbn [andb].
    destruct (Z.leb_spec b c); [lia|]. cbn [andb]. apply IH; (done || lia).
Qed.

Lemma last_below_split bp c L1 L2 : Forall (fun x => x < bp) L1 -> Forall (fun x => bp < x) L2 -> last_below bp c (L1 ++ L2) = lastd c L1.
Proof.
  intros H1 H2. revert c. induction H1 as [|b L1 Hb H1 IH]; intros c; simpl.
  - destruct H2 as [|d L2 Hd H2]; simpl; [done|]. destruct (Z.ltb_spec d bp); [lia|done].
  - destruct (Z.ltb_spec b bp); [apply IH|lia].
Qed.

(** From any element of the list, the search finds the last block below [bp]. *)
Lemma search_finds ptr bp base L1 L2 c fuel : linked ptr base (L1 ++ L2) base -> increasing base (L1 ++ L2) ->
  base < bp -> Forall (fun x => x < bp) L1 -> Forall (fun x => bp < x) L2 -> c ∈ base :: L1 ++ L2 ->
  (2 * length (L1 ++ L2) + 2 <= fuel)%nat ->
  free_search fuel ptr bp c = Some (lastd base L1).
Proof.
  intros Hl Hi Hb H1 H2 Hc Hf.
  assert (Hn : bp ∉ L1 ++ L2).
  { rewrite elem_of_app. intros [Hin|Hin]; [rewrite Forall_forall in H1; apply H1 in Hin|rewrite Forall_forall in H2; apply H2 in Hin]; lia. }
  assert (Hbase : forall f, (length (L1 ++ L2) + 1 <= f)%nat -> free_search f ptr bp base = Some (lastd base L1)).
  { intros f Hf'. replace f with (length (L1 ++ L2) + S (f - length (L1 ++ L2) - 1))%nat by lia.
    rewrite (search_below ptr bp base (L1 ++ L2) base) by (done || lia). by rewrite last_below_split. }
  apply elem_of_cons in Hc as [->|Hc]; [apply Hbase; lia|]. apply elem_of_app in Hc as [Hc|Hc].
  - apply list_elem_of_split in Hc as (M1 & M2 & ->). rewrite <- app_assoc in *. simpl in *.
    apply linked_app in Hl as [_ Hl]. apply increasing_app in Hi as [Hi1 [Hi2 Hi]].
    assert (Hc : c < bp) by (rewrite Forall_app, Forall_cons in H1; tauto).
    assert (Hbc : base <= c). { pose proof (lastd_elem base M1) as Hin. apply elem_of_cons in Hin as [E|Hin]; [lia|]. apply increasing_Forall in Hi1. rewrite Forall_forall in Hi1. apply Hi1 in Hin. lia. }
    replace fuel with (length (M2 ++ L2) + S (fuel - length (M2 ++ L2) - 1))%nat by (rewrite !length_app in *; simpl in *; rewrite ?length_app in *; lia).
    rewrite (search_below ptr bp c (M2 ++ L2) base); [|done|done|lia|lia|set_solver].
    rewrite last_below_split; [|rewrite Forall_app, Forall_cons in H1; tauto|done]. f_equal. clear. revert base. induction M1; intros; simpl; auto.
  - apply list_elem_of_split in Hc as (M1 & M2 & ->). rewrite app_assoc in Hl, Hi. apply linked_app in Hl as [_ Hl]. apply increasing_app in Hi as [Hi1 [Hi2 Hi]].
    assert (Hc : bp < c) by (rewrite Forall_app, Forall_cons in H2; tauto).
    replace fuel with (length M2 + S (fuel - length M2 - 1))%nat by (rewrite !length_app in *; simpl in *; lia).
    rewrite (search_above ptr bp c M2 base) by done. apply Hbase. rewrite !length_app in *. simpl in *. lia.
Qed.

(** ** Tiles

    The heap from [h] on is a sequence of blocks: their sizes in units and whether they
    are free. *)
Definition tiles := list (Z * bool).

Fixpoint units (T : tiles) : Z := match T with [] => 0 | t :: T' => t.1 + units T' end.
Fixpoint frees (a : Z) (T : tiles) : list Z :=
  match T with
  | [] => []
  | (n, true) :: T' => a :: frees (a + 8 * n) T'
  | (n, false) :: T' => frees (a + 8 * n) T'
  end.
Fixpoint sizes (f : Z -> Z) (a : Z) (T : tiles) : Prop :=
  match T with
  | [] => True
  | (n, _) :: T' => f a = n /\ sizes f (a + 8 * n) T'
  end.

Definition pos_tiles (T : tiles) : Prop := Forall (fun t => 1 <= t.1) T.

Lemma pos_app T1 T2 : pos_tiles (T1 ++ T2) <-> pos_tiles T1 /\ pos_tiles T2.
Proof. apply Forall_app. Qed.

Lemma pos_cons n fr T : pos_tiles ((n, fr) :: T) <-> 1 <= n /\ pos_tiles T.
Proof. unfold pos_tiles. by rewrite Forall_cons. Qed.

Lemma units_app T1 T2 : units (T1 ++ T2) = units T1 + units T2.
Proof. induction T1 as [|t T1 IH]; simpl; [done|]. rewrite IH. lia. Qed.

Lemma units_nonneg T : pos_tiles T -> 0 <= units T.
Proof. induction 1; simpl; lia. Qed.

Lemma frees_app a T1 T2 : frees a (T1 ++ T2) = frees a T1 ++ frees (a + 8 * units T1) T2.
Proof.
  revert a. induction T1 as [|[n []] T1 IH]; intros a; simpl; [f_equal; lia|f_equal; rewrite IH; do 2 f_equal; lia|].
  rewrite IH. do 2 f_equal. lia.
Qed.

Lemma sizes_app f a T1 T2 : sizes f a (T1 ++ T2) <-> sizes f a T1 /\ sizes f (a + 8 * units T1) T2.
Proof.
  revert a. induction T1 as [|[n fr] T1 IH]; intros a; simpl; [rewrite Z.mul_0_r, Z.add_0_r; tauto|].
  rewrite IH. replace (a + 8 * n + 8 * units T1) with (a + 8 * (n + units T1)) by lia. tauto.
Qed.

Lemma frees_range a T : pos_tiles T -> Forall (fun x => a <= x <= a + 8 * units T - 8) (frees a T).
Proof.
  intros HT. revert a. induction HT as [|[n fr] T Hn HT IH]; intros a; [constructor|]. simpl in Hn. pose proof (units_nonneg T HT).
  assert (Forall (fun x => a <= x <= a + 8 * units ((n, fr) :: T) - 8) (frees (a + 8 * n) T)).
  { eapply Forall_impl; [apply IH|]. simpl. lia. }
  destruct fr; cbn [frees]; [constructor; [simpl; lia|done]|done].
Qed.

Lemma frees_increasing a T b : pos_tiles T -> b < a -> increasing b (frees a T).
Proof.
  intros HT. revert a b. induction HT as [|[n fr] T Hn HT IH]; intros a b Hb; [done|]. simpl in Hn.
  destruct fr; cbn [frees increasing]; [split; [done|]; apply IH; lia|apply IH; lia].
Qed.

Lemma sizes_upd f a T x v : pos_tiles T -> x < a \/ a + 8 * units T <= x -> sizes f a T -> sizes (fupd f x v) a T.
Proof.
  intros HT. revert a. induction HT as [|[n fr] T Hn HT IH]; intros a Hx; simpl in *; [done|]. pose proof (units_nonneg T HT).
  intros [H1 H2]. split; [rewrite fupd_ne by lia; done|]. apply IH; [lia|done].
Qed.

(** The blocks in use, with their sizes. *)
Fixpoint lives (a : Z) (T : tiles) : list (Z * Z) :=
  match T with
  | [] => []
  | (n, true) :: T' => lives (a + 8 * n) T'
  | (n, false) :: T' => (a, n) :: lives (a + 8 * n) T'
  end.

(** No two free blocks are neighbours. *)
Definition starts_free (T : tiles) : bool := match T with (_, true) :: _ => true | _ => false end.
Fixpoint coalesced (T : tiles) : Prop :=
  match T with
  | [] => True
  | (_, fr) :: T' => (fr = true -> starts_free T' = false) /\ coalesced T'
  end.

Lemma lives_app a T1 T2 : lives a (T1 ++ T2) = lives a T1 ++ lives (a + 8 * units T1) T2.
Proof.
  revert a. induction T1 as [|[n []] T1 IH]; intros a; simpl; [f_equal; lia|rewrite IH; do 2 f_equal; lia|].
  f_equal. rewrite IH. do 2 f_equal. lia.
Qed.

Lemma starts_free_app T1 T2 : T1 <> [] -> starts_free (T1 ++ T2) = starts_free T1.
Proof. by destruct T1 as [|[? []] ?]. Qed.

(** Replacing the tail of a tiling. *)
Lemma coalesced_app T1 T2 T2' : coalesced (T1 ++ T2) -> coalesced T2' -> (starts_free T2' = true -> starts_free T2 = true) -> coalesced (T1 ++ T2').
Proof.
  intros H H' Hs. induction T1 as [|[n fr] T1 IH]; simpl in *; [done|]. destruct H as [H1 H2]. split; [|by apply IH].
  intros Hfr. specialize (H1 Hfr). destruct T1 as [|t T1]; [simpl in *; destruct (starts_free T2'); [by rewrite Hs in H1|done]|].
  by rewrite starts_free_app in H1 |- * by done.
Qed.

Lemma coalesced_tail T1 T2 : coalesced (T1 ++ T2) -> coalesced T2.
Proof. induction T1 as [|[n fr] T1 IH]; simpl; [done|]. intros [_ H]. auto. Qed.

Lemma coalesced_free n T : starts_free T = false -> coalesced T -> coalesced ((n, true) :: T).
Proof. by split. Qed.

Lemma frees_end f a T x : pos_tiles T -> sizes f a T -> x ∈ frees a T -> x + 8 * f x <= a + 8 * units T.
Proof.
  intros HT. revert a. induction HT as [|[n fr] T Hn HT IH]; intros a; simpl; [by intros _ []%not_elem_of_nil|].
  pose proof (units_nonneg T HT). intros [H1 H2] Hin. destruct fr.
  - apply elem_of_cons in Hin as [->|Hin]; [lia|]. specialize (IH _ H2 Hin). lia.
  - specialize (IH _ H2 Hin). lia.
Qed.

Lemma frees_split a T x : x ∈ frees a T -> exists T1 n T2, T = T1 ++ (n, true) :: T2 /\ x = a + 8 * units T1.
Proof.
  revert a. induction T as [|[n []] T IH]; intros a; simpl; [intros []%not_elem_of_nil|..].
  - intros [->|Hin]%elem_of_cons; [exists [], n, T; simpl; split; [done|lia]|].
    apply IH in Hin as (T1 & m & T2 & -> & ->). exists ((n, true) :: T1), m, T2. simpl. split; [done|lia].
  - intros Hin. apply IH in Hin as (T1 & m & T2 & -> & ->). exists ((n, false) :: T1), m, T2. simpl. split; [done|lia].
Qed.

Lemma lives_split a T x n : (x, n) ∈ lives a T -> exists T1 T2, T = T1 ++ (n, false) :: T2 /\ x = a + 8 * units T1.
Proof.
  revert a. induction T as [|[m []] T IH]; intros a; simpl; [intros []%not_elem_of_nil|..].
  - intros Hin. apply IH in Hin as (T1 & T2 & -> & ->). exists ((m, true) :: T1), T2. simpl. split; [done|lia].
  - intros [E|Hin]%elem_of_cons; [simplify_eq; exists [], T; simpl; split; [done|lia]|].
    apply IH in Hin as (T1 & T2 & -> & ->). exists ((m, false) :: T1), T2. simpl. split; [done|lia].
Qed.

Lemma linked_next ptr a L1 L2 z : linked ptr a (L1 ++ L2) z -> ptr (lastd a L1) = hd z L2.
Proof. revert a. induction L1 as [|b L1 IH]; intros a; simpl; [destruct L2; simpl; tauto|]. intros [_ H]. auto. Qed.

End Umalloc.
