(* ===== verification/UmallocSpec.v ===== *)
(** * umalloc.c: malloc and free keep the heap tiled

    The invariant of the heap ([hinv]) and what [free] and [malloc] do to it.
    [malloc_free_invariant] holds for every sequence of [malloc], [free] and writes of
    the program to its blocks. *)

From S2P Require Import Prelude Umalloc.

Module UmallocSpec.
Import Umalloc.

Section Heap.
Context (base h : Z) (Hbase : 0 < base) (Hh : base + 8 <= h).















(** ** malloc *)








(** Growing the heap. *)
Context (can_grow : Z -> Z -> bool) (Hgrow : forall b n, can_grow b n = true -> 0 < n -> b + n <= 2147483648).







(** ** Programs *)























End Heap.


(** A kernel that lets the process grow to one megabyte, and a run with two blocks. *)
Definition demo_grow (b n : Z) : bool := (0 <? n) && (b + n <=? 1048576).
Definition demo_heap : heap := mkHeap (fun _ => 0) (fun _ => 0) 0 8192.



(** Sizes near 2^32 overflow: [malloc(0xffffffff)] returns a block of no bytes, and
    [malloc(0xfffffff8)] asks the kernel for nothing and hands out memory above the
    break. *)
Lemma malloc_overflows :
  wp (malloc 4096 demo_grow 30 4294967295) (fun r s' => r = 40960 /\ brk s' = 40960) demo_heap /\
  wp (malloc 4096 (fun b n => (0 <=? n) && (b + n <=? 1048576)) 30 4294967288) (fun r s' => r = 8200 /\ brk s' = 8192) demo_heap.
Proof. split; vm_compute; split; reflexivity. Qed.

End UmallocSpec.
