(* ===== verification/Ide.v ===== *)
(** * ide.c: the IDE disk driver

    [Module Ide] translates the driver: the queue of requests, linked through [qnext],
    [idestart] with the port writes it issues, the interrupt handler [ideintr] and
    [iderw].  The controller is modelled by the registers the driver writes, the command
    it has accepted and the contents of its two disks, as the ATA documentation describes
    them.  [idelock] makes [ideintr], and [iderw] up to its [sleep], atomic.

    [istep] is the driver with its processes and its disk; [iinv], which every reachable
    state satisfies, says that the queue is a duplicate-free list of requests somebody
    waits for and that the controller runs the one at its head.  [ide_completes]: an
    interrupt completes that request, with its effect on the disk or the buffer.
    [ide_all_served]: nobody waits for more than [NBUF] interrupts.
    [ide_read_error_ignored]: a failed read is marked valid all the same. *)

From S2P Require Import Prelude Bio.

Module Ide.
Import Bio.

Definition IDE_BSY : Z := 128.
Definition IDE_DRDY : Z := 64.
Definition IDE_DF : Z := 32.
Definition IDE_ERR : Z := 1.
Definition IDE_CMD_READ : Z := 32.
Definition IDE_CMD_WRITE : Z := 48.

(** [struct buf], with its link in the queue. *)
Record ibuf := mkIbuf { b_flags : Z; b_dev : Z; b_sector : Z; b_qnext : option nat; b_data : list Z }.

(** Port writes, and the task file of the controller. *)
Inductive pio := Outb (port v : Z) | Outsl (port : Z) (data : list Z).
Record ctl := mkCtl { lba0 : Z; lba1 : Z; lba2 : Z; devsel : Z; command : option Z; xfer : list Z }.

Definition hw_write (c : ctl) (o : pio) : ctl :=
  match o with
  | Outb port v =>
      if port =? 499 then mkCtl v (lba1 c) (lba2 c) (devsel c) (command c) (xfer c)
      else if port =? 500 then mkCtl (lba0 c) v (lba2 c) (devsel c) (command c) (xfer c)
      else if port =? 501 then mkCtl (lba0 c) (lba1 c) v (devsel c) (command c) (xfer c)
      else if port =? 502 then mkCtl (lba0 c) (lba1 c) (lba2 c) v (command c) (xfer c)
      else if port =? 503 then mkCtl (lba0 c) (lba1 c) (lba2 c) (devsel c) (Some v) (xfer c)
      else c
  | Outsl port data => if port =? 496 then mkCtl (lba0 c) (lba1 c) (lba2 c) (devsel c) (command c) data else c
  end.

(** The sector and the disk the task file addresses. *)
Definition hw_lba (c : ctl) : Z := lba0 c + 256 * lba1 c + 65536 * lba2 c + 16777216 * Z.land (devsel c) 15.
Definition hw_dev (c : ctl) : Z := Z.land (Z.shiftr (devsel c) 4) 1.

Record ide := mkIde {
  ibufs : list ibuf; idequeue : option nat; havedisk1 : bool;
  ctrl : ctl; disks : Z -> Z -> list Z }.

Definition ib (i : nat) (s : ide) : ibuf := nth i (ibufs s) (mkIbuf 0 0 0 None []).
Definition upd_ib (i : nat) (f : ibuf -> ibuf) : M ide unit :=
  modify (fun s => mkIde (alter f i (ibufs s)) (idequeue s) (havedisk1 s) (ctrl s) (disks s)).
Definition set_queue (q : option nat) : M ide unit := modify (fun s => mkIde (ibufs s) q (havedisk1 s) (ctrl s) (disks s)).
Definition out (l : list pio) : M ide unit :=
  modify (fun s => mkIde (ibufs s) (idequeue s) (havedisk1 s) (foldl hw_write (ctrl s) l) (disks s)).

Definition set_qnext (q : option nat) (b : ibuf) : ibuf := mkIbuf (b_flags b) (b_dev b) (b_sector b) q (b_data b).
Definition set_bflags (f : Z) (b : ibuf) : ibuf := mkIbuf f (b_dev b) (b_sector b) (b_qnext b) (b_data b).
Definition set_bdata (d : list Z) (b : ibuf) : ibuf := mkIbuf (b_flags b) (b_dev b) (b_sector b) (b_qnext b) d.

(** [idewait] when the controller has become ready with status [r]. *)
Definition idewait (r : Z) (checkerr : bool) : Z := if checkerr && negb (Z.land r (Z.lor IDE_DF IDE_ERR) =? 0) then -1 else 0.

(** The port writes of [idestart]. *)
Definition idestart_io (b : ibuf) : list pio :=
  [Outb 1014 0; Outb 498 1; Outb 499 (Z.land (b_sector b) 255); Outb 500 (Z.land (Z.shiftr (b_sector b) 8) 255);
   Outb 501 (Z.land (Z.shiftr (b_sector b) 16) 255);
   Outb 502 (Z.lor (Z.lor 224 (Z.shiftl (Z.land (b_dev b) 1) 4)) (Z.land (Z.shiftr (b_sector b) 24) 15))] ++
  (if has_flag (b_flags b) B_DIRTY then [Outb 503 IDE_CMD_WRITE; Outsl 496 (b_data b)] else [Outb 503 IDE_CMD_READ]).

Definition idestart (b : option nat) : M ide unit :=
  match b with
  | None => panic "idestart"
  | Some i => let* x := gets (ib i) in out (idestart_io x)
  end.

(** [b->flags |= B_VALID; b->flags &= ~B_DIRTY;] *)
Definition finish (f : Z) : Z := clear_flag (set_flag f B_VALID) B_DIRTY.

(** [ideintr]; [r] is the status the controller answers with, [insl] reads what it has
    in its buffer.  The result is the channel it wakes. *)
Definition ideintr (r : Z) : M ide (option nat) :=
  let* q := gets idequeue in
  match q with
  | None => ret None
  | Some i =>
      let* x := gets (ib i) in
      set_queue (b_qnext x) ;;;
      (if negb (has_flag (b_flags x) B_DIRTY) && (0 <=? idewait r true)
       then let* d := gets (fun s => xfer (ctrl s)) in upd_ib i (set_bdata d)
       else ret tt) ;;;
      upd_ib i (fun x => set_bflags (finish (b_flags x)) x) ;;;
      let* q := gets idequeue in
      (match q with None => ret tt | Some _ => idestart q end) ;;;
      ret (Some i)
  end.

(** [for(pp=&idequeue; *pp; pp=&( *pp)->qnext);] from the buffer [p] on: the last one. *)
Fixpoint queue_last (fuel : nat) (p : nat) (s : ide) : nat :=
  match fuel with
  | O => p
  | S fuel' => match b_qnext (ib p s) with None => p | Some p' => queue_last fuel' p' s end
  end.

Definition bdone (f : Z) : bool := Z.land f (Z.lor B_VALID B_DIRTY) =? B_VALID.

(** [iderw] up to its first [sleep]; the result says whether it sleeps. *)
Definition iderw (b : nat) : M ide bool :=
  let* x := gets (ib b) in
  if negb (has_flag (b_flags x) B_BUSY) then panic "iderw: buf not busy"
  else if bdone (b_flags x) then panic "iderw: nothing to do"
  else
    let* h1 := gets havedisk1 in
    if negb (b_dev x =? 0) && negb h1 then panic "iderw: ide disk 1 not present"
    else
      upd_ib b (set_qnext None) ;;;
      let* q := gets idequeue in
      (match q with
       | None => set_queue (Some b)
       | Some p => let* l := gets (queue_last NBUF p) in upd_ib l (set_qnext (Some b))
       end) ;;;
      let* q := gets idequeue in
      (if decide (q = Some b) then idestart (Some b) else ret tt) ;;;
      let* x := gets (ib b) in
      ret (negb (bdone (b_flags x))).

(** [ideinit]: the answers of the status port while it looks for disk 1. *)
Definition ideinit (answers : list Z) (s : ide) : ide :=
  mkIde (ibufs s) (idequeue s) (existsb (fun r => negb (r =? 0)) (take 1000 answers) || havedisk1 s)
    (foldl hw_write (ctrl s) [Outb 502 (Z.lor 224 (Z.shiftl 1 4)); Outb 502 (Z.lor 224 (Z.shiftl 0 4))]) (disks s).

(** The controller completes its command: a sector moves between its buffer and a disk. *)
Definition hw_complete (s : ide) : ide :=
  let c := ctrl s in
  match command c with
  | None => s
  | Some cmd =>
      let c' x := mkCtl (lba0 c) (lba1 c) (lba2 c) (devsel c) None x in
      if cmd =? IDE_CMD_WRITE then
        mkIde (ibufs s) (idequeue s) (havedisk1 s) (c' (xfer c))
          (fun d l => if (d =? hw_dev c) && (l =? hw_lba c) then xfer c else disks s d l)
      else mkIde (ibufs s) (idequeue s) (havedisk1 s) (c' (disks s (hw_dev c) (hw_lba c))) (disks s)
  end.

(** ** Flags and addresses *)

Lemma bdone_finish f : bdone (finish f) = true.
Proof.
  unfold bdone, finish, clear_flag, set_flag, B_VALID, B_DIRTY. apply Z.eqb_eq. rewrite <- Z.land_assoc.
  change (Z.land (Z.lnot 4) (Z.lor 2 4)) with 2. rewrite Z.land_lor_distr_l. change (Z.land 2 2) with 2.
  apply Z.bits_inj'. intros n Hn. rewrite Z.lor_spec, Z.land_spec. by destruct (Z.testbit f n), (Z.testbit 2 n).
Qed.

Lemma busy_finish f : has_flag (finish f) B_BUSY = has_flag f B_BUSY.
Proof.
  unfold has_flag, finish, clear_flag, set_flag, B_VALID, B_DIRTY, B_BUSY. do 2 f_equal. rewrite <- Z.land_assoc.
  change (Z.land (Z.lnot 4) 1) with 1. rewrite Z.land_lor_distr_l. change (Z.land 2 1) with 0. by rewrite Z.lor_0_r.
Qed.

(** A request the task file can address: 28 bits of sector number, two disks. *)
Definition addressable (x : ibuf) : Prop := 0 <= b_sector x < 268435456 /\ (b_dev x = 0 \/ b_dev x = 1).

Lemma devsel_bits : forallb (fun i => let x := Z.of_nat i in
  let v d := Z.lor (Z.lor 224 (Z.shiftl (Z.land d 1) 4)) x in
  (Z.land (v 0) 15 =? x) && (Z.land (v 1) 15 =? x) && (Z.land (Z.shiftr (v 0) 4) 1 =? 0) && (Z.land (Z.shiftr (v 1) 4) 1 =? 1)) (seq 0 16) = true.
Proof. by vm_compute. Qed.

(** The controller runs the request [x]. *)
Definition runs (c : ctl) (x : ibuf) : Prop :=
  command c = Some (if has_flag (b_flags x) B_DIRTY then IDE_CMD_WRITE else IDE_CMD_READ) /\
  hw_lba c = b_sector x /\ hw_dev c = b_dev x /\ (has_flag (b_flags x) B_DIRTY = true -> xfer c = b_data x).

(** The task file [idestart] writes addresses the sector of the buffer. *)
Lemma idestart_runs c x : addressable x -> runs (foldl hw_write c (idestart_io x)) x.
Proof.
  intros [Hs Hd]. set (hi := Z.land (Z.shiftr (b_sector x) 24) 15).
  assert (Hhi : hi = b_sector x / 16777216 /\ 0 <= hi < 16).
  { unfold hi. change 15 with (Z.ones 4). rewrite Z.land_ones, Z.shiftr_div_pow2 by lia. change (2 ^ 24) with 16777216. change (2 ^ 4) with 16. dlia. }
  pose proof devsel_bits as Hb. rewrite forallb_forall in Hb. specialize (Hb (Z.to_nat hi) ltac:(apply in_seq; lia)).
  rewrite Z2Nat.id in Hb by lia. cbv zeta in Hb. rewrite !andb_true_iff, !Z.eqb_eq in Hb. destruct Hb as [[[B1 B2] B3] B4].
  assert (Hl : Z.land (b_sector x) 255 + 256 * Z.land (Z.shiftr (b_sector x) 8) 255 + 65536 * Z.land (Z.shiftr (b_sector x) 16) 255 + 16777216 * hi = b_sector x).
  { change 255 with (Z.ones 8). rewrite !Z.land_ones, !Z.shiftr_div_pow2 by lia. change (2 ^ 8) with 256. change (2 ^ 16) with 65536. rewrite (proj1 Hhi). dlia. }
  unfold runs, idestart_io. destruct (has_flag (b_flags x) B_DIRTY); cbn [foldl hw_write app Z.eqb Pos.eqb]; unfold hw_lba, hw_dev;
    cbn [lba0 lba1 lba2 devsel command xfer]; fold hi; (split_and!; [done| | |done]); destruct Hd as [-> | ->]; congruence.
Qed.

(** ** The queue *)

Fixpoint chain (bs : list ibuf) (q : option nat) (Q : list nat) : Prop :=
  match Q with
  | [] => q = None
  | b :: Q' => q = Some b /\ exists x, bs !! b = Some x /\ chain bs (b_qnext x) Q'
  end.

Lemma queue_ext bs bs' q Q : (forall b, b ∈ Q -> b_qnext <$> bs' !! b = b_qnext <$> bs !! b) -> chain bs q Q -> chain bs' q Q.
Proof.
  revert q. induction Q as [|b Q IH]; intros q Hx; simpl; [done|]. intros (-> & x & Hb & Hc). split; [done|].
  pose proof (Hx b (list_elem_of_here _ _)) as E. rewrite Hb in E. destruct (bs' !! b) as [x'|] eqn:Hb'; simpl in E; [|done]. simplify_eq.
  exists x'. split; [done|]. rewrite E. apply IH; [|done]. intros c Hc'. apply Hx. by apply list_elem_of_further.
Qed.

Lemma ib_lookup i s x : ibufs s !! i = Some x -> ib i s = x.
Proof. intros H. unfold ib. by apply nth_lookup_Some. Qed.

Lemma queue_last_spec bs q Q b fuel s : ibufs s = bs -> chain bs q (b :: Q) -> (length Q < fuel)%nat -> queue_last fuel b s = List.last (b :: Q) 0%nat.
Proof.
  intros Hs. revert q b fuel. induction Q as [|c Q IH]; intros q b [|fuel] Hc Hf; simpl in Hf; try lia; destruct Hc as (_ & x & Hb & Hc).
  - cbn [queue_last]. rewrite (ib_lookup b s x) by congruence. simpl in Hc. by rewrite Hc.
  - cbn [queue_last]. rewrite (ib_lookup b s x) by congruence. pose proof Hc as [E _]. rewrite E.
    rewrite (IH (b_qnext x) c fuel Hc); [done|lia].
Qed.

(** Appending [b] after the last element. *)
Lemma chain_append bs q Q b : chain bs q Q -> Q <> [] -> NoDup (Q ++ [b]) -> (exists x, bs !! b = Some x /\ b_qnext x = None) ->
  chain (alter (set_qnext (Some b)) (List.last Q 0%nat) bs) q (Q ++ [b]).
Proof.
  intros Hc HQ Hnd (xb & Hb & Hbn). revert q Hc. induction Q as [|c Q IH]; intros q Hc; [done|]. destruct Hc as (-> & x & Hx & Hc).
  cbn [app] in Hnd. apply NoDup_cons in Hnd as [Hn Hnd]. destruct Q as [|d Q].
  - split; [done|]. exists (set_qnext (Some b) x). simpl. rewrite list_lookup_alter_eq, Hx. split; [done|]. split; [done|].
    exists xb. rewrite list_lookup_alter_ne by set_solver. done.
  - split; [done|]. exists x. assert (Hl : List.last (c :: d :: Q) 0%nat = List.last (d :: Q) 0%nat) by done. rewrite Hl.
    split; [|apply IH; done]. rewrite list_lookup_alter_ne; [done|]. intros E. apply Hn. rewrite <- E.
    apply elem_of_app. left. clear. revert d. induction Q as [|e Q IH]; intros d; [by apply list_elem_of_here|]. change (List.last (d :: e :: Q) 0%nat) with (List.last (e :: Q) 0%nat). apply list_elem_of_further, IH.
Qed.

(** ** The driver, its processes and the disk

    A process that owns a busy buffer may change it freely until it calls [iderw]; it
    then waits, and returns once it finds the buffer done.  The controller interrupts
    when it has finished or failed, with a status that [idewait] accepts. *)

Definition failed (r : Z) : bool := negb (Z.land r (Z.lor IDE_DF IDE_ERR) =? 0).

(** The controller gives up its command. *)
Definition hw_abort (s : ide) : ide :=
  let c := ctrl s in mkIde (ibufs s) (idequeue s) (havedisk1 s) (mkCtl (lba0 c) (lba1 c) (lba2 c) (devsel c) None (xfer c)) (disks s).

Definition hw_answer (r : Z) (s : ide) : ide := if failed r then hw_abort s else hw_complete s.

Record sys := mkSys { drv : ide; waiting : list nat }.

(** What [iderw] asks of its caller. *)
Definition may_rw (s : ide) (x : ibuf) : Prop :=
  has_flag (b_flags x) B_BUSY = true /\ bdone (b_flags x) = false /\ addressable x /\ (b_dev x = 0 \/ havedisk1 s = true).

Inductive istep : sys -> sys -> Prop :=
| st_own s W b x : b ∉ W -> istep (mkSys s W) (mkSys (mkIde (<[b := x]> (ibufs s)) (idequeue s) (havedisk1 s) (ctrl s) (disks s)) W)
| st_rw s W b x r s' : b ∉ W -> ibufs s !! b = Some x -> may_rw s x -> iderw b s = Ret r s' ->
    istep (mkSys s W) (mkSys s' (if r then b :: W else W))
| st_intr s W r o s' : ideintr r (hw_answer r s) = Ret o s' -> istep (mkSys s W) (mkSys s' W)
| st_wake s W b : b ∈ W -> bdone (b_flags (ib b s)) = true -> istep (mkSys s W) (mkSys s (remove_one b W)).

Definition booted (t : sys) : Prop :=
  length (ibufs (drv t)) = NBUF /\ idequeue (drv t) = None /\ command (ctrl (drv t)) = None /\ waiting t = [].

(** A queued buffer is one its process waits for. *)
Definition pending (s : ide) (W : list nat) (b : nat) : Prop :=
  exists x, ibufs s !! b = Some x /\ has_flag (b_flags x) B_BUSY = true /\ bdone (b_flags x) = false /\ addressable x /\ b ∈ W.

Definition active (s : ide) (Q : list nat) : Prop :=
  match Q with [] => command (ctrl s) = None | b :: _ => runs (ctrl s) (ib b s) end.

Record iinv (s : ide) (W Q : list nat) : Prop := mkIinv {
  i_len : length (ibufs s) = NBUF;
  i_chain : chain (ibufs s) (idequeue s) Q;
  i_nodup : NoDup Q;
  i_wnodup : NoDup W;
  i_pending : Forall (pending s W) Q;
  i_done : forall b, b ∈ W -> b ∉ Q -> bdone (b_flags (ib b s)) = true;
  i_active : active s Q }.

Lemma pending_lt s W Q : Forall (pending s W) Q -> NoDup Q -> (length Q <= length (ibufs s))%nat.
Proof.
  intros Hp Hnd. rewrite <- (length_seq (length (ibufs s)) 0). apply submseteq_length, NoDup_submseteq; [done|].
  intros b Hb. rewrite Forall_forall in Hp. destruct (Hp b Hb) as (x & Hx & _). apply lookup_lt_Some in Hx. apply elem_of_seq. lia.
Qed.

(** ** [iderw] appends to the queue *)

Definition enqueue (b : nat) (s : ide) : ide :=
  let bs := alter (set_qnext None) b (ibufs s) in
  match idequeue s with
  | None => mkIde bs (Some b) (havedisk1 s) (foldl hw_write (ctrl s) (idestart_io (set_qnext None (ib b s)))) (disks s)
  | Some p => mkIde (alter (set_qnext (Some b)) (queue_last NBUF p (mkIde bs (Some p) (havedisk1 s) (ctrl s) (disks s))) bs) (Some p) (havedisk1 s) (ctrl s) (disks s)
  end.

Lemma ib_alter_qnext q c i bs : b_flags (nth i (alter (set_qnext q) c bs) (mkIbuf 0 0 0 None [])) = b_flags (nth i bs (mkIbuf 0 0 0 None [])).
Proof.
  rewrite !nth_lookup. destruct (decide (i = c)) as [->|].
  - rewrite list_lookup_alter_eq. by destruct (bs !! c).
  - by rewrite list_lookup_alter_ne.
Qed.

Lemma iderw_enqueues s b x : ibufs s !! b = Some x -> may_rw s x -> idequeue s <> Some b -> iderw b s = Ret true (enqueue b s).
Proof.
  intros Hb (Hbusy & Hnd & _ & Hdev) Hq. pose proof (ib_lookup b s x Hb) as E.
  assert (Hg : negb (b_dev x =? 0) && negb (havedisk1 s) = false) by (destruct Hdev as [-> | ->]; [done|apply andb_false_r]).
  unfold iderw, enqueue, idestart, bind, gets, ret, panic, upd_ib, set_queue, modify, out. cbv beta iota. rewrite !E, Hbusy, Hnd. cbn [negb]. cbv beta iota. rewrite Hg.
  destruct s as [bs q h c d]. cbn [ibufs idequeue havedisk1 ctrl disks] in *. unfold ib in *. cbn [ibufs] in *.
  destruct q as [p|].
  - cbn [ibufs idequeue havedisk1 ctrl disks]. rewrite decide_False by done. cbn [ibufs]. rewrite !ib_alter_qnext, E, Hnd. done.
  - cbn [ibufs idequeue havedisk1 ctrl disks]. rewrite decide_True by done. unfold modify. cbn [ibufs idequeue havedisk1 ctrl disks]. rewrite !ib_alter_qnext, E, Hnd. cbn [negb]. do 3 f_equal.
    by rewrite (nth_lookup_Some _ _ _ (set_qnext None x)) by (by rewrite list_lookup_alter_eq, Hb).
Qed.

(** What stays of the pending requests when only links change. *)
Definition same_request (x y : ibuf) : Prop := b_flags y = b_flags x /\ b_dev y = b_dev x /\ b_sector y = b_sector x /\ b_data y = b_data x.

Lemma enqueue_lookup b s i x : ibufs s !! i = Some x -> exists y, ibufs (enqueue b s) !! i = Some y /\ same_request x y.
Proof.
  assert (Ha : forall q c (bs : list ibuf) i x, bs !! i = Some x -> exists y, alter (set_qnext q) c bs !! i = Some y /\ same_request x y).
  { intros q c bs j z Hz. destruct (decide (j = c)) as [->|].
    - exists (set_qnext q z). by rewrite list_lookup_alter_eq, Hz.
    - exists z. by rewrite list_lookup_alter_ne. }
  intros Hx. unfold enqueue. destruct (Ha None b _ _ _ Hx) as (y & Hy & E1). destruct (idequeue s) as [p|]; cbn [ibufs]; [|by exists y].
  destruct (Ha (Some b) (queue_last NBUF p (mkIde (alter (set_qnext None) b (ibufs s)) (Some p) (havedisk1 s) (ctrl s) (disks s))) _ _ _ Hy) as (z & Hz & E2).
  exists z. split; [done|]. unfold same_request in *. destruct E1 as (?&?&?&?), E2 as (?&?&?&?). split_and!; congruence.
Qed.

Lemma runs_same c x y : same_request x y -> runs c x -> runs c y.
Proof. intros (E1 & E2 & E3 & E4). unfold runs. by rewrite E1, E2, E3, E4. Qed.

Lemma enqueue_length b s : length (ibufs (enqueue b s)) = length (ibufs s).
Proof. unfold enqueue. destruct (idequeue s); cbn [ibufs]; by rewrite !length_alter. Qed.

Lemma enqueue_chain s W Q b x : iinv s W Q -> ibufs s !! b = Some x -> b ∉ W -> chain (ibufs (enqueue b s)) (idequeue (enqueue b s)) (Q ++ [b]).
Proof.
  intros Hi Hb Hn. pose proof (i_chain _ _ _ Hi) as Hc.
  assert (HbQ : b ∉ Q). { intros HQ. pose proof (i_pending _ _ _ Hi) as Hp. rewrite Forall_forall in Hp. destruct (Hp b HQ) as (_ & _ & _ & _ & _ & HW). done. }
  assert (Hb' : alter (set_qnext None) b (ibufs s) !! b = Some (set_qnext None x)) by (by rewrite list_lookup_alter_eq, Hb).
  assert (Hc' : chain (alter (set_qnext None) b (ibufs s)) (idequeue s) Q).
  { revert Hc. apply queue_ext. intros c Hcq. rewrite list_lookup_alter_ne; [done|]. by intros ->. }
  unfold enqueue. destruct (idequeue s) as [p|] eqn:Hq, Q as [|p' Q]; try (by destruct Hc); cbn [ibufs idequeue].
  - destruct Hc as [[= <-] _].
    rewrite (queue_last_spec (alter (set_qnext None) b (ibufs s)) (Some p) Q p NBUF); [|done|done|].
    + apply chain_append; [done|done| |by eexists]. apply NoDup_app. split_and!; [apply Hi|set_solver|apply NoDup_singleton].
    + pose proof (pending_lt _ _ _ (i_pending _ _ _ Hi) (i_nodup _ _ _ Hi)) as Hl. rewrite (i_len _ _ _ Hi) in Hl. simpl in Hl. lia.
  - split; [done|]. by eexists.
Qed.

Lemma enqueue_ok s W Q b x : iinv s W Q -> ibufs s !! b = Some x -> b ∉ W -> may_rw s x -> iinv (enqueue b s) (b :: W) (Q ++ [b]).
Proof.
  intros Hi Hb Hn (Hbusy & Hnd & Had & _).
  assert (HbQ : b ∉ Q). { intros HQ. pose proof (i_pending _ _ _ Hi) as Hp. rewrite Forall_forall in Hp. destruct (Hp b HQ) as (_ & _ & _ & _ & _ & HW). done. }
  assert (Hfl : forall i, b_flags (ib i (enqueue b s)) = b_flags (ib i s)).
  { intros i. unfold enqueue, ib. destruct (idequeue s); cbn [ibufs]; by rewrite !ib_alter_qnext. }
  assert (Hpe : forall c, pending s (b :: W) c -> pending (enqueue b s) (b :: W) c).
  { intros c (y & Hy & H1 & H2 & H3 & H4). destruct (enqueue_lookup b s c y Hy) as (z & Hz & E1 & E2 & E3 & E4).
    exists z. unfold addressable in *. by rewrite E1, E2, E3. }
  split.
  - rewrite enqueue_length. apply Hi.
  - by eapply enqueue_chain.
  - apply NoDup_app. split_and!; [apply Hi|set_solver|apply NoDup_singleton].
  - apply NoDup_cons. split; [done|apply Hi].
  - apply Forall_app. split.
    + eapply Forall_impl; [apply Hi|]. intros c (y & ? & ? & ? & ? & ?). apply Hpe. exists y. split_and!; try done. by apply list_elem_of_further.
    + apply Forall_singleton, Hpe. exists x. split_and!; try done. apply list_elem_of_here.
  - intros c Hc HcQ. rewrite Hfl. apply (i_done _ _ _ Hi); set_solver.
  - pose proof (i_active _ _ _ Hi) as Ha. pose proof (i_chain _ _ _ Hi) as Hc. destruct Q as [|p Q].
    + simpl in Hc. destruct (enqueue_lookup b s b x Hb) as (z & Hz & E). simpl. rewrite (ib_lookup _ _ _ Hz). unfold enqueue. rewrite Hc. cbn [ctrl].
      rewrite (ib_lookup b s x Hb). apply (runs_same _ (set_qnext None x)); [done|]. by apply idestart_runs.
    + destruct Hc as (Hq & y & Hy & _). destruct (enqueue_lookup b s p y Hy) as (z & Hz & E). simpl in *. rewrite (ib_lookup _ _ _ Hz).
      rewrite (ib_lookup _ _ _ Hy) in Ha. apply (runs_same _ y); [done|]. unfold enqueue. by rewrite Hq.
Qed.

(** ** [ideintr] serves the head of the queue *)

(** The buffer after its interrupt; [d] is what the controller holds. *)
Definition served (r : Z) (d : list Z) (x : ibuf) : ibuf :=
  set_bflags (finish (b_flags x)) (if negb (has_flag (b_flags x) B_DIRTY) && negb (failed r) then set_bdata d x else x).

Definition serve (r : Z) (b : nat) (s : ide) : ide :=
  mkIde (alter (served r (xfer (ctrl s))) b (ibufs s)) (b_qnext (ib b s)) (havedisk1 s)
    (match b_qnext (ib b s) with None => ctrl s | Some c => foldl hw_write (ctrl s) (idestart_io (ib c s)) end) (disks s).

Lemma idewait_failed r : (0 <=? idewait r true) = negb (failed r).
Proof. unfold idewait, failed. cbn [andb]. by destruct (Z.land r (Z.lor IDE_DF IDE_ERR) =? 0). Qed.

Lemma ib_alter_ne f b c s q h k d : b <> c -> ib c (mkIde (alter f b (ibufs s)) q h k d) = ib c s.
Proof. intros Hn. unfold ib. cbn [ibufs]. rewrite !nth_lookup. by rewrite list_lookup_alter_ne. Qed.

Lemma ideintr_serves r s b x : idequeue s = Some b -> ibufs s !! b = Some x -> b_qnext x <> Some b -> ideintr r s = Ret (Some b) (serve r b s).
Proof.
  intros Hq Hb Hn. pose proof (ib_lookup b s x Hb) as E. unfold ideintr, bind, gets. cbv beta iota. rewrite Hq, E, idewait_failed.
  unfold serve. rewrite E.
  assert (Hbs : (if negb (has_flag (b_flags x) B_DIRTY) && negb (failed r) then alter (set_bdata (xfer (ctrl s))) b (ibufs s) else ibufs s) =
    alter (fun x => if negb (has_flag (b_flags x) B_DIRTY) && negb (failed r) then set_bdata (xfer (ctrl s)) x else x) b (ibufs s)).
  { destruct (negb (has_flag (b_flags x) B_DIRTY) && negb (failed r)) eqn:Hc.
    - apply (alter_at _ _ _ _ x Hb). by rewrite Hc.
    - rewrite <- (list_alter_id id (ibufs s) b) at 1 by done. apply (alter_at _ _ _ _ x Hb). by rewrite Hc. }
  set (bs1 := if _ : bool then _ else _) in Hbs.
  transitivity (@Ret ide (option nat) (Some b) (mkIde (alter (fun x => set_bflags (finish (b_flags x)) x) b bs1) (b_qnext x) (havedisk1 s)
    (match b_qnext x with None => ctrl s | Some c => foldl hw_write (ctrl s) (idestart_io (ib c s)) end) (disks s))).
  - unfold upd_ib, set_queue, modify, ret, bs1. cbn [ctrl]. destruct (negb (has_flag (b_flags x) B_DIRTY) && negb (failed r));
      cbn [ibufs idequeue havedisk1 ctrl disks]; (destruct (b_qnext x) as [c|]; [|done]); unfold idestart, bind, gets, out, modify;
      cbn [ibufs idequeue havedisk1 ctrl disks]; (do 3 f_equal); f_equal; unfold ib; cbn [ibufs]; rewrite !nth_lookup, !list_lookup_alter_ne by congruence; done.
  - f_equal. f_equal. rewrite Hbs, alter_alter. apply (alter_at _ _ _ _ x Hb). unfold served, compose.
    by destruct (negb (has_flag (b_flags x) B_DIRTY) && negb (failed r)).
Qed.

Lemma hw_answer_frame r s : ibufs (hw_answer r s) = ibufs s /\ idequeue (hw_answer r s) = idequeue s /\ havedisk1 (hw_answer r s) = havedisk1 s /\ command (ctrl (hw_answer r s)) = None.
Proof.
  unfold hw_answer, hw_abort, hw_complete. destruct (failed r); [done|]. destruct (command (ctrl s)) as [cmd|] eqn:Hc; [|done].
  by destruct (cmd =? IDE_CMD_WRITE).
Qed.

Lemma iinv_head s W b Q : iinv s W (b :: Q) -> exists x, ibufs s !! b = Some x /\ idequeue s = Some b /\ b_qnext x <> Some b /\ chain (ibufs s) (b_qnext x) Q /\ runs (ctrl s) x.
Proof.
  intros Hi. pose proof (i_chain _ _ _ Hi) as (Hq & x & Hx & Hc). exists x. split_and!; try done.
  - pose proof (i_nodup _ _ _ Hi) as Hnd. apply NoDup_cons in Hnd as [Hn _]. destruct Q as [|c Q]; simpl in Hc; [congruence|]. destruct Hc as [-> _]. intros [= ->]. apply Hn, list_elem_of_here.
  - rewrite <- (ib_lookup _ _ _ Hx). apply (i_active _ _ _ Hi).
Qed.

Lemma intr_queued r s W b Q : iinv s W (b :: Q) -> ideintr r (hw_answer r s) = Ret (Some b) (serve r b (hw_answer r s)).
Proof.
  intros Hi. destruct (iinv_head _ _ _ _ Hi) as (x & Hx & Hq & Hn & _). destruct (hw_answer_frame r s) as (Eb & Eq & _).
  apply (ideintr_serves r _ b x); [congruence|congruence|done].
Qed.

Lemma intr_idle r s W : iinv s W [] -> ideintr r (hw_answer r s) = Ret None (hw_answer r s).
Proof.
  intros Hi. pose proof (i_chain _ _ _ Hi) as Hq. simpl in Hq. destruct (hw_answer_frame r s) as (_ & Eq & _).
  unfold ideintr, bind, gets. cbv beta iota. by rewrite Eq, Hq.
Qed.

Lemma served_flags r d x : b_flags (served r d x) = finish (b_flags x).
Proof. done. Qed.

Lemma serve_ok r s W b Q : iinv s W (b :: Q) -> iinv (serve r b (hw_answer r s)) W Q.
Proof.
  intros Hi. destruct (iinv_head _ _ _ _ Hi) as (x & Hx & Hq & Hn & Hc & _). destruct (hw_answer_frame r s) as (Eb & _ & _ & Ec).
  pose proof (i_nodup _ _ _ Hi) as Hnd. apply NoDup_cons in Hnd as [HbQ Hnd].
  pose proof (i_pending _ _ _ Hi) as Hp. apply Forall_cons in Hp as [_ Hp].
  assert (Hib : forall c, ib c (hw_answer r s) = ib c s) by (intros c; unfold ib; by rewrite Eb).
  assert (Hne : forall c, c <> b -> ib c (serve r b (hw_answer r s)) = ib c s).
  { intros c Hcb. unfold serve. rewrite ib_alter_ne by done. apply Hib. }
  split.
  - unfold serve. cbn [ibufs]. rewrite length_alter, Eb. apply Hi.
  - unfold serve. cbn [ibufs idequeue]. rewrite Hib, (ib_lookup _ _ _ Hx), Eb. revert Hc. apply queue_ext.
    intros c Hcq. rewrite list_lookup_alter_ne; [done|]. by intros ->.
  - done.
  - apply Hi.
  - rewrite Forall_forall in Hp |- *. intros c Hcq. destruct (Hp c Hcq) as (y & Hy & Hr). exists y. split; [|done].
    unfold serve. cbn [ibufs]. rewrite Eb, list_lookup_alter_ne; [done|]. by intros ->.
  - intros c HcW HcQ. destruct (decide (c = b)) as [->|Hcb].
    + unfold serve, ib. cbn [ibufs]. rewrite nth_lookup, list_lookup_alter_eq, Eb, Hx. simpl. apply bdone_finish.
    + rewrite Hne by done. apply (i_done _ _ _ Hi); [done|]. by apply not_elem_of_cons.
  - destruct Q as [|c Q]; simpl in Hc |- *.
    + unfold serve. cbn [ctrl]. by rewrite Hib, (ib_lookup _ _ _ Hx), Hc.
    + rewrite Hne by (intros ->; apply HbQ, list_elem_of_here). unfold serve. cbn [ctrl]. rewrite Hib, (ib_lookup _ _ _ Hx), (proj1 Hc), Hib.
      apply idestart_runs. apply Forall_cons in Hp as [(y & Hy & _ & _ & Ha & _) _]. by rewrite (ib_lookup _ _ _ Hy).
Qed.

Lemma idle_ok r s W : iinv s W [] -> iinv (hw_answer r s) W [].
Proof.
  intros Hi. destruct (hw_answer_frame r s) as (Eb & Eq & _ & Ec). destruct Hi as [H1 H2 H3 H4 H5 H6 H7]. split; try done.
  - by rewrite Eb.
  - by rewrite Eq.
  - intros b HW HQ. specialize (H6 b HW HQ). unfold ib in *. by rewrite Eb.
Qed.

Lemma own_ok s W Q b x : b ∉ W -> iinv s W Q -> iinv (mkIde (<[b := x]> (ibufs s)) (idequeue s) (havedisk1 s) (ctrl s) (disks s)) W Q.
Proof.
  intros Hn [H1 H2 H3 H4 H5 H6 H7].
  assert (Hl : forall c, c ∈ W -> <[b := x]> (ibufs s) !! c = ibufs s !! c) by (intros c Hc; apply list_lookup_insert_ne; by intros ->).
  assert (Hib : forall c, c ∈ W -> ib c (mkIde (<[b := x]> (ibufs s)) (idequeue s) (havedisk1 s) (ctrl s) (disks s)) = ib c s).
  { intros c Hc. unfold ib. cbn [ibufs]. by rewrite !nth_lookup, Hl. }
  assert (HQW : forall c, c ∈ Q -> c ∈ W). { rewrite Forall_forall in H5. intros c Hc. by destruct (H5 c Hc) as (_ & _ & _ & _ & _ & ?). }
  split; cbn [ibufs idequeue]; try done.
  - by rewrite length_insert.
  - revert H2. apply queue_ext. intros c Hc. by rewrite Hl by auto.
  - rewrite Forall_forall in H5 |- *. intros c Hc. destruct (H5 c Hc) as (y & Hy & Hr). exists y. cbn [ibufs]. rewrite Hl by auto. done.
  - intros c Hc HcQ. rewrite Hib by done. by apply H6.
  - destruct Q as [|c Q]; [done|]. simpl in *. rewrite Hib; [done|]. apply HQW, list_elem_of_here.
Qed.

Lemma wake_ok s W Q b : bdone (b_flags (ib b s)) = true -> iinv s W Q -> iinv s (remove_one b W) Q.
Proof.
  intros Hd [H1 H2 H3 H4 H5 H6 H7]. split; try done.
  - by apply NoDup_remove_one.
  - rewrite Forall_forall in H5 |- *. intros c Hc. destruct (H5 c Hc) as (y & Hy & Hbu & Hnd & Ha & HW). exists y. split_and!; try done.
    apply elem_of_remove_one; [done|]. split; [done|]. intros ->. rewrite (ib_lookup _ _ _ Hy) in Hd. congruence.
  - intros c Hc%elem_of_remove_one_sub HcQ. by apply H6.
Qed.

Lemma istep_inv t t' : istep t t' -> (exists Q, iinv (drv t) (waiting t) Q) -> exists Q, iinv (drv t') (waiting t') Q.
Proof.
  intros Hst [Q Hi]. destruct Hst as [s W b x Hn|s W b x r s' Hn Hb Hm Hr|s W r o s' Hr|s W b Hb Hd]; cbn [drv waiting] in *.
  - exists Q. by apply own_ok.
  - rewrite (iderw_enqueues s b x Hb Hm) in Hr.
    + injection Hr as <- <-. exists (Q ++ [b]). by eapply enqueue_ok.
    + pose proof (i_chain _ _ _ Hi) as Hc. destruct Q as [|c Q]; simpl in Hc; [congruence|]. destruct Hc as [-> _]. intros [= ->].
      pose proof (i_pending _ _ _ Hi) as Hp. apply Forall_cons in Hp as [(_ & _ & _ & _ & _ & HW) _]. done.
  - destruct Q as [|b Q].
    + rewrite (intr_idle r s W Hi) in Hr. injection Hr as <- <-. exists []. by apply idle_ok.
    + rewrite (intr_queued r s W b Q Hi) in Hr. injection Hr as <- <-. exists Q. by apply serve_ok.
  - exists Q. by apply wake_ok.
Qed.

(** Every reachable state has a well-formed queue whose head the controller runs. *)
Lemma ide_reachable t0 t : booted t0 -> rtc istep t0 t -> exists Q, iinv (drv t) (waiting t) Q.
Proof.
  intros (Hl & Hq & Hc & Hw) Hr. revert t Hr. apply rtc_ind_r; [|intros ? ? _ Hs; by apply istep_inv].
  exists []. split; try done; rewrite ?Hw; [apply NoDup_nil_2|apply NoDup_nil_2|]. intros b Hb. by apply not_elem_of_nil in Hb.
Qed.

(** The interrupts of a sequence of commands, with their statuses. *)
Fixpoint interrupts (rs : list Z) (s : ide) : outcome ide unit :=
  match rs with
  | [] => Ret tt s
  | r :: rs' => match ideintr r (hw_answer r s) with Ret _ s' => interrupts rs' s' | Panic e => Panic e | Blocked => Blocked end
  end.

Lemma interrupts_serve rs s W Q : iinv s W Q -> length rs = length Q -> exists s', interrupts rs s = Ret tt s' /\ iinv s' W [].
Proof.
  revert s Q. induction rs as [|r rs IH]; intros s [|b Q] Hi Hl; try done.
  - by exists s.
  - cbn [interrupts]. rewrite (intr_queued r s W b Q Hi). apply (IH _ Q); [by apply serve_ok|]. simpl in Hl. lia.
Qed.

(** C19: an interrupt that reports no error completes the request at the head of the disk queue, for any number of processes with requests: the handler takes that buffer off the queue and marks it valid and clean; a dirty buffer's data is then in the sector it names and no other sector changed, a clean one holds the contents of its sector. *)
Theorem ide_completes t0 t b x r : booted t0 -> rtc istep t0 t ->
  idequeue (drv t) = Some b -> ibufs (drv t) !! b = Some x -> failed r = false ->
  exists s' x', ideintr r (hw_answer r (drv t)) = Ret (Some b) s' /\ ibufs s' !! b = Some x' /\
    idequeue s' = b_qnext x /\ bdone (b_flags x') = true /\
    if has_flag (b_flags x) B_DIRTY
    then b_data x' = b_data x /\ forall d l, disks s' d l = if (d =? b_dev x) && (l =? b_sector x) then b_data x else disks (drv t) d l
    else b_data x' = disks (drv t) (b_dev x) (b_sector x) /\ disks s' = disks (drv t).
Proof.
  intros Hb0 Hr Hq Hx Hf. destruct (ide_reachable _ _ Hb0 Hr) as [Q Hi]. destruct t as [s W]. cbn [drv waiting] in *.
  pose proof (i_chain _ _ _ Hi) as Hc. destruct Q as [|b' Q]; simpl in Hc; [congruence|]. destruct Hc as [Hq' _]. assert (b' = b) as -> by congruence.
  destruct (iinv_head _ _ _ _ Hi) as (y & Hy & _ & _ & _ & Hcmd & Hlba & Hdev & Hxf). assert (y = x) as -> by congruence.
  destruct (hw_answer_frame r s) as (Eb & _). rewrite (intr_queued r s W b Q Hi).
  exists (serve r b (hw_answer r s)), (served r (xfer (ctrl (hw_answer r s))) x). split; [done|].
  split; [unfold serve; cbn [ibufs]; by rewrite list_lookup_alter_eq, Eb, Hx|].
  split; [unfold serve, ib; cbn [idequeue]; rewrite Eb; by rewrite (nth_lookup_Some _ _ _ _ Hx)|].
  split; [apply bdone_finish|]. unfold served, serve, hw_answer, hw_complete. rewrite Hf, Hcmd. cbn [disks].
  destruct (has_flag (b_flags x) B_DIRTY); cbn [Z.eqb Pos.eqb IDE_CMD_WRITE IDE_CMD_READ negb andb b_data set_bflags set_bdata disks xfer ctrl].
  - rewrite Hlba, Hdev, Hxf by done. done.
  - by rewrite Hlba, Hdev.
Qed.

(** C37: no request starves and the driver never panics in its handler: from any reachable state at most [NBUF] further interrupts, whatever status each reports, empty the queue, and every process waiting in [iderw] then finds its buffer done. *)
Theorem ide_all_served t0 t : booted t0 -> rtc istep t0 t ->
  exists n, (n <= NBUF)%nat /\ forall rs, length rs = n ->
    exists s', interrupts rs (drv t) = Ret tt s' /\ idequeue s' = None /\ Forall (fun b => bdone (b_flags (ib b s')) = true) (waiting t).
Proof.
  intros Hb0 Hr. destruct (ide_reachable _ _ Hb0 Hr) as [Q Hi]. exists (length Q). split.
  - rewrite <- (i_len _ _ _ Hi). eapply pending_lt; apply Hi.
  - intros rs Hl. destruct (interrupts_serve rs _ _ Q Hi Hl) as (s' & -> & Hi'). exists s'. split_and!; [done|apply (i_chain _ _ _ Hi')|].
    apply Forall_forall. intros b Hb. apply (i_done _ _ _ Hi'); [done|]. apply not_elem_of_nil.
Qed.

(** ** A read error is ignored *)

(** When the controller answers a read with an error, [ideintr] reads no data, and still
    sets [B_VALID]: [bread] returns the bytes the buffer held for another block. *)
Lemma ide_read_error_ignored s b x r : idequeue s = Some b -> ibufs s !! b = Some x -> b_qnext x <> Some b ->
  has_flag (b_flags x) B_DIRTY = false -> failed r = true ->
  exists s' x', ideintr r s = Ret (Some b) s' /\ ibufs s' !! b = Some x' /\ bdone (b_flags x') = true /\ b_data x' = b_data x.
Proof.
  intros Hq Hx Hn Hd Hf. rewrite (ideintr_serves r s b x Hq Hx Hn). exists (serve r b s), (served r (xfer (ctrl s)) x).
  split; [done|]. split; [unfold serve; cbn [ibufs]; by rewrite list_lookup_alter_eq, Hx|]. split; [apply bdone_finish|].
  unfold served. by rewrite Hd, Hf.
Qed.

(** ** Two requests *)

Definition ex_bufs : list ibuf := mkIbuf B_BUSY 0 700 None [1] :: mkIbuf (Z.lor B_BUSY B_DIRTY) 1 268435455 None [7] :: replicate 8 (mkIbuf 0 0 0 None []).
Definition ex_boot : sys := mkSys (mkIde ex_bufs None true (mkCtl 0 0 0 0 None []) (fun d l => [l])) [].
Definition ex_two : ide := enqueue 1 (enqueue 0 (drv ex_boot)).

Lemma ex_booted : booted ex_boot.
Proof. done. Qed.

Lemma ex_two_reachable : rtc istep ex_boot (mkSys ex_two [1; 0]%nat).
Proof.
  apply rtc_l with (mkSys (enqueue 0 (drv ex_boot)) [0]%nat).
  - apply (st_rw _ _ 0 (mkIbuf B_BUSY 0 700 None [1]) true); [by apply not_elem_of_nil|done| |].
    + unfold may_rw, addressable. simpl. split_and!; [done|done|lia|lia|auto|auto].
    + by apply (iderw_enqueues _ _ (mkIbuf B_BUSY 0 700 None [1])); [|unfold may_rw, addressable; simpl; split_and!; [done|done|lia|lia|auto|auto]|].
  - apply rtc_once. apply (st_rw _ _ 1 (mkIbuf (Z.lor B_BUSY B_DIRTY) 1 268435455 None [7]) true); [set_solver|done| |].
    + unfold may_rw, addressable. simpl. split_and!; [done|done|lia|lia|auto|auto].
    + by apply (iderw_enqueues _ _ (mkIbuf (Z.lor B_BUSY B_DIRTY) 1 268435455 None [7])); [|unfold may_rw, addressable; simpl; split_and!; [done|done|lia|lia|auto|auto]|].
Qed.

Lemma ide_completes_witness : failed IDE_DRDY = false /\ exists s' x', ideintr IDE_DRDY (hw_answer IDE_DRDY ex_two) = Ret (Some 0%nat) s' /\ ibufs s' !! 0%nat = Some x' /\ b_data x' = [700].
Proof.
  split; [done|]. destruct (ide_completes ex_boot (mkSys ex_two [1; 0]%nat) 0 (mkIbuf B_BUSY 0 700 (Some 1%nat) [1]) IDE_DRDY ex_booted ex_two_reachable) as (s' & x' & H1 & H2 & _ & _ & H3 & _);
    [done|done|done|]. by exists s', x'.
Defined.

Lemma ide_all_served_witness : exists n, (n <= NBUF)%nat /\ forall rs, length rs = n -> exists s', interrupts rs ex_two = Ret tt s' /\ idequeue s' = None.
Proof.
  destruct (ide_all_served ex_boot (mkSys ex_two [1; 0]%nat) ex_booted ex_two_reachable) as (n & Hn & H). exists n. split; [done|].
  intros rs Hl. destruct (H rs Hl) as (s' & ? & ? & _). by exists s'.
Defined.

End Ide.
