(* ===== verification/Grep.v ===== *)
(** * grep.c: the regular expression matcher, the line loop and main

    [Module Grep] translates grep.c.  The matcher works on C strings, as the lists of
    their bytes.  [grep] works on the memory of its process, a list of bytes in which
    [buf] is 1024 bytes at address [buf]: a load outside of it is a page fault.

    [match_correct]: the matcher decides the language of the pattern.
    [grep_prints_matches]: on input that arrives in one [read], [grep] prints the lines
    that match, in order.  [grep_rereads_old_lines]: with more than one [read] it may
    not, because nothing terminates what [read] has stored. *)

From S2P Require Import Prelude CString.

Module Grep.
Import Str.

(** ** The matcher *)

(** [matchstar]; [here] is [matchhere(re, .)]. *)
Fixpoint matchstar (here : list Z -> bool) (c : Z) (text : list Z) : bool :=
  here text ||
  match text with
  | [] => false
  | t :: text' => if (t =? c) || (c =? 46) then matchstar here c text' else false
  end.

Fixpoint matchhere (re text : list Z) : bool :=
  match re with
  | [] => true
  | r0 :: re' =>
      match re' with
      | r1 :: re'' => if r1 =? 42 then matchstar (matchhere re'') r0 text
                      else match text with
                           | [] => false
                           | t :: text' => if (r0 =? 46) || (r0 =? t) then matchhere re' text' else false
                           end
      | [] => match text with
              | [] => r0 =? 36
              | t :: text' => if r0 =? 36 then false else if (r0 =? 46) || (r0 =? t) then matchhere re' text' else false
              end
      end
  end.

(** [do{ if(matchhere(re, text)) return 1; }while( *text++ != 0);] *)
Fixpoint match_loop (re text : list Z) : bool :=
  if matchhere re text then true else match text with [] => false | _ :: text' => match_loop re text' end.

Definition match_ (re text : list Z) : bool :=
  match re with
  | r0 :: re' => if r0 =? 94 then matchhere re' text else match_loop re text
  | [] => match_loop re text
  end.

(** ** The line loop *)

Section Loop.
Context (buf : nat) (pattern : list Z).

(** [strchr(p, c)] in memory; the outer [None] is a page fault. *)
Fixpoint strchr_from (l : list Z) (c : Z) (p : nat) : option (option nat) :=
  match l with
  | [] => None
  | x :: l' => if x =? 0 then Some None else if x =? c then Some (Some p) else strchr_from l' c (S p)
  end.

Definition strchr_mem (m : list Z) (p : nat) (c : Z) : option (option nat) := strchr_from (drop p m) c p.

Record gstate := mkG { g_mem : list Z; g_p : nat; g_out : list Z }.

(** [while((q = strchr(p, 10)) != 0){ ... }] *)
Fixpoint grep_lines (fuel : nat) (s : gstate) : option gstate :=
  match fuel with
  | O => None
  | S fuel' =>
      match strchr_mem (g_mem s) (g_p s) 10 with
      | None => None
      | Some None => Some s
      | Some (Some q) =>
          let m := <[q := 0]> (g_mem s) in
          if match_ pattern (cstr (drop (g_p s) m))
          then let m := <[q := 10]> m in
               grep_lines fuel' (mkG m (q + 1) (g_out s ++ take (q + 1 - g_p s) (drop (g_p s) m)))
          else grep_lines fuel' (mkG m (q + 1) (g_out s))
      end
  end.

(** [read(fd, addr, count)] when the file delivers [d] next; [None] is an error. *)
Definition read_mem (m : list Z) (addr count : Z) (d : list Z) : option (Z * list Z) :=
  if (addr <? 0) || (count <? 0) || (Z.of_nat (length m) <? addr + count) then None
  else let d := take (Z.to_nat count) d in Some (Z.of_nat (length d), splice m (Z.to_nat addr) d).

(** [grep(pattern, fd)]; [reads] are the deliveries of the file until its end. *)
Fixpoint grep (reads : list (list Z)) (mem : list Z) (m : Z) (out : list Z) : option (list Z * list Z * Z) :=
  match reads with
  | [] => Some (out, mem, m)
  | d :: reads' =>
      match read_mem mem (Z.of_nat buf + m) (1024 - m) d with
      | None => Some (out, mem, m)
      | Some (n, mem) =>
          if n =? 0 then Some (out, mem, m) else
          let m := m + n in
          match grep_lines (S (length mem)) (mkG mem buf out) with
          | None => None
          | Some s =>
              let m := if (g_p s =? buf)%nat then 0 else m in
              if 0 <? m then
                let m := m - (Z.of_nat (g_p s) - Z.of_nat buf) in
                grep reads' (splice (g_mem s) buf (take (Z.to_nat m) (drop (g_p s) (g_mem s)))) m (g_out s)
              else grep reads' (g_mem s) m (g_out s)
          end
      end
  end.

End Loop.

(** ** [main] *)

Section Main.
Context (buf : nat).
(** The deliveries of a file, and of descriptor 0; [None] when [open] fails. *)
Context (file : list Z -> option (list (list Z))) (stdin : list (list Z)).

(** The loop over the files from [argv[2]] on; [buf] stays as it was between two files.
    The result is what goes to descriptor 1; [None] is a page fault. *)
Fixpoint grep_files (pattern : list Z) (argv : list (list Z)) (mem out : list Z) : option (list Z) :=
  match argv with
  | [] => Some out
  | a :: argv' =>
      match file a with
      | None => Some (out ++ bytes "grep: cannot open " ++ a ++ [10])
      | Some reads =>
          match grep buf pattern reads mem 0 out with
          | None => None
          | Some (out, mem, _) => grep_files pattern argv' mem out
          end
      end
  end.

(** [main]: the texts on descriptors 1 and 2. *)
Definition grep_main (argv : list (list Z)) (mem : list Z) : option (list Z * list Z) :=
  match argv with
  | [] | [_] => Some ([], bytes "usage: grep pattern [file ...]" ++ [10])
  | [_; pattern] => (fun r => (fst (fst r), [])) <$> grep buf pattern stdin mem 0 []
  | _ :: pattern :: files => (fun o => (o, [])) <$> grep_files pattern files mem []
  end.
End Main.

(** ** What a pattern means *)

Inductive atom := Lit (c : Z) | Any.
Inductive item := One (a : atom) | Many (a : atom) | EndOfLine.

Definition atom_of (c : Z) : atom := if c =? 46 then Any else Lit c.

Fixpoint parse (re : list Z) : list item :=
  match re with
  | [] => []
  | c :: re' =>
      match re' with
      | d :: re'' => if d =? 42 then Many (atom_of c) :: parse re'' else One (atom_of c) :: parse re'
      | [] => if c =? 36 then [EndOfLine] else [One (atom_of c)]
      end
  end.

Definition accepts (a : atom) (x : Z) : Prop := match a with Lit c => x = c | Any => True end.

(** [matches r t]: a prefix of [t] is a word of the items [r]. *)
Inductive matches : list item -> list Z -> Prop :=
| m_nil t : matches [] t
| m_one a r x t : accepts a x -> matches r t -> matches (One a :: r) (x :: t)
| m_many a r u t : Forall (accepts a) u -> matches r t -> matches (Many a :: r) (u ++ t)
| m_end : matches [EndOfLine] [].

Lemma accepts_atom c x : accepts (atom_of c) x <-> (x =? c) || (c =? 46) = true.
Proof. unfold atom_of. destruct (Z.eqb_spec c 46); simpl; [|]; destruct (Z.eqb_spec x c); simpl; naive_solver. Qed.

Lemma matchstar_spec here c (P : list Z -> Prop) text : (forall t, here t = true <-> P t) ->
  matchstar here c text = true <-> exists u t, text = u ++ t /\ Forall (accepts (atom_of c)) u /\ P t.
Proof.
  intros HP. induction text as [|x text IH]; cbn [matchstar].
  - rewrite orb_false_r, HP. split; [intros H; by exists [], []|]. intros (u & t & E & _ & H). by destruct u, t.
  - rewrite orb_true_iff, HP. split.
    + intros [H|H]; [by exists [], (x :: text)|]. destruct ((x =? c) || (c =? 46)) eqn:Hx; [|done].
      apply IH in H as (u & t & -> & Hu & Ht). exists (x :: u), t. split_and!; try done. apply Forall_cons. split; [by apply accepts_atom|done].
    + intros ([|y u] & t & E & Hu & Ht); simpl in E; [by left; subst|]. injection E as <- ->. right.
      apply Forall_cons in Hu as [Hx%accepts_atom Hu]. rewrite Hx. apply IH. by exists u, t.
Qed.

Lemma matches_many a r text : matches (Many a :: r) text <-> exists u t, text = u ++ t /\ Forall (accepts a) u /\ matches r t.
Proof. split; [inversion 1; subst; eauto 6|]. intros (u & t & -> & Hu & Ht). by constructor. Qed.

Lemma matches_one a r text : matches (One a :: r) text <-> match text with [] => False | x :: t => accepts a x /\ matches r t end.
Proof. destruct text; split; try (by inversion 1); intros [? ?]; by constructor. Qed.

Lemma matchhere_spec re text : matchhere re text = true <-> matches (parse re) text.
Proof.
  remember (length re) as n eqn:Hn. assert (Hle : (length re <= n)%nat) by lia. clear Hn. revert re text Hle.
  induction n as [|n IH]; intros [|r0 [|r1 re]] text Hle; simpl in Hle; try lia; try (split; [constructor|done]).
  - cbn [matchhere parse]. destruct (Z.eqb_spec r0 36) as [->|].
    + destruct text; split; try done; [constructor|inversion 1].
    + rewrite matches_one. destruct text as [|t text]; [done|]. rewrite accepts_atom, (Z.eqb_sym t), (orb_comm (r0 =? 46)).
      destruct ((r0 =? t) || (r0 =? 46)); [|by split; [|intros [? _]]]. split; [intros _; split; [done|constructor]|done].
  - cbn [matchhere parse]. destruct (Z.eqb_spec r1 42) as [->|].
    + rewrite matches_many. apply matchstar_spec. intros t. apply IH. lia.
    + rewrite matches_one. destruct text as [|t text]; [done|]. rewrite accepts_atom, (Z.eqb_sym t), (orb_comm (r0 =? 46)).
      destruct ((r0 =? t) || (r0 =? 46)); [|by split; [|intros [? _]]]. pose proof (IH (r1 :: re) text ltac:(simpl; lia)) as Hi.
      split; [intros H; split; [done|by apply Hi]|intros [_ H]; by apply Hi].
Qed.

Lemma match_loop_spec re text : match_loop re text = true <-> exists u v, text = u ++ v /\ matches (parse re) v.
Proof.
  induction text as [|t text IH]; cbn [match_loop]; pose proof (matchhere_spec re) as Hm.
  - split; [|intros (u & v & E & Hv); destruct u, v; try done; apply Hm in Hv; by rewrite Hv].
    destruct (matchhere re []) eqn:E; [|done]. exists [], []. split; [done|by apply Hm].
  - destruct (matchhere re (t :: text)) eqn:E.
    + split; [intros _|done]. exists [], (t :: text). split; [done|by apply Hm].
    + rewrite IH. split; [intros (u & v & -> & Hv); by exists (t :: u), v|].
      intros ([|x u] & v & Ev & Hv); simpl in Ev; [subst v; apply Hm in Hv; congruence|]. injection Ev as -> ->. by exists u, v.
Qed.

(** C26: the matcher of grep terminates on every pattern and text and returns true exactly when the text, from its first byte for a pattern that starts with ^ and from some position otherwise, has a prefix in the language of the pattern, where a dot is any byte, a star repeats the byte before it, and a final dollar is the end of the text. *)
Theorem match_correct re text :
  match_ re text = true <->
  match re with
  | 94 :: re' => matches (parse re') text
  | _ => exists u v, text = u ++ v /\ matches (parse re) v
  end.
Proof.
  destruct re as [|r0 re]; [apply match_loop_spec|]. unfold match_. destruct (Z.eqb_spec r0 94) as [->|Hn]; [apply matchhere_spec|].
  rewrite match_loop_spec. destruct r0 as [|r0|r0]; try done. do 7 (destruct r0 as [r0|r0|]; try done).
Qed.

(** ** The lines [grep] prints *)

Definition unlines (ls : list (list Z)) : list Z := mjoin ((fun l => l ++ [10]) <$> ls).

Lemma unlines_cons l ls : unlines (l :: ls) = l ++ 10 :: unlines ls.
Proof. unfold unlines. simpl. by rewrite <- app_assoc. Qed.

Lemma length_unlines ls : (length ls <= length (unlines ls))%nat.
Proof. induction ls as [|l ls IH]; [done|]. rewrite unlines_cons, length_app. simpl. lia. Qed.

Lemma strchr_from_found l b c p : Forall (fun x => x <> 0 /\ x <> c) l -> c <> 0 -> strchr_from (l ++ c :: b) c p = Some (Some (p + length l)%nat).
Proof.
  intros Hl Hc. revert p. induction Hl as [|x l [Hx Hxc] _ IH]; intros p; cbn [strchr_from app length].
  - rewrite (proj2 (Z.eqb_neq c 0)), Z.eqb_refl by done. by rewrite Nat.add_0_r.
  - rewrite (proj2 (Z.eqb_neq x 0)), (proj2 (Z.eqb_neq x c)) by done. rewrite IH. do 2 f_equal. lia.
Qed.

Lemma strchr_from_nul l b c p : Forall (fun x => x <> 0 /\ x <> c) l -> strchr_from (l ++ 0 :: b) c p = Some None.
Proof.
  intros Hl. revert p. induction Hl as [|x l [Hx Hxc] _ IH]; intros p; cbn [strchr_from app]; [done|].
  by rewrite (proj2 (Z.eqb_neq x 0)), (proj2 (Z.eqb_neq x c)) by done.
Qed.

Lemma cstr_stop l b : Forall (fun x => x <> 0) l -> cstr (l ++ 0 :: b) = l.
Proof. intros Hl. rewrite <- (cstr_id l Hl) at 1. rewrite cstr_app_zero. by apply cstr_id. Qed.

Lemma insert_after (pre l b : list Z) x y : <[(length pre + length l)%nat := y]> (pre ++ l ++ x :: b) = pre ++ l ++ y :: b.
Proof. rewrite !app_assoc. by rewrite insert_app_r_alt, <- length_app, Nat.sub_diag by (rewrite length_app; lia). Qed.

Lemma grep_line pattern fuel pre l b out : Forall (fun x => x <> 0 /\ x <> 10) l ->
  exists c, grep_lines pattern (S fuel) (mkG (pre ++ l ++ 10 :: b) (length pre) out) =
    grep_lines pattern fuel (mkG ((pre ++ l ++ [c]) ++ b) (length (pre ++ l ++ [c])) (out ++ if match_ pattern l then l ++ [10] else [])).
Proof.
  intros Hl. cbn [grep_lines g_mem g_p g_out]. unfold strchr_mem. rewrite drop_app_length, strchr_from_found by done. cbv zeta.
  rewrite insert_after, drop_app_length, cstr_stop by (eapply Forall_impl; [done|]; by intros ? []).
  destruct (match_ pattern l); [exists 10|exists 0].
  - rewrite insert_after, drop_app_length. f_equal. f_equal; [by rewrite <- !app_assoc|rewrite !length_app; simpl; lia|].
    f_equal. replace (length pre + length l + 1 - length pre)%nat with (length (l ++ [10])) by (rewrite length_app; simpl; lia).
    change (10 :: b) with ([10] ++ b). by rewrite app_assoc, take_app_length.
  - f_equal. f_equal; [by rewrite <- !app_assoc|rewrite !length_app; simpl; lia|by rewrite app_nil_r].
Qed.

Lemma grep_lines_ok pattern ls fuel pre r rest out : (length ls < fuel)%nat ->
  Forall (Forall (fun x => x <> 0 /\ x <> 10)) ls -> Forall (fun x => x <> 0 /\ x <> 10) r ->
  exists pre', grep_lines pattern fuel (mkG (pre ++ unlines ls ++ r ++ 0 :: rest) (length pre) out) =
    Some (mkG (pre' ++ r ++ 0 :: rest) (length pre') (out ++ unlines (filter (fun l => match_ pattern l = true) ls))) /\
    length pre' = (length pre + length (unlines ls))%nat.
Proof.
  intros Hf Hls Hr. revert fuel pre out Hf. induction Hls as [|l ls Hl Hls IH]; intros [|fuel] pre out Hf; simpl in Hf; try lia.
  - exists pre. cbn [grep_lines g_mem g_p]. unfold strchr_mem, unlines. cbn [fmap list_fmap mjoin list_join app]. rewrite drop_app_length, strchr_from_nul by done.
    rewrite app_nil_r. split; [done|simpl; lia].
  - rewrite unlines_cons, <- app_assoc. cbn [app]. destruct (grep_line pattern fuel pre l (unlines ls ++ r ++ 0 :: rest) out Hl) as [c ->].
    destruct (IH fuel (pre ++ l ++ [c]) (out ++ if match_ pattern l then l ++ [10] else []) ltac:(lia)) as (pre' & -> & Hp). exists pre'. split.
    + do 2 f_equal. rewrite filter_cons. destruct (match_ pattern l) eqn:Hm.
      * rewrite decide_True by done. rewrite unlines_cons, <- !app_assoc. done.
      * rewrite decide_False by done. by rewrite app_nil_r.
    + rewrite Hp, !length_app. simpl. lia.
Qed.

(** Grep prints the lines that match: when the input arrives in one read of at most 1024 bytes without NULs, grep terminates without a fault, and its output is exactly the newline-terminated lines of the input that the pattern matches, in order. *)
Theorem grep_prints_matches pattern pre post ls r :
  0 < Z.of_nat (length (unlines ls ++ r)) <= 1024 ->
  Forall (Forall (fun x => x <> 0 /\ x <> 10)) ls -> Forall (fun x => x <> 0 /\ x <> 10) r ->
  exists mem' m', grep (length pre) pattern [unlines ls ++ r] (pre ++ replicate 1024 0 ++ 0 :: post) 0 [] =
    Some (unlines (filter (fun l => match_ pattern l = true) ls), mem', m').
Proof.
  intros Hlen Hls Hr. cbn [grep]. unfold read_mem. set (d := unlines ls ++ r) in *.
  rewrite !length_app, length_replicate. cbn [length].
  rewrite (proj2 (Z.ltb_ge _ 0)), (proj2 (Z.ltb_ge (1024 - 0) 0)), (proj2 (Z.ltb_ge (Z.of_nat _) _)) by lia. cbn [orb].
  rewrite take_ge by lia. rewrite (proj2 (Z.eqb_neq _ 0)) by lia.
  assert (Hsp : splice (pre ++ replicate 1024 0 ++ 0 :: post) (Z.to_nat (Z.of_nat (length pre) + 0)) d =
    pre ++ unlines ls ++ r ++ 0 :: (replicate (1024 - length d) 0 ++ post)).
  { rewrite Z.add_0_r, Nat2Z.id. unfold splice. rewrite take_app_length. f_equal.
    rewrite <- drop_drop, drop_app_length. rewrite drop_app_le by (rewrite length_replicate; lia). rewrite drop_replicate.
    rewrite (app_assoc (unlines ls) r). fold d. f_equal. by rewrite app_comm_cons, replicate_cons_app, <- app_assoc. }
  rewrite Hsp. destruct (grep_lines_ok pattern ls (S (length (pre ++ unlines ls ++ r ++ 0 :: replicate (1024 - length d) 0 ++ post))) pre r (replicate (1024 - length d) 0 ++ post) []) as (pre' & -> & Hp); [|done|done|].
  - pose proof (length_unlines ls). rewrite !length_app. lia.
  - cbn [g_out g_p g_mem app]. destruct (0 <? _); eauto.
Qed.

Lemma grep_prints_matches_witness : exists mem' m', grep 3 (bytes "b.*d") [unlines [bytes "abcd"; bytes "dcb"; bytes "bd"] ++ bytes "bxd"] ([1; 2; 3] ++ replicate 1024 0 ++ [0]) 0 [] =
    Some (unlines [bytes "abcd"; bytes "bd"], mem', m').
Proof.
  assert (H : forall l, forallb (fun x => negb (x =? 0) && negb (x =? 10)) l = true -> Forall (fun x => x <> 0 /\ x <> 10) l).
  { induction l as [|x l IH]; [constructor|]. cbn [forallb]. rewrite andb_true_iff. intros [Hx Hl]. constructor; [lia|by apply IH]. }
  apply (grep_prints_matches (bytes "b.*d") [1; 2; 3] [] [bytes "abcd"; bytes "dcb"; bytes "bd"] (bytes "bxd")); [by vm_compute| |by apply H].
  repeat (apply Forall_cons; split; [by apply H|]). apply Forall_nil. done.
Defined.

(** [grep pattern a b], where [a] arrives in one read and [b] cannot be opened. *)
Lemma grep_main_prints (file : list Z -> option (list (list Z))) stdin name a b pattern pre post ls r :
  0 < Z.of_nat (length (unlines ls ++ r)) <= 1024 -> Forall (Forall (fun x => x <> 0 /\ x <> 10)) ls -> Forall (fun x => x <> 0 /\ x <> 10) r ->
  file a = Some [unlines ls ++ r] -> file b = None ->
  grep_main (length pre) file stdin [name; pattern; a; b] (pre ++ replicate 1024 0 ++ 0 :: post) =
    Some (unlines (filter (fun l => match_ pattern l = true) ls) ++ bytes "grep: cannot open " ++ b ++ [10], []).
Proof.
  intros Hlen Hls Hr Ha Hb. destruct (grep_prints_matches pattern pre post ls r Hlen Hls Hr) as (mem' & m' & E).
  cbn [grep_main grep_files fmap option_fmap option_map]. by rewrite Ha, E, Hb.
Qed.

(** ** Reading twice *)

(** Nothing terminates the bytes of a [read] that is shorter than the one before it:
    the line loop goes on into the lines that are left of the first, prints one of them
    again, and leaves [m] negative, so that the next [read] stores below [buf]. *)
Lemma grep_rereads_old_lines : exists mem', grep 4 (bytes "a") [bytes "aaa" ++ [10]; bytes "b" ++ [10]] (replicate 4 7 ++ replicate 1024 0 ++ [0]) 0 [] =
  Some (unlines [bytes "aaa"; bytes "a"], mem', -2).
Proof. vm_compute. by eexists. Qed.

End Grep.
