(* ===== verification/Exec.v ===== *)
(** * exec.c: the program loader

    [Module Exec] translates [exec] over the page table code ([Vm]) and an interface
    [InodeOps] to the inode routines, which [fs_inodes] instantiates with those of
    [Fs].  [struct elfhdr] and [struct proghdr] are the bytes [readi] leaves in them;
    [stale] is what the stack held where [elf] lies.  [argv] are the strings its
    pointers point to, in the old address space.  [image] holds the fields of
    [struct proc] and of its trap frame that [exec] changes.  Not translated:
    [switchuvm], which loads the new page table into the hardware. *)

From S2P Require Import Prelude CString Kalloc Vm Blocks Fs Sysfile.

(** What [exec] calls of the file system. *)
Class InodeOps (F : Type) := {
  i_namei : list Z -> M F (option nat);
  i_lock : nat -> M F unit;
  i_readi : nat -> Z -> Z -> M F (Z * list Z);
  i_unlockput : nat -> M F unit
}.

Module Exec.
Import Kalloc Vm.

Definition ELF_MAGIC : Z := 1179403647.
Definition ELF_PROG_LOAD : Z := 1.

(** Fields of [struct elfhdr] and [struct proghdr]. *)
Definition sizeof_elfhdr : Z := 52.
Definition sizeof_proghdr : Z := 32.
Definition e_magic (d : list Z) : Z := Fs.le32 d 0.
Definition e_entry (d : list Z) : Z := Fs.le32 d 24.
Definition e_phoff (d : list Z) : Z := Fs.le32 d 28.
Definition e_phnum (d : list Z) : Z := Fs.le16 d 44.

Record proghdr := mkPh { ph_type : Z; ph_off : Z; ph_vaddr : Z; ph_filesz : Z; ph_memsz : Z }.
Definition decode_proghdr (d : list Z) : proghdr :=
  mkPh (Fs.le32 d 0) (Fs.le32 d 4) (Fs.le32 d 8) (Fs.le32 d 16) (Fs.le32 d 20).

Record image := mkImage { im_name : list Z; im_pgdir : Z; im_sz : Z; im_eip : Z; im_esp : Z }.

Section Ops.
Context {F : Type} {IO : InodeOps F} (kend kdata : Z) (stale : list Z).

Record xstate := mkX { x_mem : kstate; x_fs : F; x_im : image }.

Definition onk {A} (m : M kstate A) : M xstate A := zoom x_mem (fun k x => mkX k (x_fs x) (x_im x)) m.
Definition onf {A} (m : M F A) : M xstate A := zoom x_fs (fun f x => mkX (x_mem x) f (x_im x)) m.
Definition onkf {A} (m : M (kstate * F) A) : M xstate A :=
  zoom (fun x => (x_mem x, x_fs x)) (fun t x => mkX (fst t) (snd t) (x_im x)) m.

(** [bad:] *)
Definition bad (pgdir : Z) (ip : option nat) : M xstate Z :=
  (if pgdir =? 0 then ret tt else onk (freevm kend pgdir)) ;;;
  (match ip with None => ret tt | Some ip => onf (i_unlockput ip) end) ;;;
  ret (-1).

(** The loop over [n] program headers; [None] is [goto bad]. *)
Fixpoint load_segments (n : nat) (pgdir : Z) (ip : nat) (off sz : Z) : M xstate (option Z) :=
  match n with
  | O => ret (Some sz)
  | S n' =>
      let* r := onf (i_readi ip (u32 off) sizeof_proghdr) in
      if negb (u32 (fst r) =? sizeof_proghdr) then ret None
      else
        let ph := decode_proghdr (snd r) in
        if negb (ph_type ph =? ELF_PROG_LOAD) then load_segments n' pgdir ip (off + sizeof_proghdr) sz
        else if ph_memsz ph <? ph_filesz ph then ret None
        else
          let* sz := onk (allocuvm kend pgdir sz (u32 (ph_vaddr ph + ph_memsz ph))) in
          if sz =? 0 then ret None
          else
            let* r := onkf (loaduvm i_readi pgdir (ph_vaddr ph) ip (ph_off ph) (ph_filesz ph)) in
            if r <? 0 then ret None else load_segments n' pgdir ip (off + sizeof_proghdr) sz
  end.

(** The loop over the arguments: the final [sp] and the pointers [ustack[3..]]. *)
Fixpoint push_args (pgdir : Z) (argv : list (list Z)) (argc sp : Z) (ptrs : list Z) : M xstate (option (Z * list Z)) :=
  match argv with
  | [] => ret (Some (sp, ptrs))
  | s :: argv' =>
      if Sysfile.MAXARG <=? argc then ret None
      else
        let sp := Z.land (u32 (sp - (Str.strlen s + 1))) (Z.lnot 3) in
        let* r := onk (copyout pgdir sp (Str.cstr s ++ [0]) (Str.strlen s + 1)) in
        if r <? 0 then ret None else push_args pgdir argv' (argc + 1) sp (ptrs ++ [sp])
  end.

Definition words (l : list Z) : list Z := mjoin (le_bytes 4 <$> l).

(** [for(last=s=path; *s; s++) if( *s == '/') last = s+1;] *)
Fixpoint last_elem (s last : list Z) : list Z :=
  match s with
  | [] => last
  | c :: s' => if c =? 0 then last else last_elem s' (if c =? 47 then s' else last)
  end.

(** From the stack on: [sz] is the size of the loaded program. *)
Definition exec_stack (path : list Z) (argv : list (list Z)) (entry pgdir sz : Z) : M xstate Z :=
  let sz := PGROUNDUP sz in
  let* sz := onk (allocuvm kend pgdir sz (u32 (sz + 2 * PGSIZE))) in
  if sz =? 0 then bad pgdir None
  else
    onk (clearpteu pgdir (u32 (sz - 2 * PGSIZE))) ;;;
    let* a := push_args pgdir argv 0 sz [] in
    match a with
    | None => bad pgdir None
    | Some (sp, ptrs) =>
        let argc := Z.of_nat (length ptrs) in
        let ustack := words ([4294967295; argc; u32 (sp - (argc + 1) * 4)] ++ ptrs ++ [0]) in
        let sp := u32 (sp - (3 + argc + 1) * 4) in
        let* r := onk (copyout pgdir sp ustack ((3 + argc + 1) * 4)) in
        if r <? 0 then bad pgdir None
        else
          let* im := gets x_im in
          modify (fun x => mkX (x_mem x) (x_fs x)
            (mkImage (Str.safestrcpy (im_name im) (last_elem path path) 16) pgdir sz entry sp)) ;;;
          onk (freevm kend (im_pgdir im)) ;;;
          ret 0
    end.

Definition exec (path : list Z) (argv : list (list Z)) : M xstate Z :=
  let* ip := onf (i_namei path) in
  match ip with
  | None => ret (-1)
  | Some ip =>
      onf (i_lock ip) ;;;
      let* r := onf (i_readi ip 0 sizeof_elfhdr) in
      let elf := splice stale 0 (snd r) in
      if u32 (fst r) <? sizeof_elfhdr then bad 0 (Some ip)
      else if negb (e_magic elf =? ELF_MAGIC) then bad 0 (Some ip)
      else
        let* pgdir := onk (setupkvm kdata) in
        if pgdir =? 0 then bad 0 (Some ip)
        else
          let* sz := load_segments (Z.to_nat (e_phnum elf)) pgdir ip (e_phoff elf) 0 in
          match sz with
          | None => bad pgdir (Some ip)
          | Some sz =>
              onf (i_unlockput ip) ;;;
              exec_stack path argv (e_entry elf) pgdir sz
          end
  end.

End Ops.
Arguments xstate F : clear implicits.

(** The inode routines of fs.c for a process in the directory [cwd]. *)
#[export] Instance fs_inodes {D : Type} {TL : Blocks.TxLayer D} (devsw_read : Z -> option (nat -> Z -> M (Fs.fstate D) (Z * list Z)))
  (cwd : nat) : InodeOps (Fs.fstate D) := {
  i_namei := Fs.namei devsw_read cwd;
  i_lock := fun ip => Fs.ilock (Some ip);
  i_readi := Fs.readi devsw_read;
  i_unlockput := Fs.iunlockput
}.

End Exec.
