(* ===== verification/ExecSpec.v ===== *)
(** * What exec promises

    [program] is what an ELF file asks for: its size and the bytes of its memory.
    [building] describes the address space [exec] builds out of the free pages, next to
    everything that is already allocated.  [exec_loads] is the theorem: with enough free
    memory, [exec] of a well-formed file gives the process the program's memory, an
    inaccessible page and a stack that holds the arguments, and the pages of the old
    address space are free. *)

From S2P Require Import Prelude CString Kalloc Vm VmSpace VmUser VmFork VmSpec VmLoad Fs Sysfile Exec.

Module ExecSpec.
Import Kalloc Vm VmSpace VmUser VmFork VmSpec VmLoad Exec.

(** ** The program of an ELF file *)

Fixpoint phdrs_from (c : list Z) (n : nat) (off : Z) : list proghdr :=
  match n with
  | O => []
  | S n' => decode_proghdr (window c (Z.to_nat off) 32) :: phdrs_from c n' (off + 32)
  end.
Definition phdrs (c : list Z) : list proghdr := phdrs_from c (Z.to_nat (e_phnum c)) (e_phoff c).

(** Size and contents after one program header. *)
Definition load_one (c : list Z) (a : Z * (Z -> option Z)) (ph : proghdr) : Z * (Z -> option Z) :=
  if ph_type ph =? ELF_PROG_LOAD then
    (Z.max (fst a) (ph_vaddr ph + ph_memsz ph),
     fun va => if (ph_vaddr ph <=? va) && (va <? ph_vaddr ph + ph_filesz ph)
               then drop (Z.to_nat (ph_off ph)) c !! Z.to_nat (va - ph_vaddr ph) else snd a va)
  else a.
Definition program (c : list Z) : Z * (Z -> option Z) := foldl (load_one c) (0, fun _ => Some 0) (phdrs c).

(** A program header the loader accepts. *)
Definition wf_ph (c : list Z) (ph : proghdr) : Prop := ph_type ph = ELF_PROG_LOAD ->
  ph_filesz ph <= ph_memsz ph /\ ph_vaddr ph mod PGSIZE = 0 /\ ph_off ph + ph_filesz ph <= Z.of_nat (length c) /\
  0 < ph_vaddr ph + ph_memsz ph <= KERNBASE - 3 * PGSIZE.

Record wf_elf (c : list Z) : Prop := {
  we_bytes : Forall is_byte c;
  we_size : 52 <= Z.of_nat (length c) < 2147483648;
  we_magic : e_magic c = ELF_MAGIC;
  we_table : e_phoff c + 32 * e_phnum c <= Z.of_nat (length c);
  we_phdrs : Forall (wf_ph c) (phdrs c)
}.

(** The stack space of the arguments. *)
Definition args_size (argv : list (list Z)) : Z := foldr (fun s n => Str.strlen s + 4 + n) 0 argv.

(** The pages and page tables of [p] user pages. *)
Definition tcost (p : Z) : Z := p + (p + 1023) / 1024.

(** [bs] is at [a]. *)
Definition holds (img : Z -> option Z) (a : Z) (bs : list Z) : Prop := forall k, (k < length bs)%nat -> img (a + Z.of_nat k) = bs !! k.

(** The cost of [allocuvm]. *)
Lemma pages_cost sp p pe : 0 <= p <= pe -> (tabs sp !! (p / 1024) = None -> p mod 1024 = 0) -> pages_needed sp p pe <= tcost pe - tcost p.
Proof.
  intros Hp Ht. unfold pages_needed, tables_needed, tcost. destruct (Z.ltb_spec p pe); [|replace pe with p by lia; lia].
  destruct (tabs sp !! (p / 1024)); [|specialize (Ht eq_refl)]; dlia.
Qed.

Lemma npages_mono a b : 0 <= a <= b -> b <= KERNBASE -> npages a <= npages b.
Proof. intros H1 H2. destruct (npages_spec a) as (_ & ? & _); [lia|]. destruct (npages_spec b) as (_ & ? & _); [lia|]. unfold PGSIZE in *. lia. Qed.

Lemma tcost_mono a b : a <= b -> tcost a <= tcost b.
Proof. unfold tcost. dlia. Qed.

Lemma le32_u32 d off : Forall is_byte d -> is_u32 (Fs.le32 d off).
Proof.
  intros H. unfold Fs.le32. pose proof (le_val_range (window d off 4) ltac:(auto with xv6)) as Hr.
  assert (Hl : (length (window d off 4) <= 4)%nat) by (unfold window; rewrite length_take; lia).
  assert (256 ^ Z.of_nat (length (window d off 4)) <= 256 ^ 4) by (apply Z.pow_le_mono_r; lia). change (256 ^ 4) with 4294967296 in *. unfold is_u32. lia.
Qed.

Lemma land_lnot3 x : Z.land x (Z.lnot 3) = x - x mod 4.
Proof.
  change 3 with (Z.ones 2). rewrite <- Z.ldiff_land, Z.ldiff_ones_r by lia.
  rewrite Z.shiftl_mul_pow2, Z.shiftr_div_pow2 by lia. change (2 ^ 2) with 4. dlia.
Qed.

(** Size and contents on the way: all of memory has contents, zero above the size. *)
Definition partial (a : Z * (Z -> option Z)) : Prop :=
  0 <= fst a <= KERNBASE - 3 * PGSIZE /\ (forall va, is_Some (snd a va)) /\ forall va, PGSIZE * npages (fst a) <= va -> snd a va = Some 0.

Lemma partial_step c a ph : Forall is_byte c -> partial a -> wf_ph c ph -> is_u32 (ph_vaddr ph) -> is_u32 (ph_off ph) -> is_u32 (ph_filesz ph) ->
  partial (load_one c a ph) /\ fst a <= fst (load_one c a ph).
Proof.
  intros Hc (H1 & H2 & H3) W Hv Ho Hfs. unfold load_one. destruct (Z.eqb_spec (ph_type ph) ELF_PROG_LOAD) as [Et|_]; [|split; [done|lia]].
  destruct (W Et) as (W1 & W2 & W3 & W4). cbn [fst snd]. set (sz := Z.max (fst a) (ph_vaddr ph + ph_memsz ph)).
  assert (Hs : fst a <= sz /\ ph_vaddr ph + ph_memsz ph <= sz /\ sz <= KERNBASE - 3 * PGSIZE) by lia. unfold is_u32 in *.
  split; [split_and!|cbn [fst]; lia]; cbn [fst snd]; [lia|lia| |].
  - intros va. destruct ((ph_vaddr ph <=? va) && (va <? ph_vaddr ph + ph_filesz ph)) eqn:E; [|apply H2]. apply lookup_lt_is_Some_2. rewrite length_drop. lia.
  - intros va Hva. destruct (npages_spec sz) as (_ & Hsz & _); [unfold KERNBASE, PGSIZE in *; lia|].
    rewrite (proj2 (Z.ltb_ge va _)) by lia. rewrite andb_false_r. apply H3.
    pose proof (npages_mono (fst a) sz ltac:(lia) ltac:(unfold PGSIZE in *; lia)). unfold PGSIZE in *. lia.
Qed.

Lemma phdr_ranges c off : Forall is_byte c -> let ph := decode_proghdr (window c off 32) in
  is_u32 (ph_vaddr ph) /\ is_u32 (ph_off ph) /\ is_u32 (ph_filesz ph) /\ is_u32 (ph_memsz ph).
Proof. intros H ph. unfold ph, decode_proghdr. cbn [ph_vaddr ph_off ph_filesz ph_memsz]. split_and!; apply le32_u32; auto with xv6. Qed.

Lemma partial_fold c n off a : Forall is_byte c -> partial a -> Forall (wf_ph c) (phdrs_from c n off) ->
  partial (foldl (load_one c) a (phdrs_from c n off)) /\ fst a <= fst (foldl (load_one c) a (phdrs_from c n off)).
Proof.
  intros Hc. revert off a. induction n as [|n IH]; intros off a Ha Hw; cbn [phdrs_from foldl] in *; [split; [done|lia]|].
  apply Forall_cons in Hw as [W Hw]. destruct (phdr_ranges c (Z.to_nat off) Hc) as (R1 & R2 & R3 & _).
  destruct (partial_step c a _ Hc Ha W R1 R2 R3) as [P1 L1]. destruct (IH (off + 32) _ P1 Hw) as [P2 L2]. split; [done|lia].
Qed.

(** ** Building an address space *)

Section Build.
Context (kend kdata : Z) (Hend : KERNLINK <= kend < KERNBASE + PHYSTOP).
Notation frame := (frame kend).
Notation ainv := (ainv kend).

(** [sp] has [p] user pages with contents [img], all out of the free list [l0] of [s0];
    [l] is what is left of it, and every other page is as in [s0]. *)
Record building (s0 : kstate) (l0 : list Z) (s : kstate) (sp : space) (l : list Z) (p : Z) (img : Z -> option Z) : Prop := {
  b_inv : ainv s sp l;
  b_list : exists u, l0 = u ++ l;
  b_own : forall f, own sp f <-> f ∈ l0 /\ f ∉ l;
  b_mem : forall f, frame f -> f ∉ l0 -> same_page (mem s0) (mem s) f;
  b_pages : 0 <= p <= UPAGES;
  b_user : forall va, 0 <= va < PGSIZE * p -> ubyte (mem s) sp va = img va;
  b_absent : forall q, p <= q < UPAGES -> present sp q = false;
  b_table : tabs sp !! (p / 1024) = None -> p mod 1024 = 0;
  b_kernel : forall q, UPAGES <= q -> ent sp q = kernel_ent kdata q;
  b_cost : Z.of_nat (length l0) <= Z.of_nat (length l) + 80 + tcost p
}.

Lemma building_nodup s0 l0 s sp l p img : building s0 l0 s sp l p img -> NoDup l.
Proof. intros B. apply (k_nodup _ _ _ (v_k _ _ _ _ (a_v _ _ _ _ (b_inv _ _ _ _ _ _ _ B)))). Qed.

(** [setupkvm] starts it. *)
Lemma building_start s l (Q : Z -> kstate -> Prop) : KERNLINK < kdata < KERNBASE + PHYSTOP -> kdata mod PGSIZE = 0 -> kinv kend s l -> 80 <= Z.of_nat (length l) ->
  (forall s' sp l', building s l s' sp l' 0 (fun _ => Some 0) -> Q (dir sp + KERNBASE) s') -> wp (setupkvm kdata) Q s.
Proof using Hend.
  intros Hdata Hda K Hl HQ. apply (setupkvm_wp kend kdata Hend Hdata Hda s l); [done|done|]. intros s' sp l' KS. apply (HQ s' sp l').
  assert (Hup : forall q, q < UPAGES -> present sp q = false) by (intros q; by apply (kernel_no_user kend kdata Hdata Hda _ _ _ _ _ q KS)).
  assert (A : ainv s' sp l') by (by eapply kernel_ainv).
  split; [done|apply KS| |apply KS|done| |intros q Hq; apply Hup; lia|done|intros q _; apply KS|].
  - intros f. split.
    + intros Hf. split; [|by eapply own_taken]. destruct Hf as [Hf|(q & Hq & Hpq & _)]; [by apply (ks_pages _ _ _ _ _ _ _ KS)|by rewrite Hup in Hpq by lia].
    + intros [H1 H2]. left. by apply (ks_used _ _ _ _ _ _ _ KS).
  - intros va Hva. unfold PGSIZE in *. lia.
  - pose proof (ks_cost _ _ _ _ _ _ _ KS). unfold tcost. change ((0 + 1023) / 1024) with 0. lia.
Qed.

(** Mapped pages of the part that is built. *)
Lemma building_present s0 l0 s sp l p img q : building s0 l0 s sp l p img -> 0 <= q < p -> is_Some (img (PGSIZE * q)) -> accessible sp q = true.
Proof.
  intros B Hq [b Hb]. pose proof (b_user _ _ _ _ _ _ _ B (PGSIZE * q) ltac:(unfold PGSIZE; lia)) as Hu. rewrite Hb in Hu. unfold ubyte in Hu.
  replace (PGSIZE * q / PGSIZE) with q in Hu by (unfold PGSIZE; dlia). unfold accessible. by destruct (present sp q && has_flag (ent sp q) PTE_U).
Qed.

(** [allocuvm] adds zeros. *)
Lemma building_alloc s0 l0 s sp l p img oldsz newsz : building s0 l0 s sp l p img -> p = npages oldsz -> 0 <= oldsz <= newsz -> newsz < KERNBASE ->
  (forall va, PGSIZE * p <= va -> img va = Some 0) -> 80 + tcost (npages newsz) <= Z.of_nat (length l0) ->
  wp (allocuvm kend (dir sp + KERNBASE) oldsz newsz) (fun r s' => r = newsz /\ exists sp' l', dir sp' = dir sp /\ building s0 l0 s' sp' l' (npages newsz) img) s.
Proof using Hend.
  intros B Ep Hsz Hmax Himg Hl. pose proof B as [A [u Hu] Ho Hm Hp Hus Hab Ht Hk Hc].
  destruct (npages_spec oldsz) as (E1 & B1 & C1); [lia|]. destruct (npages_spec newsz) as (E2 & B2 & C2); [lia|].
  assert (Hpe : p <= npages newsz) by (subst p; unfold PGSIZE in *; lia).
  assert (Hneed : pages_needed sp p (npages newsz) <= tcost (npages newsz) - tcost p) by (apply pages_cost; [lia|done]).
  eapply wp_mono; [apply (allocuvm_wp kend Hend s sp l oldsz newsz); [done|done|done|subst p; intros q Hq; apply Hab; lia|subst p; lia]|].
  intros r s' (-> & sp' & l' & [XI XD [u' XL] XN XO XK XR XP XW XM XX XU XT] & Hlen). split; [done|]. exists sp', l'. split; [done|].
  rewrite <- Ep in *. set (pe := npages newsz) in *.
  assert (Hsub : forall f, f ∈ l' -> f ∈ l) by (intros f ?; rewrite XL; apply elem_of_app; by right).
  assert (Hsub0 : forall f, f ∈ l -> f ∈ l0) by (intros f ?; rewrite Hu; apply elem_of_app; by right).
  split; [done|exists (u ++ u'); by rewrite Hu, XL, app_assoc| | |lia| | | |intros q Hq; by rewrite XK, Hk|lia].
  - intros f. split.
    + intros [[H1 H2]%Ho|[H1 H2]]%XW; [split; [done|]; intros H3; by apply H2, Hsub|split; [by apply Hsub0|done]].
    + intros [H1 H2]. destruct (decide (f ∈ l)); [by apply XU|by apply XX, Ho].
  - intros f Hf Hn. eapply same_page_trans; [by apply Hm|]. apply XM; [done| |by intros ?%Hsub0]. intros Hpt. apply Hn. apply (Ho f). by left.
  - intros va Hva. destruct (decide (va < PGSIZE * p)).
    + rewrite XO; [apply Hus; lia|unfold UPAGES, KERNBASE, PGSIZE in *; lia|lia].
    + rewrite XN by lia. symmetry. apply Himg. lia.
  - intros q Hq. unfold present. rewrite XR by lia. apply Hab. lia.
  - intros Hnone. destruct (decide (pe mod 1024 = 0)); [done|]. exfalso. destruct (decide (p = pe)) as [E|Hne].
    + rewrite <- E in *. destruct (tabs sp !! (p / 1024)) as [t|] eqn:Et; [|by specialize (Ht eq_refl)].
      apply (lookup_weaken _ (tabs sp')) in Et; [congruence|done].
    + assert (Hpr : present sp' (pe - 1) = false) by (eapply no_table; [exact XI|]; by replace ((pe - 1) / 1024) with (pe / 1024) by dlia).
      specialize (XN (PGSIZE * (pe - 1)) ltac:(unfold PGSIZE; lia)). unfold ubyte in XN.
      replace (PGSIZE * (pe - 1) / PGSIZE) with (pe - 1) in XN by (unfold PGSIZE; dlia). by rewrite Hpr in XN.
Qed.

(** A change of the contents. *)
Lemma building_change s0 l0 s sp l p img s' sp' img' : building s0 l0 s sp l p img -> ainv s' sp' l -> tabs sp' = tabs sp ->
  inside kend sp s s' -> (forall f, own sp' f <-> own sp f) -> (forall q, p <= q -> ent sp' q = ent sp q) ->
  (forall va, 0 <= va < PGSIZE * p -> ubyte (mem s') sp' va = img' va) -> building s0 l0 s' sp' l p img'.
Proof.
  intros [A Hu Ho Hm Hp Hus Hab Ht Hk Hc] A' Etab Hin Hown Hent Himg.
  split; [done|done| | |done|done| |by rewrite Etab| |done].
  - intros f. by rewrite Hown, Ho.
  - intros f Hf Hn. eapply same_page_trans; [by apply Hm|]. apply Hin; [done|]. by intros [? _]%Ho.
  - intros q Hq. unfold present. rewrite Hent by lia. by apply Hab.
  - intros q Hq. rewrite Hent by lia. by apply Hk.
Qed.

(** [copyout] into accessible memory. *)
Lemma building_copyout s0 l0 s sp l p img va buf len : building s0 l0 s sp l p img -> 0 <= va -> 0 <= len -> va + len <= PGSIZE * p ->
  Z.of_nat (length buf) = len -> (forall x, va <= x < va + len -> is_Some (img x)) ->
  wp (copyout (dir sp + KERNBASE) va buf len) (fun r s' => r = 0 /\
    building s0 l0 s' sp l p (fun x => if (va <=? x) && (x <? va + len) then buf !! Z.to_nat (x - va) else img x)) s.
Proof using Hend.
  intros B Hva Hlen Hmax Hb Hsome. pose proof B as [A Hu Ho Hm Hp Hus Hab Ht Hk Hc].
  assert (Hpk : PGSIZE * p <= KERNBASE) by (unfold UPAGES, KERNBASE, PGSIZE in *; lia).
  assert (Hin : forall x, va <= x < va + len -> exists b, ubyte (mem s) sp x = Some b).
  { intros x Hx. destruct (Hsome x Hx) as [b Hbx]. exists b. rewrite <- Hbx. apply Hus. lia. }
  unfold copyout. eapply wp_mono; [apply (copyout_loop_wp kend Hend _ s sp l va buf len); [done|done|done|lia|done|lia|]|].
  - intros x Hx. destruct (Hin x Hx) as [b Hbx]. unfold ubyte in Hbx. destruct (present sp (x / PGSIZE)) eqn:Hpr; [|done].
    destruct (tabs sp !! (x / PGSIZE / 1024)) eqn:E; [by eexists|]. by rewrite (no_table kend s sp l _ A E) in Hpr.
  - intros r s' (A' & Hi & n & Hn & Hcp & [[-> ->]|(-> & Hlt & Hnone)]); [|destruct (Hin (va + n)) as [b Hbn]; [lia|congruence]].
    split; [done|]. eapply building_change; try done. intros x Hx. rewrite Hcp by lia. bool_cases; [done..|by apply Hus].
Qed.

(** A state of [exec] whose new directory [d] has [p] pages with contents [img]. *)
Definition made {F} (P : F -> Prop) (s0 : kstate) (l0 : list Z) (d : Z) (im : image) (p : Z) (img : Z -> option Z) (x : xstate F) : Prop :=
  P (x_fs x) /\ x_im x = im /\ exists sp l, dir sp = d /\ building s0 l0 (x_mem x) sp l p img.

(** ** The loop over the program headers *)

Section Segments.
Context {F : Type} {IO : InodeOps F} (ip : nat) (Inv : F -> Prop) (c : list Z).
Hypothesis readi_ok : forall f off n, Inv f -> 0 <= off -> 0 <= n -> off + n <= Z.of_nat (length c) ->
  wp (i_readi ip off n) (fun r f' => Inv f' /\ r = (n, window c (Z.to_nat off) (Z.to_nat n))) f.
Hypothesis Hbytes : Forall is_byte c.
Hypothesis small : Z.of_nat (length c) < 2147483648.

(** The space under construction when size and contents are [a]. *)
Definition built (s0 : kstate) (l0 : list Z) (d : Z) (im : image) (a : Z * (Z -> option Z)) (x : xstate F) : Prop :=
  made Inv s0 l0 d im (npages (fst a)) (snd a) x.

Lemma segment_alloc s0 l0 d im a x newsz : built s0 l0 d im a x -> partial a -> 0 < newsz <= KERNBASE - 3 * PGSIZE ->
  80 + tcost (npages (Z.max (fst a) newsz)) <= Z.of_nat (length l0) ->
  wp (onk (allocuvm kend (d + KERNBASE) (fst a) newsz)) (fun r x' => r = Z.max (fst a) newsz /\ built s0 l0 d im (Z.max (fst a) newsz, snd a) x') x.
Proof using Hend.
  clear small. intros (HI & Him & sp & l & <- & B) (Ha & Hs & Hz) Hn Hcost. apply wp_zoom. destruct (decide (newsz < fst a)) as [Hlt|Hge].
  - unfold allocuvm. rewrite (proj2 (Z.leb_gt KERNBASE newsz)), (proj2 (Z.ltb_lt newsz (fst a))) by (unfold PGSIZE in *; lia).
    rewrite Z.max_l by lia. apply wp_ret. split; [done|]. split_and!; [done|done|]. by exists sp, l.
  - rewrite Z.max_r in * by lia. eapply wp_mono; [apply (building_alloc s0 l0 (x_mem x) sp l (npages (fst a)) (snd a)); try done; unfold PGSIZE in *; lia|].
    intros r s' [-> (sp' & l' & Hd & B')]. split; [done|]. split_and!; [done|done|]. by exists sp', l'.
Qed.

Lemma segment_load s0 l0 d im a ph x : built s0 l0 d im (Z.max (fst a) (ph_vaddr ph + ph_memsz ph), snd a) x -> partial a ->
  ph_type ph = ELF_PROG_LOAD -> wf_ph c ph -> is_u32 (ph_vaddr ph) -> is_u32 (ph_off ph) -> is_u32 (ph_filesz ph) ->
  wp (onkf (loaduvm i_readi (d + KERNBASE) (ph_vaddr ph) ip (ph_off ph) (ph_filesz ph)))
    (fun r x' => r = 0 /\ built s0 l0 d im (load_one c a ph) x') x.
Proof using Hend readi_ok small.
  intros (HI & Him & sp & l & <- & B) (Ha & Hs & Hz) Et W Hv Ho Hfs. cbn [fst snd] in B. destruct (W Et) as (W1 & W2 & W3 & W4).
  unfold is_u32 in *. set (sz := Z.max (fst a) (ph_vaddr ph + ph_memsz ph)) in *. destruct (npages_spec sz) as (_ & Hsz & _); [unfold KERNBASE, PGSIZE in *; lia|].
  apply wp_zoom. eapply wp_mono; [apply (loaduvm_wp kend Hend i_readi ip Inv c readi_ok ltac:(lia) sp l); cbn [fst snd]; try done; try (unfold KERNBASE, PGSIZE in *; lia)|].
  - apply B.
  - intros q Hq Hlt. eapply building_present; [exact B| |apply Hs]. unfold PGSIZE in *. split; [|lia]. etrans; [|exact Hq]. apply Z.div_pos; lia.
  - intros r t' (-> & A' & Hi & HI' & Hcp). split; [done|]. unfold built, made. cbn [x_fs x_im x_mem]. split_and!; [done|done|].
    exists sp, l. split; [done|]. unfold load_one. rewrite (proj2 (Z.eqb_eq _ _)) by done. cbn [fst snd]. fold sz.
    eapply building_change; try done. intros va Hva. cbn [fst snd] in *. rewrite Hcp; [|pose proof (b_pages _ _ _ _ _ _ _ B); unfold UPAGES, KERNBASE, PGSIZE in *; lia].
    bool_cases; [done..|]. by apply (b_user _ _ _ _ _ _ _ B).
Qed.

Lemma load_segments_wp n off s0 l0 d im a x : built s0 l0 d im a x -> partial a -> 0 <= off -> off + 32 * Z.of_nat n <= Z.of_nat (length c) ->
  Forall (wf_ph c) (phdrs_from c n off) ->
  80 + tcost (npages (fst (foldl (load_one c) a (phdrs_from c n off)))) <= Z.of_nat (length l0) ->
  wp (load_segments kend n (d + KERNBASE) ip off (fst a)) (fun r x' =>
    r = Some (fst (foldl (load_one c) a (phdrs_from c n off))) /\ built s0 l0 d im (foldl (load_one c) a (phdrs_from c n off)) x') x.
Proof using Hend readi_ok Hbytes small.
  revert off a x. induction n as [|n IH]; intros off a x B P Hoff Hlen Hw Hcost; cbn [phdrs_from foldl load_segments] in *; [by apply wp_ret|].
  apply Forall_cons in Hw as [W Hw]. destruct (phdr_ranges c (Z.to_nat off) Hbytes) as (R1 & R2 & R3 & R4).
  apply wp_bind, wp_zoom. rewrite u32_small by (unfold is_u32; lia). eapply wp_mono; [apply readi_ok; [apply B|done|done|unfold sizeof_proghdr; lia]|].
  intros r f' [HI ->]. cbn [fst snd]. change (u32 sizeof_proghdr =? sizeof_proghdr) with true. cbn [negb]. change (Z.to_nat sizeof_proghdr) with 32%nat.
  set (ph := decode_proghdr (window c (Z.to_nat off) 32)) in *. destruct (partial_step c a ph Hbytes P W R1 R2 R3) as [P' L'].
  destruct (partial_fold c n (off + 32) (load_one c a ph) Hbytes P' Hw) as [P'' L''].
  assert (B0 : built s0 l0 d im a (mkX (x_mem x) f' (x_im x))) by (destruct B as (_ & ? & ?); split_and!; done).
  destruct (Z.eqb_spec (ph_type ph) ELF_PROG_LOAD) as [Et|Hne]; cbn [negb].
  - destruct (W Et) as (W1 & W2 & W3 & W4). rewrite (proj2 (Z.ltb_ge _ _)) by done. unfold is_u32 in *.
    rewrite u32_small by (unfold is_u32, KERNBASE, PGSIZE in *; lia).
    assert (Esz : fst (load_one c a ph) = Z.max (fst a) (ph_vaddr ph + ph_memsz ph)) by (unfold load_one; by rewrite Et).
    apply wp_bind. eapply wp_mono; [apply (segment_alloc s0 l0 d im a); [done|done|lia|]|].
    { etrans; [|exact Hcost]. rewrite <- Esz. apply Zplus_le_compat_l, tcost_mono, npages_mono; [|unfold partial, PGSIZE in *; lia]. unfold partial in *. lia. }
    intros sz x1 [-> B1]. rewrite (proj2 (Z.eqb_neq _ 0)) by lia. apply wp_bind. eapply wp_mono; [by eapply segment_load|].
    intros r x2 [-> B2]. cbn [Z.ltb Z.compare]. rewrite <- Esz. apply (IH (off + 32)); [done|done|lia|lia|done|done].
  - assert (E : load_one c a ph = a) by (unfold load_one; by rewrite (proj2 (Z.eqb_neq _ _) Hne)). rewrite E in *.
    apply (IH (off + 32)); [done|done|lia|lia|done|done].
Qed.

End Segments.

(** ** The arguments *)

Section Args.
Context {F : Type} {IO : InodeOps F} (P : F -> Prop) (s0 : kstate) (l0 : list Z) (d : Z) (im : image) (p : Z).
Notation made := (made P s0 l0 d im p).

Lemma made_copyout img x va buf len : made img x -> 0 <= va -> 0 <= len -> va + len <= PGSIZE * p -> Z.of_nat (length buf) = len ->
  (forall y, va <= y < va + len -> is_Some (img y)) ->
  wp (onk (copyout (d + KERNBASE) va buf len)) (fun r x' => r = 0 /\
    made (fun y => if (va <=? y) && (y <? va + len) then buf !! Z.to_nat (y - va) else img y) x') x.
Proof using Hend.
  intros (HP & Him & sp & l & <- & B) Hva Hlen Hmax Hb Hs. apply wp_zoom. eapply wp_mono; [by apply (building_copyout s0 l0 (x_mem x) sp l p img)|].
  intros r s' [-> B']. split; [done|]. split_and!; [done|done|]. by exists sp, l.
Qed.

(** Strings on the stack between [lo] and [hi]. *)
Definition pushed (img : Z -> option Z) (lo hi : Z) (ptr : Z) (s : list Z) : Prop :=
  lo <= ptr /\ ptr + Str.strlen s + 1 <= hi /\ holds img ptr (Str.cstr s ++ [0]).

Lemma push_args_wp argv argc sp ptrs img x lo : made img x -> 0 <= lo -> 0 <= argc -> argc + Z.of_nat (length argv) <= Sysfile.MAXARG ->
  lo + args_size argv <= sp -> sp <= PGSIZE * p -> PGSIZE * p <= KERNBASE -> (forall va, lo <= va < PGSIZE * p -> is_Some (img va)) -> sp mod 4 = 0 ->
  wp (push_args (d + KERNBASE) argv argc sp ptrs) (fun r x' => exists sp' new img', r = Some (sp', ptrs ++ new) /\
    sp - args_size argv <= sp' <= sp /\ sp' mod 4 = 0 /\ made img' x' /\ (forall va, va < sp' \/ sp <= va -> img' va = img va) /\
    (forall va, lo <= va < PGSIZE * p -> is_Some (img' va)) /\ Forall2 (pushed img' sp' sp) new argv) x.
Proof using Hend.
  revert argc sp ptrs img x. induction argv as [|s argv IH]; intros argc sp ptrs img x Hm Hlo Hargc Hmax Hsp Hhi Hk Hs Hal; cbn [push_args args_size foldr length] in *.
  - apply wp_ret. exists sp, [], img. rewrite app_nil_r. split_and!; try done; lia.
  - fold (args_size argv) in *. rewrite (proj2 (Z.leb_gt _ _)) by lia. rewrite Str.strlen_cstr in *. set (n := Z.of_nat (length (Str.cstr s))) in *.
    assert (Hn : 0 <= n) by lia. assert (Ha0 : 0 <= args_size argv).
    { clear. induction argv as [|a argv IH]; cbn [args_size foldr]; [done|]. fold (args_size argv). rewrite Str.strlen_cstr. lia. }
    rewrite u32_small by (unfold is_u32, KERNBASE in *; lia). rewrite land_lnot3. set (sp1 := sp - (n + 1) - (sp - (n + 1)) mod 4).
    assert (H1 : sp - (n + 4) <= sp1 <= sp - (n + 1) /\ sp1 mod 4 = 0) by (unfold sp1; dlia).
    apply wp_bind. eapply wp_mono; [apply (made_copyout img x sp1 (Str.cstr s ++ [0]) (n + 1)); [done|lia|lia|lia|rewrite length_app; simpl; lia|intros y Hy; apply Hs; lia]|].
    intros r x1 [-> Hm1]. cbn [Z.ltb Z.compare]. set (img1 := fun y => if _ : bool then _ else _) in Hm1.
    assert (Himg1 : forall va, lo <= va < PGSIZE * p -> is_Some (img1 va)).
    { intros va Hva. unfold img1. destruct ((sp1 <=? va) && (va <? sp1 + (n + 1))) eqn:E; [|by apply Hs].
      apply lookup_lt_is_Some_2. rewrite length_app. simpl. lia. }
    eapply wp_mono; [apply (IH (argc + 1) sp1 (ptrs ++ [sp1]) img1 x1); [done|done|lia|lia|lia|lia|done|done|lia]|].
    intros r x2 (sp' & new & img' & -> & Hr & Hal' & Hm2 & Hout & Hs' & Hall). exists sp', (sp1 :: new), img'.
    split_and!; [by rewrite <- app_assoc|lia|lia|done|done| |done|].
    + intros va Hva. rewrite Hout by lia. unfold img1. bool_cases; [lia|done].
    + constructor; [|eapply Forall2_impl; [done|]; intros ptr t (? & ? & ?); split_and!; [done|lia|done]].
      split_and!; [lia|rewrite Str.strlen_cstr; lia|]. intros k Hk'. rewrite length_app in Hk'. simpl in Hk'. rewrite Hout by lia.
      unfold img1. rewrite (proj2 (Z.leb_le _ _)), (proj2 (Z.ltb_lt _ _)) by lia. cbn [andb]. f_equal. lia.
Qed.
End Args.

(** ** The stack, and the end of the old address space *)

(** [freevm] of the old space leaves the new one. *)
Lemma drop_old s0 l0 spo s sp l p img : building s0 l0 s sp l p img -> ainv s0 spo l0 ->
  wp (freevm kend (dir spo + KERNBASE)) (fun _ s' => exists l', ainv s' sp l' /\
    (forall f, f ∈ l' <-> (f ∈ l0 \/ own spo f) /\ ~ own sp f) /\
    forall va, 0 <= va < KERNBASE -> ubyte (mem s') sp va = ubyte (mem s) sp va) s.
Proof using Hend.
  intros B A0. pose proof B as [A [u Hu] Ho Hm _ _ _ _ _ _].
  destruct (ainv_keep kend kdata s0 spo l0 s l A0 (v_k _ _ _ _ (a_v _ _ _ _ A))) as [Ao _]; [intros f Hf; rewrite Hu, elem_of_app; by right|..].
  { intros f Hf. destruct (own_taken kend s0 spo l0 f A0 Hf). by apply Hm. }
  apply (freevm_wp kend Hend s spo l); [done|]. intros s' fr K Hfr Hsame.
  assert (Hdis : forall f, own sp f -> ~ own spo f) by (intros f [Hf _]%Ho Hf'; by destruct (own_taken kend s0 spo l0 f A0 Hf')).
  destruct (ainv_more kend s sp l s' fr A K) as [A' Hu'].
  - intros f Hf%Hfr Hf'. by apply (Hdis f).
  - intros f Hf. destruct (own_taken kend s sp l f A Hf). apply Hsame; [done|by apply Hdis|done].
  - exists (fr ++ l). split_and!; [done| |done]. intros f. rewrite elem_of_app, Hfr. split.
    + intros [Hf|Hf]; [split; [by right|intros Hf'; by apply (Hdis f)]|]. split; [left; rewrite Hu; apply elem_of_app; by right|by intros [_ ?]%Ho].
    + intros [[Hf|Hf] Hn]; [|by left]. right. destruct (decide (f ∈ l)); [done|]. by destruct Hn; apply Ho.
Qed.

(** What a process finds after [exec]: [n] pages with contents [img], a page it cannot
    access, and a stack page with the arguments; of the pages that were free or its own,
    those it does not use are free. *)
Definition started {F} (spo : space) (l0 : list Z) (n : Z) (img : Z -> option Z) (entry : Z) (name : list Z) (argv : list (list Z)) (x : xstate F) : Prop :=
  exists sp l ptrs, let im := x_im x in let u := ubyte (mem (x_mem x)) sp in
    im_pgdir im = dir sp + KERNBASE /\ im_sz im = PGSIZE * (n + 2) /\ im_eip im = entry /\ im_name im = name /\
    ainv (x_mem x) sp l /\ (forall f, f ∈ l <-> (f ∈ l0 \/ own spo f) /\ ~ own sp f) /\
    (forall va, 0 <= va < PGSIZE * n -> u va = img va) /\
    (forall va, PGSIZE * n <= va < PGSIZE * (n + 1) \/ PGSIZE * (n + 2) <= va < KERNBASE -> u va = None) /\
    (forall q, UPAGES <= q -> ent sp q = kernel_ent kdata q) /\
    PGSIZE * (n + 1) <= im_esp im /\ im_esp im mod 4 = 0 /\
    holds u (im_esp im) (words ([4294967295; Z.of_nat (length argv); im_esp im + 12] ++ ptrs ++ [0])) /\
    Forall2 (fun ptr s => PGSIZE * (n + 1) <= ptr /\ holds u ptr (Str.cstr s ++ [0])) ptrs argv.

Lemma length_words l : length (words l) = (4 * length l)%nat.
Proof.
  induction l as [|a l IH]; [done|]. change (words (a :: l)) with (le_bytes 4 a ++ words l). rewrite length_app, IH, length_le_bytes. simpl. lia.
Qed.

Lemma npages_pages n : 0 <= n -> PGSIZE * n <= KERNBASE -> npages (PGSIZE * n) = n.
Proof. intros Hn Hk. destruct (npages_spec (PGSIZE * n)) as (_ & H & _); [unfold PGSIZE in *; lia|]. unfold PGSIZE in *. lia. Qed.

Section Stack.
Context {F : Type} {IO : InodeOps F} (P : F -> Prop) (s0 : kstate) (l0 : list Z) (spo : space) (A0 : ainv s0 spo l0).

(** Two pages more. *)
Lemma stack_alloc_wp d im sz img x : made P s0 l0 d im (npages sz) img x -> partial (sz, img) -> 80 + tcost (npages sz + 2) <= Z.of_nat (length l0) ->
  wp (onk (allocuvm kend (d + KERNBASE) (PGSIZE * npages sz) (PGSIZE * (npages sz + 2))))
    (fun r x' => r = PGSIZE * (npages sz + 2) /\ made P s0 l0 d im (npages sz + 2) img x') x.
Proof using Hend.
  clear A0. intros (HP & Him & sp & l & <- & B) ((Hsz & Hk) & Hs & Hz) Hcost. cbn [fst snd] in *. destruct (npages_spec sz) as (_ & Hn & Hn'); [unfold PGSIZE in *; lia|].
  set (n := npages sz) in *. assert (Hn2 : PGSIZE * (n + 2) < KERNBASE) by (unfold KERNBASE, PGSIZE in *; lia).
  assert (E : npages (PGSIZE * n) = n) by (apply npages_pages; unfold PGSIZE in *; lia).
  assert (E2 : npages (PGSIZE * (n + 2)) = n + 2) by (apply npages_pages; unfold PGSIZE in *; lia).
  apply wp_zoom. eapply wp_mono; [apply (building_alloc s0 l0 (x_mem x) sp l n img); [done|done|unfold PGSIZE in *; lia|done|done|by rewrite E2]|].
  intros r s1 [-> (sp1 & l1 & Hd1 & B1)]. rewrite E2 in B1. split; [done|]. split_and!; [done|done|]. by exists sp1, l1.
Qed.

(** The page below the stack becomes inaccessible. *)
Lemma guard_wp d im n img x : made P s0 l0 d im (n + 2) img x -> 0 <= n -> is_Some (img (PGSIZE * n)) ->
  wp (onk (clearpteu (d + KERNBASE) (PGSIZE * n))) (fun _ x' => made P s0 l0 d im (n + 2) (fun va => if va / PGSIZE =? n then None else img va) x') x.
Proof using Hend.
  clear A0. intros (HP & Him & sp & l & <- & B) Hn Hs. apply wp_zoom. pose proof (b_pages _ _ _ _ _ _ _ B) as Hp.
  pose proof (building_present _ _ _ _ _ _ _ n B ltac:(lia) Hs) as Hac. apply andb_prop in Hac as [Hpr _].
  apply (clearpteu_wp kend Hend (x_mem x) sp l); [apply B|lia|done|]. intros s2 sp2 A2 Hd2 Ht2 Hi2 Ho2 Hu2 He2.
  split_and!; [done|done|]. exists sp2, l. split; [done|].
  eapply building_change; [exact B|done|done|done|done|intros q Hq; apply He2; lia|]. intros va Hva.
  rewrite Hu2 by (unfold UPAGES, KERNBASE, PGSIZE in *; lia). destruct (va / PGSIZE =? n); [done|]. by apply (b_user _ _ _ _ _ _ _ B).
Qed.

(** The last steps, once the stack is written. *)
Lemma exec_commit_wp d im n img x img0 argv ptrs sp entry name sz : made P s0 l0 d im (n + 2) img x -> im_pgdir im = dir spo + KERNBASE ->
  0 <= n -> PGSIZE * (n + 2) <= KERNBASE -> sz = PGSIZE * (n + 2) -> (forall va, 0 <= va < PGSIZE * n -> img va = img0 va) ->
  (forall va, PGSIZE * n <= va < PGSIZE * (n + 1) -> img va = None) ->
  PGSIZE * (n + 1) <= sp -> sp mod 4 = 0 -> sp + 4 * Z.of_nat (4 + length ptrs) <= sz ->
  holds img sp (words ([4294967295; Z.of_nat (length argv); sp + 12] ++ ptrs ++ [0])) ->
  Forall2 (fun ptr s => PGSIZE * (n + 1) <= ptr /\ ptr + Str.strlen s + 1 <= sz /\ holds img ptr (Str.cstr s ++ [0])) ptrs argv ->
  wp (modify (fun x => mkX (x_mem x) (x_fs x) (mkImage name (d + KERNBASE) sz entry sp)) ;;; onk (freevm kend (im_pgdir im)) ;;; ret 0)
    (fun r x' => r = 0 /\ P (x_fs x') /\ started spo l0 n img0 entry name argv x') x.
Proof using Hend A0.
  intros (HP & Him & spn & l & <- & B) Hpg Hn Hk -> Himg Hguard Hlo Hal Hhi Hst Hargs. apply wp_bind, wp_modify, wp_bind, wp_zoom. cbn [x_mem x_fs x_im].
  rewrite Hpg. eapply wp_mono; [by apply (drop_old s0 l0 spo (x_mem x) spn l (n + 2) img)|]. intros [] s' (l' & A' & Hl' & Hu').
  assert (Hu : forall va, 0 <= va < PGSIZE * (n + 2) -> ubyte (mem s') spn va = img va).
  { intros va Hva. rewrite Hu' by lia. by apply (b_user _ _ _ _ _ _ _ B). }
  apply wp_ret. split; [done|]. split; [done|]. exists spn, l', ptrs. cbn [x_im x_mem im_pgdir im_sz im_eip im_name im_esp]. cbv zeta. split_and!; try done.
  - intros va Hva. rewrite Hu by (unfold PGSIZE in *; lia). by apply Himg.
  - intros va [Hva|Hva]; [rewrite Hu by (unfold PGSIZE in *; lia); by apply Hguard|].
    assert (Hpr : present spn (va / PGSIZE) = false) by (apply (b_absent _ _ _ _ _ _ _ B); unfold UPAGES, KERNBASE, PGSIZE in *; dlia).
    rewrite Hu' by (unfold PGSIZE in *; lia). unfold ubyte. by rewrite Hpr.
  - apply (b_kernel _ _ _ _ _ _ _ B).
  - intros k Hk'. rewrite <- Hst by done. apply Hu. rewrite length_words, !length_app in Hk'. simpl in Hk'. unfold PGSIZE in *. lia.
  - eapply Forall2_impl; [done|]. intros ptr t (H1 & H2 & H3). split; [done|]. intros k Hk'. rewrite <- H3 by done. apply Hu.
    rewrite Str.strlen_cstr in H2. rewrite length_app in Hk'. simpl in Hk'. unfold PGSIZE in *. lia.
Qed.

Lemma exec_stack_wp path argv entry d im sz img x : made P s0 l0 d im (npages sz) img x -> partial (sz, img) -> im_pgdir im = dir spo + KERNBASE ->
  80 + tcost (npages sz + 2) <= Z.of_nat (length l0) -> Z.of_nat (length argv) <= Sysfile.MAXARG -> args_size argv + 4 * (4 + Z.of_nat (length argv)) <= PGSIZE ->
  wp (exec_stack kend path argv entry (d + KERNBASE) sz) (fun r x' => r = 0 /\ P (x_fs x') /\
    started spo l0 (npages sz) img entry (Str.safestrcpy (im_name im) (last_elem path path) 16) argv x') x.
Proof using Hend A0.
  intros Hm Hpart Hpg Hcost Hargc Hargs. pose proof Hpart as ((Hsz & Hk) & Hs & Hz). cbn [fst snd] in *.
  destruct (npages_spec sz) as (Er & Hn & Hn'); [unfold PGSIZE in *; lia|]. set (n := npages sz) in *.
  assert (Hn2 : PGSIZE * (n + 2) < KERNBASE) by (unfold KERNBASE, PGSIZE in *; lia). unfold exec_stack. rewrite Er.
  replace (PGSIZE * n + 2 * PGSIZE) with (PGSIZE * (n + 2)) by lia. rewrite u32_small by (unfold is_u32, KERNBASE, PGSIZE in *; lia).
  apply wp_bind. eapply wp_mono; [by apply (stack_alloc_wp d im sz img x)|]. intros r x1 [-> Hm1]. fold n in Hm1 |- *.
  rewrite (proj2 (Z.eqb_neq _ 0)) by (unfold PGSIZE in *; lia). replace (PGSIZE * (n + 2) - 2 * PGSIZE) with (PGSIZE * n) by lia.
  rewrite u32_small by (unfold is_u32, KERNBASE, PGSIZE in *; lia). apply wp_bind. eapply wp_mono; [apply (guard_wp d im n img x1 Hm1); [lia|apply Hs]|].
  intros [] x2 Hm2. set (img1 := fun va => if _ : bool then _ else _) in Hm2.
  assert (Hs1 : forall va, PGSIZE * (n + 1) <= va < PGSIZE * (n + 2) -> is_Some (img1 va)).
  { intros va Hva. unfold img1. rewrite (proj2 (Z.eqb_neq _ n)) by (unfold PGSIZE in *; dlia). apply Hs. }
  apply wp_bind. eapply wp_mono; [apply (push_args_wp P s0 l0 d im (n + 2) argv 0 (PGSIZE * (n + 2)) [] img1 x2 (PGSIZE * (n + 1)) Hm2); try done; unfold PGSIZE in *; try dlia|].
  intros r x3 (sp & ptrs & img2 & -> & Hsp & Hal & Hm3 & Hout & Hs2 & Hall). cbn [app]. pose proof (Forall2_length _ _ _ Hall) as El.
  set (argc := Z.of_nat (length ptrs)). assert (Ha : argc = Z.of_nat (length argv)) by (unfold argc; by rewrite El).
  rewrite !u32_small by (unfold is_u32, KERNBASE, Sysfile.MAXARG, PGSIZE in *; lia). set (esp := sp - (3 + argc + 1) * 4).
  replace (sp - (argc + 1) * 4) with (esp + 12) by (unfold esp; lia). cbn [app]. set (ustack := words _).
  assert (Hul : Z.of_nat (length ustack) = (3 + argc + 1) * 4) by (unfold ustack; rewrite length_words; simpl; rewrite length_app; simpl; lia).
  apply wp_bind. eapply wp_mono; [apply (made_copyout P s0 l0 d im (n + 2) img2 x3 esp ustack _ Hm3); try done; unfold esp, PGSIZE in *; try lia|].
  { intros y Hy. apply Hs2. unfold PGSIZE in *. lia. }
  intros r x4 [-> Hm4]. cbn [Z.ltb Z.compare]. apply wp_bind, wp_gets. pose proof (proj1 (proj2 Hm4)) as Eim. rewrite Eim.
  apply (exec_commit_wp d im n _ x4 img argv ptrs esp entry _ _ Hm4); [done|lia|lia|done|..].
  - intros va Hva. cbn beta. rewrite (proj2 (Z.leb_gt _ _)) by (unfold esp, PGSIZE in *; lia). cbn [andb]. rewrite Hout by (unfold PGSIZE in *; lia).
    unfold img1. rewrite (proj2 (Z.eqb_neq _ n)) by (unfold PGSIZE in *; dlia). done.
  - intros va Hva. cbn beta. rewrite (proj2 (Z.leb_gt _ _)) by (unfold esp, PGSIZE in *; lia). cbn [andb]. rewrite Hout by (unfold PGSIZE in *; lia).
    unfold img1. by rewrite (proj2 (Z.eqb_eq _ n)) by (unfold PGSIZE in *; dlia).
  - unfold esp, PGSIZE in *. lia.
  - unfold esp. dlia.
  - unfold esp, argc. lia.
  - rewrite <- Ha. intros k Hk'. cbn beta. change (words _) with ustack in Hk' |- *. rewrite (proj2 (Z.leb_le _ _)), (proj2 (Z.ltb_lt _ _)) by lia. cbn [andb]. f_equal. lia.
  - eapply Forall2_impl; [done|]. intros ptr t (H1 & H2 & H3). split_and!; [unfold PGSIZE in *; lia|done|].
    intros k Hk'. cbn beta. rewrite (proj2 (Z.ltb_ge _ _)) by (unfold esp; lia). rewrite andb_false_r. by apply H3.
Qed.

End Stack.

End Build.
(** ** [exec] *)

Lemma window_app (a b : list Z) off k : (off + k <= length a)%nat -> window (a ++ b) off k = window a off k.
Proof. intros H. unfold window. rewrite drop_app_le, take_app_le by (rewrite ?length_drop; lia). done. Qed.

(** The header as [exec] reads it. *)
Lemma header_fields stale c : 52 <= Z.of_nat (length c) -> let h := splice stale 0 (window c 0 52) in
  e_magic h = e_magic c /\ e_entry h = e_entry c /\ e_phoff h = e_phoff c /\ e_phnum h = e_phnum c.
Proof.
  intros Hl h. unfold h, splice, window at 1. rewrite take_0, drop_0. cbn [app]. set (r := drop _ stale).
  assert (Hw : forall off k, (off + k <= 52)%nat -> window (take 52 c ++ r) off k = window c off k).
  { intros off k Hk. rewrite window_app by (rewrite length_take; lia). rewrite <- (take_drop 52 c) at 2. symmetry. apply window_app. rewrite length_take. lia. }
  unfold e_magic, e_entry, e_phoff, e_phnum, Fs.le32, Fs.le16. rewrite !Hw by lia. done.
Qed.

Lemma program_partial c : wf_elf c -> partial (program c).
Proof.
  intros W. apply partial_fold; [apply W| |apply W]. split_and!; cbn [fst snd]; [done|done|by eexists|done].
Qed.

(** The file at [path] holds [c]: [Inv] is the state of the file system while its inode
    is locked, [Post] after it is released. *)
Record opens {F} {IO : InodeOps F} (path : list Z) (c : list Z) (ip : nat) (Inv Post : F -> Prop) (f : F) : Prop := {
  op_open : wp (i_namei path) (fun r f1 => r = Some ip /\ wp (i_lock ip) (fun _ => Inv) f1) f;
  op_read : forall f off n, Inv f -> 0 <= off -> 0 <= n -> off + n <= Z.of_nat (length c) ->
    wp (i_readi ip off n) (fun r f' => Inv f' /\ r = (n, window c (Z.to_nat off) (Z.to_nat n))) f;
  op_close : forall f, Inv f -> wp (i_unlockput ip) (fun _ => Post) f
}.

(** C14: with enough free memory, [exec] of a well-formed ELF file succeeds: the process runs on a new page table in which it reads exactly the program (file bytes in the segments, zeros elsewhere), then a page it cannot access, then a stack whose words are a fake return address, argc and argv, with every argument string in place and NUL-terminated; the program counter is the entry point, the kernel is mapped, and the free pages are exactly those that were free or belonged to the old address space and are not part of the new one, so nothing leaks and nothing is shared. *)
Theorem exec_loads {F} {IO : InodeOps F} kend kdata stale path argv ip c Inv Post s f im spo l :
  KERNLINK <= kend < KERNBASE + PHYSTOP -> KERNLINK < kdata < KERNBASE + PHYSTOP -> kdata mod PGSIZE = 0 ->
  opens path c ip Inv Post f -> wf_elf c -> ainv kend s spo l -> im_pgdir im = dir spo + KERNBASE ->
  80 + tcost (npages (fst (program c)) + 2) <= Z.of_nat (length l) ->
  Z.of_nat (length argv) <= Sysfile.MAXARG -> args_size argv + 4 * (4 + Z.of_nat (length argv)) <= PGSIZE ->
  wp (exec kend kdata stale path argv) (fun r x => r = 0 /\ Post (x_fs x) /\
    started kend kdata spo l (npages (fst (program c))) (snd (program c)) (e_entry c)
      (Str.safestrcpy (im_name im) (last_elem path path) 16) argv x) (mkX s f im).
Proof.
  intros Hend Hdata Hda [Ho Hr Hc] W A Hpg Hcost Hargc Hargs. pose proof (program_partial c W) as Hpart. pose proof W as [Wb Ws Wm Wt Wp].
  destruct (header_fields stale c ltac:(lia)) as (E1 & E2 & E3 & E4). unfold exec. apply wp_bind, wp_zoom. cbn [x_fs].
  eapply wp_mono; [exact Ho|]. intros r f1 [-> Hlock]. apply wp_bind, wp_zoom. cbn [x_fs x_mem x_im]. eapply wp_mono; [exact Hlock|].
  intros [] f2 HI. apply wp_bind, wp_zoom. cbn [x_fs x_mem x_im]. eapply wp_mono; [apply Hr; [done|done|done|unfold sizeof_elfhdr; lia]|].
  intros r f3 [HI3 ->]. cbn [fst snd x_mem x_im]. change (u32 sizeof_elfhdr <? sizeof_elfhdr) with false. cbn iota.
  change (Z.to_nat 0) with 0%nat. change (Z.to_nat sizeof_elfhdr) with 52%nat. rewrite E1, E2, E3, E4, Wm, Z.eqb_refl. cbn [negb].
  assert (Hph : 0 <= e_phoff c) by (apply (le32_u32 c 28 Wb)).
  assert (Hpn : 0 <= e_phnum c) by (apply (le_val_range (window c 44 2)); auto with xv6).
  destruct (npages_spec (fst (program c))) as (_ & _ & Hn0 & _); [destruct Hpart as [? _]; unfold PGSIZE in *; lia|].
  assert (Ht0 : forall n, 0 <= n -> 0 <= tcost n) by (intros n Hn; unfold tcost; dlia). pose proof (Ht0 (npages (fst (program c)) + 2) ltac:(lia)) as Ht1.
  apply wp_bind, wp_zoom. cbn [x_mem]. apply (building_start kend kdata Hend s l); [done|done|apply A|lia|]. intros s1 sp l1 B. cbn [x_fs x_im].
  pose proof (own_taken kend s1 sp l1 (dir sp) (b_inv _ _ _ _ _ _ _ _ _ B) ltac:(by left; left)) as [Hfd _]. apply (frame_range kend Hend) in Hfd.
  rewrite (proj2 (Z.eqb_neq _ 0)) by (unfold KERNBASE, EXTMEM in *; lia).
  assert (Hfin : tcost (npages (fst (program c))) <= tcost (npages (fst (program c)) + 2)) by (apply tcost_mono; lia).
  apply wp_bind. eapply wp_mono; [apply (load_segments_wp kend kdata Hend ip Inv c Hr Wb ltac:(lia) (Z.to_nat (e_phnum c)) (e_phoff c) s l (dir sp) im (0, fun _ => Some 0))|].
  - split_and!; [done|done|]. exists sp, l1. done.
  - split_and!; cbn [fst snd]; [done|done|by eexists|done].
  - done.
  - rewrite Z2Nat.id by done. done.
  - exact Wp.
  - fold (phdrs c) (program c). lia.
  - fold (phdrs c) (program c). intros r x2 [-> (HI2 & Him2 & sp2 & l2 & Hd2 & B2)]. apply wp_bind, wp_zoom. eapply wp_mono; [by apply Hc|]. intros [] f4 HP.
    apply (exec_stack_wp kend kdata Hend Post s l spo A); [|by destruct (program c)|done..]. split_and!; [done|done|]. by exists sp2, l2.
Qed.

(** ** A program *)

(** One segment of eight file bytes and one page of memory at address 0. *)
Definition demo_elf : list Z :=
  le_bytes 4 ELF_MAGIC ++ replicate 20 0 ++ le_bytes 4 4 ++ le_bytes 4 52 ++ replicate 12 0 ++ le_bytes 2 1 ++ replicate 6 0 ++
  words [1; 84; 0; 0; 8; 4096; 7; 4096] ++ bytes "programs".

(** A file system with this file only. *)
Definition demo_inodes : InodeOps unit := {|
  i_namei := fun _ => ret (Some 0%nat);
  i_lock := fun _ => ret tt;
  i_readi := fun _ off n => let d := window demo_elf (Z.to_nat off) (Z.to_nat n) in ret (Z.of_nat (length d), d);
  i_unlockput := fun _ => ret tt |}.

Lemma demo_opens path : @opens unit demo_inodes path demo_elf 0 (fun _ => True) (fun _ => True) tt.
Proof.
  split; [done| |done]. intros f off n _ Ho Hn Hl. unfold wp. cbn [i_readi demo_inodes]. unfold ret. split; [done|].
  f_equal. rewrite length_window; lia.
Qed.

Lemma demo_wf : wf_elf demo_elf.
Proof.
  split; [by apply (bool_decide_unpack _); vm_compute|by vm_compute|done|by vm_compute|].
  apply Forall_singleton. intros _. by vm_compute.
Qed.

Lemma exec_loads_witness : exists x, @exec unit demo_inodes d_end d_data [] (bytes "/bin/sh") [bytes "sh"; bytes "-c"] (mkX (d_state 100) tt (mkImage [] (d_dir 100 + KERNBASE) 0 0 0)) = Ret 0 x /\
  im_eip (x_im x) = 4 /\ im_sz (x_im x) = 12288 /\ exists sp, ubyte (mem (x_mem x)) sp 3 = Some 103 /\ ubyte (mem (x_mem x)) sp 4096 = None.
Proof.
  pose proof (exec_loads (IO := demo_inodes) d_end d_data [] (bytes "/bin/sh") [bytes "sh"; bytes "-c"] 0 demo_elf (fun _ => True) (fun _ => True)
    (d_state 100) tt (mkImage [] (d_dir 100 + KERNBASE) 0 0 0) (d_space 100) (d_list 100) d_end_ok ltac:(by vm_compute) ltac:(done) (demo_opens _) demo_wf (d_ainv 100 eq_refl) eq_refl
    ltac:(by vm_compute) ltac:(by vm_compute) ltac:(by vm_compute)) as H.
  destruct (proj1 (wp_returns _ _ _) H) as (r & x & E & -> & _ & sp & l & ptrs & _ & Esz & Ee & _ & _ & _ & Hu & Hg & _).
  exists x. split; [exact E|]. split; [exact Ee|]. split; [exact Esz|]. exists sp. specialize (Hu 3). specialize (Hg 4096). clear H E Ee Esz.
  split; [etrans; [apply Hu; by vm_compute|by vm_compute]|apply Hg; left; by vm_compute].
Defined.

(** ** What [exec] does not test *)

(** A segment that is not page-aligned stops the kernel: [loaduvm] panics. *)
Lemma exec_panics_misaligned {F} {IO : InodeOps F} kend pgdir ip off sz x d f newsz s' :
  i_readi ip (u32 off) sizeof_proghdr (x_fs x) = Ret (sizeof_proghdr, d) f -> ph_type (decode_proghdr d) = ELF_PROG_LOAD ->
  ph_filesz (decode_proghdr d) <= ph_memsz (decode_proghdr d) -> ph_vaddr (decode_proghdr d) mod PGSIZE <> 0 ->
  allocuvm kend pgdir sz (u32 (ph_vaddr (decode_proghdr d) + ph_memsz (decode_proghdr d))) (x_mem x) = Ret newsz s' -> newsz <> 0 ->
  load_segments kend 1 pgdir ip off sz x = Panic "loaduvm: addr must be page aligned".
Proof.
  intros Hr Ht Hle Hmis Ha Hnz. cbn [load_segments]. unfold onf, onk, onkf, zoom, bind. rewrite Hr. cbn [fst snd x_mem x_fs x_im].
  change (u32 sizeof_proghdr =? sizeof_proghdr) with true. cbn [negb]. rewrite Ht. change (ELF_PROG_LOAD =? ELF_PROG_LOAD) with true. cbn [negb].
  rewrite (proj2 (Z.ltb_ge _ _)) by done. cbv beta iota. cbn [x_mem]. rewrite Ha, (proj2 (Z.eqb_neq newsz 0)) by done.
  unfold loaduvm. rewrite (proj2 (Z.eqb_neq (_ mod PGSIZE) 0)) by done. done.
Qed.

(** A header [readi] cannot read is taken for read: -1 is not less than the size of the
    header, an unsigned number.  With no program headers in what the stack held before,
    the process then runs at the entry point found there. *)
Lemma exec_runs_stale {F} {IO : InodeOps F} kend kdata stale path argv ip (Inv Post : F -> Prop) s f im spo l :
  KERNLINK <= kend < KERNBASE + PHYSTOP -> KERNLINK < kdata < KERNBASE + PHYSTOP -> kdata mod PGSIZE = 0 ->
  wp (i_namei path) (fun r f1 => r = Some ip /\ wp (i_lock ip) (fun _ => Inv) f1) f ->
  (forall f, Inv f -> wp (i_readi ip 0 sizeof_elfhdr) (fun r f' => Inv f' /\ r = (-1, [])) f) -> (forall f, Inv f -> wp (i_unlockput ip) (fun _ => Post) f) ->
  e_magic stale = ELF_MAGIC -> e_phnum stale = 0 -> ainv kend s spo l -> im_pgdir im = dir spo + KERNBASE -> 84 <= Z.of_nat (length l) ->
  Z.of_nat (length argv) <= Sysfile.MAXARG -> args_size argv + 4 * (4 + Z.of_nat (length argv)) <= PGSIZE ->
  wp (exec kend kdata stale path argv) (fun r x => r = 0 /\ im_eip (x_im x) = e_entry stale) (mkX s f im).
Proof.
  intros Hend Hdata Hda Ho Hr Hc Hm Hn A Hpg Hcost Hargc Hargs. unfold exec. apply wp_bind, wp_zoom. cbn [x_fs].
  eapply wp_mono; [exact Ho|]. intros r f1 [-> Hlock]. apply wp_bind, wp_zoom. cbn [x_fs x_mem x_im]. eapply wp_mono; [exact Hlock|].
  intros [] f2 HI. apply wp_bind, wp_zoom. cbn [x_fs x_mem x_im]. eapply wp_mono; [by apply Hr|]. intros r f3 [HI3 ->]. cbn [fst snd x_mem x_im].
  change (u32 (-1) <? sizeof_elfhdr) with false. cbn iota. change (splice stale 0 []) with (drop 0 stale). rewrite drop_0, Hm, Hn, Z.eqb_refl. cbn [negb].
  apply wp_bind, wp_zoom. cbn [x_mem]. apply (building_start kend kdata Hend s l); [done|done|apply A|lia|]. intros s1 sp l1 B. cbn [x_fs x_im].
  pose proof (own_taken kend s1 sp l1 (dir sp) (b_inv _ _ _ _ _ _ _ _ _ B) ltac:(by left; left)) as [Hfd _]. apply (frame_range kend Hend) in Hfd.
  rewrite (proj2 (Z.eqb_neq _ 0)) by (unfold KERNBASE, EXTMEM in *; lia). change (Z.to_nat 0) with 0%nat. cbn [load_segments]. apply wp_bind, wp_ret.
  apply wp_bind, wp_zoom. cbn [x_fs x_mem x_im]. eapply wp_mono; [by apply Hc|]. intros [] f4 HP.
  eapply wp_mono; [apply (exec_stack_wp kend kdata Hend Post s l spo A path argv (e_entry stale) (dir sp) im 0 (fun _ => Some 0)); [| |done| |done|done]|].
  - split_and!; [done|done|]. by exists sp, l1.
  - split_and!; cbn [fst snd]; [done|done|by eexists|done].
  - change (80 + tcost (npages 0 + 2)) with 83. lia.
  - intros r x (-> & _ & sp2 & l2 & ptrs & _ & _ & He & _). split; [done|exact He].
Qed.

(** The end of a segment is computed modulo 2^32 and not compared with its start: a
    segment at the address of the kernel text whose end wraps around is loaded over it. *)
Lemma exec_overwrites_kernel {F} {IO : InodeOps F} kend kdata ip Inv c off s0 l0 d im a x :
  KERNLINK <= kend < KERNBASE + PHYSTOP -> KERNLINK < kdata < KERNBASE + PHYSTOP -> kdata mod PGSIZE = 0 ->
  (forall f off n, Inv f -> 0 <= off -> 0 <= n -> off + n <= Z.of_nat (length c) -> wp (i_readi ip off n) (fun r f' => Inv f' /\ r = (n, window c (Z.to_nat off) (Z.to_nat n))) f) ->
  Z.of_nat (length c) < 2147483648 -> made kend kdata Inv s0 l0 d im (npages (fst a)) (snd a) x -> partial a -> 0 <= off -> off + 32 <= Z.of_nat (length c) ->
  let ph := decode_proghdr (window c (Z.to_nat off) 32) in let newsz := ph_vaddr ph + ph_memsz ph - 4294967296 in
  ph_type ph = ELF_PROG_LOAD -> ph_vaddr ph = KERNLINK -> 0 < newsz <= KERNBASE - 3 * PGSIZE -> 0 <= ph_off ph -> 0 < ph_filesz ph <= PGSIZE ->
  ph_off ph + ph_filesz ph <= Z.of_nat (length c) -> 80 + tcost (npages (Z.max (fst a) newsz)) <= Z.of_nat (length l0) ->
  wp (load_segments kend 1 (d + KERNBASE) ip off (fst a)) (fun r x' => r = Some (Z.max (fst a) newsz) /\
    forall k, 0 <= k < ph_filesz ph -> Some (mem (x_mem x') (EXTMEM + k)) = c !! Z.to_nat (ph_off ph + k)) x.
Proof.
  intros Hend Hdata Hda Hr Hsmall Hm P Hoff Hlen ph newsz Ht Hv Hnew Hpo Hfs Hfl Hcost. cbn [load_segments]. unfold KERNLINK, KERNBASE, EXTMEM, PGSIZE in Hnew, Hv, Hfs.
  apply wp_bind, wp_zoom. rewrite u32_small by (unfold is_u32; lia). eapply wp_mono; [apply Hr; [apply Hm|done|done|unfold sizeof_proghdr; lia]|].
  intros r f' [HI ->]. cbn [fst snd]. change (u32 sizeof_proghdr =? sizeof_proghdr) with true. cbn [negb]. change (Z.to_nat sizeof_proghdr) with 32%nat. fold ph.
  rewrite Ht. change (ELF_PROG_LOAD =? ELF_PROG_LOAD) with true. cbn [negb]. rewrite (proj2 (Z.ltb_ge _ _)) by (unfold newsz in *; lia).
  assert (u32 (ph_vaddr ph + ph_memsz ph) = newsz) as ->.
  { unfold u32. symmetry. apply (Z.mod_unique _ _ 1); unfold newsz in *; lia. }
  apply wp_bind. eapply wp_mono; [apply (segment_alloc kend kdata Hend Inv s0 l0 d im a); [destruct Hm as (_ & ? & ?); split_and!; done|done|unfold KERNBASE, PGSIZE; lia|done]|].
  intros sz x1 [-> (HI1 & Him1 & sp & l & <- & B)]. rewrite (proj2 (Z.eqb_neq _ 0)) by lia. cbn [fst snd] in B. apply wp_bind, wp_zoom.
  pose proof (b_inv _ _ _ _ _ _ _ _ _ B) as A. pose proof (b_kernel _ _ _ _ _ _ _ _ _ B 524544 ltac:(by vm_compute)) as He.
  assert (Hke : kernel_ent kdata 524544 = EXTMEM + 1).
  { unfold kernel_ent. assert (524544 < kdata / PGSIZE) by (unfold KERNLINK, KERNBASE, EXTMEM, PGSIZE in *; dlia).
    rewrite (proj2 (Z.ltb_lt 524544 (kdata / PGSIZE))) by done. by vm_compute. }
  rewrite Hke in He. assert (Htab : is_Some (tabs sp !! (524544 / 1024))).
  { unfold ent in He. destruct (ents sp !! 524544) eqn:E; [|done]. by apply (r_ents _ _ _ (v_repr _ _ _ _ (a_v _ _ _ _ A))) in E as (_ & _ & ?). }
  destruct Htab as [t Htab]. rewrite Hv. unfold loaduvm. change (negb (2148532224 mod PGSIZE =? 0)) with false. cbn iota. cbn [loaduvm_loop].
  rewrite (proj2 (Z.ltb_lt 0 _)) by lia. change (u32 (2148532224 + 0)) with 2148532224. apply wp_bind, wp_zoom. cbn [fst]. unfold wp at 1.
  rewrite (walk_found kend Hend (x_mem x1) sp l 2148532224 t) by (apply A || done). change (2148532224 / PGSIZE) with 524544.
  rewrite (pte_ptr_nonzero kend Hend (x_mem x1) sp l 524544 t) by (apply A || done). apply wp_bind, wp_zoom. cbn [fst snd]. unfold wp at 1.
  rewrite (pte_read kend Hend (x_mem x1) sp l 524544 t) by (apply A || done). rewrite He. change (v2p (p2v (PTE_ADDR (EXTMEM + 1)))) with EXTMEM.
  rewrite Z.sub_0_r, Z.add_0_r. assert ((if ph_filesz ph <? PGSIZE then ph_filesz ph else PGSIZE) = ph_filesz ph) as -> by (unfold PGSIZE; destruct (Z.ltb_spec (ph_filesz ph) 4096); lia).
  rewrite (u32_small (ph_off ph)) by (unfold is_u32; lia). apply wp_bind, wp_zoom. cbn [fst snd]. eapply wp_mono; [apply Hr; [done|done|lia|lia]|].
  intros r f2 [HI2 ->]. cbn [fst snd]. apply wp_bind, wp_zoom. cbn [fst snd]. apply wp_modify. rewrite u32_small by (unfold is_u32; lia). rewrite Z.eqb_refl. cbn [negb].
  assert (forall fuel s, loaduvm_loop i_readi fuel (dir sp + KERNBASE) 2148532224 ip (ph_off ph) (ph_filesz ph) (u32 (0 + PGSIZE)) s = Ret 0 s) as Hend0.
  { intros [|fuel] st; [done|]. cbn [loaduvm_loop]. change (u32 (0 + PGSIZE)) with 4096. by rewrite (proj2 (Z.ltb_ge _ _)) by lia. }
  unfold wp at 1. rewrite Hend0. cbn [Z.ltb Z.compare fst snd]. apply wp_ret. split; [done|]. intros k Hk. cbn [x_mem mem].
  rewrite write_inside by (rewrite length_window; lia). unfold window. rewrite lookup_take_lt, lookup_drop by lia. f_equal. lia.
Qed.

End ExecSpec.
