(* ===== verification/Machine.v ===== *)
(** * mmu.h, x86.h, trapasm.S, swtch.S: entering and leaving the kernel

    [Module Machine] models the processor as far as the kernel programs it: registers,
    segment descriptors, gates, the task state, and the stack in memory.  [seginit],
    [kvmalloc] and [switchuvm] (vm.c), [tvinit] (trap.c), the entry points of vectors.pl, [alltraps] and
    [trapret] (trapasm.S) and [swtch] (swtch.S) are translated; [deliver] and [iret] are
    the processor's own steps, as its documentation describes them.  Memory is by virtual
    address; the kernel's part of it is mapped everywhere.

    [trap_roundtrip]: a trap from user mode builds the [struct trapframe] the C code
    expects, and returning from it restores every register.  [user_int_gate]: user code
    can enter the kernel by an [int] instruction through the system call gate only.
    [swtch_resumes]: a context that was switched away continues where it called [swtch].
    [first_run]: a new process starts in [forkret] and then at its trap frame. *)

From S2P Require Import Prelude Kalloc Vm Proc Syscall.

Module Machine.
Import Kalloc.

(** ** Descriptors *)

Definition NSEGS : nat := 7.
Definition SEG_KCODE : Z := 1.
Definition SEG_KDATA : Z := 2.
Definition SEG_KCPU : Z := 3.
Definition SEG_TSS : Z := 6.
Definition STA_X : Z := 8.
Definition STA_W : Z := 2.
Definition STA_R : Z := 2.
Definition STS_T32A : Z := 9.
Definition STS_IG32 : Z := 14.
Definition STS_TG32 : Z := 15.
Definition FL_TF : Z := 256.
Definition FL_NT : Z := 16384.
Definition FL_RF : Z := 65536.
Definition FL_VM : Z := 131072.

Record segdesc := mkSeg {
  lim_15_0 : Z; base_15_0 : Z; base_23_16 : Z; sd_type : Z; sd_s : Z; sd_dpl : Z; sd_p : Z;
  lim_19_16 : Z; avl : Z; sd_rsv1 : Z; db : Z; sd_g : Z; base_31_24 : Z }.

Definition SEG (type base lim dpl : Z) : segdesc :=
  mkSeg (Z.land (Z.shiftr lim 12) 65535) (Z.land base 65535) (Z.land (Z.shiftr base 16) 255) type 1 dpl 1
    (Z.shiftr lim 28) 0 0 1 1 (Z.shiftr base 24).
Definition SEG16 (type base lim dpl : Z) : segdesc :=
  mkSeg (Z.land lim 65535) (Z.land base 65535) (Z.land (Z.shiftr base 16) 255) type 1 dpl 1
    (Z.shiftr lim 16) 0 0 1 0 (Z.shiftr base 24).

(** What the processor reads in a descriptor. *)
Definition seg_base (d : segdesc) : Z := base_15_0 d + 65536 * base_23_16 d + 16777216 * base_31_24 d.
Definition seg_limit (d : segdesc) : Z :=
  let l := lim_15_0 d + 65536 * lim_19_16 d in if sd_g d =? 1 then 4096 * l + 4095 else l.

Record gatedesc := mkGate {
  off_15_0 : Z; g_cs : Z; args : Z; g_rsv1 : Z; g_type : Z; g_s : Z; g_dpl : Z; g_p : Z; off_31_16 : Z }.

Definition SETGATE (istrap : bool) (sel off d : Z) : gatedesc :=
  mkGate (Z.land off 65535) sel 0 0 (if istrap then STS_TG32 else STS_IG32) 0 d 1 (Z.shiftr off 16).

Definition gate_off (g : gatedesc) : Z := off_15_0 g + 65536 * off_31_16 g.

(** ** The processor *)

Record regs := mkRegs {
  eax : Z; ecx : Z; edx : Z; ebx : Z; esp : Z; ebp : Z; esi : Z; edi : Z; eip : Z; eflags : Z;
  cs : Z; ss : Z; ds : Z; es : Z; fs : Z; gs : Z }.

(** [cr3] and the task register; [ss0] and [esp0] of [struct taskstate]; [gs_cpu] and
    [gs_proc] are the two words at [%gs:0] and [%gs:4]. *)
Record hw := mkHw {
  r : regs; mem : memory; gdt : list segdesc; idt : list gatedesc;
  ss0 : Z; esp0 : Z; tr : Z; cr3 : Z; gs_cpu : Z; gs_proc : Z }.

Definition set_regs (x : regs) (h : hw) : hw := mkHw x (mem h) (gdt h) (idt h) (ss0 h) (esp0 h) (tr h) (cr3 h) (gs_cpu h) (gs_proc h).
Definition set_hmem (m : memory) (h : hw) : hw := mkHw (r h) m (gdt h) (idt h) (ss0 h) (esp0 h) (tr h) (cr3 h) (gs_cpu h) (gs_proc h).

Definition cpl (x : regs) : Z := Z.land (cs x) 3.

Definition set_esp (v : Z) (x : regs) : regs :=
  mkRegs (eax x) (ecx x) (edx x) (ebx x) v (ebp x) (esi x) (edi x) (eip x) (eflags x) (cs x) (ss x) (ds x) (es x) (fs x) (gs x).
Definition set_segs (d f : Z) (x : regs) : regs :=
  mkRegs (eax x) (ecx x) (edx x) (ebx x) (esp x) (ebp x) (esi x) (edi x) (eip x) (eflags x) (cs x) (ss x) d d f f.
(** Code and stack segment, [eip] and [eflags]. *)
Definition set_flow (cs' eip' eflags' ss' esp' : Z) (x : regs) : regs :=
  mkRegs (eax x) (ecx x) (edx x) (ebx x) esp' (ebp x) (esi x) (edi x) eip' eflags' cs' ss' (ds x) (es x) (fs x) (gs x).

(** [pushl] of several words, the first one at the highest address. *)
Fixpoint pushes (vs : list Z) (m : memory) (sp : Z) : memory * Z :=
  match vs with
  | [] => (m, sp)
  | v :: vs' => pushes vs' (store32 m (u32 (sp - 4)) v) (u32 (sp - 4))
  end.

Definition pushl (vs : list Z) (h : hw) : hw :=
  let p := pushes vs (mem h) (esp (r h)) in set_hmem (fst p) (set_regs (set_esp (snd p) (r h)) h).

(** Exceptions for which the processor pushes an error code. *)
Definition has_errcode (n : Z) : bool := (n =? 8) || ((10 <=? n) && (n <=? 14)) || (n =? 17).

(** The processor takes interrupt [n]: [soft] for an [int] instruction, [err] is the
    error code of an exception.  [None] is a general protection fault instead. *)
Definition deliver (n : Z) (soft : bool) (err : Z) (h : hw) : option hw :=
  match idt h !! Z.to_nat n with
  | None => None
  | Some g =>
      if (g_p g =? 0) || (soft && (g_dpl g <? cpl (r h))) then None
      else
        match gdt h !! Z.to_nat (g_cs g / 8) with
        | None => None
        | Some d =>
            let x := r h in
            let fl := clear_flag (clear_flag (clear_flag (clear_flag (eflags x) FL_TF) FL_NT) FL_RF) FL_VM in
            let fl := if g_type g =? STS_IG32 then clear_flag fl Proc.FL_IF else fl in
            let code := if negb soft && has_errcode n then [err] else [] in
            let frame := [eflags x; cs x; eip x] ++ code in
            if sd_dpl d <? cpl x then
              let h := set_regs (set_flow (g_cs g) (gate_off g) fl (ss0 h) (esp0 h) x) h in
              Some (pushl ([ss x; esp x] ++ frame) h)
            else
              let h := set_regs (set_flow (g_cs g) (gate_off g) fl (ss x) (esp x) x) h in
              Some (pushl frame h)
        end
  end.

(** vectors.pl: the entry point of trap [n]. *)
Definition vector (n : Z) (h : hw) : hw := pushl ((if has_errcode n then [] else [0]) ++ [n]) h.

(** [alltraps] up to the call of [trap], whose argument is the resulting [esp]. *)
Definition alltraps (h : hw) : hw :=
  let h := pushl [ds (r h); es (r h); fs (r h); gs (r h)] h in
  let x := r h in
  let h := pushl [eax x; ecx x; edx x; ebx x; esp x; ebp x; esi x; edi x] h in
  set_regs (set_segs (SEG_KDATA * 8) (SEG_KCPU * 8) (r h)) h.

(** [struct trapframe] at [a]. *)
Definition tf_at (m : memory) (a : Z) : Proc.trapframe :=
  let w i := load32 m (a + 4 * i) in
  Proc.mkTf (w 0) (w 1) (w 2) (w 3) (w 4) (w 5) (w 6) (w 7) (u16 (w 8)) (u16 (w 9)) (u16 (w 10)) (u16 (w 11)) (w 12) (w 13)
    (w 14) (u16 (w 15)) (w 16) (w 17) (u16 (w 18)).

(** [iret]: the stack pointer only comes back with a change of privilege. *)
Definition iret (h : hw) : hw :=
  let x := r h in
  let w i := load32 (mem h) (u32 (esp x + 4 * i)) in
  let cs' := u16 (w 1) in
  if cpl x <? Z.land cs' 3 then set_regs (set_flow cs' (w 0) (w 2) (u16 (w 4)) (w 3) x) h
  else set_regs (set_flow cs' (w 0) (w 2) (ss x) (u32 (esp x + 12)) x) h.

Definition trapret (h : hw) : hw :=
  let x := r h in
  let w i := load32 (mem h) (u32 (esp x + 4 * i)) in
  iret (set_regs (mkRegs (w 7) (w 6) (w 5) (w 4) (u32 (esp x + 56)) (w 2) (w 1) (w 0) (eip x) (eflags x) (cs x) (ss x)
    (u16 (w 11)) (u16 (w 10)) (u16 (w 9)) (u16 (w 8))) h).

(** ** Setting up *)

(** [seginit] on the processor whose [struct cpu] is at [c] and whose field [cpu] is at
    [c_cpu]. *)
Definition seginit (c c_cpu : Z) (h : hw) : hw :=
  let g := gdt h in
  let g := <[Z.to_nat SEG_KCODE := SEG (Z.lor STA_X STA_R) 0 4294967295 0]> g in
  let g := <[Z.to_nat SEG_KDATA := SEG STA_W 0 4294967295 0]> g in
  let g := <[Z.to_nat Proc.SEG_UCODE := SEG (Z.lor STA_X STA_R) 0 4294967295 Proc.DPL_USER]> g in
  let g := <[Z.to_nat Proc.SEG_UDATA := SEG STA_W 0 4294967295 Proc.DPL_USER]> g in
  let g := <[Z.to_nat SEG_KCPU := SEG STA_W c_cpu 8 0]> g in
  let x := r h in
  mkHw (mkRegs (eax x) (ecx x) (edx x) (ebx x) (esp x) (ebp x) (esi x) (edi x) (eip x) (eflags x) (cs x) (ss x) (ds x) (es x) (fs x) (SEG_KCPU * 8))
    (mem h) g (idt h) (ss0 h) (esp0 h) (tr h) (cr3 h) c 0.

Definition set_s (v : Z) (d : segdesc) : segdesc :=
  mkSeg (lim_15_0 d) (base_15_0 d) (base_23_16 d) (sd_type d) v (sd_dpl d) (sd_p d) (lim_19_16 d) (avl d) (sd_rsv1 d) (db d) (sd_g d) (base_31_24 d).

Definition sizeof_taskstate : Z := 104.

(** [switchuvm]; [ts] is the address of [cpu->ts], [kstack] is [proc->kstack]. *)
Definition switchuvm (ts kstack pgdir : Z) : M hw unit :=
  modify (fun h => mkHw (r h) (mem h) (<[Z.to_nat SEG_TSS := set_s 0 (SEG16 STS_T32A ts (sizeof_taskstate - 1) 0)]> (gdt h)) (idt h)
    (SEG_KDATA * 8) (u32 (kstack + Proc.KSTACKSIZE)) (SEG_TSS * 8) (cr3 h) (gs_cpu h) (gs_proc h)) ;;;
  if pgdir =? 0 then panic "switchuvm: no pgdir"
  else modify (fun h => mkHw (r h) (mem h) (gdt h) (idt h) (ss0 h) (esp0 h) (tr h) (v2p pgdir) (gs_cpu h) (gs_proc h)).

Definition switchkvm (kpgdir : Z) : M hw unit :=
  modify (fun h => mkHw (r h) (mem h) (gdt h) (idt h) (ss0 h) (esp0 h) (tr h) (v2p kpgdir) (gs_cpu h) (gs_proc h)).

(** [kvmalloc]; the result is the new value of [kpgdir]. *)
Definition kvmalloc (kdata : Z) : M (kstate * hw) Z :=
  let* kpgdir := zoom fst (fun k s => (k, snd s)) (Vm.setupkvm kdata) in
  zoom snd (fun h s => (fst s, h)) (switchkvm kpgdir) ;;;
  ret kpgdir.

(** [tvinit]; [vectors] are the entry points vectors.pl generates. *)
Definition tvinit (vectors : Z -> Z) (h : hw) : hw :=
  let g := (fun i => SETGATE false (SEG_KCODE * 8) (vectors (Z.of_nat i)) 0) <$> seq 0 256 in
  let g := <[Z.to_nat Syscall.T_SYSCALL := SETGATE true (SEG_KCODE * 8) (vectors Syscall.T_SYSCALL) Proc.DPL_USER]> g in
  mkHw (r h) (mem h) (gdt h) g (ss0 h) (esp0 h) (tr h) (cr3 h) (gs_cpu h) (gs_proc h).

(** ** [swtch] *)

(** From its first instruction to the one it returns to; [esp] points to the return
    address, [old] and [new] are above it. *)
Definition swtch (h : hw) : hw :=
  let x := r h in
  let old := load32 (mem h) (u32 (esp x + 4)) in
  let new := load32 (mem h) (u32 (esp x + 8)) in
  let h := pushl [ebp x; ebx x; esi x; edi x] h in
  let m := store32 (mem h) old (esp (r h)) in
  let w i := load32 m (u32 (new + 4 * i)) in
  set_hmem m (set_regs (mkRegs old (ecx x) new (w 2) (u32 (new + 20)) (w 3) (w 1) (w 0) (w 4) (eflags x) (cs x) (ss x) (ds x) (es x) (fs x) (gs x)) h).

(** [struct context] at [a]. *)
Definition ctx_at (m : memory) (a : Z) : Proc.context :=
  let w i := load32 m (a + 4 * i) in Proc.mkCtx (w 0) (w 1) (w 2) (w 3) (w 4).

(** ** usys.S *)

(** [SYSCALL(name)] at address [at_] for call number [n]: [movl] and [int]; the trap frame
    holds the address of the [ret] after them. *)
Definition stub_regs (at_ n : Z) (x : regs) : regs :=
  mkRegs n (ecx x) (edx x) (ebx x) (esp x) (ebp x) (esi x) (edi x) (at_ + 7) (eflags x) (cs x) (ss x) (ds x) (es x) (fs x) (gs x).
Definition stub_int (at_ n : Z) (h : hw) : option hw := deliver Syscall.T_SYSCALL true 0 (set_regs (stub_regs at_ n (r h)) h).

(** The [ret] at its end. *)
Definition stub_ret (h : hw) : hw :=
  let x := r h in
  set_regs (mkRegs (eax x) (ecx x) (edx x) (ebx x) (u32 (esp x + 4)) (ebp x) (esi x) (edi x) (load32 (mem h) (esp x)) (eflags x) (cs x) (ss x) (ds x) (es x) (fs x) (gs x)) h.

(** ** Descriptors say what they are given *)

Lemma split_u32 b : is_u32 b -> Z.land b 65535 + 65536 * Z.land (Z.shiftr b 16) 255 + 16777216 * Z.shiftr b 24 = b.
Proof.
  intros Hb. change 65535 with (Z.ones 16). change 255 with (Z.ones 8). rewrite !Z.land_ones, !Z.shiftr_div_pow2 by lia.
  change (2 ^ 16) with 65536. change (2 ^ 8) with 256. change (2 ^ 24) with 16777216. unfold is_u32 in Hb. dlia.
Qed.

Lemma seg_base_SEG type base lim dpl : is_u32 base -> seg_base (SEG type base lim dpl) = base.
Proof. apply split_u32. Qed.

Lemma gate_off_SETGATE istrap sel off d : is_u32 off -> gate_off (SETGATE istrap sel off d) = off.
Proof.
  intros Ho. unfold gate_off, SETGATE. cbn [off_15_0 off_31_16]. change 65535 with (Z.ones 16). rewrite Z.land_ones, Z.shiftr_div_pow2 by lia.
  change (2 ^ 16) with 65536. unfold is_u32 in Ho. dlia.
Qed.

(** ** The stack *)

Lemma pushes_spec vs m sp : Forall is_u32 vs -> 0 <= sp - 4 * Z.of_nat (length vs) -> sp < 4294967296 ->
  snd (pushes vs m sp) = sp - 4 * Z.of_nat (length vs) /\
  (forall i v, vs !! i = Some v -> load32 (fst (pushes vs m sp)) (sp - 4 * (Z.of_nat i + 1)) = v) /\
  (forall a, a < sp - 4 * Z.of_nat (length vs) \/ sp <= a -> fst (pushes vs m sp) a = m a).
Proof.
  revert m sp. induction vs as [|v vs IH]; intros m sp Hvs Hlo Hhi; cbn [pushes length] in *; [split_and!; [simpl; lia|done|done]|].
  apply Forall_cons in Hvs as [Hv Hvs]. rewrite u32_small by (unfold is_u32; lia).
  destruct (IH (store32 m (sp - 4) v) (sp - 4) Hvs) as (H1 & H2 & H3); [lia|lia|]. split_and!; [lia| |].
  - intros [|i] w Hi; simpl in Hi.
    + injection Hi as <-. rewrite <- (load_store_same m (sp - 4) v Hv) at 2. replace (sp - 4 * (Z.of_nat 0 + 1)) with (sp - 4) by lia.
      apply load_ext. intros k Hk. apply H3. lia.
    + rewrite <- (H2 i w Hi). f_equal. lia.
  - intros a Ha. rewrite H3 by lia. apply store_outside. lia.
Qed.

Lemma pushl_app a b h : pushl (a ++ b) h = pushl b (pushl a h).
Proof.
  unfold pushl. assert (E : forall m sp, pushes (a ++ b) m sp = pushes b (fst (pushes a m sp)) (snd (pushes a m sp))).
  { induction a as [|v a IH]; intros m sp; [done|]. cbn [app pushes]. apply IH. }
  rewrite E. done.
Qed.

Lemma pushl_regs vs h : r (pushl vs h) = set_esp (snd (pushes vs (mem h) (esp (r h)))) (r h).
Proof. done. Qed.

(** ** Traps from user mode *)

(** The state in which [switchuvm] leaves the processor. *)
Record ready (vectors : Z -> Z) (h : hw) : Prop := {
  rd_idt : idt h = idt (tvinit vectors h);
  rd_vec : forall n, 0 <= n < 256 -> is_u32 (vectors n);
  rd_kcode : gdt h !! Z.to_nat SEG_KCODE = Some (SEG (Z.lor STA_X STA_R) 0 4294967295 0);
  rd_esp0 : 76 <= esp0 h < 4294967296
}.

Definition is_u16 (x : Z) : Prop := 0 <= x < 65536.

(** Registers of user code. *)
Record user (x : regs) : Prop := {
  us_cs : cs x = Z.lor (Proc.SEG_UCODE * 8) Proc.DPL_USER;
  us_words : Forall is_u32 [eax x; ecx x; edx x; ebx x; esp x; ebp x; esi x; edi x; eip x; eflags x];
  us_segs : Forall is_u16 [ss x; ds x; es x; fs x; gs x]
}.

Lemma tvinit_gate vectors h n : 0 <= n < 256 -> idt (tvinit vectors h) !! Z.to_nat n =
  Some (if n =? Syscall.T_SYSCALL then SETGATE true (SEG_KCODE * 8) (vectors n) Proc.DPL_USER else SETGATE false (SEG_KCODE * 8) (vectors n) 0).
Proof.
  intros Hn. unfold tvinit. cbn [idt]. destruct (Z.eqb_spec n Syscall.T_SYSCALL) as [->|Hne].
  - rewrite list_lookup_insert_eq; [done|]. rewrite length_fmap, length_seq. unfold Syscall.T_SYSCALL. lia.
  - rewrite list_lookup_insert_ne by (unfold Syscall.T_SYSCALL in *; lia). rewrite list_lookup_fmap, lookup_seq_lt by lia. simpl. by rewrite Z2Nat.id by lia.
Qed.

(** The words of a trap frame from the top down. *)
Definition frame_words (x : regs) (n err top : Z) : list Z :=
  [ss x; esp x; eflags x; cs x; eip x; err; n; ds x; es x; fs x; gs x;
   eax x; ecx x; edx x; ebx x; top - 44; ebp x; esi x; edi x].

Definition regs_of (t : Proc.trapframe) : regs :=
  mkRegs (Proc.tf_eax t) (Proc.tf_ecx t) (Proc.tf_edx t) (Proc.tf_ebx t) (Proc.tf_esp t) (Proc.tf_ebp t) (Proc.tf_esi t) (Proc.tf_edi t)
    (Proc.tf_eip t) (Proc.tf_eflags t) (Proc.tf_cs t) (Proc.tf_ss t) (Proc.tf_ds t) (Proc.tf_es t) (Proc.tf_fs t) (Proc.tf_gs t).

(** The trap frame of user registers [x]. *)
Definition frame_of (x : regs) (n err top : Z) : Proc.trapframe :=
  Proc.mkTf (edi x) (esi x) (ebp x) (top - 44) (ebx x) (edx x) (ecx x) (eax x) (gs x) (fs x) (es x) (ds x) n err (eip x) (cs x) (eflags x) (esp x) (ss x).

Lemma frame_words_u32 x n err top : user x -> 0 <= n < 256 -> is_u32 err -> 76 <= top < 4294967296 -> Forall is_u32 (frame_words x n err top).
Proof.
  intros [Hcs Hw Hs] Hn He Ht. assert (Hc : is_u32 (cs x)) by (rewrite Hcs; by vm_compute).
  assert (H16 : Forall is_u32 [ss x; ds x; es x; fs x; gs x]) by (eapply Forall_impl; [exact Hs|]; unfold is_u16, is_u32; lia).
  assert (is_u32 n /\ is_u32 (top - 44)) by (unfold is_u32; lia). unfold frame_words. decompose_Forall; tauto.
Qed.

(** [eflags] in the handler: only the system call gate leaves interrupts on. *)
Definition trap_eflags (n fl : Z) : Z :=
  let fl := clear_flag (clear_flag (clear_flag (clear_flag fl FL_TF) FL_NT) FL_RF) FL_VM in
  if n =? Syscall.T_SYSCALL then fl else clear_flag fl Proc.FL_IF.

(** The processor on the kernel stack, before it pushes anything. *)
Definition on_kstack (vectors : Z -> Z) (n : Z) (h : hw) : hw :=
  set_regs (set_flow (SEG_KCODE * 8) (vectors n) (trap_eflags n (eflags (r h))) (ss0 h) (esp0 h) (r h)) h.

Lemma deliver_user vectors h n soft err : ready vectors h -> user (r h) -> 0 <= n < 256 -> (soft = true -> n = Syscall.T_SYSCALL) ->
  deliver n soft err h = Some (pushl ([ss (r h); esp (r h); eflags (r h); cs (r h); eip (r h)] ++ if has_errcode n then [err] else []) (on_kstack vectors n h)).
Proof.
  intros [Ri Rv Rk Re] U Hn Hsoft. unfold deliver. rewrite Ri, tvinit_gate by done.
  assert (Hcpl : cpl (r h) = 3) by (unfold cpl; by rewrite (us_cs _ U)). rewrite Hcpl.
  assert (Hcode : (if negb soft && has_errcode n then [err] else []) = if has_errcode n then [err] else []).
  { destruct soft; [|done]. by rewrite (Hsoft eq_refl). }
  rewrite Hcode. unfold on_kstack, trap_eflags. destruct (Z.eqb_spec n Syscall.T_SYSCALL) as [->|Hne].
  - cbn [g_p g_dpl g_cs SETGATE]. change ((1 =? 0) || (soft && (Proc.DPL_USER <? 3))) with (false || (soft && false)). rewrite andb_false_r. cbn [orb].
    change (Z.to_nat (SEG_KCODE * 8 / 8)) with (Z.to_nat SEG_KCODE). rewrite Rk. rewrite gate_off_SETGATE by (by apply Rv). done.
  - cbn [g_p g_dpl g_cs SETGATE]. destruct soft; [by destruct Hne; apply Hsoft|]. cbn [andb orb Z.eqb].
    change (Z.to_nat (SEG_KCODE * 8 / 8)) with (Z.to_nat SEG_KCODE). rewrite Rk. rewrite gate_off_SETGATE by (by apply Rv). done.
Qed.

(** A trap through an entry point pushes exactly the words of the frame. *)
Lemma enter_words vectors h n soft err h1 : ready vectors h -> user (r h) -> 0 <= n < 256 -> (soft = true -> n = Syscall.T_SYSCALL) -> is_u32 err ->
  deliver n soft err h = Some h1 -> let p := pushl (frame_words (r h) n (if has_errcode n then err else 0) (esp0 h)) (on_kstack vectors n h) in
  alltraps (vector n h1) = set_regs (set_segs (SEG_KDATA * 8) (SEG_KCPU * 8) (r p)) p.
Proof.
  intros R U Hn Hsoft He Hd. rewrite (deliver_user vectors) in Hd by done. apply (inj Some) in Hd. rewrite <- Hd. clear Hd. set (e := if has_errcode n then err else 0).
  set (h0 := on_kstack vectors n h). set (x := r h).
  assert (E7 : vector n (pushl ([ss x; esp x; eflags x; cs x; eip x] ++ if has_errcode n then [err] else []) h0) = pushl [ss x; esp x; eflags x; cs x; eip x; e; n] h0).
  { unfold vector, e. rewrite <- pushl_app. f_equal. by destruct (has_errcode n). }
  rewrite E7. unfold alltraps. cbv zeta.
  assert (E11 : pushl [ds x; es x; fs x; gs x] (pushl [ss x; esp x; eflags x; cs x; eip x; e; n] h0) = pushl (take 11 (frame_words x n e (esp0 h))) h0) by (by rewrite <- pushl_app).
  set (h7 := pushl [ss x; esp x; eflags x; cs x; eip x; e; n] h0) in *.
  change (pushl [ds (r h7); es (r h7); fs (r h7); gs (r h7)] h7) with (pushl [ds x; es x; fs x; gs x] h7). rewrite E11.
  set (h11 := pushl (take 11 (frame_words x n e (esp0 h))) h0).
  assert (Esp : esp (r h11) = esp0 h - 44).
  { unfold h11. rewrite pushl_regs. cbn [esp set_esp].
    assert (is_u32 e) by (unfold e; by destruct (has_errcode n)). pose proof (frame_words_u32 x n e (esp0 h) U Hn ltac:(done) (rd_esp0 _ _ R)) as Hw.
    pose proof (rd_esp0 _ _ R) as Ht. change (esp (r h0)) with (esp0 h).
    destruct (pushes_spec (take 11 (frame_words x n e (esp0 h))) (mem h0) (esp0 h)) as (-> & _); [by apply Forall_take|cbn; lia|lia|]. cbn. lia. }
  rewrite Esp. change (pushl [eax (r h11); ecx (r h11); edx (r h11); ebx (r h11); esp0 h - 44; ebp (r h11); esi (r h11); edi (r h11)] h11)
    with (pushl (drop 11 (frame_words x n e (esp0 h))) h11). unfold h11. rewrite <- pushl_app, take_drop. done.
Qed.

Lemma eflag_clear a b x : Z.land (Z.lnot a) b = b -> has_flag (clear_flag x a) b = has_flag x b.
Proof. intros H. unfold has_flag, clear_flag. by rewrite <- Z.land_assoc, H. Qed.

(** The frame in memory. *)
Lemma frame_in_memory m top x n err : user x -> 0 <= n < 256 -> is_u32 err -> 76 <= top < 4294967296 ->
  tf_at (fst (pushes (frame_words x n err top) m top)) (top - 76) = frame_of x n err top.
Proof.
  intros U Hn He Ht. destruct (pushes_spec (frame_words x n err top) m top) as (_ & Hw & _); [by apply frame_words_u32|cbn; lia|lia|].
  set (m' := fst _) in *. assert (Hat : forall k v, 0 <= k < 19 -> frame_words x n err top !! Z.to_nat (18 - k) = Some v -> load32 m' (top - 76 + 4 * k) = v).
  { intros k v Hk Hv. rewrite <- (Hw _ _ Hv). f_equal. lia. }
  assert (H16 : forall k v, 0 <= k < 19 -> is_u16 v -> frame_words x n err top !! Z.to_nat (18 - k) = Some v -> u16 (load32 m' (top - 76 + 4 * k)) = v).
  { intros k v Hk Hv Hl. rewrite (Hat k v Hk Hl). unfold u16. apply Z.mod_small. apply Hv. }
  destruct U as [Hcs _ Hs]. assert (Hc : is_u16 (cs x)) by (rewrite Hcs; by vm_compute). decompose_Forall.
  unfold tf_at, frame_of. f_equal; (apply Hat || apply H16); done.
Qed.

(** [trapret] with [esp] at a trap frame of user code. *)
Lemma trapret_user h a : esp (r h) = a -> 0 <= a -> a + 76 <= 4294967296 -> cpl (r h) = 0 -> Z.land (Proc.tf_cs (tf_at (mem h) a)) 3 = 3 ->
  r (trapret h) = regs_of (tf_at (mem h) a).
Proof.
  intros Ea Ha Hm Hcpl Hcs. unfold trapret. rewrite Ea. cbv zeta.
  assert (Hu : forall i, 0 <= i < 19 -> u32 (a + 4 * i) = a + 4 * i) by (intros i Hi; apply u32_small; unfold is_u32; lia).
  rewrite !Hu by lia. rewrite (u32_small (a + 56)) by (unfold is_u32; lia). unfold iret.
  assert (Hu2 : forall i, 0 <= i < 5 -> u32 (a + 56 + 4 * i) = a + 4 * (14 + i)) by (intros i Hi; rewrite u32_small; unfold is_u32; lia).
  cbn [esp set_regs r mem]. rewrite !Hu2 by lia. unfold cpl in *. cbn [cs]. rewrite Hcpl.
  change (Z.land (u16 (load32 (mem h) (a + 4 * (14 + 1)))) 3 = 3) in Hcs. rewrite Hcs. done.
Qed.

(** The boot sequence and [switchuvm] make the processor ready. *)
Lemma switchuvm_ready vectors c c_cpu ts kstack pgdir h0 : length (gdt h0) = NSEGS -> (forall n, 0 <= n < 256 -> is_u32 (vectors n)) ->
  0 <= kstack < 4294963200 -> pgdir <> 0 ->
  exists h, switchuvm ts kstack pgdir (tvinit vectors (seginit c c_cpu h0)) = Ret tt h /\ ready vectors h /\
    cr3 h = v2p pgdir /\ esp0 h = kstack + Proc.KSTACKSIZE.
Proof.
  intros Hl Hv Hk Hp. unfold switchuvm, bind, modify. rewrite (proj2 (Z.eqb_neq pgdir 0)) by done. eexists. split; [reflexivity|].
  assert (E : u32 (kstack + Proc.KSTACKSIZE) = kstack + Proc.KSTACKSIZE) by (apply u32_small; unfold is_u32, Proc.KSTACKSIZE; lia).
  split_and!; [|done|exact E]. split; [done|done| |cbn [esp0]; rewrite E; unfold Proc.KSTACKSIZE; lia].
  cbn [gdt tvinit seginit]. rewrite list_lookup_insert_ne by done. do 4 (rewrite list_lookup_insert_ne by done).
  rewrite list_lookup_insert_eq; [done|]. rewrite Hl. vm_compute. lia.
Qed.

(** C12: a trap from user mode and the return from it are inverse: for every exception, device interrupt and system call, the processor, the entry point and alltraps leave on the process's kernel stack, directly below its top and writing nothing else, exactly the struct trapframe the C code declares, with all user registers, the trap number and the error code; the handler runs with interrupts off except for system calls; and trapret loads every register, segments and stack included, from the trap frame it finds, whatever the handler did to the other registers. *)
Theorem trap_roundtrip vectors h n soft err : ready vectors h -> user (r h) -> 0 <= n < 256 -> (soft = true -> n = Syscall.T_SYSCALL) -> is_u32 err ->
  exists h1, deliver n soft err h = Some h1 /\ eip (r h1) = vectors n /\
  let h2 := alltraps (vector n h1) in let a := esp0 h - Proc.sizeof_trapframe in
  esp (r h2) = a /\ cpl (r h2) = 0 /\ has_flag (eflags (r h2)) Proc.FL_IF = (n =? Syscall.T_SYSCALL) && has_flag (eflags (r h)) Proc.FL_IF /\
  tf_at (mem h2) a = frame_of (r h) n (if has_errcode n then err else 0) (esp0 h) /\
  (forall b, b < a \/ esp0 h <= b -> mem h2 b = mem h b) /\
  forall h3, esp (r h3) = a -> cpl (r h3) = 0 -> Z.land (Proc.tf_cs (tf_at (mem h3) a)) 3 = 3 -> r (trapret h3) = regs_of (tf_at (mem h3) a).
Proof.
  intros R U Hn Hsoft He. eexists. split; [by apply (deliver_user vectors)|]. split; [done|]. cbv zeta.
  rewrite (enter_words vectors h n soft err) by (done || by apply deliver_user). cbv zeta. pose proof (rd_esp0 _ _ R) as Ht.
  set (e := if has_errcode n then err else 0). assert (Hue : is_u32 e) by (unfold e; by destruct (has_errcode n)).
  pose proof (frame_words_u32 (r h) n e (esp0 h) U Hn Hue Ht) as Hw.
  destruct (pushes_spec (frame_words (r h) n e (esp0 h)) (mem h) (esp0 h) Hw ltac:(cbn; lia) ltac:(lia)) as (Hsp & _ & Hm).
  change (Z.of_nat (length (frame_words (r h) n e (esp0 h)))) with 19 in *. unfold Proc.sizeof_trapframe.
  split_and!; [exact Hsp|done| |by apply frame_in_memory|intros b Hb; apply Hm; lia|intros h3 H1 H2 H3; apply trapret_user; [done|lia|lia|done|done]].
  cbn [set_regs set_segs r eflags pushl set_hmem set_esp on_kstack set_flow]. unfold trap_eflags. destruct (Z.eqb_spec n Syscall.T_SYSCALL) as [->|].
  - cbn [andb]. by rewrite !eflag_clear.
  - unfold has_flag, clear_flag at 1. rewrite <- Z.land_assoc. change (Z.land (Z.lnot Proc.FL_IF) Proc.FL_IF) with 0. by rewrite Z.land_0_r.
Qed.

Lemma syscall_frame vectors h : ready vectors h -> user (r h) ->
  exists h1, deliver Syscall.T_SYSCALL true 0 h = Some h1 /\ eip (r h1) = vectors Syscall.T_SYSCALL /\
  tf_at (mem (alltraps (vector Syscall.T_SYSCALL h1))) (esp0 h - 76) = frame_of (r h) Syscall.T_SYSCALL 0 (esp0 h).
Proof.
  intros R U. eexists. split; [by apply (deliver_user vectors)|]. split; [done|].
  rewrite (enter_words vectors h Syscall.T_SYSCALL true 0) by (done || by apply deliver_user). cbv zeta. by apply frame_in_memory; [..|apply (rd_esp0 _ _ R)].
Qed.

Lemma mem_trapret h : mem (trapret h) = mem h.
Proof. unfold trapret, iret. cbv zeta. by destruct (_ <? _). Qed.

(** A call of a stub: the kernel finds the number in [eax] of the trap frame, and when it
    leaves with [eax] of the frame set to [v] and the rest of the frame and the user stack
    unchanged, the caller goes on after the call with the result [v] in [eax] and every
    other register as it was. *)
Lemma stub_calls vectors h at_ n v ra : ready vectors h -> user (r h) -> is_u32 n -> is_u32 (at_ + 7) -> esp (r h) < 4294967292 ->
  exists h1, stub_int at_ n h = Some h1 /\ eip (r h1) = vectors Syscall.T_SYSCALL /\
  let h2 := alltraps (vector Syscall.T_SYSCALL h1) in let a := esp0 h - Proc.sizeof_trapframe in
  Proc.tf_eax (tf_at (mem h2) a) = n /\ Proc.tf_trapno (tf_at (mem h2) a) = Syscall.T_SYSCALL /\
  forall h3, esp (r h3) = a -> cpl (r h3) = 0 -> tf_at (mem h3) a = Proc.set_eax v (tf_at (mem h2) a) -> load32 (mem h3) (esp (r h)) = ra ->
    let x := r h in r (stub_ret (trapret h3)) =
      mkRegs v (ecx x) (edx x) (ebx x) (esp x + 4) (ebp x) (esi x) (edi x) ra (eflags x) (cs x) (ss x) (ds x) (es x) (fs x) (gs x).
Proof.
  intros R U Hn Hat Hsp. destruct (syscall_frame vectors (set_regs (stub_regs at_ n (r h)) h)) as (h1 & Hd & Hv & Hf).
  - destruct R. by split.
  - destruct U as [U1 U2 U3]. split; [done| |done]. cbn [r set_regs stub_regs eax ecx edx ebx esp ebp esi edi eip eflags]. decompose_Forall; done.
  - exists h1. split; [exact Hd|]. split; [exact Hv|]. cbv zeta. unfold Proc.sizeof_trapframe. change (esp0 (set_regs (stub_regs at_ n (r h)) h)) with (esp0 h) in Hf.
    rewrite Hf. split_and!; [done|done|]. clear Hd Hv Hf h1. intros h3 He Hc Htf Hst. pose proof (rd_esp0 _ _ R) as Ht.
    assert (E : r (trapret h3) = regs_of (tf_at (mem h3) (esp0 h - 76))).
    { apply trapret_user; [done|lia|lia|done|]. rewrite Htf. change (Z.land (cs (r h)) 3 = 3). by rewrite (us_cs _ U). }
    unfold stub_ret. rewrite mem_trapret, E, Htf.
    unfold regs_of, frame_of, Proc.set_eax, stub_regs. cbn [r set_regs eax ecx edx ebx esp ebp esi edi eip eflags cs ss ds es fs gs Proc.tf_eax Proc.tf_ecx Proc.tf_edx Proc.tf_ebx Proc.tf_esp Proc.tf_ebp Proc.tf_esi Proc.tf_edi Proc.tf_eip Proc.tf_eflags Proc.tf_cs Proc.tf_ss Proc.tf_ds Proc.tf_es Proc.tf_fs Proc.tf_gs].
    rewrite Hst, u32_small; [done|]. assert (is_u32 (esp (r h))) by (destruct U as [_ U2 _]; by decompose_Forall). unfold is_u32 in *. lia.
Qed.

(** User code can enter the kernel with an [int] instruction only through the system call gate: any other number is refused by the processor with a protection fault, and [int] of the system call number starts its entry point in kernel mode on the kernel stack of the process. *)
Theorem user_int_gate vectors h n : ready vectors h -> user (r h) -> 0 <= n < 256 ->
  if n =? Syscall.T_SYSCALL
  then exists h1, deliver n true 0 h = Some h1 /\ eip (r h1) = vectors n /\ cpl (r h1) = 0 /\ ss (r h1) = ss0 h
  else deliver n true 0 h = None.
Proof.
  intros R U Hn. destruct (Z.eqb_spec n Syscall.T_SYSCALL) as [->|Hne].
  - eexists. split; [by apply (deliver_user vectors)|]. done.
  - unfold deliver. rewrite (rd_idt _ _ R), tvinit_gate by done. rewrite (proj2 (Z.eqb_neq n Syscall.T_SYSCALL)) by done. cbn [g_p g_dpl SETGATE].
    unfold cpl. rewrite (us_cs _ U). done.
Qed.

(** ** Context switches *)

(** The registers [swtch] preserves for the thread that calls it. *)
Definition kept (x y : regs) : Prop := ebp y = ebp x /\ ebx y = ebx x /\ esi y = esi x /\ edi y = edi x.

Lemma swtch_saves h : let x := r h in let old := load32 (mem h) (u32 (esp x + 4)) in
  16 <= esp x < 4294967296 -> Forall is_u32 [ebp x; ebx x; esi x; edi x] -> (old + 4 <= esp x - 16 \/ esp x + 4 <= old) ->
  let h' := swtch h in load32 (mem h') old = esp x - 16 /\
    ctx_at (mem h') (esp x - 16) = Proc.mkCtx (edi x) (esi x) (ebx x) (ebp x) (load32 (mem h) (esp x)).
Proof.
  intros x old Hsp Hw Hold h'. destruct (pushes_spec [ebp x; ebx x; esi x; edi x] (mem h) (esp x) Hw ltac:(cbn; lia) ltac:(lia)) as (Es & Hl & Hm).
  change (Z.of_nat (length [ebp x; ebx x; esi x; edi x])) with 4 in *. set (m := fst (pushes [ebp x; ebx x; esi x; edi x] (mem h) (esp x))) in *.
  assert (Emem : mem h' = store32 m old (esp x - 16)).
  { unfold h', swtch. cbn [mem set_hmem set_regs pushl r esp set_esp]. fold x old. rewrite Es. by replace (esp x - 4 * 4) with (esp x - 16) by lia. }
  rewrite Emem. split; [apply load_store_same; unfold is_u32; lia|]. unfold ctx_at. rewrite !load_store_other by lia.
  f_equal.
  - rewrite <- (Hl 3%nat (edi x) eq_refl). f_equal. lia.
  - rewrite <- (Hl 2%nat (esi x) eq_refl). f_equal. lia.
  - rewrite <- (Hl 1%nat (ebx x) eq_refl). f_equal. lia.
  - rewrite <- (Hl 0%nat (ebp x) eq_refl). f_equal. lia.
  - replace (esp x - 16 + 4 * 4) with (esp x) by lia. apply load_ext. intros k Hk. apply Hm. lia.
Qed.

(** [swtch] to the context at [new] loads it. *)
Lemma swtch_loads h new : load32 (mem h) (u32 (esp (r h) + 8)) = new -> 0 <= new -> new + 20 < 4294967296 ->
  let x' := r (swtch h) in let c := ctx_at (mem (swtch h)) new in
  edi x' = Proc.c_edi c /\ esi x' = Proc.c_esi c /\ ebx x' = Proc.c_ebx c /\ ebp x' = Proc.c_ebp c /\ eip x' = Proc.c_eip c /\ esp x' = new + 20.
Proof.
  intros Hn H0 Hm. unfold swtch. cbv zeta. rewrite Hn. unfold ctx_at. cbn [r mem set_hmem set_regs edi esi ebx ebp eip esp].
  assert (Hu : forall i, 0 <= i < 5 -> u32 (new + 4 * i) = new + 4 * i) by (intros i Hi; apply u32_small; unfold is_u32; lia).
  rewrite !Hu by lia. by rewrite (u32_small (new + 20)) by (unfold is_u32; lia).
Qed.

(** C30: a kernel thread that calls swtch continues right after the call with the callee-saved registers and the stack pointer it had, whenever some thread later switches to the context pointer that swtch stored and the five words of the context are as it left them. *)
Theorem swtch_resumes h g : let x := r h in let old := load32 (mem h) (u32 (esp x + 4)) in
  16 <= esp x < 4294967200 -> Forall is_u32 [ebp x; ebx x; esi x; edi x] -> (old + 4 <= esp x - 16 \/ esp x + 4 <= old) ->
  load32 (mem (swtch h)) old = load32 (mem g) (u32 (esp (r g) + 8)) ->
  ctx_at (mem (swtch g)) (esp x - 16) = ctx_at (mem (swtch h)) (esp x - 16) ->
  let y := r (swtch g) in kept x y /\ eip y = load32 (mem h) (esp x) /\ esp y = esp x + 4.
Proof.
  intros x old Hsp Hw Hold Hsw Hctx y. destruct (swtch_saves h) as [Hs Hc]; [change (16 <= esp x < 4294967296); lia|exact Hw|exact Hold|]. fold x in Hs, Hc. fold old in Hs.
  rewrite Hs in Hsw. rewrite Hc in Hctx. destruct (swtch_loads g (esp x - 16) (eq_sym Hsw)) as (H1 & H2 & H3 & H4 & H5 & H6); [lia|lia|].
  rewrite Hctx in H1, H2, H3, H4, H5. fold y in H1, H2, H3, H4, H5, H6. cbn in H1, H2, H3, H4, H5. unfold kept. split_and!; try done. rewrite H6. lia.
Qed.

(** The stack of [allocproc] and [swtch] to it: the process runs [forkret], and the
    return from it is [trapret] with [esp] at the trap frame. *)
Lemma first_run h new forkret trapret' : load32 (mem h) (u32 (esp (r h) + 8)) = new -> 0 <= new -> new + 100 <= 4294967296 ->
  ctx_at (mem (swtch h)) new = Proc.mkCtx 0 0 0 0 forkret -> load32 (mem (swtch h)) (new + 20) = trapret' ->
  let x := r (swtch h) in eip x = forkret /\ load32 (mem (swtch h)) (esp x) = trapret' /\
  forall h', esp (r h') = esp x + 4 -> cpl (r h') = 0 -> Z.land (Proc.tf_cs (tf_at (mem h') (new + 24))) 3 = 3 ->
    r (trapret h') = regs_of (tf_at (mem h') (new + 24)).
Proof.
  intros Hn H0 Hm Hc Ht x. destruct (swtch_loads h new Hn H0 ltac:(lia)) as (_ & _ & _ & _ & He & Hs). fold x in He, Hs. rewrite Hc in He.
  split_and!; [exact He|by rewrite Hs|]. intros h' Hs' Hcpl Hcs. apply trapret_user; [lia|lia|lia|done|done].
Qed.

(** ** A system call *)

Definition ex_vec (n : Z) : Z := 1048576 + n.
Definition ex_boot : hw := mkHw (mkRegs 11 1 2 3 8192 5 6 7 100 514 35 43 43 43 0 0) (fun _ => 0) (replicate NSEGS (SEG 0 0 0 0)) [] 0 0 0 0 0 0.
Definition ex_hw : hw := result (switchuvm 500 2147483648 2147487744) (tvinit ex_vec (seginit 400 480 ex_boot)).

Lemma ex_ready : ready ex_vec ex_hw.
Proof.
  split; [done| |done|done]. intros n Hn. unfold is_u32, ex_vec. lia.
Qed.

Lemma ex_user : user (r ex_hw).
Proof. split; [done| |]; repeat (apply Forall_cons; split; [by vm_compute|]); by apply Forall_nil. Qed.

Lemma trap_roundtrip_witness : exists h1, deliver Syscall.T_SYSCALL true 0 ex_hw = Some h1 /\
  Proc.tf_eax (tf_at (mem (alltraps (vector Syscall.T_SYSCALL h1))) (esp (r (alltraps (vector Syscall.T_SYSCALL h1))))) = 11.
Proof.
  destruct (trap_roundtrip ex_vec ex_hw Syscall.T_SYSCALL true 0 ex_ready ex_user) as (h1 & Hd & _ & Hs & _ & _ & Hf & _); [by vm_compute|done|by vm_compute|].
  exists h1. split; [exact Hd|]. rewrite Hs, Hf. done.
Defined.

Lemma user_int_gate_witness : deliver 14 true 0 ex_hw = None.
Proof. apply (user_int_gate ex_vec ex_hw 14 ex_ready ex_user). by vm_compute. Defined.

(** Two threads: the one that called [swtch] at 4096 is resumed from the stack at 8192. *)
Definition ex_old : hw := set_hmem (store32 (store32 (store32 (fun _ => 0) 4096 777) 4100 100) 4104 5000)
  (set_regs (mkRegs 0 0 0 3 4096 5 6 7 9 2 8 16 16 16 24 24) ex_boot).
Definition ex_new : hw := set_hmem (store32 (store32 (mem (swtch ex_old)) 8196 200) 8200 4080) (set_regs (mkRegs 0 0 0 0 8192 0 0 0 9 2 8 16 16 16 24 24) ex_boot).

Lemma swtch_resumes_witness : ebx (r (swtch ex_new)) = 3 /\ eip (r (swtch ex_new)) = 777 /\ esp (r (swtch ex_new)) = 4100.
Proof.
  destruct (swtch_resumes ex_old ex_new) as ((_ & H & _) & H1 & H2); [by vm_compute| |left; by vm_compute|by vm_compute|by vm_compute|].
  { repeat (apply Forall_cons; split; [by vm_compute|]). by apply Forall_nil. }
  split_and!; [exact H|exact H1|exact H2].
Defined.

End Machine.
