(* ===== verification/Kernel.v ===== *)
(** * The process table over the page tables, the open files and the inodes

    [Module Kernel] puts the components together: the interface [KernelEnv] that proc.c is
    written against is implemented by the translated kalloc.c, vm.c, file.c, fs.c and the
    register loads of [Machine].  Pointers to open files and inodes are the addresses of
    the entries of [ftable] and [icache].

    [fork_child]: with memory and a free slot, [fork] makes a process that differs from its
    parent in its pid and the value [fork] returns only.  [fork_fails]: whatever memory there
    is, [fork] returns, and when it fails no process, file or inode has changed; the pages
    that are lost are counted. *)

From S2P Require Import Prelude CString Blocks Fs Kalloc Vm VmSpace VmUser VmLoad VmFork VmSpec Pipe Log TxLog FsSpec Proc Sysfile Machine.

Module Kernel.
Import Proc Kalloc Vm VmSpace VmUser VmLoad VmFork VmSpec.

(** ** The kernel *)

Record kernel (D : Type) := mkKernel { kn : Sysfile.kern D; kh : Machine.hw }.
Arguments mkKernel {D} _ _.
Arguments kn {D} _.
Arguments kh {D} _.

Definition sizeof_file : Z := 24.
Definition sizeof_inode : Z := 80.

Section Env.
Context {D : Type} {TL : Blocks.TxLayer D} (begin_trans commit_trans : M D unit).
Context (devsw_read : Z -> option (nat -> Z -> M (Fs.fstate D) (Z * list Z))).
Context (kend kdata : Z).
(** The addresses of [ftable.file], [icache.inode] and the task state, and [kpgdir]. *)
Context (files_at inodes_at ts kpgdir : Z).

Definition file_at (f : nat) : Z := files_at + sizeof_file * Z.of_nat f.
Definition file_of (a : Z) : nat := Z.to_nat ((a - files_at) / sizeof_file).
Definition inode_at (ip : nat) : Z := inodes_at + sizeof_inode * Z.of_nat ip.
Definition inode_of (a : Z) : nat := Z.to_nat ((a - inodes_at) / sizeof_inode).

Definition onkern {A} (m : M (Sysfile.kern D) A) : M (kernel D) A := zoom kn (fun k s => mkKernel k (kh s)) m.
Definition onhw {A} (m : M Machine.hw A) : M (kernel D) A := zoom kh (fun h s => mkKernel (kn s) h) m.
Definition onmem {A} (m : M kstate A) : M (kernel D) A := onkern (Sysfile.onmem m).

#[global] Instance kernel_env : KernelEnv (kernel D) := {|
  env_kalloc := onmem kalloc;
  env_kfree := fun a => onmem (kfree kend a);
  env_setupkvm := onmem (setupkvm kdata);
  env_inituvm := fun pd code => onmem (inituvm pd code (Z.of_nat (length code)));
  env_copyuvm := fun pd sz => onmem (copyuvm kend kdata pd sz);
  env_allocuvm := fun pd oldsz newsz => onmem (allocuvm kend pd oldsz newsz);
  env_deallocuvm := fun pd oldsz newsz => onmem (deallocuvm kend pd oldsz newsz);
  env_freevm := fun pd => onmem (freevm kend pd);
  env_filedup := fun a => onkern (let* f := Sysfile.filedup (file_of a) in ret (file_at f));
  env_fileclose := fun a => onkern (Sysfile.fileclose begin_trans commit_trans kend (file_of a));
  env_idup := fun a => onkern (Sysfile.onfs (let* ip := Fs.idup (inode_of a) in ret (inode_at ip)));
  env_iput := fun a => onkern (Sysfile.onfs (Fs.iput (inode_of a)));
  env_namei := fun path => onkern (
    let* c := gets (fun k => Sysfile.t_cwd (Sysfile.cur k)) in
    Sysfile.onfs (let* r := Fs.namei devsw_read c path in ret (match r with Some ip => inode_at ip | None => 0 end)));
  env_switchuvm := fun pd ks => onhw (Machine.switchuvm ts ks pd);
  env_switchkvm := onhw (Machine.switchkvm kpgdir) |}.

(** ** Steps of the routines of proc.c *)

Implicit Types (k : ktable (kernel D)) (ps : list proc).

Definition with_mem (m : kstate) (k : Sysfile.kern D) : Sysfile.kern D :=
  Sysfile.mkKern (Sysfile.k_fs k) (Sysfile.ftable k) (Sysfile.pipes k) m (Sysfile.cur k).

Lemma alter_slot (f : proc -> proc) i ps q : ps !! i = Some q -> alter f i ps = <[i:=f q]> ps.
Proof.
  intros Hq. apply list_eq. intros j. destruct (decide (i = j)) as [<-|Hne].
  - rewrite list_lookup_alter_eq, Hq, list_lookup_insert_eq; [done|by eapply lookup_lt_Some].
  - by rewrite list_lookup_alter_ne, list_lookup_insert_ne.
Qed.

Lemma wp_upd i f q ps n ini (e : kernel D) (Q : unit -> ktable (kernel D) -> Prop) :
  (i < length ps)%nat -> Q tt (mkTable (<[i:=f q]> ps) n ini e) -> wp (upd i f) Q (mkTable (<[i:=q]> ps) n ini e).
Proof.
  intros Hi HQ. apply wp_modify. unfold with_procs. cbn [procs nextpid initproc env].
  rewrite (alter_slot f i (<[i:=q]> ps) q) by (by rewrite list_lookup_insert_eq). by rewrite list_insert_insert_eq.
Qed.

Lemma wp_getproc i p k (Q : proc -> ktable (kernel D) -> Prop) : procs k !! i = Some p -> Q p k -> wp (getproc i) Q k.
Proof. intros Hp HQ. unfold wp, getproc. by rewrite Hp. Qed.

Lemma wp_kern {A} (m : M (Sysfile.kern D) A) ps n ini x h (Q : A -> ktable (kernel D) -> Prop) :
  wp m (fun a x' => Q a (mkTable ps n ini (mkKernel x' h))) x -> wp (call (onkern m)) Q (mkTable ps n ini (mkKernel x h)).
Proof. intros H. apply wp_zoom. cbn [env]. apply wp_zoom. cbn [kn]. exact H. Qed.

Lemma wp_mem {A} (m : M kstate A) ps n ini x h (Q : A -> ktable (kernel D) -> Prop) :
  wp m (fun a s => Q a (mkTable ps n ini (mkKernel (with_mem s x) h))) (Sysfile.k_mem x) ->
  wp (call (onmem m)) Q (mkTable ps n ini (mkKernel x h)).
Proof. intros H. apply wp_kern, wp_zoom. exact H. Qed.

(** ** The loop of [fork] over the open files *)

(** The file table after [filedup] of each of [fs]. *)
Definition dup_ref (ft : list Sysfile.file) (a : Z) : list Sysfile.file :=
  if a =? 0 then ft else alter (fun x => Sysfile.set_fref (Sysfile.f_ref x + 1) x) (file_of a) ft.

Definition with_files (ft : list Sysfile.file) (k : Sysfile.kern D) : Sysfile.kern D :=
  Sysfile.mkKern (Sysfile.k_fs k) ft (Sysfile.pipes k) (Sysfile.k_mem k) (Sysfile.cur k).

(** A pointer to an open file in use, or null. *)
Definition open_file (ft : list Sysfile.file) (a : Z) : Prop :=
  a = 0 \/ exists f x, a = file_at f /\ ft !! f = Some x /\ 1 <= Sysfile.f_ref x.

Lemma file_of_at f : file_of (file_at f) = f.
Proof. unfold file_of, file_at, sizeof_file. rewrite Z.add_simpl_l, Z.mul_comm, Z.div_mul by lia. apply Nat2Z.id. Qed.

Lemma inode_of_at f : inode_of (inode_at f) = f.
Proof. unfold inode_of, inode_at, sizeof_inode. rewrite Z.add_simpl_l, Z.mul_comm, Z.div_mul by lia. apply Nat2Z.id. Qed.

Lemma dup_open ft a b : open_file ft a -> open_file (dup_ref ft b) a.
Proof.
  intros [->|(f & x & -> & Hx & Hr)]; [by left|]. right. exists f. unfold dup_ref. destruct (b =? 0); [by exists x|].
  destruct (decide (file_of b = f)) as [<-|Hne].
  - rewrite list_lookup_alter_eq, Hx. eexists. split_and!; [done|done|]. simpl. lia.
  - rewrite list_lookup_alter_ne by done. by exists x.
Qed.

Context (Hfiles : 0 < files_at).

Lemma dup_files_wp np ps n ini h fs : forall pre c x (Q : unit -> ktable (kernel D) -> Prop), (np < length ps)%nat ->
  ofile c = pre ++ replicate (length fs) 0 -> Forall (open_file (Sysfile.ftable x)) fs ->
  Q tt (mkTable (<[np:=set_ofile (pre ++ fs) c]> ps) n ini (mkKernel (with_files (foldl dup_ref (Sysfile.ftable x) fs) x) h)) ->
  wp (dup_files np (length pre) fs) Q (mkTable (<[np:=c]> ps) n ini (mkKernel x h)).
Proof using Hfiles.
  induction fs as [|a fs IH]; intros pre c x Q Hnp Ho Hf HQ; cbn [dup_files].
  - apply wp_ret. assert (set_ofile (pre ++ []) c = c) as E by (destruct c; cbn in *; by rewrite Ho). rewrite E in HQ. by destruct x.
  - apply Forall_cons in Hf as [Ha Hf]. cbn [length replicate] in Ho.
    assert (Hstep : forall c' x', ofile c' = (pre ++ [a]) ++ replicate (length fs) 0 -> (forall o, set_ofile o c' = set_ofile o c) ->
      x' = with_files (dup_ref (Sysfile.ftable x) a) x -> wp (dup_files np (S (length pre)) fs) Q (mkTable (<[np:=c']> ps) n ini (mkKernel x' h))).
    { intros c' x' Ho' Hc' ->. replace (S (length pre)) with (length (pre ++ [a])) by (rewrite length_app; simpl; lia).
      apply IH; [done|done|eapply Forall_impl; [exact Hf|intros b; apply dup_open]|]. rewrite Hc', <- app_assoc. exact HQ. }
    destruct (Z.eqb_spec a 0) as [->|Hnz].
    + apply wp_bind, wp_ret, Hstep; [by rewrite <- app_assoc|done|]. by destruct x.
    + apply wp_bind, wp_bind, wp_kern, wp_bind. destruct Ha as [->|(f & y & -> & Hy & Hr)]; [done|].
      unfold Sysfile.filedup. apply wp_bind, wp_gets. rewrite file_of_at, Hy. change (default Sysfile.zero_file (Some y)) with y. rewrite (proj2 (Z.ltb_ge (Sysfile.f_ref y) 1)) by lia.
      apply wp_bind, wp_modify, wp_ret, wp_ret, wp_upd; [done|]. apply Hstep; [|done|].
      * cbn [ofile set_ofile]. rewrite Ho, insert_app_r_alt, Nat.sub_diag by lia. simpl. by rewrite <- app_assoc.
      * unfold with_files, dup_ref. rewrite (proj2 (Z.eqb_neq _ _)) by done. rewrite file_of_at. f_equal. apply list_eq. intros j.
        destruct (decide (f = j)) as [<-|Hne]; [by rewrite !list_lookup_alter_eq, Hy|by rewrite !list_lookup_alter_ne].
Qed.

(** The descriptors of [fs] that name [f]. *)
Definition uses (f : nat) (fs : list Z) : nat := length (filter (fun a => a = file_at f) fs).

Lemma file_at_nonnull f : file_at f <> 0.
Proof using Hfiles. unfold file_at, sizeof_file. lia. Qed.

Lemma dup_refs_lookup f fs : forall ft x, Forall (open_file ft) fs -> ft !! f = Some x ->
  foldl dup_ref ft fs !! f = Some (Sysfile.set_fref (Sysfile.f_ref x + Z.of_nat (uses f fs)) x).
Proof using Hfiles.
  induction fs as [|a fs IH]; intros ft x Hf Hx; cbn [foldl].
  - rewrite Hx. f_equal. destruct x. unfold Sysfile.set_fref. cbn. by rewrite Z.add_0_r.
  - apply Forall_cons in Hf as [Ha Hf]. assert (Hf' : Forall (open_file (dup_ref ft a)) fs) by (eapply Forall_impl; [exact Hf|intros b; apply dup_open]).
    unfold uses. rewrite filter_cons. destruct (decide (a = file_at f)) as [->|Hne].
    + assert (Hx' : dup_ref ft (file_at f) !! f = Some (Sysfile.set_fref (Sysfile.f_ref x + 1) x)).
      { unfold dup_ref. rewrite (proj2 (Z.eqb_neq _ _)) by apply file_at_nonnull. by rewrite file_of_at, list_lookup_alter_eq, Hx. }
      rewrite (IH _ _ Hf' Hx').
      unfold Sysfile.set_fref. cbn [length Sysfile.f_type Sysfile.f_ref Sysfile.f_readable Sysfile.f_writable Sysfile.f_pipe Sysfile.f_ip Sysfile.f_off].
      fold (uses f fs). do 2 f_equal. lia.
    + apply IH; [done|]. unfold dup_ref. destruct (Z.eqb_spec a 0); [done|]. destruct Ha as [->|(g & y & -> & _)]; [done|].
      rewrite file_of_at, list_lookup_alter_ne; [done|]. by intros ->.
Qed.

(** ** [fork] *)

Context (forkret trapret : Z).
Context (Hend : KERNLINK <= kend < KERNBASE + PHYSTOP) (Hdata : KERNLINK < kdata < KERNBASE + PHYSTOP) (Hda : kdata mod PGSIZE = 0).
Notation kmem k := (Sysfile.k_mem (kn (env k))).
Notation kfiles k := (Sysfile.ftable (kn (env k))).
Notation kinodes k := (Fs.icache (Sysfile.k_fs (kn (env k)))).

(** A process that runs [fork]: its space is [sp] and [l] the free list. *)
Record forkable k (self : nat) (p : proc) (sp : space) (l : list Z) : Prop := {
  fk_self : procs k !! self = Some p;
  fk_live : state p <> UNUSED;
  fk_space : ainv kend (kmem k) sp l;
  fk_pgdir : pgdir p = dir sp + KERNBASE;
  fk_sz : 0 <= sz p <= KERNBASE;
  fk_pages : forall q, 0 <= q < npages (sz p) -> present sp q = true;
  fk_files : Forall (open_file (kfiles k)) (ofile p);
  fk_nofile : length (ofile p) = NOFILE;
  fk_cwd : exists ip x, cwd p = inode_at ip /\ kinodes k !! ip = Some x /\ 1 <= Fs.i_ref x;
  fk_free : forall i q, procs k !! i = Some q -> state q = UNUSED -> ofile q = replicate NOFILE 0
}.

(** The kernel after a [fork] that failed.  [lost] are the pages that are neither free nor
    in use; when more than one is lost the kernel had no memory for the page tables of the
    child, and its stack is the only page left. *)
Record fork_failed k (sp : space) (l : list Z) k' : Prop := {
  ff_length : length (procs k') = length (procs k);
  ff_procs : forall i q, procs k !! i = Some q -> exists q', procs k' !! i = Some q' /\
    (q' = q \/ (state q = UNUSED /\ state q' = UNUSED /\ kstack q' = 0 /\ ofile q' = ofile q));
  ff_rest : exists m, env k' = mkKernel (with_mem m (kn (env k))) (kh (env k));
  ff_mem : exists lost l', l ≡ₚ lost ++ l' /\ ainv kend (kmem k') sp l' /\ ((length lost <= 1)%nat \/ length l' = 1%nat) /\
    (forall va, 0 <= va < KERNBASE -> ubyte (mem (kmem k')) sp va = ubyte (mem (kmem k)) sp va) /\
    (forall f, frame kend f -> f ∉ l -> same_page (mem (kmem k)) (mem (kmem k')) f)
}.

(** The child [c] in slot [np], with its space [spc] and its stack [f]; [l'] is what is
    left of the free list. *)
Record forked k (self : nat) (p : proc) (sp : space) (l : list Z) (np : nat) (c : proc) (spc : space) (f : Z) (l' : list Z) k' : Prop := {
  fd_slot : exists q, procs k !! np = Some q /\ state q = UNUSED /\ killed c = killed q /\ pchan c = pchan q;
  fd_procs : procs k' = <[np:=c]> (procs k);
  fd_pids : nextpid k' = s32 (nextpid k + 1) /\ initproc k' = initproc k;
  fd_child : state c = RUNNABLE /\ pid c = nextpid k /\ parent c = Some self /\ sz c = sz p /\ tf c = set_eax 0 (tf p) /\
    ofile c = ofile p /\ cwd c = cwd p;
  fd_start : ret_word c = trapret /\ c_eip (ctx c) = forkret /\ kstack c = f + KERNBASE /\ pgdir c = dir spc + KERNBASE;
  fd_spaces : ainv kend (kmem k') sp l' /\ ainv kend (kmem k') spc l' /\ (forall g, own sp g -> ~ own spc g);
  fd_pages : frame kend f /\ f ∉ l' /\ ~ own spc f /\ (forall g, g ∈ l <-> g = f \/ g ∈ l' \/ own spc g);
  fd_bytes : forall va, 0 <= va < KERNBASE -> ubyte (mem (kmem k')) sp va = ubyte (mem (kmem k)) sp va /\
    ubyte (mem (kmem k')) spc va = if va <? PGROUNDUP (sz p) then ubyte (mem (kmem k)) sp va else None;
  fd_same : forall g, frame kend g -> g ∉ l -> same_page (mem (kmem k)) (mem (kmem k')) g;
  fd_kernel : forall q, UPAGES <= q -> ent spc q = kernel_ent kdata q;
  fd_files : kfiles k' = foldl dup_ref (kfiles k) (ofile p);
  fd_inodes : exists ip x, cwd p = inode_at ip /\ kinodes k !! ip = Some x /\ 1 <= Fs.i_ref x /\ kinodes k' = <[ip:=Fs.set_ref (Fs.i_ref x + 1) x]> (kinodes k);
  fd_rest : Fs.fs_blk (Sysfile.k_fs (kn (env k'))) = Fs.fs_blk (Sysfile.k_fs (kn (env k))) /\
    Sysfile.pipes (kn (env k')) = Sysfile.pipes (kn (env k)) /\ Sysfile.cur (kn (env k')) = Sysfile.cur (kn (env k)) /\ kh (env k') = kh (env k)
}.

(** The copy of the address space failed: the stack is freed and so is the slot. *)
Lemma fork_undo k np q f l1 c m1 m2 sp lost l2 : procs k !! np = Some q -> state q = UNUSED -> ofile c = ofile q ->
  ainv kend (kmem k) sp (f :: l1) -> mem m1 = mem (kmem k) -> undone kend m1 l1 sp m2 lost l2 -> ((length lost <= 1)%nat \/ l2 = []) ->
  wp (call (env_kfree (f + KERNBASE)) ;;; upd np (set_kstack 0) ;;; upd np (set_state UNUSED) ;;; ret (-1))
    (fun r k' => r = -1 /\ fork_failed k sp (f :: l1) k')
    (mkTable (<[np:=c]> (procs k)) (s32 (nextpid k + 1)) (initproc k) (mkKernel (with_mem m2 (kn (env k))) (kh (env k)))).
Proof using All.
  intros Hq Hun Ho A M1 (Hp & A2 & U2 & S2) Hl. assert (Hnp : (np < length (procs k))%nat) by (by eapply lookup_lt_Some).
  pose proof (v_k _ _ _ _ (a_v _ _ _ _ A)) as K. pose proof (k_nodup _ _ _ K) as [Hfl _]%NoDup_cons. pose proof (k_frames _ _ _ K) as [Hf _]%Forall_cons.
  assert (Hsub : forall g, g ∈ l2 -> g ∈ l1) by (intros g Hg; rewrite Hp, elem_of_app; by right).
  apply wp_bind, wp_mem. cbn [with_mem Sysfile.k_mem]. apply (kfree_wp kend Hend m2 l2); [apply A2|done|by intros ?%Hsub|]. intros m3 K3 S3 _.
  apply wp_bind, wp_upd; [done|]. apply wp_bind, wp_upd; [done|]. apply wp_ret. split; [done|].
  assert (Hsame : forall g, frame kend g -> g ∉ f :: l1 -> same_page (mem (kmem k)) (mem m3) g).
  { intros g Hg [Hgf Hgl]%not_elem_of_cons. rewrite <- M1. eapply same_page_trans; [by apply S2|by apply S3]. }
  destruct (ainv_keep kend kdata (kmem k) sp (f :: l1) m3 (f :: l2) A K3) as [A3 U3].
  { intros g [->|Hg]%elem_of_cons; [left|right; by apply Hsub]. }
  { intros g Hg. destruct (own_taken kend (kmem k) sp (f :: l1) g A Hg). by apply Hsame. }
  split; cbn [procs env kn with_mem Sysfile.k_mem].
  - apply length_insert.
  - intros i x Hx. destruct (decide (np = i)) as [<-|Hne].
    + rewrite list_lookup_insert_eq by done. eexists. split; [done|]. right. replace x with q by congruence. done.
    + rewrite list_lookup_insert_ne by done. exists x. split; [done|by left].
  - by eexists.
  - exists lost, (f :: l2). split_and!; [|done| |done|done].
    + rewrite Hp. by rewrite Permutation_middle.
    + destruct Hl as [?| ->]; [by left|by right].
Qed.

(** The slot [allocproc] returns. *)
Definition fresh_slot k (f : Z) (q : proc) : proc :=
  stack_frame forkret trapret (f + KERNBASE) (set_kstack (f + KERNBASE) (set_pid (nextpid k) (set_state EMBRYO q))).

(** [fork] once the address space is copied. *)
Lemma fork_filled k self p sp f l1 np q m1 m2 spc l2 : forkable k self p sp (f :: l1) -> procs k !! np = Some q -> state q = UNUSED ->
  mem m1 = mem (kmem k) -> two kend kdata m1 l1 sp m2 spc l2 (npages (sz p)) ->
  wp (upd np (set_sz (sz p)) ;;; upd np (set_parent (Some self)) ;;; upd np (set_tf (tf p)) ;;;
      upd np (fun q => set_tf (set_eax 0 (tf q)) q) ;;; dup_files np 0 (ofile p) ;;;
      let* c := call (env_idup (cwd p)) in
      upd np (set_cwd c) ;;; upd np (set_state RUNNABLE) ;;;
      upd np (fun q => set_name (Str.safestrcpy (name q) (name p) 16) q) ;;; ret (pid (fresh_slot k f q)))
    (fun r k' => r = nextpid k /\ exists c, forked k self p sp (f :: l1) np c spc f l2 k')
    (mkTable (<[np:=set_pgdir (dir spc + KERNBASE) (fresh_slot k f q)]> (procs k)) (s32 (nextpid k + 1)) (initproc k)
       (mkKernel (with_mem m2 (kn (env k))) (kh (env k)))).
Proof using All.
  intros F Hq Hun M1 T. assert (Hnp : (np < length (procs k))%nat) by (by eapply lookup_lt_Some).
  pose proof F as [_ _ A _ Hsz _ Hfs Hnf (ip & x & Hip & Hx & Hir) Hfree].
  do 4 (apply wp_bind, wp_upd; [done|]). apply wp_bind. change 0%nat with (length (@nil Z)) at 1.
  apply dup_files_wp; [done|cbn; rewrite Hnf; by apply (Hfree np)|done|]. rewrite app_nil_l.
  apply wp_bind, wp_kern, wp_zoom. cbn [with_mem with_files Sysfile.k_fs Sysfile.ftable]. apply wp_bind. unfold Fs.idup, Fs.updi.
  do 2 apply wp_bind. apply wp_gets. rewrite Hip, inode_of_at, Hx. change (default Fs.zero_inode (Some x)) with x. apply wp_modify, wp_ret, wp_ret.
  do 3 (apply wp_bind, wp_upd; [done|]). apply wp_ret. split; [done|].
  match goal with |- exists c, forked _ _ _ _ _ _ _ _ _ _ (mkTable (<[_:=?c0]> _) _ _ _) => exists c0 end.
  pose proof (v_k _ _ _ _ (a_v _ _ _ _ A)) as K. pose proof (k_nodup _ _ _ K) as [Hfl _]%NoDup_cons. pose proof (k_frames _ _ _ K) as [Hf _]%Forall_cons.
  destruct T as [TP TC TA TS TR TK TE TF TM]. destruct (npages_spec (sz p)) as (E & _); [lia|].
  assert (Hfo : ~ own spc f) by (intros Ho; apply Hfl, TF; by right). assert (Hfl2 : f ∉ l2) by (intros Hl; apply Hfl, TF; by left).
  split; cbn [procs nextpid initproc env kn kh with_mem Sysfile.k_mem Sysfile.k_fs Sysfile.ftable Sysfile.pipes Sysfile.cur Fs.icache Fs.fs_blk].
  - by exists q.
  - reflexivity.
  - done.
  - cbn. rewrite Hip. done.
  - done.
  - done.
  - split_and!; [done|done|done|]. intros g. by rewrite elem_of_cons, TF.
  - rewrite <- M1. intros va Hva. split; [by apply TE|]. rewrite E. destruct (Z.ltb_spec va (PGSIZE * npages (sz p))); [by rewrite TS, TE by lia|].
    unfold ubyte. rewrite TR; [done|]. unfold UPAGES, KERNBASE, PGSIZE in *. dlia.
  - rewrite <- M1. intros g Hg [_ Hgl]%not_elem_of_cons. by apply TM.
  - done.
  - done.
  - by exists ip, x.
  - done.
Qed.

Lemma fork_wp k self p sp l : forkable k self p sp l ->
  wp (fork forkret trapret self) (fun r k' =>
    (r = nextpid k /\ exists np c spc f l', forked k self p sp l np c spc f l' k') \/
    (r = -1 /\ fork_failed k sp l k' /\ (Forall (fun q => state q <> UNUSED) (procs k) \/ Z.of_nat (length l) < 1 + fork_cost (npages (sz p))))) k.
Proof using All.
  intros F. pose proof F as [Hself Hlive A Hpd Hsz Hpg _ _ _ _]. unfold fork, allocproc. do 2 apply wp_bind. unfold wp at 1, claim, find_proc.
  destruct (npages_spec (sz p)) as (_ & B1 & B2); [lia|]. assert (0 <= npages (sz p) / 1024) by dlia.
  destruct (list_find _ (procs k)) as [[np q]|] eqn:Hfind; cbn [fmap option_fmap option_map fst].
  2: { apply list_find_None in Hfind. apply wp_ret. cbn iota. apply wp_ret. right. split_and!; [done| |by left]. split.
    - done.
    - intros i q Hq. exists q. split; [done|by left].
    - exists (kmem k). by destruct k as [? ? ? [[]]].
    - exists [], l. split_and!; done || (left; simpl; lia). }
  apply list_find_Some in Hfind as (Hq & Hun & _). assert (Hnp : (np < length (procs k))%nat) by (by eapply lookup_lt_Some).
  rewrite (alter_slot _ _ _ _ Hq). unfold alloc_stack. destruct k as [ps n ini [x h]]. cbn [procs nextpid initproc env kn kh] in *.
  set (k := mkTable ps n ini (mkKernel x h)) in *. destruct l as [|f l1].
  { apply wp_bind, wp_mem, (kalloc_wp kend Hend _ []); [apply A|]. apply wp_bind, wp_upd; [done|]. cbn [Z.eqb].
    apply wp_bind, wp_upd; [done|]. apply wp_ret. cbn iota. apply wp_ret. right. split_and!; [done| |right; unfold fork_cost; simpl; lia]. split.
    - apply length_insert.
    - intros i y Hy. cbn [procs]. destruct (decide (np = i)) as [<-|Hne].
      + rewrite list_lookup_insert_eq by done. eexists. split; [done|]. right. replace y with q by (cbn in Hy; congruence). done.
      + rewrite list_lookup_insert_ne by done. exists y. split; [done|by left].
    - by eexists.
    - exists [], []. cbn [env kn with_mem Sysfile.k_mem]. split_and!; done || (left; simpl; lia). }
  apply wp_bind, wp_mem, (kalloc_user kend Hend _ sp f l1); [done|]. intros m1 A1 Hsp M1. pose proof (frame_range kend Hend f (proj1 (proj1 Hsp))) as Hr.
  apply wp_bind, wp_upd; [done|]. rewrite (proj2 (Z.eqb_neq _ 0)) by (unfold KERNBASE, EXTMEM in *; lia).
  apply wp_bind, wp_upd; [done|]. apply wp_ret. cbn iota. fold (fresh_slot k f q). unfold fork_fill.
  assert (Hne : np <> self) by (intros ->; congruence).
  apply wp_bind, (wp_getproc self p); [cbn [procs]; by rewrite list_lookup_insert_ne|]. apply wp_bind, (wp_getproc np (fresh_slot k f q)); [by apply list_lookup_insert_eq|].
  apply wp_bind, wp_mem. cbn [with_mem Sysfile.k_mem]. rewrite Hpd.
  eapply wp_mono; [apply (copyuvm_wp kend kdata Hend Hdata Hda m1 sp l1 (sz p) (npages (sz p))); done || lia|].
  intros pd m2 [(spc & l2 & -> & T)|(Hlt & -> & lost & l2 & Hlost & Hu)]; apply wp_bind, wp_upd; try done.
  - pose proof (own_taken kend m2 spc l2 (dir spc) (t_child _ _ _ _ _ _ _ _ _ T) ltac:(by left; left)) as [Hfd _]. apply (frame_range kend Hend) in Hfd.
    rewrite (proj2 (Z.eqb_neq _ 0)) by (unfold KERNBASE, EXTMEM in *; lia).
    eapply wp_mono; [apply (fork_filled k self p sp f l1 np q m1 m2 spc l2); done|]. intros r k' [-> [c Hc]]. left. split; [done|]. by exists np, c, spc, f, l2.
  - cbn [Z.eqb]. eapply wp_mono; [apply (fork_undo k np q f l1 _ m1 m2 sp lost l2); done|]. intros r k' [-> Hf]. right.
    split_and!; [done|done|right; simpl length; lia].
Qed.

(** ** A child that exits, and its parent that waits for it *)

(** A file closed after it was duplicated is as it was. *)
Lemma close_dup ft a : a <> 0 -> open_file ft a ->
  alter (fun x => Sysfile.set_fref (Sysfile.f_ref x - 1) x) (file_of a) (dup_ref ft a) = ft.
Proof using Hfiles.
  intros Ha [->|(f & x & -> & Hx & _)]; [done|]. unfold dup_ref. rewrite (proj2 (Z.eqb_neq _ _)) by done. rewrite file_of_at.
  apply list_eq. intros j. destruct (decide (f = j)) as [<-|Hne]; [|by rewrite !list_lookup_alter_ne].
  rewrite !list_lookup_alter_eq, Hx. cbn. f_equal. destruct x. unfold Sysfile.set_fref. cbn. f_equal. lia.
Qed.

Lemma dup_comm ft a b : dup_ref (dup_ref ft a) b = dup_ref (dup_ref ft b) a.
Proof.
  unfold dup_ref. destruct (a =? 0), (b =? 0); try done. destruct (decide (file_of a = file_of b)) as [->|Hne]; [done|].
  apply list_eq. intros j. destruct (decide (j = file_of a)) as [->|Ha]; [|destruct (decide (j = file_of b)) as [->|Hb]];
    repeat first [rewrite list_lookup_alter_eq | rewrite list_lookup_alter_ne by congruence]; done.
Qed.

Lemma dup_fold ft a fs : foldl dup_ref (dup_ref ft a) fs = dup_ref (foldl dup_ref ft fs) a.
Proof. revert ft. induction fs as [|b fs IH]; intros ft; cbn [foldl]; [done|]. by rewrite dup_comm, IH. Qed.

Lemma fold_open ft fs a : open_file ft a -> open_file (foldl dup_ref ft fs) a.
Proof. revert ft. induction fs as [|b fs IH]; intros ft H; cbn [foldl]; [done|]. by apply IH, dup_open. Qed.

(** [fileclose] of a file with another reference. *)
Lemma fileclose_dup a ft x (Q : unit -> Sysfile.kern D -> Prop) : a <> 0 -> open_file ft a -> Sysfile.ftable x = dup_ref ft a ->
  Q tt (with_files ft x) -> wp (Sysfile.fileclose begin_trans commit_trans kend (file_of a)) Q x.
Proof using Hfiles.
  intros Ha Ho Hx HQ. pose proof (close_dup ft a Ha Ho) as Hc. destruct Ho as [->|(f & y & -> & Hy & Hr)]; [done|].
  assert (Hl : Sysfile.ftable x !! f = Some (Sysfile.set_fref (Sysfile.f_ref y + 1) y)).
  { rewrite Hx. unfold dup_ref. rewrite (proj2 (Z.eqb_neq _ _)) by done. by rewrite file_of_at, list_lookup_alter_eq, Hy. }
  unfold Sysfile.fileclose. apply wp_bind, wp_gets. rewrite file_of_at in *. rewrite Hl.
  change (default Sysfile.zero_file (Some ?y)) with y. set (z := Sysfile.set_fref _ y) in *. assert (Ez : Sysfile.f_ref z = Sysfile.f_ref y + 1) by done.
  rewrite (proj2 (Z.ltb_ge (Sysfile.f_ref z) 1)) by lia. apply wp_bind, wp_modify. rewrite (proj2 (Z.ltb_lt 0 _)) by lia. apply wp_ret.
  assert (alter (Sysfile.set_fref (Sysfile.f_ref z - 1)) f (Sysfile.ftable x) = ft) as ->; [|exact HQ].
  rewrite <- Hc, Hx. apply list_eq. intros j. destruct (decide (f = j)) as [<-|Hne]; [|by rewrite !list_lookup_alter_ne].
  rewrite Hx in Hl. rewrite !list_lookup_alter_eq, Hl. done.
Qed.

Lemma close_files_wp np ps n ini h ft fs : forall i c x (Q : unit -> ktable (kernel D) -> Prop), (np < length ps)%nat ->
  ofile c = replicate i 0 ++ fs -> Forall (open_file ft) fs -> Sysfile.ftable x = foldl dup_ref ft fs ->
  Q tt (mkTable (<[np:=set_ofile (replicate (i + length fs) 0) c]> ps) n ini (mkKernel (with_files ft x) h)) ->
  wp (close_files np (length fs) i) Q (mkTable (<[np:=c]> ps) n ini (mkKernel x h)).
Proof using Hfiles.
  induction fs as [|a fs IH]; intros i c x Q Hnp Ho Hf Hx HQ; cbn [close_files length].
  - apply wp_ret. rewrite app_nil_r in Ho. cbn [length] in HQ. cbn [foldl] in Hx. rewrite Nat.add_0_r, <- Ho, <- Hx in HQ.
    assert (set_ofile (ofile c) c = c) as E by (by destruct c). rewrite E in HQ. by destruct x.
  - apply Forall_cons in Hf as [Ha Hf]. cbn [foldl] in Hx. rewrite dup_fold in Hx.
    apply wp_bind, (wp_getproc np c); [by apply list_lookup_insert_eq|].
    assert (ofile c !! i = Some a) as Ei by (rewrite Ho, lookup_app_r, length_replicate, Nat.sub_diag by (rewrite length_replicate; lia); done).
    rewrite Ei. change (default 0 (Some a)) with a. cbn [length] in HQ. rewrite <- Nat.add_succ_comm in HQ.
    assert (Ho' : <[i:=0]> (ofile c) = replicate (S i) 0 ++ fs).
    { rewrite Ho, insert_app_r_alt, length_replicate, Nat.sub_diag by (rewrite length_replicate; lia). cbn [list_insert insert].
      by rewrite replicate_S_end, <- app_assoc. }
    destruct (Z.eqb_spec a 0) as [->|Hnz].
    + apply wp_bind, wp_ret, IH; [done| |done|by rewrite Hx|done]. by rewrite <- Ho', list_insert_id.
    + apply wp_bind, wp_bind, wp_kern, (fileclose_dup a (foldl dup_ref ft fs)); [done|by apply fold_open|done|].
      apply wp_upd; [done|]. apply IH; [done|exact Ho'|done|done|exact HQ].
Qed.

Lemma reparent_none np ini ps : (forall i q, ps !! i = Some q -> parent q <> Some np) -> reparent np ini ps = ps.
Proof.
  intros H. unfold reparent. induction (seq 0 NPROC) as [|i ix IH]; cbn [foldl]; [done|].
  assert (reparent1 np ini ps i = ps) as ->; [|exact IH]. unfold reparent1. destruct (ps !! i) as [q|] eqn:Hq; [|done].
  by rewrite decide_False by (by apply (H i)).
Qed.

Lemma wake_fields ch q : parent (wake ch q) = parent q /\ (state (wake ch q) = ZOMBIE <-> state q = ZOMBIE).
Proof. unfold wake. case_decide as Hd; [|done]. destruct Hd as [Hd _]. cbn. rewrite Hd. done. Qed.

(** The child after [exit]. *)
Definition zombie (c : proc) : proc := set_state ZOMBIE (set_cwd 0 (set_ofile (replicate NOFILE 0) c)).

Lemma exit_wp k self p sp l np c spc f l' k1 x : forkable k self p sp l -> forked k self p sp l np c spc f l' k1 ->
  initproc k <> Some np -> (forall i q, procs k !! i = Some q -> parent q <> Some np) -> ncli x = 0 -> self <> np ->
  wp (upd np (set_state RUNNING) ;;; exit np x)
    (fun _ k2 => procs k2 = <[np:=zombie c]> (wake (Some (ChProc self)) <$> procs k) /\ env k2 = mkKernel (with_mem (kmem k1) (kn (env k))) (kh (env k))) k1.
Proof using All.
  intros F Hd Hini Hnp Hx Hne. destruct Hd as [(q0 & Hq0 & _) Hps [_ Hi] Hc _ _ _ _ _ _ Hfs (ip & y & Hip & Hy & Hr & Hic) (Hb & Hpi & Hcu & Hh)].
  assert (Hlt : (np < length (procs k))%nat) by (by eapply lookup_lt_Some). destruct k1 as [ps1 n1 ini1 [x1 h1]]. cbn [procs initproc env kn kh nextpid] in *. subst ps1.
  destruct Hc as (Hst & _ & Hpar & _ & _ & Hof & Hcw). unfold exit. apply wp_bind, wp_upd; [done|]. apply wp_bind. unfold exit_files.
  apply wp_bind, wp_gets. cbn [initproc]. rewrite decide_False by congruence. rewrite <- (fk_nofile _ _ _ _ _ F).
  apply wp_bind, (close_files_wp np _ _ _ _ (kfiles k) (ofile p)); [done|exact Hof|apply F|exact Hfs|]. rewrite (fk_nofile _ _ _ _ _ F).
  cbn [Nat.add]. apply wp_bind, wp_getproc with (p := set_ofile (replicate NOFILE 0) (set_state RUNNING c)); [by apply list_lookup_insert_eq|].
  cbn [cwd set_ofile set_state]. rewrite Hcw, Hip. apply wp_bind, wp_kern, wp_zoom. unfold Fs.iput. apply wp_bind, wp_gets.
  cbn [with_files Sysfile.k_fs]. rewrite Hic, inode_of_at, list_lookup_insert_eq by (by eapply lookup_lt_Some).
  change (default Fs.zero_inode (Some ?z)) with z. rewrite (proj2 (Z.eqb_neq _ 1)) by (cbn; lia). cbn [andb]. apply wp_bind, wp_ret, wp_bind, wp_gets.
  rewrite Hic, list_lookup_insert_eq by (by eapply lookup_lt_Some). apply wp_modify, wp_upd; [done|]. unfold exit_locked.
  eapply wp_bind, wp_getproc; [by apply list_lookup_insert_eq|]. cbn [parent set_cwd set_ofile set_state]. rewrite Hpar. apply wp_bind, wp_modify.
  unfold with_procs. cbn [procs nextpid initproc env]. rewrite list_fmap_insert. set (c2 := set_cwd 0 _).
  assert (wake (ChProc <$> Some self) c2 = c2) as -> by (unfold wake; rewrite decide_False by (by intros [? _]); done).
  apply wp_bind, wp_modify. cbn [procs nextpid initproc env]. rewrite reparent_none.
  2: { intros i q. destruct (decide (np = i)) as [<-|Hni].
    - rewrite list_lookup_insert_eq by (by rewrite length_fmap). intros [= <-]. cbn. rewrite Hpar. congruence.
    - rewrite list_lookup_insert_ne, list_lookup_fmap by done. destruct (procs k !! i) as [q'|] eqn:Hq'; [|done]. intros [= <-].
      rewrite (proj1 (wake_fields _ _)). by apply (Hnp i). }
  apply wp_bind, wp_upd; [by rewrite length_fmap|]. unfold sched. eapply wp_bind, wp_getproc; [apply list_lookup_insert_eq; by rewrite length_fmap|].
  cbn [negb push_cpu ncli iflag]. rewrite Hx. cbn [Z.add Z.eqb Pos.eqb negb]. rewrite decide_False by done. apply wp_ret. split; [done|].
  cbn [env]. f_equal; [|done]. unfold with_mem. cbn [Sysfile.k_fs with_files Sysfile.ftable Sysfile.pipes Sysfile.k_mem Sysfile.cur]. rewrite Hpi, Hcu. f_equal.
  rewrite Hb. destruct (Sysfile.k_fs (kn (env k))) as [blk ic]. cbn [Fs.icache Fs.fs_blk] in *. rewrite Hic, list_insert_insert_eq. f_equal.
  apply list_insert_id. rewrite Hy. f_equal. destruct y. unfold Fs.set_ref. cbn. f_equal. lia.
Qed.

(** The kernel when the child is gone: its slot is free, a sleeping parent is awake, and
    memory, files and inodes are as they were. *)
Record restored k (self : nat) (sp : space) (l : list Z) (np : nat) k' : Prop := {
  rs_procs : exists z, procs k' = <[np:=z]> (wake (Some (ChProc self)) <$> procs k) /\ state z = UNUSED /\ pid z = 0 /\ parent z = None /\
    kstack z = 0 /\ killed z = false /\ ofile z = replicate NOFILE 0 /\ cwd z = 0;
  rs_env : exists m, env k' = mkKernel (with_mem m (kn (env k))) (kh (env k));
  rs_mem : exists l', l' ≡ₚ l /\ ainv kend (kmem k') sp l' /\
    (forall va, 0 <= va < KERNBASE -> ubyte (mem (kmem k')) sp va = ubyte (mem (kmem k)) sp va)
}.

Lemma find_child k self np c : (np < length (procs k))%nat -> parent c = Some self ->
  (forall i q, procs k !! i = Some q -> parent q = Some self -> state q <> ZOMBIE) ->
  find_proc (fun p => parent p = Some self /\ state p = ZOMBIE) (<[np:=zombie c]> (wake (Some (ChProc self)) <$> procs k)) = Some np.
Proof.
  intros Hlt Hp Hz. unfold find_proc. assert (E : list_find (fun p => parent p = Some self /\ state p = ZOMBIE)
    (<[np:=zombie c]> (wake (Some (ChProc self)) <$> procs k)) = Some (np, zombie c)); [|by rewrite E].
  apply list_find_Some. split_and!; [apply list_lookup_insert_eq; by rewrite length_fmap|exact Hp|done|].
  intros j q Hj Hlj [Hpq Hsq]. rewrite list_lookup_insert_ne, list_lookup_fmap in Hj by lia. destruct (procs k !! j) as [q'|] eqn:Hq'; [|done].
  injection Hj as <-. destruct (wake_fields (Some (ChProc self)) q') as [E1 E2]. rewrite E1 in Hpq. apply (Hz j q'); [done|done|by apply E2].
Qed.

Lemma wait_wp k self p sp l np c spc f l' k1 k2 y : forkable k self p sp l -> forked k self p sp l np c spc f l' k1 ->
  (forall i q, procs k !! i = Some q -> parent q = Some self -> state q <> ZOMBIE) ->
  procs k2 = <[np:=zombie c]> (wake (Some (ChProc self)) <$> procs k) -> env k2 = mkKernel (with_mem (kmem k1) (kn (env k))) (kh (env k)) ->
  wp (wait self y) (fun r k3 => r = Some (nextpid k) /\ restored k self sp l np k3) k2.
Proof using All.
  intros F Hd Hz Hps Henv. destruct k2 as [ps2 n2 ini2 e2]. cbn [procs env] in Hps, Henv. subst ps2 e2.
  destruct Hd as [(q0 & Hq0 & _) _ _ (_ & Hpid & Hpar & _) (_ & _ & Hks & Hpg) (_ & Ac & Hap) (Hf & Hfl & Hfo & Hl) _ Hsame _ _ _ _].
  assert (Hlt : (np < length (procs k))%nat) by (by eapply lookup_lt_Some). pose proof (fk_space _ _ _ _ _ F) as A.
  unfold wait. apply wp_bind, wp_gets. cbn [procs]. rewrite (find_child k self np c) by done. apply wp_bind. unfold reap.
  assert (Hlt' : (np < length (wake (Some (ChProc self)) <$> procs k))%nat) by (by rewrite length_fmap).
  eapply wp_bind, wp_getproc; [by apply list_lookup_insert_eq|]. cbn [zombie kstack set_state set_cwd set_ofile pgdir]. rewrite Hks, Hpg.
  apply wp_bind, wp_mem. cbn [with_mem Sysfile.k_mem]. apply (kfree_wp kend Hend _ l'); [apply Ac|done|done|]. intros m2 K2 S2 _.
  apply wp_bind, wp_upd; [done|].
  destruct (ainv_more kend (kmem k1) spc l' m2 [f] Ac K2) as [A2 _].
  { by intros g ->%list_elem_of_singleton. }
  { intros g Hg. apply S2; [by apply (own_taken kend _ _ _ _ Ac Hg)|]. by intros ->. }
  apply wp_bind, wp_mem. cbn [with_mem Sysfile.k_mem]. apply (freevm_wp kend Hend m2 spc (f :: l')); [done|]. intros m3 fr K3 Hfr S3.
  do 5 (apply wp_bind, wp_upd; [done|]). apply wp_ret. cbv beta. apply wp_ret. split; [by cbn; rewrite Hpid|].
  assert (Hin : forall g, g ∈ fr ++ f :: l' <-> g ∈ l) by (intros g; rewrite elem_of_app, elem_of_cons, Hfr, Hl; tauto).
  destruct (ainv_keep kend kdata (kmem k) sp l m3 (fr ++ f :: l') A K3) as [A3 U3]; [intros g; by rewrite Hin| |].
  { intros g Hg. destruct (own_taken kend _ _ _ _ A Hg) as [Hgf Hgl]. assert (Hgn : g ∉ f :: l').
    { intros Hg'. apply Hgl, Hin, elem_of_app. by right. }
    apply not_elem_of_cons in Hgn as [Hne Hgl']. eapply same_page_trans; [by apply Hsame|]. eapply same_page_trans; [by apply S2|].
    apply S3; [done|by apply Hap|by apply not_elem_of_cons]. }
  split; cbn [procs env kn with_mem Sysfile.k_mem].
  - eexists. split; [reflexivity|]. done.
  - by eexists.
  - exists (fr ++ f :: l'). split_and!; [|done|done]. apply NoDup_Permutation; [apply K3|apply (v_k _ _ _ _ (a_v _ _ _ _ A))|]. intros g. apply Hin.
Qed.

(** C9: whatever free memory there is, [fork] returns.  Either it returns the pid of a new process in a free slot whose memory contents, saved registers (but for the result of [fork], which is 0), open files and current directory are the parent's, with pages of its own, one more reference to each open file and to the directory, and a stack from which it starts in [forkret] and goes on to [trapret]; or it returns -1, because the table is full or fewer pages are free than the bound [fork_cost] on what a copy can need: then every process, file and inode and all user memory is as it was, the slot it tried to use is free, and the pages it took are free again but for at most one, unless the kernel part of the page table did not fit in memory. *)
Theorem fork_outcomes k self p sp l : forkable k self p sp l ->
  wp (fork forkret trapret self) (fun r k' =>
    (r = nextpid k /\ exists np c spc f l', forked k self p sp l np c spc f l' k') \/
    (r = -1 /\ fork_failed k sp l k' /\ (Forall (fun q => state q <> UNUSED) (procs k) \/ Z.of_nat (length l) < 1 + fork_cost (npages (sz p))))) k.
Proof using All. apply fork_wp. Qed.

(** C8: with a free slot and enough memory, a process forks, the child exits, and [wait] in the parent returns the pid of the child; then the slot is free, the free list holds the same pages as before the fork, every reference count of the open files and of the inodes is what it was, and the parent's memory is unchanged. *)
Theorem fork_exit_wait k self p sp l x y : forkable k self p sp l -> Exists (fun q => state q = UNUSED) (procs k) ->
  1 + fork_cost (npages (sz p)) <= Z.of_nat (length l) ->
  (forall i q, procs k !! i = Some q -> state q = UNUSED -> initproc k <> Some i /\ forall j q', procs k !! j = Some q' -> parent q' <> Some i) ->
  (forall i q, procs k !! i = Some q -> parent q = Some self -> state q <> ZOMBIE) -> ncli x = 0 ->
  wp (fork forkret trapret self) (fun pid k1 => exists np, pid = nextpid k /\ self <> np /\
    wp (upd np (set_state RUNNING) ;;; exit np x) (fun _ k2 => wp (wait self y) (fun r k3 => r = Some pid /\ restored k self sp l np k3) k2) k1) k.
Proof using All.
  intros F He Hl Hu Hz Hx. eapply wp_mono; [by apply fork_wp|]. intros r k1 [(-> & np & c & spc & f & l' & Hd)|(_ & _ & [Hn|Hn])].
  - destruct (fd_slot _ _ _ _ _ _ _ _ _ _ _ Hd) as (q & Hq & Hun & _). destruct (Hu np q Hq Hun) as [Hini Hch].
    assert (Hne : self <> np) by (intros <-; apply (fk_live _ _ _ _ _ F); rewrite (fk_self _ _ _ _ _ F) in Hq; congruence).
    exists np. split_and!; [done|done|]. eapply wp_mono; [by apply (exit_wp k self p sp l np c spc f l' k1)|].
    intros b k2 [Hps Henv]. by apply (wait_wp k self p sp l np c spc f l' k1 k2).
  - exfalso. apply Exists_exists in He as (q & Hq & Hun). rewrite Forall_forall in Hn. by apply (Hn q).
  - lia.
Qed.
End Env.

(** ** A kernel with one process of two pages *)

Definition ex_files_at : Z := 2148600000.
Definition ex_inodes_at : Z := 2148700000.
#[local] Instance ex_layer : Blocks.TxLayer Log.lstate := TxLog.tx_layer FsSpec.demo_blocks [] 20 12.
#[local] Instance ex_env : KernelEnv (kernel Log.lstate) := kernel_env (ret tt) (ret tt) (fun _ => None) d_end d_data ex_files_at ex_inodes_at 500 2148600000.

Definition ex_proc (sp : space) : proc :=
  mkProc 8192 (dir sp + KERNBASE) 2150000000 RUNNING 1 None zero_tf 0 0 (mkCtx 0 0 0 0 0) 0 None false
    (file_at ex_files_at 3 :: file_at ex_files_at 3 :: replicate 14 0) (inode_at ex_inodes_at 0) (replicate 16 0).
Definition ex_ftable : list Sysfile.file := <[3%nat:=Sysfile.mkFile Sysfile.FD_INODE 2 true true 0 1 0]> (replicate Sysfile.NFILE Sysfile.zero_file).
Definition ex_kernel (s : kstate) (sp : space) : ktable (kernel Log.lstate) :=
  mkTable (<[0%nat:=ex_proc sp]> (replicate NPROC zero_proc)) 2 (Some 0%nat)
    (mkKernel (Sysfile.mkKern (FsSpec.demo_fs false) ex_ftable ∅ s (Sysfile.mkTask (replicate 16 None) 0 8192 0 false (fun _ => 0))) Machine.ex_hw).

Lemma ex_slots s sp i q : procs (ex_kernel s sp) !! i = Some q -> (i = 0%nat /\ q = ex_proc sp) \/ (i <> 0%nat /\ q = zero_proc).
Proof.
  cbn [procs ex_kernel]. destruct i as [|i]; [intros [= <-]; by left|]. intros Hq. right. split; [done|].
  rewrite list_lookup_insert_ne in Hq by lia. by apply lookup_replicate in Hq as [-> _].
Qed.

Lemma ex_forkable s sp l : ainv d_end s sp l -> (forall q, 0 <= q < 2 -> present sp q = true) ->
  forkable d_end ex_files_at ex_inodes_at (ex_kernel s sp) 0 (ex_proc sp) sp l.
Proof.
  intros A Hp. split; [done|done|done|done|by vm_compute|exact Hp| |done| |].
  - assert (Ho : open_file ex_files_at ex_ftable (file_at ex_files_at 3)) by (right; exists 3%nat; eexists; by split_and!).
    apply Forall_cons. split; [exact Ho|]. apply Forall_cons. split; [exact Ho|]. apply Forall_replicate. by left.
  - exists 0%nat. eexists. by split_and!.
  - intros i q [[_ ->]|[_ ->]]%ex_slots; done.
Qed.

Lemma fork_outcomes_witness : exists s sp, wp (fork 111 222 0) (fun r k' => r = 2 /\ exists np c, procs k' !! np = Some c /\
    parent c = Some 0%nat /\ tf_eax (tf c) = 0 /\ ofile c = ofile (ex_proc sp) /\ Sysfile.f_ref <$> Sysfile.ftable (kn (env k')) !! 3%nat = Some 4) (ex_kernel s sp).
Proof.
  destruct d_grown as (s & sp & l & A & Hl & Hp & Hu). exists s, sp. pose proof (ex_forkable s sp l A Hp) as F.
  eapply wp_mono; [apply (fork_outcomes (ret tt) (ret tt) (fun _ => None) d_end d_data ex_files_at ex_inodes_at 500 2148600000 ltac:(done) 111 222 d_end_ok ltac:(by vm_compute) ltac:(done) _ _ _ _ _ F)|].
  intros r k' [(-> & np & c & spc & f & l' & Hd)|(_ & _ & [Hn|Hn])].
  - split; [done|]. exists np, c. destruct Hd as [(q & Hq & _) Hps _ (_ & _ & Hpar & _ & Htf & Hof & _) _ _ _ _ _ _ Hfs _ _].
    split_and!; [rewrite Hps; by apply list_lookup_insert_eq; eapply lookup_lt_Some|done|by rewrite Htf|done|by rewrite Hfs].
  - exfalso. rewrite Forall_forall in Hn. apply (Hn zero_proc); [|done]. apply list_elem_of_lookup. by exists 1%nat.
  - change (npages (sz (ex_proc sp))) with 2 in Hn. lia.
Defined.

Lemma fork_exit_wait_witness : exists s sp l, wp (fork 111 222 0) (fun pid k1 => exists np,
    wp (upd np (set_state RUNNING) ;;; exit np (mkCpu 0 true true)) (fun _ k2 => wp (wait 0 (mkCpu 1 true false)) (fun r k3 => r = Some 2 /\
      exists l', l' ≡ₚ l /\ kinv d_end (Sysfile.k_mem (kn (env k3))) l' /\ Sysfile.ftable (kn (env k3)) = ex_ftable) k2) k1) (ex_kernel s sp).
Proof.
  destruct d_grown as (s & sp & l & A & Hl & Hp & Hu). exists s, sp, l. pose proof (ex_forkable s sp l A Hp) as F.
  eapply wp_mono; [apply (fork_exit_wait (ret tt) (ret tt) (fun _ => None) d_end d_data ex_files_at ex_inodes_at 500 2148600000 ltac:(done) 111 222 d_end_ok ltac:(by vm_compute) ltac:(done)
    _ _ _ _ _ (mkCpu 0 true true) (mkCpu 1 true false) F)|].
  - apply Exists_exists. exists zero_proc. split; [|done]. apply list_elem_of_lookup. by exists 1%nat.
  - change (npages (sz (ex_proc sp))) with 2. lia.
  - intros i q [[-> ->]|[Hi ->]]%ex_slots Hun; [done|]. split; [cbn; congruence|]. intros j q' [[-> ->]|[_ ->]]%ex_slots; done.
  - intros i q [[_ ->]|[_ ->]]%ex_slots; done.
  - done.
  - intros pid k1 (np & -> & _ & H). exists np. eapply wp_mono; [exact H|]. intros b k2 H2. eapply wp_mono; [exact H2|].
    intros r k3 [-> [_ [m Hm] (l' & Hp' & A' & _)]]. split; [done|]. exists l'. split_and!; [done|apply A'|by rewrite Hm].
Defined.

End Kernel.
