(* ===== verification/Mp.v ===== *)
(** * mp.c: the multiprocessor tables of the firmware

    [Module Mp] translates mp.c.  Pointers are physical addresses: the code reads low
    memory through the kernel's mapping.  A store past the end of [cpus] is the panic
    ["cpus overrun"], and the loop of [mpinit] has fuel: [Blocked] is a loop that has not
    ended.

    [mpinit_reads_table]: a table whose entries are of known types is read to its end;
    when it numbers the processors 0, 1, 2, ... the machine has that many, and otherwise
    one.  [mpinit_hangs]: at an entry of an unknown type the loop never ends. *)

From S2P Require Import Prelude Kalloc.

Module Mp.
Import Kalloc.

Definition NCPU : Z := 8.
Definition MPBOOT : Z := 2.
Definition MPPROC : Z := 0.
Definition MPBUS : Z := 1.
Definition MPIOAPIC : Z := 2.
Definition MPIOINTR : Z := 3.
Definition MPLINTR : Z := 4.

Definition sizeof_mp : Z := 16.
Definition sizeof_mpconf : Z := 44.
Definition sizeof_mpproc : Z := 20.
Definition sizeof_mpioapic : Z := 8.

Definition load16 (m : memory) (a : Z) : Z := m a + 256 * m (a + 1).

(** Fields of [struct mp] and [struct mpconf]. *)
Definition mp_physaddr (m : memory) (p : Z) : Z := load32 m (p + 4).
Definition mp_imcrp (m : memory) (p : Z) : Z := m (p + 12).
Definition conf_length (m : memory) (c : Z) : Z := load16 m (c + 4).
Definition conf_version (m : memory) (c : Z) : Z := m (c + 6).
Definition conf_lapicaddr (m : memory) (c : Z) : Z := load32 m (c + 36).

(** [sum], a [uchar]. *)
Fixpoint sum_loop (n : nat) (m : memory) (a : Z) (acc : Z) : Z :=
  match n with O => acc | S n' => sum_loop n' m (a + 1) (acc + m a) end.
Definition sum (m : memory) (addr len : Z) : Z := u8 (sum_loop (Z.to_nat len) m addr 0).

(** [memcmp(p, s, 4) == 0] *)
Definition signed (m : memory) (p : Z) (s : list Z) : bool :=
  forallb (fun i => m (p + Z.of_nat i) =? default 0 (s !! i)) (seq 0 4).

Fixpoint mpsearch_loop (fuel : nat) (m : memory) (p e : Z) : option Z :=
  match fuel with
  | O => None
  | S fuel' =>
      if p <? e then
        if signed m p (bytes "_MP_") && (sum m p sizeof_mp =? 0) then Some p else mpsearch_loop fuel' m (p + sizeof_mp) e
      else None
  end.
Definition mpsearch1 (m : memory) (a len : Z) : option Z := mpsearch_loop (S (Z.to_nat (len / sizeof_mp + 1))) m a (a + len).

Definition mpsearch (m : memory) : option Z :=
  let bda := 1024 in
  let p := Z.shiftl (Z.lor (Z.shiftl (m (bda + 15)) 8) (m (bda + 14))) 4 in
  let first :=
    if negb (p =? 0) then mpsearch1 m p 1024
    else let p := Z.lor (Z.shiftl (m (bda + 20)) 8) (m (bda + 19)) * 1024 in mpsearch1 m (u32 (p - 1024)) 1024 in
  match first with Some mp => Some mp | None => mpsearch1 m 983040 65536 end.

(** The floating pointer and the table. *)
Definition mpconfig (m : memory) : option (Z * Z) :=
  match mpsearch m with
  | None => None
  | Some mp =>
      if mp_physaddr m mp =? 0 then None
      else
        let conf := mp_physaddr m mp in
        if negb (signed m conf (bytes "PCMP")) then None
        else if negb (conf_version m conf =? 1) && negb (conf_version m conf =? 4) then None
        else if negb (sum m conf (conf_length m conf) =? 0) then None
        else Some (mp, conf)
  end.

(** The global variables; [cpu_ids] are [cpus[i].id], [imcr] whether the interrupt mode
    register was written. *)
Record mpstate := mkMp { bcpu : Z; ismp : bool; ncpu : Z; ioapicid : Z; lapic : Z; cpu_ids : list Z; imcr : bool }.

Definition set_ismp (b : bool) (s : mpstate) : mpstate := mkMp (bcpu s) b (ncpu s) (ioapicid s) (lapic s) (cpu_ids s) (imcr s).

Definition mpbcpu (s : mpstate) : Z := bcpu s.

(** [case MPPROC] for the entry at [p]. *)
Definition add_cpu (m : memory) (p : Z) : M mpstate unit :=
  modify (fun s => set_ismp (ismp s && (ncpu s =? m (p + 1))) s) ;;;
  modify (fun s => mkMp (if has_flag (m (p + 3)) MPBOOT then ncpu s else bcpu s) (ismp s) (ncpu s) (ioapicid s) (lapic s) (cpu_ids s) (imcr s)) ;;;
  let* n := gets ncpu in
  if NCPU <=? n then panic "cpus overrun"
  else modify (fun s => mkMp (bcpu s) (ismp s) (n + 1) (ioapicid s) (lapic s) (<[Z.to_nat n := u8 n]> (cpu_ids s)) (imcr s)).

Fixpoint mp_entries (fuel : nat) (m : memory) (p e : Z) : M mpstate unit :=
  match fuel with
  | O => block
  | S fuel' =>
      if p <? e then
        let t := m p in
        if t =? MPPROC then add_cpu m p ;;; mp_entries fuel' m (p + sizeof_mpproc) e
        else if t =? MPIOAPIC then
          modify (fun s => mkMp (bcpu s) (ismp s) (ncpu s) (m (p + 1)) (lapic s) (cpu_ids s) (imcr s)) ;;;
          mp_entries fuel' m (p + sizeof_mpioapic) e
        else if (t =? MPBUS) || (t =? MPIOINTR) || (t =? MPLINTR) then mp_entries fuel' m (p + 8) e
        else modify (set_ismp false) ;;; mp_entries fuel' m p e
      else ret tt
  end.

Definition mpinit (fuel : nat) (m : memory) : M mpstate unit :=
  modify (fun s => mkMp 0 (ismp s) (ncpu s) (ioapicid s) (lapic s) (cpu_ids s) (imcr s)) ;;;
  match mpconfig m with
  | None => ret tt
  | Some (mp, conf) =>
      modify (fun s => mkMp (bcpu s) true (ncpu s) (ioapicid s) (conf_lapicaddr m conf) (cpu_ids s) (imcr s)) ;;;
      mp_entries fuel m (conf + sizeof_mpconf) (conf + conf_length m conf) ;;;
      let* b := gets ismp in
      if negb b then modify (fun s => mkMp (bcpu s) (ismp s) 1 0 0 (cpu_ids s) (imcr s))
      else if negb (mp_imcrp m mp =? 0) then modify (fun s => mkMp (bcpu s) (ismp s) (ncpu s) (ioapicid s) (lapic s) (cpu_ids s) true)
      else ret tt
  end.

(** ** Tables *)

Inductive entry := EProc (apicid flags : Z) | EIoapic (no : Z) | EOther (t : Z).

Definition entry_size (e : entry) : Z := match e with EProc _ _ => sizeof_mpproc | EIoapic _ => sizeof_mpioapic | EOther _ => 8 end.

Definition entry_at (m : memory) (p : Z) (e : entry) : Prop :=
  match e with
  | EProc id fl => m p = MPPROC /\ m (p + 1) = id /\ m (p + 3) = fl
  | EIoapic no => m p = MPIOAPIC /\ m (p + 1) = no
  | EOther t => m p = t /\ (t = MPBUS \/ t = MPIOINTR \/ t = MPLINTR)
  end.

Fixpoint entries_at (m : memory) (p : Z) (es : list entry) : Prop :=
  match es with [] => True | e :: es' => entry_at m p e /\ entries_at m (p + entry_size e) es' end.

Definition table_size (es : list entry) : Z := foldr (fun e n => entry_size e + n) 0 es.

(** The processors of a table, and the last I/O APIC. *)
Fixpoint procs (es : list entry) : list (Z * Z) :=
  match es with [] => [] | EProc id fl :: es' => (id, fl) :: procs es' | _ :: es' => procs es' end.
Fixpoint last_ioapic (es : list entry) (d : Z) : Z :=
  match es with [] => d | EIoapic no :: es' => last_ioapic es' no | _ :: es' => last_ioapic es' d end.

(** They are numbered from [n] on. *)
Fixpoint numbered (ps : list (Z * Z)) (n : Z) : bool :=
  match ps with [] => true | (id, _) :: ps' => (n =? id) && numbered ps' (n + 1) end.
(** The last bootstrap processor. *)
Fixpoint boot_cpu (ps : list (Z * Z)) (n b : Z) : Z :=
  match ps with [] => b | (_, fl) :: ps' => boot_cpu ps' (n + 1) (if has_flag fl MPBOOT then n else b) end.
(** [cpus[i].id] after the processors. *)
Fixpoint set_ids (ps : list (Z * Z)) (n : Z) (ids : list Z) : list Z :=
  match ps with [] => ids | _ :: ps' => set_ids ps' (n + 1) (<[Z.to_nat n := u8 n]> ids) end.

Lemma set_ids_below ps n ids i : 0 <= i < n -> set_ids ps n ids !! Z.to_nat i = ids !! Z.to_nat i.
Proof.
  revert n ids. induction ps as [|p ps IH]; intros n ids Hi; [done|]. cbn [set_ids]. rewrite IH by lia. apply list_lookup_insert_ne. lia.
Qed.

Lemma set_ids_lookup ps n ids i : 0 <= n <= i -> i < n + Z.of_nat (length ps) -> i < 256 -> i < Z.of_nat (length ids) -> set_ids ps n ids !! Z.to_nat i = Some i.
Proof.
  revert n ids. induction ps as [|p ps IH]; intros n ids Hn Hi Hb Hl; [simpl in Hi; lia|]. cbn [set_ids length] in *.
  destruct (decide (i = n)) as [->|].
  - rewrite set_ids_below by lia. rewrite list_lookup_insert_eq by lia. by rewrite u8_small by (unfold is_byte; lia).
  - apply IH; [lia|lia|done|by rewrite length_insert].
Qed.

Lemma entry_size_pos e : 8 <= entry_size e.
Proof. by destruct e. Qed.

Lemma table_size_pos es : 8 * Z.of_nat (length es) <= table_size es.
Proof. induction es as [|e es IH]; [done|]. cbn [table_size foldr length]. fold (table_size es). pose proof (entry_size_pos e). lia. Qed.

Lemma mp_entries_spec m es fuel p s : entries_at m p es -> (length es < fuel)%nat -> ncpu s + Z.of_nat (length (procs es)) <= NCPU ->
  mp_entries fuel m p (p + table_size es) s =
    Ret tt (mkMp (boot_cpu (procs es) (ncpu s) (bcpu s)) (ismp s && numbered (procs es) (ncpu s)) (ncpu s + Z.of_nat (length (procs es)))
      (last_ioapic es (ioapicid s)) (lapic s) (set_ids (procs es) (ncpu s) (cpu_ids s)) (imcr s)).
Proof.
  revert fuel p s. induction es as [|e es IH]; intros [|fuel] p s He Hf Hn; simpl in Hf; try lia; cbn [mp_entries].
  - cbn [table_size foldr]. rewrite (proj2 (Z.ltb_ge _ _)) by lia. destruct s. unfold ret. cbn. by rewrite andb_true_r, Z.add_0_r.
  - destruct He as [He Hes]. pose proof (entry_size_pos e). pose proof (table_size_pos es). cbn [table_size foldr]. fold (table_size es).
    rewrite (proj2 (Z.ltb_lt _ _)) by lia. rewrite Z.add_assoc. destruct e as [id fl|no|t]; cbn [entry_at entry_size procs length] in *.
    + destruct He as (-> & <- & <-). cbn [Z.eqb MPPROC]. unfold add_cpu, bind, modify, gets. cbv beta iota. cbn [ncpu ismp bcpu set_ismp cpu_ids ioapicid lapic imcr].
      rewrite (proj2 (Z.leb_gt _ _)) by lia. rewrite IH; [|done|lia|cbn [ncpu]; lia]. cbn [ncpu ismp bcpu cpu_ids ioapicid lapic imcr boot_cpu numbered set_ids last_ioapic].
      rewrite <- andb_assoc. do 2 f_equal. lia.
    + destruct He as (-> & <-). change (MPIOAPIC =? MPPROC) with false. change (MPIOAPIC =? MPIOAPIC) with true. cbv iota. unfold bind, modify. cbv beta iota. rewrite IH; [done|done|lia|cbn [ncpu]; lia].
    + destruct He as (-> & [-> | [-> | ->]]); cbn [Z.eqb Pos.eqb MPPROC MPIOAPIC MPBUS MPIOINTR MPLINTR orb]; (rewrite IH; [done|done|lia|done]).
Qed.

(** A valid configuration: floating pointer [mp], table [conf] with the entries [es]. *)
Record configured (m : memory) (mp conf : Z) (es : list entry) : Prop := {
  cf_found : mpsearch m = Some mp;
  cf_addr : mp_physaddr m mp = conf;
  cf_nonzero : conf <> 0;
  cf_sig : signed m conf (bytes "PCMP") = true;
  cf_version : conf_version m conf = 1 \/ conf_version m conf = 4;
  cf_sum : sum m conf (conf_length m conf) = 0;
  cf_length : conf_length m conf = sizeof_mpconf + table_size es;
  cf_entries : entries_at m (conf + sizeof_mpconf) es
}.

Lemma configured_config m mp conf es : configured m mp conf es -> mpconfig m = Some (mp, conf).
Proof.
  intros [H1 H2 H3 H4 H5 H6 _ _]. unfold mpconfig. rewrite H1, H2, (proj2 (Z.eqb_neq _ _)), H4 by done. cbn [negb].
  assert (negb (conf_version m conf =? 1) && negb (conf_version m conf =? 4) = false) as -> by (by destruct H5 as [-> | ->]).
  by rewrite H6.
Qed.

(** What [mpinit] finds. *)
Definition found (es : list entry) (lapicaddr imcrp : Z) (s : mpstate) : mpstate :=
  let ids := set_ids (procs es) 0 (cpu_ids s) in
  if numbered (procs es) 0
  then mkMp (boot_cpu (procs es) 0 0) true (Z.of_nat (length (procs es))) (last_ioapic es (ioapicid s)) lapicaddr ids (negb (imcrp =? 0) || imcr s)
  else mkMp (boot_cpu (procs es) 0 0) false 1 0 0 ids (imcr s).

Lemma mpinit_eq m mp conf es fuel s : configured m mp conf es -> (length es < fuel)%nat -> ncpu s = 0 -> Z.of_nat (length (procs es)) <= NCPU ->
  mpinit fuel m s = Ret tt (found es (conf_lapicaddr m conf) (mp_imcrp m mp) s).
Proof.
  intros C Hf Hn0 Hn. unfold mpinit, bind, modify, gets. rewrite (configured_config _ _ _ _ C). cbv beta iota. cbn [ncpu ismp bcpu cpu_ids ioapicid lapic imcr].
  rewrite (cf_length _ _ _ _ C), Z.add_assoc, (mp_entries_spec m es) by (done || apply C || (cbn [ncpu]; lia)).
  cbn [ncpu ismp bcpu cpu_ids ioapicid lapic imcr]. rewrite Hn0. cbn [andb]. unfold found. destruct (numbered (procs es) 0); cbn [negb]; [|done].
  by destruct (negb (mp_imcrp m mp =? 0)).
Qed.

(** C38: for a table of known entry types with at most NCPU processors, mpinit ends, whatever the length of the table; when the table numbers the processors 0, 1, 2, ... it finds all of them, with their ids, the bootstrap processor, the I/O APIC and the local APIC; otherwise it falls back to one processor without APICs. *)
Theorem mpinit_reads_table m mp conf es fuel s : configured m mp conf es -> (length es < fuel)%nat -> ncpu s = 0 -> Z.of_nat (length (procs es)) <= NCPU ->
  exists s', mpinit fuel m s = Ret tt s' /\ mpbcpu s' = boot_cpu (procs es) 0 0 /\ cpu_ids s' = set_ids (procs es) 0 (cpu_ids s) /\
    ismp s' = numbered (procs es) 0 /\
    if numbered (procs es) 0
    then ncpu s' = Z.of_nat (length (procs es)) /\ ioapicid s' = last_ioapic es (ioapicid s) /\ lapic s' = conf_lapicaddr m conf
    else ncpu s' = 1 /\ ioapicid s' = 0 /\ lapic s' = 0.
Proof.
  intros C Hf Hn0 Hn. eexists. split; [by apply (mpinit_eq m mp conf es)|]. unfold mpbcpu, found. by destruct (numbered (procs es) 0).
Qed.

(** ** Tables in low memory *)

Section Low.
Context (m m' : memory) (Hlow : forall x, x < EXTMEM -> m' x = m x).

Lemma sum_loop_low n a acc : a + Z.of_nat n <= EXTMEM -> sum_loop n m' a acc = sum_loop n m a acc.
Proof using Hlow. revert a acc. induction n as [|n IH]; intros a acc Ha; [done|]. cbn [sum_loop]. rewrite Hlow by lia. apply IH. lia. Qed.

Lemma signed_low p s : p + 4 <= EXTMEM -> signed m' p s = signed m p s.
Proof using Hlow. intros Hp. unfold signed. cbn [seq forallb]. by rewrite !Hlow by lia. Qed.

Lemma load_low a : a + 4 <= EXTMEM -> load32 m' a = load32 m a.
Proof using Hlow. intros Ha. apply load_ext. intros i Hi. apply Hlow. lia. Qed.

Lemma search_low fuel p e : (e - p) mod 16 = 0 -> e <= EXTMEM -> mpsearch_loop fuel m' p e = mpsearch_loop fuel m p e.
Proof using Hlow.
  revert p. induction fuel as [|fuel IH]; intros p Hm He; [done|]. cbn [mpsearch_loop]. destruct (Z.ltb_spec p e); [|done].
  assert (p + 16 <= e) by dlia. unfold sum, sizeof_mp. rewrite signed_low, sum_loop_low by lia. rewrite IH; [done|dlia|done].
Qed.

Lemma entries_low es p : entries_at m p es -> p + table_size es <= EXTMEM -> entries_at m' p es.
Proof using Hlow.
  revert p. induction es as [|e es IH]; intros p; [done|]. cbn [entries_at table_size foldr]. fold (table_size es). intros [He Hes] Hp.
  pose proof (table_size_pos es). pose proof (entry_size_pos e). split; [|apply IH; [done|lia]].
  destruct e; cbn [entry_at] in *; rewrite !Hlow by lia; done.
Qed.

(** The EBDA, or the end of base memory, is below 1 MB, and so is the table. *)
Record low_tables (conf : Z) (es : list entry) : Prop := {
  lt_ebda : let p := Z.shiftl (Z.lor (Z.shiftl (m 1039) 8) (m 1038)) 4 in
    if negb (p =? 0) then p + 1024 <= EXTMEM else 1024 <= Z.lor (Z.shiftl (m 1044) 8) (m 1043) * 1024 <= EXTMEM;
  lt_mp : forall mp, mpsearch m = Some mp -> mp + sizeof_mp <= EXTMEM;
  lt_conf : conf + sizeof_mpconf + table_size es <= EXTMEM }.

Lemma mpsearch_low conf es : low_tables conf es -> mpsearch m' = mpsearch m.
Proof using Hlow.
  intros [He _ _]. unfold mpsearch, mpsearch1. change (1024 + 15) with 1039. change (1024 + 14) with 1038. change (1024 + 20) with 1044. change (1024 + 19) with 1043.
  rewrite !(Hlow 1039), !(Hlow 1038), !(Hlow 1044), !(Hlow 1043) by (unfold EXTMEM; lia). rewrite (search_low _ 983040) by (done || unfold EXTMEM; lia). cbv zeta in *.
  destruct (negb _).
  - rewrite search_low; [done|rewrite Z.add_simpl_l; done|done].
  - rewrite search_low; [done|rewrite Z.add_simpl_l; done|]. rewrite u32_small by (unfold is_u32, EXTMEM in *; lia). unfold EXTMEM in *. lia.
Qed.

Lemma configured_low mp conf es : configured m mp conf es -> low_tables conf es ->
  configured m' mp conf es /\ conf_lapicaddr m' conf = conf_lapicaddr m conf /\ mp_imcrp m' mp = mp_imcrp m mp.
Proof using Hlow.
  intros [H1 H2 H3 H4 H5 H6 H7 H8] L. assert (Hmp := lt_mp _ _ L mp H1). assert (Hc := lt_conf _ _ L). pose proof (table_size_pos es).
  unfold mp_physaddr, conf_lapicaddr, mp_imcrp, conf_length, conf_version, load16, sizeof_mp, sizeof_mpconf in *.
  assert (Hlen : m' (conf + 4) + 256 * m' (conf + 4 + 1) = m (conf + 4) + 256 * m (conf + 4 + 1)) by (by rewrite !Hlow by lia).
  split_and!; [|apply load_low; lia|apply Hlow; lia]. split.
  - by rewrite (mpsearch_low conf es).
  - unfold mp_physaddr. rewrite load_low by lia. done.
  - done.
  - rewrite signed_low by lia. done.
  - unfold conf_version. rewrite Hlow by lia. done.
  - unfold conf_length, load16. rewrite Hlen. unfold sum in *. rewrite sum_loop_low; [done|]. lia.
  - unfold conf_length, load16. by rewrite Hlen.
  - apply entries_low; [done|]. unfold sizeof_mpconf. lia.
Qed.
End Low.

(** ** Tables mpinit does not survive *)

(** The [default] case does not advance [p]: at an entry of unknown type the loop goes
    on for ever. *)
Lemma mpinit_hangs m p e fuel s : p < e -> 4 < m p -> mp_entries fuel m p e s = Blocked.
Proof.
  intros Hp Ht. revert s. induction fuel as [|fuel IH]; intros s; [done|]. cbn [mp_entries]. rewrite (proj2 (Z.ltb_lt p e)) by done.
  rewrite (proj2 (Z.eqb_neq _ MPPROC)), (proj2 (Z.eqb_neq _ MPIOAPIC)), (proj2 (Z.eqb_neq _ MPBUS)), (proj2 (Z.eqb_neq _ MPIOINTR)), (proj2 (Z.eqb_neq _ MPLINTR))
    by (unfold MPPROC, MPIOAPIC, MPBUS, MPIOINTR, MPLINTR; lia).
  cbn [orb]. unfold bind, modify. apply IH.
Qed.

(** More than [NCPU] processors run past the end of [cpus]. *)
Lemma mpinit_overruns m p s : ncpu s = NCPU -> add_cpu m p s = Panic "cpus overrun".
Proof. intros Hn. unfold add_cpu, bind, modify, gets. cbv beta iota. cbn [ncpu set_ismp]. by rewrite Hn. Qed.

(** ** A machine with two processors *)

Definition ex_table : list Z :=
  bytes "PCMP" ++ [100; 0; 4; 0] ++ replicate 28 0 ++ le_bytes 4 4276092928 ++ replicate 4 0 ++
  (([0; 0; 0; 3] ++ replicate 16 0) ++ ([0; 1; 0; 1] ++ replicate 16 0) ++ [2; 2; 0; 1; 0; 0; 0; 0] ++ [1; 0; 0; 0; 0; 0; 0; 0]).
Definition ex_mp : list Z := bytes "_MP_" ++ le_bytes 4 8192 ++ [1; 4; 0; 0; 0; 0; 0; 0].
Definition complete (l : list Z) (i : nat) : list Z := <[i := u8 (- foldr Z.add 0 l)]> l.
Definition ex_mem : memory := m_write (m_write (m_write (fun _ => 0) 1038 [0; 16]) 65536 (complete ex_mp 10)) 8192 (complete ex_table 7).
Definition ex_entries : list entry := [EProc 0 3; EProc 1 1; EIoapic 2; EOther 1].

Lemma ex_configured : configured ex_mem 65536 8192 ex_entries.
Proof.
  split; try (by vm_compute); [right; by vm_compute|]. vm_compute. repeat split. by left.
Qed.

Lemma mpinit_reads_table_witness : exists s', mpinit 10 ex_mem (mkMp 0 false 0 0 0 (replicate 8 0) false) = Ret tt s' /\ ncpu s' = 2 /\ ioapicid s' = 2.
Proof.
  destruct (mpinit_reads_table ex_mem 65536 8192 ex_entries 10 (mkMp 0 false 0 0 0 (replicate 8 0) false) ex_configured) as (s' & H & _ & _ & _ & H1 & H2 & _);
    [simpl; lia|done|by vm_compute|]. exists s'. split_and!; [exact H|exact H1|exact H2].
Defined.

End Mp.
