(* ===== verification/Devices.v ===== *)
(** * picirq.c, ioapic.c, lapic.c, timer.c, uart.c: the interrupt hardware

    [Module Devices] translates the drivers against the interface [Bus]: the port and
    memory-mapped accesses they make.  The instance [hw_bus] is the hardware as its
    documentation describes it: two 8259A interrupt controllers, the I/O APIC, the local
    APIC, the 8253 timer and the 8250 serial port.  [Blocked] is a wait for the local
    APIC that has not ended within its fuel.

    [irq_delivery]: after the initialisation and any sequence of enables, an enabled
    interrupt line reaches the processor exactly once, as the number [trap] dispatches
    on, and a line that was not enabled does not, on machines with and without APICs.
    [ap_starts]: [lapicstartap] starts the processor it names, and no other, at the given
    address.  [timer_rate]: the timer interrupts 100 times a second.  [uartinit_sends]:
    the serial port is set to 9600 baud and the greeting goes out in order. *)

From S2P Require Import Prelude Kalloc Syscall Mp.

Module Devices.
Import Syscall.

(** ** Accesses to devices *)

Class Bus (D : Type) := {
  outb : Z -> Z -> D -> D;
  inb : Z -> D -> Z * D;
  store16 : Z -> Z -> D -> D;
  store32 : Z -> Z -> D -> D;
  load32 : Z -> D -> Z * D }.

Definition IRQ_ERROR : Z := 19.
Definition IRQ_SLAVE : Z := 2.
Definition IO_PIC1 : Z := 32.
Definition IO_PIC2 : Z := 160.

Definition IOAPIC : Z := 4273995776.
Definition REG_ID : Z := 0.
Definition REG_VER : Z := 1.
Definition REG_TABLE : Z := 16.
Definition INT_DISABLED : Z := 65536.

Definition IO_TIMER1 : Z := 64.
Definition TIMER_FREQ : Z := 1193182.
Definition TIMER_DIV (x : Z) : Z := (TIMER_FREQ + x / 2) / x.
Definition TIMER_MODE : Z := IO_TIMER1 + 3.
Definition TIMER_SEL0 : Z := 0.
Definition TIMER_RATEGEN : Z := 4.
Definition TIMER_16BIT : Z := 48.

(** Registers of the local APIC, as indices of words. *)
Definition ID : Z := 8.
Definition VER : Z := 12.
Definition TPR : Z := 32.
Definition EOI : Z := 44.
Definition SVR : Z := 60.
Definition ENABLE : Z := 256.
Definition ESR : Z := 160.
Definition ICRLO : Z := 192.
Definition INIT : Z := 1280.
Definition STARTUP : Z := 1536.
Definition DELIVS : Z := 4096.
Definition ASSERT : Z := 16384.
Definition LEVEL : Z := 32768.
Definition BCAST : Z := 524288.
Definition ICRHI : Z := 196.
Definition TIMER : Z := 200.
Definition X1 : Z := 11.
Definition PERIODIC : Z := 131072.
Definition PCINT : Z := 208.
Definition LINT0 : Z := 212.
Definition LINT1 : Z := 216.
Definition ERROR : Z := 220.
Definition MASKED : Z := 65536.
Definition TICR : Z := 224.
Definition TDCR : Z := 248.
Definition IO_RTC : Z := 112.

Definition COM1 : Z := 1016.

(** The variables of the drivers, with what mp.c has found; [n_warned] is the static
    counter of [cpunum], [said] the formats given to [cprintf]. *)
Record kdev (D : Type) := mkDev {
  dev : D; irqmask : Z; ioapic : Z; uart : bool; mps : Mp.mpstate; n_warned : Z; said : list string }.
Arguments mkDev {D} _ _ _ _ _ _ _.
Arguments dev {D} _.
Arguments irqmask {D} _.
Arguments ioapic {D} _.
Arguments uart {D} _.
Arguments mps {D} _.
Arguments n_warned {D} _.
Arguments said {D} _.

(** The initial value of [irqmask]. *)
Definition irqmask0 : Z := Z.land 65535 (Z.lnot (Z.shiftl 1 IRQ_SLAVE)).

Section Drivers.
Context {D : Type} `{Bus D}.
Implicit Types s : kdev D.

Definition set_dev (d : D) s : kdev D := mkDev d (irqmask s) (ioapic s) (uart s) (mps s) (n_warned s) (said s).
Definition set_irqmask (m : Z) s : kdev D := mkDev (dev s) m (ioapic s) (uart s) (mps s) (n_warned s) (said s).
Definition set_ioapic (a : Z) s : kdev D := mkDev (dev s) (irqmask s) a (uart s) (mps s) (n_warned s) (said s).
Definition set_uart (b : bool) s : kdev D := mkDev (dev s) (irqmask s) (ioapic s) b (mps s) (n_warned s) (said s).
Definition set_warned (n : Z) s : kdev D := mkDev (dev s) (irqmask s) (ioapic s) (uart s) (mps s) n (said s).
Definition say (m : string) : M (kdev D) unit :=
  modify (fun s => mkDev (dev s) (irqmask s) (ioapic s) (uart s) (mps s) (n_warned s) (said s ++ [m])).

Definition out (port v : Z) : M (kdev D) unit := modify (fun s => set_dev (outb port (u8 v) (dev s)) s).
Definition inp (port : Z) : M (kdev D) Z := fun s => let '(v, d) := inb port (dev s) in Ret v (set_dev d s).
Definition st16 (a v : Z) : M (kdev D) unit := modify (fun s => set_dev (store16 a (u16 v) (dev s)) s).
Definition st32 (a v : Z) : M (kdev D) unit := modify (fun s => set_dev (store32 a (u32 v) (dev s)) s).
Definition ld32 (a : Z) : M (kdev D) Z := fun s => let '(v, d) := load32 a (dev s) in Ret v (set_dev d s).

(** ** picirq.c *)

Definition picsetmask (mask : Z) : M (kdev D) unit :=
  modify (set_irqmask mask) ;;;
  out (IO_PIC1 + 1) mask ;;;
  out (IO_PIC2 + 1) (Z.shiftr mask 8).

Definition picenable (irq : Z) : M (kdev D) unit :=
  let* m := gets irqmask in
  picsetmask (u16 (Z.land m (Z.lnot (Z.shiftl 1 irq)))).

Definition picinit : M (kdev D) unit :=
  out (IO_PIC1 + 1) 255 ;;;
  out (IO_PIC2 + 1) 255 ;;;
  out IO_PIC1 17 ;;;
  out (IO_PIC1 + 1) T_IRQ0 ;;;
  out (IO_PIC1 + 1) (Z.shiftl 1 IRQ_SLAVE) ;;;
  out (IO_PIC1 + 1) 3 ;;;
  out IO_PIC2 17 ;;;
  out (IO_PIC2 + 1) (T_IRQ0 + 8) ;;;
  out (IO_PIC2 + 1) IRQ_SLAVE ;;;
  out (IO_PIC2 + 1) 3 ;;;
  out IO_PIC1 104 ;;;
  out IO_PIC1 10 ;;;
  out IO_PIC2 104 ;;;
  out IO_PIC2 10 ;;;
  let* m := gets irqmask in
  if negb (m =? 65535) then picsetmask m else ret tt.

(** ** ioapic.c *)

Definition ioapicread (reg : Z) : M (kdev D) Z :=
  let* a := gets ioapic in
  st32 a reg ;;;
  ld32 (a + 16).

Definition ioapicwrite (reg data : Z) : M (kdev D) unit :=
  let* a := gets ioapic in
  st32 a reg ;;;
  st32 (a + 16) data.

Definition ioapicinit : M (kdev D) unit :=
  let* m := gets mps in
  if negb (Mp.ismp m) then ret tt
  else
    modify (set_ioapic IOAPIC) ;;;
    let* v := ioapicread REG_VER in
    let maxintr := Z.land (Z.shiftr v 16) 255 in
    let* r := ioapicread REG_ID in
    let id := Z.shiftr r 24 in
    (if negb (id =? Mp.ioapicid m) then say "ioapicinit: id isn't equal to ioapicid; not a MP" else ret tt) ;;;
    for_upto (Z.to_nat (maxintr + 1)) 0 (fun i =>
      ioapicwrite (REG_TABLE + 2 * Z.of_nat i) (Z.lor INT_DISABLED (T_IRQ0 + Z.of_nat i)) ;;;
      ioapicwrite (REG_TABLE + 2 * Z.of_nat i + 1) 0).

Definition ioapicenable (irq cpunum : Z) : M (kdev D) unit :=
  let* m := gets mps in
  if negb (Mp.ismp m) then ret tt
  else
    ioapicwrite (REG_TABLE + 2 * irq) (T_IRQ0 + irq) ;;;
    ioapicwrite (REG_TABLE + 2 * irq + 1) (Z.shiftl cpunum 24).

(** ** timer.c *)

Definition timerinit : M (kdev D) unit :=
  out TIMER_MODE (Z.lor (Z.lor TIMER_SEL0 TIMER_RATEGEN) TIMER_16BIT) ;;;
  out IO_TIMER1 (TIMER_DIV 100 mod 256) ;;;
  out IO_TIMER1 (TIMER_DIV 100 / 256) ;;;
  picenable IRQ_TIMER.

(** ** lapic.c *)

Definition lapicr (index : Z) : M (kdev D) Z := let* m := gets mps in ld32 (Mp.lapic m + 4 * index).

Definition lapicw (index value : Z) : M (kdev D) unit :=
  let* m := gets mps in
  st32 (Mp.lapic m + 4 * index) value ;;;
  let* _ := lapicr ID in
  ret tt.

(** [while(lapic[ICRLO] & DELIVS);] *)
Fixpoint delivs_wait (fuel : nat) : M (kdev D) unit :=
  match fuel with
  | O => block
  | S fuel' => let* v := lapicr ICRLO in if Z.land v DELIVS =? 0 then ret tt else delivs_wait fuel'
  end.

Definition lapicinit (fuel : nat) : M (kdev D) unit :=
  let* m := gets mps in
  if Mp.lapic m =? 0 then ret tt
  else
    lapicw SVR (Z.lor ENABLE (T_IRQ0 + IRQ_SPURIOUS)) ;;;
    lapicw TDCR X1 ;;;
    lapicw TIMER (Z.lor PERIODIC (T_IRQ0 + IRQ_TIMER)) ;;;
    lapicw TICR 10000000 ;;;
    lapicw LINT0 MASKED ;;;
    lapicw LINT1 MASKED ;;;
    let* v := lapicr VER in
    (if 4 <=? Z.land (Z.shiftr v 16) 255 then lapicw PCINT MASKED else ret tt) ;;;
    lapicw ERROR (T_IRQ0 + IRQ_ERROR) ;;;
    lapicw ESR 0 ;;;
    lapicw ESR 0 ;;;
    lapicw EOI 0 ;;;
    lapicw ICRHI 0 ;;;
    lapicw ICRLO (Z.lor (Z.lor BCAST INIT) LEVEL) ;;;
    delivs_wait fuel ;;;
    lapicw TPR 0.

(** [cpunum]; [intr_on] is the interrupt flag of the caller. *)
Definition cpunum (intr_on : bool) : M (kdev D) Z :=
  (if intr_on then
     let* n := gets n_warned in
     modify (set_warned (s32 (n + 1))) ;;;
     if n =? 0 then say "cpu called from %x with interrupts enabled" else ret tt
   else ret tt) ;;;
  let* m := gets mps in
  if negb (Mp.lapic m =? 0) then let* v := lapicr ID in ret (Z.shiftr v 24) else ret 0.

Definition lapiceoi : M (kdev D) unit :=
  let* m := gets mps in
  if negb (Mp.lapic m =? 0) then lapicw EOI 0 else ret tt.

Definition microdelay (us : Z) : M (kdev D) unit := ret tt.

Definition lapicstartap (apicid addr : Z) : M (kdev D) unit :=
  out IO_RTC 15 ;;;
  out (IO_RTC + 1) 10 ;;;
  let wrv := Kalloc.KERNBASE + Z.lor (Z.shiftl 64 4) 103 in
  st16 wrv 0 ;;;
  st16 (wrv + 2) (Z.shiftr addr 4) ;;;
  lapicw ICRHI (Z.shiftl apicid 24) ;;;
  lapicw ICRLO (Z.lor (Z.lor INIT LEVEL) ASSERT) ;;;
  microdelay 200 ;;;
  lapicw ICRLO (Z.lor INIT LEVEL) ;;;
  microdelay 100 ;;;
  for_upto 2 0 (fun _ =>
    lapicw ICRHI (Z.shiftl apicid 24) ;;;
    lapicw ICRLO (Z.lor STARTUP (Z.shiftr addr 12)) ;;;
    microdelay 200).

(** ** uart.c *)

(** [for(i = 0; i < 128 && !(inb(COM1+5) & 0x20); i++) microdelay(10);] with [n]
    rounds left. *)
Fixpoint uart_wait (n : nat) : M (kdev D) unit :=
  match n with
  | O => ret tt
  | S n' => let* v := inp (COM1 + 5) in if Z.land v 32 =? 0 then microdelay 10 ;;; uart_wait n' else ret tt
  end.

Definition uartputc (c : Z) : M (kdev D) unit :=
  let* u := gets uart in
  if negb u then ret tt else uart_wait 128 ;;; out COM1 c.

Fixpoint uartputs (l : list Z) : M (kdev D) unit :=
  match l with
  | [] => ret tt
  | c :: l' => uartputc c ;;; uartputs l'
  end.

Definition uartinit : M (kdev D) unit :=
  out (COM1 + 2) 0 ;;;
  out (COM1 + 3) 128 ;;;
  out COM1 (115200 / 9600) ;;;
  out (COM1 + 1) 0 ;;;
  out (COM1 + 3) 3 ;;;
  out (COM1 + 4) 0 ;;;
  out (COM1 + 1) 1 ;;;
  let* st := inp (COM1 + 5) in
  if st =? 255 then ret tt
  else
    modify (set_uart true) ;;;
    let* _ := inp (COM1 + 2) in
    let* _ := inp COM1 in
    picenable IRQ_COM1 ;;;
    ioapicenable IRQ_COM1 0 ;;;
    uartputs (bytes "xv6..." ++ [10]).

Definition uartgetc : M (kdev D) Z :=
  let* u := gets uart in
  if negb u then ret (-1)
  else
    let* st := inp (COM1 + 5) in
    if Z.land st 1 =? 0 then ret (-1) else inp COM1.
End Drivers.

(** ** The hardware *)

(** An 8259A: the base of its vectors, its mask, its place in the cascade and the
    number of initialisation words it still expects. *)
Record pic := mkPic { vec_base : Z; imr : Z; icw3 : Z; icw : nat }.

(** A command with bit 4 starts the initialisation, which clears the mask. *)
Definition pic_cmd (v : Z) (p : pic) : pic := if Z.testbit v 4 then mkPic (vec_base p) 0 (icw3 p) 3 else p.
Definition pic_data (v : Z) (p : pic) : pic :=
  match icw p with
  | 3%nat => mkPic (Z.land v 248) (imr p) (icw3 p) 2
  | 2%nat => mkPic (vec_base p) (imr p) v 1
  | 1%nat => mkPic (vec_base p) (imr p) (icw3 p) 0
  | _ => mkPic (vec_base p) v (icw3 p) 0
  end.

(** Counter 0 of the 8253: its mode word, the low byte of a count being written. *)
Record pit := mkPit { pit_mode : Z; pit_low : option Z; pit_count : Z }.
Definition pit_data (v : Z) (p : pit) : pit :=
  match pit_low p with
  | None => mkPit (pit_mode p) (Some v) (pit_count p)
  | Some l => mkPit (pit_mode p) None (l + 256 * v)
  end.

(** The 8250: line control, divisor, interrupt enable, the characters sent and received,
    and how often the status register still reads as busy; [tx_time] is that number
    after a character.  A character written while the last one is pending replaces it. *)
Record com := mkCom {
  present : bool; lcr : Z; dll : Z; dlm : Z; ier : Z; sent : list Z; rx : list Z; tx_busy : nat; tx_time : nat }.
Definition com_out (reg v : Z) (c : com) : com :=
  if reg =? 0 then
    if Z.testbit (lcr c) 7 then mkCom (present c) (lcr c) v (dlm c) (ier c) (sent c) (rx c) (tx_busy c) (tx_time c)
    else mkCom (present c) (lcr c) (dll c) (dlm c) (ier c)
           (match tx_busy c with O => sent c | S _ => take (length (sent c) - 1) (sent c) end ++ [v]) (rx c) (tx_time c) (tx_time c)
  else if reg =? 1 then
    if Z.testbit (lcr c) 7 then mkCom (present c) (lcr c) (dll c) v (ier c) (sent c) (rx c) (tx_busy c) (tx_time c)
    else mkCom (present c) (lcr c) (dll c) (dlm c) v (sent c) (rx c) (tx_busy c) (tx_time c)
  else if reg =? 3 then mkCom (present c) v (dll c) (dlm c) (ier c) (sent c) (rx c) (tx_busy c) (tx_time c)
  else c.
Definition com_in (reg : Z) (c : com) : Z * com :=
  if negb (present c) then (255, c)
  else if reg =? 0 then
    (hd 0 (rx c), mkCom (present c) (lcr c) (dll c) (dlm c) (ier c) (sent c) (tail (rx c)) (tx_busy c) (tx_time c))
  else if reg =? 5 then
    ((match rx c with [] => 0 | _ => 1 end) + (match tx_busy c with O => 96 | S _ => 0 end),
     mkCom (present c) (lcr c) (dll c) (dlm c) (ier c) (sent c) (rx c) (pred (tx_busy c)) (tx_time c))
  else (0, c).

(** The local APIC at [la_base]: its registers, the interrupts it sent to other
    processors as pairs of the command registers, and how often the delivery status still
    reads as pending. *)
Record lapics := mkLapic { la_base : Z; la_regs : Z -> Z; ipis : list (Z * Z); la_busy : nat; la_time : nat }.
Definition reg_set (f : Z -> Z) (k v : Z) : Z -> Z := fun x => if x =? k then v else f x.
Definition la_write (k v : Z) (l : lapics) : lapics :=
  if k =? ICRLO then mkLapic (la_base l) (reg_set (la_regs l) k v) (ipis l ++ [(la_regs l ICRHI, v)]) (la_time l) (la_time l)
  else mkLapic (la_base l) (reg_set (la_regs l) k v) (ipis l) (la_busy l) (la_time l).
Definition la_read (k : Z) (l : lapics) : Z * lapics :=
  if k =? ICRLO then
    (match la_busy l with O => Z.ldiff (la_regs l k) DELIVS | S _ => Z.lor (la_regs l k) DELIVS end,
     mkLapic (la_base l) (la_regs l) (ipis l) (pred (la_busy l)) (la_time l))
  else (la_regs l k, l).

Record hw := mkHw {
  master : pic; slave : pic; timer : pit; serial : com;
  io_sel : Z; io_regs : Z -> Z; local : lapics;
  rtc_sel : Z; rtc : Z -> Z; warm : Z -> Z }.

Definition set_pics (m s : pic) (h : hw) : hw := mkHw m s (timer h) (serial h) (io_sel h) (io_regs h) (local h) (rtc_sel h) (rtc h) (warm h).
Definition set_timer (t : pit) (h : hw) : hw := mkHw (master h) (slave h) t (serial h) (io_sel h) (io_regs h) (local h) (rtc_sel h) (rtc h) (warm h).
Definition set_serial (c : com) (h : hw) : hw := mkHw (master h) (slave h) (timer h) c (io_sel h) (io_regs h) (local h) (rtc_sel h) (rtc h) (warm h).
Definition set_io (sel : Z) (f : Z -> Z) (h : hw) : hw := mkHw (master h) (slave h) (timer h) (serial h) sel f (local h) (rtc_sel h) (rtc h) (warm h).
Definition set_local (l : lapics) (h : hw) : hw := mkHw (master h) (slave h) (timer h) (serial h) (io_sel h) (io_regs h) l (rtc_sel h) (rtc h) (warm h).
Definition set_rtc (sel : Z) (f : Z -> Z) (h : hw) : hw := mkHw (master h) (slave h) (timer h) (serial h) (io_sel h) (io_regs h) (local h) sel f (warm h).
Definition set_warm (f : Z -> Z) (h : hw) : hw := mkHw (master h) (slave h) (timer h) (serial h) (io_sel h) (io_regs h) (local h) (rtc_sel h) (rtc h) f.

Definition hw_outb (port v : Z) (h : hw) : hw :=
  if port =? IO_PIC1 then set_pics (pic_cmd v (master h)) (slave h) h
  else if port =? IO_PIC1 + 1 then set_pics (pic_data v (master h)) (slave h) h
  else if port =? IO_PIC2 then set_pics (master h) (pic_cmd v (slave h)) h
  else if port =? IO_PIC2 + 1 then set_pics (master h) (pic_data v (slave h)) h
  else if port =? TIMER_MODE then set_timer (mkPit v None (pit_count (timer h))) h
  else if port =? IO_TIMER1 then set_timer (pit_data v (timer h)) h
  else if port =? IO_RTC then set_rtc v (rtc h) h
  else if port =? IO_RTC + 1 then set_rtc (rtc_sel h) (reg_set (rtc h) (rtc_sel h) v) h
  else if (COM1 <=? port) && (port <? COM1 + 8) then set_serial (com_out (port - COM1) v (serial h)) h
  else h.

Definition hw_inb (port : Z) (h : hw) : Z * hw :=
  if (COM1 <=? port) && (port <? COM1 + 8)
  then let '(v, c) := com_in (port - COM1) (serial h) in (v, set_serial c h)
  else (0, h).

(** The I/O APIC has a register that selects and one that accesses; its version and
    its identification are not writable here. *)
Definition hw_store32 (a v : Z) (h : hw) : hw :=
  if a =? IOAPIC then set_io v (io_regs h) h
  else if a =? IOAPIC + 16 then set_io (io_sel h) (if io_sel h <? REG_TABLE then io_regs h else reg_set (io_regs h) (io_sel h) v) h
  else set_local (la_write ((a - la_base (local h)) / 4) v (local h)) h.

Definition hw_load32 (a : Z) (h : hw) : Z * hw :=
  if a =? IOAPIC + 16 then (io_regs h (io_sel h), h)
  else let '(v, l) := la_read ((a - la_base (local h)) / 4) (local h) in (v, set_local l h).

#[export] Instance hw_bus : Bus hw := {
  outb := hw_outb; inb := hw_inb; store16 := fun a v h => set_warm (reg_set (warm h) a v) h;
  store32 := hw_store32; load32 := hw_load32 }.

(** ** Delivery of interrupts *)

(** The number the 8259A pair raises for line [irq]: the slave answers through the line
    of the master its third word names. *)
Definition pic_vector (h : hw) (irq : Z) : option Z :=
  if irq <? 8 then if Z.testbit (imr (master h)) irq then None else Some (vec_base (master h) + irq)
  else if Z.testbit (imr (master h)) (icw3 (slave h)) || Z.testbit (imr (slave h)) (irq - 8) then None
  else Some (vec_base (slave h) + (irq - 8)).

(** An entry of the redirection table: the number and the APIC it is sent to. *)
Definition io_route (h : hw) (irq : Z) : option (Z * Z) :=
  let low := io_regs h (REG_TABLE + 2 * irq) in
  if Z.testbit low 16 then None else Some (Z.land low 255, Z.shiftr (io_regs h (REG_TABLE + 2 * irq + 1)) 24).

(** What a processor gets for line [irq]: the output of the 8259A pair is its LINT0. *)
Definition delivers (h : hw) (irq : Z) : list (Z * option Z) :=
  (if Z.testbit (la_regs (local h) LINT0) 16 then []
   else match pic_vector h irq with Some n => [(n, None)] | None => [] end) ++
  match io_route h irq with Some (n, a) => [(n, Some a)] | None => [] end.

(** The drivers enable their lines in both controllers. *)
Fixpoint enables (l : list (Z * Z)) : M (kdev hw) unit :=
  match l with
  | [] => ret tt
  | (irq, c) :: l' => (picenable irq ;;; ioapicenable irq c) ;;; enables l'
  end.

Definition boot_irqs (fuel : nat) (l : list (Z * Z)) : M (kdev hw) unit :=
  (lapicinit fuel ;;; picinit ;;; ioapicinit) ;;; enables l.

(** The processor the last enable of [irq] names. *)
Fixpoint last_cpu (irq : Z) (l : list (Z * Z)) : option Z :=
  match l with
  | [] => None
  | (i, c) :: l' => match last_cpu irq l' with Some c' => Some c' | None => if i =? irq then Some c else None end
  end.

(** *** The local APIC *)

(** The local APIC is where mp.c found it, apart from the I/O APIC. *)
Definition la_ok (s : kdev hw) : Prop :=
  Mp.lapic (mps s) = la_base (local (dev s)) /\ (IOAPIC + 4096 <= la_base (local (dev s)) \/ la_base (local (dev s)) + 4096 <= IOAPIC).

Definition put_la (l : lapics) (s : kdev hw) : kdev hw := set_dev (set_local l (dev s)) s.

Lemma put_la_self s : put_la (local (dev s)) s = s.
Proof. by destruct s as [[] ? ? ? ? ? ?]. Qed.

Lemma la_write_base k v l : la_base (la_write k v l) = la_base l.
Proof. unfold la_write. by destruct (_ =? _). Qed.

Lemma la_write_time k v l : la_time (la_write k v l) = la_time l.
Proof. unfold la_write. by destruct (_ =? _). Qed.

Lemma la_regs_write k v l j : la_regs (la_write k v l) j = if j =? k then v else la_regs l j.
Proof. unfold la_write. by destruct (k =? ICRLO). Qed.

Lemma ipis_write k v l : ipis (la_write k v l) = if k =? ICRLO then ipis l ++ [(la_regs l ICRHI, v)] else ipis l.
Proof. unfold la_write. by destruct (k =? ICRLO). Qed.

Lemma la_busy_write k v l : la_busy (la_write k v l) = if k =? ICRLO then la_time l else la_busy l.
Proof. unfold la_write. by destruct (k =? ICRLO). Qed.

Lemma la_index b i : (b + 4 * i - b) / 4 = i.
Proof. replace (b + 4 * i - b) with (i * 4) by lia. by apply Z.div_mul. Qed.

Section LocalApic.
Context (s : kdev hw) (Hok : la_ok s).
Implicit Types l : lapics.

Lemma wp_lapicr i l Q : la_base l = la_base (local (dev s)) -> 0 <= i < 1024 ->
  Q (fst (la_read i l)) (put_la (snd (la_read i l)) s) -> wp (lapicr i) Q (put_la l s).
Proof using Hok.
  intros Hb Hi HQ. destruct Hok as [Ha Hd]. unfold wp, lapicr, bind, gets, ld32. cbn [mps put_la set_dev dev load32 hw_bus].
  unfold hw_load32. cbn [local set_local]. rewrite (proj2 (Z.eqb_neq _ _)) by lia. rewrite Ha, <- Hb, la_index.
  by destruct (la_read i l).
Qed.

Lemma wp_lapicw i v l Q : la_base l = la_base (local (dev s)) -> 0 <= i < 1024 ->
  Q tt (put_la (la_write i (u32 v) l) s) -> wp (lapicw i v) Q (put_la l s).
Proof using Hok.
  intros Hb Hi HQ. pose proof Hok as [Ha Hd]. unfold lapicw. apply wp_bind, wp_gets, wp_bind, wp_modify.
  replace (set_dev _ (put_la l s)) with (put_la (la_write i (u32 v) l) s).
  - apply wp_bind, wp_lapicr; [by rewrite la_write_base|by unfold ID|]. done.
  - cbn [mps put_la set_dev dev store32 hw_bus]. unfold hw_store32. cbn [local set_local].
    rewrite !(proj2 (Z.eqb_neq _ _)) by lia. by rewrite Ha, <- Hb, la_index.
Qed.

(** The wait for the delivery ends. *)
Lemma delivs_wait_wp fuel l Q : la_base l = la_base (local (dev s)) -> (la_busy l < fuel)%nat ->
  Q tt (put_la (mkLapic (la_base l) (la_regs l) (ipis l) 0 (la_time l)) s) -> wp (delivs_wait fuel) Q (put_la l s).
Proof using Hok.
  revert l. induction fuel as [|fuel IH]; intros l Hb Hf HQ; [lia|]. cbn [delivs_wait].
  apply wp_bind, wp_lapicr; [done|by unfold ICRLO|]. unfold la_read. rewrite Z.eqb_refl. cbn [fst snd].
  destruct (la_busy l) as [|n] eqn:En.
  - replace (Z.land (Z.ldiff _ _) _) with 0; [by apply wp_ret|]. rewrite Z.land_comm, Z.ldiff_land, Z.land_comm, <- Z.land_assoc.
    by rewrite (Z.land_comm (Z.lnot _)), Z.land_lnot_diag, Z.land_0_r.
  - destruct (Z.eqb_spec (Z.land (Z.lor (la_regs l ICRLO) DELIVS) DELIVS) 0) as [E|_].
    + apply (f_equal (fun z => Z.testbit z 12)) in E. rewrite Z.land_spec, Z.lor_spec in E. unfold DELIVS in E.
      change (Z.testbit 4096 12) with true in E. by rewrite orb_true_r in E.
    + apply IH; [done|simpl; lia|]. done.
Qed.
End LocalApic.

(** What [lapicinit] sets. *)
Record la_set (old l : lapics) : Prop := {
  ls_base : la_base l = la_base old;
  ls_svr : la_regs l SVR = ENABLE + (T_IRQ0 + IRQ_SPURIOUS);
  ls_timer : la_regs l TIMER = PERIODIC + (T_IRQ0 + IRQ_TIMER);
  ls_count : la_regs l TICR = 10000000;
  ls_lint0 : la_regs l LINT0 = MASKED;
  ls_lint1 : la_regs l LINT1 = MASKED;
  ls_error : la_regs l ERROR = T_IRQ0 + IRQ_ERROR;
  ls_tpr : la_regs l TPR = 0;
  ls_ipis : ipis l = ipis old ++ [(0, BCAST + INIT + LEVEL)];
  ls_busy : la_busy l = 0%nat;
  ls_id : la_regs l ID = la_regs old ID }.

Ltac la_field Hr :=
  rewrite la_regs_write; cbn [la_regs]; rewrite ?la_regs_write, ?Hr by done; rewrite ?la_regs_write; reflexivity.
Ltac la_go := apply wp_bind, wp_lapicw; [done|by rewrite ?la_write_base|by vm_compute|].

Lemma lapicinit_wp fuel s : la_ok s -> Mp.lapic (mps s) <> 0 -> (la_time (local (dev s)) < fuel)%nat ->
  wp (lapicinit fuel) (fun _ s' => exists l, s' = put_la l s /\ la_set (local (dev s)) l) s.
Proof.
  intros Hok Hn Hf. unfold lapicinit. apply wp_bind, wp_gets. rewrite (proj2 (Z.eqb_neq _ _) Hn).
  match goal with |- wp ?m ?Q _ => enough (wp m Q (put_la (local (dev s)) s)) by (by rewrite put_la_self in *) end.
  do 6 la_go.
  apply wp_bind, wp_lapicr; [done|by rewrite !la_write_base|by vm_compute|]. cbn [la_read snd]. apply wp_bind.
  set (l0 := la_write LINT1 _ _). change (snd (la_read VER l0)) with l0.
  eapply (wp_mono _ (fun _ s' => exists l1, s' = put_la l1 s /\ la_base l1 = la_base l0 /\ la_time l1 = la_time l0 /\
    ipis l1 = ipis l0 /\ forall k, k <> PCINT -> la_regs l1 k = la_regs l0 k)).
  { destruct (4 <=? _).
    - apply wp_lapicw; [done|by unfold l0; rewrite !la_write_base|by vm_compute|]. eexists. split; [done|]. split_and!; [done..|].
      intros k Hk. simpl. unfold reg_set. by rewrite (proj2 (Z.eqb_neq _ _) Hk).
    - apply wp_ret. by exists l0. }
  intros [] s1 (l1 & -> & Hb & Ht & Hi & Hr).
  assert (Hb1 : la_base l1 = la_base (local (dev s))) by (rewrite Hb; unfold l0; by rewrite !la_write_base).
  do 6 la_go. apply wp_bind, delivs_wait_wp; [done|by rewrite !la_write_base| |].
  { rewrite la_busy_write. cbn [Z.eqb Pos.eqb ICRLO]. rewrite !la_write_time, Ht. unfold l0. by rewrite !la_write_time. }
  apply wp_lapicw; [done|by cbn [la_base]; rewrite !la_write_base|by vm_compute|]. eexists. split; [done|].
  split; [|la_field Hr ..| | |].
  - rewrite la_write_base. cbn [la_base]. by rewrite !la_write_base.
  - rewrite ipis_write. cbn [Z.eqb Pos.eqb TPR ICRLO ipis]. rewrite !ipis_write, !la_regs_write, Hi. unfold l0. by rewrite !ipis_write.
  - by rewrite la_busy_write.
  - la_field Hr.
Qed.

(** *** The interrupt controllers *)

(** Both 8259A are initialised and show [irqmask]. *)
Definition pics_show (s : kdev hw) : Prop :=
  0 <= irqmask s < 65536 /\
  master (dev s) = mkPic T_IRQ0 (u8 (irqmask s)) 4 0 /\ slave (dev s) = mkPic (T_IRQ0 + 8) (Z.shiftr (irqmask s) 8) IRQ_SLAVE 0.

(** The state up to the 8259A and the I/O APIC. *)
Definition put_irq (mask : Z) (m sl : pic) (s : kdev hw) : kdev hw := set_irqmask mask (set_dev (set_pics m sl (dev s)) s).
Definition put_io (sel : Z) (f : Z -> Z) (s : kdev hw) : kdev hw := set_dev (set_io sel f (dev s)) s.

Lemma picinit_eq s : irqmask s = irqmask0 ->
  picinit s = Ret tt (put_irq irqmask0 (mkPic T_IRQ0 (u8 irqmask0) 4 0) (mkPic (T_IRQ0 + 8) (Z.shiftr irqmask0 8) IRQ_SLAVE 0) s).
Proof. destruct s as [[[] [] ? ? ? ? ? ? ? ?] m ? ? ? ? ?]. cbn [irqmask]. intros ->. by vm_compute. Qed.

Lemma mask_clear_bit m irq i : 0 <= irq -> 0 <= i -> Z.testbit (Z.land m (Z.lnot (Z.shiftl 1 irq))) i = Z.testbit m i && negb (i =? irq).
Proof.
  intros Hq Hi. rewrite Z.land_spec, Z.lnot_spec by done. do 2 f_equal. rewrite Z.shiftl_1_l, Z.pow2_bits_eqb by done. apply Z.eqb_sym.
Qed.

Lemma clear_range m irq : 0 <= m < 65536 -> 0 <= irq -> 0 <= Z.land m (Z.lnot (Z.shiftl 1 irq)) < 65536.
Proof.
  intros Hm Hq. set (m' := Z.land _ _). enough (m' = m' mod 2 ^ 16) as -> by (apply Z.mod_pos_bound; lia).
  apply Z.bits_inj'. intros i Hi. destruct (decide (i < 16)); [by rewrite Z.mod_pow2_bits_low|].
  rewrite Z.mod_pow2_bits_high by lia. unfold m'. rewrite mask_clear_bit by done.
  rewrite <- (Z.mod_small m (2 ^ 16)) by lia. by rewrite Z.mod_pow2_bits_high by lia.
Qed.

Lemma picenable_wp irq s Q : pics_show s -> 0 <= irq < 16 ->
  (forall m, m = Z.land (irqmask s) (Z.lnot (Z.shiftl 1 irq)) -> 0 <= m < 65536 ->
     Q tt (put_irq m (mkPic T_IRQ0 (u8 m) 4 0) (mkPic (T_IRQ0 + 8) (Z.shiftr m 8) IRQ_SLAVE 0) s)) ->
  wp (picenable irq) Q s.
Proof.
  intros (Hm & E1 & E2) Hi HQ. pose proof (clear_range (irqmask s) irq Hm (proj1 Hi)) as Hr. specialize (HQ _ eq_refl Hr).
  unfold picenable. apply wp_bind, wp_gets. revert HQ Hr. generalize (Z.land (irqmask s) (Z.lnot (Z.shiftl 1 irq))) as m. intros m HQ Hr.
  assert (Hu : u16 m = m) by (by apply Z.mod_small).
  assert (Hh : u8 (Z.shiftr m 8) = Z.shiftr m 8).
  { apply u8_small. unfold is_byte. rewrite Z.shiftr_div_pow2 by lia. change (2 ^ 8) with 256. dlia. }
  unfold wp, picsetmask, out, bind, modify. rewrite Hu, Hh. destruct s as [[] ? ? ? ? ? ?]. cbn in E1, E2 |- *. subst. exact HQ.
Qed.

Lemma wp_ioapicwrite reg v s Q : ioapic s = IOAPIC -> 16 <= reg < 1024 ->
  Q tt (put_io reg (reg_set (io_regs (dev s)) reg (u32 v)) s) -> wp (ioapicwrite reg v) Q s.
Proof.
  intros Ha Hr HQ. unfold wp, ioapicwrite, bind, gets, st32, modify. rewrite Ha. cbn [ioapic set_dev dev store32 hw_bus].
  unfold hw_store32. rewrite Z.eqb_refl. cbn [io_sel io_regs set_io]. rewrite (u32_small reg) by (unfold is_u32; lia).
  destruct (Z.ltb_spec reg REG_TABLE); [unfold REG_TABLE in *; lia|]. by destruct s as [[] ? ? ? ? ? ?].
Qed.

(** The entry of line [i] of the I/O APIC. *)
Definition route_of (f : Z -> Z) (i : Z) : option (Z * Z) :=
  let low := f (REG_TABLE + 2 * i) in
  if Z.testbit low 16 then None else Some (Z.land low 255, Z.shiftr (f (REG_TABLE + 2 * i + 1)) 24).

Lemma io_route_of h i : io_route h i = route_of (io_regs h) i.
Proof. done. Qed.

Lemma route_set f i lo hi j : 0 <= i -> 0 <= j ->
  route_of (reg_set (reg_set f (REG_TABLE + 2 * i) lo) (REG_TABLE + 2 * i + 1) hi) j =
    if j =? i then if Z.testbit lo 16 then None else Some (Z.land lo 255, Z.shiftr hi 24) else route_of f j.
Proof.
  intros Hi Hj. unfold route_of, reg_set, REG_TABLE. destruct (Z.eqb_spec j i) as [->|].
  - rewrite (proj2 (Z.eqb_neq _ _)), !Z.eqb_refl by lia. done.
  - rewrite !(proj2 (Z.eqb_neq _ _)) by lia. done.
Qed.

Lemma vector_low i : 0 <= i < 224 -> u32 (T_IRQ0 + i) = T_IRQ0 + i /\ Z.testbit (T_IRQ0 + i) 16 = false /\ Z.land (T_IRQ0 + i) 255 = T_IRQ0 + i.
Proof.
  intros Hi. unfold T_IRQ0. split_and!.
  - apply u32_small. unfold is_u32. lia.
  - apply Z.bits_above_log2; [lia|]. apply Z.log2_lt_pow2; lia.
  - change 255 with (Z.ones 8). rewrite Z.land_ones by lia. apply Z.mod_small. lia.
Qed.

Lemma disabled_low i : 0 <= i < 224 -> Z.testbit (u32 (Z.lor INT_DISABLED (T_IRQ0 + i))) 16 = true.
Proof.
  intros Hi. unfold u32. change 4294967296 with (2 ^ 32). rewrite Z.mod_pow2_bits_low by lia. by rewrite Z.lor_spec.
Qed.

Lemma dest_high c : 0 <= c < 256 -> Z.shiftr (u32 (Z.shiftl c 24)) 24 = c.
Proof.
  intros Hc. rewrite u32_small by (unfold is_u32; rewrite Z.shiftl_mul_pow2 by lia; lia). rewrite Z.shiftr_shiftl_l by lia. apply Z.shiftl_0_r.
Qed.

Definition maxintr (s : kdev hw) : Z := Z.land (Z.shiftr (io_regs (dev s) REG_VER) 16) 255.

Lemma wp_ioapicread reg s Q : ioapic s = IOAPIC -> 0 <= reg < 1024 ->
  Q (io_regs (dev s) reg) (put_io reg (io_regs (dev s)) s) -> wp (ioapicread reg) Q s.
Proof.
  intros Ha Hr HQ. unfold wp, ioapicread, bind, gets, st32, modify, ld32. rewrite Ha. cbn [ioapic set_dev dev store32 load32 hw_bus].
  unfold hw_store32, hw_load32. rewrite !Z.eqb_refl. cbn [io_sel io_regs set_io]. rewrite (u32_small reg) by (unfold is_u32; lia).
  by destruct s as [[] ? ? ? ? ? ?].
Qed.

(** [s] with the I/O APIC in use, in state [sel] and [f], and [w] printed. *)
Definition with_io (sel : Z) (f : Z -> Z) (w : list string) (s : kdev hw) : kdev hw :=
  mkDev (set_io sel f (dev s)) (irqmask s) IOAPIC (uart s) (mps s) (n_warned s) w.

(** [ioapicinit] disables every entry. *)
Lemma ioapicinit_wp s : Mp.ismp (mps s) = true -> maxintr s < 224 ->
  wp ioapicinit (fun _ s' => exists sel f w, s' = with_io sel f w s /\ forall i, 0 <= i <= maxintr s -> route_of f i = None) s.
Proof.
  intros Hm Hx. assert (H0 : 0 <= maxintr s) by (apply Z.land_nonneg; lia).
  unfold ioapicinit. apply wp_bind, wp_gets. rewrite Hm. cbn [negb]. apply wp_bind, wp_modify.
  apply wp_bind, wp_ioapicread; [done|by vm_compute|]. apply wp_bind, wp_ioapicread; [done|by vm_compute|]. cbn [dev set_ioapic].
  fold (maxintr s). apply wp_bind.
  eapply (wp_mono _ (fun _ s' => exists sel w, s' = with_io sel (io_regs (dev s)) w s)).
  { destruct (negb _); [apply wp_modify|apply wp_ret]; eexists _, _; by destruct s as [[] ? ? ? ? ? ?]. }
  intros [] s1 (sel & w & ->).
  eapply wp_mono; [apply (wp_for_upto (fun n s' => exists sel f, s' = with_io sel f w s /\ forall i, 0 <= i < Z.of_nat n -> route_of f i = None))|].
  - exists sel, (io_regs (dev s)). split; [done|]. intros i Hi. lia.
  - intros j s' Hj (sel' & f & -> & Hf). apply wp_bind, wp_ioapicwrite; [done|unfold REG_TABLE; lia|].
    apply wp_ioapicwrite; [done|unfold REG_TABLE; lia|]. eexists _, _. split; [by destruct s as [[] ? ? ? ? ? ?]|].
    intros i Hi. cbn [io_regs set_io dev put_io set_dev with_io]. rewrite route_set, disabled_low by lia.
    destruct (Z.eqb_spec i (Z.of_nat j)); [done|]. apply Hf. lia.
  - intros [] s' (sel' & f & -> & Hf). exists sel', f, w. split; [done|]. intros i Hi. apply Hf. lia.
Qed.

(** *** Routing *)

(** The lines that are enabled are those of [en], which gives their processor. *)
Record routed (mp : Mp.mpstate) (en : Z -> option Z) (s : kdev hw) : Prop := {
  ro_mp : mps s = mp;
  ro_pics : pics_show s;
  ro_cascade : Z.testbit (irqmask s) IRQ_SLAVE = false;
  ro_mask : forall i, 0 <= i < 16 -> i <> IRQ_SLAVE -> Z.testbit (irqmask s) i = bool_decide (en i = None);
  ro_io : Mp.ismp mp = true -> ioapic s = IOAPIC;
  ro_route : forall i, 0 <= i < 16 -> route_of (io_regs (dev s)) i = if Mp.ismp mp then (fun c => (T_IRQ0 + i, c)) <$> en i else None;
  ro_lint0 : Z.testbit (la_regs (local (dev s)) LINT0) 16 = Mp.ismp mp }.

(** The local APIC and the serial port are as before. *)
Definition rest_kept (s s' : kdev hw) : Prop := local (dev s') = local (dev s) /\ serial (dev s') = serial (dev s).

(** What decides where interrupts go. *)
Record same_routing (s s' : kdev hw) : Prop := {
  sr_mp : mps s' = mps s;
  sr_mask : irqmask s' = irqmask s;
  sr_io : ioapic s' = ioapic s;
  sr_pics : master (dev s') = master (dev s) /\ slave (dev s') = slave (dev s);
  sr_regs : io_regs (dev s') = io_regs (dev s);
  sr_lint0 : la_regs (local (dev s')) LINT0 = la_regs (local (dev s)) LINT0 }.

Lemma same_routing_refl s : same_routing s s.
Proof. by split. Qed.
Lemma same_routing_trans s1 s2 s3 : same_routing s1 s2 -> same_routing s2 s3 -> same_routing s1 s3.
Proof. intros [A1 A2 A3 [A4 A5] A6 A7] [B1 B2 B3 [B4 B5] B6 B7]. split; congruence || (split; congruence). Qed.

Lemma routed_ext mp en en' s : routed mp en s -> (forall i, 0 <= i < 16 -> en i = en' i) -> routed mp en' s.
Proof. intros [A1 A2 A3 A4 A5 A6 A7] E. split; try done; intros i Hi; [intros Hn; rewrite <- E by done; by apply A4|rewrite <- E by done; by apply A6]. Qed.

Lemma routed_same mp en s s' : routed mp en s -> same_routing s s' -> routed mp en s'.
Proof. intros [A1 A2 A3 A4 A5 A6 A7] [B1 B2 B3 [B4 B5] B6 B7]. split; unfold pics_show in *; rewrite ?B1, ?B2, ?B3, ?B4, ?B5, ?B6, ?B7; done. Qed.

Lemma mask_low m i : 0 <= i < 8 -> Z.testbit (u8 m) i = Z.testbit m i.
Proof. intros Hi. unfold u8. change 256 with (2 ^ 8). apply Z.mod_pow2_bits_low. lia. Qed.

Lemma routed_delivers mp en s irq : routed mp en s -> 0 <= irq < 16 -> irq <> IRQ_SLAVE ->
  delivers (dev s) irq = match en irq with None => [] | Some c => [(T_IRQ0 + irq, if Mp.ismp mp then Some c else None)] end.
Proof.
  intros [_ (Hm & E1 & E2) Hc Hk _ Hr Hl] Hi Hn. unfold delivers. rewrite Hl, io_route_of, Hr by done. unfold pic_vector. rewrite E1, E2.
  cbn [imr icw3 vec_base]. specialize (Hk irq Hi Hn). destruct (Mp.ismp mp); [by destruct (en irq)|]. rewrite app_nil_r.
  destruct (Z.ltb_spec irq 8).
  - rewrite mask_low, Hk by lia. by destruct (en irq).
  - rewrite mask_low, Hc, Z.shiftr_spec by (unfold IRQ_SLAVE; lia). rewrite Z.sub_add, Hk. destruct (en irq); [|done]. simpl. do 2 f_equal. lia.
Qed.

Lemma enable_routed mp en s irq c : routed mp en s -> 0 <= irq < 16 -> 0 <= c < 256 ->
  wp (picenable irq ;;; ioapicenable irq c) (fun _ s' => routed mp (fun i => if i =? irq then Some c else en i) s' /\ rest_kept s s') s.
Proof.
  intros [Hmp Hp Hc Hk Hio Hr Hl] Hi Hcpu. apply wp_bind, picenable_wp; [done|done|]. intros m -> Hm. destruct Hp as (Hm0 & E1 & E2).
  unfold ioapicenable. apply wp_bind, wp_gets. cbn [mps put_irq set_irqmask set_dev]. rewrite Hmp.
  assert (Hmask : forall i, 0 <= i < 16 -> i <> IRQ_SLAVE -> Z.testbit (Z.land (irqmask s) (Z.lnot (Z.shiftl 1 irq))) i =
    bool_decide ((if i =? irq then Some c else en i) = None)).
  { intros i Hi' Hn. rewrite mask_clear_bit, Hk by lia. destruct (i =? irq); [by rewrite andb_false_r|by rewrite andb_true_r]. }
  assert (Hcas : Z.testbit (Z.land (irqmask s) (Z.lnot (Z.shiftl 1 irq))) IRQ_SLAVE = false) by (rewrite mask_clear_bit by (unfold IRQ_SLAVE; lia); by rewrite Hc).
  destruct (Mp.ismp mp) eqn:Eis; cbn [negb].
  - apply wp_bind, wp_ioapicwrite; [by apply Hio|unfold REG_TABLE; lia|]. apply wp_ioapicwrite; [by apply Hio|unfold REG_TABLE; lia|].
    destruct (vector_low irq) as (V1 & V2 & V3); [lia|].
    split; [|by split]. split; rewrite ?Eis; [done|done|done|done|done| |done]. intros i Hi'. cbn [io_regs set_io dev put_io set_dev put_irq set_irqmask set_pics].
    rewrite route_set, V1, V2, V3, dest_high by lia. destruct (Z.eqb_spec i irq) as [->|]; [done|]. by apply Hr.
  - apply wp_ret. split; [|by split]. split; rewrite ?Eis; try done.
Qed.

Lemma enables_routed mp en s l : routed mp en s -> Forall (fun e => 0 <= e.1 < 16 /\ 0 <= e.2 < 256) l ->
  wp (enables l) (fun _ => routed mp (fun i => match last_cpu i l with Some c => Some c | None => en i end)) s.
Proof.
  revert en s. induction l as [|[irq c] l IH]; intros en s Hr Hf; cbn [enables last_cpu].
  - apply wp_ret. destruct Hr. by split.
  - apply Forall_cons in Hf as [[Hi Hc] Hf]. cbn [fst snd] in *.
    apply wp_bind. eapply wp_mono; [by apply (enable_routed mp en s irq c Hr)|]. intros [] s2 [Hw _].
    eapply wp_mono; [apply (IH _ s2 Hw Hf)|]. intros [] s3 Hr3. destruct Hr3 as [A1 A2 A3 A4 A5 A6 A7]. split; try done.
    + intros i Hi' Hn. rewrite A4 by done. rewrite Z.eqb_sym. by destruct (last_cpu i l), (irq =? i).
    + intros i Hi'. rewrite A6 by done. rewrite Z.eqb_sym. by destruct (last_cpu i l), (irq =? i).
Qed.

(** The machine [main] finds: with APICs, at the address the firmware tables give; or
    without, the 8259A wired to the processor and the I/O APIC, if any, disabled. *)
Record powered (fuel : nat) (s : kdev hw) : Prop := {
  po_mask : irqmask s = irqmask0;
  po_mp : Mp.ismp (mps s) = true -> la_ok s /\ Mp.lapic (mps s) <> 0 /\ (la_time (local (dev s)) < fuel)%nat /\ 15 <= maxintr s < 224;
  po_up : Mp.ismp (mps s) = false -> Mp.lapic (mps s) = 0 /\ Z.testbit (la_regs (local (dev s)) LINT0) 16 = false /\
    forall i, 0 <= i < 16 -> Z.testbit (io_regs (dev s) (REG_TABLE + 2 * i)) 16 = true }.

Lemma irqmask0_bit i : 0 <= i < 16 -> Z.testbit irqmask0 i = negb (i =? IRQ_SLAVE).
Proof.
  intros Hi. change irqmask0 with (Z.land 65535 (Z.lnot (Z.shiftl 1 IRQ_SLAVE))). rewrite mask_clear_bit by (unfold IRQ_SLAVE; lia).
  change 65535 with (Z.ones 16). by rewrite Z.ones_spec_low by lia.
Qed.

Lemma picinit_wp s (Q : unit -> kdev hw -> Prop) : irqmask s = irqmask0 ->
  Q tt (put_irq irqmask0 (mkPic T_IRQ0 (u8 irqmask0) 4 0) (mkPic (T_IRQ0 + 8) (Z.shiftr irqmask0 8) IRQ_SLAVE 0) s) -> wp picinit Q s.
Proof. intros Hm HQ. unfold wp. by rewrite (picinit_eq s Hm). Qed.

Lemma routed_none mp s : mps s = mp -> irqmask s = irqmask0 -> master (dev s) = mkPic T_IRQ0 (u8 irqmask0) 4 0 ->
  slave (dev s) = mkPic (T_IRQ0 + 8) (Z.shiftr irqmask0 8) IRQ_SLAVE 0 -> (Mp.ismp mp = true -> ioapic s = IOAPIC) ->
  (forall i, 0 <= i < 16 -> route_of (io_regs (dev s)) i = None) -> Z.testbit (la_regs (local (dev s)) LINT0) 16 = Mp.ismp mp ->
  routed mp (fun _ => None) s.
Proof.
  intros Hmp Hm E1 E2 Hio Hr Hl. split; [exact Hmp| | | |exact Hio| |exact Hl].
  - unfold pics_show. rewrite Hm. split_and!; [by vm_compute|by vm_compute|exact E1|exact E2].
  - by rewrite Hm.
  - intros i Hi Hn. rewrite Hm, irqmask0_bit by done. rewrite (proj2 (Z.eqb_neq _ _) Hn). by rewrite bool_decide_true.
  - intros i Hi. rewrite Hr by done. by destruct (Mp.ismp _).
Qed.

(** The local APIC keeps its place and its number. *)
Definition same_cpu (s s' : kdev hw) : Prop :=
  la_base (local (dev s')) = la_base (local (dev s)) /\ la_regs (local (dev s')) ID = la_regs (local (dev s)) ID /\ mps s' = mps s.

Lemma same_cpu_trans s1 s2 s3 : same_cpu s1 s2 -> same_cpu s2 s3 -> same_cpu s1 s3.
Proof. unfold same_cpu. intros (-> & -> & ->) (-> & -> & ->). done. Qed.

(** The first half of the initialisation, on every processor. *)
Lemma lapic_ready fuel s : powered fuel s ->
  wp (lapicinit fuel) (fun _ s' => exists l, s' = put_la l s /\ same_cpu s s' /\ Z.testbit (la_regs l LINT0) 16 = Mp.ismp (mps s)) s.
Proof.
  intros [Hm Hmp Hup]. destruct (Mp.ismp (mps s)) eqn:Eis.
  - destruct (Hmp eq_refl) as (Hok & Hn & Hf & Hx). eapply wp_mono; [by apply lapicinit_wp|]. intros [] s1 (l & -> & Hl).
    exists l. split_and!; [done|split_and!; [apply Hl|apply Hl|done]|]. by rewrite (ls_lint0 _ _ Hl).
  - destruct (Hup eq_refl) as (Hn & Hl & Hr). unfold lapicinit. apply wp_bind, wp_gets. rewrite Hn. cbn [Z.eqb]. apply wp_ret.
    exists (local (dev s)). by rewrite put_la_self.
Qed.

(** And the second: no line is enabled. *)
Lemma pics_ready fuel s l : powered fuel s -> Z.testbit (la_regs l LINT0) 16 = Mp.ismp (mps s) ->
  wp (picinit ;;; ioapicinit) (fun _ s' => routed (mps s) (fun _ => None) s' /\ rest_kept (put_la l s) s') (put_la l s).
Proof.
  intros [Hm Hmp Hup] Hl. apply wp_bind, picinit_wp; [exact Hm|]. destruct (Mp.ismp (mps s)) eqn:Eis.
  - destruct (Hmp eq_refl) as (Hok & Hn & Hf & Hx). eapply wp_mono; [apply ioapicinit_wp; [exact Eis|apply Hx]|].
    intros [] s2 (sel & f & w & -> & Hf2). split; [|by split]. apply (routed_none _ (with_io sel f w _)); [reflexivity|reflexivity|reflexivity|reflexivity|reflexivity| |].
    + intros i Hi. apply Hf2. change (0 <= i <= maxintr s). lia.
    + change (Z.testbit (la_regs l LINT0) 16 = Mp.ismp (mps s)). congruence.
  - destruct (Hup eq_refl) as (Hn & _ & Hr). unfold ioapicinit. apply wp_bind, wp_gets. cbn [mps put_irq set_irqmask set_dev put_la]. rewrite Eis.
    apply wp_ret. split; [|by split]. apply (routed_none _ (put_irq irqmask0 _ _ (put_la l s))); [reflexivity|reflexivity|reflexivity|reflexivity| | |].
    + congruence.
    + intros i Hi. unfold route_of. change (io_regs (dev (put_irq _ _ _ (put_la l s)))) with (io_regs (dev s)). by rewrite Hr.
    + change (Z.testbit (la_regs l LINT0) 16 = Mp.ismp (mps s)). congruence.
Qed.

(** After the initialisation no line is enabled. *)
Lemma boot_routed fuel s : powered fuel s ->
  wp (lapicinit fuel ;;; picinit ;;; ioapicinit) (fun _ => routed (mps s) (fun _ => None)) s.
Proof.
  intros P. apply wp_bind. eapply wp_mono; [by apply lapic_ready|]. intros [] s1 (l & -> & _ & Hl).
  eapply wp_mono; [by apply (pics_ready fuel)|]. by intros [] s2 [R _].
Qed.

(** C31: after the initialisation of the interrupt hardware and any sequence of enables, on machines with and without APICs, an enabled line is delivered exactly once, with the number trap dispatches on and to the processor the last enable named, and a line that was not enabled is not delivered at all. *)
Theorem irq_delivery fuel l s : powered fuel s -> Forall (fun e => 0 <= e.1 < 16 /\ 0 <= e.2 < 256) l ->
  wp (boot_irqs fuel l) (fun _ s' => forall irq, 0 <= irq < 16 -> irq <> IRQ_SLAVE ->
    delivers (dev s') irq =
      match last_cpu irq l with
      | None => []
      | Some c => [(T_IRQ0 + irq, if Mp.ismp (mps s) then Some c else None)]
      end) s.
Proof.
  intros Hp Hf. unfold boot_irqs. apply wp_bind. eapply wp_mono; [by apply boot_routed|]. intros [] s3 Hb.
  eapply wp_mono; [by apply (enables_routed _ _ _ l Hb)|]. intros [] s4 Hr irq Hi Hn.
  rewrite (routed_delivers _ _ _ _ Hr Hi Hn). by destruct (last_cpu irq l).
Qed.

(** A machine with APICs, the I/O APIC having 24 lines, and one without. *)
Definition ex_dev (mp : bool) : kdev hw :=
  mkDev (mkHw (mkPic 8 184 0 0) (mkPic 112 143 0 0) (mkPit 0 None 0) (mkCom true 0 0 0 0 [] [] 0 3)
      0 (fun r => if r =? REG_VER then 1507345 else 65536) (mkLapic 4276092928 (fun _ => 0) [] 0 2) 0 (fun _ => 0) (fun _ => 0))
    irqmask0 0 false (Mp.mkMp 0 mp (if mp then 2 else 1) 0 (if mp then 4276092928 else 0) [0; 1] false) 0 [].

Lemma ex_powered mp : powered 5 (ex_dev mp).
Proof.
  split; [done| |].
  - intros E. destruct mp; [|done]. split_and!; [split; [done|left; by vm_compute]|done|simpl; lia|by vm_compute|by vm_compute].
  - intros E. destruct mp; [done|]. split_and!; [done|done|]. intros i Hi. change (Z.testbit (if REG_TABLE + 2 * i =? REG_VER then 1507345 else 65536) 16 = true).
    rewrite (proj2 (Z.eqb_neq _ _)) by (unfold REG_TABLE, REG_VER; lia). done.
Qed.

(** The keyboard, the serial port and the disk, which the last processor serves. *)
Definition ex_lines : list (Z * Z) := [(IRQ_KBD, 0); (IRQ_COM1, 0); (IRQ_IDE, 1)].

Lemma irq_delivery_witness :
  delivers (dev (result (boot_irqs 5 ex_lines) (ex_dev true))) IRQ_IDE = [(46, Some 1)] /\
  delivers (dev (result (boot_irqs 5 ex_lines) (ex_dev true))) 3 = [] /\
  delivers (dev (result (boot_irqs 5 ex_lines) (ex_dev false))) IRQ_IDE = [(46, None)].
Proof.
  assert (Hl : Forall (fun e => 0 <= e.1 < 16 /\ 0 <= e.2 < 256) ex_lines) by (repeat constructor; vm_compute; congruence).
  assert (H1 := wp_result _ _ _ (irq_delivery 5 ex_lines (ex_dev true) (ex_powered true) Hl)).
  assert (H2 := wp_result _ _ _ (irq_delivery 5 ex_lines (ex_dev false) (ex_powered false) Hl)). cbv beta in H1, H2.
  split_and!; [apply (H1 IRQ_IDE)|apply (H1 3)|apply (H2 IRQ_IDE)]; vm_compute; try split; congruence.
Defined.

(** ** Starting the other processors *)

(** A processor waiting for the boot sequence, or started at an address. *)
Inductive apstate := Stopped | WaitSipi | RunAt (addr : Z).

(** The destination of an interrupt command: one processor, or all of them. *)
Definition ipi_hits (id : Z) (c : Z * Z) : bool :=
  let short := Z.land (Z.shiftr (snd c) 18) 3 in
  if short =? 0 then Z.shiftr (fst c) 24 =? id else short =? 2.

(** INIT resets a processor, STARTUP starts one that waits, at a page of low memory. *)
Definition ap_recv (id : Z) (st : apstate) (c : Z * Z) : apstate :=
  if ipi_hits id c then
    let mode := Z.land (Z.shiftr (snd c) 8) 7 in
    if mode =? 5 then if Z.testbit (snd c) 14 then WaitSipi else st
    else if mode =? 6 then match st with WaitSipi => RunAt (4096 * Z.land (snd c) 255) | _ => st end
    else st
  else st.

(** The commands [lapicstartap] sends. *)
Definition start_cmds (apicid page : Z) : list (Z * Z) :=
  let hi := u32 (Z.shiftl apicid 24) in
  let sipi := (hi, u32 (Z.lor STARTUP page)) in
  [(hi, Z.lor (Z.lor INIT LEVEL) ASSERT); (hi, Z.lor INIT LEVEL); sipi; sipi].

Lemma sipi_fields page : 0 <= page < 256 ->
  u32 (Z.lor STARTUP page) = STARTUP + page.
Proof.
  intros Hp. assert (Z.lor STARTUP page = STARTUP + page) as ->.
  { enough (Z.land page STARTUP = 0) by (pose proof (Z.add_lor_land STARTUP page); rewrite (Z.land_comm STARTUP) in *; lia). apply Z.bits_inj'. intros i Hi.
    rewrite Z.land_spec, Z.bits_0. destruct (decide (i < 8)) as [|].
    - assert (Z.testbit STARTUP i = false) as ->; [|by rewrite andb_false_r]. change STARTUP with (Z.shiftl 6 8). apply Z.shiftl_spec_low. lia.
    - rewrite <- (Z.mod_small page (2 ^ 8)) by lia. by rewrite Z.mod_pow2_bits_high by lia. }
  apply u32_small. unfold is_u32, STARTUP. lia.
Qed.

Lemma sipi_decode page : 0 <= page < 256 ->
  Z.land (Z.shiftr (STARTUP + page) 18) 3 = 0 /\ Z.land (Z.shiftr (STARTUP + page) 8) 7 = 6 /\ Z.land (STARTUP + page) 255 = page.
Proof.
  intros Hp. unfold STARTUP. rewrite !Z.shiftr_div_pow2 by lia. change 3 with (Z.ones 2). change 7 with (Z.ones 3). change 255 with (Z.ones 8).
  rewrite !Z.land_ones by lia. change (2 ^ 18) with 262144. change (2 ^ 8) with 256. change (2 ^ 3) with 8. change (2 ^ 2) with 4. split_and!; dlia.
Qed.

Lemma ap_recv_to a id st hi lo : Z.shiftr hi 24 = a -> Z.land (Z.shiftr lo 18) 3 = 0 ->
  ap_recv id st (hi, lo) =
    if a =? id then
      match Z.land (Z.shiftr lo 8) 7, st with
      | 5, _ => if Z.testbit lo 14 then WaitSipi else st
      | 6, WaitSipi => RunAt (4096 * Z.land lo 255)
      | _, _ => st
      end
    else st.
Proof.
  intros Ha Hs. unfold ap_recv, ipi_hits. cbn [fst snd]. rewrite Ha, Hs, Z.eqb_refl. destruct (a =? id); [|done].
  destruct (Z.eqb_spec (Z.land (Z.shiftr lo 8) 7) 5) as [->|N5]; [by destruct st|].
  destruct (Z.eqb_spec (Z.land (Z.shiftr lo 8) 7) 6) as [->|N6]; [done|].
  revert N5 N6. generalize (Z.land (Z.shiftr lo 8) 7) as n. intros n N5 N6. destruct n as [|[[[]|[]|]|[[]|[]|]|]|]; by destruct st.
Qed.

Lemma start_cmds_effect apicid page st : 0 <= apicid < 256 -> 0 <= page < 256 ->
  foldl (ap_recv apicid) st (start_cmds apicid page) = RunAt (4096 * page) /\
  forall id, id <> apicid -> foldl (ap_recv id) st (start_cmds apicid page) = st.
Proof.
  intros Ha Hp. destruct (sipi_decode page Hp) as (D1 & D2 & D3). assert (Hd := dest_high apicid Ha).
  assert (Hone : forall id st lo, Z.land (Z.shiftr lo 18) 3 = 0 -> ap_recv id st (u32 (Z.shiftl apicid 24), lo) = _)
    by (intros; by apply (ap_recv_to apicid)).
  unfold start_cmds. rewrite sipi_fields by done. split.
  - cbn [foldl]. rewrite (Hone _ st) by done. rewrite Z.eqb_refl. cbn. rewrite (Hone _ WaitSipi (Z.lor INIT LEVEL)) by done. rewrite Z.eqb_refl. cbn.
    rewrite (Hone _ WaitSipi), D2, D3 by done. rewrite Z.eqb_refl. cbn. rewrite Hone, D2 by done. by rewrite Z.eqb_refl.
  - intros id Hn. cbn [foldl]. rewrite !Hone by done. by rewrite (proj2 (Z.eqb_neq apicid id)) by congruence.
Qed.

(** The warm reset vector, 40:67. *)
Definition wrv_at : Z := Kalloc.KERNBASE + 1127.

(** [lapicstartap] of a page-aligned address in the first megabyte makes the processor it
    names, whatever it was doing, run at that address, and no other is affected; the warm
    reset vector points at the same address and the shutdown code selects it. *)
Lemma ap_starts apicid addr s : la_ok s -> 0 <= apicid < 256 -> 0 <= addr < 1048576 -> addr mod 4096 = 0 ->
  wp (lapicstartap apicid addr) (fun _ s' => exists cmds, ipis (local (dev s')) = ipis (local (dev s)) ++ cmds /\
    (forall st, foldl (ap_recv apicid) st cmds = RunAt addr) /\
    (forall id st, id <> apicid -> foldl (ap_recv id) st cmds = st) /\
    rtc (dev s') 15 = 10 /\
    16 * warm (dev s') (wrv_at + 2) + warm (dev s') wrv_at = addr /\
    la_ok s' /\ same_cpu s s' /\ same_routing s s') s.
Proof.
  intros Hok Ha Hd Hal. assert (Hp : 0 <= Z.shiftr addr 12 < 256) by (rewrite Z.shiftr_div_pow2 by lia; change (2 ^ 12) with 4096; dlia).
  unfold lapicstartap. do 4 apply wp_bind, wp_modify. set (s0 := set_dev _ _).
  match goal with |- wp ?m ?Q _ => enough (wp m Q (put_la (local (dev s0)) s0)) by (by rewrite put_la_self in *) end.
  assert (Hok0 : la_ok s0) by exact Hok. do 2 la_go. apply wp_bind, wp_ret. la_go. apply wp_bind, wp_ret. cbn [for_upto].
  apply wp_bind. do 2 la_go. apply wp_ret. apply wp_bind. do 2 la_go. apply wp_ret, wp_ret.
  exists (start_cmds apicid (Z.shiftr addr 12)).
  split_and!.
  - cbn [put_la dev set_dev local set_local]. rewrite !ipis_write, !la_regs_write. cbn [Z.eqb Pos.eqb ICRLO ICRHI]. by rewrite <- !app_assoc.
  - intros st. rewrite (proj1 (start_cmds_effect apicid (Z.shiftr addr 12) st Ha Hp)). f_equal.
    rewrite Z.shiftr_div_pow2 by lia. change (2 ^ 12) with 4096. dlia.
  - intros id st. by apply start_cmds_effect.
  - reflexivity.
  - change (16 * u16 (Z.shiftr addr 4) + u16 0 = addr). rewrite Z.shiftr_div_pow2 by lia. unfold u16. change (2 ^ 4) with 16. dlia.
  - unfold la_ok. cbn [put_la dev set_dev local set_local mps]. rewrite !la_write_base. exact Hok.
  - unfold same_cpu. cbn [put_la dev set_dev local set_local mps]. by rewrite !la_write_base, !la_regs_write.
  - split; try reflexivity. split; reflexivity.
Qed.

(** [cpunum] with interrupts off. *)
Lemma cpunum_wp s (Q : Z -> kdev hw -> Prop) : (Mp.lapic (mps s) <> 0 -> la_ok s) ->
  Q (if Mp.lapic (mps s) =? 0 then 0 else Z.shiftr (la_regs (local (dev s)) ID) 24) s -> wp (cpunum false) Q s.
Proof.
  intros Hok HQ. unfold cpunum. apply wp_bind, wp_ret, wp_bind, wp_gets. destruct (Z.eqb_spec (Mp.lapic (mps s)) 0) as [E|E]; cbn [negb].
  - by apply wp_ret.
  - apply wp_bind. rewrite <- (put_la_self s). apply wp_lapicr; [by apply Hok|done|by unfold ID|].
    change (la_read ID (local (dev s))) with (la_regs (local (dev s)) ID, local (dev s)). cbn [fst snd]. apply wp_ret. by rewrite put_la_self.
Qed.

(** ** The timer *)

(** The 8253 generates a rate of 100 Hz, as near as its counter allows, and its line is
    enabled. *)
Lemma timer_rate s : pics_show s ->
  wp timerinit (fun _ s' => let t := timer (dev s') in
    pit_mode t = 52 /\ pit_low t = None /\ 0 < pit_count t < 65536 /\ 2 * Z.abs (TIMER_FREQ - 100 * pit_count t) <= 100 /\
    pics_show s' /\ Z.testbit (irqmask s') IRQ_TIMER = false) s.
Proof.
  intros Hp. unfold timerinit. do 3 apply wp_bind, wp_modify. apply picenable_wp; [exact Hp|by vm_compute|]. intros m -> Hm. cbv zeta.
  match goal with |- context [timer ?d] => change (timer d) with (mkPit 52 None 11932) end. split_and!; [done|done|by vm_compute|by vm_compute|by vm_compute| |].
  - split; [exact Hm|split; reflexivity].
  - cbn [irqmask put_irq set_irqmask]. rewrite mask_clear_bit by (by vm_compute). by rewrite andb_false_r.
Qed.

(** ** The serial port *)

Definition put_com (c : com) (s : kdev hw) : kdev hw := set_dev (set_serial c (dev s)) s.

Lemma put_com_self s : put_com (serial (dev s)) s = s.
Proof. by destruct s as [[] ? ? ? ? ? ?]. Qed.

(** [c] with [n] more reads of its status busy, [sd] sent. *)
Definition com_tx (n : nat) (sd : list Z) (c : com) : com := mkCom (present c) (lcr c) (dll c) (dlm c) (ier c) sd (rx c) n (tx_time c).

Lemma uart_wait_wp n c s Q : present c = true -> (tx_busy c < n)%nat ->
  Q tt (put_com (com_tx 0 (sent c) c) s) -> wp (uart_wait n) Q (put_com c s).
Proof.
  revert c. induction n as [|n IH]; intros c Hp Hb HQ; [lia|]. cbn [uart_wait]. apply wp_bind. unfold wp at 1, inp.
  cbn [inb hw_bus]. unfold hw_inb. change ((COM1 <=? COM1 + 5) && (COM1 + 5 <? COM1 + 8)) with true. change (COM1 + 5 - COM1) with 5.
  cbn [dev put_com set_dev serial set_serial]. unfold com_in. rewrite Hp. cbn [negb Z.eqb Pos.eqb].
  destruct (tx_busy c) as [|k] eqn:Eb.
  - replace (Z.land _ 32 =? 0) with false by (by destruct (rx c)). unfold com_tx in HQ. rewrite Hp in *. exact HQ.
  - replace (Z.land _ 32 =? 0) with true by (by destruct (rx c)). apply wp_bind, wp_ret.
    apply (IH (mkCom true (lcr c) (dll c) (dlm c) (ier c) (sent c) (rx c) (pred (S k)) (tx_time c))); [done|cbn; lia|].
    unfold com_tx in HQ |- *. rewrite Hp in HQ. exact HQ.
Qed.

Lemma uartputc_wp ch c s Q : uart s = true -> present c = true -> Z.testbit (lcr c) 7 = false -> (tx_busy c < 128)%nat ->
  Q tt (put_com (com_tx (tx_time c) (sent c ++ [u8 ch]) c) s) -> wp (uartputc ch) Q (put_com c s).
Proof.
  intros Hu Hp Hl Hb HQ. unfold uartputc. apply wp_bind, wp_gets. cbn [uart put_com set_dev]. rewrite Hu. cbn [negb].
  apply wp_bind, uart_wait_wp; [done|done|]. apply wp_modify. cbn [dev put_com set_dev outb hw_bus].
  change (hw_outb COM1) with (fun v h => set_serial (com_out 0 v (serial h)) h). cbv beta. cbn [serial set_serial]. unfold com_out. cbn [Z.eqb com_tx lcr].
  rewrite Hl. exact HQ.
Qed.

Lemma uartputs_wp l c s Q : uart s = true -> present c = true -> Z.testbit (lcr c) 7 = false -> (tx_busy c < 128)%nat -> (tx_time c < 128)%nat ->
  (forall n, Q tt (put_com (com_tx n (sent c ++ map u8 l) c) s)) -> wp (uartputs l) Q (put_com c s).
Proof.
  intros Hu. revert c. induction l as [|ch l IH]; intros c Hp Hl Hb Ht HQ; cbn [uartputs map].
  - apply wp_ret. specialize (HQ (tx_busy c)). cbn [map] in HQ. rewrite app_nil_r in HQ. by destruct c.
  - apply wp_bind, uartputc_wp; [done..|]. apply IH; [done..|]. intros n. specialize (HQ n). cbn [sent com_tx].
    rewrite <- app_assoc. exact HQ.
Qed.

Lemma wp_inp port s Q : (COM1 <=? port) && (port <? COM1 + 8) = true ->
  Q (fst (com_in (port - COM1) (serial (dev s)))) (put_com (snd (com_in (port - COM1) (serial (dev s)))) s) -> wp (inp port) Q s.
Proof. intros Hr HQ. unfold wp, inp. cbn [inb hw_bus]. unfold hw_inb. rewrite Hr. by destruct (com_in _ _). Qed.

Lemma ioapicenable_frame s irq c : (Mp.ismp (mps s) = true -> ioapic s = IOAPIC) -> 0 <= irq < 224 ->
  wp (ioapicenable irq c) (fun _ s' => exists sel f, s' = put_io sel f s) s.
Proof.
  intros Hio Hi. unfold ioapicenable. apply wp_bind, wp_gets. destruct (Mp.ismp (mps s)); cbn [negb].
  - apply wp_bind, wp_ioapicwrite; [by apply Hio|unfold REG_TABLE; lia|]. apply wp_ioapicwrite; [by apply Hio|unfold REG_TABLE; lia|]. by eexists _, _.
  - apply wp_ret. exists (io_sel (dev s)), (io_regs (dev s)). by destruct s as [[] ? ? ? ? ? ?].
Qed.

(** ** The lines [main] enables *)

Lemma wp_then_assoc {S A B C} (a : M S A) (b : M S B) (k : M S C) Q s : wp ((a ;;; b) ;;; k) Q s -> wp (a ;;; b ;;; k) Q s.
Proof. unfold wp, bind. by destruct (a s). Qed.

Lemma uart_wait_only n s : wp (uart_wait n) (fun _ s' => exists c, s' = put_com c s) s.
Proof.
  revert s. induction n as [|n IH]; intros s; cbn [uart_wait]; [apply wp_ret; exists (serial (dev s)); by rewrite put_com_self|].
  apply wp_bind, wp_inp; [by vm_compute|]. destruct (_ =? _); [|apply wp_ret; by eexists]. apply wp_bind, wp_ret.
  eapply wp_mono; [apply IH|]. intros [] s' [c ->]. by exists c.
Qed.

(** Sending changes nothing but the serial port. *)
Lemma uartputs_only l s : wp (uartputs l) (fun _ s' => exists c, s' = put_com c s) s.
Proof.
  revert s. induction l as [|ch l IH]; intros s; cbn [uartputs]; [apply wp_ret; exists (serial (dev s)); by rewrite put_com_self|].
  apply wp_bind. eapply (wp_mono _ (fun _ s' => exists c, s' = put_com c s)).
  - unfold uartputc. apply wp_bind, wp_gets. destruct (uart s); cbn [negb]; [|apply wp_ret; exists (serial (dev s)); by rewrite put_com_self].
    apply wp_bind. eapply wp_mono; [apply uart_wait_only|]. intros [] s' [c ->]. apply wp_modify. by eexists.
  - intros [] s' [c ->]. eapply wp_mono; [apply IH|]. intros [] s'' [c' ->]. by exists c'.
Qed.

Lemma put_com_routing c s : same_routing s (put_com c s).
Proof. split; done. Qed.

(** [uartinit] enables the line of the serial port when there is one. *)
Lemma uartinit_routed mp en s : routed mp en s ->
  wp uartinit (fun _ s' => routed mp (fun i => if present (serial (dev s)) && (i =? IRQ_COM1) then Some 0 else en i) s' /\ local (dev s') = local (dev s)) s.
Proof.
  intros R. unfold uartinit. do 7 apply wp_bind, wp_modify. apply wp_bind.
  match goal with |- wp _ _ ?x => set (s0 := x) end.
  assert (E0 : exists c, s0 = put_com c s /\ present c = present (serial (dev s))).
  { exists (serial (dev s0)). subst s0. destruct s as [[? ? ? [pr ? ? ? ? ? ? ? ?] ? ? ? ? ? ?] ? ? ? ? ? ?]. by destruct pr. }
  destruct E0 as (c & E0 & Hp). rewrite E0. clear E0 s0. apply wp_inp; [by vm_compute|]. change (COM1 + 5 - COM1) with 5. cbn [dev put_com set_dev serial set_serial].
  rewrite <- Hp. unfold com_in. destruct (present c); cbn [negb Z.eqb Pos.eqb andb fst snd].
  2: { apply wp_ret. split; [|done]. by apply (routed_same _ _ s). }
  destruct (Z.eqb_spec ((match rx c with [] => 0 | _ => 1 end) + match tx_busy c with O => 96 | S _ => 0 end) 255); [by destruct (rx c), (tx_busy c)|].
  apply wp_bind, wp_modify, wp_bind, wp_inp; [by vm_compute|]. apply wp_bind, wp_inp; [by vm_compute|].
  match goal with |- wp _ _ ?x => set (s1 := x) end. assert (R1 : routed mp en s1) by (apply (routed_same _ _ s); [done|by split]).
  assert (L1 : local (dev s1) = local (dev s)) by reflexivity. clearbody s1.
  apply wp_then_assoc, wp_bind. eapply wp_mono; [by apply (enable_routed _ _ _ IRQ_COM1 0 R1)|]. intros [] s2 [R2 [L2 _]].
  eapply wp_mono; [apply uartputs_only|]. intros [] s3 [c' ->]. split; [|by rewrite <- L1, <- L2]. by apply (routed_same _ _ s2).
Qed.

(** [timerinit] is called without APICs only. *)
Lemma timerinit_routed mp en s : routed mp en s -> Mp.ismp mp = false ->
  wp timerinit (fun _ s' => routed mp (fun i => if i =? IRQ_TIMER then Some 0 else en i) s' /\ local (dev s') = local (dev s)) s.
Proof.
  intros R Eis. unfold timerinit. do 3 apply wp_bind, wp_modify. match goal with |- wp _ _ ?x => set (s1 := x) end.
  assert (R1 : routed mp en s1) by (apply (routed_same _ _ s); [done|by split]). assert (L1 : local (dev s1) = local (dev s)) by reflexivity. clearbody s1.
  pose proof (enable_routed mp en s1 IRQ_TIMER 0 R1 ltac:(by vm_compute) ltac:(done)) as H. rewrite <- L1. unfold wp, bind in *.
  destruct (picenable IRQ_TIMER s1) as [[] s2| |] eqn:E; [|done|done]. unfold ioapicenable, bind, gets in H.
  assert (Em : mps s2 = mp).
  { assert (Hw : wp (picenable IRQ_TIMER) (fun _ s' => mps s' = mps s1) s1) by (apply picenable_wp; [apply R1|by vm_compute|by intros m -> _]).
    unfold wp in Hw. rewrite E in Hw. by rewrite Hw, (ro_mp _ _ _ R1). }
  rewrite Em, Eis in H. destruct H as [H1 [H2 _]]. by split.
Qed.

(** A serial port that sends a character within 127 reads of its status is set to 9600
    baud, 8 data bits, with receive interrupts enabled, and the greeting goes out in
    order after what was sent before. *)
Lemma uartinit_sends s : let c := serial (dev s) in
  pics_show s -> (Mp.ismp (mps s) = true -> ioapic s = IOAPIC) -> present c = true -> (tx_busy c < 128)%nat -> (tx_time c < 128)%nat ->
  wp uartinit (fun _ s' => let c' := serial (dev s') in
    uart s' = true /\ lcr c' = 3 /\ 115200 / (dll c' + 256 * dlm c') = 9600 /\ ier c' = 1 /\
    sent c' = sent c ++ bytes "xv6..." ++ [10] /\ Z.testbit (irqmask s') IRQ_COM1 = false) s.
Proof.
  intros c Hp Hio Hpr Hb Ht. unfold uartinit. do 7 apply wp_bind, wp_modify. apply wp_bind.
  match goal with |- wp _ _ ?x => set (s0 := x) end.
  set (c0 := mkCom true 3 12 0 1 (sent c) (rx c) (tx_busy c) (tx_time c)).
  assert (E0 : s0 = put_com c0 s).
  { subst s0 c0 c. destruct s as [[? ? ? [pr ? ? ? ? ? ? ? ?] ? ? ? ? ? ?] ? ? ? ? ? ?]. cbn in Hpr. subst pr. reflexivity. }
  rewrite E0. clear E0 s0. apply wp_inp; [by vm_compute|]. change (COM1 + 5 - COM1) with 5.
  set (c1 := mkCom true 3 12 0 1 (sent c) (rx c) (pred (tx_busy c)) (tx_time c)).
  assert (Est : com_in 5 (serial (dev (put_com c0 s))) = ((match rx c with [] => 0 | _ => 1 end) + (match tx_busy c with O => 96 | S _ => 0 end), c1)) by reflexivity.
  rewrite Est. cbn [fst snd]. replace (_ =? 255) with false by (by destruct (rx c), (tx_busy c)). clear Est.
  apply wp_bind, wp_modify, wp_bind, wp_inp; [by vm_compute|]. apply wp_bind, wp_inp; [by vm_compute|].
  apply wp_bind, picenable_wp; [exact Hp|by vm_compute|]. intros m -> Hm. apply wp_bind.
  match goal with |- wp _ _ ?x => set (s1 := x) end.
  eapply wp_mono; [apply (ioapicenable_frame s1 IRQ_COM1 0); [exact Hio|by vm_compute]|]. intros [] s2 (sel & f & ->).
  match goal with |- wp ?m ?Q _ => enough (wp m Q (put_com (serial (dev s1)) (put_io sel f s1))) by exact H end.
  apply uartputs_wp; [reflexivity|reflexivity|reflexivity|change (pred (tx_busy c) < 128)%nat; lia|exact Ht|].
  intros n. cbv zeta. split_and!; [reflexivity|reflexivity|by vm_compute|reflexivity|reflexivity|].
  change (Z.testbit (Z.land (irqmask s) (Z.lnot (Z.shiftl 1 IRQ_COM1))) IRQ_COM1 = false). rewrite mask_clear_bit by (by vm_compute). by rewrite andb_false_r.
Qed.

(** Without a serial port [uart] stays unset and nothing is ever sent. *)
Lemma uartinit_absent s : present (serial (dev s)) = false -> uart s = false ->
  wp uartinit (fun _ s' => uart s' = false /\ irqmask s' = irqmask s) s /\ forall ch, uartputc ch s = Ret tt s.
Proof.
  intros Hp Hu. split.
  - unfold uartinit. do 7 apply wp_bind, wp_modify. apply wp_bind, wp_inp; [by vm_compute|].
    destruct s as [[? ? ? [pr ? ? ? ? ? ? ? ?] ? ? ? ? ? ?] ? ? ? ? ? ?]. cbn in Hp. subst pr. apply wp_ret. by split.
  - intros ch. unfold uartputc, bind, gets. by rewrite Hu.
Qed.

(** [microdelay] does not wait: after 128 reads [uartputc] writes all the same, and a
    slower port loses the character before. *)
Lemma uartputc_overruns :
  let slow := put_com (mkCom true 3 12 0 1 [120] [] 500 500) (set_uart true (ex_dev false)) in
  sent (serial (dev (result (uartputc 118) slow))) = [118].
Proof. reflexivity. Qed.

(** [uartgetc] returns the received characters in order, and -1 when there is none. *)
Lemma uartgetc_receives s : uart s = true -> present (serial (dev s)) = true ->
  wp uartgetc (fun v s' => v = hd (-1) (rx (serial (dev s))) /\ rx (serial (dev s')) = tail (rx (serial (dev s)))) s.
Proof.
  intros Hu Hp. unfold uartgetc. apply wp_bind, wp_gets. rewrite Hu. cbn [negb]. apply wp_bind, wp_inp; [by vm_compute|].
  destruct s as [[? ? ? [pr ? ? ? ? ? r b ?] ? ? ? ? ? ?] ? ? ? ? ? ?]. cbn in Hp. subst pr. destruct r, b; split; reflexivity.
Qed.

End Devices.
