(* ===== verification/Mkfs.v ===== *)
(** * mkfs.c: building the file system image

    [Module Mkfs] translates mkfs.c, the host program that writes fs.img.  The image is
    the list of its sectors; writing past its end extends it, reading past its end is
    the exit ["read"].  The files to install are given by their names and by the chunks
    the calls of [read] return.  Inodes and directory entries have the layout of fs.h,
    which [Fs] models; the calls of [xint] and [xshort] make it independent of the host.

    [iappend_appends]: [iappend] appends bytes to one file and leaves the others
    alone.  MkfsSpec has the theorem on the whole image. *)

From S2P Require Import Prelude CString Bio Log Blocks Fs FsAlloc FsFile FsWrite.

Module Mkfs.
Import Blocks Fs FsAlloc FsFile FsWrite.

Definition nblocks : Z := 985.
Definition nlog : Z := Log.LOGSIZE.
Definition ninodes : Z := 200.
Definition size : Z := 1024.

Record mstate := mkMk { img : list (list Z); freeblock : Z; usedblocks : Z; freeinode : Z }.

Definition zeroes : list Z := replicate 512 0.

Definition wsect (sec : Z) (buf : list Z) : M mstate unit :=
  modify (fun s =>
    let n := Z.to_nat sec in
    mkMk (if decide (n < length (img s))%nat then <[n:=buf]> (img s) else img s ++ replicate (n - length (img s)) zeroes ++ [buf])
      (freeblock s) (usedblocks s) (freeinode s)).

Definition rsect (sec : Z) : M mstate (list Z) := fun s =>
  match img s !! Z.to_nat sec with
  | Some buf => Ret buf s
  | None => Panic "read"
  end.

Definition i2b (inum : Z) : Z := inum / IPB + 2.

Definition winode (inum : Z) (ip : dinode) : M mstate unit :=
  let bn := i2b inum in
  let* buf := rsect bn in
  wsect bn (put_dinode buf inum ip).

Definition rinode (inum : Z) : M mstate dinode :=
  let bn := i2b inum in
  let* buf := rsect bn in
  ret (get_dinode buf inum).

Definition ialloc (type : Z) : M mstate Z :=
  let* inum := gets freeinode in
  modify (fun s => mkMk (img s) (freeblock s) (usedblocks s) (u32 (freeinode s + 1))) ;;;
  winode inum (mkDinode type 0 0 1 0 (replicate 13 0)) ;;;
  ret inum.

Definition balloc (used : Z) : M mstate unit :=
  if negb (used <? 512 * 8) then panic "assert"
  else wsect (ninodes / IPB + 3) (foldl (fun buf i => mark_bit buf i) zeroes (seqZ 0 used)).

(** [freeblock++] and [usedblocks++] *)
Definition newblock : M mstate Z :=
  let* b := gets freeblock in
  modify (fun s => mkMk (img s) (u32 (freeblock s + 1)) (u32 (usedblocks s + 1)) (freeinode s)) ;;;
  ret b.

(** The block of number [fbn] of a file, allocated when there is none. *)
Definition iblock (din : dinode) (fbn : Z) : M mstate (dinode * Z) :=
  if fbn <? NDIRECT then
    let* din :=
      (if addr (Z.to_nat fbn) din =? 0 then let* b := newblock in ret (set_addr (Z.to_nat fbn) b din) else ret din) in
    ret (din, addr (Z.to_nat fbn) din)
  else
    let* din :=
      (if addr (Z.to_nat NDIRECT) din =? 0 then let* b := newblock in ret (set_addr (Z.to_nat NDIRECT) b din) else ret din) in
    let* indirect := rsect (addr (Z.to_nat NDIRECT) din) in
    let* indirect :=
      (if get_addr indirect (fbn - NDIRECT) =? 0 then
         let* b := newblock in
         let indirect := put_addr indirect (fbn - NDIRECT) b in
         wsect (addr (Z.to_nat NDIRECT) din) indirect ;;;
         ret indirect
       else ret indirect) in
    ret (din, get_addr indirect (fbn - NDIRECT)).

(** The loop of [iappend] over the bytes [p], at least one per round. *)
Fixpoint iappend_loop (fuel : nat) (din : dinode) (off : Z) (p : list Z) : M mstate (dinode * Z) :=
  match fuel with
  | O => ret (din, off)
  | S fuel' =>
      let n := Z.of_nat (length p) in
      if 0 <? n then
        let fbn := off / 512 in
        if negb (fbn <? MAXFILE) then panic "assert"
        else
          let* r := iblock din fbn in
          let '(din, x) := r in
          let n1 := Z.min n ((fbn + 1) * 512 - off) in
          let* buf := rsect x in
          wsect x (splice buf (Z.to_nat (off - fbn * 512)) (take (Z.to_nat n1) p)) ;;;
          iappend_loop fuel' din (off + n1) (drop (Z.to_nat n1) p)
      else ret (din, off)
  end.

Definition iappend (inum : Z) (p : list Z) : M mstate unit :=
  let* din := rinode inum in
  let* r := iappend_loop (length p) din (d_size din) p in
  winode inum (set_size (snd r) (fst r)).

Fixpoint iappends (inum : Z) (chunks : list (list Z)) : M mstate unit :=
  match chunks with
  | [] => ret tt
  | c :: chunks' => iappend inum c ;;; iappends inum chunks'
  end.

(** A directory entry: [bzero], then the inode number and the name. *)
Definition dirent_of (inum : Z) (name : list Z) : list Z := mk_dirent inum (Str.strncpy (replicate 14 0) name DIRSIZ).

(** The name of a file of the host: a leading underscore is skipped. *)
Definition skip_underscore (name : list Z) : list Z := if hd 0 name =? 95 then tail name else name.

(** The body of the loop over the arguments. *)
Definition add_file (rootino : Z) (f : list Z * list (list Z)) : M mstate unit :=
  if bool_decide (47 ∈ f.1) then panic "assert"
  else
    let* inum := ialloc T_FILE in
    iappend rootino (dirent_of inum (skip_underscore f.1)) ;;;
    iappends inum f.2.

Fixpoint add_files (rootino : Z) (files : list (list Z * list (list Z))) : M mstate unit :=
  match files with
  | [] => ret tt
  | f :: files' => add_file rootino f ;;; add_files rootino files'
  end.

Definition super : list Z :=
  le_bytes 4 size ++ le_bytes 4 nblocks ++ le_bytes 4 ninodes ++ le_bytes 4 nlog.

(** [main] up to the loop over the arguments. *)
Definition mkfs_start : M mstate Z :=
  let bitblocks := size / (512 * 8) + 1 in
  let used := ninodes / IPB + 3 + bitblocks in
  modify (fun s => mkMk (img s) used used (freeinode s)) ;;;
  if negb (nblocks + used + nlog =? size) then panic "assert"
  else
    for_upto (Z.to_nat (nblocks + used + nlog)) 0 (fun i => wsect (Z.of_nat i) zeroes) ;;;
    wsect 1 (splice zeroes 0 super) ;;;
    let* rootino := ialloc T_DIR in
    if negb (rootino =? ROOTINO) then panic "assert"
    else
      iappend rootino (dirent_of rootino (bytes ".")) ;;;
      iappend rootino (dirent_of rootino (bytes "..")) ;;;
      ret rootino.

(** [main] after it: the size of the root directory is rounded up. *)
Definition mkfs_end (rootino : Z) : M mstate unit :=
  let* din := rinode rootino in
  let off := u32 ((d_size din / BSIZE + 1) * BSIZE) in
  winode rootino (set_size off din) ;;;
  let* used := gets usedblocks in
  balloc used.

Definition mkfs (files : list (list Z * list (list Z))) : M mstate unit :=
  let* rootino := mkfs_start in
  add_files rootino files ;;;
  mkfs_end rootino.

(** The image starts empty, the variables as the program initialises them. *)
Definition m_init : mstate := mkMk [] 0 0 1.

(** ** Files in the image *)

(** The image as the block layer shows it: the home blocks end where the log starts. *)
Definition sector (s : mstate) (x : Z) : list Z := default [] (img s !! Z.to_nat x).
Definition view (s : mstate) : tview := mkT (sector s) ∅ ∅ ∅ false (size - nlog) (Z.to_nat nlog).
Definition dino (s : mstate) (i : Z) : dinode := get_dinode (sector s (i2b i)) i.

(** The first data block. *)
Definition d0 : Z := 29.

(** The blocks of a file, its indirect block included. *)
Definition owns (v : tview) (d : dinode) (x : Z) : Prop :=
  x <> 0 /\ (x = ind d \/ exists bn, 0 <= bn < MAXFILE /\ x = block_of v d bn).

(** A file of [n] bytes has [nb n] data blocks, and an indirect block if they are more
    than its inode has room for. *)
Definition nb (n : Z) : Z := (n + 511) / 512.
Definition cnt (n : Z) : Z := n + (if NDIRECT <? n then 1 else 0).
Definition nblk (n : Z) : Z := cnt (nb n).

(** The inode [d] has the first [n] of its data blocks, below [fb] and all distinct, and
    an indirect block if [hi]. *)
Record mblocks (v : tview) (fb : Z) (d : dinode) (n : Z) (hi : bool) : Prop := {
  mb_len : length (d_addrs d) = 13%nat;
  mb_some : forall bn, 0 <= bn < n -> d0 <= block_of v d bn < fb;
  mb_none : forall bn, n <= bn < MAXFILE -> block_of v d bn = 0;
  mb_ind : if hi then d0 <= ind d < fb else ind d = 0;
  mb_inj : forall bn bn', 0 <= bn < n -> 0 <= bn' < n -> block_of v d bn = block_of v d bn' -> bn = bn';
  mb_ind_ne : forall bn, 0 <= bn < n -> block_of v d bn <> ind d }.

Lemma block_of_low v d bn : bn < NDIRECT -> block_of v d bn = addr (Z.to_nat bn) d.
Proof. intros H. unfold block_of. by rewrite (proj2 (Z.ltb_lt _ _) H). Qed.

Lemma block_of_high v d bn : NDIRECT <= bn -> block_of v d bn = if ind d =? 0 then 0 else get_addr (tv_content v (ind d)) (bn - NDIRECT).
Proof. intros H. unfold block_of. by rewrite (proj2 (Z.ltb_ge _ _) H). Qed.

Lemma block_of_frame v v' d bn : tv_content v' (ind d) = tv_content v (ind d) -> block_of v' d bn = block_of v d bn.
Proof. intros H. unfold block_of. by rewrite H. Qed.

(** Allocating [fb] makes the blocks below [fb + 1] those of the file and [fb]. *)
Lemma mblocks_grow v v' fb d d' n hi hi' : mblocks v fb d n hi -> 0 <= n < MAXFILE -> d0 <= fb ->
  length (d_addrs d') = 13%nat -> ind d' = ind d -> hi' = hi ->
  (forall bn, 0 <= bn < MAXFILE -> block_of v' d' bn = if bn =? n then fb else block_of v d bn) ->
  mblocks v' (fb + 1) d' (n + 1) hi'.
Proof.
  intros [Hl Hs Hn Hi Hj Hne] Hr Hfb Hl' Ei -> Hb.
  assert (Hlt : forall bn, 0 <= bn < n -> block_of v' d' bn = block_of v d bn /\ d0 <= block_of v d bn < fb).
  { intros bn Hbn. split; [|by apply Hs]. rewrite Hb by lia. by rewrite (proj2 (Z.eqb_neq bn n)) by lia. }
  assert (En : block_of v' d' n = fb) by (rewrite Hb by lia; by rewrite Z.eqb_refl). split.
  - done.
  - intros bn Hbn. destruct (decide (bn = n)) as [->|]; [rewrite En; lia|]. destruct (Hlt bn) as [-> ?]; lia.
  - intros bn Hbn. rewrite Hb, (proj2 (Z.eqb_neq bn n)) by lia. apply Hn. lia.
  - rewrite Ei. destruct hi; [lia|done].
  - intros bn bn' H1 H2 E. destruct (decide (bn = n)) as [->|], (decide (bn' = n)) as [->|]; [done|..].
    + destruct (Hlt bn') as [E' ?]; lia.
    + destruct (Hlt bn) as [E' ?]; lia.
    + apply Hj; [lia|lia|]. destruct (Hlt bn) as [<- _]; [lia|]. destruct (Hlt bn') as [<- _]; [lia|done].
  - intros bn Hbn. rewrite Ei. destruct (decide (bn = n)) as [->|].
    + rewrite En. destruct hi; [lia|unfold d0 in *; lia].
    + destruct (Hlt bn) as [-> _]; [lia|]. apply Hne. lia.
Qed.

Lemma mblocks_direct v fb d n hi : mblocks v fb d n hi -> 0 <= n < NDIRECT -> d0 <= fb ->
  mblocks v (fb + 1) (set_addr (Z.to_nat n) fb d) (n + 1) hi /\
  forall bn, 0 <= bn < MAXFILE -> block_of v (set_addr (Z.to_nat n) fb d) bn = if bn =? n then fb else block_of v d bn.
Proof.
  intros Hm Hn Hfb. assert (Hl := mb_len _ _ _ _ _ Hm). unfold NDIRECT in Hn.
  assert (Ei : ind (set_addr (Z.to_nat n) fb d) = ind d) by (unfold ind; rewrite addr_set, decide_False by lia; done).
  assert (Hb : forall bn, 0 <= bn < MAXFILE -> block_of v (set_addr (Z.to_nat n) fb d) bn = if bn =? n then fb else block_of v d bn).
  { intros bn Hbn. destruct (decide (bn < NDIRECT)) as [Hlt|Hge].
    - rewrite !block_of_low, addr_set by (done || lia). destruct (Z.eqb_spec bn n) as [->|]; [by rewrite decide_True|]. by rewrite decide_False by lia.
    - rewrite !block_of_high, Ei by lia. unfold NDIRECT in Hge. by rewrite (proj2 (Z.eqb_neq bn n)) by lia. }
  split; [|done]. apply (mblocks_grow v v fb d _ n hi); try done; [unfold MAXFILE, NDIRECT, NINDIRECT; lia|].
  cbn [d_addrs set_addr]. by rewrite length_insert.
Qed.

Lemma mblocks_indirect v fb d n : mblocks v fb d n false -> 0 <= n <= NDIRECT -> d0 <= fb -> tv_content v fb = zeroes ->
  mblocks v (fb + 1) (set_addr 12 fb d) n true /\ ind (set_addr 12 fb d) = fb /\
  forall bn, 0 <= bn < MAXFILE -> block_of v (set_addr 12 fb d) bn = block_of v d bn.
Proof.
  intros [Hl Hs Hn Hi Hj Hne] Hr Hfb Hz. cbv iota in Hi.
  assert (Ei : ind (set_addr 12 fb d) = fb) by (unfold ind; rewrite addr_set, decide_True by lia; done).
  assert (Hb : forall bn, 0 <= bn < MAXFILE -> block_of v (set_addr 12 fb d) bn = block_of v d bn).
  { intros bn Hbn. unfold MAXFILE, NDIRECT, NINDIRECT, d0 in *. destruct (decide (bn < 12)) as [Hlt|Hge].
    - rewrite !block_of_low, addr_set, decide_False by (unfold NDIRECT; lia). done.
    - rewrite !block_of_high, Ei, Hi, Hz by (unfold NDIRECT; lia). rewrite (proj2 (Z.eqb_neq fb 0)) by lia.
      apply get_addr_zero. unfold NDIRECT, NINDIRECT. lia. }
  split_and!; [|done|done]. split; unfold MAXFILE, NDIRECT, NINDIRECT in *.
  - cbn [d_addrs set_addr]. by rewrite length_insert.
  - intros bn Hbn. rewrite Hb by lia. specialize (Hs bn Hbn). lia.
  - intros bn Hbn. rewrite Hb by lia. apply Hn. lia.
  - rewrite Ei. lia.
  - intros bn bn' H1 H2. rewrite !Hb by lia. by apply Hj.
  - intros bn Hbn. rewrite Hb, Ei by lia. specialize (Hs bn Hbn). lia.
Qed.

Lemma mblocks_put v v' fb d n : mblocks v fb d n true -> NDIRECT <= n < MAXFILE -> d0 <= fb -> is_u32 fb ->
  length (tv_content v (ind d)) = Bio.BSIZE -> tv_content v' (ind d) = put_addr (tv_content v (ind d)) (n - NDIRECT) fb ->
  mblocks v' (fb + 1) d (n + 1) true /\ forall bn, 0 <= bn < MAXFILE -> block_of v' d bn = if bn =? n then fb else block_of v d bn.
Proof.
  intros Hm Hn Hfb Hu Hlen Hv'. assert (Hi := mb_ind _ _ _ _ _ Hm). cbv iota in Hi.
  assert (Hb : forall bn, 0 <= bn < MAXFILE -> block_of v' d bn = if bn =? n then fb else block_of v d bn).
  { intros bn Hbn. unfold MAXFILE, NDIRECT, NINDIRECT, d0 in *. destruct (decide (bn < 12)) as [Hlt|Hge].
    - rewrite !block_of_low by (unfold NDIRECT; lia). by rewrite (proj2 (Z.eqb_neq bn n)) by lia.
    - rewrite !block_of_high, (proj2 (Z.eqb_neq (ind d) 0)), Hv' by (unfold NDIRECT; lia).
      rewrite get_put_addr by (done || unfold NINDIRECT, NDIRECT; lia).
      destruct (Z.eqb_spec bn n) as [->|]; [by rewrite Z.eqb_refl|]. by rewrite (proj2 (Z.eqb_neq _ _)) by (unfold NDIRECT; lia). }
  split; [|done]. apply (mblocks_grow v v' fb d d n true); try done; [unfold NDIRECT in *; lia|]. apply Hm.
Qed.

(** ** The image *)

(** The image is complete; the blocks from [freeblock] on are zero. *)
Record geo (s : mstate) : Prop := {
  g_len : length (img s) = 1024%nat;
  g_sec : forall x, 0 <= x < size -> length (sector s x) = Bio.BSIZE;
  g_free : d0 <= freeblock s <= size - nlog;
  g_used : usedblocks s = freeblock s;
  g_zero : forall x, freeblock s <= x < size - nlog -> sector s x = zeroes }.

Definition put_sec (x : Z) (b : list Z) (s : mstate) : mstate := mkMk (<[Z.to_nat x:=b]> (img s)) (freeblock s) (usedblocks s) (freeinode s).
Definition take_block (s : mstate) : mstate := mkMk (img s) (freeblock s + 1) (usedblocks s + 1) (freeinode s).

Lemma sector_put x b s y : geo s -> 0 <= x < size -> 0 <= y -> sector (put_sec x b s) y = if y =? x then b else sector s y.
Proof.
  intros G Hx Hy. unfold sector, put_sec, size in *. cbn [img]. destruct (Z.eqb_spec y x) as [->|].
  - rewrite list_lookup_insert_eq; [done|]. rewrite (g_len s G). lia.
  - by rewrite list_lookup_insert_ne by lia.
Qed.

Lemma wp_wsect x b s Q : geo s -> 0 <= x < size -> Q tt (put_sec x b s) -> wp (wsect x b) Q s.
Proof.
  intros G Hx HQ. unfold wp, wsect, modify, size in *. rewrite decide_True by (rewrite (g_len s G); lia). exact HQ.
Qed.

Lemma wp_rsect x s Q : geo s -> 0 <= x < size -> Q (sector s x) s -> wp (rsect x) Q s.
Proof.
  intros G Hx HQ. unfold wp, rsect, sector, size in *. destruct (img s !! Z.to_nat x) as [b|] eqn:E; [done|].
  apply lookup_ge_None in E. rewrite (g_len s G) in E. lia.
Qed.

Lemma wp_newblock s Q : geo s -> freeblock s < size - nlog -> Q (freeblock s) (take_block s) -> wp newblock Q s.
Proof.
  intros G Hf HQ. destruct G as [_ _ Hfr Hu _]. unfold size, nlog, Log.LOGSIZE, d0 in *. unfold newblock. apply wp_bind, wp_gets, wp_bind, wp_modify, wp_ret.
  rewrite Hu, u32_small by (unfold is_u32; lia). unfold take_block in HQ. by rewrite Hu in HQ.
Qed.

Lemma geo_put x b s : geo s -> 0 <= x < freeblock s -> length b = Bio.BSIZE -> geo (put_sec x b s).
Proof.
  intros G Hx Hb. assert (Hf := g_free s G). unfold nlog, Log.LOGSIZE in *. assert (Hxs : 0 <= x < size) by lia. split; try apply G.
  - unfold put_sec. cbn [img]. rewrite length_insert. apply G.
  - intros y Hy. rewrite sector_put by (done || lia). destruct (y =? x); [done|by apply G].
  - intros y Hy. cbn [freeblock put_sec] in Hy. rewrite sector_put by (done || lia). rewrite (proj2 (Z.eqb_neq y x)) by lia. by apply G.
Qed.

Lemma geo_take s : geo s -> freeblock s < size - nlog -> geo (take_block s).
Proof.
  intros [G1 G2 G3 G4 G5] Hf. split; cbn [img freeblock usedblocks take_block]; [done|done|lia|lia|]. intros x Hx. apply G5. lia.
Qed.

(** [s'] and [d'] come from [s] and [d] by giving the file blocks that were free and by
    writing to its blocks only. *)
Record ext (s : mstate) (d : dinode) (s' : mstate) (d' : dinode) : Prop := {
  e_free : freeblock s <= freeblock s';
  e_inode : freeinode s' = freeinode s;
  e_keep : forall x, 0 <= x < freeblock s \/ size - nlog <= x < size -> ~ owns (view s) d x -> sector s' x = sector s x;
  e_own : forall x, owns (view s') d' x -> owns (view s) d x \/ freeblock s <= x < freeblock s';
  e_type : d_type d' = d_type d;
  e_nlink : d_nlink d' = d_nlink d }.

Lemma ext_refl s d : ext s d s d.
Proof. split; try done. intros x Hx. by left. Qed.

Lemma ext_trans s d s1 d1 s2 d2 : freeblock s1 <= size - nlog -> freeblock s <= size - nlog -> ext s d s1 d1 -> ext s1 d1 s2 d2 -> ext s d s2 d2.
Proof.
  intros Hf1 Hf [A1 A2 A3 A4 A5 A6] [B1 B2 B3 B4 B5 B6]. split; [lia|congruence| | |congruence|congruence].
  - intros x Hx Hn. rewrite B3; [by apply A3|lia|]. intros Ho. destruct (A4 x Ho); [done|lia].
  - intros x Ho. destruct (B4 x Ho) as [H|H]; [destruct (A4 x H); [by left|right; lia]|right; lia].
Qed.

(** A file owns its first [n] blocks and its indirect block. *)
Lemma owns_blocks v fb d n hi x : mblocks v fb d n hi -> 0 <= n <= MAXFILE ->
  owns v d x <-> (hi = true /\ x = ind d) \/ exists bn, 0 <= bn < n /\ x = block_of v d bn.
Proof.
  intros M Hn. destruct M as [_ Hs Hz Hi _ _]. unfold owns. split.
  - intros [H0 [->|(bn & Hb & ->)]].
    + left. destruct hi; [done|congruence].
    + right. exists bn. split; [|done]. destruct (decide (bn < n)); [lia|]. rewrite Hz in H0 by lia. done.
  - intros [[-> ->]|(bn & Hb & ->)]; unfold d0 in *.
    + split; [lia|by left].
    + specialize (Hs bn Hb). split; [lia|]. right. exists bn. split; [lia|done].
Qed.

Lemma owns_range v fb d n hi x : mblocks v fb d n hi -> 0 <= n <= MAXFILE -> owns v d x -> d0 <= x < fb.
Proof.
  intros M Hn Ho. apply (owns_blocks _ _ _ _ _ _ M Hn) in Ho as [[-> ->]|(bn & Hb & ->)]; [apply M|by apply M].
Qed.

(** ** Appending to a file *)

(** From [n] to [n'] blocks: the old ones keep their numbers and contents. *)
Record grown (s : mstate) (d : dinode) (n : Z) (s' : mstate) (d' : dinode) (n' : Z) : Prop := {
  gw_geo : geo s';
  gw_ok : dinode_ok d';
  gw_blocks : mblocks (view s') (freeblock s') d' n' (NDIRECT <? n');
  gw_ext : ext s d s' d';
  gw_same : forall bn, 0 <= bn < n -> block_of (view s') d' bn = block_of (view s) d bn /\
    sector s' (block_of (view s) d bn) = sector s (block_of (view s) d bn);
  gw_new : forall bn, n <= bn < n' -> sector s' (block_of (view s') d' bn) = zeroes;
  gw_free : freeblock s' = freeblock s + cnt n' - cnt n }.

Lemma dinode_ok_set_addr i a d : dinode_ok d -> is_u32 a -> dinode_ok (set_addr i a d).
Proof.
  intros [H1 H2 H3 H4 H5 H6 H7] Ha. split; cbn [set_addr d_type d_major d_minor d_nlink d_size d_addrs]; try done.
  - by apply Forall_insert.
  - by rewrite length_insert.
Qed.

Lemma view_content s x : tv_content (view s) x = sector s x.
Proof. done. Qed.

Lemma free_u32 s : geo s -> is_u32 (freeblock s).
Proof. intros G. assert (H := g_free s G). unfold d0, size, nlog, Log.LOGSIZE, is_u32 in *. lia. Qed.

(** A direct block. *)
Lemma m_grow_direct s d n : geo s -> dinode_ok d -> mblocks (view s) (freeblock s) d n false -> 0 <= n < NDIRECT -> freeblock s < size - nlog ->
  grown s d n (take_block s) (set_addr (Z.to_nat n) (freeblock s) d) (n + 1).
Proof.
  intros G OK M Hn Hf. assert (Hfr := g_free s G). destruct (mblocks_direct _ _ _ _ _ M Hn (proj1 Hfr)) as [M' Hb].
  assert (Hi : (NDIRECT <? n + 1) = false) by (apply Z.ltb_ge; lia). assert (Hi0 : (NDIRECT <? n) = false) by (apply Z.ltb_ge; lia).
  assert (Hn1 : 0 <= n <= MAXFILE) by (unfold MAXFILE, NDIRECT, NINDIRECT in *; lia).
  assert (Hn2 : 0 <= n + 1 <= MAXFILE) by (unfold MAXFILE, NDIRECT, NINDIRECT in *; lia). split.
  - by apply geo_take.
  - apply dinode_ok_set_addr; [done|by apply free_u32].
  - rewrite Hi. exact M'.
  - split; try done; [cbn; lia|]. intros x Ho. apply (owns_blocks _ _ _ _ _ _ M' Hn2) in Ho as [[? _]|(bn & Hbn & ->)]; [done|].
    change (view (take_block s)) with (view s). rewrite Hb by lia. destruct (Z.eqb_spec bn n) as [->|]; [right; cbn; lia|].
    left. apply (owns_blocks _ _ _ _ _ _ M Hn1). right. exists bn. split; [lia|done].
  - intros bn Hbn. split; [|done]. change (view (take_block s)) with (view s). rewrite Hb by lia. by rewrite (proj2 (Z.eqb_neq bn n)) by lia.
  - intros bn Hbn. change (view (take_block s)) with (view s). rewrite Hb by lia. rewrite (proj2 (Z.eqb_eq bn n)) by lia.
    change (sector (take_block s)) with (sector s). apply G. lia.
  - unfold cnt. rewrite Hi, Hi0. cbn. lia.
Qed.

(** The indirect block, when the direct ones are used up. *)
Definition with_ind (s : mstate) (d : dinode) : mstate * dinode :=
  if ind d =? 0 then (take_block s, set_addr 12 (freeblock s) d) else (s, d).

(** An entry of the indirect block. *)
Definition with_entry (n : Z) (s : mstate) (d : dinode) : mstate :=
  put_sec (ind d) (put_addr (sector s (ind d)) (n - NDIRECT) (freeblock s)) (take_block s).

Lemma m_grow_entry s d n : geo s -> dinode_ok d -> mblocks (view s) (freeblock s) d n true -> NDIRECT <= n < MAXFILE -> freeblock s < size - nlog ->
  geo (with_entry n s d) /\ mblocks (view (with_entry n s d)) (freeblock s + 1) d (n + 1) true /\
  (forall bn, 0 <= bn < MAXFILE -> block_of (view (with_entry n s d)) d bn = if bn =? n then freeblock s else block_of (view s) d bn) /\
  (forall x, 0 <= x -> x <> ind d -> sector (with_entry n s d) x = sector s x).
Proof.
  intros G OK M Hn Hf. assert (Hfr := g_free s G). assert (Hi := mb_ind _ _ _ _ _ M). cbv iota in Hi.
  assert (Hr : 0 <= ind d < size) by (unfold d0, nlog, Log.LOGSIZE in *; lia). assert (Hl := g_sec s G (ind d) Hr).
  assert (Gt := geo_take s G Hf).
  assert (Hs : forall x, 0 <= x -> sector (with_entry n s d) x = if x =? ind d then put_addr (sector s (ind d)) (n - NDIRECT) (freeblock s) else sector s x).
  { intros x Hx. unfold with_entry. by rewrite (sector_put _ _ _ _ Gt Hr Hx). }
  destruct (mblocks_put (view s) (view (with_entry n s d)) (freeblock s) d n M Hn (proj1 Hfr) (free_u32 s G) Hl) as [M' Hb].
  { rewrite !view_content, Hs, Z.eqb_refl by lia. done. }
  split_and!; [|done|done|].
  - unfold with_entry. apply geo_put; [done|unfold d0 in *; cbn; lia|]. apply length_put_addr; [done|unfold MAXFILE, NDIRECT, NINDIRECT in *; lia].
  - intros x Hx Hne. rewrite Hs by done. by rewrite (proj2 (Z.eqb_neq _ _) Hne).
Qed.

Lemma m_grow_ind s d n : geo s -> dinode_ok d -> mblocks (view s) (freeblock s) d n (NDIRECT <? n) -> NDIRECT <= n < MAXFILE ->
  freeblock s + (if n =? NDIRECT then 1 else 0) < size - nlog ->
  let '(s1, d1) := with_ind s d in
  geo s1 /\ dinode_ok d1 /\ mblocks (view s1) (freeblock s1) d1 n true /\ ext s d s1 d1 /\
  freeblock s1 = freeblock s + (if n =? NDIRECT then 1 else 0) /\
  (forall bn, 0 <= bn < MAXFILE -> block_of (view s1) d1 bn = block_of (view s) d bn) /\ sector s1 = sector s.
Proof.
  intros G OK M Hn Hf. assert (Hfr := g_free s G). unfold with_ind. assert (Hi := mb_ind _ _ _ _ _ M). unfold d0 in *.
  destruct (Z.eqb_spec n NDIRECT) as [->|Hne].
  - rewrite Z.ltb_irrefl in M, Hi. rewrite Hi, Z.eqb_refl.
    assert (Hz : tv_content (view s) (freeblock s) = zeroes) by (rewrite view_content; apply G; lia).
    destruct (mblocks_indirect _ _ _ _ M) as (M' & Ei & Hb); [unfold NDIRECT; lia|unfold d0; lia|done|].
    assert (Hn2 : 0 <= NDIRECT <= MAXFILE) by (by vm_compute).
    split_and!; [apply geo_take; [done|lia]|apply dinode_ok_set_addr; [done|by apply free_u32]|exact M'| |done|exact Hb|done].
    split; try done; [cbn; lia|]. intros x Ho. apply (owns_blocks _ _ _ _ _ _ M' Hn2) in Ho as [[_ ->]|(bn & Hbn & ->)].
    + right. rewrite Ei. cbn. lia.
    + left. change (view (take_block s)) with (view s). unfold NDIRECT, MAXFILE, NINDIRECT in *. rewrite Hb by lia.
      apply (owns_blocks _ _ _ _ _ _ M Hn2). right. by exists bn.
  - rewrite (proj2 (Z.ltb_lt NDIRECT n)) in M, Hi by lia. rewrite (proj2 (Z.eqb_neq (ind d) 0)) by lia.
    split_and!; try done; [apply ext_refl|lia].
Qed.

Lemma m_grow_indirect s d n : geo s -> dinode_ok d -> mblocks (view s) (freeblock s) d n (NDIRECT <? n) -> NDIRECT <= n < MAXFILE ->
  freeblock s + (if n =? NDIRECT then 1 else 0) < size - nlog ->
  grown s d n (with_entry n (fst (with_ind s d)) (snd (with_ind s d))) (snd (with_ind s d)) (n + 1).
Proof.
  intros G OK M Hn Hf. assert (Hw := m_grow_ind s d n G OK M Hn Hf). destruct (with_ind s d) as [s1 d1].
  destruct Hw as (G1 & OK1 & M1 & E1 & F1 & B1 & S1). cbn [fst snd].
  destruct (m_grow_entry s1 d1 n G1 OK1 M1 Hn) as (G2 & M2 & B2 & S2); [lia|].
  assert (Hfr := g_free s G). assert (Hfr1 := g_free s1 G1). assert (Hi1 := mb_ind _ _ _ _ _ M1). cbv iota in Hi1.
  assert (Hnn : 0 <= n <= MAXFILE /\ 0 <= n + 1 <= MAXFILE) by (unfold NDIRECT in *; lia). destruct Hnn as [Hn1 Hn2].
  assert (Hlt : (NDIRECT <? n + 1) = true) by (apply Z.ltb_lt; lia). unfold d0 in *.
  assert (E2 : ext s1 d1 (with_entry n s1 d1) d1).
  { split; try done.
    - cbn. lia.
    - intros x Hx Hno. apply S2; [unfold size, nlog, Log.LOGSIZE in *; lia|]. intros ->. apply Hno. apply (owns_blocks _ _ _ _ _ _ M1 Hn1). by left.
    - intros x Ho. apply (owns_blocks _ _ _ _ _ _ M2 Hn2) in Ho as [[_ ->]|(bn & Hbn & ->)].
      + left. apply (owns_blocks _ _ _ _ _ _ M1 Hn1). by left.
      + rewrite B2 by lia. destruct (Z.eqb_spec bn n); [right; cbn; lia|]. left. apply (owns_blocks _ _ _ _ _ _ M1 Hn1). right. exists bn. split; [lia|done]. }
  split; [done|done| | | | |].
  - rewrite Hlt. exact M2.
  - by apply (ext_trans s d s1 d1); [lia|lia| |].
  - intros bn Hbn. rewrite B2, (proj2 (Z.eqb_neq bn n)), B1 by lia. split; [done|].
    assert (Hb := mb_some _ _ _ _ _ M1 bn Hbn). assert (Hne := mb_ind_ne _ _ _ _ _ M1 bn Hbn). rewrite B1 in Hb, Hne by lia. unfold d0 in *.
    rewrite S2, S1 by (done || lia). done.
  - intros bn Hbn. rewrite B2 by lia. rewrite (proj2 (Z.eqb_eq bn n)) by lia. rewrite S2 by lia. apply G1. lia.
  - unfold cnt. rewrite Hlt. cbn [freeblock with_entry put_sec take_block]. rewrite F1.
    destruct (Z.eqb_spec n NDIRECT) as [->|]; [rewrite Z.ltb_irrefl; lia|rewrite (proj2 (Z.ltb_lt NDIRECT n)) by lia; lia].
Qed.

(** [iblock] of a block the file has. *)
Lemma iblock_old s d n fbn Q : geo s -> dinode_ok d -> mblocks (view s) (freeblock s) d n (NDIRECT <? n) -> 0 <= fbn < n -> 0 <= n <= MAXFILE ->
  (grown s d n s d n -> Q (d, block_of (view s) d fbn) s) -> wp (iblock d fbn) Q s.
Proof.
  intros G OK M Hr Hn HQ. assert (Gr : grown s d n s d n) by (split; try done; [apply ext_refl|lia|lia]).
  specialize (HQ Gr). assert (Hb := mb_some _ _ _ _ _ M fbn ltac:(lia)). unfold iblock, d0 in *.
  destruct (Z.ltb_spec fbn NDIRECT) as [Hlt|Hge].
  - rewrite block_of_low in Hb, HQ by done. rewrite (proj2 (Z.eqb_neq _ 0)) by lia. apply wp_bind, wp_ret, wp_ret. exact HQ.
  - assert (Hi := mb_ind _ _ _ _ _ M). rewrite (proj2 (Z.ltb_lt NDIRECT n)) in Hi by lia. unfold d0 in Hi.
    rewrite block_of_high, (proj2 (Z.eqb_neq (ind d) 0)), view_content in Hb, HQ by lia. change (addr (Z.to_nat NDIRECT)) with ind.
    assert (Hfr := g_free s G). rewrite (proj2 (Z.eqb_neq (ind d) 0)) by lia. apply wp_bind, wp_ret, wp_bind, wp_rsect; [done|unfold size, nlog, Log.LOGSIZE in *; lia|].
    rewrite (proj2 (Z.eqb_neq (get_addr _ _) 0)) by lia. apply wp_bind, wp_ret, wp_ret. exact HQ.
Qed.

(** [iblock] of a block the file has, or of the next one. *)
Lemma iblock_wp s d n fbn Q : geo s -> dinode_ok d -> mblocks (view s) (freeblock s) d n (NDIRECT <? n) ->
  0 <= fbn < MAXFILE -> 0 <= n <= MAXFILE -> fbn <= n -> freeblock s + cnt (Z.max n (fbn + 1)) - cnt n <= size - nlog ->
  (forall s' d', grown s d n s' d' (Z.max n (fbn + 1)) -> Q (d', block_of (view s') d' fbn) s') ->
  wp (iblock d fbn) Q s.
Proof.
  intros G OK M Hr Hn Hle Hf HQ. destruct (decide (fbn = n)) as [->|Hne].
  - rewrite Z.max_r in Hf, HQ by lia. unfold cnt in Hf. assert (Hz := mb_none _ _ _ _ _ M n ltac:(lia)). unfold iblock.
    destruct (Z.ltb_spec n NDIRECT) as [Hlt|Hge].
    + rewrite (proj2 (Z.ltb_ge NDIRECT n)) in M, Hf by lia. rewrite (proj2 (Z.ltb_ge NDIRECT (n + 1))) in Hf by lia.
      assert (Gr := m_grow_direct s d n G OK M ltac:(lia) ltac:(lia)). specialize (HQ _ _ Gr).
      rewrite block_of_low in Hz, HQ by done. rewrite Hz, Z.eqb_refl. apply wp_bind, wp_bind, wp_newblock; [done|lia|]. apply wp_ret, wp_ret. exact HQ.
    + assert (Hf' : freeblock s + (if n =? NDIRECT then 1 else 0) < size - nlog).
      { rewrite (proj2 (Z.ltb_lt NDIRECT (n + 1))) in Hf by lia. destruct (Z.eqb_spec n NDIRECT), (Z.ltb_spec NDIRECT n); lia. }
      assert (Gr := m_grow_indirect s d n G OK M ltac:(lia) Hf'). specialize (HQ _ _ Gr). clear Gr.
      assert (Hw := m_grow_ind s d n G OK M ltac:(lia) Hf').
      apply wp_bind. change (addr (Z.to_nat NDIRECT)) with ind.
      eapply (wp_mono _ (fun d' s' => (s', d') = with_ind s d)).
      { unfold with_ind. destruct (ind d =? 0); [|by apply wp_ret]. apply wp_bind, wp_newblock; [done|destruct (n =? NDIRECT); lia|]. by apply wp_ret. }
      intros d1 s1 Ew. rewrite <- Ew in Hw, HQ. destruct Hw as (G1 & OK1 & M1 & E1 & F1 & B1 & S1). cbn [fst snd] in HQ.
      assert (Hi1 := mb_ind _ _ _ _ _ M1). assert (Hfr1 := g_free s1 G1). unfold d0 in *.
      assert (Hi2 : 0 <= ind d1 < size) by (unfold size, nlog, Log.LOGSIZE in *; lia).
      apply wp_bind, wp_rsect; [done|done|]. rewrite <- B1 in Hz by lia.
      rewrite block_of_high, (proj2 (Z.eqb_neq (ind d1) 0)), view_content in Hz by lia. rewrite Hz, Z.eqb_refl.
      apply wp_bind, wp_bind, wp_newblock; [done|lia|]. apply wp_bind, wp_wsect; [apply geo_take; [done|lia]|done|]. apply wp_ret, wp_ret.
      change (put_sec _ _ (take_block s1)) with (with_entry n s1 d1).
      replace (get_addr _ _) with (block_of (view (with_entry n s1 d1)) d1 n); [exact HQ|].
      rewrite block_of_high, (proj2 (Z.eqb_neq (ind d1) 0)), view_content by lia. f_equal. unfold with_entry.
      rewrite (sector_put _ _ _ _ (geo_take s1 G1 ltac:(lia)) Hi2) by lia. by rewrite Z.eqb_refl.
  - rewrite Z.max_l in HQ by lia. apply (iblock_old s d n fbn); [done|done|done|lia|done|]. apply HQ.
Qed.

(** The inode [d], whatever its size field, has the contents [data]; the rest of the
    last block is zero. *)
Record holds (s : mstate) (d : dinode) (data : list Z) : Prop := {
  h_geo : geo s;
  h_ok : dinode_ok d;
  h_max : Z.of_nat (length data) <= MAXFILE * BSIZE;
  h_blocks : mblocks (view s) (freeblock s) d (nb (Z.of_nat (length data))) (NDIRECT <? nb (Z.of_nat (length data)));
  h_data : forall i, 0 <= i < Z.of_nat (length data) -> data !! Z.to_nat i = Some (fbyte (view s) d i);
  h_tail : forall i, Z.of_nat (length data) <= i < nb (Z.of_nat (length data)) * 512 -> fbyte (view s) d i = 0 }.

Lemma cnt_mono n m : n <= m -> cnt n <= cnt m.
Proof. intros H. unfold cnt. destruct (Z.ltb_spec NDIRECT n), (Z.ltb_spec NDIRECT m); lia. Qed.

Lemma nblk_mono n m : n <= m -> nblk n <= nblk m.
Proof. intros H. apply cnt_mono. unfold nb. dlia. Qed.

Lemma nb_range n : 0 <= n <= MAXFILE * BSIZE -> 0 <= nb n <= MAXFILE.
Proof. unfold nb, MAXFILE, NDIRECT, NINDIRECT, BSIZE. intros H. dlia. Qed.

Section Chunk.
Context (s : mstate) (d : dinode) (data chunk : list Z) (s1 : mstate) (d1 : dinode).
Let off := Z.of_nat (length data).
Let m := Z.of_nat (length chunk).
Let fbn := off / 512.
Context (H : holds s d data) (Hm : 0 < m <= (fbn + 1) * 512 - off) (Hfbn : fbn < MAXFILE).
Context (Gr : grown s d (nb off) s1 d1 (fbn + 1)).
Let x := block_of (view s1) d1 fbn.
Let s2 := put_sec x (splice (sector s1 x) (Z.to_nat (off - fbn * 512)) chunk) s1.

Lemma chunk_nb : nb (off + m) = fbn + 1 /\ nb off <= fbn + 1 /\ 0 <= fbn /\ fbn <= nb off.
Proof using Hm. clear -Hm. subst off m fbn. unfold nb. dlia. Qed.

Lemma chunk_x : d0 <= x < freeblock s1 /\ 0 <= x < size /\ length (sector s1 x) = Bio.BSIZE.
Proof using Gr Hm.
  destruct chunk_nb as (_ & _ & H0 & _). assert (Hx := mb_some _ _ _ _ _ (gw_blocks _ _ _ _ _ _ Gr) fbn ltac:(lia)). fold x in Hx.
  assert (G1 := gw_geo _ _ _ _ _ _ Gr). assert (Hfr := g_free s1 G1). unfold d0, size, nlog, Log.LOGSIZE in *.
  split_and!; [lia..|]. apply G1. unfold size. lia.
Qed.

Lemma chunk_len : length (splice (sector s1 x) (Z.to_nat (off - fbn * 512)) chunk) = Bio.BSIZE.
Proof using Gr Hm.
  destruct chunk_x as (_ & _ & Hl). destruct chunk_nb as (_ & _ & H0 & _). rewrite length_splice; [done|]. rewrite Hl. unfold Bio.BSIZE. subst off m fbn. dlia.
Qed.

Lemma chunk_geo : geo s2.
Proof using Gr Hm.
  destruct chunk_x as (Hx & _ & _). apply geo_put; [apply Gr|unfold d0 in *; lia|apply chunk_len].
Qed.

Lemma chunk_sector y : 0 <= y -> sector s2 y = if y =? x then splice (sector s1 x) (Z.to_nat (off - fbn * 512)) chunk else sector s1 y.
Proof using Gr Hm. intros Hy. destruct chunk_x as (_ & Hx & _). apply sector_put; [apply Gr|done|done]. Qed.

Lemma chunk_block bn : block_of (view s2) d1 bn = block_of (view s1) d1 bn.
Proof using Gr Hm.
  apply block_of_frame. rewrite !view_content. destruct chunk_nb as (_ & _ & H0 & _).
  assert (M := gw_blocks _ _ _ _ _ _ Gr). assert (Hne := mb_ind_ne _ _ _ _ _ M fbn ltac:(lia)). fold x in Hne.
  assert (Hi : 0 <= ind d1) by (assert (Hi := mb_ind _ _ _ _ _ M); revert Hi; destruct (_ <? _); unfold d0; lia). rewrite chunk_sector by done.
  by rewrite (proj2 (Z.eqb_neq (ind d1) x)) by congruence.
Qed.

Lemma chunk_bytes i : 0 <= i < off + m -> (data ++ chunk) !! Z.to_nat i = Some (fbyte (view s2) d1 i).
Proof using Gr H Hm.
  intros Hi. destruct chunk_nb as (_ & Hnb & H0 & Hnb'). destruct chunk_x as (Hx & Hxs & Hxl). assert (M := gw_blocks _ _ _ _ _ _ Gr).
  assert (Hib : 0 <= i / 512 < fbn + 1) by (subst off m fbn; dlia). assert (Hby := mb_some _ _ _ _ _ M (i / 512) Hib).
  unfold fbyte. rewrite chunk_block, view_content. unfold BSIZE. rewrite chunk_sector by (unfold d0 in *; lia).
  assert (Hold : i < off -> data !! Z.to_nat i = Some (default 0 (sector s1 (block_of (view s1) d1 (i / 512)) !! Z.to_nat (i mod 512)))).
  { intros Hlt. rewrite (h_data _ _ _ H i) by (fold off; lia). unfold fbyte, BSIZE. rewrite view_content.
    destruct (gw_same _ _ _ _ _ _ Gr (i / 512)) as [Eb Es]; [subst off; unfold nb; dlia|]. by rewrite Eb, Es. }
  destruct (decide (i / 512 = fbn)) as [Eq|Hne].
  - rewrite Eq. fold x. rewrite Z.eqb_refl, lookup_splice by (rewrite Hxl; unfold Bio.BSIZE; subst off m fbn; dlia).
    destruct (decide (i < off)) as [Hlt|Hge].
    + rewrite decide_False by (subst off m fbn; dlia). rewrite lookup_app_l by (subst off; lia). rewrite Hold by done. by rewrite Eq.
    + rewrite decide_True by (subst off m fbn; dlia). rewrite lookup_app_r by (subst off; lia).
      replace (Z.to_nat (i mod 512) - Z.to_nat (off - fbn * 512))%nat with (Z.to_nat i - length data)%nat by (subst off m fbn; dlia).
      destruct (lookup_lt_is_Some_2 chunk (Z.to_nat i - length data)) as [c Hc]; [subst off m; lia|]. by rewrite Hc.
  - rewrite (proj2 (Z.eqb_neq _ x)) by (intros E; apply Hne; apply (mb_inj _ _ _ _ _ M); [lia|lia|done]).
    assert (Hlt : i < off) by (subst off m fbn; dlia). rewrite lookup_app_l by (subst off; lia). by apply Hold.
Qed.

Lemma chunk_tail i : off + m <= i < (fbn + 1) * 512 -> fbyte (view s2) d1 i = 0.
Proof using Gr H Hm.
  intros Hi. destruct chunk_nb as (_ & Hnb & H0 & Hnb'). destruct chunk_x as (Hx & Hxs & Hxl).
  assert (Eq : i / 512 = fbn) by (subst off m fbn; dlia). unfold fbyte, BSIZE. rewrite chunk_block, view_content, Eq. fold x.
  rewrite chunk_sector, Z.eqb_refl by lia. rewrite lookup_splice by (rewrite Hxl; unfold Bio.BSIZE; subst off m fbn; dlia).
  rewrite decide_False by (subst off m fbn; dlia). destruct (decide (nb off = fbn)) as [E|E].
  - unfold x. rewrite (gw_new _ _ _ _ _ _ Gr fbn) by lia. unfold zeroes. destruct (replicate 512 0 !! Z.to_nat (i mod 512)) as [z|] eqn:Ez; [|done].
    by apply lookup_replicate in Ez as [-> _].
  - destruct (gw_same _ _ _ _ _ _ Gr fbn) as [Eb Es]; [lia|]. assert (Ht := h_tail _ _ _ H i). fold off in Ht. unfold fbyte, BSIZE in Ht.
    rewrite Eq, view_content, <- Es, <- Eb in Ht. apply Ht. subst off m fbn. lia.
Qed.

Lemma chunk_ext : ext s d s2 d1.
Proof using Gr H Hm Hfbn.
  destruct chunk_x as (Hx & Hxs & Hxl). destruct chunk_nb as (_ & _ & H0 & _). assert (M := gw_blocks _ _ _ _ _ _ Gr). assert (Hn : 0 <= fbn + 1 <= MAXFILE) by lia.
  apply (ext_trans s d s1 d1); [apply (g_free s1), Gr|apply (g_free s), H|apply Gr|]. split; try done.
  - intros y Hy Hno. rewrite chunk_sector by (unfold size, nlog, Log.LOGSIZE in *; lia).
    rewrite (proj2 (Z.eqb_neq y x)); [done|]. intros ->. apply Hno. apply (owns_blocks _ _ _ _ _ _ M Hn). right. exists fbn. split; [lia|done].
  - intros y [Hy Ho]. left. split; [done|]. destruct Ho as [->|(bn & Hb & ->)]; [by left|]. right. exists bn. by rewrite chunk_block.
Qed.

(** The file after the chunk has been written. *)
Lemma chunk_holds : holds s2 d1 (data ++ chunk).
Proof using Gr H Hm Hfbn.
  destruct chunk_nb as (En & _ & H0 & _). assert (M := gw_blocks _ _ _ _ _ _ Gr).
  assert (El : Z.of_nat (length (data ++ chunk)) = off + m) by (rewrite length_app; subst off m; lia).
  split; rewrite ?El; [apply chunk_geo|apply Gr| | |apply chunk_bytes|rewrite En; apply chunk_tail].
  - unfold MAXFILE, BSIZE, NDIRECT, NINDIRECT in *. subst off m fbn. dlia.
  - rewrite En. destruct M as [A1 A2 A3 A4 A5 A6]. split; intros; rewrite ?chunk_block in *; auto.
Qed.
End Chunk.

Lemma iappend_loop_wp fuel p s d data : (length p <= fuel)%nat -> holds s d data ->
  let n := Z.of_nat (length data) in let n' := n + Z.of_nat (length p) in
  n' <= MAXFILE * BSIZE -> freeblock s + nblk n' - nblk n <= size - nlog ->
  wp (iappend_loop fuel d n p) (fun r s' => snd r = n' /\ holds s' (fst r) (data ++ p) /\ ext s d s' (fst r) /\
    freeblock s' = freeblock s + nblk n' - nblk n) s.
Proof.
  revert p s d data. induction fuel as [|fuel IH]; intros p s d data Hl H n n' Hmax Hf.
  - destruct p; [|simpl in Hl; lia]. apply wp_ret. subst n'. rewrite app_nil_r. split_and!; [simpl; lia|done|apply ext_refl|simpl; rewrite Z.add_0_r; lia].
  - cbn [iappend_loop]. destruct (Z.ltb_spec 0 (Z.of_nat (length p))) as [Hp|Hp].
    2: { destruct p; [|simpl in Hp; lia]. apply wp_ret. subst n'. rewrite app_nil_r. split_and!; [simpl; lia|done|apply ext_refl|simpl; rewrite Z.add_0_r; lia]. }
    assert (Hfb : 0 <= n / 512 < MAXFILE) by (subst n n'; unfold MAXFILE, NDIRECT, NINDIRECT, BSIZE in *; dlia).
    rewrite (proj2 (Z.ltb_lt _ _) (proj2 Hfb)). cbn [negb].
    set (m := Z.min (Z.of_nat (length p)) ((n / 512 + 1) * 512 - n)). set (chunk := take (Z.to_nat m) p).
    assert (Hm : 0 < m <= (n / 512 + 1) * 512 - n /\ m <= Z.of_nat (length p)) by (subst m n; dlia).
    assert (Hc : Z.of_nat (length chunk) = m) by (subst chunk; rewrite length_take; lia).
    assert (Hnb : nb (n + m) = n / 512 + 1 /\ n / 512 <= nb n <= n / 512 + 1) by (clear -Hm; subst n; unfold nb; dlia).
    assert (Hmono := nblk_mono (n + m) n' ltac:(subst n'; lia)). destruct Hnb as [En Hn].
    assert (Hmx : Z.max (nb n) (n / 512 + 1) = n / 512 + 1) by lia.
    assert (Hr := nb_range n ltac:(subst n n'; lia)).
    apply wp_bind, (iblock_wp s d (nb n) (n / 512)); [apply H|apply H|apply H|done|done|lia| |].
    { rewrite Hmx, <- En. unfold nblk in Hf, Hmono. lia. }
    rewrite Hmx. intros s1 d1 Gr. assert (Hcm : 0 < Z.of_nat (length chunk) <= (n / 512 + 1) * 512 - n) by lia.
    destruct (chunk_x s d data chunk s1 d1 Hcm Gr) as (_ & Hxs & _).
    apply wp_bind, wp_rsect; [apply Gr|done|]. apply wp_bind, wp_wsect; [apply Gr|done|]. fold chunk.
    assert (H2 := chunk_holds s d data chunk s1 d1 H Hcm (proj2 Hfb) Gr). assert (E2 := chunk_ext s d data chunk s1 d1 H Hcm (proj2 Hfb) Gr).
    fold n in H2, E2. set (s2 := put_sec _ _ s1) in *.
    assert (Ef : freeblock s2 = freeblock s + nblk (n + m) - nblk n) by (unfold nblk; rewrite En; exact (gw_free _ _ _ _ _ _ Gr)).
    assert (El : Z.of_nat (length (data ++ chunk)) = n + m) by (rewrite length_app; lia).
    assert (Ed : Z.of_nat (length (drop (Z.to_nat m) p)) = Z.of_nat (length p) - m) by (rewrite length_drop; lia).
    assert (Et : n + m + (Z.of_nat (length p) - m) = n') by (subst n'; lia).
    specialize (IH (drop (Z.to_nat m) p) s2 d1 (data ++ chunk) ltac:(lia) H2). cbv zeta in IH. rewrite El, Ed, Et in IH.
    eapply wp_mono; [apply IH; [done|lia]|]. intros [d3 o3] s3 (Eo & H3 & E3 & F3). cbn [fst snd] in *.
    rewrite <- app_assoc in H3. unfold chunk in H3. rewrite take_drop in H3. split_and!; [done|done| |lia].
    apply (ext_trans s d s2 d1); [apply (g_free s2), H2|apply (g_free s), H|done|done].
Qed.

(** ** Inodes *)

(** The files of the image: type and contents by inode number. *)
Record minv (s : mstate) (F : gmap Z (Z * list Z)) : Prop := {
  mi_geo : geo s;
  mi_file : forall i t data, F !! i = Some (t, data) -> 0 < i < ninodes /\ holds s (dino s i) data /\
    d_size (dino s i) = Z.of_nat (length data) /\ d_type (dino s i) = t /\ d_nlink (dino s i) = 1;
  mi_disj : forall i j x, is_Some (F !! i) -> is_Some (F !! j) -> i <> j -> owns (view s) (dino s i) x -> ~ owns (view s) (dino s j) x;
  mi_none : forall i, 0 <= i < ninodes -> F !! i = None -> dino s i = zero_dinode;
  mi_super : sector s 1 = splice zeroes 0 super;
  mi_log : forall x, size - nlog <= x < size -> sector s x = zeroes }.

(** What only changes the blocks of other files keeps a file. *)
Lemma holds_keep s s' d data : holds s d data -> geo s' -> freeblock s <= freeblock s' ->
  (forall x, owns (view s) d x -> sector s' x = sector s x) ->
  holds s' d data /\ forall x, owns (view s') d x -> owns (view s) d x.
Proof.
  intros [G OK Hmax M Hd Htl] G' Hf Hk. assert (Hn := nb_range (Z.of_nat (length data)) ltac:(lia)). set (n := nb _) in *.
  assert (Hb : forall bn, block_of (view s') d bn = block_of (view s) d bn).
  { intros bn. unfold block_of. destruct (bn <? NDIRECT); [done|]. destruct (Z.eqb_spec (ind d) 0); [done|].
    rewrite !view_content, Hk; [done|]. split; [done|by left]. }
  assert (Hfb : forall i, 0 <= i < n * 512 -> fbyte (view s') d i = fbyte (view s) d i).
  { intros i Hi. unfold fbyte. rewrite !Hb, !view_content, Hk; [done|].
    assert (Hib : 0 <= i / BSIZE < n) by (unfold BSIZE; dlia). assert (Hs := mb_some _ _ _ _ _ M _ Hib). unfold d0 in *.
    split; [lia|]. right. exists (i / BSIZE). split; [lia|done]. }
  assert (Hle : Z.of_nat (length data) <= n * 512) by (subst n; unfold nb; dlia).
  split; [split; [done|done|done| | |]|].
  - destruct M as [A1 A2 A3 A4 A5 A6]. split; [done| | | | |].
    + intros bn Hbn. rewrite Hb. specialize (A2 bn Hbn). lia.
    + intros bn Hbn. rewrite Hb. by apply A3.
    + fold n. revert A4. destruct (NDIRECT <? n); [lia|done].
    + intros bn bn' H1 H2. rewrite !Hb. by apply A5.
    + intros bn Hbn. rewrite Hb. by apply A6.
  - intros i Hi. rewrite Hd, Hfb by lia. done.
  - intros i Hi. fold n in Hi. rewrite Hfb by lia. apply Htl. fold n. lia.
  - intros x [H0 Ho]. split; [done|]. destruct Ho as [->|(bn & Hbn & ->)]; [by left|]. right. exists bn. by rewrite Hb.
Qed.

Lemma i2b_range i : 0 <= i < ninodes -> 2 <= i2b i < d0 - 1.
Proof. unfold i2b, ninodes, IPB, d0. intros H. dlia. Qed.

Definition set_dino (i : Z) (d : dinode) (s : mstate) : mstate := put_sec (i2b i) (put_dinode (sector s (i2b i)) i d) s.

Lemma wp_winode i d s Q : geo s -> 0 <= i < ninodes -> Q tt (set_dino i d s) -> wp (winode i d) Q s.
Proof.
  intros G Hi HQ. assert (Hb := i2b_range i Hi). unfold d0 in Hb. assert (Hs : 0 <= i2b i < size) by (unfold size; lia).
  unfold winode. apply wp_bind, wp_rsect; [done|done|]. by apply wp_wsect.
Qed.

Lemma wp_rinode i s Q : geo s -> 0 <= i < ninodes -> Q (dino s i) s -> wp (rinode i) Q s.
Proof.
  intros G Hi HQ. assert (Hb := i2b_range i Hi). unfold d0 in Hb. unfold rinode. apply wp_bind, wp_rsect; [done|unfold size; lia|]. by apply wp_ret.
Qed.

Lemma set_dino_sector i d s x : geo s -> 0 <= i < ninodes -> 0 <= x -> x <> i2b i -> sector (set_dino i d s) x = sector s x.
Proof.
  intros G Hi Hx Hne. assert (Hb := i2b_range i Hi). unfold d0 in Hb. unfold set_dino. rewrite sector_put by (done || unfold size; lia).
  by rewrite (proj2 (Z.eqb_neq _ _) Hne).
Qed.

Lemma geo_set_dino i d s : geo s -> 0 <= i < ninodes -> dinode_ok d -> geo (set_dino i d s).
Proof.
  intros G Hi OK. assert (Hb := i2b_range i Hi). assert (Hf := g_free s G). unfold d0 in *.
  apply geo_put; [done|lia|]. apply length_put_dinode; [apply G; unfold size; lia|apply OK].
Qed.

Lemma dino_set i d s j : geo s -> 0 <= i < ninodes -> 0 <= j < ninodes -> dinode_ok d ->
  dino (set_dino i d s) j = if decide (j = i) then d else dino s j.
Proof.
  intros G Hi Hj OK. assert (Hb := i2b_range i Hi). assert (Hbj := i2b_range j Hj). unfold d0 in *. unfold dino, set_dino.
  rewrite sector_put by (done || unfold size; lia). destruct (Z.eqb_spec (i2b j) (i2b i)) as [E|E].
  - rewrite get_put_dinode; [|apply G; unfold size; lia|done|lia|lia|unfold i2b, IPB in *; lia]. by rewrite E.
  - rewrite decide_False by congruence. done.
Qed.

Lemma dinode_ok_set_size z d : dinode_ok d -> is_u32 z -> dinode_ok (set_size z d).
Proof. intros [H1 H2 H3 H4 H5 H6 H7] Hz. by split. Qed.

Lemma holds_set_size s d data z : holds s d data -> is_u32 z -> holds s (set_size z d) data.
Proof.
  intros [G OK Hmax [A1 A2 A3 A4 A5 A6] Hd Htl] Hz. split; [done|by apply dinode_ok_set_size|done| |exact Hd|exact Htl].
  split; [exact A1|exact A2|exact A3|exact A4|exact A5|exact A6].
Qed.

(** The blocks of a file are data blocks in use. *)
Lemma holds_range s d data x : holds s d data -> owns (view s) d x -> d0 <= x < freeblock s.
Proof. intros H Ho. apply (owns_range _ _ _ _ _ _ (h_blocks _ _ _ H)); [|done]. apply nb_range. split; [lia|apply H]. Qed.

(** An inode written for a file whose blocks are apart from those of the others. *)
Section SetInode.
Context (s : mstate) (F : gmap Z (Z * list Z)) (s1 : mstate) (i t : Z) (data : list Z) (d : dinode).
Context (I : minv s F) (G1 : geo s1) (Hf : freeblock s <= freeblock s1) (Hi : 0 < i < ninodes).
Context (Hlow : forall x, 0 <= x < d0 \/ size - nlog <= x < size -> sector s1 x = sector s x).
Context (Hsep : forall j x, j <> i -> is_Some (F !! j) -> owns (view s) (dino s j) x -> sector s1 x = sector s x /\ ~ owns (view s1) d x).
Context (Hh : holds s1 d data) (Hz : d_size d = Z.of_nat (length data)) (Ht : d_type d = t) (Hl : d_nlink d = 1).
Let s2 := set_dino i d s1.

Lemma set_geo : geo s2.
Proof using All. apply geo_set_dino; [done|lia|apply Hh]. Qed.

Lemma set_high x : d0 - 1 <= x -> sector s2 x = sector s1 x.
Proof using All. intros Hx. assert (Hb := i2b_range i ltac:(lia)). apply set_dino_sector; unfold d0 in *; (done || lia). Qed.

Lemma set_dinos j : 0 <= j < ninodes -> dino s2 j = if decide (j = i) then d else dino s j.
Proof using All.
  intros Hj. unfold s2. rewrite dino_set by (done || lia || apply Hh). case_decide; [done|]. unfold dino. rewrite Hlow; [done|].
  assert (Hbj := i2b_range j Hj). lia.
Qed.

Lemma set_new : holds s2 d data /\ forall x, owns (view s2) d x -> owns (view s1) d x.
Proof using All.
  apply holds_keep; [done|apply set_geo|done|]. intros x Ho. apply set_high. apply (holds_range _ _ _ _ Hh) in Ho. lia.
Qed.

Lemma set_old j u dat : F !! j = Some (u, dat) -> j <> i ->
  holds s2 (dino s j) dat /\ forall x, owns (view s2) (dino s j) x -> owns (view s) (dino s j) x.
Proof using All.
  intros Hj Hne. destruct (mi_file _ _ I _ _ _ Hj) as (_ & Hhj & _). apply holds_keep; [done|apply set_geo|exact Hf|].
  intros x Ho. assert (Hx := holds_range _ _ _ _ Hhj Ho). rewrite set_high by lia. by apply (Hsep j).
Qed.

Lemma set_apart j k x : is_Some (<[i:=(t, data)]> F !! j) -> is_Some (<[i:=(t, data)]> F !! k) -> j <> k ->
  owns (view s2) (dino s2 j) x -> ~ owns (view s2) (dino s2 k) x.
Proof using All.
  intros Hj Hk Hne.
  assert (Hr : forall l, is_Some (<[i:=(t, data)]> F !! l) -> l = i \/ (l <> i /\ 0 <= l < ninodes /\ exists u dat, F !! l = Some (u, dat))).
  { intros l Hl'. destruct (decide (l = i)); [by left|right]. rewrite lookup_insert_ne in Hl' by done. destruct Hl' as [[u dat] E].
    split_and!; [done|apply (mi_file _ _ I) in E; lia..|by exists u, dat]. }
  assert (Hi0 : 0 <= i < ninodes) by lia. destruct set_new as [_ Ho2].
  destruct (Hr j Hj) as [->|(Nj & Rj & uj & dj & Fj)], (Hr k Hk) as [->|(Nk & Rk & uk & dk & Fk)]; [done|..]; rewrite !set_dinos by done.
  - rewrite decide_True, decide_False by done. intros Ho Hok. apply (set_old k uk dk Fk Nk) in Hok. apply (proj2 (Hsep k x Nk (mk_is_Some _ _ Fk) Hok)). by apply Ho2.
  - rewrite decide_False, decide_True by done. intros Ho Hok. apply (set_old j uj dj Fj Nj) in Ho. apply (proj2 (Hsep j x Nj (mk_is_Some _ _ Fj) Ho)). by apply Ho2.
  - rewrite !decide_False by done. intros Ho Hok. apply (set_old j uj dj Fj Nj) in Ho. apply (set_old k uk dk Fk Nk) in Hok.
    by apply (mi_disj _ _ I j k x (mk_is_Some _ _ Fj) (mk_is_Some _ _ Fk) Hne).
Qed.

Lemma minv_set : minv s2 (<[i:=(t, data)]> F).
Proof using All.
  assert (Hb := i2b_range i ltac:(lia)). split; [apply set_geo| |apply set_apart| | |].
  - intros j u dat Hj. destruct (decide (j = i)) as [->|Hne].
    + rewrite lookup_insert_eq in Hj. injection Hj as <- <-. rewrite set_dinos, decide_True by (done || lia). split_and!; [lia|lia|apply set_new|done..].
    + rewrite lookup_insert_ne in Hj by done. destruct (mi_file _ _ I _ _ _ Hj) as (Hr & _ & A). rewrite set_dinos, decide_False by (done || lia).
      split_and!; [lia|lia|by apply (set_old j u dat)|apply A..].
  - intros j Hj Hn. destruct (decide (j = i)) as [->|]; [by rewrite lookup_insert_eq in Hn|]. rewrite lookup_insert_ne in Hn by done.
    rewrite set_dinos, decide_False by done. by apply (mi_none _ _ I).
  - unfold s2. rewrite set_dino_sector by (done || lia). rewrite Hlow by (unfold d0; lia). apply I.
  - intros x Hx. rewrite set_high by (unfold size, nlog, Log.LOGSIZE, d0 in *; lia). rewrite Hlow by lia. by apply (mi_log _ _ I).
Qed.
End SetInode.

(** [iappend] appends the bytes to the file and changes no other. *)
Lemma iappend_appends s F i t data p : minv s F -> F !! i = Some (t, data) ->
  let n := Z.of_nat (length data) in let n' := n + Z.of_nat (length p) in
  n' <= MAXFILE * BSIZE -> freeblock s + nblk n' - nblk n <= size - nlog ->
  wp (iappend i p) (fun _ s' => minv s' (<[i:=(t, data ++ p)]> F) /\ freeblock s' = freeblock s + nblk n' - nblk n /\ freeinode s' = freeinode s) s.
Proof.
  intros I HF n n' Hmax Hf. destruct (mi_file _ _ I _ _ _ HF) as (Hi & Hh & Hz & Ht & Hl). assert (G := mi_geo _ _ I).
  unfold iappend. apply wp_bind, wp_rinode; [done|lia|]. rewrite Hz. apply wp_bind.
  eapply wp_mono; [by apply (iappend_loop_wp (length p) p s (dino s i) data)|]. intros [d1 o] s1 (Eo & H1 & E1 & F1). cbn [fst snd] in *.
  fold n in Eo, F1. fold n' in Eo, F1. assert (G1 := h_geo _ _ _ H1). apply wp_winode; [done|lia|]. split; [|split; [exact F1|apply E1]].
  assert (El : o = Z.of_nat (length (data ++ p))) by (rewrite Eo, length_app; subst n n'; lia).
  assert (Hou : is_u32 o) by (rewrite Eo; unfold is_u32, MAXFILE, NDIRECT, NINDIRECT, BSIZE in *; subst n n'; lia).
  assert (Hfr := g_free s G).
  apply (minv_set s F s1 i t (data ++ p) (set_size o d1)); [done|done|apply E1|done| | |by apply holds_set_size|done| |].
  - intros x Hx. apply (e_keep _ _ _ _ E1); [unfold d0 in *; lia|]. intros Ho. apply (holds_range _ _ _ _ Hh) in Ho. lia.
  - intros j x Hne Hj Ho. destruct Hj as [[u dat] Hj]. destruct (mi_file _ _ I _ _ _ Hj) as (_ & Hhj & _). assert (Hx := holds_range _ _ _ _ Hhj Ho).
    assert (Hni : ~ owns (view s) (dino s i) x) by (by apply (mi_disj _ _ I j i x (mk_is_Some _ _ Hj) (mk_is_Some _ _ HF) Hne)).
    unfold d0 in *. split; [apply (e_keep _ _ _ _ E1); [lia|done]|]. intros Ho1. destruct (e_own _ _ _ _ E1 x Ho1); [done|lia].
  - change (d_type d1 = t). rewrite (e_type _ _ _ _ E1). exact Ht.
  - change (d_nlink d1 = 1). rewrite (e_nlink _ _ _ _ E1). exact Hl.
Qed.

End Mkfs.
