(* ===== verification/MkfsSpec.v ===== *)
(** * The image mkfs.c builds is a file system for fs.c

    [mkfs_image]: for files that fit, the program ends, and its image is a well-formed
    file system in the sense of the theorems on fs.c ([fs_ok], [wf_file]): the super
    block, the root directory with an entry for every file, the contents of every file,
    a bitmap that marks exactly the blocks in use, free inodes and an empty log.  The root
    directory is not well formed when its entries fill whole blocks: its size covers a
    block it does not have.  [mkfs_root_hole]: reading that part panics. *)

From S2P Require Import Prelude CString Bio Log Blocks TxLog Fs FsAlloc FsFile FsWrite FsSpec Mkfs.

Module MkfsSpec.
Import Blocks Fs FsAlloc FsFile FsWrite Mkfs.

Definition msb : Log.superblock := Log.mkSb size nblocks ninodes nlog.

(** ** Allocating inodes *)

Definition fresh (t : Z) : dinode := mkDinode t 0 0 1 0 (replicate 13 0).

Lemma fresh_ok t : 0 <= t < 32768 -> dinode_ok (fresh t).
Proof. intros Ht. split; cbn; try lia; [unfold is_u32; lia|repeat constructor; unfold is_u32; lia]. Qed.

Lemma fresh_addr t i : addr i (fresh t) = 0.
Proof. unfold addr, fresh. cbn [d_addrs]. destruct (replicate 13 0 !! i) as [z|] eqn:E; [|done]. by apply lookup_replicate in E as [-> _]. Qed.

Lemma fresh_block v t bn : block_of v (fresh t) bn = 0.
Proof. unfold block_of, ind. rewrite !fresh_addr. by destruct (bn <? NDIRECT). Qed.

Lemma fresh_holds s t : geo s -> 0 <= t < 32768 -> holds s (fresh t) [].
Proof.
  intros G Ht. split; [done|by apply fresh_ok|by vm_compute| | |]; cbn [length].
  - change (nb (Z.of_nat 0)) with 0. change (NDIRECT <? 0) with false. split; [done| | |apply fresh_addr| |]; intros; rewrite ?fresh_block; (done || lia).
  - intros i Hi. lia.
  - intros i Hi. change (nb (Z.of_nat 0)) with 0 in Hi. lia.
Qed.

Lemma fresh_owns v t x : ~ owns v (fresh t) x.
Proof. intros [H0 [->|(bn & _ & ->)]]; [by unfold ind in H0; rewrite fresh_addr in H0|by rewrite fresh_block in H0]. Qed.

(** [freeinode] is the first of the unused inodes. *)
Definition next_inode (s : mstate) (F : gmap Z (Z * list Z)) (i : Z) : Prop :=
  freeinode s = i /\ forall j, i <= j -> F !! j = None.

Lemma ialloc_wp s F i t : minv s F -> next_inode s F i -> 0 < i < ninodes -> 0 <= t < 32768 ->
  wp (ialloc t) (fun r s' => r = i /\ minv s' (<[i:=(t, [])]> F) /\ next_inode s' (<[i:=(t, [])]> F) (i + 1) /\ freeblock s' = freeblock s) s.
Proof.
  intros I [En Hn] Hi Ht. assert (G := mi_geo _ _ I). unfold ialloc. apply wp_bind, wp_gets, wp_bind, wp_modify. rewrite En.
  set (s1 := mkMk (img s) (freeblock s) (usedblocks s) (u32 (i + 1))).
  assert (G1 : geo s1) by (destruct G; by split). apply wp_bind, wp_winode; [done|lia|]. apply wp_ret. split; [done|]. split; [|split; [|done]].
  - apply (minv_set s F s1 i t [] (fresh t)); try done; [|by apply fresh_holds]. intros j x _ _ _. split; [done|apply fresh_owns].
  - split; [cbn; apply u32_small; unfold is_u32, ninodes in *; lia|]. intros j Hj. rewrite lookup_insert_ne by lia. apply Hn. lia.
Qed.

(** ** The empty image *)

Lemma window_zero n k m : (n + k <= m)%nat -> window (replicate m 0) n k = replicate k 0.
Proof. intros H. unfold window. rewrite drop_replicate, take_replicate. f_equal. lia. Qed.

Lemma dino_zero i : get_dinode zeroes i = zero_dinode.
Proof.
  unfold get_dinode, zeroes. rewrite window_zero; [by vm_compute|]. unfold dinode_off, sizeof_dinode, IPB.
  assert (0 <= i mod 8 < 8) by (apply Z.mod_pos_bound; lia). lia.
Qed.

Definition blank : mstate := mkMk (replicate 1024 zeroes) d0 d0 1.

Lemma blank_sector x : 0 <= x < size -> sector blank x = zeroes.
Proof. intros Hx. unfold sector, blank, size in *. cbn [img]. rewrite lookup_replicate_2 by lia. done. Qed.

Lemma blank_geo : geo blank.
Proof.
  split; [done| |by vm_compute|done|].
  - intros x Hx. by rewrite blank_sector.
  - intros x Hx. apply blank_sector. unfold size, nlog, Log.LOGSIZE in *. cbn in Hx. unfold d0 in Hx. lia.
Qed.

Lemma zero_loop n s : img s = [] ->
  wp (for_upto n 0 (fun i => wsect (Z.of_nat i) zeroes)) (fun _ s' => s' = mkMk (replicate n zeroes) (freeblock s) (usedblocks s) (freeinode s)) s.
Proof.
  intros E. apply (wp_for_upto (fun i s' => s' = mkMk (replicate i zeroes) (freeblock s) (usedblocks s) (freeinode s)) n 0).
  - destruct s. cbn in *. by subst.
  - intros j s' _ ->. apply wp_modify. cbn [img freeblock usedblocks freeinode]. rewrite Nat2Z.id, decide_False by (rewrite length_replicate; lia).
    rewrite length_replicate, Nat.sub_diag. f_equal. symmetry. apply replicate_S_end.
Qed.

Definition formatted : mstate := put_sec 1 (splice zeroes 0 super) blank.

Lemma formatted_sector x : 0 <= x < size -> sector formatted x = if x =? 1 then splice zeroes 0 super else zeroes.
Proof.
  intros Hx. unfold formatted. rewrite sector_put by (apply blank_geo || (unfold size; lia)). by rewrite blank_sector.
Qed.

Lemma formatted_minv : minv formatted ∅.
Proof.
  split; [apply geo_put; [apply blank_geo|by vm_compute|done]|done| | | |].
  - intros i j x [? H]. by rewrite lookup_empty in H.
  - intros i Hi _. assert (Hb := i2b_range i Hi). unfold d0 in Hb. unfold dino. rewrite formatted_sector by (unfold size; lia).
    rewrite (proj2 (Z.eqb_neq _ 1)) by lia. apply dino_zero.
  - by rewrite formatted_sector.
  - intros x Hx. rewrite formatted_sector by (unfold size, nlog, Log.LOGSIZE in *; lia).
    rewrite (proj2 (Z.eqb_neq x 1)) by (unfold size, nlog, Log.LOGSIZE in *; lia). done.
Qed.

(** ** Files *)

Lemma length_dirent i name : length (dirent_of i name) = 16%nat.
Proof.
  unfold dirent_of, mk_dirent, Str.strncpy, DIRSIZ. rewrite length_app, length_le_bytes, Str.strncpy_copy_spec by done.
  rewrite length_splice by (rewrite Str.length_cpad, length_replicate; lia). done.
Qed.

Lemma iappends_wp chunks s F i t data : minv s F -> F !! i = Some (t, data) ->
  let n := Z.of_nat (length data) in let n' := n + Z.of_nat (length (concat chunks)) in
  n' <= MAXFILE * BSIZE -> freeblock s + nblk n' - nblk n <= size - nlog ->
  wp (iappends i chunks) (fun _ s' => minv s' (<[i:=(t, data ++ concat chunks)]> F) /\ freeblock s' = freeblock s + nblk n' - nblk n /\ freeinode s' = freeinode s) s.
Proof.
  revert s F data. induction chunks as [|c chunks IH]; intros s F data I HF n n' Hmax Hf; cbn [iappends concat].
  - apply wp_ret. subst n'. cbn [concat length] in *. rewrite app_nil_r, Z.add_0_r. split_and!; [by rewrite insert_id|lia|done].
  - subst n'. cbn [concat] in *. rewrite length_app in *.
    assert (Hm := nblk_mono (n + Z.of_nat (length c)) (n + Z.of_nat (length c + length (concat chunks))) ltac:(lia)).
    apply wp_bind. eapply wp_mono; [apply (iappend_appends s F i t data c I HF); fold n; lia|]. intros [] s1 (I1 & F1 & N1). fold n in F1.
    specialize (IH s1 _ (data ++ c) I1 (lookup_insert_eq _ _ _)). cbv zeta in IH. rewrite length_app in IH.
    replace (Z.of_nat (length data + length c) + Z.of_nat (length (concat chunks))) with (n + Z.of_nat (length c + length (concat chunks))) in IH by lia.
    replace (Z.of_nat (length data + length c)) with (n + Z.of_nat (length c)) in IH by lia.
    eapply wp_mono; [apply IH; lia|]. intros [] s2 (I2 & F2 & N2). rewrite insert_insert_eq, <- app_assoc in I2. split_and!; [done|lia|congruence].
Qed.

(** The directory entries of [files], numbered from [i] on; the files by inode number;
    their blocks. *)
Fixpoint entries (i : Z) (files : list (list Z * list (list Z))) : list Z :=
  match files with
  | [] => []
  | f :: files' => dirent_of i (skip_underscore f.1) ++ entries (i + 1) files'
  end.
Fixpoint installed (i : Z) (files : list (list Z * list (list Z))) (F : gmap Z (Z * list Z)) : gmap Z (Z * list Z) :=
  match files with
  | [] => F
  | f :: files' => installed (i + 1) files' (<[i:=(T_FILE, concat f.2)]> F)
  end.
Definition file_blocks (files : list (list Z * list (list Z))) : Z :=
  foldr (fun f n => nblk (Z.of_nat (length (concat f.2))) + n) 0 files.

Lemma length_entries i files : length (entries i files) = (16 * length files)%nat.
Proof. revert i. induction files as [|f files IH]; intros i; cbn [entries length]; [done|]. rewrite length_app, length_dirent, IH. lia. Qed.

Lemma nblk_pos n : 0 <= n -> 0 <= nblk n.
Proof. intros H. unfold nblk, cnt, nb. destruct (_ <? _); dlia. Qed.

Lemma file_blocks_pos files : 0 <= file_blocks files.
Proof.
  induction files as [|f files IH]; [done|]. change (file_blocks (f :: files)) with (nblk (Z.of_nat (length (concat f.2))) + file_blocks files).
  pose proof (nblk_pos (Z.of_nat (length (concat f.2)))). lia.
Qed.

Lemma installed_insert i j x files F : j < i -> installed i files (<[j:=x]> F) = <[j:=x]> (installed i files F).
Proof.
  revert i F. induction files as [|f files IH]; intros i F Hj; cbn [installed]; [done|].
  rewrite insert_insert_ne by lia. by apply IH; lia.
Qed.

Lemma lookup_installed i files F j : installed i files F !! j =
  if decide (i <= j < i + Z.of_nat (length files)) then (fun f => (T_FILE, concat f.2)) <$> files !! Z.to_nat (j - i) else F !! j.
Proof.
  revert i F. induction files as [|f files IH]; intros i F; cbn [installed length].
  - by rewrite decide_False by lia.
  - rewrite IH. destruct (decide (j = i)) as [->|Hne].
    + rewrite decide_False, decide_True, lookup_insert_eq, Z.sub_diag by lia. done.
    + rewrite lookup_insert_ne by done. case_decide; [rewrite decide_True by lia|by rewrite decide_False by lia].
      replace (Z.to_nat (j - i)) with (S (Z.to_nat (j - (i + 1)))) by lia. done.
Qed.

(** A file the program can install. *)
Definition file_fits (f : list Z * list (list Z)) : Prop := 47 ∉ f.1 /\ Z.of_nat (length (concat f.2)) <= MAXFILE * BSIZE.

Lemma add_file_wp f s F i R : minv s F -> F !! 1 = Some (T_DIR, R) -> next_inode s F i -> 1 < i < ninodes -> file_fits f ->
  let r := Z.of_nat (length R) in let n := Z.of_nat (length (concat f.2)) in
  r + 16 <= MAXFILE * BSIZE -> freeblock s + nblk (r + 16) - nblk r + nblk n <= size - nlog ->
  wp (add_file 1 f) (fun _ s' =>
    let F' := <[1:=(T_DIR, R ++ dirent_of i (skip_underscore f.1))]> (<[i:=(T_FILE, concat f.2)]> F) in
    minv s' F' /\ next_inode s' F' (i + 1) /\ freeblock s' = freeblock s + nblk (r + 16) - nblk r + nblk n) s.
Proof.
  intros I HR HN Hi [Hnm Hsz] r n Hr Hf. unfold add_file. rewrite bool_decide_false by done.
  assert (Hpos := nblk_pos n ltac:(lia)).
  apply wp_bind. eapply wp_mono; [apply (ialloc_wp s F i T_FILE I HN); unfold T_FILE; lia|]. intros r1 s1 (-> & I1 & N1 & F1).
  apply wp_bind. eapply wp_mono; [apply (iappend_appends s1 _ 1 T_DIR R _ I1)|].
  { by rewrite lookup_insert_ne by lia. }
  { rewrite length_dirent. lia. }
  { rewrite length_dirent. change (Z.of_nat 16) with 16. fold r. lia. }
  rewrite length_dirent. change (Z.of_nat 16) with 16. fold r. intros [] s2 (I2 & F2 & N2).
  eapply wp_mono; [apply (iappends_wp f.2 s2 _ i T_FILE [] I2)|].
  { by rewrite lookup_insert_ne, lookup_insert_eq by lia. }
  { cbn [length]. fold n. lia. }
  { cbn [length]. fold n. change (nblk (Z.of_nat 0)) with 0. rewrite Z.add_0_l. lia. }
  cbn [length]. fold n. change (nblk (Z.of_nat 0)) with 0. rewrite Z.add_0_l. intros [] s3 (I3 & F3 & N3). cbv zeta. cbn [app] in I3.
  rewrite insert_insert_ne, insert_insert_eq in I3 by lia. split_and!; [done| |lia].
  destruct N1 as [A B]. split; [congruence|]. intros j Hj. rewrite !lookup_insert_ne by lia. specialize (B j Hj). by rewrite lookup_insert_ne in B by lia.
Qed.

Lemma add_files_wp files s F i R : minv s F -> F !! 1 = Some (T_DIR, R) -> next_inode s F i -> 1 < i -> i + Z.of_nat (length files) <= ninodes ->
  Forall file_fits files ->
  let r := Z.of_nat (length R) in let r' := r + 16 * Z.of_nat (length files) in
  r' <= MAXFILE * BSIZE -> freeblock s + nblk r' - nblk r + file_blocks files <= size - nlog ->
  wp (add_files 1 files) (fun _ s' =>
    minv s' (<[1:=(T_DIR, R ++ entries i files)]> (installed i files F)) /\ freeblock s' = freeblock s + nblk r' - nblk r + file_blocks files) s.
Proof.
  revert s F i R. induction files as [|f files IH]; intros s F i R I HR HN Hi Hn Hfit r r' Hmax Hf; cbn [add_files entries installed].
  - apply wp_ret. subst r'. cbn [length file_blocks foldr] in *. rewrite app_nil_r. replace (r + 16 * Z.of_nat 0) with r by lia. split; [by rewrite insert_id|lia].
  - apply Forall_cons in Hfit as [Hf1 Hfit]. subst r'. cbn [length] in *.
    change (file_blocks (f :: files)) with (nblk (Z.of_nat (length (concat f.2))) + file_blocks files) in *.
    assert (Hm := nblk_mono (r + 16) (r + 16 * Z.of_nat (S (length files))) ltac:(lia)). assert (Hp := file_blocks_pos files).
    apply wp_bind. eapply wp_mono; [apply (add_file_wp f s F i R); fold r; (done || lia)|]. cbv zeta. fold r. intros [] s1 (I1 & N1 & F1).
    specialize (IH s1 _ (i + 1) (R ++ dirent_of i (skip_underscore f.1)) I1 (lookup_insert_eq _ _ _) N1 ltac:(lia) ltac:(lia) Hfit). cbv zeta in IH.
    rewrite length_app, length_dirent in IH. replace (Z.of_nat (length R + 16)) with (r + 16) in IH by lia.
    replace (r + 16 + 16 * Z.of_nat (length files)) with (r + 16 * Z.of_nat (S (length files))) in IH by lia.
    eapply wp_mono; [apply IH; lia|]. intros [] s2 (I2 & F2). rewrite installed_insert, insert_insert_eq, <- app_assoc in I2 by lia. split; [done|lia].
Qed.

Definition root_start : list Z := dirent_of 1 (bytes ".") ++ dirent_of 1 (bytes "..").

Lemma mkfs_start_wp : wp mkfs_start (fun r s =>
  r = 1 /\ minv s {[1 := (T_DIR, root_start)]} /\ next_inode s {[1 := (T_DIR, root_start)]} 2 /\ freeblock s = d0 + 1) m_init.
Proof.
  unfold mkfs_start. apply wp_bind, wp_modify.
  match goal with |- wp (if ?b then _ else _) _ _ => change b with false end. cbv iota. apply wp_bind.
  eapply wp_mono; [by apply zero_loop|]. intros [] s0 ->. match goal with |- wp _ _ ?x => change x with blank end.
  apply wp_bind, wp_wsect; [apply blank_geo|by vm_compute|]. fold formatted.
  apply wp_bind. eapply wp_mono; [apply (ialloc_wp formatted ∅ 1 T_DIR formatted_minv); [split; [done|]; intros; apply lookup_empty|by vm_compute|by vm_compute]|].
  intros r s1 (-> & I1 & N1 & F1). change (negb (1 =? ROOTINO)) with false. cbv iota. change (freeblock formatted) with d0 in F1.
  apply wp_bind. eapply wp_mono; [apply (iappend_appends s1 _ 1 T_DIR [] (dirent_of 1 (bytes ".")) I1); [apply lookup_insert_eq| |]|].
  1-2: rewrite length_dirent; rewrite ?F1; by vm_compute.
  rewrite length_dirent, F1, insert_insert_eq. intros [] s2 (I2 & F2 & N2).
  apply wp_bind. eapply wp_mono; [apply (iappend_appends s2 _ 1 T_DIR (dirent_of 1 (bytes ".")) (dirent_of 1 (bytes "..")) I2); [apply lookup_insert_eq| |]|].
  1-2: cbn [app]; rewrite ?F2, !length_dirent; by vm_compute.
  cbn [app]. rewrite !length_dirent, F2, insert_insert_eq. intros [] s3 (I3 & F3 & N3). apply wp_ret. split_and!; [done|exact I3| |exact F3].
  destruct N1 as [A B]. split; [rewrite N3, N2; exact A|]. intros j Hj. apply lookup_singleton_ne. lia.
Qed.

(** ** The finished image *)

Lemma bitmap_marks (n : nat) b : (n <= 4096)%nat -> 0 <= b < 4096 ->
  length (foldl (fun buf i => mark_bit buf i) zeroes (seqZ 0 (Z.of_nat n))) = 512%nat /\
  bit_set (foldl (fun buf i => mark_bit buf i) zeroes (seqZ 0 (Z.of_nat n))) b = (b <? Z.of_nat n).
Proof.
  intros Hn Hb. induction n as [|n IH].
  - split; [done|]. change (bit_set zeroes b = (b <? 0)). rewrite (proj2 (Z.ltb_ge b 0)) by lia. unfold bit_set, bit_byte, zeroes.
    rewrite lookup_replicate_2 by dlia. done.
  - rewrite Nat2Z.inj_succ, <- Z.add_1_r, seqZ_app, foldl_app by lia. change (seqZ (0 + Z.of_nat n) 1) with [Z.of_nat n].
    destruct IH as [Hl IH]; [lia|]. set (buf := foldl _ _ _) in *. cbn [foldl]. split.
    + unfold mark_bit. by rewrite length_insert.
    + rewrite bit_set_mark by (rewrite ?Hl; dlia). rewrite IH. destruct (Z.eqb_spec b (Z.of_nat n)), (Z.ltb_spec b (Z.of_nat n)), (Z.ltb_spec b (Z.of_nat n + 1)); (done || lia).
Qed.

(** A file of the image, with a size up to the end of its last block, is a file for
    fs.c; what the size adds reads as zero. *)
Lemma holds_wf s d data : holds s d data -> (forall b, 0 <= b < size - nlog -> allocated msb (view s) b = (b <? freeblock s)) ->
  Z.of_nat (length data) <= d_size d <= nb (Z.of_nat (length data)) * 512 -> d_type d <> T_DEV ->
  wf_file msb (view s) d /\ file_data (view s) d = data ++ replicate (Z.to_nat (d_size d - Z.of_nat (length data))) 0.
Proof.
  intros [G OK Hmax M Hd Htl] Hal Hz Ht. assert (Hfr := g_free s G). assert (Hn := nb_range (Z.of_nat (length data)) ltac:(lia)).
  set (n := nb (Z.of_nat (length data))) in *. assert (Hds : data_start msb = d0) by reflexivity.
  assert (Hin : forall x, d0 <= x < freeblock s -> data_start msb <= x < tv_size (view s) /\ allocated msb (view s) x = true).
  { intros x Hx. change (tv_size (view s)) with (size - nlog). unfold d0 in *. rewrite Hal by lia. split; [rewrite Hds; unfold d0; lia|apply Z.ltb_lt; lia]. }
  assert (Hlt : forall bn, 0 <= bn < MAXFILE -> block_of (view s) d bn <> 0 -> bn < n).
  { intros bn Hb Hne. destruct (decide (bn < n)); [done|]. rewrite (mb_none _ _ _ _ _ M) in Hne by lia. done. }
  split; [split; [split| | |done]|].
  - apply M.
  - intros bn Hb Hne. specialize (Hlt bn Hb Hne). apply Hin, (mb_some _ _ _ _ _ M). lia.
  - intros Hne. apply Hin. assert (Hi := mb_ind _ _ _ _ _ M). destruct (NDIRECT <? n); [done|congruence].
  - intros bn bn' Hb Hb' E Hne. assert (Hl := Hlt bn Hb Hne). rewrite E in Hne. specialize (Hlt bn' Hb' Hne). apply (mb_inj _ _ _ _ _ M); [lia|lia|done].
  - intros bn Hb Hi E. rewrite <- E in Hi. specialize (Hlt bn Hb Hi). by apply (mb_ind_ne _ _ _ _ _ M bn); [lia|].
  - unfold MAXFILE, NDIRECT, NINDIRECT, BSIZE in *. lia.
  - intros bn Hb Hlt'. unfold BSIZE in Hlt'. assert (Hs := mb_some _ _ _ _ _ M bn ltac:(lia)). unfold d0 in Hs. lia.
  - apply list_eq_same_length with (Z.to_nat (d_size d)).
    + rewrite length_app, length_replicate. lia.
    + assert (Hl := length_file_data (view s) d ltac:(lia)). lia.
    + intros i x y Hi. replace i with (Z.to_nat (Z.of_nat i)) by lia. rewrite lookup_file_data by lia. intros [= <-].
      destruct (decide (Z.of_nat i < Z.of_nat (length data))).
      * rewrite lookup_app_l, Hd by lia. congruence.
      * rewrite lookup_app_r, lookup_replicate_2 by lia. rewrite Htl by lia. congruence.
Qed.

(** The bitmap and the size of the root directory. *)
Definition finished (z : Z) (s : mstate) : mstate :=
  let s1 := set_dino 1 (set_size z (dino s 1)) s in
  put_sec 28 (foldl (fun buf i => mark_bit buf i) zeroes (seqZ 0 (freeblock s))) s1.

(** [((off/BSIZE) + 1) * BSIZE] *)
Definition rounded (n : Z) : Z := (n / 512 + 1) * 512.

Section Finish.
Context (s : mstate) (F : gmap Z (Z * list Z)) (R : list Z) (I : minv s F) (HR : F !! 1 = Some (T_DIR, R)).
Let z := rounded (Z.of_nat (length R)).
Let s' := finished z s.

Lemma root_size : is_u32 z.
Proof using All.
  destruct (mi_file _ _ I _ _ _ HR) as (_ & H & _). assert (Hn := nb_range (Z.of_nat (length R)) ltac:(split; [lia|apply H])).
  assert (0 <= rounded (Z.of_nat (length R)) <= nb (Z.of_nat (length R)) * 512 + 512) by (unfold rounded, nb; dlia).
  unfold z, is_u32, MAXFILE, NDIRECT, NINDIRECT in *. lia.
Qed.

Lemma root_ok : dinode_ok (set_size z (dino s 1)).
Proof using All. destruct (mi_file _ _ I _ _ _ HR) as (_ & H & _). apply dinode_ok_set_size; [apply H|apply root_size]. Qed.

Lemma finish_geo1 : geo (set_dino 1 (set_size z (dino s 1)) s).
Proof using All. apply geo_set_dino; [apply I|by vm_compute|apply root_ok]. Qed.

Lemma finish_map_len : length (foldl (fun buf i => mark_bit buf i) zeroes (seqZ 0 (freeblock s))) = Bio.BSIZE.
Proof using All.
  assert (Hf := g_free s (mi_geo _ _ I)). unfold d0, size, nlog, Log.LOGSIZE in *.
  rewrite <- (Z2Nat.id (freeblock s)) by lia. by apply (bitmap_marks (Z.to_nat (freeblock s)) 0); lia.
Qed.

Lemma finish_geo : geo s'.
Proof using All.
  assert (Hf := g_free s (mi_geo _ _ I)). apply geo_put; [apply finish_geo1| |apply finish_map_len]. change (0 <= 28 < freeblock s). unfold d0 in *. lia.
Qed.

Lemma finish_sector x : 0 <= x -> x <> 2 -> x <> 28 -> sector s' x = sector s x.
Proof using All.
  intros H0 H1 H2. unfold s', finished. rewrite sector_put by (apply finish_geo1 || done || by vm_compute). rewrite (proj2 (Z.eqb_neq x 28) H2).
  apply set_dino_sector; [apply I|by vm_compute|done|done].
Qed.

Lemma finish_dino i : 0 <= i < ninodes -> dino s' i = if decide (i = 1) then set_size z (dino s 1) else dino s i.
Proof using All.
  intros Hi. assert (Hb := i2b_range i Hi). unfold d0 in Hb.
  rewrite <- (dino_set 1 (set_size z (dino s 1)) s i (mi_geo _ _ I) ltac:(by vm_compute) Hi root_ok). unfold dino at 1, s', finished.
  rewrite sector_put by (apply finish_geo1 || lia || by vm_compute). by rewrite (proj2 (Z.eqb_neq (i2b i) 28)) by lia.
Qed.

Lemma finish_allocated b : 0 <= b < size - nlog -> allocated msb (view s') b = (b <? freeblock s).
Proof using All.
  intros Hb. assert (Hf := g_free s (mi_geo _ _ I)). unfold d0, size, nlog, Log.LOGSIZE in *. unfold allocated, bitmap_block, BBLOCK.
  replace (b / BPB + Log.sb_ninodes msb / IPB + 3) with 28 by (unfold BPB; change (Log.sb_ninodes msb / IPB) with 25; dlia).
  rewrite view_content. unfold s', finished. rewrite sector_put, Z.eqb_refl by (apply finish_geo1 || lia || by vm_compute).
  replace (b mod BPB) with b by (unfold BPB; dlia). rewrite <- (Z2Nat.id (freeblock s)) by lia. apply bitmap_marks; lia.
Qed.

(** A file keeps its contents and its blocks. *)
Lemma finish_holds i t data : F !! i = Some (t, data) ->
  holds s' (dino s' i) data /\ (forall x, owns (view s') (dino s' i) x -> owns (view s) (dino s i) x) /\
  d_type (dino s' i) = t /\ d_nlink (dino s' i) = 1 /\ d_size (dino s' i) = if decide (i = 1) then z else Z.of_nat (length data).
Proof using All.
  intros HF. destruct (mi_file _ _ I _ _ _ HF) as (Hi & Hh & Hsz & Ht & Hl). rewrite finish_dino by lia.
  assert (Hk : holds s' (dino s i) data /\ forall x, owns (view s') (dino s i) x -> owns (view s) (dino s i) x).
  { apply holds_keep; [done|apply finish_geo|done|]. intros x Ho. apply (holds_range _ _ _ _ Hh) in Ho. unfold d0 in Ho. apply finish_sector; lia. }
  destruct Hk as [Hk Ho]. case_decide as E; [|by split_and!]. subst i. split_and!; [|exact Ho|exact Ht|exact Hl|done].
  apply holds_set_size; [done|apply root_size].
Qed.
End Finish.

Lemma mkfs_end_wp s F R : minv s F -> F !! 1 = Some (T_DIR, R) ->
  wp (mkfs_end 1) (fun _ s' => s' = finished (rounded (Z.of_nat (length R))) s) s.
Proof.
  intros I HR. assert (G := mi_geo _ _ I). assert (Hu := g_used s G). assert (Hf := g_free s G).
  destruct (mi_file _ _ I _ _ _ HR) as (_ & _ & Hsz & _). assert (Hz := root_size s F R I HR).
  unfold mkfs_end. apply wp_bind, wp_rinode; [done|by vm_compute|]. rewrite Hsz.
  replace (u32 _) with (rounded (Z.of_nat (length R))).
  2: { rewrite <- (u32_small _ Hz). done. }
  apply wp_bind, wp_winode; [done|by vm_compute|]. apply wp_bind, wp_gets.
  change (usedblocks (set_dino _ _ s)) with (usedblocks s). rewrite Hu. unfold balloc.
  rewrite (proj2 (Z.ltb_lt _ _)) by (unfold d0, size, nlog, Log.LOGSIZE in *; lia). cbn [negb].
  apply wp_wsect; [by apply (finish_geo1 s F R)|by vm_compute|]. done.
Qed.

(** The root directory in the image: the entries [R] at its start and unused entries after
    them.  If the entries fill whole blocks, the size counts one block more, which the
    directory does not have. *)
Definition root_image (s : mstate) (R : list Z) : Prop :=
  let n := Z.of_nat (length R) in
  d_type (dino s 1) = T_DIR /\ d_size (dino s 1) = rounded n /\
  if decide (n mod 512 = 0)
  then (forall i, 0 <= i < n -> R !! Z.to_nat i = Some (fbyte (view s) (dino s 1) i)) /\ rounded n = n + 512 /\ block_of (view s) (dino s 1) (n / 512) = 0
  else wf_file msb (view s) (dino s 1) /\ exists pad, file_data (view s) (dino s 1) = R ++ replicate pad 0.

(** What fs.c finds: the inodes from 1 to [2 + k - 1] are in use, [k] being the number
    of files. *)
Record fs_image (files : list (list Z * list (list Z))) (s : mstate) : Prop := {
  im_fs : fs_ok msb (view s);
  im_root : root_image s (root_start ++ entries 2 files);
  im_files : forall k name chunks, files !! k = Some (name, chunks) -> let d := dino s (2 + Z.of_nat k) in
    d_type d = T_FILE /\ d_nlink d = 1 /\ wf_file msb (view s) d /\ file_data (view s) d = concat chunks;
  im_apart : forall i j x, 0 < i < 2 + Z.of_nat (length files) -> 0 < j < 2 + Z.of_nat (length files) -> i <> j ->
    owns (view s) (dino s i) x -> ~ owns (view s) (dino s j) x;
  im_unused : forall i, 2 + Z.of_nat (length files) <= i < ninodes -> dino s i = zero_dinode;
  im_bitmap : forall b, 0 <= b < size - nlog -> allocated msb (view s) b =
    (b <? d0 + nblk (16 * (2 + Z.of_nat (length files))) + file_blocks files);
  im_log : forall x, size - nlog <= x < size -> sector s x = zeroes }.

Lemma finish_image files s F : minv s F -> 2 + Z.of_nat (length files) <= ninodes ->
  F = <[1:=(T_DIR, root_start ++ entries 2 files)]> (installed 2 files {[1 := (T_DIR, root_start)]}) ->
  freeblock s = d0 + nblk (16 * (2 + Z.of_nat (length files))) + file_blocks files ->
  fs_image files (finished (rounded (Z.of_nat (length (root_start ++ entries 2 files)))) s).
Proof.
  intros I Hcount EF Hfb. set (R := root_start ++ entries 2 files) in *. assert (HR : F !! 1 = Some (T_DIR, R)) by (rewrite EF; apply lookup_insert_eq).
  assert (HF : forall i, 1 < i -> F !! i = if decide (i < 2 + Z.of_nat (length files)) then (fun f => (T_FILE, concat f.2)) <$> files !! Z.to_nat (i - 2) else None).
  { intros i Hi. rewrite EF, lookup_insert_ne, lookup_installed by lia. case_decide; [by rewrite decide_True by lia|].
    rewrite decide_False by lia. apply lookup_singleton_ne. lia. }
  assert (Hsome : forall i, 0 < i < 2 + Z.of_nat (length files) -> exists t data, F !! i = Some (t, data)).
  { intros i Hi. destruct (decide (i = 1)) as [->|]; [by eexists _, _|]. rewrite HF, decide_True by lia.
    destruct (lookup_lt_is_Some_2 files (Z.to_nat (i - 2))) as [f ->]; [lia|]. by eexists _, _. }
  set (z := rounded (Z.of_nat (length R))). assert (Hal := finish_allocated s F R I HR). fold z in Hal.
  assert (Hfin := finish_holds s F R I HR). fold z in Hfin. assert (Hsec := finish_sector s F R I HR). fold z in Hsec.
  split.
  - assert (Hf := g_free s (mi_geo _ _ I)). split; [|by vm_compute..|].
    + rewrite view_content, Hsec, (mi_super _ _ I) by lia. by vm_compute.
    + intros b Hb. change (data_start msb) with d0 in Hb. unfold d0, size, nlog, Log.LOGSIZE in *. rewrite Hal by lia. apply Z.ltb_lt. lia.
  - destruct (Hfin 1 T_DIR R HR) as (Hh & _ & Ht & _ & Hz). rewrite decide_True in Hz by done.
    split_and!; [done|exact Hz|]. case_decide as Hmod.
    + split_and!; [apply (h_data _ _ _ Hh)|unfold rounded; dlia|]. apply (mb_none _ _ _ _ _ (h_blocks _ _ _ Hh)).
      assert (Hsmall : Z.of_nat (length R) / 512 < MAXFILE).
      { unfold R. rewrite length_app, length_entries. change (length root_start) with 32%nat. unfold ninodes, MAXFILE, NDIRECT, NINDIRECT in *. dlia. }
      split; [|exact Hsmall]. fold R in Hmod |- *. revert Hmod. unfold nb. generalize (Z.of_nat (length R)). intros n Hmod. dlia.
    + destruct (holds_wf _ _ _ Hh Hal) as [Hw Hd]; [|by rewrite Ht|].
      { rewrite Hz. fold R in Hmod. revert Hmod. unfold z, rounded, nb. generalize (Z.of_nat (length R)). intros n Hmod. dlia. }
      split; [done|]. eexists. exact Hd.
  - intros k name chunks Hk d. assert (Hkl := lookup_lt_Some _ _ _ Hk).
    assert (HFk : F !! (2 + Z.of_nat k) = Some (T_FILE, concat chunks)).
    { rewrite HF, decide_True by lia. replace (Z.to_nat (2 + Z.of_nat k - 2)) with k by lia. by rewrite Hk. }
    destruct (Hfin _ _ _ HFk) as (Hh & _ & Ht & Hl & Hz). rewrite decide_False in Hz by lia. fold d in Hh, Ht, Hl, Hz.
    destruct (holds_wf _ _ _ Hh Hal) as [Hw Hd]; [rewrite Hz; unfold nb; dlia|by rewrite Ht|]. rewrite Hz, Z.sub_diag, app_nil_r in Hd. by split_and!.
  - intros i j x Hi Hj Hne Ho Ho'. destruct (Hsome i Hi) as (ti & di & Fi), (Hsome j Hj) as (tj & dj & Fj).
    apply (Hfin _ _ _ Fi) in Ho. apply (Hfin _ _ _ Fj) in Ho'. by apply (mi_disj _ _ I i j x (mk_is_Some _ _ Fi) (mk_is_Some _ _ Fj) Hne).
  - intros i Hi. assert (Hd := finish_dino s F R I HR i ltac:(lia)). fold z in Hd. rewrite Hd, decide_False by lia.
    apply (mi_none _ _ I); [lia|]. rewrite HF, decide_False by lia. done.
  - intros b Hb. by rewrite Hal, Hfb by done.
  - intros x Hx. rewrite Hsec by (unfold size, nlog, Log.LOGSIZE in *; lia). by apply (mi_log _ _ I).
Qed.

(** C15: for up to 198 files that fit the data blocks, mkfs ends without a failed assertion or a failed read.  In its image the super block is valid, every file has an inode with exactly its contents, no two files share a block, the bitmap marks exactly the blocks in use, the remaining inodes are free and the log is empty.  The root directory starts with "." and ".." and an entry for each file, in order.  Unless the entries fill whole blocks (the number of files plus two is a multiple of 32) it is a well-formed directory for fs.c, padded with unused entries; if they do, its size counts one more block that it does not have. *)
Theorem mkfs_image files : Forall file_fits files -> 2 + Z.of_nat (length files) <= ninodes ->
  d0 + nblk (16 * (2 + Z.of_nat (length files))) + file_blocks files <= size - nlog ->
  wp (mkfs files) (fun _ => fs_image files) m_init.
Proof.
  intros Hfit Hn Hroom. unfold mkfs. apply wp_bind. eapply wp_mono; [apply mkfs_start_wp|]. intros r s (-> & I & N & Hf).
  assert (Hlen : Z.of_nat (length (root_start ++ entries 2 files)) = 16 * (2 + Z.of_nat (length files))).
  { rewrite length_app, length_entries. change (length root_start) with 32%nat. lia. }
  assert (Hr : Z.of_nat (length root_start) + 16 * Z.of_nat (length files) = 16 * (2 + Z.of_nat (length files))) by (change (length root_start) with 32%nat; lia).
  apply wp_bind. eapply wp_mono; [apply (add_files_wp files s _ 2 root_start I (lookup_insert_eq _ _ _) N ltac:(lia) Hn Hfit); rewrite Hr|].
  - unfold ninodes, MAXFILE, NDIRECT, NINDIRECT, BSIZE in *. lia.
  - rewrite Hf. change (nblk (Z.of_nat (length root_start))) with 1. lia.
  - cbv zeta. rewrite Hr, Hf. change (nblk (Z.of_nat (length root_start))) with 1. intros [] s1 [I1 F1].
    eapply wp_mono; [apply (mkfs_end_wp s1 _ (root_start ++ entries 2 files) I1 (lookup_insert_eq _ _ _))|].
    intros [] s2 ->. eapply finish_image; [exact I1|exact Hn|done|lia].
Qed.

Definition ex_files : list (list Z * list (list Z)) := [(bytes "_cat", [bytes "hel"; bytes "lo"]); (bytes "README", [])].

Lemma mkfs_image_witness : wp (mkfs ex_files) (fun _ s => file_data (view s) (dino s 2) = bytes "hello" /\ dino s 4 = zero_dinode) m_init.
Proof.
  eapply wp_mono; [apply (mkfs_image ex_files)|].
  - repeat constructor; try (by vm_compute); intros H; repeat (apply elem_of_cons in H as [H|H]; [discriminate|]); by apply not_elem_of_nil in H.
  - by vm_compute.
  - by vm_compute.
  - intros [] s H. split; [apply (im_files _ _ H 0 (bytes "_cat") [bytes "hel"; bytes "lo"]); reflexivity|apply (im_unused _ _ H); by vm_compute].
Defined.

(** ** Images that do not fit *)

(** Thirty files fill the first block of the root directory: its size is rounded up to
    a block it does not have, and [readi] of that part, which allocates the block
    outside a transaction, panics. *)
Definition full_root : list (list Z * list (list Z)) := replicate 30 (bytes "f", []).
Definition hole : mstate := result (mkfs full_root) m_init.
Definition hole_fs : fstate Log.lstate :=
  mkFs (Log.mkLog (result Bio.binit (Bio.bss (img hole))) 1014 10 false 0 (replicate 10 0)) [mkInode 1 1 1 I_VALID (dino hole 1)].

Lemma mkfs_root_hole : d_size (dino hole 1) = 1024 /\ addr 1 (dino hole 1) = 0 /\
  readi (TL := TxLog.tx_layer (img hole) [] 1014 10) FsSpec.no_read 0 512 16 hole_fs = Panic "write outside of trans".
Proof. by vm_compute. Qed.

(** [freeinode] is not compared with [ninodes]: inode 208 lies in the bitmap, which
    overwrites it. *)
Lemma mkfs_too_many_inodes : let s := result (mkfs (replicate 207 (bytes "f", []))) m_init in
  freeinode s = 209 /\ i2b 208 = ninodes / IPB + 3 /\ d_type (dino s 207) = T_FILE /\ d_type (dino s 208) = -1.
Proof. by vm_compute. Qed.

(** [freeblock] is not compared with the start of the log: the data of seven files of
    maximal size runs into it. *)
Lemma mkfs_overruns_log : let s := result (mkfs (replicate 7 (bytes "f", replicate 140 (replicate 512 1)))) m_init in
  size - nlog < freeblock s /\ hd 0 (sector s (size - nlog)) = 1.
Proof. by vm_compute. Qed.

End MkfsSpec.
