(* ===== verification/Boot.v ===== *)
(** * bootmain.c: the boot loader

    [Module Boot] translates bootmain.c: reading sectors with programmed I/O, loading a
    range of the kernel file and the loop over its program headers.  Pointers are 32-bit
    physical addresses.  The disk controller is that of [Ide]: the task file the port
    writes fill in; it is busy for [latency] reads of its status after a command.
    [Blocked] is a loop that has not ended within its fuel.

    [bootmain_loads]: every segment of a kernel file that satisfies the loader's
    assumptions is in memory, its end zeroed, and the entry point is returned.
    [bootmain_rejects]: without the ELF magic number nothing but the scratch page is
    written. *)

From S2P Require Import Prelude CString Kalloc VmUser Bio Ide Exec.

Module Boot.
Import Kalloc.

Definition SECTSIZE : Z := 512.

Section Loader.
(** The contents of the disks, by device and sector. *)
Context (disk : Z -> Z -> list Z) (latency : nat).

Record boot := mkBoot { bmem : memory; task : Ide.ctl; busy : nat }.

Definition set_bmem (m : memory) (s : boot) : boot := mkBoot m (task s) (busy s).

(** [outb]: a command makes the controller busy. *)
Definition bout (port v : Z) : M boot unit :=
  modify (fun s => mkBoot (bmem s) (Ide.hw_write (task s) (Ide.Outb port (u8 v))) (if port =? 503 then latency else busy s)).

(** [inb(0x1F7)] *)
Definition bstatus : M boot Z := fun s =>
  Ret (match busy s with O => 64 | S _ => 128 end) (mkBoot (bmem s) (task s) (pred (busy s))).

Fixpoint waitdisk (fuel : nat) : M boot unit :=
  match fuel with
  | O => block
  | S fuel' => let* r := bstatus in if Z.land r 192 =? 64 then ret tt else waitdisk fuel'
  end.

(** [insl]: the sector the controller was told to read. *)
Definition binsl (dst : Z) : M boot unit :=
  modify (fun s =>
    match Ide.command (task s) with
    | Some c => if c =? 32 then set_bmem (m_write (bmem s) dst (disk (Ide.hw_dev (task s)) (Ide.hw_lba (task s)))) s else s
    | None => s
    end).

Context (fuel : nat).

Definition readsect (dst offset : Z) : M boot unit :=
  waitdisk fuel ;;;
  bout 498 1 ;;;
  bout 499 offset ;;;
  bout 500 (Z.shiftr offset 8) ;;;
  bout 501 (Z.shiftr offset 16) ;;;
  bout 502 (Z.lor (Z.shiftr offset 24) 224) ;;;
  bout 503 32 ;;;
  waitdisk fuel ;;;
  binsl dst.

(** [for(; pa < epa; pa += SECTSIZE, offset++) readsect(pa, offset);] *)
Fixpoint readseg_loop (n : nat) (pa epa offset : Z) : M boot unit :=
  match n with
  | O => block
  | S n' => if pa <? epa then readsect pa offset ;;; readseg_loop n' (u32 (pa + SECTSIZE)) epa (u32 (offset + 1)) else ret tt
  end.

Definition readseg (pa count offset : Z) : M boot unit :=
  let epa := u32 (pa + count) in
  let pa := u32 (pa - offset mod SECTSIZE) in
  readseg_loop (S (Z.to_nat ((epa - pa) / SECTSIZE + 1))) pa epa (u32 (offset / SECTSIZE + 1)).

(** Fields of the headers in memory. *)
Definition bh_entry (m : memory) (elf : Z) : Z := load32 m (elf + 24).
Definition bh_phoff (m : memory) (elf : Z) : Z := load32 m (elf + 28).
Definition bh_phnum (m : memory) (elf : Z) : Z := m (elf + 44) + 256 * m (elf + 45).
Record seg := mkSeg { s_off : Z; s_paddr : Z; s_filesz : Z; s_memsz : Z }.
Definition seg_at (m : memory) (ph : Z) : seg := mkSeg (load32 m (ph + 4)) (load32 m (ph + 12)) (load32 m (ph + 16)) (load32 m (ph + 20)).

(** The body of the loop over the program headers. *)
Definition load_seg (g : seg) : M boot unit :=
  readseg (s_paddr g) (s_filesz g) (s_off g) ;;;
  if s_filesz g <? s_memsz g
  then modify (fun s => set_bmem (Mem.stosb (Z.to_nat (s_memsz g - s_filesz g)) (bmem s) (s_paddr g + s_filesz g) 0) s)
  else ret tt.

(** [for(; ph < eph; ph++)], at most [n] headers. *)
Fixpoint load_segs (n : nat) (ph eph : Z) : M boot unit :=
  match n with
  | O => ret tt
  | S n' =>
      if ph <? eph then
        let* g := gets (fun s => seg_at (bmem s) ph) in
        load_seg g ;;;
        load_segs n' (u32 (ph + Exec.sizeof_proghdr)) eph
      else ret tt
  end.

Definition elf : Z := 65536.

(** [bootmain]: the entry point it calls, or [None] when it returns to bootasm.S. *)
Definition bootmain : M boot (option Z) :=
  readseg elf 4096 0 ;;;
  let* m := gets bmem in
  if negb (load32 m elf =? Exec.ELF_MAGIC) then ret None
  else
    let ph := u32 (elf + bh_phoff m elf) in
    load_segs (Z.to_nat (bh_phnum m elf)) ph (u32 (ph + Exec.sizeof_proghdr * bh_phnum m elf)) ;;;
    let* m := gets bmem in
    ret (Some (bh_entry m elf)).

(** ** Sectors *)

Context (Hlat : (latency < fuel)%nat) (Hsec : forall n, length (disk 0 n) = 512%nat).

Lemma waitdisk_wp n s Q : (busy s < n)%nat -> Q tt (mkBoot (bmem s) (task s) 0) -> wp (waitdisk n) Q s.
Proof using All.
  revert s. induction n as [|n IH]; intros s Hb HQ; [lia|]. cbn [waitdisk]. apply wp_bind. unfold wp at 1, bstatus.
  destruct (busy s) as [|k] eqn:E; [exact HQ|]. apply IH; [simpl; lia|exact HQ].
Qed.

Lemma top_bits t : 0 <= t < 16 -> Z.land (u8 (Z.lor t 224)) 15 = t /\ Z.land (Z.shiftr (u8 (Z.lor t 224)) 4) 1 = 0.
Proof using All.
  intros Ht. assert (H := byte_forall (fun b => (16 <=? b) || ((Z.land (u8 (Z.lor b 224)) 15 =? b) && (Z.land (Z.shiftr (u8 (Z.lor b 224)) 4) 1 =? 0)))
    ltac:(by vm_compute) t ltac:(unfold is_byte; lia)). cbv beta in H. rewrite (proj2 (Z.leb_gt 16 t)) in H by lia. cbn [orb] in H.
  by apply andb_true_iff in H as [->%Z.eqb_eq ->%Z.eqb_eq].
Qed.

(** The task file addresses the sector. *)
Lemma readsect_wp dst n s (Q : unit -> boot -> Prop) : (busy s < fuel)%nat -> 0 <= n < 268435456 ->
  (forall c, Q tt (mkBoot (m_write (bmem s) dst (disk 0 n)) c 0)) -> wp (readsect dst n) Q s.
Proof using All.
  intros Hb Hn HQ. unfold readsect. apply wp_bind, waitdisk_wp; [done|]. do 6 apply wp_bind, wp_modify. apply wp_bind, waitdisk_wp; [exact Hlat|].
  apply wp_modify. cbn [task bmem]. set (c := Ide.hw_write _ (Ide.Outb 503 _)).
  assert (Ht : 0 <= Z.shiftr n 24 < 16) by (rewrite Z.shiftr_div_pow2 by lia; change (2 ^ 24) with 16777216; dlia).
  destruct (top_bits _ Ht) as [T1 T2].
  change (Ide.command c) with (Some 32). cbv iota. change (32 =? 32) with true. cbv iota.
  replace (Ide.hw_dev c) with 0 by (symmetry; exact T2). replace (Ide.hw_lba c) with n; [apply HQ|].
  change (Ide.hw_lba c) with (u8 n + 256 * u8 (Z.shiftr n 8) + 65536 * u8 (Z.shiftr n 16) + 16777216 * Z.land (u8 (Z.lor (Z.shiftr n 24) 224)) 15).
  rewrite T1, !Z.shiftr_div_pow2 by lia. unfold u8. change (2 ^ 8) with 256. change (2 ^ 16) with 65536. change (2 ^ 24) with 16777216. dlia.
Qed.

(** ** Ranges of the kernel file *)

(** The kernel file starts at sector 1. *)
Definition kfile (i : Z) : Z := default 0 (disk 0 (1 + i / 512) !! Z.to_nat (i mod 512)).

(** The bytes of the file from [base] on at [lo]. *)
Definition loaded (m : memory) (lo hi base x : Z) : Z := if (lo <=? x) && (x <? hi) then kfile (base + (x - lo)) else m x.

Definition rounds (n : Z) : Z := Z.max 0 ((n + 511) / 512).

Lemma sector_loaded m pa o x : 1 <= o -> m_write m pa (disk 0 o) x = loaded m pa (pa + 512) (512 * (o - 1)) x.
Proof using All.
  intros Ho. unfold loaded. destruct (Z.leb_spec pa x), (Z.ltb_spec x (pa + 512)); cbn [andb].
  - assert (Hw := VmUser.write_inside m pa (disk 0 o) x ltac:(rewrite Hsec; lia)). unfold kfile.
    replace (1 + (512 * (o - 1) + (x - pa)) / 512) with o by dlia. replace ((512 * (o - 1) + (x - pa)) mod 512) with (x - pa) by dlia.
    by rewrite <- Hw.
  - apply VmUser.write_outside. rewrite Hsec. lia.
  - apply VmUser.write_outside. lia.
  - apply VmUser.write_outside. lia.
Qed.

Lemma readseg_loop_wp n pa epa o s : (busy s < fuel)%nat -> 0 <= pa -> 1 <= o -> pa + 512 * rounds (epa - pa) < 4294967296 ->
  o + rounds (epa - pa) <= 268435456 -> rounds (epa - pa) < Z.of_nat n ->
  wp (readseg_loop n pa epa o) (fun _ s' => (busy s' < fuel)%nat /\
    forall x, bmem s' x = loaded (bmem s) pa (pa + 512 * rounds (epa - pa)) (512 * (o - 1)) x) s.
Proof using All.
  revert pa o s. induction n as [|n IH]; intros pa o s Hb Hpa Ho Hmax Hlba Hn; [unfold rounds in Hn; lia|]. cbn [readseg_loop].
  destruct (Z.ltb_spec pa epa) as [Hlt|Hge].
  - assert (Er : rounds (epa - pa) = 1 + rounds (epa - (pa + 512))) by (unfold rounds; dlia).
    assert (Hr : 0 <= rounds (epa - (pa + 512))) by (unfold rounds; lia).
    apply wp_bind, readsect_wp; [done|lia|]. intros c. unfold SECTSIZE. rewrite !u32_small by (unfold is_u32; lia).
    eapply wp_mono; [apply IH; cbn [busy]; lia|]. intros [] s' [Hb' Hm]. split; [done|]. intros x. rewrite Hm. cbn [bmem].
    unfold loaded at 1. rewrite sector_loaded by lia. unfold loaded.
    destruct (Z.leb_spec (pa + 512) x), (Z.ltb_spec x (pa + 512 + 512 * rounds (epa - (pa + 512)))), (Z.leb_spec pa x),
      (Z.ltb_spec x (pa + 512)), (Z.ltb_spec x (pa + 512 * rounds (epa - pa))); cbn [andb]; try lia; try done. f_equal. lia.
  - assert (Er : rounds (epa - pa) = 0) by (unfold rounds; dlia). apply wp_ret. split; [done|]. intros x. rewrite Er. unfold loaded.
    destruct (Z.leb_spec pa x), (Z.ltb_spec x (pa + 512 * 0)); cbn [andb]; (done || lia).
Qed.

(** What [readseg] writes: whole sectors around the range. *)
Definition seg_lo (pa off : Z) : Z := pa - off mod 512.
Definition seg_hi (pa count off : Z) : Z := seg_lo pa off + 512 * rounds (pa + count - seg_lo pa off).

Lemma readseg_wp pa count off s : (busy s < fuel)%nat -> 0 <= seg_lo pa off -> 0 <= count -> 0 <= off ->
  seg_hi pa count off < 4294967296 -> off + count < 134217728000 ->
  wp (readseg pa count off) (fun _ s' => (busy s' < fuel)%nat /\
    forall x, bmem s' x = loaded (bmem s) (seg_lo pa off) (seg_hi pa count off) (off - off mod 512) x) s.
Proof using All.
  intros Hb Hlo Hc Ho Hhi Hlba. unfold seg_hi in *. set (lo := seg_lo pa off) in *.
  assert (Hr : pa + count - lo <= 512 * rounds (pa + count - lo)) by (unfold rounds; dlia).
  assert (Hm : 0 <= off mod 512 < 512) by (apply Z.mod_pos_bound; lia).
  unfold readseg, SECTSIZE. change (pa - off mod 512) with lo. rewrite (u32_small (pa + count)), (u32_small lo) by (unfold is_u32, lo, seg_lo in *; lia).
  assert (Hq : off / 512 + rounds (pa + count - lo) < 268435455) by (unfold rounds, lo, seg_lo in *; dlia).
  assert (Hr0 : 0 <= rounds (pa + count - lo)) by (unfold rounds; lia). assert (0 <= off / 512) by (apply Z.div_pos; lia).
  rewrite u32_small by (unfold is_u32; lia).
  eapply wp_mono; [apply readseg_loop_wp; [done|done|lia|done|lia|unfold rounds in *; dlia]|].
  intros [] s' [Hb' Hx]. split; [done|]. intros x. rewrite Hx. do 2 f_equal. dlia.
Qed.

(** ** Segments *)

(** A segment the loader can load: inside the address space, apart from the page the
    headers are in. *)
Record seg_ok (g : seg) : Prop := {
  so_off : is_u32 (s_off g);
  so_size : 0 <= s_filesz g <= s_memsz g;
  so_lo : 0 <= seg_lo (s_paddr g) (s_off g);
  so_hi : seg_hi (s_paddr g) (s_filesz g) (s_off g) < 4294967296;
  so_end : s_paddr g + s_memsz g < 4294967296;
  so_apart : elf + 4096 <= seg_lo (s_paddr g) (s_off g) \/
    (seg_hi (s_paddr g) (s_filesz g) (s_off g) <= elf /\ s_paddr g + s_memsz g <= elf) }.

(** The segment is in memory: its part of the file, and zeros. *)
Definition in_memory (m : memory) (g : seg) : Prop := forall i, 0 <= i < s_memsz g ->
  m (s_paddr g + i) = if i <? s_filesz g then kfile (s_off g + i) else 0.

(** Where loading a segment can write. *)
Definition touched (g : seg) (x : Z) : Prop :=
  seg_lo (s_paddr g) (s_off g) <= x < Z.max (seg_hi (s_paddr g) (s_filesz g) (s_off g)) (s_paddr g + s_memsz g).

Lemma load_seg_wp g s : (busy s < fuel)%nat -> seg_ok g ->
  wp (load_seg g) (fun _ s' => (busy s' < fuel)%nat /\ in_memory (bmem s') g /\ forall x, ~ touched g x -> bmem s' x = bmem s x) s.
Proof using All.
  intros Hb [H1 H2 H3 H4 H5 _]. unfold is_u32 in H1.
  assert (Hm : 0 <= s_off g mod 512 < 512) by (apply Z.mod_pos_bound; lia). unfold load_seg. apply wp_bind.
  assert (Hh : s_paddr g + s_filesz g <= seg_hi (s_paddr g) (s_filesz g) (s_off g)) by (unfold seg_hi, rounds; dlia).
  eapply wp_mono; [apply readseg_wp; [done|done|lia|lia|done|unfold seg_lo in *; lia]|]. intros [] s1 [Hb1 Hl].
  assert (Hin : forall i, 0 <= i < s_filesz g -> bmem s1 (s_paddr g + i) = kfile (s_off g + i)).
  { intros i Hi. rewrite Hl. unfold loaded. unfold seg_lo in *. rewrite (proj2 (Z.leb_le _ _)), (proj2 (Z.ltb_lt _ _)) by lia. cbn [andb]. f_equal. lia. }
  assert (Hout : forall x, ~ touched g x -> bmem s1 x = bmem s x).
  { intros x Hx. rewrite Hl. unfold loaded. unfold touched in Hx. destruct (Z.leb_spec (seg_lo (s_paddr g) (s_off g)) x), (Z.ltb_spec x (seg_hi (s_paddr g) (s_filesz g) (s_off g)));
      cbn [andb]; (done || lia). }
  destruct (Z.ltb_spec (s_filesz g) (s_memsz g)) as [Hlt|Hge].
  - apply wp_modify. cbn [bmem set_bmem busy]. split_and!; [done| |].
    + intros i Hi. rewrite Mem.stosb_spec. unfold Mem.filled. rewrite Z2Nat.id by lia. destruct (Z.ltb_spec i (s_filesz g)).
      * rewrite (proj2 (Z.leb_gt _ _)) by lia. cbn [andb]. apply Hin. lia.
      * rewrite (proj2 (Z.leb_le _ _)), (proj2 (Z.ltb_lt _ _)) by lia. done.
    + intros x Hx. rewrite Mem.stosb_spec. unfold Mem.filled. rewrite Z2Nat.id by lia. rewrite <- Hout by done. unfold touched, seg_lo in Hx.
      destruct (Z.leb_spec (s_paddr g + s_filesz g) x), (Z.ltb_spec x (s_paddr g + s_filesz g + (s_memsz g - s_filesz g))); cbn [andb]; (done || lia).
  - apply wp_ret. split_and!; [done| |exact Hout]. intros i Hi. rewrite (proj2 (Z.ltb_lt i (s_filesz g))) by lia. apply Hin. lia.
Qed.

(** ** The kernel *)

(** The headers are in the scratch page. *)
Definition scratch (m : memory) : Prop := forall a, 0 <= a < 4096 -> m (elf + a) = kfile a.

Lemma scratch_word m a : scratch m -> 0 <= a -> a + 4 <= 4096 -> load32 m (elf + a) = load32 kfile a.
Proof using All. intros Hs H0 H1. unfold load32. rewrite <- !Z.add_assoc, !Hs by lia. done. Qed.

Lemma scratch_seg m a : scratch m -> 0 <= a -> a + 32 <= 4096 -> seg_at m (elf + a) = seg_at kfile a.
Proof using All. intros Hs H0 H1. unfold seg_at. rewrite <- !Z.add_assoc, !scratch_word by (done || lia). done. Qed.

(** The headers of the kernel file, all in its first page, and the segments they
    describe: in increasing order, so that loading one leaves the ones before alone. *)
Record kernel_file (ks : list seg) : Prop := {
  kf_magic : load32 kfile 0 = Exec.ELF_MAGIC;
  kf_phoff : 0 <= bh_phoff kfile 0;
  kf_page : bh_phoff kfile 0 + 32 * Z.of_nat (length ks) <= 4096;
  kf_phnum : bh_phnum kfile 0 = Z.of_nat (length ks);
  kf_segs : forall k g, ks !! k = Some g -> g = seg_at kfile (bh_phoff kfile 0 + 32 * Z.of_nat k) /\ seg_ok g;
  kf_order : forall j k g h, (j < k)%nat -> ks !! j = Some g -> ks !! k = Some h -> s_paddr g + s_memsz g <= seg_lo (s_paddr h) (s_off h) }.

Lemma load_segs_wp ks n k s : kernel_file ks -> (k + n = length ks)%nat -> (busy s < fuel)%nat -> scratch (bmem s) ->
  let ph := elf + bh_phoff kfile 0 in
  wp (load_segs n (ph + 32 * Z.of_nat k) (ph + 32 * Z.of_nat (length ks))) (fun _ s' =>
    scratch (bmem s') /\ (forall j g, (k <= j)%nat -> ks !! j = Some g -> in_memory (bmem s') g) /\
    forall x, (forall j g, (k <= j)%nat -> ks !! j = Some g -> ~ touched g x) -> bmem s' x = bmem s x) s.
Proof using All.
  intros KF. revert k s. induction n as [|n IH]; intros k s Hk Hb Hs ph; cbn [load_segs].
  { apply wp_ret. split_and!; [done| |done]. intros j g Hj Hg. apply lookup_lt_Some in Hg. lia. }
  assert (Hpg := kf_page _ KF). assert (H0 := kf_phoff _ KF). unfold Exec.sizeof_proghdr.
  destruct (lookup_lt_is_Some_2 ks k) as [g Hg]; [lia|]. destruct (kf_segs _ KF k g Hg) as [Eg Og].
  rewrite (proj2 (Z.ltb_lt _ _)) by lia. apply wp_bind, wp_gets.
  assert (Ea : seg_at (bmem s) (ph + 32 * Z.of_nat k) = g) by (unfold ph; rewrite <- Z.add_assoc, scratch_seg by (done || lia); done). rewrite Ea.
  apply wp_bind. eapply wp_mono; [by apply load_seg_wp|]. intros [] s1 (Hb1 & Hm1 & Ho1).
  assert (Hs1 : scratch (bmem s1)).
  { intros a Ha. rewrite Ho1; [by apply Hs|]. unfold touched. destruct (so_apart _ Og) as [?|[? ?]]; lia. }
  rewrite u32_small by (unfold is_u32, ph, elf; lia). replace (ph + 32 * Z.of_nat k + 32) with (ph + 32 * Z.of_nat (S k)) by lia.
  eapply wp_mono; [apply (IH (S k) s1); (done || lia)|]. intros [] s2 (Hs2 & Hm2 & Ho2). split_and!; [done| |].
  - intros j h Hj Hh. destruct (decide (j = k)) as [->|]; [|by apply (Hm2 j); [lia|]]. assert (h = g) as -> by congruence.
    intros i Hi. rewrite Ho2; [by apply Hm1|]. intros l h' Hl Hh'. assert (Hord := kf_order _ KF k l g h' ltac:(lia) Hg Hh'). unfold touched. lia.
  - intros x Hx. rewrite Ho2; [apply Ho1; by apply (Hx k)|]. intros j h Hj Hh. apply (Hx j); [lia|done].
Qed.

Lemma read_headers s : (busy s < fuel)%nat ->
  wp (readseg elf 4096 0) (fun _ s' => (busy s' < fuel)%nat /\ scratch (bmem s') /\ forall x, x < elf \/ elf + 4096 <= x -> bmem s' x = bmem s x) s.
Proof using All.
  intros Hb. eapply wp_mono; [apply readseg_wp; [done|by vm_compute..]|]. intros [] s' [Hb' Hl].
  change (seg_lo elf 0) with elf in Hl. change (seg_hi elf 4096 0) with (elf + 4096) in Hl. split_and!; [done| |].
  - intros a Ha. rewrite Hl. unfold loaded. rewrite (proj2 (Z.leb_le _ _)), (proj2 (Z.ltb_lt _ _)) by lia. cbn [andb]. f_equal. change (0 mod 512) with 0. lia.
  - intros x Hx. rewrite Hl. unfold loaded. destruct (Z.leb_spec elf x), (Z.ltb_spec x (elf + 4096)); cbn [andb]; (done || lia).
Qed.

(** C16: for a kernel file that meets the assumptions of the loader, bootmain ends with the entry point of the ELF header, and every segment is in memory at its physical address: the bytes of the file followed by zeros up to its size in memory, although whole sectors are read and later segments are loaded after earlier ones; no memory outside the scratch page and the sectors of the segments is written. *)
Theorem bootmain_loads ks s : kernel_file ks -> (busy s < fuel)%nat ->
  wp bootmain (fun r s' => r = Some (bh_entry kfile 0) /\ (forall g, g ∈ ks -> in_memory (bmem s') g) /\
    forall x, x < elf \/ elf + 4096 <= x -> (forall g, g ∈ ks -> ~ touched g x) -> bmem s' x = bmem s x) s.
Proof using All.
  intros KF Hb. unfold bootmain. apply wp_bind. eapply wp_mono; [by apply read_headers|]. intros [] s1 (Hb1 & Hs1 & Ho1).
  assert (Hpg := kf_page _ KF). assert (H0 := kf_phoff _ KF). apply wp_bind, wp_gets.
  assert (E0 : load32 (bmem s1) elf = Exec.ELF_MAGIC) by (rewrite <- (kf_magic _ KF); apply (scratch_word (bmem s1) 0); (done || lia)).
  rewrite E0, Z.eqb_refl. cbn [negb].
  assert (Ep : bh_phoff (bmem s1) elf = bh_phoff kfile 0) by (apply (scratch_word (bmem s1) 28); (done || lia)).
  assert (En : bh_phnum (bmem s1) elf = Z.of_nat (length ks)) by (unfold bh_phnum; rewrite !Hs1 by lia; apply KF).
  rewrite Ep, En, Nat2Z.id. unfold Exec.sizeof_proghdr. rewrite (u32_small (elf + _)) by (unfold is_u32, elf; lia). rewrite u32_small by (unfold is_u32, elf; lia).
  apply wp_bind. assert (Hw := load_segs_wp ks (length ks) 0 s1 KF eq_refl Hb1 Hs1). cbv zeta in Hw. rewrite Z.mul_0_r, Z.add_0_r in Hw.
  eapply wp_mono; [exact Hw|]. intros [] s2 (Hs2 & Hm2 & Ho2). apply wp_bind, wp_gets, wp_ret. split_and!.
  - f_equal. apply (scratch_word (bmem s2) 24); (done || lia).
  - intros g Hg. apply list_elem_of_lookup in Hg as [j Hj]. by apply (Hm2 j); [lia|].
  - intros x Hx Ht. rewrite Ho2; [by apply Ho1|]. intros j g _ Hg. apply Ht. by apply list_elem_of_lookup_2 with j.
Qed.

(** Without the magic number bootmain returns to bootasm.S, with only the scratch page
    written. *)
Lemma bootmain_rejects s : load32 kfile 0 <> Exec.ELF_MAGIC -> (busy s < fuel)%nat ->
  wp bootmain (fun r s' => r = None /\ forall x, x < elf \/ elf + 4096 <= x -> bmem s' x = bmem s x) s.
Proof using All.
  intros Hne Hb. unfold bootmain. apply wp_bind. eapply wp_mono; [by apply read_headers|]. intros [] s1 (Hb1 & Hs1 & Ho1).
  apply wp_bind, wp_gets. assert (E0 := scratch_word (bmem s1) 0 Hs1 ltac:(lia) ltac:(lia)). rewrite Z.add_0_r in E0.
  rewrite E0, (proj2 (Z.eqb_neq _ _) Hne). by apply wp_ret.
Qed.
End Loader.

(** A kernel of one segment: 600 bytes of the file from 4096 on at 1 MB, and 100 zeros. *)
Definition ex_header : list Z :=
  le_bytes 4 1179403647 ++ replicate 20 0 ++ le_bytes 4 1048588 ++ le_bytes 4 52 ++ replicate 12 0 ++ le_bytes 2 1 ++ replicate 6 0 ++
  le_bytes 4 1 ++ le_bytes 4 4096 ++ le_bytes 4 2148532224 ++ le_bytes 4 1048576 ++ le_bytes 4 600 ++ le_bytes 4 700 ++ replicate 8 0.
Definition ex_disk (d n : Z) : list Z :=
  if n =? 1 then ex_header ++ replicate (512 - length ex_header) 0 else replicate 512 (u8 n).
Definition ex_seg : seg := mkSeg 4096 1048576 600 700.

Lemma ex_kernel : kernel_file ex_disk [ex_seg].
Proof.
  split; [by vm_compute|by vm_compute|by vm_compute|by vm_compute| |].
  - intros [|k] g Hg; [|done]. injection Hg as <-. split; [by vm_compute|]. split; [by vm_compute..|left; by vm_compute].
  - intros j [|k] g h Hj; [lia|done].
Qed.

Lemma ex_disk_length n : length (ex_disk 0 n) = 512%nat.
Proof. unfold ex_disk. destruct (n =? 1); [by vm_compute|by rewrite length_replicate]. Qed.

Lemma bootmain_loads_witness : exists s', bootmain ex_disk 3 4 (mkBoot (fun _ => 7) (Ide.mkCtl 0 0 0 0 None []) 2) = Ret (Some 1048588) s' /\
  bmem s' (1048576 + 599) = 10 /\ bmem s' (1048576 + 699) = 0 /\ bmem s' 0 = 7.
Proof.
  assert (H := bootmain_loads ex_disk 3 4 ltac:(lia) ex_disk_length [ex_seg] (mkBoot (fun _ => 7) (Ide.mkCtl 0 0 0 0 None []) 2) ex_kernel ltac:(simpl; lia)).
  destruct (proj1 (wp_returns _ _ _) H) as (r & s' & E & Er & Hm & Ho). exists s'. rewrite E, Er. clear E H.
  assert (Hg := Hm ex_seg (list_elem_of_here _ _)). split_and!.
  - reflexivity.
  - etransitivity; [apply (Hg 599); by vm_compute|by vm_compute].
  - etransitivity; [apply (Hg 699); by vm_compute|by vm_compute].
  - apply Ho; [left; by vm_compute|]. intros g ->%list_elem_of_singleton Ht. destruct Ht as [Ht _]. by vm_compute in Ht.
Defined.

End Boot.
