(* ===== verification/Start.v ===== *)
(** * main.c: the page table of the entry code and the other processors

    [Module Start] translates [entrypgdir] and [startothers].  Another processor is what
    the interrupts sent to it make of it ([Devices.ap_recv]): once it runs, entryother.S
    loads the three words below its code and calls the entry point, and [mpmain] sets
    [started].  [launches] records those words; a processor that does not run makes the
    wait for [started] block.

    [entry_maps]: the boot page table maps the first 4 MB twice and nothing else.
    [startothers_launches]: every processor but the running one is started, in order, at
    the entry code, each with a stack of its own. *)

From S2P Require Import Prelude Kalloc Vm Proc Mp Devices.

Module Start.
Import Kalloc Devices.

(** ** The boot page table *)

Definition PTE_PS : Z := 128.

Definition entrypgdir : list Z :=
  <[Z.to_nat (Z.shiftr KERNBASE Vm.PDXSHIFT):=Z.lor (Z.lor (Z.lor 0 Vm.PTE_P) Vm.PTE_W) PTE_PS]>
    (<[0%nat:=Z.lor (Z.lor (Z.lor 0 Vm.PTE_P) Vm.PTE_W) PTE_PS]> (replicate (Z.to_nat Vm.NPDENTRIES) 0)).

(** What the processor does with a directory of 4 MB pages. *)
Definition big_translate (dir : list Z) (va : Z) : option Z :=
  let pde := default 0 (dir !! Z.to_nat (Z.shiftr va Vm.PDXSHIFT)) in
  if has_flag pde Vm.PTE_P && has_flag pde PTE_PS then Some (4194304 * Z.shiftr pde Vm.PDXSHIFT + va mod 4194304) else None.

Lemma entry_lookup i : 0 <= i < 1024 -> default 0 (entrypgdir !! Z.to_nat i) = if (i =? 0) || (i =? 512) then 131 else 0.
Proof.
  intros Hi. unfold entrypgdir. change (Z.to_nat (Z.shiftr KERNBASE Vm.PDXSHIFT)) with 512%nat.
  destruct (Z.eqb_spec i 512) as [->|]; [by vm_compute|]. rewrite list_lookup_insert_ne by lia.
  destruct (Z.eqb_spec i 0) as [->|]; [by vm_compute|]. rewrite list_lookup_insert_ne by lia.
  change (Z.to_nat Vm.NPDENTRIES) with 1024%nat. rewrite lookup_replicate_2 by lia. done.
Qed.

Lemma entry_maps va : is_u32 va -> big_translate entrypgdir va =
  if va <? 4194304 then Some va
  else if (KERNBASE <=? va) && (va <? KERNBASE + 4194304) then Some (va - KERNBASE) else None.
Proof.
  intros Hv. unfold is_u32 in Hv. unfold big_translate, Vm.PDXSHIFT. rewrite Z.shiftr_div_pow2 by lia. change (2 ^ 22) with 4194304.
  rewrite entry_lookup by dlia. unfold KERNBASE.
  destruct (Z.eqb_spec (va / 4194304) 0), (Z.eqb_spec (va / 4194304) 512), (Z.ltb_spec va 4194304), (Z.leb_spec 2147483648 va),
    (Z.ltb_spec va (2147483648 + 4194304)); cbn [orb andb]; try (exfalso; dlia); try reflexivity.
  - change (Some (4194304 * 0 + va mod 4194304) = Some va). f_equal. dlia.
  - change (Some (4194304 * 0 + va mod 4194304) = Some (va - 2147483648)). f_equal. dlia.
Qed.

(** ** startothers *)

(** What a processor finds when it runs the entry code. *)
Record launch := mkLaunch { l_cpu : Z; l_addr : Z; l_stack : Z; l_entry : Z; l_pgdir : Z }.

Record smp := mkSmp { sk : kstate; sd : kdev hw; launches : list launch }.

Definition onk {A} (m : M kstate A) : M smp A := zoom sk (fun k s => mkSmp k (sd s) (launches s)) m.
Definition ond {A} (m : M (kdev hw) A) : M smp A := zoom sd (fun d s => mkSmp (sk s) d (launches s)) m.

Section Others.
(** The addresses of [mpenter] and [entrypgdir], and the image of entryother.S. *)
Context (mpenter pgdir : Z) (entryother : list Z).

(** The processor [id] under the interrupts it was sent. *)
Definition ap_state (id : Z) (s : smp) : apstate := foldl (ap_recv id) Stopped (ipis (local (dev (sd s)))).

(** [while(c->started == 0);] *)
Definition wait_started (id : Z) : M smp unit := fun s =>
  match ap_state id s with
  | RunAt a =>
      let m := mem (sk s) in
      Ret tt (mkSmp (sk s) (sd s) (launches s ++ [mkLaunch id a (Kalloc.load32 m (a - 4)) (Kalloc.load32 m (a - 8)) (Kalloc.load32 m (a - 12))]))
  | _ => Blocked
  end.

Definition code : Z := 28672.

(** The body of the loop for processor [id]; memory is physical. *)
Definition start_cpu (id : Z) : M smp unit :=
  let* stack := onk kalloc in
  onk (set_mem (fun m => Kalloc.store32 m (code - 4) (u32 (stack + Proc.KSTACKSIZE)))) ;;;
  onk (set_mem (fun m => Kalloc.store32 m (code - 8) mpenter)) ;;;
  onk (set_mem (fun m => Kalloc.store32 m (code - 12) (v2p pgdir))) ;;;
  ond (lapicstartap (u8 id) code) ;;;
  wait_started id.

Definition startothers : M smp unit :=
  onk (set_mem (fun m => m_write m code entryother)) ;;;
  let* n := gets (fun s => Mp.ncpu (mps (sd s))) in
  for_upto (Z.to_nat n) 0 (fun i =>
    let* me := ond (cpunum false) in
    if Z.of_nat i =? me then ret tt
    else
      let* id := gets (fun s => default 0 (Mp.cpu_ids (mps (sd s)) !! i)) in
      start_cpu id).

(** *** Correctness *)

Context (kend : Z) (Hend : KERNLINK <= kend < KERNBASE + PHYSTOP) (Hpe : is_u32 mpenter).
Context (Hcode : code + Z.of_nat (length entryother) <= EXTMEM).

(** Writing below 1 MB leaves the free pages alone. *)
Lemma low_kinv k m l : kinv kend k l -> (forall x, EXTMEM <= x -> m x = mem k x) -> kinv kend (mkK m (use_lock k) (freelist k)) l.
Proof using All.
  intros K Hm. apply (kinv_ext kend k); [done| |done]. intros f Hf x Hx. apply Hm.
  assert (Hfr := k_frames _ _ _ K). rewrite Forall_forall in Hfr. assert (Hr := frame_range kend Hend f (Hfr f Hf)). lia.
Qed.

(** Memory from 1 MB on is as before. *)
Definition high_kept (s s' : smp) : Prop := forall x, EXTMEM <= x -> mem (sk s') x = mem (sk s) x.

(** The launch of a processor with the stack page [f]. *)
Definition launched (id f : Z) : launch := mkLaunch id code (f + KERNBASE + Proc.KSTACKSIZE) mpenter (v2p pgdir).

Lemma start_cpu_wp id f fl s : kinv kend (sk s) (f :: fl) -> la_ok (sd s) -> 0 <= id < 256 ->
  wp (start_cpu id) (fun _ s' => kinv kend (sk s') fl /\ la_ok (sd s') /\ same_cpu (sd s) (sd s') /\ same_routing (sd s) (sd s') /\
    high_kept s s' /\ launches s' = launches s ++ [launched id f]) s.
Proof using All.
  intros K Hok Hid. assert (Hf : frame kend f) by (assert (H := k_frames _ _ _ K); by apply Forall_cons in H as [H _]).
  assert (Hr := frame_range kend Hend f Hf). unfold start_cpu. apply wp_bind, wp_zoom, (kalloc_wp kend Hend _ (f :: fl)); [done|].
  intros k1 K1 M1 _. unfold onk at 1 2 3. do 3 (apply wp_bind, wp_zoom, wp_modify). cbn [sk sd launches mem].
  apply wp_bind, wp_zoom. rewrite u8_small by (unfold is_byte; lia).
  eapply wp_mono; [apply (ap_starts id code); [exact Hok|lia|by vm_compute|by vm_compute]|].
  intros [] d' (cmds & Hi & Hrun & _ & _ & _ & Hok' & Hcpu & Hroute). unfold wp, wait_started, ap_state. cbn [sd sk launches] in *.
  rewrite Hi, foldl_app, Hrun. cbn [mem sk sd launches].
  assert (Hs : is_u32 (f + KERNBASE + Proc.KSTACKSIZE)) by (unfold is_u32, EXTMEM, PHYSTOP, KERNBASE, Proc.KSTACKSIZE in *; lia).
  assert (Hhigh : forall x, EXTMEM <= x -> Kalloc.store32 (Kalloc.store32 (Kalloc.store32 (mem k1) (code - 4) (u32 (f + KERNBASE + Proc.KSTACKSIZE))) (code - 8) mpenter) (code - 12) (v2p pgdir) x = mem k1 x)
    by (intros x Hx; unfold code, EXTMEM in *; by rewrite !store_outside by lia).
  split_and!; [|done|done|done|intros x Hx; cbn [sk mem]; rewrite <- M1; by apply Hhigh|].
  - apply (low_kinv (mkK (mem k1) (use_lock k1) (freelist k1))); [by destruct k1|]. exact Hhigh.
  - do 2 f_equal. unfold launched. f_equal.
    + rewrite !load_store_other by (unfold code; lia). rewrite load_store_same, u32_small by (rewrite ?u32_small; done). done.
    + rewrite load_store_other by (unfold code; lia). by apply load_store_same.
    + apply load_store_same. unfold v2p. apply u32_range.
Qed.

(** The processors below [n] other than [me]. *)
Fixpoint others (me : Z) (n : nat) : list Z :=
  match n with
  | O => []
  | S n' => others me n' ++ (if Z.of_nat n' =? me then [] else [Z.of_nat n'])
  end.

Lemma length_others me n : Z.of_nat (length (others me n)) = Z.of_nat n - (if (0 <=? me) && (me <? Z.of_nat n) then 1 else 0).
Proof using All.
  induction n as [|n IH]; [destruct (Z.leb_spec 0 me), (Z.ltb_spec me (Z.of_nat 0)); simpl; lia|]. cbn [others]. rewrite length_app, Nat2Z.inj_add, IH.
  destruct (Z.eqb_spec (Z.of_nat n) me), (Z.leb_spec 0 me), (Z.ltb_spec me (Z.of_nat n)), (Z.ltb_spec me (Z.of_nat (S n))); cbn; lia.
Qed.

(** The processors as mp.c numbers them; the running one is [me]. *)
Record ready (s : smp) (n : nat) (me : Z) : Prop := {
  rd_ncpu : Mp.ncpu (mps (sd s)) = Z.of_nat n;
  rd_max : Z.of_nat n <= Mp.NCPU;
  rd_ids : forall i, (i < n)%nat -> Mp.cpu_ids (mps (sd s)) !! i = Some (Z.of_nat i);
  rd_lapic : if Mp.lapic (mps (sd s)) =? 0 then n = 1%nat /\ me = 0 else la_ok (sd s) /\ me = Z.shiftr (la_regs (local (dev (sd s))) ID) 24;
  rd_me : 0 <= me < Z.of_nat n }.

Lemma ready_cpunum s n me (Q : Z -> kdev hw -> Prop) : ready s n me -> Q me (sd s) -> wp (cpunum false) Q (sd s).
Proof using All.
  intros [_ _ _ Hl _] HQ. destruct (Z.eqb_spec (Mp.lapic (mps (sd s))) 0) as [E|E].
  - destruct Hl as [_ ->]. apply cpunum_wp; [done|]. by rewrite E.
  - destruct Hl as [Hok ->]. apply cpunum_wp; [done|]. by rewrite (proj2 (Z.eqb_neq _ _) E).
Qed.

(** With a free page for each of them, startothers starts every processor of the machine
    but the running one, in order, at the entry code below 1 MB, each of them finding the
    top of a stack page of its own, the address of mpenter and the boot page table; on a
    machine with one processor it starts none. *)
Lemma startothers_launches s fl n me : kinv kend (sk s) fl -> ready s n me -> Z.of_nat n - 1 <= Z.of_nat (length fl) ->
  wp startothers (fun _ s' => exists stacks fl', fl = stacks ++ fl' /\ kinv kend (sk s') fl' /\ NoDup stacks /\
    length stacks = length (others me n) /\ launches s' = launches s ++ zip_with launched (others me n) stacks /\
    same_cpu (sd s) (sd s') /\ same_routing (sd s) (sd s') /\ high_kept s s') s.
Proof using All.
  intros K R Hfl. unfold startothers. apply wp_bind, wp_zoom, wp_modify. cbn [sk]. set (s0 := mkSmp _ _ _).
  assert (H0 : high_kept s s0).
  { intros x Hx. cbn. unfold m_write. rewrite (proj2 (Z.ltb_ge x _)) by lia. by rewrite andb_false_r. }
  assert (K0 : kinv kend (sk s0) fl) by (by apply low_kinv).
  assert (R0 : ready s0 n me) by (destruct R; by split). apply wp_bind, wp_gets. rewrite (rd_ncpu _ _ _ R0), Nat2Z.id.
  assert (Hlen := length_others me n). assert (Hme := rd_me _ _ _ R). rewrite (proj2 (Z.leb_le _ _)), (proj2 (Z.ltb_lt _ _)) in Hlen by lia. cbn in Hlen.
  eapply wp_mono; [apply (wp_for_upto (fun i s' => (ready s' n me /\ same_cpu (sd s) (sd s') /\ same_routing (sd s) (sd s') /\ high_kept s s') /\
    exists stacks fl', fl = stacks ++ fl' /\ kinv kend (sk s') fl' /\
    length stacks = length (others me i) /\ launches s' = launches s ++ zip_with launched (others me i) stacks) n 0)|].
  - split; [by split_and!; try done; apply same_routing_refl|]. exists [], fl. split_and!; [done|done|done|]. cbn. by rewrite app_nil_r.
  - intros i s1 Hi [(R1 & C1 & T1 & G1) (stacks & fl' & -> & K1 & Hl1 & L1)]. apply wp_bind, wp_zoom, (ready_cpunum s1 n me); [done|].
    replace (mkSmp (sk s1) (sd s1) (launches s1)) with s1 by (by destruct s1). cbn [others]. destruct (Z.eqb_spec (Z.of_nat i) me) as [E|E].
    { apply wp_ret. split; [done|]. exists stacks, fl'. rewrite app_nil_r. done. }
    apply wp_bind, wp_gets. rewrite (rd_ids _ _ _ R1) by lia. cbn [default].
    assert (Hi2 := length_others me i). rewrite length_app in Hfl. destruct fl' as [|f fl'].
    { exfalso. rewrite <- Hl1 in Hi2. cbn [length] in Hfl. destruct (Z.leb_spec 0 me), (Z.ltb_spec me (Z.of_nat i)); cbn in Hi2; lia. }
    assert (Hrl := rd_lapic _ _ _ R1). destruct (Z.eqb_spec (Mp.lapic (mps (sd s1))) 0) as [E0|E0]; [lia|]. destruct Hrl as [Hok Eme].
    eapply wp_mono; [apply (start_cpu_wp (Z.of_nat i) f fl' s1 K1 Hok)|].
    { assert (Hx := rd_max _ _ _ R1). unfold Mp.NCPU in Hx. lia. }
    intros [] s2 (K2 & Ok2 & C2 & T2 & G2 & L2). split; [split_and!|].
    + destruct R1 as [A1 A2 A3 A4 A5]. destruct C2 as (B2 & Rg2 & Mp2). split; rewrite ?Mp2, ?Rg2; try done. by rewrite (proj2 (Z.eqb_neq _ _) E0).
    + by eapply same_cpu_trans.
    + by eapply same_routing_trans.
    + intros x Hx. by rewrite G2, G1.
    + exists (stacks ++ [f]), fl'. split_and!; [by rewrite <- app_assoc|done|rewrite !length_app; simpl; lia|].
      rewrite L2, L1, zip_with_app by done. by rewrite <- app_assoc.
  - intros [] s1 [(_ & C1 & T1 & G1) (stacks & fl' & -> & K1 & Hl1 & L1)]. exists stacks, fl'. split_and!; try done.
    assert (Hnd := k_nodup _ _ _ K). by apply NoDup_app in Hnd as [Hnd _].
Qed.
End Others.

(** Without a free page the stack starts at address 0: the result of [kalloc] is not
    tested. *)
Definition ex_smp (free : Z) (k : memory) : smp := mkSmp (mkK k false free) (ex_dev true) [].

Lemma startothers_null_stack :
  wp (startothers 2148532224 2148536320 []) (fun _ s' => launches s' = [mkLaunch 1 code Proc.KSTACKSIZE 2148532224 1052672]) (ex_smp 0 (fun _ => 0)).
Proof. by vm_compute. Qed.

End Start.
