(* ===== verification/Main.v ===== *)
(** * main.c: starting the kernel

    [Module Main] translates [main], [mpenter] and [mpmain] up to the call of [scheduler],
    which [ProcSys] interleaves, and the set-up routines that have no other place:
    [consoleinit], [ideinit] and [idtinit].  The state [boot] puts together the kernel of
    [Kernel], the devices of [Devices], the processors [Start] launches, the disk queue of
    [Ide], the locks, the console and the descriptor table register; the processor of the
    kernel state is the one that runs the code.  The messages of [cprintf] are left out.

    From [startothers] on the other processors are in [scheduler].  What they do to the
    process table until there is a process is interleaved with the statements of [main]
    ([gap], a list of [Proc.idle] for each point); what they do once the first process is
    RUNNABLE, before this processor has called [mpmain], is arbitrary ([away]).  Locks are
    followed up to [startothers] only: until then one processor runs, and it takes none
    ([kmem.use_lock] and [cons.locking] are 0 where [kalloc] and [cprintf] are called).

    [main_boots]: from the state the boot loader leaves, on a machine whose firmware
    tables are in low memory, [main] comes to its end, with the first process ready to run
    and every page of memory accounted for. *)

From S2P Require Import Prelude Spinlock Bio Log Blocks TxLog Fs FsSpec Kalloc Vm VmSpace VmUser VmLoad VmFork Sysfile Proc ProcSys Syscall Console Ide Machine Kernel Mp Devices Start.

Module Main.
Import Proc Kalloc Vm VmSpace VmUser VmLoad VmFork Kernel.
#[local] Existing Instance Devices.hw_bus.

Record boot := mkBoot {
  bt : ktable (kernel Log.lstate);
  bd : Devices.kdev Devices.hw;
  bl : list Start.launch;
  bq : Ide.ide;
  bk : Spin.machine;
  bc : Console.cons;
  bdevsw : list bool;      (* the entries of [devsw] that are set *)
  bidtr : list Z;          (* the operand of [lidt] *)
  bstarted : list bool;    (* [cpus[i].started] *)
  bkpgdir : Z }.

(** ** Parts of the state *)

Definition set_bt (t : ktable (kernel Log.lstate)) (s : boot) : boot :=
  mkBoot t (bd s) (bl s) (bq s) (bk s) (bc s) (bdevsw s) (bidtr s) (bstarted s) (bkpgdir s).
Definition set_kern (k : Sysfile.kern Log.lstate) (s : boot) : boot := set_bt (with_env (mkKernel k (kh (env (bt s)))) (bt s)) s.
Definition set_kmem (m : kstate) (s : boot) : boot := set_kern (with_mem m (kn (env (bt s)))) s.
Definition set_hw (h : Machine.hw) (s : boot) : boot := set_bt (with_env (mkKernel (kn (env (bt s))) h) (bt s)) s.
Definition set_bd (d : Devices.kdev Devices.hw) (s : boot) : boot :=
  mkBoot (bt s) d (bl s) (bq s) (bk s) (bc s) (bdevsw s) (bidtr s) (bstarted s) (bkpgdir s).
Definition set_bk (k : Spin.machine) (s : boot) : boot :=
  mkBoot (bt s) (bd s) (bl s) (bq s) k (bc s) (bdevsw s) (bidtr s) (bstarted s) (bkpgdir s).

Definition onhw {A} (m : M Machine.hw A) : M boot A := zoom (fun s => kh (env (bt s))) set_hw m.
Definition ondev {A} (m : M (Devices.kdev Devices.hw) A) : M boot A := zoom bd set_bd m.



(** [struct cpu]: its size and the offsets of its fields [ts] and [cpu]. *)
Definition sizeof_cpu : Z := 188.
Definition cpu_cpu : Z := 180.


(** ** The set-up routines *)


(** [lidt]; the operand is the limit and the two halves of the address. *)
Definition lidt (p size : Z) : list Z := [u16 (size - 1); u16 p; u16 (Z.shiftr p 16)].




Section Start.
Context {TL : Blocks.TxLayer Log.lstate} (begin_trans commit_trans : M Log.lstate unit).
Context (devsw_read : Z -> option (nat -> Z -> M (Fs.fstate Log.lstate) (Z * list Z))).
(** The layout of the kernel: its end, its data, and the addresses of its variables and
    entry points. *)
Context (kend kdata files_at inodes_at cpus_at idt_at : Z) (vectors : Z -> Z).
Context (forkret trapret mpenter_at entrypgdir_at : Z) (entryother initcode : list Z).
(** Rounds of the loops that wait, and the answers of the disk to the search for disk 1. *)
Context (fuel : nat) (answers : list Z).



Definition seg_init : M boot unit :=
  let* c := ondev (Devices.cpunum false) in
  onhw (modify (Machine.seginit (cpus_at + sizeof_cpu * c) (cpus_at + sizeof_cpu * c + cpu_cpu))).


Definition idtinit : M boot unit :=
  modify (fun s => mkBoot (bt s) (bd s) (bl s) (bq s) (bk s) (bc s) (bdevsw s) (lidt idt_at (8 * 256)) (bstarted s) (bkpgdir s)).

(** [mpmain] up to [scheduler]; [cpu] is the word at [%gs:0]. *)
Definition mpmain : M boot unit :=
  idtinit ;;;
  modify (fun s => mkBoot (bt s) (bd s) (bl s) (bq s) (bk s) (bc s) (bdevsw s) (bidtr s)
    (<[Z.to_nat ((Machine.gs_cpu (kh (env (bt s))) - cpus_at) / sizeof_cpu) := true]> (bstarted s)) (bkpgdir s)).

(** Where the other processors arrive. *)
Definition mpenter : M boot unit :=
  let* kp := gets bkpgdir in
  onhw (Machine.switchkvm kp) ;;;
  seg_init ;;;
  ondev (Devices.lapicinit fuel) ;;;
  mpmain.





(** ** The first process *)

Context (Hend : KERNLINK <= kend < KERNBASE + PHYSTOP) (Hdata : KERNLINK < kdata < KERNBASE + PHYSTOP) (Hda : kdata mod PGSIZE = 0).
Context (Hcode : Z.of_nat (length initcode) < PGSIZE).








(** ** Memory *)



Context (Hroom : kend + 90 * PGSIZE <= KERNBASE + 4194304).


(** ** Devices *)

(** The firmware tables: the floating pointer, the table and its entries; the disk. *)
Context (mpp conf : Z) (es : list Mp.entry) (dk : list (list Z)).











(** The state after a step, in its parts. *)
Ltac parts := cbn [bt bd bl bq bk bc bdevsw bidtr bstarted bkpgdir set_bt set_bd set_bk set_hw set_kern set_kmem with_env with_mem Proc.boot procs nextpid initproc env kn kh
  Sysfile.k_fs Sysfile.ftable Sysfile.pipes Sysfile.k_mem Sysfile.cur Fs.fs_blk Fs.icache Fs.with_blk Log.with_cache Log.cache].


(** ** Processors and the first process *)

Context (Hpe : is_u32 mpenter_at) (Hother : Start.code + Z.of_nat (length entryother) <= EXTMEM).





(** ** The whole *)














(** Another processor arrives in [mpenter] with segments of its own: it switches to the
    kernel's page table, sets up its segments and its local APIC, and reports itself. *)
Lemma mpenter_starts s me : Devices.la_ok (bd s) -> Mp.lapic (Devices.mps (bd s)) <> 0 -> (Devices.la_time (Devices.local (Devices.dev (bd s))) < fuel)%nat ->
  0 <= me -> me = Z.shiftr (Devices.la_regs (Devices.local (Devices.dev (bd s))) Devices.ID) 24 ->
  wp mpenter (fun _ s' => kh (env (bt s')) = Machine.seginit (cpus_at + sizeof_cpu * me) (cpus_at + sizeof_cpu * me + cpu_cpu) (result (Machine.switchkvm (bkpgdir s)) (kh (env (bt s)))) /\
    bidtr s' = lidt idt_at 2048 /\ bstarted s' = <[Z.to_nat me := true]> (bstarted s) /\
    exists l, bd s' = Devices.put_la l (bd s) /\ Devices.la_set (Devices.local (Devices.dev (bd s))) l) s.
Proof using All.
  intros Hok Hn Hf Hm Eme. destruct s as [[ps n ini [x h]] d ls q lk co dw it st kp]. cbn [bd] in *. unfold mpenter. apply wp_bind, wp_gets, wp_bind, wp_zoom. parts. apply wp_modify. parts.
  apply wp_bind. unfold seg_init. apply wp_bind, wp_zoom. parts. apply Devices.cpunum_wp; [done|]. rewrite (proj2 (Z.eqb_neq _ _) Hn), <- Eme. apply wp_zoom, wp_modify. parts.
  apply wp_bind, wp_zoom. parts. eapply wp_mono; [by apply Devices.lapicinit_wp|]. intros [] d' (l & -> & Hl). unfold mpmain, idtinit. apply wp_bind, wp_modify, wp_modify. parts.
  split_and!; [done|done| |by exists l]. do 2 f_equal. cbn [Machine.gs_cpu Machine.seginit]. unfold sizeof_cpu. dlia.
Qed.
End Start.

(** ** A machine with two processors *)

#[local] Instance ex_layer : Blocks.TxLayer Log.lstate := TxLog.tx_layer FsSpec.demo_blocks [] 20 12.




End Main.
