(* ===== verification/Programs.v ===== *)
(** * The small user programs: cat, wc, echo, ls, rm, mkdir, ln, kill, init and others

    [Module Programs] translates the programs as interaction trees: a system call is an
    event, the loops are [ITree.iter], and [exit] ends the tree with [None].  [printf] is
    the text of [Printf.printf], written byte by byte as [putc] does.

    The events are given a meaning by [handle], a kernel with named files, descriptors with
    the bytes still to be read, and two output channels; a [read] delivers as many bytes as
    an arbitrary sequence of sizes says.  [cat_copies]: cat writes the contents of its files
    in order.  [wc_counts]: wc prints the numbers of lines, words and bytes of each file,
    however the reads cut it into pieces. *)

From S2P Require Import Prelude CString Printf Fs.
From ITree Require Import ITree ITreeFacts Events.State Events.StateFacts.

Module Programs.

(** ** System calls *)

(** The fields of [struct stat] the programs use. *)
Record ustat := mkUstat { us_type : Z; us_ino : Z; us_size : Z }.

Variant sysE : Type -> Type :=
| Read (fd n : Z) : sysE (Z * list Z)
| Write (fd : Z) (bs : list Z) : sysE Z
| Open (path : list Z) (mode : Z) : sysE Z
| Close (fd : Z) : sysE Z
| Fstat (fd : Z) : sysE (option ustat)
| Unlink (path : list Z) : sysE Z
| Link (old new : list Z) : sysE Z
| Mkdir (path : list Z) : sysE Z
| Mknod (path : list Z) (major minor : Z) : sysE Z
| Dup (fd : Z) : sysE Z
| Fork : sysE Z
| Exec (path : list Z) (argv : list (list Z)) : sysE Z
| Wait : sysE Z
| Kill (pid : Z) : sysE Z
| Sleep (n : Z) : sysE Z
| Random : sysE Z
| RandomSet (z : Z) : sysE Z
| ChangeSeed (i z : Z) : sysE Z
| ActualSeed (i : Z) : sysE Z.

(** A program that returns a value or has called [exit]. *)
Definition prog (A : Type) : Type := itree sysE (option A).
Definition done {A} (a : A) : prog A := Ret (Some a).
Definition exit {A} : prog A := Ret None.
Definition call {A} (e : sysE A) : prog A := ITree.bind (ITree.trigger e) done.
Definition andthen {A B} (m : prog A) (k : A -> prog B) : prog B :=
  ITree.bind m (fun o => match o with Some a => k a | None => exit end).
Notation "'let!' x := m 'in' k" := (andthen m (fun x => k)) (at level 200, x pattern, m at level 200, k at level 200).
Notation "m >> k" := (andthen m (fun _ => k)) (at level 60, right associativity).
(** [while]: the body returns [Some] of the result to leave the loop. *)
Definition loop {A} (body : prog (option A)) : prog A :=
  ITree.iter (fun _ : unit => ITree.bind body (fun o =>
    match o with None => Ret (inr None) | Some None => Ret (inl tt) | Some (Some a) => Ret (inr (Some a)) end)) tt.

(** An argument of [printf]. *)
Inductive arg := AInt (z : Z) | AStr (s : list Z).
Definition arg_word (args : list arg) (i : nat) : Z :=
  match args !! i with Some (AInt z) => z | Some (AStr _) => Z.of_nat i + 1 | None => 0 end.
Definition arg_string (args : list arg) (p : Z) : list Z :=
  match args !! Z.to_nat (p - 1) with Some (AStr s) => s | _ => [] end.
Definition text (fmt : list Z) (args : list arg) : list Z := Printf.printf (arg_string args) (arg_word args) fmt.

Fixpoint puts (fd : Z) (bs : list Z) : prog unit :=
  match bs with
  | [] => done tt
  | c :: bs' => call (Write fd [c]) >> puts fd bs'
  end.
Definition printf (fd : Z) (fmt : list Z) (args : list arg) : prog unit := puts fd (text fmt args).

(** A line end in a format. *)
Definition nl : list Z := [10].

(** ** cat.c *)

(** The buffer holds what [read] has delivered. *)
Definition cat (fd : Z) : prog unit :=
  let! n := loop (let! r := call (Read fd 512) in
                  if 0 <? fst r then call (Write 1 (snd r)) >> done None else done (Some (fst r))) in
  if n <? 0 then printf 1 (bytes "cat: read error" ++ nl) [] >> exit else done tt.

Fixpoint cat_files (argv : list (list Z)) : prog unit :=
  match argv with
  | [] => exit
  | a :: argv' =>
      let! fd := call (Open a 0) in
      if fd <? 0 then printf 1 (bytes "cat: cannot open %s" ++ nl) [AStr a] >> exit
      else cat fd >> call (Close fd) >> cat_files argv'
  end.

Definition cat_main (argv : list (list Z)) : prog unit :=
  if (length argv <=? 1)%nat then cat 0 >> exit else cat_files (tail argv).

(** ** wc.c *)

Record counts := mkCounts { c_l : Z; c_w : Z; c_c : Z; inword : bool }.

Definition wc_byte (s : counts) (b : Z) : counts :=
  let c := s32 (c_c s + 1) in
  let l := if b =? 10 then s32 (c_l s + 1) else c_l s in
  match Str.strchr ([32; 13; 9; 10; 11; 0]) b with
  | Some _ => mkCounts l (c_w s) c false
  | None => if inword s then mkCounts l (c_w s) c true else mkCounts l (s32 (c_w s + 1)) c true
  end.

(** The loop over [read]; the result is the last value of [n] and the counts. *)
Definition wc_loop (fd : Z) (s : counts) : prog (Z * counts) :=
  ITree.iter (fun s => ITree.bind (call (Read fd 512)) (fun o =>
    match o with
    | None => Ret (inr None)
    | Some r => if 0 <? fst r then Ret (inl (foldl wc_byte s (snd r))) else Ret (inr (Some (fst r, s)))
    end)) s.

Definition wc_format : list Z := bytes "%d %d %d %s" ++ nl.

Definition wc (fd : Z) (name : list Z) : prog unit :=
  let! r := wc_loop fd (mkCounts 0 0 0 false) in
  if fst r <? 0 then printf 1 (bytes "wc: read error" ++ nl) [] >> exit
  else printf 1 wc_format [AInt (c_l (snd r)); AInt (c_w (snd r)); AInt (c_c (snd r)); AStr name].

Fixpoint wc_files (argv : list (list Z)) : prog unit :=
  match argv with
  | [] => exit
  | a :: argv' =>
      let! fd := call (Open a 0) in
      if fd <? 0 then printf 1 (bytes "wc: cannot open %s" ++ nl) [AStr a] >> exit
      else wc fd a >> call (Close fd) >> wc_files argv'
  end.

Definition wc_main (argv : list (list Z)) : prog unit :=
  if (length argv <=? 1)%nat then wc 0 [] >> exit else wc_files (tail argv).

(** ** echo.c, rm.c, mkdir.c, ln.c, kill.c, zombie.c *)

Fixpoint echo_args (argv : list (list Z)) : prog unit :=
  match argv with
  | [] => exit
  | a :: argv' => printf 1 (bytes "%s%s") [AStr a; AStr (match argv' with [] => nl | _ => bytes " " end)] >> echo_args argv'
  end.
Definition echo_main (argv : list (list Z)) : prog unit := echo_args (tail argv).

(** The loop of rm.c and of mkdir.c; it stops at the first failure. *)
Fixpoint each (e : list Z -> sysE Z) (msg : list Z) (argv : list (list Z)) : prog unit :=
  match argv with
  | [] => done tt
  | a :: argv' => let! r := call (e a) in if r <? 0 then printf 2 msg [AStr a] else each e msg argv'
  end.
Definition rm_main (argv : list (list Z)) : prog unit :=
  if (length argv <? 2)%nat then printf 2 (bytes "Usage: rm files..." ++ nl) [] >> exit
  else each Unlink (bytes "rm: %s failed to delete" ++ nl) (tail argv) >> exit.
Definition mkdir_main (argv : list (list Z)) : prog unit :=
  if (length argv <? 2)%nat then printf 2 (bytes "Usage: mkdir files..." ++ nl) [] >> exit
  else each Mkdir (bytes "mkdir: %s failed to create" ++ nl) (tail argv) >> exit.

Definition ln_main (argv : list (list Z)) : prog unit :=
  match argv with
  | [_; old; new] =>
      let! r := call (Link old new) in
      (if r <? 0 then printf 2 (bytes "link %s %s: failed" ++ nl) [AStr old; AStr new] else done tt) >> exit
  | _ => printf 2 (bytes "Usage: ln old new" ++ nl) [] >> exit
  end.

Fixpoint kill_args (argv : list (list Z)) : prog unit :=
  match argv with
  | [] => exit
  | a :: argv' => call (Kill (Str.atoi a)) >> kill_args argv'
  end.
Definition kill_main (argv : list (list Z)) : prog unit :=
  if (length argv <? 1)%nat then printf 2 (bytes "usage: kill pid..." ++ nl) [] >> exit else kill_args (tail argv).

Definition zombie_main : prog unit :=
  let! pid := call Fork in
  (if 0 <? pid then call (Sleep 5) >> done tt else done tt) >> exit.

(** ** random_test.c and seed_test.c *)

Definition random_test_main (argv : list (list Z)) : prog unit :=
  match argv with
  | [_] => (let! r := call Random in printf 1 (bytes "%d" ++ nl) [AInt r]) >> exit
  | [_; v] =>
      (let! r := call (RandomSet (Str.atoi v)) in
       if r <? 0 then printf 2 (bytes "Dummy_test: could not set" ++ nl) [] else done tt) >> exit
  | _ => printf 2 (bytes "dummy_test [optional_int_value]") [] >> exit
  end.

Definition seed_test_main (argv : list (list Z)) : prog unit :=
  match argv with
  | [_; i] => (let! r := call (ActualSeed (Str.atoi i)) in printf 1 (bytes "%d" ++ nl) [AInt r]) >> exit
  | [_; i; v] =>
      (let! r := call (ChangeSeed (Str.atoi i) (Str.atoi v)) in
       if r <? 0 then printf 2 (bytes "Cannot change seed") [] else done tt) >> exit
  | _ => printf 2 (bytes "seed_test format could be seed_test int or seed_test int long") [] >> exit
  end.

(** ** init.c *)

Definition O_RDWR : Z := 2.

(** [while((wpid=wait()) >= 0 && wpid != pid)] *)
Definition init_wait (pid : Z) : prog unit :=
  loop (let! wpid := call Wait in
        if (0 <=? wpid) && negb (wpid =? pid) then printf 1 (bytes "zombie!" ++ nl) [] >> done None else done (Some tt)).

(** One round of the endless loop. *)
Definition init_round : prog unit :=
  printf 1 (bytes "init: starting sh" ++ nl) [] >>
  let! pid := call Fork in
  if pid <? 0 then printf 1 (bytes "init: fork failed" ++ nl) [] >> exit
  else if pid =? 0 then call (Exec (bytes "sh") [bytes "sh"]) >> printf 1 (bytes "init: exec sh failed" ++ nl) [] >> exit
  else init_wait pid.

Definition init_main : prog unit :=
  (let! fd := call (Open (bytes "console") O_RDWR) in
   if fd <? 0 then call (Mknod (bytes "console") 1 1) >> call (Open (bytes "console") O_RDWR) >> done tt else done tt) >>
  call (Dup 0) >> call (Dup 0) >>
  loop (init_round >> done None).

(** ** ls.c *)

Definition namelen : nat := Z.to_nat Fs.DIRSIZ.

(** The loop of [fmtname]: [p] starts at [path+k] and stops before the character it
    returns. *)
Fixpoint last_slash (path : list Z) (k : nat) : nat :=
  if default 0 (path !! k) =? 47 then S k
  else match k with O => O | S k' => last_slash path k' end.

Definition fmtname (path : list Z) : list Z :=
  let p := drop (last_slash path (length path)) path in
  if (namelen <=? length p)%nat then p else p ++ replicate (namelen - length p) 32.

(** ulib.c *)
Definition stat (n : list Z) : prog (option ustat) :=
  let! fd := call (Open n 0) in
  if fd <? 0 then done None
  else
    let! r := call (Fstat fd) in
    call (Close fd) >>
    done r.

Definition ls_line (name : list Z) (st : ustat) : prog unit :=
  printf 1 (bytes "%s %d %d %d" ++ nl) [AStr (fmtname name); AInt (us_type st); AInt (us_ino st); AInt (us_size st)].

(** The entries of a directory; [buf] is the path with the slash. *)
Definition ls_dir (fd : Z) (buf : list Z) : prog unit :=
  loop (
    let! r := call (Read fd 16) in
    if negb (fst r =? 16) then done (Some tt)
    else if le_val (take 2 (snd r)) =? 0 then done None
    else
      let path := buf ++ Str.cstr (take namelen (drop 2 (snd r))) in
      let! st := stat path in
      match st with
      | None => printf 1 (bytes "ls: cannot stat %s" ++ nl) [AStr path] >> done None
      | Some st => ls_line path st >> done None
      end).

Definition ls (path : list Z) : prog unit :=
  let! fd := call (Open path 0) in
  if fd <? 0 then printf 2 (bytes "ls: cannot open %s" ++ nl) [AStr path]
  else
    let! st := call (Fstat fd) in
    match st with
    | None => printf 2 (bytes "ls: cannot stat %s" ++ nl) [AStr path] >> call (Close fd) >> done tt
    | Some st =>
        (if us_type st =? Fs.T_FILE then ls_line path st
         else if us_type st =? Fs.T_DIR then
           if (512 <? length path + 1 + namelen + 1)%nat then printf 1 (bytes "ls: path too long" ++ nl) []
           else ls_dir fd (path ++ [47])
         else done tt) >>
        call (Close fd) >> done tt
    end.

Fixpoint ls_files (argv : list (list Z)) : prog unit :=
  match argv with
  | [] => exit
  | a :: argv' => ls a >> ls_files argv'
  end.
Definition ls_main (argv : list (list Z)) : prog unit :=
  if (length argv <? 2)%nat then ls (bytes ".") >> exit else ls_files (tail argv).

(** The last component of a path, padded with blanks. *)
Definition padded (p : list Z) : list Z := if (namelen <=? length p)%nat then p else p ++ replicate (namelen - length p) 32.

Lemma no_slash (base : list Z) (i : nat) : 47 ∉ base -> (default 0 (base !! i) =? 47) = false.
Proof. intros Hn. destruct (base !! i) as [c|] eqn:E; [|done]. apply Z.eqb_neq. cbn. intros ->. by apply Hn, (list_elem_of_lookup_2 _ i). Qed.

Lemma last_slash_found (d base : list Z) j : 47 ∉ base -> last_slash (d ++ 47 :: base) (length d + S j) = S (length d).
Proof.
  intros Hn. assert (Hat : forall j, (d ++ 47 :: base) !! (length d + S j)%nat = base !! j).
  { intros i. rewrite lookup_app_r by lia. by replace (length d + S i - length d)%nat with (S i) by lia. }
  assert (Hsl : last_slash (d ++ 47 :: base) (length d) = S (length d)).
  { assert ((d ++ 47 :: base) !! length d = Some 47) as E by (rewrite lookup_app_r, Nat.sub_diag by lia; done).
    destruct (length d); cbn [last_slash]; by rewrite E. }
  induction j as [|j IH].
  - specialize (Hat 0%nat). rewrite Nat.add_1_r in *. cbn [last_slash]. rewrite Hat, no_slash by done. exact Hsl.
  - specialize (Hat (S j)). rewrite (Nat.add_succ_r (length d) (S j)) in *. cbn [last_slash]. rewrite Hat, no_slash by done. exact IH.
Qed.

Lemma last_slash_none (base : list Z) k : 47 ∉ base -> last_slash base k = 0%nat.
Proof. intros Hn. induction k as [|k IH]; cbn [last_slash]; by rewrite no_slash. Qed.

(** [fmtname] of a path is its last component. *)
Lemma fmtname_last (d base : list Z) : 47 ∉ base -> fmtname (d ++ 47 :: base) = padded base /\ fmtname base = padded base.
Proof.
  intros Hn. unfold fmtname. rewrite (last_slash_none base) by done. split; [|reflexivity].
  replace (length (d ++ 47 :: base)) with (length d + S (length base))%nat by (rewrite length_app; simpl; lia). rewrite last_slash_found by done.
  replace (drop (S (length d)) (d ++ 47 :: base)) with base; [done|].
  rewrite drop_app_ge by lia. by replace (S (length d) - length d)%nat with 1%nat by lia.
Qed.

(** ** A kernel for the programs *)

(** Files by name, the bytes each open descriptor has still to deliver, what was written to
    descriptors 1 and 2, the number of reads so far, the processes killed, and the results
    the next [fork] and [wait] calls have. *)
Record world := mkWorld {
  files : gmap (list Z) (list Z);
  rest : gmap Z (list Z);
  out : list Z;
  err : list Z;
  clock : nat;
  killed : list Z;
  forks : list Z;
  waits : list Z }.

Definition set_files f w := mkWorld f (rest w) (out w) (err w) (clock w) (killed w) (forks w) (waits w).
Definition set_rest r w := mkWorld (files w) r (out w) (err w) (clock w) (killed w) (forks w) (waits w).
Definition set_out o w := mkWorld (files w) (rest w) o (err w) (clock w) (killed w) (forks w) (waits w).
Definition set_err o w := mkWorld (files w) (rest w) (out w) o (clock w) (killed w) (forks w) (waits w).
Definition tick w := mkWorld (files w) (rest w) (out w) (err w) (S (clock w)) (killed w) (forks w) (waits w).

Section Run.
(** The [t]-th read delivers at most [sizes t + 1] bytes. *)
Context (sizes : nat -> nat).

(** The lowest free descriptor; 1 and 2 are the outputs. *)
Definition fresh (w : world) : Z :=
  default (-1) (head (filter (fun fd => rest w !! fd = None) (0 :: (Z.of_nat <$> seq 3 13)))).

Definition step {A} (e : sysE A) (w : world) : world * A :=
  match e in sysE A return world * A with
  | Read fd n =>
      match rest w !! fd with
      | Some d => let k := Nat.min (Z.to_nat n) (S (sizes (clock w))) in
                  (tick (set_rest (<[fd:=drop k d]> (rest w)) w), (Z.of_nat (length (take k d)), take k d))
      | None => (w, (-1, []))
      end
  | Write fd bs =>
      if fd =? 1 then (set_out (out w ++ bs) w, Z.of_nat (length bs))
      else if fd =? 2 then (set_err (err w ++ bs) w, Z.of_nat (length bs)) else (w, -1)
  | Open path _ =>
      match files w !! path with
      | Some d => if fresh w <? 0 then (w, -1) else (set_rest (<[fresh w:=d]> (rest w)) w, fresh w)
      | None => (w, -1)
      end
  | Close fd => (set_rest (delete fd (rest w)) w, 0)
  | Fstat _ => (w, None)
  | Unlink path => match files w !! path with Some _ => (set_files (delete path (files w)) w, 0) | None => (w, -1) end
  | Link a b => match files w !! a, files w !! b with
                | Some d, None => (set_files (<[b:=d]> (files w)) w, 0)
                | _, _ => (w, -1)
                end
  | Mkdir path | Mknod path _ _ =>
      match files w !! path with Some _ => (w, -1) | None => (set_files (<[path:=[]]> (files w)) w, 0) end
  | Dup _ | Exec _ _ | Sleep _ | Random | RandomSet _ | ChangeSeed _ _ | ActualSeed _ => (w, -1)
  | Fork => (mkWorld (files w) (rest w) (out w) (err w) (clock w) (killed w) (tail (forks w)) (waits w), default (-1) (head (forks w)))
  | Wait => (mkWorld (files w) (rest w) (out w) (err w) (clock w) (killed w) (forks w) (tail (waits w)), default (-1) (head (waits w)))
  | Kill pid => (mkWorld (files w) (rest w) (out w) (err w) (clock w) (killed w ++ [pid]) (forks w) (waits w), 0)
  end.

Definition handle : forall A, sysE A -> Monads.stateT world (itree void1) A := fun A e w => Ret (step e w).

(** A tree ends from [w] in [w'] with the result [a]. *)
Definition ends {A} (t : itree sysE A) (w : world) (a : A) (w' : world) : Prop := interp_state handle t w ≈ Ret (w', a).

Lemma to_ret {A} (a : A) w : ends (Ret a) w a w.
Proof. unfold ends. rewrite interp_state_ret. reflexivity. Qed.

Lemma to_bind {A B} (t : itree sysE A) (k : A -> itree sysE B) w a w1 b w2 :
  ends t w a w1 -> ends (k a) w1 b w2 -> ends (ITree.bind t k) w b w2.
Proof.
  unfold ends. intros H1 H2. pose proof (interp_state_bind handle t k w) as H. cbn in H. rewrite H, H1, bind_ret_l. exact H2.
Qed.

Lemma to_trigger {A} (e : sysE A) w : ends (ITree.trigger e) w (snd (step e w)) (fst (step e w)).
Proof. unfold ends. rewrite interp_state_trigger. unfold handle. by destruct (step e w). Qed.

Lemma to_stop {I A} (body : I -> itree sysE (I + A)) i w r w' : ends (body i) w (inr r) w' -> ends (ITree.iter body i) w r w'.
Proof.
  intros H. unfold ends. rewrite unfold_iter. change (ends (ITree.bind (body i) (fun lr => match lr with inl l => Tau (ITree.iter body l) | inr r => Ret r end)) w r w').
  eapply to_bind; [exact H|]. apply to_ret.
Qed.

Lemma to_next {I A} (body : I -> itree sysE (I + A)) i w j w1 r w' :
  ends (body i) w (inl j) w1 -> ends (ITree.iter body j) w1 r w' -> ends (ITree.iter body i) w r w'.
Proof.
  intros H1 H2. unfold ends. rewrite unfold_iter.
  change (ends (ITree.bind (body i) (fun lr => match lr with inl l => Tau (ITree.iter body l) | inr r => Ret r end)) w r w').
  eapply to_bind; [exact H1|]. unfold ends. rewrite tau_eutt. exact H2.
Qed.

Lemma to_call {A} (e : sysE A) w : ends (call e) w (Some (snd (step e w))) (fst (step e w)).
Proof. eapply to_bind; [apply to_trigger|]. apply to_ret. Qed.

Lemma to_then {A B} (m : prog A) (k : A -> prog B) w a w1 b w2 :
  ends m w (Some a) w1 -> ends (k a) w1 b w2 -> ends (andthen m k) w b w2.
Proof. intros H1 H2. eapply to_bind; [exact H1|]. exact H2. Qed.

(** A call followed by the rest of the program. *)
Lemma to_step {A B} (e : sysE A) (k : A -> prog B) w b w2 :
  ends (k (snd (step e w))) (fst (step e w)) b w2 -> ends (andthen (call e) k) w b w2.
Proof. intros H. eapply to_then; [apply to_call|exact H]. Qed.

Lemma loop_next {A} (body : prog (option A)) w w1 r w2 :
  ends body w (Some None) w1 -> ends (loop body) w1 r w2 -> ends (loop body) w r w2.
Proof. intros H1 H2. eapply to_next; [|exact H2]. eapply to_bind; [exact H1|]. apply to_ret. Qed.

Lemma loop_stop {A} (body : prog (option A)) w a w1 : ends body w (Some (Some a)) w1 -> ends (loop body) w (Some a) w1.
Proof. intros H. apply to_stop. eapply to_bind; [exact H|]. apply to_ret. Qed.

Lemma set_out_out o o' w : set_out o' (set_out o w) = set_out o' w.
Proof. done. Qed.
Lemma set_out_id w : set_out (out w) w = w.
Proof. by destruct w. Qed.

Lemma to_puts bs w : ends (puts 1 bs) w (Some tt) (set_out (out w ++ bs) w).
Proof.
  revert w. induction bs as [|c bs IH]; intros w; cbn [puts].
  - rewrite app_nil_r, set_out_id. apply to_ret.
  - apply to_step. cbn [step fst snd]. change (1 =? 1) with true. cbn iota. cbn [fst snd].
    replace (set_out (out w ++ c :: bs) w) with (set_out (out (set_out (out w ++ [c]) w) ++ bs) (set_out (out w ++ [c]) w)); [apply IH|].
    cbn [out set_out]. by rewrite set_out_out, <- app_assoc.
Qed.

Definition piece (w : world) : nat := Nat.min 512 (S (sizes (clock w))).

Lemma step_read fd w d : rest w !! fd = Some d ->
  step (Read fd 512) w = (tick (set_rest (<[fd:=drop (piece w) d]> (rest w)) w), (Z.of_nat (length (take (piece w) d)), take (piece w) d)).
Proof. intros Hd. unfold step. by rewrite Hd. Qed.

Lemma step_write bs w : step (Write 1 bs) w = (set_out (out w ++ bs) w, Z.of_nat (length bs)).
Proof. done. Qed.

(** Reading a descriptor to its end writes its bytes. *)
Definition drained (fd : Z) (d : list Z) (n : nat) (w : world) : world :=
  mkWorld (files w) (<[fd:=[]]> (rest w)) (out w ++ d) (err w) (clock w + n) (killed w) (forks w) (waits w).

Lemma cat_drains fd d w : rest w !! fd = Some d -> exists n, ends (cat fd) w (Some tt) (drained fd d n w).
Proof.
  intros Hd. assert (exists n, ends (loop (let! r := call (Read fd 512) in
    if 0 <? fst r then call (Write 1 (snd r)) >> done None else done (Some (fst r)))) w (Some 0) (drained fd d n w)) as [n H].
  { remember (length d) as m eqn:Hm. revert d w Hd Hm. induction m as [m IH] using lt_wf_ind. intros d w Hd ->.
    assert (Hk : (1 <= piece w)%nat) by (unfold piece; lia). destruct d as [|b d].
    - exists 1%nat. apply loop_stop, to_step. rewrite (step_read _ _ _ Hd). cbn [fst snd]. rewrite take_nil, drop_nil. cbn [length Z.of_nat Z.ltb Z.compare].
      replace (drained fd [] 1 w) with (tick (set_rest (<[fd:=[]]> (rest w)) w)); [apply to_ret|]. unfold drained, tick. cbn.
      by rewrite app_nil_r, Nat.add_1_r.
    - set (k := piece w) in *. set (w1 := set_out (out w ++ take k (b :: d)) (tick (set_rest (<[fd:=drop k (b :: d)]> (rest w)) w))).
      destruct (IH (length (drop k (b :: d)))) with (d := drop k (b :: d)) (w := w1) as [n H]; [rewrite length_drop; simpl; lia|apply lookup_insert_eq|done|].
      exists (S n). eapply (loop_next _ _ w1).
      + apply to_step. rewrite (step_read _ _ _ Hd). fold k. cbn [fst snd]. rewrite (proj2 (Z.ltb_lt 0 _)) by (rewrite length_take; simpl; lia).
        apply to_step. rewrite step_write. apply to_ret.
      + replace (drained fd (b :: d) (S n) w) with (drained fd (drop k (b :: d)) n w1); [exact H|]. unfold drained, w1. cbn [files rest out err clock killed forks waits set_out set_rest tick].
        rewrite insert_insert_eq, <- app_assoc, take_drop, Nat.add_succ_r. done. }
  exists n. eapply to_then; [exact H|]. apply to_ret.
Qed.

(** ** Programs that go through their arguments *)

Definition wrote (o : list Z) (n : nat) (w : world) : world :=
  mkWorld (files w) (rest w) (out w ++ o) (err w) (clock w + n) (killed w) (forks w) (waits w).

Lemma wrote_wrote o n o' n' w : wrote o' n' (wrote o n w) = wrote (o ++ o') (n + n') w.
Proof. unfold wrote. cbn. by rewrite app_assoc, Nat.add_assoc. Qed.

Lemma wrote_nil w : wrote [] 0 w = w.
Proof. unfold wrote. rewrite app_nil_r, Nat.add_0_r. by destruct w. Qed.

Lemma wrote_out o w : set_out (out w ++ o) w = wrote o 0 w.
Proof. unfold wrote, set_out. by rewrite Nat.add_0_r. Qed.

Lemma fresh_free w : 0 <= fresh w -> rest w !! fresh w = None.
Proof.
  unfold fresh. destruct (filter _ _) as [|fd l] eqn:E; [cbn; lia|]. intros _. cbn.
  assert (H : fd ∈ filter (fun fd => rest w !! fd = None) (0 :: (Z.of_nat <$> seq 3 13))) by (rewrite E; left).
  by apply list_elem_of_filter in H as [H _].
Qed.

(** A program that opens each file, reads it with [body], which writes [report], and closes
    it. *)
Fixpoint over_files (body : Z -> list Z -> prog unit) (msg : list Z) (argv : list (list Z)) : prog unit :=
  match argv with
  | [] => exit
  | a :: argv' =>
      let! fd := call (Open a 0) in
      if fd <? 0 then printf 1 msg [AStr a] >> exit
      else body fd a >> call (Close fd) >> over_files body msg argv'
  end.

Lemma cat_over argv : cat_files argv = over_files (fun fd _ => cat fd) (bytes "cat: cannot open %s" ++ nl) argv.
Proof. induction argv as [|a argv IH]; [reflexivity|]. cbn [cat_files over_files]. rewrite IH. reflexivity. Qed.
Lemma wc_over argv : wc_files argv = over_files wc (bytes "wc: cannot open %s" ++ nl) argv.
Proof. induction argv as [|a argv IH]; [reflexivity|]. cbn [wc_files over_files]. rewrite IH. reflexivity. Qed.

(** The message for the first file that does not exist. *)
Definition missing_text (msg : list Z) (post : list (list Z)) : list Z :=
  match post with [] => [] | a :: _ => text msg [AStr a] end.
Definition missing (w : world) (post : list (list Z)) : Prop := match post with [] => True | a :: _ => files w !! a = None end.

Lemma over_files_ends body msg report pre ds post : forall w, 0 <= fresh w ->
  (forall fd a d w1, d ∈ ds -> rest w1 !! fd = Some d -> exists n, ends (body fd a) w1 (Some tt) (drained fd (report a d) n w1)) ->
  Forall2 (fun a d => files w !! a = Some d) pre ds -> missing w post ->
  exists n, ends (over_files body msg (pre ++ post)) w None (wrote (mjoin (zip_with report pre ds) ++ missing_text msg post) n w).
Proof.
  revert ds. induction pre as [|a pre IH]; intros ds w Hf Hb Hall Hm.
  - apply Forall2_nil_inv_l in Hall as ->. cbn. exists 0%nat. destruct post as [|a post]; [rewrite wrote_nil; apply to_ret|].
    apply to_step. unfold step. cbn [missing] in Hm. rewrite Hm. cbn [fst snd Z.ltb Z.compare]. eapply to_then; [apply to_puts|].
    rewrite wrote_out. apply to_ret.
  - apply Forall2_cons_inv_l in Hall as (d & ds' & Hd & Hall & ->). cbn [app over_files zip_with mjoin list_join].
    pose proof (fresh_free w Hf) as Hfree. set (w1 := set_rest (<[fresh w:=d]> (rest w)) w).
    destruct (Hb (fresh w) a d w1) as [n Hn]; [left|apply lookup_insert_eq|].
    destruct (IH ds' (wrote (report a d) n w)) as [n' Hn']; [done|intros; eapply Hb; [by right|done]|done|done|].
    exists (n + n')%nat. apply to_step. assert (step (Open a 0) w = (w1, fresh w)) as ->.
    { unfold step. by rewrite Hd, (proj2 (Z.ltb_ge _ _)) by lia. }
    cbn [fst snd]. rewrite (proj2 (Z.ltb_ge _ _)) by lia. eapply to_then; [exact Hn|]. apply to_step. rewrite wrote_wrote, app_assoc in Hn'.
    replace (fst (step (Close (fresh w)) (drained (fresh w) (report a d) n w1))) with (wrote (report a d) n w); [exact Hn'|].
    unfold drained, w1, wrote, step. cbn. by rewrite insert_insert_eq, delete_insert_id.
Qed.
(** ** wc *)

Definition blank (b : Z) : bool := bool_decide (b ∈ [32; 13; 9; 10; 11]).

(** The text cut at the blanks, and its words. *)
Fixpoint fields (d : list Z) : list (list Z) :=
  match d with
  | [] => [[]]
  | b :: d' => if blank b then [] :: fields d'
               else match fields d' with f :: fs => (b :: f) :: fs | [] => [[b]] end
  end.
Definition words (d : list Z) : list (list Z) := filter (fun f => f <> []) (fields d).
Definition lines (d : list Z) : Z := Z.of_nat (length (filter (fun b => b = 10) d)).

Definition starts_word (d : list Z) : bool := match d with b :: _ => negb (blank b) | [] => false end.

Lemma fields_head d : exists f fs, fields d = f :: fs /\ (starts_word d = true <-> f <> []).
Proof.
  destruct d as [|b d]; cbn [fields starts_word]; [by exists [], []|]. destruct (blank b); [by exists [], (fields d)|].
  destruct (fields d) as [|f fs]; by eexists _, _.
Qed.

Lemma words_cons b d : Z.of_nat (length (words (b :: d))) =
  if blank b then Z.of_nat (length (words d)) else Z.of_nat (length (words d)) + 1 - (if starts_word d then 1 else 0).
Proof.
  unfold words. cbn [fields]. destruct (blank b); [by rewrite filter_cons_False by tauto|].
  destruct (fields_head d) as (f & fs & -> & Hf). rewrite filter_cons_True by done. destruct (starts_word d).
  - rewrite filter_cons_True by (by apply Hf). simpl. lia.
  - destruct f as [|x f]; [rewrite filter_cons_False by tauto; simpl; lia|]. by assert (false = true) by (by apply Hf).
Qed.

Lemma strchr_blank b : (if Str.strchr [32; 13; 9; 10; 11; 0] b then true else false) = blank b.
Proof.
  unfold blank. destruct (decide (b ∈ [32; 13; 9; 10; 11])) as [Hb|Hb].
  - rewrite bool_decide_true by done. repeat (apply elem_of_cons in Hb as [->|Hb]; [reflexivity|]). by apply not_elem_of_nil in Hb.
  - rewrite bool_decide_false by done. cbn [Str.strchr]. repeat (apply not_elem_of_cons in Hb as [?%not_eq_sym%Z.eqb_neq Hb]).
    repeat match goal with H : (_ =? b) = false |- _ => rewrite H; clear H end. reflexivity.
Qed.

(** The counts after the bytes [d]. *)
Lemma wc_fold d : forall s, 0 <= c_l s <= c_c s -> 0 <= c_w s <= c_c s -> c_c s + Z.of_nat (length d) < 2147483648 ->
  let s' := foldl wc_byte s d in c_c s' = c_c s + Z.of_nat (length d) /\ c_l s' = c_l s + lines d /\
  c_w s' = c_w s + Z.of_nat (length (words d)) - (if inword s && starts_word d then 1 else 0).
Proof.
  induction d as [|b d IH]; intros s Hl Hw Hc; cbv zeta.
  - change (words []) with (@nil (list Z)). change (lines []) with 0. cbn [foldl starts_word length]. rewrite andb_false_r. lia.
  - cbn [foldl length] in *. rewrite words_cons. cbn [starts_word]. pose proof (strchr_blank b) as Hb.
    assert (Hlin : lines (b :: d) = (if b =? 10 then 1 else 0) + lines d).
    { unfold lines. rewrite filter_cons. destruct (Z.eqb_spec b 10); [rewrite decide_True by done; simpl; lia|by rewrite decide_False by done]. }
    set (s1 := wc_byte s b). assert (E : c_c s1 = c_c s + 1 /\ c_l s1 = c_l s + (if b =? 10 then 1 else 0) /\
      c_w s1 = c_w s + (if blank b then 0 else if inword s then 0 else 1) /\ inword s1 = negb (blank b)).
    { unfold s1, wc_byte. rewrite <- Hb. destruct (Str.strchr _ b), (inword s), (b =? 10); cbn [c_c c_l c_w inword]; rewrite ?s32_small by lia; split_and!; lia || done. }
    destruct E as (Ec & El & Ew & Ei). destruct (IH s1) as (H1 & H2 & H3).
    { rewrite El, Ec. destruct (b =? 10); lia. }
    { rewrite Ew, Ec. destruct (blank b), (inword s); lia. }
    { lia. }
    rewrite H1, H2, H3, Ec, El, Ew, Ei, Hlin. split_and!; [lia|lia|]. destruct (blank b), (inword s), (starts_word d); cbn [negb andb]; lia.
Qed.

Lemma wc_loop_ends fd d : forall s w, rest w !! fd = Some d ->
  exists n, ends (wc_loop fd s) w (Some (0, foldl wc_byte s d)) (drained fd [] n w).
Proof.
  remember (length d) as m eqn:Hm. revert d Hm. induction m as [m IH] using lt_wf_ind. intros d -> s w Hd.
  assert (Hk : (1 <= piece w)%nat) by (unfold piece; lia). destruct d as [|b d].
  - exists 1%nat. apply to_stop. eapply to_bind; [apply to_call|]. rewrite (step_read _ _ _ Hd). cbn [fst snd]. rewrite take_nil, drop_nil.
    cbn [length Z.of_nat Z.ltb Z.compare foldl]. replace (drained fd [] 1 w) with (tick (set_rest (<[fd:=[]]> (rest w)) w)); [apply to_ret|].
    unfold drained, tick. cbn. by rewrite app_nil_r, Nat.add_1_r.
  - set (k := piece w) in *. set (w1 := tick (set_rest (<[fd:=drop k (b :: d)]> (rest w)) w)).
    destruct (IH (length (drop k (b :: d)))) with (d := drop k (b :: d)) (s := foldl wc_byte s (take k (b :: d))) (w := w1) as [n H];
      [rewrite length_drop; simpl; lia|done|apply lookup_insert_eq|].
    exists (S n). rewrite <- foldl_app, take_drop in H. eapply (to_next _ _ _ (foldl wc_byte s (take k (b :: d))) w1).
    + eapply to_bind; [apply to_call|]. rewrite (step_read _ _ _ Hd). fold k. cbn [fst snd].
      rewrite (proj2 (Z.ltb_lt 0 _)) by (rewrite length_take; simpl; lia). apply to_ret.
    + replace (drained fd [] (S n) w) with (drained fd [] n w1); [exact H|]. unfold drained, w1.
      cbn [files rest out err clock killed forks waits set_out set_rest tick]. by rewrite insert_insert_eq, Nat.add_succ_r.
Qed.

(** What wc prints for a file. *)
Definition wc_report (name d : list Z) : list Z :=
  text wc_format [AInt (lines d); AInt (Z.of_nat (length (words d))); AInt (Z.of_nat (length d)); AStr name].

Lemma wc_drains fd name d w : Z.of_nat (length d) < 2147483648 -> rest w !! fd = Some d ->
  exists n, ends (wc fd name) w (Some tt) (drained fd (wc_report name d) n w).
Proof.
  intros Hlen Hd. destruct (wc_loop_ends fd d (mkCounts 0 0 0 false) w Hd) as [n H]. exists n. eapply to_then; [exact H|]. cbn [fst snd Z.ltb Z.compare].
  destruct (wc_fold d (mkCounts 0 0 0 false)) as (E1 & E2 & E3); cbn [c_l c_w c_c inword andb] in *; [lia|lia|lia|].
  rewrite E1, E2, E3, !Z.add_0_l, Z.sub_0_r. unfold printf, wc_report. set (o := text _ _).
  replace (drained fd o n w) with (set_out (out (drained fd [] n w) ++ o) (drained fd [] n w)); [apply to_puts|].
  unfold drained, set_out. cbn [files rest out err clock killed forks waits]. by rewrite app_nil_r.
Qed.
(** ** The other programs *)

(** kill signals the processes whose numbers its arguments are. *)
Lemma kill_sends name argv w : exists w', ends (kill_main (name :: argv)) w None w' /\ killed w' = killed w ++ (Str.atoi <$> argv).
Proof.
  unfold kill_main. cbn [length tail]. change (S (length argv) <? 1)%nat with false. cbn iota.
  revert w. induction argv as [|a argv IH]; intros w; cbn [kill_args].
  - exists w. split; [apply to_ret|]. by rewrite app_nil_r.
  - edestruct IH as (w' & H & E). exists w'. split; [apply to_step; exact H|]. rewrite E. cbn. by rewrite <- app_assoc.
Qed.

(** rm removes its arguments up to the first one that cannot be removed. *)
Lemma rm_removes name pre post w : NoDup pre -> Forall (fun a => is_Some (files w !! a)) pre -> missing w post -> (0 < length (pre ++ post))%nat ->
  exists w', ends (rm_main (name :: pre ++ post)) w None w' /\ (forall a, files w' !! a = if decide (a ∈ pre) then None else files w !! a) /\ out w' = out w.
Proof.
  intros Hnd Hall Hm Hl. unfold rm_main. cbn [length tail]. rewrite (proj2 (Nat.ltb_ge _ _)) by lia. set (msg := bytes _ ++ nl). clearbody msg. clear Hl.
  assert (Hputs : forall bs w, exists o, ends (puts 2 bs) w (Some tt) (set_err o w)).
  { induction bs as [|c bs IH]; intros v; cbn [puts]; [exists (err v); destruct v; apply to_ret|].
    destruct (IH (set_err (err v ++ [c]) v)) as [o H]. exists o. apply to_step. exact H. }
  assert (exists w', ends (each Unlink msg (pre ++ post)) w (Some tt) w' /\ (forall a, files w' !! a = if decide (a ∈ pre) then None else files w !! a) /\ out w' = out w) as (w' & H & Hf & Ho).
  { revert w Hall Hm. induction Hnd as [|a pre Ha Hnd IH]; intros w Hall Hm; cbn [app each].
    - assert (Hn : forall a, files w !! a = if decide (a ∈ []) then None else files w !! a) by (intros a; by rewrite decide_False by apply not_elem_of_nil).
      destruct post as [|b post]; cbn [each]; [exists w; split; [apply to_ret|done]|]. destruct (Hputs (text msg [AStr b]) w) as [o H].
      exists (set_err o w). split; [|done]. apply to_step. unfold step. cbn [missing] in Hm. rewrite Hm. exact H.
    - apply Forall_cons in Hall as [[d Hd] Hall]. destruct (IH (set_files (delete a (files w)) w)) as (w' & H & Hf & Ho).
      + eapply Forall_impl; [apply Forall_and; split; [exact Hall|apply Forall_forall; intros x Hx; exact Hx]|]. cbn. intros x [Hx Hin].
        rewrite lookup_delete_ne; [done|]. by intros ->.
      + destruct post as [|b post]; [done|]. cbn [missing set_files files] in *. destruct (decide (a = b)) as [->|]; [apply lookup_delete_eq|by rewrite lookup_delete_ne].
      + exists w'. split; [apply to_step; unfold step; rewrite Hd; exact H|]. split; [|exact Ho]. intros x. rewrite Hf. cbn [set_files files].
        destruct (decide (x = a)) as [->|Hne]; [rewrite lookup_delete_eq, (decide_True (P := a ∈ a :: pre)) by left; by case_decide|].
        rewrite lookup_delete_ne by done. repeat case_decide; set_solver. }
  exists w'. split; [|done]. eapply to_then; [exact H|]. apply to_ret.
Qed.

(** In one round init starts a shell, reaps the orphans that exit before it, and goes on
    when the shell has exited. *)
Lemma init_reaps w pid fs zs ws : forks w = pid :: fs -> 0 < pid -> waits w = zs ++ pid :: ws -> Forall (fun z => 0 <= z /\ z <> pid) zs ->
  exists w', ends init_round w (Some tt) w' /\ forks w' = fs /\ waits w' = ws /\
    out w' = out w ++ text (bytes "init: starting sh" ++ nl) [] ++ mjoin (replicate (length zs) (text (bytes "zombie!" ++ nl) [])).
Proof.
  intros Hf Hp Hw Hz. unfold init_round, init_wait, printf. generalize (text (bytes "init: starting sh" ++ nl) []) (text (bytes "zombie!" ++ nl) []).
  intros o1 o2. set (w1 := mkWorld (files w) (rest w) (out w ++ o1) (err w) (clock w) (killed w) fs (waits w)).
  assert (exists w', ends (loop (let! wpid := call Wait in if (0 <=? wpid) && negb (wpid =? pid) then puts 1 o2 >> done None else done (Some tt))) w1 (Some tt) w' /\
    forks w' = fs /\ waits w' = ws /\ out w' = out w1 ++ mjoin (replicate (length zs) o2)) as (w' & H & H1 & H2 & H3).
  { assert (Hf1 : forks w1 = fs) by done. assert (Hw1 : waits w1 = zs ++ pid :: ws) by done. clearbody w1. clear Hw Hf w o1.
    revert w1 Hf1 Hw1. induction Hz as [|z zs [Hz0 Hzp] Hz IH]; intros w Hf Hw.
    - eexists. split; [apply loop_stop, to_step; unfold step; rewrite Hw; cbn [fst snd head tail app default]|].
      + change (default (-1) (Some pid)) with pid. rewrite Z.eqb_refl, andb_false_r. apply to_ret.
      + cbn. by rewrite app_nil_r.
    - set (v := mkWorld (files w) (rest w) (out w ++ o2) (err w) (clock w) (killed w) (forks w) (zs ++ pid :: ws)).
      destruct (IH v) as (w' & H & H1 & H2 & H3); [done|done|]. exists w'. split_and!; [|done|done|].
      + eapply (loop_next _ _ v); [|exact H]. apply to_step. unfold step. rewrite Hw. cbn [fst snd head tail app].
        change (default (-1) (Some z)) with z. rewrite (proj2 (Z.leb_le 0 z)), (proj2 (Z.eqb_neq z pid)) by done. cbn [andb negb].
        eapply to_then; [apply to_puts|]. apply to_ret.
      + rewrite H3. cbn. by rewrite <- app_assoc. }
  exists w'. split_and!; [|done|done|rewrite H3; unfold w1; cbn [out]; by rewrite <- app_assoc]. eapply to_then; [apply to_puts|]. apply to_step. unfold step. cbn [forks set_out]. rewrite Hf.
  cbn [fst snd head tail]. change (default (-1) (Some pid)) with pid. rewrite (proj2 (Z.ltb_ge pid 0)), (proj2 (Z.eqb_neq pid 0)) by lia. exact H.
Qed.

End Run.

(** cat with the names of files that can be opened, whatever number of bytes each read delivers, writes exactly their contents one after the other and exits with every descriptor it opened closed; it stops with a message at the first name that cannot be opened. *)
Lemma cat_copies sizes w name pre ds post : 0 <= fresh w -> (0 < length (pre ++ post))%nat ->
  Forall2 (fun a d => files w !! a = Some d) pre ds -> missing w post ->
  exists n, ends sizes (cat_main (name :: pre ++ post)) w None
    (wrote (mjoin ds ++ missing_text (bytes "cat: cannot open %s" ++ nl) post) n w).
Proof.
  intros Hf Hl Hall Hm. unfold cat_main. cbn [length tail]. rewrite (proj2 (Nat.leb_gt _ _)) by lia. rewrite cat_over.
  destruct (over_files_ends sizes (fun fd _ => cat fd) (bytes "cat: cannot open %s" ++ nl) (fun _ d => d) pre ds post w) as [n Hn]; [done| |done|done|].
  - intros fd a d w1 _ Hd. by apply cat_drains.
  - exists n. assert (zip_with (fun _ d => d) pre ds = ds) as E; [|by rewrite E in Hn].
    clear - Hall. induction Hall; cbn; [done|]. by f_equal.
Qed.

(** C27: wc with the names of files that can be opened prints for each of them, in order, the number of newlines, the number of words (the maximal runs of bytes that are not blank) and the number of bytes, whatever number of bytes each read delivers and even when it cuts a word in two; it stops with a message at the first name that cannot be opened. *)
Theorem wc_counts sizes w name pre ds post : 0 <= fresh w -> (0 < length (pre ++ post))%nat ->
  Forall2 (fun a d => files w !! a = Some d) pre ds -> Forall (fun d => Z.of_nat (length d) < 2147483648) ds -> missing w post ->
  exists n, ends sizes (wc_main (name :: pre ++ post)) w None
    (wrote (mjoin (zip_with wc_report pre ds) ++ missing_text (bytes "wc: cannot open %s" ++ nl) post) n w).
Proof.
  intros Hf Hl Hall Hd Hm. unfold wc_main. cbn [length tail]. rewrite (proj2 (Nat.leb_gt _ _)) by lia. rewrite wc_over.
  apply (over_files_ends sizes wc (bytes "wc: cannot open %s" ++ nl) wc_report); [done| |done|done].
  intros fd a d w1 Hin Hr. rewrite Forall_forall in Hd. apply wc_drains; [by apply Hd|done].
Qed.
(** ** Two files *)

Definition ex_world : world :=
  mkWorld {[bytes "a" := bytes "one two" ++ nl ++ bytes " three"; bytes "b" := bytes "x" ++ nl]} ∅ [] [] 0 [] [] [].

(** Reads of one byte. *)
Lemma wc_counts_witness : exists w', ends (fun _ => 0%nat) (wc_main [bytes "wc"; bytes "a"; bytes "c"]) ex_world None w' /\
  out w' = bytes "1 3 14 a" ++ nl ++ bytes "wc: cannot open c" ++ nl.
Proof.
  destruct (wc_counts (fun _ => 0%nat) ex_world (bytes "wc") [bytes "a"] [bytes "one two" ++ nl ++ bytes " three"] [bytes "c"]) as [n H].
  - by vm_compute.
  - simpl. lia.
  - repeat constructor; vm_compute; reflexivity.
  - repeat constructor.
  - vm_compute. reflexivity.
  - eexists. split; [exact H|]. vm_compute. reflexivity.
Defined.

End Programs.
